(* ===== verification/_CoqProject ===== *)
-Q . S2P
Prelude.v
GoBytes.v
GoStrings.v
KeyOrder.v
Values.v
BinlogEvent.v
BinlogPayload.v
PrimaryKey.v
DeltaData.v
Serde.v
SegmentReader.v
SegmentScan.v
MetaKV.v
Tikv.v
AuditKV.v
Paths.v
Completion.v
Framework.v
Listing.v
Segments.v
Collections.v
Commands.v
Backup.v
Remove.v
InstanceOps.v
Repair.v
Alter.v
WalMeta.v
Messages.v
Restore.v
WalHeap.v
WalBuffers.v
WalScanner.v
CatchUp.v
Compare.v
ParquetWriter.v
PartitionKey.v
StateUtil.v
SegmentFiles.v
IndexFiles.v
Healthz.v
GoSort.v
KvTree.v
ShowSegments.v
ShowMeta.v
Balance.v
Shell.v
Nodes.v
ObjectStore.v
Coordinators.v
Distribution.v
Stats.v
Probe.v
ShowCluster.v
Workspace.v
ScanCommand.v
