(* ===== verification/Prelude.v ===== *)
(** * Birdwatcher: a verification library

    Birdwatcher is a shell that inspects, backs up and repairs a Milvus cluster from
    the outside: it reads the cluster's metadata from etcd or TiKV, the files of its
    segments from the object store, and its write-ahead log.  This library models the
    parts of it that compute, and proves what makes them correct.

    ** The program and its model

    - The storage readers ([src/storage]).  A segment is a set of binlog files per
      field.  A binlog of version 1 is a sequence of events ([BinlogEvent]: headers,
      descriptor, event data; [event_header.go], [event_data.go], [event_reader.go],
      [binlog_reader.go]) with a parquet payload ([BinlogPayload]:
      [payload_reader.go], [index_reader.go]); version 2 is parquet alone.
      [SegmentReader] ([segment_reader.go], [common/batch_iterator.go],
      [common/binlog_selector.go], [common/record_batch.go], [binlog/reader.go],
      [binlog/v2]) selects the files of a batch, opens them and composes their columns
      into record batches; [Serde] ([common/data_type.go]) reads and writes the cells
      of a column; [SegmentScan] ([segment_iterator.go], [tasks/]) hands the rows
      that pass the filters to a task, and [ScanCommand] ([src/states/scan_binlog.go]) is the
      command that selects segments and the workers that scan them side by side.
      [DeltaData] ([delta_data.go], [deltalog_reader.go], [entry_filter.go]) holds the
      deletions and the filters, over the keys of [PrimaryKey]
      ([common/primary_key.go], [common/primary_keys.go]).  [Values] has the dynamic
      values and the numbers of the Milvus types.

    - The metadata store ([src/states/kv]).  [MetaKV] models the etcd store over the
      order of keys of [KeyOrder], [Tikv] the TiKV store, and [AuditKV] the interface
      [MetaKV] that both implement together with the store that logs each change.

    - Backups ([src/states]).  [Backup] ([etcd_backup.go], [BackupKV] of [kv/kv.go])
      writes the backup file; [Restore] ([etcd_restore.go], [load_backup.go],
      [backup_mock_connect.go]) reads it into a store.

    - The listings over the metadata ([src/states/etcd/common], [src/models]).  [Paths]
      has the parts of keys; [Listing] the generic listings of JSON and protobuf values
      ([list.go]) and those of the small objects; [Segments] ([segment.go],
      [models/segment.go]) the segments with their lazily loaded binlogs; [Collections]
      ([collection.go], [collection_history.go], [channel.go], [models/collection*.go])
      collections with their fields, functions, channels and history; [WalMeta]
      ([wal_broadcast.go], [wal_distribution.go], [wal_recovery_storage.go]) what the
      streaming nodes store.

    - The commands that change the metadata ([src/states/etcd]).  [Commands] has what
      they share: a command is a function of the store that returns the store, the lines
      it reports and a result.  [Remove] ([remove/]), [Repair] ([repair/]) and [Alter]
      ([set/]) are the commands, one definition each.

    - The commands over files ([src/states]).  [PartitionKey] ([check_partition_key.go],
      [binlog.go], [hash.go]) reads the binlogs of a segment and checks each row's
      partition; [ParquetWriter] ([storage/binlog/v1/parquet_writer.go] and the writing
      half of [binlog.go]) is its output; [SegmentFiles] ([garbage_collect.go],
      [verify_segment.go], [scan_deltalog.go], [download_pk.go], [download_segment.go],
      [segment_anaylsis.go]) compares the metadata with the object store; [IndexFiles]
      ([parse_file.go]) reads and assembles index files; [StateUtil] ([util.go]) has the
      time stamps and the small helpers.

    - The scanner of the write-ahead log ([src/wal]).  [WalHeap]
      ([utility/message_heap.go]), [WalBuffers] ([utility/reorder_buffer.go],
      [utility/txn_buffer.go], [utility/pending_queue.go]), [WalScanner]
      ([adaptor/scanner_adaptor.go]), its consuming loop, and [CatchUp]
      ([adaptor/scanner_switchable.go]), the two goroutines that run it.  [Compare]
      ([states/consumev2_cmp.go]) is the command that reads several channels and compares
      their messages; [Messages] ([src/mq]) has the messages of the older queues, their
      wire forms and identifiers.

    - The reports ([src/states]).  [Healthz] ([healthz/], [healthz.go]) has the health
      checks; [ShowSegments] ([etcd/show/segment.go]) counts segments and adds up the
      sizes of their logs; [ShowMeta] ([etcd/show/checkpoint.go], [segment_index.go],
      [compaction.go], [collection.go]) finds what the other computing show commands
      display; [ShowCluster] ([session.go], [replica.go], [bulkinsert.go] and others there)
      the remaining ones; [KvTree] ([etcd/show/etcd_kv_tree.go]) counts keys by prefix; [Balance]
      ([balance_explain.go]) explains which segment the balancer would move.

    - The commands that call running components ([src/states]).  [Nodes] ([mgrpc/connect.go],
      [mgrpc/commands.go], [visit.go], [configuration.go], [management.go],
      [update_log_level.go]) connects to the sessions of the store and asks them for their
      settings; [Coordinators] ([mgrpc/querycoord.go], [datacoord.go], [querynode.go],
      [compact_batch.go], [etcd/repair/channel.go] and its neighbours) sends the requests
      that move, compact and release; [Distribution] ([distribution.go],
      [etcd/download/distribution.go], [etcd/show/loaded_json_stats.go]) adds up what the
      query nodes have loaded; [Stats] ([jemalloc_stats.go], [pprof.go],
      [etcd/show/json_stats.go]) their memory and the statistics of JSON keys; [Probe]
      ([probe.go]) looks for a key in each segment and composes a search.  [InstanceOps]
      ([force_release.go], [kill.go]) removes from the store what those components keep there.

    - The object store ([src/oss]).  [ObjectStore] ([oss/], [ossutil/], [minio.go],
      [storage/]) makes a client for a cloud provider from the settings of a running
      component, and is the shell over a bucket.

    - The shell.  [Framework] ([src/framework]) makes commands and flags of the methods
      and parameter structs of a state; [Completion] ([states/autocomplete], [history])
      suggests what may follow an input; [Shell] ([states/etcd_connect.go],
      [states/app_state.go], [states/app_control.go], [states/instance.go],
      [bapps/olc.go]) connects to a store, enters an instance and keeps the states;
      [Workspace] ([src/configs], [load_backup.go], [open.go], [backup_mock_connect.go]) has
      the configuration file and the folders of workspaces.

    [GoBytes], [GoStrings] and [GoSort] have what these parts use of Go's
    [encoding/binary], [io], [strings], [strconv], [path] and [sort], and its [float64].
    This file has the results of calls, Go's integers,
    the order of a map iteration and the lemmas on lists that the others share.

    ** How the code is translated

    - A struct is a record, an enumeration or a closed interface an inductive type; the
      fields keep the names of the source, with a prefix where two records share one.
    - A call returns a [res]: [Ok], [Err] for a non-nil error, or [Panic].  Where a
      call changes a receiver or a store, the new state is returned next to the
      result, also when the result is an error, if the program keeps the state then.
    - Integers are [Z]; wherever the code converts or computes at a width, [wraps] (two's
      complement) or [wrapu] (unsigned) is written out.  Floats are their bits, or the
      numbers of [SpecFloat] where the code computes with them.
    - A Go map is a [gmap].  A [range] over it takes the order from an oracle
      ([MapOrder]), of which it is only known that it is a permutation; the theorems
      hold for every oracle.  So it is with the elements that [sort.Slice] finds equal
      ([SortSlice]).
    - Library code is a type class of operations with a class of the laws that the
      program relies on: [EtcdClient], [TikvClient], [JsonMap], [Parquet], [ArrowFile],
      [Arrow], the containers of Milvus ([MultipartQueue], [MessageHeap], ...).  Each
      has a small concrete instance, on which the witnesses of the theorems run.  The
      same device states what components promise to each other: [Restore] and [AuditKV]
      are proved against the interface [MetaKV], and [etcdKV] implements it.
    - Goroutines are step relations ([CatchUp], [ScanCommand]): a step is an operation on a
      channel, or a call that the code makes atomic.
    - The consuming loop of the scanner is a step relation: the messages come in the
      order of the log, the scheduling of the [select] is the nondeterminism.  The loop of
      [Compare] is a function of a schedule, which says in each pass for each channel
      whether a message is at hand.
    - A command over the store keeps the store it had when it fails half way.  Its
      theorems are about a [healthy] store, one whose client answers each request; that
      the store then is the map of its pairs is the refinement of [MetaKV].
    - What a command prints is a list of values or lines, as far as it is computed;
      formats, progress bars and logging are left out.
    - A file system or an object store that is only read is a function from paths; where
      folders are made and removed ([Workspace]) it is a map of paths.
    - What a running component answers to a request is a parameter, an oracle or a class of
      operations; a command is the requests that it sends, in their order, and what it makes
      of the answers.  Where answers come from several goroutines, the theorems hold for
      every order of them.

    ** Loops and fuel

    Loops over a list are structural.  The others take fuel, and a theorem gives the
    amount that suffices: the pagination loops of the store ([WalkWithPrefix],
    [BackupKV]) more than the number of keys below the prefix, [GetAllRootPath] more
    than the number of keys, the loops of a restore more than the frames and sessions
    of the file, the scan of a segment more than the number of its record batches, the heap
    and the reorder buffer one more than the number of messages they hold, the events of
    a delta log one more than its bytes ([read_deltas_total]).  The scanner
    has no fuel: no run of it has more than three steps per message of the log; the workers of a scan have a
    measure that each step makes smaller.  Where the code does not terminate, it is shown that no fuel
    suffices ([BackupKV_beyond]).

    ** What is proved

    - Backups: a file written by [BackupCommand] and loaded gives back the pairs of the
      store, and of what is written after them all but the bytes that were left in the
      buffer of the writer ([backup_restore], [backup_load]: the buffer is flushed after the
      pairs and not at the end); [BackupKV] writes each pair once
      ([BackupKV_writes]); and how both fail when another key follows the prefix
      ([BackupKV_beyond]) and when the file comes in small pieces
      ([load_backup_split]).
    - The scanner: messages are delivered in order of time, filtered, and transactions
      whole ([scanner_safety], [ReOrderBuffer_spec], [HandleImmutableMessages_spec]),
      and no run gets stuck before the queue is empty, unless a message that does not
      convert panics ([scanner_liveness]); [message_heap_spec] is the
      correctness of the heap below them.  The reading goroutine and the consuming one
      together do what the loop alone does ([scanner_goroutines_refine]), and closing
      can end both from every state they reach ([Close_finishes]); when the reading
      goroutine has failed the other waits for that ([interrupted_hangs]).
    - Storage: a segment's reader delivers the columns of each batch of files in turn
      ([SegmentReader_delivers], [SelectBinlogs_spec], [V2_SelectFields_spec]); a scan
      hands the rows that pass all the filters to the task, once and in order, up to
      the first failure ([Range_scans]); the workers of [scan-binlog] count the rows of all
      segments however they are scheduled ([ScanBinlog_totals]), always get to their end
      ([ScanBinlog_ends]), and report no failure of the last segment
      ([ScanBinlog_reports]); a binlog's head is read as it was written, and
      what is read is what the bytes say ([NewBinlogReader_roundtrip],
      [NewBinlogReader_sound], [NewBinlogReader_corrupt]); cells survive being written
      to Arrow and read back, if they have the width of the builder, and panic in it otherwise
      ([Serialize_Deserialize]); the payload reader is right for
      files of one row group and overwrites its result for the others
      ([readPayloadAll_one_group], [readPayloadAll_groups_overwritten]).
    - Deletions and keys: key lists and delta data refine plain lists
      ([PrimaryKeys_refine], [DeltaData_refine]), comparisons are a strict order on the
      keys of a type ([PK_order]), conversions are round trips.
    - Stores: the etcd and the auditing store refine a map from keys to values
      ([etcdKV_refines_map], [FileAuditKV_spec]); [WalkWithPrefix_spec] and
      [GetAllRootPath_spec] are their traversals; TiKV loads what it saved, empty values
      included ([TiKV_Save_Load]).
    - Listings: a listing decodes, filters and pairs the values below its prefix
      ([ListCollections_spec], [ListWALRecoveryStorage_segments]); the models after a value
      that was dropped carry the key of another one ([ListObj2Models_shifted]).
    - Changes of the metadata: what each remove, repair and set command deletes or writes,
      and that everything else stays ([CollectionMetaLeaked_spec],
      [cleanCollectionMeta_spec], [SegmentOrphan_spec], [AddIndexParams_spec],
      [RepairEmptySegment_spec], [MixedBinlogs_spec], [alterField_type_params],
      [FieldAttr_spec], [WALRecoveryStorage_extends]).
    - Files: the check of a segment reports exactly the rows that are not deleted and lie
      in another partition than their key's ([check_segment_reports]); the iterator has
      the rows of its columns ([NewBinlogIterator_rows]); the parquet writer ends with the
      column of each field ([ParquetWriter_columns]); slices of an index file are put
      together in order ([AssembleIndexFiles_spec]); what the reports on garbage are made
      of ([garbageCollect_report]), and that the repair of missing files touches no
      segment ([VerifySegment_keeps_segments]).
    - Messages: each row of an aligned insert message with a base is an aligned message
      ([IndexRequest_aligned]), and the rows give the values of the columns back
      ([AppendFieldData_roundtrip]); the comparison of channels of distinct names displays
      rounds that agree and reports the first that does not ([comparePChannels_safe]), and
      gets through the shortest channel ([comparePChannels_live]); between channels of one
      name it never reports anything ([comparePChannels_same_name]).
    - Reports: the sums over a listing do not depend on the order of the maps they are
      kept in, and are those of the logs listed ([SegmentCommand_totals]); the checkpoint
      of a channel is the stored one or the earliest of its segments
      ([CheckpointCommand_spec]); the prefixes shown are those with the most keys
      ([EtcdKVTree_spec]); the segment to move is a smallest one of a node with the
      greatest priority ([explainReplica_spec]); the check for mixed binlogs reports what
      the repair takes up ([MixedBinlogs_check_agrees]), and the other checks what their
      descriptions say ([PostRestart_check_spec], [QueryViewLag_check_spec],
      [LoadedIndexMissing_check_spec]).
    - Running components: releasing a collection deletes its keys and no other
      ([ForceRelease_spec]); the totals over the nodes are the sums of what they answer, in
      whatever order ([Distribution_totals]); a key is reported with the segments that hold
      it, unless a node answers without a message of keys, which panics ([ProbePK_spec]); the statistics add up ([Jemalloc_spec], [JSONStats_spec]) and
      a checker's identifier wraps ([checker_ids_wrap]).
    - The object store: [cd] ends in the prefixes that path components reach
      ([cd_reachable]); a client has the credentials of its provider ([NewMinioClient_spec]).
    - The shell: flags that are set up from a parameter struct and parsed again fill its
      fields with what was set, slices with all of it ([parseFlags_roundtrip]), and with
      values of their types or else an error ([parseFlags_typed]), and
      the suggestions are the candidates that match ([SuggestInputCommands_spec]); a
      connection enters an instance whose session counter is in the store
      ([connectEtcd_spec]), and after a command no state waits to be entered
      ([app_Process_spec]); a workspace opened again has the instance it was set up with, until it is
      closed, which deletes it ([workspace_instance_roundtrip], [Open_Close_deletes]).

    ** What is not modelled

    The network below a request: gRPC, HTTP, the clients of the object store, of etcd, of
    Pulsar and Kafka; they are parameters.  The terminal and the web front ends ([bapps], but
    for its scripts, and [frame_screen.go]), the registration of commands with cobra, gzip
    and the parquet format itself.  Generated code and the records over it, as far as no
    modelled code reads them.  Logging, and the text of what is displayed: the show
    commands are records of what is displayed, and those that print a listing as it is are
    the listing.  [metrics.go] (the text of Prometheus metrics), [consume.go] (a consumer whose
    messages are printed), [pulsarctl_connect.go] (the administration of Pulsar), [rules.go]
    (rules of a linter) are left out: they pass data from a library to the display or to
    another library. *)

From Stdlib Require Export ZArith Lia Strings.Byte.
From stdpp Require Export base decidable gmap strings list numbers sorting option.

#[global] Set Default Goal Selector "!".
#[global] Open Scope string_scope.
#[global] Open Scope list_scope.
#[global] Open Scope Z_scope.

(** ** Results of Go calls

    A call of the program returns a value ([Ok]), returns a non-nil error
    ([Err]) or panics ([Panic]).  The error values the code tests for by identity
    ([io.EOF], [io.ErrUnexpectedEOF], ...) have a constructor of their own; the
    others are [Errorf] with the first words of their message. *)
Inductive goerr :=
  | EOF
  | ErrUnexpectedEOF
  | ErrKeyNotFound
  | ErrTimeTickViolation
  | Canceled
  | Errorf (msg : string).

#[export] Instance goerr_eq_dec : EqDecision goerr.
Proof. intros x y. unfold Decision. decide equality; apply decide, _. Defined.

Inductive res (A : Type) :=
  | Ok (a : A)
  | Err (e : goerr)
  | Panic (why : string).
Arguments Ok {A} a.
Arguments Err {A} e.
Arguments Panic {A} why.

#[export] Instance Ok_inj {A} : Inj (=) (=) (@Ok A).
Proof. by intros a b [= ->]. Qed.

#[export] Instance res_ret : MRet res := fun A a => Ok a.
#[export] Instance res_bind : MBind res := fun A B f m =>
  match m with Ok a => f a | Err e => Err e | Panic w => Panic w end.
#[export] Instance res_fmap : FMap res := fun A B f m =>
  match m with Ok a => Ok (f a) | Err e => Err e | Panic w => Panic w end.

#[export] Instance res_eq_dec {A} `{EqDecision A} : EqDecision (res A).
Proof. intros x y. unfold Decision. decide equality; apply decide, _. Defined.

Lemma res_bind_Ok {A B} (m : res A) (f : A → res B) b :
  (m ≫= f) = Ok b ↔ ∃ a, m = Ok a ∧ f a = Ok b.
Proof. destruct m; naive_solver. Qed.

Lemma res_bind_assoc {A B C} (m : res A) (f : A → res B) (g : B → res C) :
  ((m ≫= f) ≫= g) = (m ≫= λ a, f a ≫= g).
Proof. by destruct m. Qed.

Lemma res_bind_ret {A} (m : res A) : (m ≫= mret) = m.
Proof. by destruct m. Qed.

Lemma res_bind_ret' {A} (m : res A) : (m ≫= λ a, Ok a) = m.
Proof. by destruct m. Qed.

(** [res_inv] breaks every hypothesis [(m ≫= f) = Ok b] into its two steps. *)
Ltac res_inv :=
  repeat match goal with
  | H : (_ ≫= _) = Ok _ |- _ =>
      apply res_bind_Ok in H as (? & ? & H)
  | H : Ok _ = Ok _ |- _ => injection H as H
  | H : mret _ = Ok _ |- _ => injection H as H
  | H : Err _ = Ok _ |- _ => discriminate H
  | H : Panic _ = Ok _ |- _ => discriminate H
  end.

(** Case analysis on every [if] and [match] of the goal, then [done]. *)
Ltac case_all := repeat (case_match; simplify_eq/=); try done.

(** ** Machine integers

    A Go integer is its value, a [Z]; arithmetic that may leave the range is
    wrapped by the conversion of its type. *)
Definition wrapu (w : Z) (z : Z) : Z := z mod 2 ^ w.
Definition wraps (w : Z) (z : Z) : Z := (z + 2 ^ (w - 1)) mod 2 ^ w - 2 ^ (w - 1).

Abbreviation uint8 := (wrapu 8).
Abbreviation uint16 := (wrapu 16).
Abbreviation uint32 := (wrapu 32).
Abbreviation uint64 := (wrapu 64).
Abbreviation int8 := (wraps 8).
Abbreviation int16 := (wraps 16).
Abbreviation int32 := (wraps 32).
Abbreviation int64 := (wraps 64).

Definition in_u (w z : Z) : Prop := 0 ≤ z < 2 ^ w.
Definition in_s (w z : Z) : Prop := - 2 ^ (w - 1) ≤ z < 2 ^ (w - 1).

#[export] Instance in_u_dec w z : Decision (in_u w z).
Proof. unfold in_u. apply _. Defined.
#[export] Instance in_s_dec w z : Decision (in_s w z).
Proof. unfold in_s. apply _. Defined.

Lemma pow2_succ w : 0 < w → 2 ^ w = 2 * 2 ^ (w - 1).
Proof. intros. rewrite <-Z.pow_succ_r by lia. f_equal. lia. Qed.

Lemma wrapu_id w z : in_u w z → wrapu w z = z.
Proof. unfold in_u, wrapu. apply Z.mod_small. Qed.

Lemma wraps_id w z : 0 < w → in_s w z → wraps w z = z.
Proof.
  unfold in_s, wraps. intros Hw Hz. pose proof (pow2_succ w Hw).
  rewrite Z.mod_small; lia.
Qed.

Lemma wrapu_range w z : 0 ≤ w → in_u w (wrapu w z).
Proof. intros. unfold in_u, wrapu. apply Z.mod_pos_bound. lia. Qed.

Lemma wraps_range w z : 0 < w → in_s w (wraps w z).
Proof.
  intros Hw. unfold in_s, wraps. pose proof (pow2_succ w Hw).
  pose proof (Z.mod_pos_bound (z + 2 ^ (w - 1)) (2 ^ w)). lia.
Qed.

(** Conversions to a signed and to the unsigned type of the same width lose
    nothing. *)
Lemma wraps_wrapu w z : 0 < w → wraps w (wrapu w z) = wraps w z.
Proof. intros. unfold wraps, wrapu. by rewrite Zplus_mod_idemp_l. Qed.

Lemma wrapu_wraps w z : 0 < w → wrapu w (wraps w z) = wrapu w z.
Proof.
  intros. unfold wraps, wrapu. rewrite Zminus_mod_idemp_l. f_equal. lia.
Qed.

Lemma wrapu_wrapu w z : wrapu w (wrapu w z) = wrapu w z.
Proof. unfold wrapu. apply Zmod_mod. Qed.

Lemma wrapu_add_l w a b : wrapu w (wrapu w a + b) = wrapu w (a + b).
Proof. unfold wrapu. apply Zplus_mod_idemp_l. Qed.

Lemma wraps_add_l w a b : 0 < w → wraps w (wraps w a + b) = wraps w (a + b).
Proof.
  intros. unfold wraps.
  replace ((a + 2 ^ (w - 1)) mod 2 ^ w - 2 ^ (w - 1) + b + 2 ^ (w - 1))
    with ((a + 2 ^ (w - 1)) mod 2 ^ w + b) by lia.
  rewrite Zplus_mod_idemp_l. do 2 f_equal. lia.
Qed.

(** Reading back a value of [w] bits from its unsigned image. *)
Lemma wraps_wrapu_id w z : 0 < w → in_s w z → wraps w (wrapu w z) = z.
Proof. intros. rewrite wraps_wrapu by done. by apply wraps_id. Qed.

Create HintDb go_int.
#[export] Hint Resolve wrapu_id wraps_id wrapu_range wraps_range : go_int.
Create Rewrite HintDb go_wrap.
#[export] Hint Rewrite wraps_wrapu wrapu_wraps wrapu_wrapu wrapu_add_l wraps_add_l using lia : go_wrap.

(** Range side conditions on concrete numbers. *)
Ltac in_range := unfold in_u, in_s in *; vm_compute; intuition congruence.

(** ** Lists *)
Section lists.
Context {A B : Type}.
Implicit Types (l : list A).

Definition sum_Z (f : A → Z) (l : list A) : Z := foldr (λ a s, f a + s) 0 l.

Lemma sum_Z_cons f a l : sum_Z f (a :: l) = f a + sum_Z f l.
Proof. done. Qed.

Lemma sum_Z_app f l1 l2 : sum_Z f (l1 ++ l2) = sum_Z f l1 + sum_Z f l2.
Proof. induction l1; simpl; lia. Qed.

Lemma sum_Z_perm f l1 l2 : l1 ≡ₚ l2 → sum_Z f l1 = sum_Z f l2.
Proof. induction 1; simpl; lia. Qed.

Lemma take_length_app l1 l2 : take (length l1) (l1 ++ l2) = l1.
Proof. apply take_app_length. Qed.

Lemma drop_length_app l1 l2 : drop (length l1) (l1 ++ l2) = l2.
Proof. apply drop_app_length. Qed.
End lists.

Lemma filter_ext_in {A} (P Q : A → Prop) `{∀ x, Decision (P x)} `{∀ x, Decision (Q x)} (l : list A) :
  (∀ x, x ∈ l → P x ↔ Q x) → filter P l = filter Q l.
Proof.
  induction l as [|x l IH]; intros Hl; [done|]. rewrite !filter_cons.
  rewrite IH by (intros; apply Hl; by right). pose proof (Hl x (list_elem_of_here _ _)) as Hx.
  repeat case_decide; tauto.
Qed.

Lemma filter_all {A} (P : A → Prop) `{∀ x, Decision (P x)} (l : list A) :
  Forall P l → filter P l = l.
Proof.
  induction l as [|x l IH]; [done|]. intros [Hx Hl]%list.Forall_cons.
  rewrite filter_cons_True by done. by rewrite IH.
Qed.
Lemma filter_none {A} (P : A → Prop) `{∀ x, Decision (P x)} (l : list A) :
  Forall (λ x, ¬ P x) l → filter P l = [].
Proof.
  induction l as [|x l IH]; [done|]. intros [Hx Hl]%list.Forall_cons.
  rewrite filter_cons_False by done. by apply IH.
Qed.

(** Go's [len] is an [int]. *)
Definition zlen {A} (l : list A) : Z := Z.of_nat (length l).
#[global] Arguments zlen : simpl never.

Lemma zlen_nonneg {A} (l : list A) : 0 ≤ zlen l.
Proof. unfold zlen. lia. Qed.

Lemma zlen_app {A} (l1 l2 : list A) : zlen (l1 ++ l2) = zlen l1 + zlen l2.
Proof. unfold zlen. rewrite length_app. lia. Qed.

Lemma zlen_cons {A} (a : A) (l : list A) : zlen (a :: l) = zlen l + 1.
Proof. unfold zlen. simpl. lia. Qed.

Lemma zlen_0 {A} (l : list A) : zlen l = 0 → l = [].
Proof. unfold zlen. destruct l; simpl; [done|lia]. Qed.

(** [l[i]] with Go's bounds check. *)
Definition go_index {A} (l : list A) (i : Z) : res A :=
  if bool_decide (0 ≤ i) then
    match l !! Z.to_nat i with
    | Some a => Ok a
    | None => Panic "index out of range"
    end
  else Panic "index out of range".

Lemma go_index_Ok {A} (l : list A) i a :
  go_index l i = Ok a ↔ 0 ≤ i ∧ l !! Z.to_nat i = Some a.
Proof. unfold go_index. case_bool_decide; [|naive_solver]. case_match; naive_solver. Qed.

Lemma go_index_range {A} (l : list A) i :
  0 ≤ i < zlen l → ∃ a, go_index l i = Ok a.
Proof.
  intros [??]. unfold zlen in *.
  destruct (lookup_lt_is_Some_2 l (Z.to_nat i)) as [a Ha]; [lia|].
  exists a. by apply go_index_Ok.
Qed.

(** ** Loops

    [for _, b := range l { ... }] with a body that may fail; [a] is the state the
    body updates. *)
Fixpoint foldM {A B} (f : B → A → res A) (l : list B) (a : A) : res A :=
  match l with
  | [] => Ok a
  | b :: l => a' ← f b a; foldM f l a'
  end.

Lemma foldM_app {A B} (f : B → A → res A) l1 l2 a :
  foldM f (l1 ++ l2) a = (foldM f l1 a ≫= foldM f l2).
Proof.
  revert a. induction l1 as [|b l1 IH]; intros a; simpl; [done|].
  rewrite res_bind_assoc. destruct (f b a); simpl; auto.
Qed.

Lemma seqZ_S n : seqZ 0 (Z.of_nat (S n)) = seqZ 0 (Z.of_nat n) ++ [Z.of_nat n].
Proof.
  unfold seqZ. rewrite !Nat2Z.id, seq_S, fmap_app. simpl. by rewrite Z.add_0_r.
Qed.

(** Loops over the indices [0, ..., n-1]: the state before round [k] is [P k]. *)
Lemma foldM_seqZ {A} (f : Z → A → res A) (P : nat → A) n :
  (∀ k, (k < n)%nat → f (Z.of_nat k) (P k) = Ok (P (S k))) →
  foldM f (seqZ 0 (Z.of_nat n)) (P 0%nat) = Ok (P n).
Proof.
  induction n as [|n IH]; intros Hf; [done|].
  rewrite seqZ_S, foldM_app, IH by (intros; apply Hf; lia). simpl.
  by rewrite Hf by lia.
Qed.

Lemma foldl_seqZ {A} (f : A → Z → A) (P : nat → A) n :
  (∀ k, (k < n)%nat → f (P k) (Z.of_nat k) = P (S k)) →
  foldl f (P 0%nat) (seqZ 0 (Z.of_nat n)) = P n.
Proof.
  induction n as [|n IH]; intros Hf; [done|].
  rewrite seqZ_S, foldl_app, IH by (intros; apply Hf; lia). simpl. by rewrite Hf by lia.
Qed.

Lemma concat_take_S {A} (l : list (list A)) k x :
  l !! k = Some x → concat (take (S k) l) = concat (take k l) ++ x.
Proof. intros Hk. rewrite (take_S_r _ _ _ Hk), concat_app. simpl. by rewrite app_nil_r. Qed.

Create HintDb go.
#[export] Hint Resolve zlen_nonneg : go.

(** ** Orders of iteration over maps

    The order of a [range] loop over a map is not specified: a function whose result
    may depend on it takes the order from here. *)
Class MapOrder := {
  range : ∀ {A}, gmap Z A → list (Z * A);
  range_perm : ∀ {A} (m : gmap Z A), range m ≡ₚ map_to_list m;
}.

(** The order of the keys' encodings, an instance. *)
#[export] Instance list_order : MapOrder := {|
  range A m := map_to_list m; range_perm A m := Permutation_refl (map_to_list m)
|}.

(** A decidable goal on a concrete input is evaluated. *)
Ltac clean_dec := apply (bool_decide_unpack _); vm_compute; exact I.
