(* ===== verification/GoBytes.v ===== *)
(** * Bytes, [io.Reader] and [encoding/binary]

    Go byte slices are [list byte].  This file models what the program uses of
    the Go standard library on them: conversion of a byte to and from its value,
    [encoding/binary] with [binary.LittleEndian] on fixed-size values, and reading
    from an [io.Reader] with [io.ReadFull].  A reader is the list of bytes it has
    still to deliver. *)

From S2P Require Export Prelude.

#[export] Instance byte_eq_dec : EqDecision byte := Byte.byte_eq_dec.

(** ** Bytes as numbers *)
Definition Z_of_byte (b : byte) : Z := Z.of_N (Byte.to_N b).
Definition byte_of_Z (z : Z) : byte :=
  default "000"%byte (Byte.of_N (Z.to_N (z mod 256))).

Lemma Z_of_byte_range b : 0 ≤ Z_of_byte b < 256.
Proof. unfold Z_of_byte. pose proof (Byte.to_N_bounded b). lia. Qed.

Lemma byte_of_Z_of_byte b : byte_of_Z (Z_of_byte b) = b.
Proof.
  unfold byte_of_Z. rewrite Z.mod_small by apply Z_of_byte_range.
  unfold Z_of_byte. by rewrite N2Z.id, Byte.of_to_N.
Qed.

Lemma Z_of_byte_of_Z z : Z_of_byte (byte_of_Z z) = z mod 256.
Proof.
  unfold byte_of_Z. pose proof (Z.mod_pos_bound z 256 ltac:(lia)).
  destruct (Byte.of_N _) as [b|] eqn:E; simpl.
  - apply Byte.to_of_N in E. unfold Z_of_byte. rewrite E. lia.
  - apply Byte.of_N_None_iff in E. lia.
Qed.

(** ** Little-endian integers of [n] bytes *)
Fixpoint le_put (n : nat) (z : Z) : list byte :=
  match n with
  | O => []
  | S n => byte_of_Z z :: le_put n (z / 256)
  end.

Fixpoint le_get (bs : list byte) : Z :=
  match bs with
  | [] => 0
  | b :: bs => Z_of_byte b + 256 * le_get bs
  end.

Lemma length_le_put n z : length (le_put n z) = n.
Proof. revert z. induction n; intros; simpl; auto. Qed.

Lemma le_get_put n z : le_get (le_put n z) = z mod 2 ^ (8 * Z.of_nat n).
Proof.
  revert z. induction n as [|n IH]; intros z; simpl.
  { by rewrite Z.mod_1_r. }
  rewrite IH, Z_of_byte_of_Z.
  replace (8 * Z.of_nat (S n)) with (8 + 8 * Z.of_nat n) by lia.
  rewrite Z.pow_add_r by lia. change (2 ^ 8) with 256.
  rewrite (Z.rem_mul_r z 256 (2 ^ (8 * Z.of_nat n))) by lia. lia.
Qed.

Lemma le_get_range bs : 0 ≤ le_get bs < 2 ^ (8 * zlen bs).
Proof.
  unfold zlen. induction bs as [|b bs IH]; simpl; [lia|].
  pose proof (Z_of_byte_range b).
  replace (8 * Z.of_nat (S (length bs))) with (8 + 8 * Z.of_nat (length bs)) by lia.
  rewrite Z.pow_add_r by lia. change (2 ^ 8) with 256. lia.
Qed.

Lemma le_put_get bs : le_put (length bs) (le_get bs) = bs.
Proof.
  induction bs as [|b bs IH]; simpl; [done|].
  pose proof (Z_of_byte_range b). f_equal.
  - rewrite <-(byte_of_Z_of_byte b) at 2. unfold byte_of_Z.
    by rewrite (Z.mul_comm 256), Z.mod_add, (Z.mod_small (Z_of_byte b)) by lia.
  - rewrite (Z.mul_comm 256), Z.div_add, Z.div_small by lia. by rewrite Z.add_0_l.
Qed.

Lemma le_put_mod n z : le_put n (z mod 2 ^ (8 * Z.of_nat n)) = le_put n z.
Proof. by rewrite <-(le_get_put n z), <-(length_le_put n z) at 1; rewrite le_put_get. Qed.

#[export] Hint Rewrite length_le_put le_get_put : go_wrap.

(** ** Fixed-size values of [encoding/binary]

    [binary.Size], [binary.Write] and the decoding half of [binary.Read] of a
    fixed-size type, with the laws the code relies on.  Structs are built from
    their fields in order, without padding, as [encoding/binary] lays them out. *)
Record fixed (A : Type) := Fixed {
  fx_size : nat;
  fx_enc : A → list byte;
  fx_dec : list byte → A;
  fx_ok : A → Prop;
  fx_length : ∀ a, length (fx_enc a) = fx_size;
  fx_dec_enc : ∀ a, fx_ok a → fx_dec (fx_enc a) = a;
  fx_enc_dec : ∀ bs, length bs = fx_size → fx_enc (fx_dec bs) = bs;
  fx_dec_ok : ∀ bs, length bs = fx_size → fx_ok (fx_dec bs);
}.
Arguments fx_size {A}. Arguments fx_enc {A}. Arguments fx_dec {A}.
Arguments fx_ok {A}. Arguments fx_length {A}. Arguments fx_dec_enc {A}.
Arguments fx_enc_dec {A}. Arguments fx_dec_ok {A}.

Program Definition fx_unsigned (n : nat) : fixed Z := {|
  fx_size := n; fx_enc := le_put n; fx_dec := le_get;
  fx_ok := in_u (8 * Z.of_nat n);
|}.
Next Obligation. intros. apply length_le_put. Qed.
Next Obligation. intros n z Hz. rewrite le_get_put. by apply Z.mod_small. Qed.
Next Obligation. intros n bs <-. apply le_put_get. Qed.
Next Obligation. intros n bs <-. apply le_get_range. Qed.

Program Definition fx_signed (n : nat) (Hn : (0 < n)%nat) : fixed Z := {|
  fx_size := n; fx_enc := le_put n; fx_dec bs := wraps (8 * Z.of_nat n) (le_get bs);
  fx_ok := in_s (8 * Z.of_nat n);
|}.
Next Obligation. intros. apply length_le_put. Qed.
Next Obligation.
  intros n Hn z Hz. simpl. rewrite le_get_put. change (_ mod _) with (wrapu (8 * Z.of_nat n) z).
  apply wraps_wrapu_id; [lia|done].
Qed.
Next Obligation.
  intros n Hn bs <-. simpl. rewrite <-le_put_mod.
  change (_ mod _) with (wrapu (8 * Z.of_nat (length bs)) (wraps (8 * Z.of_nat (length bs)) (le_get bs))).
  rewrite wrapu_wraps by lia. unfold wrapu. rewrite le_put_mod. apply le_put_get.
Qed.
Next Obligation. intros n Hn bs _. apply wraps_range. lia. Qed.

Definition fx_uint64 : fixed Z := fx_unsigned 8.
Definition fx_int64 : fixed Z := fx_signed 8 ltac:(lia).
Definition fx_int32 : fixed Z := fx_signed 4 ltac:(lia).
Definition fx_int8 : fixed Z := fx_signed 1 ltac:(lia).

(** Two consecutive fields. *)
Program Definition fx_pair {A B} (f : fixed A) (g : fixed B) : fixed (A * B) := {|
  fx_size := fx_size f + fx_size g;
  fx_enc ab := fx_enc f ab.1 ++ fx_enc g ab.2;
  fx_dec bs := (fx_dec f (take (fx_size f) bs), fx_dec g (drop (fx_size f) bs));
  fx_ok ab := fx_ok f ab.1 ∧ fx_ok g ab.2;
|}.
Next Obligation. intros A B f g [a b]; simpl. by rewrite length_app, !fx_length. Qed.
Next Obligation.
  intros A B f g [a b] [Ha Hb]; simpl in *.
  rewrite <-(fx_length f a), take_length_app, drop_length_app. by rewrite !fx_dec_enc.
Qed.
Next Obligation.
  intros A B f g bs Hbs; simpl.
  rewrite !fx_enc_dec; [apply take_drop| |]; rewrite ?length_take, ?length_drop; lia.
Qed.
Next Obligation.
  intros A B f g bs Hbs; simpl.
  split; apply fx_dec_ok; rewrite ?length_take, ?length_drop; lia.
Qed.

(** A struct, given as the tuple of its fields. *)
Program Definition fx_struct {A B} (f : fixed A) (mk : A → B) (fields : B → A)
    (H1 : ∀ b, mk (fields b) = b) (H2 : ∀ a, fields (mk a) = a) : fixed B := {|
  fx_size := fx_size f;
  fx_enc b := fx_enc f (fields b);
  fx_dec bs := mk (fx_dec f bs);
  fx_ok b := fx_ok f (fields b);
|}.
Next Obligation. intros. apply fx_length. Qed.
Next Obligation. intros; simpl. by rewrite fx_dec_enc. Qed.
Next Obligation. intros A B f mk fields H1 H2 bs Hbs; simpl. rewrite H2. by apply fx_enc_dec. Qed.
Next Obligation. intros A B f mk fields H1 H2 bs Hbs; simpl. rewrite H2. by apply fx_dec_ok. Qed.

(** ** Readers

    A read consumes bytes of the reader and returns a value, or fails; the
    program never goes on reading after an error. *)
Definition reader (A : Type) : Type := list byte → res (A * list byte).

#[export] Instance reader_ret : MRet reader := fun A a s => Ok (a, s).
#[export] Instance reader_bind : MBind reader := fun A B f m s =>
  '(a, s') ← m s; f a s'.

Definition rd_fail {A} (e : goerr) : reader A := fun _ => Err e.
Definition rd_panic {A} (w : string) : reader A := fun _ => Panic w.
Definition rd_lift {A} (m : res A) : reader A := fun s => a ← m; Ok (a, s).

(** [make([]byte, n)] panics when [n] is not a possible length.  The runtime's
    bound on linux/amd64 is [maxAlloc] = 2^48 bytes. *)
Definition maxAlloc : Z := 2 ^ 48.
Definition make_ok (n : Z) : bool := bool_decide (0 ≤ n ≤ maxAlloc).

(** [io.ReadFull] into a buffer of [n] bytes: [EOF] when nothing is left,
    [ErrUnexpectedEOF] when the reader ends inside the buffer. *)
Definition io_ReadFull (n : Z) : reader (list byte) := fun s =>
  if bool_decide (n ≤ 0) then Ok ([], s)
  else match s with
  | [] => Err EOF
  | _ => if bool_decide (zlen s < n) then Err ErrUnexpectedEOF
         else Ok (take (Z.to_nat n) s, drop (Z.to_nat n) s)
  end.

(** [data := make([]byte, n); io.ReadFull(r, data)]. *)
Definition make_ReadFull (n : Z) : reader (list byte) :=
  if make_ok n then io_ReadFull n else rd_panic "makeslice: len out of range".

(** [binary.Read(r, binary.LittleEndian, &v)] of a fixed-size [v]. *)
Definition binary_Read {A} (f : fixed A) : reader A :=
  bs ← io_ReadFull (Z.of_nat (fx_size f)); mret (fx_dec f bs).

Definition binary_Write {A} (f : fixed A) (a : A) : list byte := fx_enc f a.
Definition binary_Size {A} (f : fixed A) : Z := Z.of_nat (fx_size f).

(** One step of a composed reader. *)
Lemma reader_bind_Ok {A B} (m : reader A) (f : A → reader B) s a s' :
  m s = Ok (a, s') → (m ≫= f) s = f a s'.
Proof. unfold mbind, reader_bind. by intros ->. Qed.

Lemma reader_bind_Err {A B} (m : reader A) (f : A → reader B) s e :
  m s = Err e → (m ≫= f) s = Err e.
Proof. unfold mbind, reader_bind. by intros ->. Qed.

Lemma reader_bind_inv {A B} (m : reader A) (f : A → reader B) s r :
  (m ≫= f) s = Ok r → ∃ a s', m s = Ok (a, s') ∧ f a s' = Ok r.
Proof. unfold mbind, reader_bind. intros H. res_inv. destruct x. eauto. Qed.

(** [rd_step] runs the first read of the goal with the given fact; [rd_inv] splits
    a successful composed read into its steps. *)
Ltac rd_step tac := erewrite reader_bind_Ok; [|rewrite <-?app_assoc; tac].
Ltac rd_inv :=
  repeat match goal with
  | H : (_ ≫= _) _ = Ok _ |- _ => apply reader_bind_inv in H as (? & ? & ? & H)
  | H : mret _ _ = Ok _ |- _ => injection H as H
  | H : Ok _ = Ok _ |- _ => injection H as H
  | H : rd_lift _ _ = Ok _ |- _ => unfold rd_lift in H; res_inv
  end; simplify_eq.

#[global] Arguments binary_Write : simpl never.
#[global] Arguments binary_Read : simpl never.
#[global] Arguments binary_Size : simpl never.
#[global] Arguments io_ReadFull : simpl never.
#[global] Arguments make_ReadFull : simpl never.

Lemma io_ReadFull_app bs s : io_ReadFull (zlen bs) (bs ++ s) = Ok (bs, s).
Proof.
  unfold io_ReadFull, zlen. case_bool_decide as H.
  { destruct bs; simpl in *; [done|lia]. }
  destruct bs as [|b bs]; simpl in H; [lia|]. cbn [app].
  case_bool_decide as H'; [rewrite app_comm_cons, length_app in H'; lia|].
  rewrite Nat2Z.id, app_comm_cons, take_length_app, drop_length_app. done.
Qed.

Lemma io_ReadFull_inv n s bs s' :
  io_ReadFull n s = Ok (bs, s') → s = bs ++ s' ∧ length bs = Z.to_nat n.
Proof.
  unfold io_ReadFull. case_bool_decide.
  { intros [= <- <-]. split; [done|]. simpl. lia. }
  destruct s as [|b s]; [done|]. case_bool_decide as Hn; [done|]. intros [= <- <-].
  rewrite take_drop. split; [done|]. rewrite length_take. unfold zlen in Hn. lia.
Qed.

Lemma make_ReadFull_app n bs s :
  n = zlen bs → zlen bs ≤ maxAlloc → make_ReadFull n (bs ++ s) = Ok (bs, s).
Proof.
  intros -> Hb. unfold make_ReadFull, make_ok. rewrite bool_decide_true.
  - apply io_ReadFull_app.
  - pose proof (zlen_nonneg bs). lia.
Qed.

Lemma make_ReadFull_short n s :
  zlen s < n → n ≤ maxAlloc → ∃ e, make_ReadFull n s = Err e.
Proof.
  intros Hs Hn. pose proof (zlen_nonneg s). unfold make_ReadFull, make_ok, io_ReadFull.
  rewrite bool_decide_true, bool_decide_false by lia. destruct s; [eauto|].
  rewrite bool_decide_true by done. eauto.
Qed.

Lemma binary_Read_Write {A} (f : fixed A) a s :
  fx_ok f a → binary_Read f (binary_Write f a ++ s) = Ok (a, s).
Proof.
  intros Ha. unfold binary_Read, binary_Write, mbind, reader_bind.
  rewrite <-(fx_length f a). change (Z.of_nat _) with (zlen (fx_enc f a)).
  rewrite io_ReadFull_app. simpl. by rewrite fx_dec_enc.
Qed.

Lemma binary_Read_inv {A} (f : fixed A) s a s' :
  binary_Read f s = Ok (a, s') → s = binary_Write f a ++ s' ∧ fx_ok f a.
Proof.
  unfold binary_Read, mbind, reader_bind. intros H. res_inv. destruct x as [bs s1].
  simpl in *. injection H as <- <-.
  apply io_ReadFull_inv in H0 as [-> Hl]. rewrite Nat2Z.id in Hl.
  unfold binary_Write. rewrite fx_enc_dec by done. split; [done|]. by apply fx_dec_ok.
Qed.

Lemma binary_Read_short {A} (f : fixed A) s :
  (length s < fx_size f)%nat →
  binary_Read f s = Err (match s with [] => EOF | _ => ErrUnexpectedEOF end).
Proof.
  intros Hs. unfold binary_Read, mbind, reader_bind, io_ReadFull.
  rewrite bool_decide_false by lia. destruct s as [|b s]; [done|].
  by rewrite bool_decide_true by (unfold zlen; lia).
Qed.

#[export] Hint Resolve binary_Read_Write io_ReadFull_app : go.

(** [[]byte(s)] and [string(bs)]. *)
Definition bytes_of_string (s : string) : list byte := String.list_byte_of_string s.
Definition string_of_bytes (bs : list byte) : string := String.string_of_list_byte bs.

Lemma string_of_bytes_of_string s : string_of_bytes (bytes_of_string s) = s.
Proof. apply String.string_of_list_byte_of_string. Qed.
Lemma bytes_of_string_of_bytes bs : bytes_of_string (string_of_bytes bs) = bs.
Proof. apply String.list_byte_of_string_of_list_byte. Qed.

#[export] Instance bytes_of_string_inj : Inj (=) (=) bytes_of_string.
Proof.
  intros s1 s2 H. by rewrite <-(string_of_bytes_of_string s1), H, string_of_bytes_of_string.
Qed.
#[export] Instance string_of_bytes_inj : Inj (=) (=) string_of_bytes.
Proof.
  intros s1 s2 H. by rewrite <-(bytes_of_string_of_bytes s1), H, bytes_of_string_of_bytes.
Qed.
