(* ===== verification/GoStrings.v ===== *)
(** * Go strings and paths

    What the program uses of the packages [strings], [strconv] and [path].  A Go
    string is a Rocq [string], one [ascii] per byte; Go's order on strings, and
    etcd's order on keys, is the byte order, [String.leb]. *)

From Stdlib Require Export Ascii.
From stdpp Require Export pretty.
From S2P Require Export Prelude.

(** ** [strings] *)
Definition HasPrefix (s p : string) : bool := String.prefix p s.

Fixpoint HasSuffix (s x : string) : bool :=
  bool_decide (s = x) || match s with "" => false | String _ s => HasSuffix s x end.

Definition TrimPrefix (s p : string) : string :=
  if HasPrefix s p then String.substring (String.length p) (String.length s) s else s.

Definition TrimSuffix (s x : string) : string :=
  if HasSuffix s x then String.substring 0 (String.length s - String.length x) s else s.

Fixpoint Contains (s x : string) : bool :=
  HasPrefix s x || match s with "" => false | String _ s => Contains s x end.

(** [strings.Split(s, sep)] for a one-byte separator: never empty. *)
Fixpoint Split (sep : ascii) (s : string) : list string :=
  match s with
  | "" => [""]
  | String c s =>
      if decide (c = sep) then "" :: Split sep s
      else match Split sep s with
           | [] => [String c ""]
           | p :: ps => String c p :: ps
           end
  end.

(** [strings.Join(l, sep)]. *)
Fixpoint Join (sep : string) (l : list string) : string :=
  match l with
  | [] => ""
  | [x] => x
  | x :: l => x +:+ sep +:+ Join sep l
  end.

Fixpoint strings_TrimLeft (c : ascii) (s : string) : string :=
  match s with
  | "" => ""
  | String d s' => if decide (d = c) then strings_TrimLeft c s' else s
  end.

(** ** [strconv] *)

(** [strconv.FormatInt(z, 10)], and [%d] of [fmt.Sprintf]. *)
Definition FormatInt (z : Z) : string := pretty z.

Definition digit_of (c : ascii) : option Z :=
  let n := Z.of_nat (nat_of_ascii c) in
  if decide (48 ≤ n ≤ 57) then Some (n - 48) else None.

Fixpoint parse_digits (acc : Z) (s : string) : option Z :=
  match s with
  | "" => Some acc
  | String c s => d ← digit_of c; parse_digits (10 * acc + d) s
  end.

Definition parse_nat10 (s : string) : option Z :=
  match s with "" => None | _ => parse_digits 0 s end.

(** [strconv.ParseInt(s, 10, 64)], also [strconv.Atoi]: an optional sign, then at
    least one digit, and the value in range. *)
Definition ParseInt (s : string) : option Z :=
  let v := match s with
           | String c s' =>
               if decide (c = "-"%char) then Z.opp <$> parse_nat10 s'
               else if decide (c = "+"%char) then parse_nat10 s'
               else parse_nat10 s
           | "" => None
           end in
  z ← v; if decide (in_s 64 z) then Some z else None.
Abbreviation Atoi := ParseInt.

(** [strconv.ParseUint(s, 10, 64)]: no sign. *)
Definition ParseUint (s : string) : option Z :=
  z ← parse_nat10 s; if decide (in_u 64 z) then Some z else None.

(** ** [path] *)

(** The elements of [path.Clean], read from left to right over the stack of the
    elements kept so far (last one first). *)
Definition clean_step (rooted : bool) (stack : list string) (e : string) : list string :=
  if decide (e = "") then stack
  else if decide (e = ".") then stack
  else if decide (e = "..") then
    match stack with
    | [] => if rooted then [] else [".."]
    | t :: stack' => if decide (t = "..") then ".." :: stack else stack'
    end
  else e :: stack.

Definition path_Clean (p : string) : string :=
  let rooted := HasPrefix p "/" in
  let els := rev (foldl (clean_step rooted) [] (Split "/" p)) in
  let r := (if rooted then "/" else "") +:+ Join "/" els in
  if decide (r = "") then "." else r.

(** [path.Join] drops leading empty elements, joins with a slash and cleans. *)
Fixpoint path_join_raw (buf : string) (elems : list string) : string :=
  match elems with
  | [] => buf
  | e :: elems =>
      path_join_raw
        (if decide (buf = "") then e else buf +:+ "/" +:+ e) elems
  end.

Definition path_Join (elems : list string) : string :=
  let s := path_join_raw "" elems in
  if forallb (λ e, bool_decide (e = "")) elems then "" else path_Clean s.

(** [path.Base]: the last element, slashes at the end stripped. *)
Fixpoint trim_slashes (s : string) : string :=
  match s with
  | "" => ""
  | String c s' =>
      match trim_slashes s' with
      | "" => if decide (c = "/"%char) then "" else String c ""
      | t => String c t
      end
  end.

Definition path_Base (p : string) : string :=
  if decide (p = "") then "."
  else let t := trim_slashes p in
       if decide (t = "") then "/" else List.last (Split "/" t) "".

(** The path functions on the inputs of the package documentation. *)
Example path_Join_ex1 : path_Join ["a"; "b"; "c"] = "a/b/c".
Proof. vm_compute. reflexivity. Qed.
Example path_Join_ex2 : path_Join ["a/b"; "../../../xyz"] = "../xyz".
Proof. vm_compute. reflexivity. Qed.
Example path_Join_ex3 : path_Join [""; ""] = "".
Proof. vm_compute. reflexivity. Qed.
Example path_Join_ex4 : path_Join ["a"; ""] = "a".
Proof. vm_compute. reflexivity. Qed.
Example path_Clean_ex : path_Clean "/a//b/./../c/" = "/a/c".
Proof. vm_compute. reflexivity. Qed.
Example path_Base_ex : path_Base "a/b//" = "b".
Proof. vm_compute. reflexivity. Qed.
Example ParseInt_ex : ParseInt "-9223372036854775808" = Some (-9223372036854775808).
Proof. vm_compute. reflexivity. Qed.
Example ParseInt_ex2 : ParseInt "9223372036854775808" = None.
Proof. vm_compute. reflexivity. Qed.

(** ** Facts *)
Lemma string_app_cons c (s t : string) : String c s +:+ t = String c (s +:+ t).
Proof. reflexivity. Qed.
Lemma string_app_nil_l (s : string) : "" +:+ s = s.
Proof. reflexivity. Qed.
Create Rewrite HintDb go_string.
#[export] Hint Rewrite string_app_cons string_app_nil_l : go_string.

Lemma HasPrefix_app p s : HasPrefix (p +:+ s) p = true.
Proof.
  unfold HasPrefix. induction p as [|c p IH]; autorewrite with go_string; simpl; [by destruct s|].
  by destruct (ascii_dec c c).
Qed.

Lemma HasPrefix_spec s p : HasPrefix s p = true ↔ ∃ t, s = p +:+ t.
Proof.
  split; [|intros [t ->]; apply HasPrefix_app].
  unfold HasPrefix. revert s. induction p as [|c p IH]; intros s; simpl.
  { intros _. by exists s. }
  destruct s as [|d s]; simpl; [done|].
  destruct (ascii_dec c d) as [->|]; [|done].
  intros [t ->]%IH. by exists t.
Qed.

Lemma string_length_app s t : String.length (s +:+ t) = (String.length s + String.length t)%nat.
Proof. induction s as [|c s IH]; [done|]. simpl. by rewrite <-IH. Qed.

Lemma substring_app p t n :
  (String.length t <= n)%nat → String.substring (String.length p) n (p +:+ t) = t.
Proof.
  revert n. induction p as [|a p IH]; intros n Hn; [|by apply IH]. simpl. change ("" +:+ t) with t.
  revert n Hn. induction t as [|b t IH]; intros [|n] Hn; simpl in *; try done; try lia.
  f_equal. apply IH. lia.
Qed.

Lemma TrimPrefix_app p t : TrimPrefix (p +:+ t) p = t.
Proof.
  unfold TrimPrefix. rewrite HasPrefix_app. apply substring_app.
  induction p as [|a p IH]; [done|]. simpl. lia.
Qed.

Lemma string_app_assoc (a b c : string) : (a +:+ b) +:+ c = a +:+ b +:+ c.
Proof. induction a as [|x a IH]; [done|]. autorewrite with go_string. by rewrite IH. Qed.
Lemma string_app_nil_r (a : string) : a +:+ "" = a.
Proof. induction a as [|x a IH]; [done|]. autorewrite with go_string. by rewrite IH. Qed.

Lemma HasSuffix_app s x : HasSuffix (s +:+ x) x = true.
Proof.
  induction s as [|c s IH]; autorewrite with go_string.
  - destruct x; cbn [HasSuffix]; by rewrite bool_decide_true by done.
  - cbn [HasSuffix]. by rewrite IH, orb_true_r.
Qed.

Lemma substring_prefix s t : String.substring 0 (String.length s) (s +:+ t) = s.
Proof. induction s as [|c s IH]; [by destruct t|]. simpl. by rewrite IH. Qed.

Lemma TrimSuffix_app s x : TrimSuffix (s +:+ x) x = s.
Proof.
  unfold TrimSuffix. rewrite HasSuffix_app, string_length_app.
  replace (_ + _ - _)%nat with (String.length s) by lia. apply substring_prefix.
Qed.

Lemma HasPrefix_trans s p q : HasPrefix s p = true → HasPrefix p q = true → HasPrefix s q = true.
Proof.
  rewrite !HasPrefix_spec. intros [t ->] [u ->]. exists (u +:+ t). apply string_app_assoc.
Qed.

Lemma Split_nonempty sep s : Split sep s ≠ [].
Proof. destruct s; simpl; [done|]. case_decide; [done|]. by case_match. Qed.

Lemma Join_Split sep s : Join (String sep "") (Split sep s) = s.
Proof.
  induction s as [|c s IH]; cbn [Split]; [done|]. case_decide as Hc.
  - subst. pose proof (Split_nonempty sep s).
    destruct (Split sep s) as [|p ps]; [done|]. by rewrite <-IH.
  - destruct (Split sep s) as [|p ps] eqn:E; [by apply Split_nonempty in E|].
    rewrite <-IH. by destruct ps.
Qed.

Lemma Split_no_sep sep s : Split sep s = [s] ↔ ∀ t u, s ≠ t +:+ String sep u.
Proof.
  induction s as [|c s IH]; simpl.
  { split; [|done]. intros _ [] ?; done. }
  case_decide as Hc.
  - split; [|intros H; by destruct (H "" s); subst].
    pose proof (Split_nonempty sep s). by destruct (Split sep s).
  - destruct (Split sep s) as [|p ps] eqn:E; [by apply Split_nonempty in E|].
    split.
    + intros [= -> ->] [|d t] u; autorewrite with go_string; intros Hs;
        injection Hs as ? Hs; [done|]. by eapply IH in Hs.
    + intros Hn. assert (p :: ps = [s]) as [= -> ->]; [|done].
      apply IH. intros t u ->. by apply (Hn (String c t) u).
Qed.

Lemma Split_app_sep sep s t :
  Split sep s = [s] → Split sep (s +:+ String sep t) = s :: Split sep t.
Proof.
  induction s as [|c s IH]; autorewrite with go_string; simpl; [by rewrite decide_True|].
  case_decide as Hc.
  { pose proof (Split_nonempty sep s). by destruct (Split sep s). }
  destruct (Split sep s) as [|p ps] eqn:E; [by apply Split_nonempty in E|].
  intros [= -> ->]. by rewrite IH.
Qed.

Lemma Split_elem sep s p : p ∈ Split sep s → Split sep p = [p].
Proof.
  revert p. induction s as [|c s IH]; intros p; simpl.
  { by intros ->%list_elem_of_singleton. }
  case_decide as Hc.
  - intros [->|Hp]%elem_of_cons; [done|auto].
  - destruct (Split sep s) as [|q qs] eqn:E; [by apply Split_nonempty in E|].
    intros [->|Hp]%elem_of_cons; [|apply IH; by right].
    simpl. rewrite decide_False by done. by rewrite (IH q) by left.
Qed.

(** ** Decimal numbers *)
Lemma digit_of_pretty x : (x < 10)%N → digit_of (pretty_N_char x) = Some (Z.of_N x).
Proof.
  intros Hx. assert (x ∈ [0; 1; 2; 3; 4; 5; 6; 7; 8; 9]%N) as Hin.
  { destruct x as [|p]; [left|]. do 10 (destruct p as [p|p|]; try lia; try set_solver). }
  repeat (apply elem_of_cons in Hin as [->|Hin]; [reflexivity|]). by apply not_elem_of_nil in Hin.
Qed.

Lemma parse_digits_pretty_go x s : parse_digits 0 (pretty_N_go x s) = parse_digits (Z.of_N x) s.
Proof.
  revert s. induction (N.lt_wf_0 x) as [x _ IH]. intros s.
  destruct (decide (0 < x)%N) as [Hx|Hx].
  - rewrite pretty_N_go_step by done. rewrite IH by (apply N.div_lt; lia).
    cbn [parse_digits]. rewrite digit_of_pretty by (by apply N.mod_lt). cbn [mbind option_bind].
    f_equal. rewrite N2Z.inj_div, N2Z.inj_mod. pose proof (Z.div_mod (Z.of_N x) 10). lia.
  - assert (x = 0)%N as -> by lia. by rewrite pretty_N_go_0.
Qed.

Lemma parse_nat10_pretty (n : N) :
  ∃ c s, pretty n = String c s ∧ is_Some (digit_of c) ∧ parse_nat10 (pretty n) = Some (Z.of_N n).
Proof.
  assert (parse_digits 0 (pretty n) = Some (Z.of_N n)) as Hp.
  { unfold pretty, pretty_N. case_decide as Hn; [by subst|]. by rewrite parse_digits_pretty_go. }
  unfold parse_nat10. destruct (pretty n) as [|c s] eqn:E.
  - unfold pretty, pretty_N in E. case_decide; [done|].
    rewrite pretty_N_go_step in E by lia. exfalso. revert E.
    generalize (n `div` 10)%N as x. intros x. generalize (n `mod` 10)%N as d. intros d.
    assert (∀ s, s ≠ "" → pretty_N_go x s ≠ "") as Hne; [|by apply Hne].
    induction (N.lt_wf_0 x) as [x _ IH]. intros s Hs. destruct (decide (0 < x)%N).
    + rewrite pretty_N_go_step by done. apply IH; [apply N.div_lt; lia|done].
    + assert (x = 0)%N as -> by lia. by rewrite pretty_N_go_0.
  - exists c, s. split_and!; [done| |done]. simpl in Hp. destruct (digit_of c); [by eexists|done].
Qed.

(** Round trip of decimal numbers. *)
Lemma ParseInt_FormatInt z : in_s 64 z → ParseInt (FormatInt z) = Some z.
Proof.
  intros Hz. unfold ParseInt, FormatInt.
  assert (∀ n : N, ∃ c s, pretty n = String c s ∧ c ≠ "-"%char ∧ c ≠ "+"%char
            ∧ parse_nat10 (String c s) = Some (Z.of_N n)) as Hn.
  { intros n. destruct (parse_nat10_pretty n) as (c & s & E & Hc & Hp). exists c, s.
    rewrite E in Hp. split_and!; [done| | |done]; intros ->; by destruct Hc. }
  destruct z as [|p|p]; [done| |].
  - change (pretty (Z.pos p)) with (pretty (N.pos p)).
    destruct (Hn (N.pos p)) as (c & s & -> & H1 & H2 & ->).
    rewrite !decide_False by done. cbn [mbind option_bind]. by rewrite decide_True.
  - change (pretty (Z.neg p)) with ("-" +:+ pretty (N.pos p)).
    destruct (Hn (N.pos p)) as (c & s & -> & H1 & H2 & Hp).
    rewrite string_app_cons, string_app_nil_l. rewrite decide_True by done. rewrite Hp.
    cbn [fmap option_fmap option_map mbind option_bind]. by rewrite decide_True.
Qed.

(** ** More of [strings] and [strconv] *)

(** [strings.Split(s, sep)] for a separator of any length but 0: [skip] bytes of the last
    separator are still to pass, [acc] is the current part. *)
Fixpoint split_str (sep s : string) (skip : nat) (acc : string) : list string :=
  match s with
  | "" => [acc]
  | String c s' =>
      match skip with
      | S skip => split_str sep s' skip acc
      | O =>
          if HasPrefix s sep then acc :: split_str sep s' (String.length sep - 1) ""
          else split_str sep s' 0 (acc +:+ String c "")
      end
  end.
Definition SplitStr (s sep : string) : list string := split_str sep s 0 "".

(** [strings.SplitN(s, sep, 2)] for a one-byte separator. *)
Fixpoint Split2 (sep : ascii) (s : string) : list string :=
  match s with
  | "" => [""]
  | String c s' =>
      if decide (c = sep) then [""; s']
      else match Split2 sep s' with
           | p :: ps => String c p :: ps
           | [] => [String c ""]
           end
  end.

(** [strings.LastIndex(s, sep)] for a one-byte separator, and the two parts around it. *)
Definition cut_last (sep : ascii) (s : string) : option (string * string) :=
  match rev (Split sep s) with
  | last :: x :: r => Some (Join (String sep "") (rev (x :: r)), last)
  | _ => None
  end.

(** [strings.TrimSpace] on ASCII. *)
Definition is_space (c : ascii) : bool :=
  bool_decide (nat_of_ascii c ∈ [9; 10; 11; 12; 13; 32]%nat).
Fixpoint TrimLeftSpace (s : string) : string :=
  match s with
  | "" => ""
  | String c s' => if is_space c then TrimLeftSpace s' else s
  end.
Fixpoint TrimRightSpace (s : string) : string :=
  match s with
  | "" => ""
  | String c s' =>
      match TrimRightSpace s' with
      | "" => if is_space c then "" else String c ""
      | t => String c t
      end
  end.
Definition TrimSpace (s : string) : string := TrimRightSpace (TrimLeftSpace s).

(** The value of [result, _ := strconv.ParseUint(s, 10, 64)]: 0 for a syntax error, the
    greatest value for one out of range. *)
Definition ParseUint_value (s : string) : Z :=
  match parse_nat10 s with
  | None => 0
  | Some z => if decide (in_u 64 z) then z else 2 ^ 64 - 1
  end.

(** [strconv.ParseInt(s, 10, w)]. *)
Definition ParseInt_w (w : Z) (s : string) : option Z :=
  z ← ParseInt s; if decide (in_s w z) then Some z else None.

(** [strconv.ParseBool]. *)
Definition ParseBool (s : string) : option bool :=
  if decide (s ∈ ["1"; "t"; "T"; "true"; "TRUE"; "True"]) then Some true
  else if decide (s ∈ ["0"; "f"; "F"; "false"; "FALSE"; "False"]) then Some false
  else None.

(** [strings.ToLower] on ASCII letters; no other letter's lower case is one of the ASCII
    letters in the names it is compared with. *)
Definition lower (c : ascii) : ascii :=
  if bool_decide (65 ≤ N_of_ascii c ≤ 90)%N then ascii_of_N (N_of_ascii c + 32) else c.
Fixpoint strings_ToLower (s : string) : string :=
  match s with "" => "" | String c s => String (lower c) (strings_ToLower s) end.

(** [strings.ToUpper], on ASCII. *)
Definition upper (c : ascii) : ascii :=
  if bool_decide (97 ≤ N_of_ascii c ≤ 122)%N then ascii_of_N (N_of_ascii c - 32) else c.
Fixpoint strings_ToUpper (s : string) : string :=
  match s with "" => "" | String c s => String (upper c) (strings_ToUpper s) end.

Lemma lower_upper c : lower (upper c) = lower c.
Proof. destruct c as [[] [] [] [] [] [] [] []]; reflexivity. Qed.
Lemma ToLower_ToUpper s : strings_ToLower (strings_ToUpper s) = strings_ToLower s.
Proof. induction s as [|c s IH]; [done|]. simpl. by rewrite lower_upper, IH. Qed.

(** [strings.EqualFold], on ASCII. *)
Definition EqualFold (s t : string) : bool := bool_decide (strings_ToLower s = strings_ToLower t).

Example SplitStr_ex : SplitStr "a_tsb_ts" "_ts" = ["a"; "b"; ""].
Proof. vm_compute. reflexivity. Qed.
Example Split2_ex : Split2 "=" "k=v=w" = ["k"; "v=w"].
Proof. vm_compute. reflexivity. Qed.
Example cut_last_ex : cut_last "_" "by-dev_dml_0" = Some ("by-dev_dml", "0").
Proof. vm_compute. reflexivity. Qed.
Example cut_last_ex2 : cut_last "_" "dml" = None.
Proof. vm_compute. reflexivity. Qed.
Example TrimSpace_ex : TrimSpace "  a b " = "a b".
Proof. vm_compute. reflexivity. Qed.

(** The parts around the last separator. *)
Lemma Join_app sep (l1 l2 : list string) :
  l1 ≠ [] → l2 ≠ [] → Join sep (l1 ++ l2) = Join sep l1 +:+ sep +:+ Join sep l2.
Proof.
  intros H1 H2. induction l1 as [|a l1 IH]; [done|]. destruct (decide (l1 = [])) as [->|Hl].
  - simpl. by destruct l2.
  - assert (Join sep (a :: l1) = a +:+ sep +:+ Join sep l1) as -> by by destruct l1.
    assert (Join sep ((a :: l1) ++ l2) = a +:+ sep +:+ Join sep (l1 ++ l2)) as ->.
    { simpl. by destruct l1. }
    rewrite IH by done. by rewrite !string_app_assoc.
Qed.

Lemma cut_last_spec sep s a b :
  cut_last sep s = Some (a, b) ↔ s = a +:+ String sep b ∧ Split sep b = [b].
Proof.
  unfold cut_last. split.
  - destruct (rev (Split sep s)) as [|l [|x r]] eqn:E; [done..|]. intros [= <- <-].
    apply (f_equal (@rev string)) in E. rewrite rev_involutive in E. split.
    + pose proof (Join_Split sep s) as Hj. rewrite E in Hj. cbn [rev] in Hj.
      rewrite Join_app in Hj; [by rewrite <-Hj| |done]. cbn [rev]. by destruct (rev r).
    + apply (Split_elem sep s). rewrite E. cbn [rev]. apply elem_of_app. right. left.
  - intros [-> Hb].
    assert (Split sep (a +:+ String sep b) = Split sep a ++ [b]) as ->.
    { transitivity (Split sep a ++ Split sep b); [|by rewrite Hb]. clear Hb. induction a as [|c a IH]; autorewrite with go_string; simpl.
      - by rewrite decide_True.
      - rewrite IH. case_decide; [done|]. pose proof (Split_nonempty sep a).
        by destruct (Split sep a). }
    rewrite rev_unit. pose proof (Split_nonempty sep a) as Hne.
    destruct (rev (Split sep a)) as [|x r] eqn:E.
    + apply (f_equal (@rev string)) in E. rewrite rev_involutive in E. done.
    + rewrite <-E, rev_involutive. by rewrite Join_Split.
Qed.
