(* ===== verification/KeyOrder.v ===== *)
(** * Ordered keys

    etcd and TiKV keep their keys in byte order.  This file defines that order on
    strings with the facts that the range requests rely on (successor keys, prefix
    blocks), and the sorted contents of a map, which range requests return. *)

From S2P Require Export GoBytes GoStrings.

(** ** Byte order *)
Definition code (c : ascii) : N := N_of_ascii c.

Lemma code_inj c d : code c = code d → c = d.
Proof. intros H. rewrite <-(ascii_N_embedding c), <-(ascii_N_embedding d). by f_equal. Qed.

Fixpoint kle (a b : string) : bool :=
  match a, b with
  | "", _ => true
  | _, "" => false
  | String c a, String d b =>
      if decide (c = d) then kle a b else bool_decide (code c < code d)%N
  end.
Definition klt (a b : string) : bool := negb (kle b a).

Lemma kle_refl a : kle a a = true.
Proof. induction a; simpl; [done|]. by rewrite decide_True. Qed.

Lemma kle_total a b : kle a b = false → kle b a = true.
Proof.
  revert b. induction a as [|c a IH]; intros [|d b]; simpl; try done.
  destruct (decide (c = d)) as [->|Hne]; [rewrite decide_True by done; auto|].
  rewrite decide_False by done. rewrite bool_decide_eq_false, bool_decide_eq_true.
  assert (code c ≠ code d) by (by intros ?%code_inj). lia.
Qed.

Lemma kle_antisym a b : kle a b = true → kle b a = true → a = b.
Proof.
  revert b. induction a as [|c a IH]; intros [|d b]; simpl; try done.
  destruct (decide (c = d)) as [->|Hne].
  - rewrite decide_True by done. intros. f_equal. auto.
  - rewrite decide_False by done. rewrite !bool_decide_eq_true. lia.
Qed.

Lemma kle_trans a b c : kle a b = true → kle b c = true → kle a c = true.
Proof.
  revert b c. induction a as [|x a IH]; intros [|y b] [|z c]; simpl; try done.
  destruct (decide (x = y)) as [->|]; destruct (decide (y = z)) as [->|];
    rewrite ?decide_True by done; rewrite ?decide_False by done; eauto; rewrite !bool_decide_eq_true;
    [done..|]. intros. destruct (decide (x = z)) as [->|]; [lia|]. rewrite bool_decide_eq_true. lia.
Qed.

Lemma klt_le a b : klt a b = true → kle a b = true.
Proof. unfold klt. rewrite negb_true_iff. apply kle_total. Qed.
Lemma klt_irrefl a : klt a a = false.
Proof. unfold klt. by rewrite kle_refl. Qed.
Lemma klt_ne a b : klt a b = true → a ≠ b.
Proof. intros Hlt ->. by rewrite klt_irrefl in Hlt. Qed.
Lemma kle_lt_or_eq a b : kle a b = true → klt a b = true ∨ a = b.
Proof.
  intros Hab. unfold klt. destruct (kle b a) eqn:E; [right; by apply kle_antisym|by left].
Qed.
Lemma kle_klt_trans a b c : kle a b = true → klt b c = true → klt a c = true.
Proof.
  unfold klt. rewrite !negb_true_iff. intros Hab Hcb. apply not_true_iff_false. intros Hca.
  rewrite (kle_trans c a b) in Hcb; done.
Qed.
Lemma klt_kle_trans a b c : klt a b = true → kle b c = true → klt a c = true.
Proof.
  unfold klt. rewrite !negb_true_iff. intros Hba Hbc. apply not_true_iff_false. intros Hca.
  rewrite (kle_trans b c a) in Hba; done.
Qed.

(** ** Successors and prefixes *)
Definition zero_char : ascii := "000".

(** [string(append(key, 0))]. *)
Definition key_next (k : string) : string := k +:+ String zero_char "".

Lemma key_next_le k k' : kle (key_next k) k' = klt k k'.
Proof.
  unfold key_next, klt. revert k'. induction k as [|c k IH]; intros [|d k'];
    autorewrite with go_string; simpl; try done.
  - case_decide as Hd; [done|]. apply bool_decide_eq_true. unfold code.
    assert (code d ≠ code zero_char) as Hne by (intros E%code_inj; congruence).
    unfold code in Hne. simpl in *. lia.
  - rewrite IH. destruct (decide (c = d)) as [->|Hne]; [by rewrite decide_True|].
    rewrite (decide_False (P:=d = c)) by done.
    assert (code c ≠ code d) by (by intros ?%code_inj).
    repeat case_bool_decide; simpl; done || lia.
Qed.

Lemma kle_prefix p k : HasPrefix k p = true → kle p k = true.
Proof.
  intros [t ->]%HasPrefix_spec. induction p as [|c p IH]; [done|].
  autorewrite with go_string. simpl. by rewrite decide_True.
Qed.

Lemma HasPrefix_cons c k d p :
  HasPrefix (String c k) (String d p) = bool_decide (d = c) && HasPrefix k p.
Proof.
  unfold HasPrefix. simpl. destruct (ascii_dec d c) as [->|].
  - by rewrite bool_decide_true.
  - by rewrite bool_decide_false.
Qed.

(** The keys with a prefix come first among the keys not below it. *)
Lemma prefix_block p k k' :
  kle p k = true → kle k k' = true → HasPrefix k' p = true → HasPrefix k p = true.
Proof.
  revert k k'. induction p as [|d p IH]; intros [|c k] [|c' k']; try done.
  rewrite !HasPrefix_cons. simpl. rewrite !andb_true_iff, !bool_decide_eq_true.
  intros Hpk Hkk [-> Hp]. destruct (decide (c' = c)) as [->|Hne].
  - rewrite decide_True in Hkk by done. split; [done|]. by eapply IH.
  - rewrite decide_False in Hkk by done. apply bool_decide_eq_true in Hpk, Hkk. lia.
Qed.

(** A key between [u/] and [u0] is below the path [u]. *)
Lemma between_slash_zero u k :
  kle (u +:+ "/") k = true → klt k (u +:+ "0") = true → HasPrefix k (u +:+ "/") = true.
Proof.
  unfold klt. revert k. induction u as [|d u IH]; intros [|c k]; autorewrite with go_string;
    rewrite ?HasPrefix_cons; try done.
  - simpl. destruct (decide ("/"%char = c)) as [<-|Hne]; [intros _ _; by destruct k|].
    destruct (decide ("0"%char = c)) as [<-|Hne']; [done|].
    intros H1%bool_decide_eq_true H2%negb_true_iff%bool_decide_eq_false.
    assert (code c ≠ code "0"%char) by (intros E%code_inj; congruence).
    unfold code in *. simpl in *. lia.
  - simpl. destruct (decide (d = c)) as [->|Hne].
    + rewrite bool_decide_true by done. apply IH.
    + intros H1%bool_decide_eq_true H2%negb_true_iff%bool_decide_eq_false. lia.
Qed.

(** ** Sorted contents *)
Definition kv_le {V} (a b : string * V) : Prop := kle a.1 b.1 = true.
#[export] Instance kv_le_dec {V} : RelDecision (kv_le (V:=V)).
Proof. intros a b. unfold kv_le. apply _. Defined.
#[export] Instance kv_le_total {V} : Total (kv_le (V:=V)).
Proof. intros a b. unfold kv_le. destruct (kle a.1 b.1) eqn:E; [by left|right; by apply kle_total]. Qed.
#[export] Instance kv_le_trans {V} : Transitive (kv_le (V:=V)).
Proof. intros a b c. apply kle_trans. Qed.

Definition sorted_kvs {V} (m : gmap string V) : list (string * V) :=
  merge_sort kv_le (map_to_list m).

(** Strictly increasing keys. *)
Definition kv_lt {V} (a b : string * V) : Prop := klt a.1 b.1 = true.

Lemma sorted_kvs_perm {V} (m : gmap string V) : sorted_kvs m ≡ₚ map_to_list m.
Proof. apply merge_sort_Permutation. Qed.

Lemma elem_of_sorted_kvs {V} (m : gmap string V) k v :
  (k, v) ∈ sorted_kvs m ↔ m !! k = Some v.
Proof. rewrite sorted_kvs_perm. apply elem_of_map_to_list. Qed.

Lemma strictly_sorted {V} (l : list (string * V)) :
  StronglySorted kv_le l → NoDup (map fst l) → StronglySorted kv_lt l.
Proof.
  induction 1 as [|a l Hl IH Ha]; [constructor|]. simpl. intros [Hn Hnd]%list.NoDup_cons.
  constructor; [auto|]. apply list.Forall_forall. intros b Hb.
  eapply list.Forall_forall in Ha; [|done]. destruct (kle_lt_or_eq _ _ Ha) as [|E]; [done|].
  destruct Hn. rewrite E. apply list_elem_of_fmap. eauto.
Qed.

Lemma sorted_kvs_sorted {V} (m : gmap string V) : StronglySorted kv_lt (sorted_kvs m).
Proof.
  apply strictly_sorted; [apply StronglySorted_merge_sort; apply _|].
  rewrite sorted_kvs_perm. apply NoDup_fst_map_to_list.
Qed.

(** ** Pages of a sorted list *)
Lemma sorted_split {V} (l1 l2 : list (string * V)) k v :
  StronglySorted kv_lt (l1 ++ (k, v) :: l2) →
  Forall (λ kv, klt kv.1 k = true) l1 ∧ Forall (λ kv, klt k kv.1 = true) l2.
Proof.
  intros [Hl1 [_ Hl2]]%StronglySorted_app. split.
  - apply list.Forall_forall. intros [k' v'] Hin. apply (Hl1 (k', v') (k, v)); [done|left].
  - by apply StronglySorted_cons in Hl2 as [? _].
Qed.

Lemma StronglySorted_filter {A} (R : A → A → Prop) (P : A → Prop) `{∀ x, Decision (P x)} l :
  StronglySorted R l → StronglySorted R (filter P l).
Proof.
  induction 1 as [|a l _ IH Ha]; [constructor|]. rewrite filter_cons. case_decide; [|done].
  constructor; [done|]. apply list.Forall_forall. intros b [_ Hb]%list_elem_of_filter.
  by eapply list.Forall_forall in Ha.
Qed.

(** The pairs after [k], once everything up to [k] has been read. *)
Lemma filter_after {V} (l l1 l2 : list (string * V)) (P : string → bool) cur k v :
  StronglySorted kv_lt l →
  filter (λ kv, kle cur kv.1 && P kv.1 = true) l = l1 ++ (k, v) :: l2 →
  filter (λ kv, kle (key_next k) kv.1 && P kv.1 = true) l = l2.
Proof.
  intros Hs Hf.
  assert (StronglySorted kv_lt (l1 ++ (k, v) :: l2)) as Hs'
    by (rewrite <-Hf; by apply StronglySorted_filter).
  destruct (sorted_split _ _ _ _ Hs') as [H1 H2].
  assert (kle cur k = true) as Hcur.
  { assert ((k, v) ∈ filter (λ kv, kle cur kv.1 && P kv.1 = true) l) as Hin
      by (rewrite Hf; set_solver).
    apply list_elem_of_filter in Hin as [Hin%andb_true_iff _]. apply Hin. }
  transitivity (filter (λ kv, klt k kv.1 = true) (filter (λ kv, kle cur kv.1 && P kv.1 = true) l)).
  - rewrite list_filter_filter. apply list_filter_iff. intros [k' v']. simpl.
    rewrite key_next_le, !andb_true_iff. split; [intros [Hk ?]|tauto]. split_and!; try done.
    eapply kle_trans; [exact Hcur|]. by apply klt_le.
  - rewrite Hf, list.filter_app, filter_cons_False by (simpl; by rewrite klt_irrefl).
    rewrite filter_none, filter_all; [done|done|]. eapply Forall_impl; [|exact H1].
    intros [k' v']. simpl. unfold klt. rewrite !negb_true_iff. intros Hk. by rewrite (kle_total _ _ Hk).
Qed.

(** Two strictly sorted lists with the same pairs are equal. *)
Lemma kv_lt_unique {V} (l1 l2 : list (string * V)) :
  StronglySorted kv_lt l1 → StronglySorted kv_lt l2 → (∀ x, x ∈ l1 ↔ x ∈ l2) → l1 = l2.
Proof.
  assert (∀ l : list (string * V), StronglySorted kv_lt l → NoDup l) as Hnd.
  { induction 1 as [|a l _ IH Ha]; [constructor|]. apply list.NoDup_cons. split; [|done].
    intros Hin. eapply list.Forall_forall in Ha; [|done]. by apply klt_ne in Ha. }
  assert (AntiSymm (=) (@kv_lt V)).
  { intros a b Hab Hba. unfold kv_lt in *.
    pose proof (klt_kle_trans _ _ _ Hab (klt_le _ _ Hba)) as Haa. by rewrite klt_irrefl in Haa. }
  intros Hs1 Hs2 Hl. apply (StronglySorted_unique kv_lt); [done|done|].
  apply NoDup_Permutation; auto.
Qed.
