(* ===== verification/Values.v ===== *)
(** * Dynamic values and Milvus data types

    The values of Go's [interface{}] that the storage readers produce and the
    commands pass around, and the numbers of [schemapb.DataType]. *)

From S2P Require Export GoBytes GoStrings.

(** Floats are their bits; a [proto] message is carried as its type name and its
    encoding. *)
Inductive any :=
  | VNil
  | VBool (b : bool)
  | VInt8 (z : Z)
  | VInt16 (z : Z)
  | VInt32 (z : Z)
  | VInt64 (z : Z)
  | VUint64 (z : Z)
  | VFloat32 (bits : Z)
  | VFloat64 (bits : Z)
  | VString (s : string)
  | VBytes (bs : list byte)
  | VFloat32s (v : list Z)
  | VFloat16s (v : list Z)
  | VScalarField (bs : list byte)
  | VFunc (name : string).

#[export] Instance any_eq_dec : EqDecision any.
Proof. solve_decision. Defined.

(** [schemapb.DataType]. *)
Definition DataType_None : Z := 0.
Definition DataType_Bool : Z := 1.
Definition DataType_Int8 : Z := 2.
Definition DataType_Int16 : Z := 3.
Definition DataType_Int32 : Z := 4.
Definition DataType_Int64 : Z := 5.
Definition DataType_Float : Z := 10.
Definition DataType_Double : Z := 11.
Definition DataType_String : Z := 20.
Definition DataType_VarChar : Z := 21.
Definition DataType_Array : Z := 22.
Definition DataType_JSON : Z := 23.
Definition DataType_BinaryVector : Z := 100.
Definition DataType_FloatVector : Z := 101.
Definition DataType_Float16Vector : Z := 102.
Definition DataType_BFloat16Vector : Z := 103.
Definition DataType_SparseFloatVector : Z := 104.

(** A value as its kind, number, text and vector. *)
Definition any_encode (v : any) : Z * Z * string * list Z :=
  match v with
  | VNil => (0, 0, "", [])
  | VBool b => (1, Z.b2z b, "", [])
  | VInt8 z => (2, z, "", [])
  | VInt16 z => (3, z, "", [])
  | VInt32 z => (4, z, "", [])
  | VInt64 z => (5, z, "", [])
  | VUint64 z => (6, z, "", [])
  | VFloat32 z => (7, z, "", [])
  | VFloat64 z => (8, z, "", [])
  | VString s => (9, 0, s, [])
  | VBytes bs => (10, 0, string_of_bytes bs, [])
  | VFloat32s l => (11, 0, "", l)
  | VFloat16s l => (12, 0, "", l)
  | VScalarField bs => (13, 0, string_of_bytes bs, [])
  | VFunc s => (14, 0, s, [])
  end.
Definition any_decode (c : Z * Z * string * list Z) : any :=
  let '(k, z, s, l) := c in
  match k with
  | 1 => VBool (bool_decide (z = 1))
  | 2 => VInt8 z
  | 3 => VInt16 z
  | 4 => VInt32 z
  | 5 => VInt64 z
  | 6 => VUint64 z
  | 7 => VFloat32 z
  | 8 => VFloat64 z
  | 9 => VString s
  | 10 => VBytes (bytes_of_string s)
  | 11 => VFloat32s l
  | 12 => VFloat16s l
  | 13 => VScalarField (bytes_of_string s)
  | 14 => VFunc s
  | _ => VNil
  end.
#[export] Instance any_countable : Countable any.
Proof.
  refine (inj_countable' any_encode any_decode _).
  intros [| [] | | | | | | | | | | | | | ]; simpl; by rewrite ?bytes_of_string_of_bytes.
Defined.
