(* ===== verification/BinlogEvent.v ===== *)
(** * Binlog v1: event headers and event data

    Models [storage/binlog/v1/event_header.go], [event_data.go], [event_reader.go]
    and the head of [binlog_reader.go] (magic number and descriptor event).

    Writers return the bytes they append to the buffer; readers are [reader]s of
    GoBytes.  The JSON document of the descriptor's extras is encoded and decoded
    by [encoding/json] on [map[string]interface{}], the interface [JsonMap]. *)

From S2P Require Export GoBytes GoStrings.

(** [encoding/json] on [map[string]interface{}]; [J] is the type of the dynamic
    values.  [json_stable] are the maps that only hold what [encoding/json] decodes
    into (so a large Go integer, which comes back as a float, is not stable). *)
Class JsonMap (J : Type) := {
  json_Marshal : gmap string J → res (list byte);
  json_Unmarshal : list byte → res (gmap string J);
  json_as_string : J → option string;
  json_stable : gmap string J → Prop;
}.

Class JsonMapLaws (J : Type) `{JsonMap J} := {
  json_Unmarshal_Marshal m bs :
    json_stable m → json_Marshal m = Ok bs → json_Unmarshal bs = Ok m;
}.

(** ** Event type codes *)
Definition DescriptorEventType : Z := 0.
Definition InsertEventType : Z := 1.
Definition DeleteEventType : Z := 2.
Definition CreateCollectionEventType : Z := 3.
Definition DropCollectionEventType : Z := 4.
Definition CreatePartitionEventType : Z := 5.
Definition DropPartitionEventType : Z := 6.
Definition IndexFileEventType : Z := 7.
Definition EventTypeEnd : Z := 8.

(** ** Event headers *)
Record baseEventHeader := BaseEventHeader {
  Timestamp : Z;
  TypeCode : Z;
  EventLength : Z;
  NextPosition : Z;
}.

#[export] Instance baseEventHeader_eq_dec : EqDecision baseEventHeader.
Proof. solve_decision. Defined.

Definition fx_baseEventHeader : fixed baseEventHeader :=
  fx_struct (fx_pair fx_uint64 (fx_pair fx_int8 (fx_pair fx_int32 fx_int32)))
    (λ '(t, (c, (l, n))), BaseEventHeader t c l n)
    (λ h, (Timestamp h, (TypeCode h, (EventLength h, NextPosition h))))
    (λ h, match h with BaseEventHeader _ _ _ _ => eq_refl end)
    (λ x, match x with (t, (c, (l, n))) => eq_refl end).

Definition baseEventHeader_GetMemoryUsageInBytes (_ : baseEventHeader) : Z :=
  int32 (binary_Size fx_baseEventHeader).

Definition baseEventHeader_Write (h : baseEventHeader) : list byte :=
  binary_Write fx_baseEventHeader h.

Definition readEventHeader : reader baseEventHeader := binary_Read fx_baseEventHeader.
Definition readDescriptorEventHeader : reader baseEventHeader :=
  binary_Read fx_baseEventHeader.

Definition newDescriptorEventHeader : baseEventHeader :=
  BaseEventHeader 0 DescriptorEventType 0 0.

Definition newEventHeader (eventTypeCode : Z) : baseEventHeader :=
  BaseEventHeader 0 eventTypeCode (-1) (-1).

(** ** Event data with a fixed part only

    The seven event data types have the same fields and methods; a phantom index
    keeps them apart, as the seven Go types do. *)
Inductive eventKind :=
  | InsertK | DeleteK | CreateCollectionK | DropCollectionK
  | CreatePartitionK | DropPartitionK | IndexFileK.

Record eventData (k : eventKind) := EventData {
  StartTimestamp : Z;
  EndTimestamp : Z;
}.
Arguments EventData {k}. Arguments StartTimestamp {k}. Arguments EndTimestamp {k}.

Abbreviation insertEventData := (eventData InsertK).
Abbreviation indexFileEventData := (eventData IndexFileK).

Definition fx_eventData (k : eventKind) : fixed (eventData k) :=
  fx_struct (fx_pair fx_uint64 fx_uint64)
    (λ '(s, e), EventData s e) (λ d, (StartTimestamp d, EndTimestamp d))
    (λ d, match d with EventData _ _ => eq_refl end)
    (λ x, match x with (s, e) => eq_refl end).

Definition SetEventTimestamp {k} (d : eventData k) (start end_ : Z) : eventData k :=
  EventData start end_.

Definition eventData_GetEventDataFixPartSize {k} (_ : eventData k) : Z :=
  int32 (binary_Size (fx_eventData k)).

Definition WriteEventData {k} (d : eventData k) : res (list byte) :=
  if bool_decide (StartTimestamp d = 0) then Err (Errorf "hasn't set start time stamp")
  else if bool_decide (EndTimestamp d = 0) then Err (Errorf "hasn't set end time stamp")
  else Ok (binary_Write (fx_eventData k) d).

(** The constructors [newInsertEventData], ..., [newIndexFileEventData]. *)
Definition newEventData {k} : eventData k := EventData 0 0.

(** [readInsertEventDataFixPart], ..., [ReadIndexFileEventDataFixPart]. *)
Definition readEventDataFixPart {k} : reader (eventData k) := binary_Read (fx_eventData k).

(** ** The descriptor event *)
Record DescriptorEventDataFixPart := FixPart {
  CollectionID : Z;
  PartitionID : Z;
  SegmentID : Z;
  FieldID : Z;
  fix_StartTimestamp : Z;
  fix_EndTimestamp : Z;
  PayloadDataType : Z;
}.

Definition fx_FixPart : fixed DescriptorEventDataFixPart :=
  fx_struct
    (fx_pair fx_int64 (fx_pair fx_int64 (fx_pair fx_int64 (fx_pair fx_int64
      (fx_pair fx_uint64 (fx_pair fx_uint64 fx_int32))))))
    (λ '(c, (p, (s, (f, (st, (e, d)))))), FixPart c p s f st e d)
    (λ x, (CollectionID x, (PartitionID x, (SegmentID x, (FieldID x,
            (fix_StartTimestamp x, (fix_EndTimestamp x, PayloadDataType x)))))))
    (λ x, match x with FixPart _ _ _ _ _ _ _ => eq_refl end)
    (λ x, match x with (c, (p, (s, (f, (st, (e, d)))))) => eq_refl end).

Definition originalSizeKey : string := "original_size".

Record descriptorEventData (J : Type) := DescriptorData {
  FixPartOf : DescriptorEventDataFixPart;
  ExtraLength : Z;
  ExtraBytes : list byte;
  Extras : gmap string J;
  PostHeaderLengths : list byte;
}.
Arguments DescriptorData {J}. Arguments FixPartOf {J}. Arguments ExtraLength {J}.
Arguments ExtraBytes {J}. Arguments Extras {J}. Arguments PostHeaderLengths {J}.

Definition getEventFixPartSize (code : Z) : Z :=
  if bool_decide (code = DescriptorEventType) then int32 (binary_Size fx_FixPart)
  else if bool_decide (code = InsertEventType) then
    eventData_GetEventDataFixPartSize (k:=InsertK) newEventData
  else if bool_decide (code = DeleteEventType) then
    eventData_GetEventDataFixPartSize (k:=DeleteK) newEventData
  else if bool_decide (code = CreateCollectionEventType) then
    eventData_GetEventDataFixPartSize (k:=CreateCollectionK) newEventData
  else if bool_decide (code = DropCollectionEventType) then
    eventData_GetEventDataFixPartSize (k:=DropCollectionK) newEventData
  else if bool_decide (code = CreatePartitionEventType) then
    eventData_GetEventDataFixPartSize (k:=CreatePartitionK) newEventData
  else if bool_decide (code = DropPartitionEventType) then
    eventData_GetEventDataFixPartSize (k:=DropPartitionK) newEventData
  else if bool_decide (code = IndexFileEventType) then
    eventData_GetEventDataFixPartSize (k:=IndexFileK) newEventData
  else -1.

Section descriptor.
Context {J : Type} `{JsonMap J}.
Implicit Types (d : descriptorEventData J).

(** The loop over the event types fills one byte per type. *)
Definition newDescriptorEventData : descriptorEventData J :=
  DescriptorData (FixPart (-1) (-1) (-1) (-1) 0 0 (-1)) 0 [] ∅
    (map (λ i, byte_of_Z (getEventFixPartSize i))
         (seqZ DescriptorEventType (EventTypeEnd - DescriptorEventType))).

Definition SetEventTimeStamp d (start end_ : Z) : descriptorEventData J :=
  let f := FixPartOf d in
  DescriptorData
    (FixPart (CollectionID f) (PartitionID f) (SegmentID f) (FieldID f) start end_
       (PayloadDataType f))
    (ExtraLength d) (ExtraBytes d) (Extras d) (PostHeaderLengths d).

Definition descriptor_GetEventDataFixPartSize (_ : descriptorEventData J) : Z :=
  int32 (binary_Size fx_FixPart).

Definition descriptor_GetMemoryUsageInBytes d : Z :=
  int32 (descriptor_GetEventDataFixPartSize d + int32 (zlen (PostHeaderLengths d))
         + int32 (binary_Size fx_int32) + ExtraLength d).

Definition AddExtra d (k : string) (v : J) : descriptorEventData J :=
  DescriptorData (FixPartOf d) (ExtraLength d) (ExtraBytes d) (<[k := v]> (Extras d))
    (PostHeaderLengths d).

Definition FinishExtra d : res (descriptorEventData J) :=
  match Extras d !! originalSizeKey with
  | None => Err (Errorf "original_size not in extra")
  | Some sizeStored =>
      match json_as_string sizeStored with
      | None => Err (Errorf "value of original_size must in string format")
      | Some sizeStr =>
          match Atoi sizeStr with
          | None => Err (Errorf "value of original_size must be able to be converted into int format")
          | Some _ =>
              bs ← json_Marshal (Extras d);
              Ok (DescriptorData (FixPartOf d) (int32 (zlen bs)) bs (Extras d)
                    (PostHeaderLengths d))
          end
      end
  end.

Definition descriptor_Write d : list byte :=
  binary_Write fx_FixPart (FixPartOf d) ++ PostHeaderLengths d
  ++ binary_Write fx_int32 (ExtraLength d) ++ ExtraBytes d.

(** [event.ExtraBytes = make([]byte, event.ExtraLength)] panics on a negative
    length; [binary.Read] then fills the slice. *)
Definition readDescriptorEventData : reader (descriptorEventData J) :=
  f ← binary_Read fx_FixPart;
  ph ← io_ReadFull (zlen (PostHeaderLengths newDescriptorEventData));
  el ← binary_Read fx_int32;
  eb ← make_ReadFull el;
  ex ← rd_lift (json_Unmarshal eb);
  mret (DescriptorData f el eb ex ph).

Record DescriptorEvent := DE {
  de_header : baseEventHeader;
  de_data : descriptorEventData J;
}.

Definition ReadDescriptorEvent : reader DescriptorEvent :=
  header ← readDescriptorEventHeader;
  data ← readDescriptorEventData;
  mret (DE header data).

Definition MagicNumberV1 : Z := 0xfffabc.

Definition ReadMagicNumber : reader Z :=
  magicNumber ← binary_Read fx_int32;
  if bool_decide (magicNumber ≠ MagicNumberV1) then
    rd_fail (Errorf "parse magic number failed")
  else mret magicNumber.

(** [NewBinlogReader]: magic number, then descriptor event; the reader goes on
    from there. *)
Record BinlogReader := BLR {
  blr_reader : list byte;
  blr_event : DescriptorEvent;
}.

Definition NewBinlogReader (f : list byte) : res BinlogReader :=
  '(_, f1) ← ReadMagicNumber f;
  '(de, f2) ← ReadDescriptorEvent f1;
  Ok (BLR f2 de).

Definition GetMapping (r : BinlogReader) : gmap Z Z :=
  {[ FieldID (FixPartOf (de_data (blr_event r))) := 0 ]}.
End descriptor.
Arguments DescriptorEvent : clear implicits.
Arguments BinlogReader : clear implicits.

(** ** [EventReader] *)
Definition EventReader_ReadHeader : reader baseEventHeader := readEventHeader.

Definition EventReader_ReadData (eventType : Z) : reader unit :=
  if bool_decide (eventType = InsertEventType) then
    _ ← readEventDataFixPart (k:=InsertK); mret tt
  else rd_fail (Errorf "not supported yet").

Definition readInsertEventData : reader insertEventData := binary_Read (fx_eventData InsertK).
Definition ReadIndexFileEventData : reader indexFileEventData :=
  binary_Read (fx_eventData IndexFileK).

(** ** A concrete extras codec

    Maps of one entry, written [key=value]; used to run the readers and writers on
    concrete files. *)
#[export] Instance kv_json : JsonMap string := {
  json_Marshal m :=
    match map_to_list m with
    | [(k, v)] => Ok (bytes_of_string (k +:+ "=" +:+ v))
    | _ => Err (Errorf "unsupported value")
    end;
  json_Unmarshal bs :=
    match Split "=" (string_of_bytes bs) with
    | [k; v] => Ok {[ k := v ]}
    | _ => Err (Errorf "unexpected end of JSON input")
    end;
  json_as_string v := Some v;
  json_stable m := ∃ k v, m = {[ k := v ]} ∧ Split "=" k = [k] ∧ Split "=" v = [v];
}.

#[export] Instance kv_json_laws : JsonMapLaws string.
Proof.
  constructor. intros m bs (k & v & -> & Hk & Hv). simpl.
  rewrite map_to_list_singleton. intros [= <-].
  rewrite string_of_bytes_of_string. change ("=" +:+ v) with (String "=" v).
  by rewrite Split_app_sep, Hv.
Qed.

(** A descriptor with one extra, as a binlog writer leaves it after
    [AddExtra] and [FinishExtra]. *)
Definition sample_descriptor : descriptorEventData string :=
  AddExtra
    (DescriptorData (FixPart 100 (-1) 7 101 1 2 5) 0 [] ∅
       (PostHeaderLengths (newDescriptorEventData (J:=string))))
    originalSizeKey "1024".

(** ** Properties *)
Lemma GetMemoryUsageInBytes_header h : baseEventHeader_GetMemoryUsageInBytes h = 17.
Proof. reflexivity. Qed.
Lemma GetEventDataFixPartSize_event k (d : eventData k) :
  eventData_GetEventDataFixPartSize d = 16.
Proof. reflexivity. Qed.
Lemma zlen_PostHeaderLengths {J} :
  zlen (PostHeaderLengths (newDescriptorEventData (J:=J))) = Z.of_nat 8.
Proof. reflexivity. Qed.

Lemma zlen_bin {A} (f : fixed A) a : zlen (binary_Write f a) = binary_Size f.
Proof. unfold zlen, binary_Write, binary_Size. by rewrite fx_length. Qed.

Section properties.
Context {J : Type} `{JsonMapLaws J}.
Implicit Types (d : descriptorEventData J).

(** What a descriptor must satisfy for [Write] to put all of it in the file. *)
Definition descriptor_wf d : Prop :=
  fx_ok fx_FixPart (FixPartOf d) ∧ length (PostHeaderLengths d) = 8%nat
  ∧ ExtraLength d = zlen (ExtraBytes d) ∧ zlen (ExtraBytes d) < 2 ^ 31.

Lemma FinishExtra_inv d d' :
  FinishExtra d = Ok d' →
  ∃ s z bs, Extras d !! originalSizeKey = Some s ∧ (json_as_string s ≫= Atoi) = Some z
    ∧ json_Marshal (Extras d) = Ok bs
    ∧ d' = DescriptorData (FixPartOf d) (int32 (zlen bs)) bs (Extras d) (PostHeaderLengths d).
Proof.
  unfold FinishExtra. intros Hf. repeat (case_match; simplify_eq/=; try done).
  res_inv. subst. do 3 eexists. repeat split; try done.
  by match goal with E : json_as_string _ = _ |- _ => rewrite E end.
Qed.

Lemma FinishExtra_wf d d' :
  FinishExtra d = Ok d' → fx_ok fx_FixPart (FixPartOf d) →
  length (PostHeaderLengths d) = 8%nat → zlen (ExtraBytes d') < 2 ^ 31 → descriptor_wf d'.
Proof.
  intros (s & z & bs & _ & _ & _ & ->)%FinishExtra_inv Hok Hl Hb.
  unfold descriptor_wf; simpl in *. repeat split; try done; try apply Hok.
  apply wraps_id; [lia|]. pose proof (zlen_nonneg bs). unfold in_s. lia.
Qed.

Lemma readDescriptorEventData_Write d s :
  descriptor_wf d → json_Unmarshal (ExtraBytes d) = Ok (Extras d) →
  readDescriptorEventData (descriptor_Write d ++ s) = Ok (d, s).
Proof.
  intros (Hok & Hl & He & Hb) Hj. unfold readDescriptorEventData, descriptor_Write.
  rd_step ltac:(by apply binary_Read_Write).
  rewrite zlen_PostHeaderLengths, <-Hl. rd_step ltac:(apply io_ReadFull_app).
  rd_step ltac:(apply binary_Read_Write).
  2: { unfold fx_int32, fx_signed, in_s; simpl. pose proof (zlen_nonneg (ExtraBytes d)). lia. }
  rd_step ltac:(apply make_ReadFull_app; [done|unfold maxAlloc; lia]).
  rd_step ltac:(unfold rd_lift; by rewrite Hj). by destruct d.
Qed.

Lemma readDescriptorEventData_inv d s s' :
  readDescriptorEventData s = Ok (d, s') →
  s = descriptor_Write d ++ s' ∧ json_Unmarshal (ExtraBytes d) = Ok (Extras d)
  ∧ length (PostHeaderLengths d) = 8%nat ∧ ExtraLength d = zlen (ExtraBytes d)
  ∧ fx_ok fx_FixPart (FixPartOf d).
Proof.
  unfold readDescriptorEventData. intros Hr. rd_inv.
  apply binary_Read_inv in H1 as [-> Hok]. apply io_ReadFull_inv in H2 as [-> Hl].
  apply binary_Read_inv in H3 as [-> He].
  unfold make_ReadFull, make_ok in H4. case_bool_decide as Hm; [|done].
  apply io_ReadFull_inv in H4 as [-> Hb].
  unfold descriptor_Write; cbn [FixPartOf PostHeaderLengths ExtraLength ExtraBytes].
  rewrite zlen_PostHeaderLengths in Hl. rewrite <-!app_assoc.
  split_and!; try done. unfold zlen. simpl. lia.
Qed.

Lemma NewBinlogReader_run h d rest :
  fx_ok fx_baseEventHeader h → descriptor_wf d →
  json_Unmarshal (ExtraBytes d) = Ok (Extras d) →
  NewBinlogReader (binary_Write fx_int32 MagicNumberV1 ++ baseEventHeader_Write h
                   ++ descriptor_Write d ++ rest) = Ok (BLR rest (DE h d)).
Proof.
  intros Hh Hd Hj. unfold NewBinlogReader, ReadMagicNumber.
  erewrite reader_bind_Ok; [|apply binary_Read_Write; in_range].
  rewrite bool_decide_false by naive_solver. cbn [mbind res_bind mret reader_ret].
  unfold ReadDescriptorEvent. rd_step ltac:(by apply binary_Read_Write).
  rd_step ltac:(by apply readDescriptorEventData_Write). done.
Qed.

(** C7 (roundtrip): a binlog file that starts with the magic number, a
    descriptor header and the bytes that [descriptorEventData.Write] produces
    after [FinishExtra] is opened by [NewBinlogReader] with exactly that header
    and that descriptor, and the reader is left at the first event. *)
Theorem NewBinlogReader_roundtrip h d d' rest :
  FinishExtra d = Ok d' → json_stable (Extras d) →
  fx_ok fx_baseEventHeader h → fx_ok fx_FixPart (FixPartOf d) →
  length (PostHeaderLengths d) = 8%nat → zlen (ExtraBytes d') < 2 ^ 31 →
  NewBinlogReader (binary_Write fx_int32 MagicNumberV1 ++ baseEventHeader_Write h
                   ++ descriptor_Write d' ++ rest) = Ok (BLR rest (DE h d')).
Proof.
  intros Hf Hs Hh Hok Hl Hb. apply NewBinlogReader_run; [done| |].
  - by eapply FinishExtra_wf.
  - apply FinishExtra_inv in Hf as (s & z & bs & _ & _ & Hm & ->).
    by apply json_Unmarshal_Marshal.
Qed.

(** Whatever [NewBinlogReader] accepts is, byte
    for byte, the magic number, the header and the descriptor it returns written
    back, followed by what is left in the reader; the descriptor has eight post
    header lengths, its length field is the size of its extra bytes, and the
    extras are their decoding. *)
Theorem NewBinlogReader_sound f (r : BinlogReader J) :
  NewBinlogReader f = Ok r →
  f = binary_Write fx_int32 MagicNumberV1
      ++ baseEventHeader_Write (de_header (blr_event r))
      ++ descriptor_Write (de_data (blr_event r)) ++ blr_reader r
  ∧ length (PostHeaderLengths (de_data (blr_event r))) = 8%nat
  ∧ ExtraLength (de_data (blr_event r)) = zlen (ExtraBytes (de_data (blr_event r)))
  ∧ json_Unmarshal (ExtraBytes (de_data (blr_event r)))
    = Ok (Extras (de_data (blr_event r))).
Proof.
  unfold NewBinlogReader, ReadMagicNumber, ReadDescriptorEvent. intros Hr. res_inv.
  destruct x as [m f1]. res_inv. destruct x as [de f2]. injection Hr as <-. rd_inv.
  case_bool_decide as Hm; [done|]. injection H1 as -> ->.
  subst m. apply binary_Read_inv in H5 as [-> _]. apply binary_Read_inv in H3 as [-> _].
  apply readDescriptorEventData_inv in H4 as (-> & ? & ? & ? & _). done.
Qed.

(** The length that [GetMemoryUsageInBytes] reports for a
    complete descriptor is the number of bytes that [Write] produces. *)
Theorem GetMemoryUsageInBytes_Write d :
  descriptor_wf d → zlen (descriptor_Write d) < 2 ^ 31 →
  descriptor_GetMemoryUsageInBytes d = zlen (descriptor_Write d).
Proof.
  intros (Hok & Hl & He & Hb) Hlen. unfold descriptor_GetMemoryUsageInBytes.
  assert (zlen (descriptor_Write d) = 64 + zlen (ExtraBytes d)) as Hz.
  { unfold descriptor_Write. rewrite !zlen_app, !zlen_bin. unfold zlen at 1. rewrite Hl.
    change (binary_Size fx_FixPart) with 52. change (binary_Size fx_int32) with 4. lia. }
  assert (zlen (PostHeaderLengths d) = 8) as -> by (unfold zlen; lia).
  rewrite Hz in *. change (int32 8) with 8. change (int32 (binary_Size fx_int32)) with 4.
  change (descriptor_GetEventDataFixPartSize d) with 52.
  rewrite wraps_id; [lia|lia|]. pose proof (zlen_nonneg (ExtraBytes d)). unfold in_s. lia.
Qed.

(** An empty file gives [io.EOF], one
    shorter than the magic number [io.ErrUnexpectedEOF], another magic number an
    error, and a descriptor whose extra length is negative makes the reader
    panic. *)
Theorem NewBinlogReader_corrupt f :
  (f = [] → NewBinlogReader (J:=J) f = Err EOF)
  ∧ ((0 < length f < 4)%nat → NewBinlogReader (J:=J) f = Err ErrUnexpectedEOF)
  ∧ (∀ m s, f = binary_Write fx_int32 m ++ s → in_s 32 m → m ≠ MagicNumberV1 →
       NewBinlogReader (J:=J) f = Err (Errorf "parse magic number failed"))
  ∧ (∀ h p ph n s,
       f = binary_Write fx_int32 MagicNumberV1 ++ baseEventHeader_Write h
           ++ binary_Write fx_FixPart p ++ ph ++ binary_Write fx_int32 n ++ s →
       fx_ok fx_baseEventHeader h → fx_ok fx_FixPart p → length ph = 8%nat →
       - 2 ^ 31 ≤ n < 0 →
       NewBinlogReader (J:=J) f = Panic "makeslice: len out of range").
Proof.
  unfold NewBinlogReader, ReadMagicNumber. split_and!.
  - by intros ->.
  - intros Hf. erewrite (reader_bind_Err (binary_Read fx_int32)).
    2: { apply binary_Read_short. simpl. lia. }
    by destruct f; simpl in *; [lia|].
  - intros m s -> Hm Hne.
    erewrite reader_bind_Ok; [|by apply binary_Read_Write].
    by rewrite bool_decide_true.
  - intros h p ph n s -> Hh Hp Hl Hn.
    erewrite reader_bind_Ok; [|apply binary_Read_Write; in_range].
    rewrite bool_decide_false by naive_solver. cbn [mbind res_bind mret reader_ret].
    unfold ReadDescriptorEvent.
    rd_step ltac:(by apply binary_Read_Write). unfold readDescriptorEventData.
    unfold mbind at 2, reader_bind at 1.
    rd_step ltac:(by apply binary_Read_Write).
    rewrite zlen_PostHeaderLengths, <-Hl. rd_step ltac:(apply io_ReadFull_app).
    rd_step ltac:(apply binary_Read_Write; unfold fx_int32, fx_signed, in_s; simpl; lia).
    unfold mbind at 1, reader_bind at 1, make_ReadFull, make_ok.
    by rewrite bool_decide_false by lia.
Qed.
End properties.

Lemma NewBinlogReader_roundtrip_witness :
  let h := newDescriptorEventHeader in
  let d' := default sample_descriptor
              (match FinishExtra sample_descriptor with Ok d => Some d | _ => None end) in
  NewBinlogReader (binary_Write fx_int32 MagicNumberV1 ++ baseEventHeader_Write h
                   ++ descriptor_Write d' ++ [x01]) = Ok (BLR [x01] (DE h d')).
Proof.
  intros h d'. apply (NewBinlogReader_roundtrip h sample_descriptor).
  - vm_compute. reflexivity.
  - exists originalSizeKey, "1024". split_and!; reflexivity.
  - vm_compute. intuition congruence.
  - vm_compute. intuition congruence.
  - reflexivity.
  - vm_compute. reflexivity.
Defined.

Definition sample_file : list byte :=
  binary_Write fx_int32 MagicNumberV1 ++ baseEventHeader_Write newDescriptorEventHeader
  ++ match FinishExtra sample_descriptor with Ok d => descriptor_Write d | _ => [] end.

Lemma NewBinlogReader_sound_witness :
  ∃ r : BinlogReader string, NewBinlogReader sample_file = Ok r
    ∧ length (PostHeaderLengths (de_data (blr_event r))) = 8%nat.
Proof.
  destruct (NewBinlogReader sample_file) as [r| |] eqn:E.
  - exists r. split; [reflexivity|]. apply (NewBinlogReader_sound _ _ E).
  - vm_compute in E. discriminate E.
  - vm_compute in E. discriminate E.
Defined.

Lemma GetMemoryUsageInBytes_Write_witness :
  let d := DescriptorData (FixPart 100 (-1) 7 101 1 2 5) 2 [x7b; x7d] (∅ : gmap string string)
             (PostHeaderLengths (newDescriptorEventData (J:=string))) in
  descriptor_GetMemoryUsageInBytes d = zlen (descriptor_Write d).
Proof.
  intros d. apply (GetMemoryUsageInBytes_Write (J:=string) d).
  - vm_compute. intuition congruence.
  - vm_compute. reflexivity.
Defined.

Lemma NewBinlogReader_corrupt_witness :
  NewBinlogReader (J:=string) [] = Err EOF
  ∧ NewBinlogReader (J:=string) [x01; x02] = Err ErrUnexpectedEOF
  ∧ NewBinlogReader (J:=string) (binary_Write fx_int32 1 ++ [])
    = Err (Errorf "parse magic number failed").
Proof.
  split_and!.
  - apply (NewBinlogReader_corrupt (J:=string) []). reflexivity.
  - apply (NewBinlogReader_corrupt (J:=string) [x01; x02]). simpl. lia.
  - apply (NewBinlogReader_corrupt (J:=string) _) with (m := 1) (s := []);
      [reflexivity|vm_compute; intuition congruence|discriminate].
Defined.
