(* ===== verification/BinlogPayload.v ===== *)
(** * Binlog v1: payload readers

    Models [storage/binlog/v1/payload_reader.go], [index_reader.go] and the event
    readers of [binlog_reader.go]: the event after the descriptor is a header, a
    fixed part and a parquet file.

    The parquet library is the interface [Parquet]: opening a file, its row groups,
    their column chunks and [ReadBatch] of a chunk, which fills the slice it is
    given from the front. *)

From S2P Require Export Values BinlogEvent.

(** The physical column types the readers ask for. *)
Inductive phys := PBool | PInt32 | PInt64 | PFloat32 | PFloat64 | PByteArray | PFixedLenByteArray.

#[export] Instance phys_eq_dec : EqDecision phys.
Proof. solve_decision. Defined.

(** Their Go values; a float is its bits. *)
Definition phys_val (p : phys) : Type :=
  match p with
  | PBool => bool
  | PInt32 | PInt64 | PFloat32 | PFloat64 => Z
  | PByteArray | PFixedLenByteArray => list byte
  end.

Definition phys_zero (p : phys) : phys_val p :=
  match p with
  | PBool => false
  | PInt32 | PInt64 | PFloat32 | PFloat64 => 0
  | PByteArray | PFixedLenByteArray => []
  end.

Class Parquet (F C : Type) := {
  NewParquetReader : list byte → res F;
  NumRowGroups : F → Z;
  NumRows : F → Z → Z;                            (* [r.RowGroup(i).NumRows()] *)
  Column : F → Z → Z → res C;                     (* [r.RowGroup(i).Column(colIdx)] *)
  ChunkType : C → phys;                           (* the dynamic type of the chunk reader *)
  (* [ReadBatch(n, values, nil, nil)]: the slice afterwards, total and values read *)
  ReadBatch : ∀ p : phys, C → Z → list (phys_val p) → res (list (phys_val p) * Z * Z);
}.

(** The documented behaviour of a column chunk that holds the values [vs]: a read of
    as many rows as it has, into a slice with room for them, writes them at the
    front of the slice. *)
Definition chunk_holds {F C} `{Parquet F C} (p : phys) (c : C) (vs : list (phys_val p)) : Prop :=
  ChunkType c = p ∧
  ∀ dst, (length vs ≤ length dst)%nat →
    ReadBatch p c (zlen vs) dst = Ok (vs ++ drop (length vs) dst, zlen vs, zlen vs).

(** ** [readPayloadAll] *)
Section payload.
Context {F C : Type} `{Parquet F C}.

Definition rowCount (r : F) : Z :=
  foldl (λ n i, int64 (n + NumRows r i)) 0 (seqZ 0 (NumRowGroups r)).

(** One round of the loop over the row groups; [offset] is the variable of the
    function, which no statement of the loop changes. *)
Definition read_group (p : phys) (r : F) (colIdx offset i : Z)
    (result : list (phys_val p)) : res (list (phys_val p)) :=
  let groupCount := NumRows r i in
  cc ← Column r i colIdx;
  if bool_decide (ChunkType cc = p) then
    '(dst, total, read) ← ReadBatch p cc groupCount (drop (Z.to_nat offset) result);
    if bool_decide (total ≠ groupCount) || bool_decide (read ≠ groupCount) then
      Err (Errorf "row count not matched")
    else Ok (take (Z.to_nat offset) result ++ dst)
  else Err (Errorf "column chunk reader conversion failed").

Definition readPayloadAll (p : phys) (r : F) (colIdx : Z) : res (list (phys_val p)) :=
  if bool_decide (0 ≤ rowCount r) then
    foldM (read_group p r colIdx 0) (seqZ 0 (NumRowGroups r))
      (replicate (Z.to_nat (rowCount r)) (phys_zero p))
  else Panic "makeslice: len out of range".

(** [io.ReadFull(f, data)] with its error dropped: what could be read, and zeros. *)
Definition ReadFull_ignored (n : Z) : reader (list byte) := λ s,
  Ok (take (Z.to_nat n) s ++ replicate (Z.to_nat n - length s) (byte_of_Z 0),
      drop (Z.to_nat n) s).

(** [int(header.EventLength - header.GetMemoryUsageInBytes() -
    eventData.GetEventDataFixPartSize())], an [int32] difference. *)
Definition payload_length {k} (header : baseEventHeader) (d : eventData k) : Z :=
  int32 (int32 (EventLength header - baseEventHeader_GetMemoryUsageInBytes header)
         - eventData_GetEventDataFixPartSize d).

(** The head that [readData], [NextRecordReader] and [NextEventReader] share. *)
Definition read_payload_bytes {k} : reader (list byte) :=
  header ← EventReader_ReadHeader;
  d ← binary_Read (fx_eventData k);
  let next := payload_length header d in
  if make_ok next then ReadFull_ignored next
  else rd_panic "makeslice: len out of range".

Definition readData (p : phys) (colIdx : Z) : reader (list (phys_val p)) :=
  data ← read_payload_bytes (k:=InsertK);
  pq ← rd_lift (NewParquetReader data);
  rd_lift (readPayloadAll p pq colIdx).

Definition readDataTrans {U} (p : phys) (colIdx : Z) (trans : phys_val p → U)
    : reader (list U) :=
  data ← readData p colIdx; mret (map trans data).

(** Little-endian [float32] values of a fixed-length byte array:
    [dim := v.Len() / 4], then the bytes are copied into the vector. *)
Fixpoint chunks4 (dim : nat) (v : list byte) : list Z :=
  match dim with
  | O => []
  | S dim => le_get (take 4 v) :: chunks4 dim (drop 4 v)
  end.
Definition float_vector (v : list byte) : list Z := chunks4 (length v / 4) v.

Definition NextBoolEventReader : reader (list bool) := readData PBool 0.
Definition NextInt8EventReader : reader (list Z) := readDataTrans PInt32 0 int8.
Definition NextInt16EventReader : reader (list Z) := readDataTrans PInt32 0 int16.
Definition NextInt32EventReader : reader (list Z) := readData PInt32 0.
Definition NextInt64EventReader : reader (list Z) := readData PInt64 0.
Definition NextFloat32EventReader : reader (list Z) := readData PFloat32 0.
Definition NextFloat64EventReader : reader (list Z) := readData PFloat64 0.
Definition NextVarcharEventReader : reader (list string) :=
  readDataTrans PByteArray 0 string_of_bytes.
Definition NextByteSliceEventReader : reader (list (list byte)) :=
  readDataTrans PByteArray 0 id.
Definition NextBinaryVectorEventReader : reader (list (list byte)) :=
  readDataTrans PFixedLenByteArray 0 id.
Definition NextFloatVectorEventReader : reader (list (list Z)) :=
  readDataTrans PFixedLenByteArray 0 float_vector.

(** ** [ParquetPayloadReader] *)
Record ParquetPayloadReader := PPR { colType : Z; pq_reader : F }.

Definition NewParquetPayloadReader (colType : Z) (buf : list byte) : res ParquetPayloadReader :=
  if bool_decide (zlen buf = 0) then Err (Errorf "create PayloadReader with empty buf")
  else reader ← NewParquetReader buf; Ok (PPR colType reader).

Definition GetInt8FromPayLoad r colIdx : res (list Z) :=
  map int8 <$> readPayloadAll PInt32 (pq_reader r) colIdx.
Definition GetInt16FromPayLoad r colIdx : res (list Z) :=
  map int16 <$> readPayloadAll PInt32 (pq_reader r) colIdx.
Definition GetInt32FromPayLoad r colIdx : res (list Z) :=
  readPayloadAll PInt32 (pq_reader r) colIdx.
Definition GetInt64sFromPayload r colIdx : res (list Z) :=
  readPayloadAll PInt64 (pq_reader r) colIdx.
Definition GetStringFromPayload r colIdx : res (list string) :=
  map string_of_bytes <$> readPayloadAll PByteArray (pq_reader r) colIdx.
Definition GetBytesFromPayload r colIdx : res (list byte) :=
  map byte_of_Z <$> readPayloadAll PInt32 (pq_reader r) colIdx.
Definition GetFloat32FromPayload r colIdx : res (list Z) :=
  readPayloadAll PFloat32 (pq_reader r) colIdx.
Definition GetFloat64FromPayload r colIdx : res (list Z) :=
  readPayloadAll PFloat64 (pq_reader r) colIdx.
Definition GetBytesSliceFromPayload r colIdx : res (list (list byte)) :=
  readPayloadAll PByteArray (pq_reader r) colIdx.
Definition GetFloatVectorFromPayload r colIdx : res (list (list Z)) :=
  map float_vector <$> readPayloadAll PFixedLenByteArray (pq_reader r) colIdx.

(** ** [IndexReader] *)
Definition NewIndexReader {J} `{JsonMap J} : reader (DescriptorEvent J) :=
  _ ← ReadMagicNumber; ReadDescriptorEvent.

Definition IndexReader_NextEventReader (dataType : Z) : reader (list (list byte)) :=
  data ← read_payload_bytes (k:=IndexFileK);
  pr ← rd_lift (NewParquetPayloadReader dataType data);
  if bool_decide (dataType = DataType_String) then
    result ← rd_lift (GetStringFromPayload pr 0); mret (map bytes_of_string result)
  else if bool_decide (dataType = DataType_Int8) then
    result ← rd_lift (GetBytesFromPayload pr 0); mret [result]
  else rd_fail (Errorf "unexpected data type").
End payload.

(** ** Properties *)
Section payload_properties.
Context {F C : Type} `{Parquet F C}.

(** The parquet file [r] stores in column [colIdx] the row groups [gs]. *)
Definition column_groups (p : phys) (r : F) (colIdx : Z) (gs : list (list (phys_val p))) : Prop :=
  NumRowGroups r = zlen gs ∧ zlen (concat gs) < 2 ^ 63 ∧
  ∀ i g, gs !! i = Some g →
    NumRows r (Z.of_nat i) = zlen g ∧
    ∃ c, Column r (Z.of_nat i) colIdx = Ok c ∧ chunk_holds p c g.

(** Writing the groups one over the other, each from the first row on. *)
Definition overlay {A} (gs : list (list A)) (result : list A) : list A :=
  foldl (λ res g, g ++ drop (length g) res) result gs.

Lemma length_overlay {A} (gs : list (list A)) result :
  Forall (λ g, length g ≤ length result)%nat gs → length (overlay gs result) = length result.
Proof.
  revert result. induction gs as [|g gs IH]; intros result Hg; [done|].
  apply Forall_cons_1 in Hg as [Hg Hgs]. simpl.
  assert (length (g ++ drop (length g) result) = length result) as Hl
    by (rewrite length_app, length_drop; lia).
  rewrite IH; rewrite ?Hl; done.
Qed.

Lemma overlay_tail {A} (gs : list (list A)) result i :
  Forall (λ g, length g ≤ i)%nat gs → overlay gs result !! i = result !! i.
Proof.
  revert result. induction gs as [|g gs IH]; intros result Hg; [done|].
  apply Forall_cons_1 in Hg as [Hg Hgs]. simpl. rewrite IH by done.
  rewrite lookup_app_r by lia. rewrite lookup_drop. f_equal. lia.
Qed.

Lemma concat_group_le {A} (gs : list (list A)) :
  Forall (λ g, length g ≤ length (concat gs))%nat gs.
Proof.
  induction gs as [|g gs IH]; simpl; constructor; rewrite ?length_app; [lia|].
  eapply Forall_impl; [|exact IH]. simpl. lia.
Qed.

Lemma rowCount_groups p r colIdx gs :
  column_groups p r colIdx gs → rowCount r = zlen (concat gs).
Proof.
  intros (Hn & Hlt & Hg). unfold rowCount. rewrite Hn. unfold zlen at 1.
  rewrite (foldl_seqZ _ (λ k, zlen (concat (take k gs)))).
  { by rewrite take_ge by lia. }
  intros k Hk. destruct (lookup_lt_is_Some_2 gs k Hk) as [g Hgk].
  destruct (Hg _ _ Hgk) as [-> _].
  rewrite (concat_take_S _ _ _ Hgk), zlen_app. apply wraps_id; [lia|].
  rewrite <-(take_drop (S k) gs), concat_app, (concat_take_S _ _ _ Hgk), !zlen_app in Hlt.
  pose proof (zlen_nonneg (concat (take k gs))). pose proof (zlen_nonneg g).
  pose proof (zlen_nonneg (concat (drop (S k) gs))). unfold in_s. lia.
Qed.

Lemma read_group_overlay p r colIdx gs k g result :
  column_groups p r colIdx gs → gs !! k = Some g → (length g ≤ length result)%nat →
  read_group p r colIdx 0 (Z.of_nat k) result = Ok (g ++ drop (length g) result).
Proof.
  intros (_ & _ & Hg) Hk Hl. destruct (Hg _ _ Hk) as (Hr & c & Hc & Ht & Hb).
  unfold read_group. rewrite Hc. cbn. rewrite bool_decide_true by done.
  rewrite Hr. change (Z.to_nat 0) with 0%nat. rewrite drop_0, Hb by done. cbn.
  by rewrite bool_decide_false by naive_solver.
Qed.

Lemma readPayloadAll_overlay p r colIdx gs :
  column_groups p r colIdx gs →
  readPayloadAll p r colIdx
  = Ok (overlay gs (replicate (length (concat gs)) (phys_zero p))).
Proof.
  intros Hc. unfold readPayloadAll. rewrite (rowCount_groups _ _ _ _ Hc).
  rewrite bool_decide_true by apply zlen_nonneg. unfold zlen. rewrite Nat2Z.id.
  pose proof Hc as (Hn & _). rewrite Hn. unfold zlen.
  set (z := replicate _ _).
  rewrite (foldM_seqZ _ (λ k, overlay (take k gs) z)); [by rewrite take_ge by lia|].
  intros k Hk. destruct (lookup_lt_is_Some_2 gs k Hk) as [g Hgk].
  pose proof (concat_group_le gs) as Hall.
  erewrite read_group_overlay; [|done..|].
  { rewrite (take_S_r _ _ _ Hgk). unfold overlay. by rewrite foldl_app. }
  assert (length z = length (concat gs)) as Hz by apply length_replicate.
  rewrite length_overlay, Hz; [by eapply (Forall_lookup_1 _ _ _ _ Hall)|].
  apply Forall_take. by rewrite Hz.
Qed.

Lemma readPayloadAll_one p r colIdx g :
  column_groups p r colIdx [g] → readPayloadAll p r colIdx = Ok g.
Proof.
  intros Hc. rewrite (readPayloadAll_overlay _ _ _ _ Hc). simpl.
  rewrite app_nil_r, drop_ge, app_nil_r; [done|]. by rewrite length_replicate.
Qed.

(** Of a parquet payload with one row group, which is what the
    binlog writer produces, [readPayloadAll] returns exactly the column. *)
Theorem readPayloadAll_one_group p r colIdx g :
  column_groups p r colIdx [g] → readPayloadAll p r colIdx = Ok g.
Proof. apply readPayloadAll_one. Qed.

(** The loop never advances [offset], so every row group
    is written from row 0 on.  The result has one element per row of the file, it
    starts with the last row group, and from the length of the longest group on
    it holds zero values instead of rows. *)
Theorem readPayloadAll_groups_overwritten p r colIdx gs last :
  column_groups p r colIdx (gs ++ [last]) →
  ∃ result, readPayloadAll p r colIdx = Ok result
    ∧ length result = length (concat (gs ++ [last]))
    ∧ take (length last) result = last
    ∧ ∀ i, (i < length result)%nat → Forall (λ g, length g ≤ i)%nat (gs ++ [last]) →
        result !! i = Some (phys_zero p).
Proof.
  intros Hc. eexists. split; [by apply readPayloadAll_overlay|].
  set (z := replicate _ _). assert (length z = length (concat (gs ++ [last]))) as Hz
    by apply length_replicate.
  assert (length (overlay (gs ++ [last]) z) = length z) as Hl.
  { apply length_overlay. rewrite Hz. apply concat_group_le. }
  split_and!; [by rewrite Hl| |].
  - unfold overlay. rewrite foldl_app. simpl. apply take_length_app.
  - intros i Hi Hall. rewrite overlay_tail by done. rewrite Hl, Hz in Hi.
    unfold z. by apply lookup_replicate_2.
Qed.

(** The bytes of an event: header, fixed part and payload. *)
Definition event_bytes {k} (h : baseEventHeader) (d : eventData k) (payload : list byte) :=
  baseEventHeader_Write h ++ binary_Write (fx_eventData k) d ++ payload.

Lemma payload_length_event {k} h (d : eventData k) payload :
  EventLength h = zlen (event_bytes h d payload) → zlen payload ≤ 2 ^ 30 →
  payload_length h d = zlen payload.
Proof.
  intros Hl Hp. unfold event_bytes, baseEventHeader_Write in *.
  rewrite !zlen_app, !zlen_bin in Hl.
  change (binary_Size fx_baseEventHeader) with 17 in Hl.
  change (binary_Size (fx_eventData k)) with 16 in Hl.
  unfold payload_length. rewrite GetMemoryUsageInBytes_header, GetEventDataFixPartSize_event, Hl.
  pose proof (zlen_nonneg payload). rewrite !wraps_id; unfold in_s; try lia.
  rewrite wraps_id; unfold in_s; lia.
Qed.

Lemma read_payload_bytes_event {k} h (d : eventData k) payload rest :
  fx_ok fx_baseEventHeader h → fx_ok (fx_eventData k) d →
  EventLength h = zlen (event_bytes h d payload) → zlen payload ≤ 2 ^ 30 →
  read_payload_bytes (k:=k) (event_bytes h d payload ++ rest) = Ok (payload, rest).
Proof.
  intros Hh Hd Hl Hp. pose proof (payload_length_event h d payload Hl Hp) as Hpl.
  unfold event_bytes, baseEventHeader_Write.
  unfold read_payload_bytes, EventReader_ReadHeader, readEventHeader.
  rewrite <-!app_assoc. rd_step ltac:(by apply binary_Read_Write).
  rd_step ltac:(by apply binary_Read_Write).
  rewrite Hpl.
  unfold make_ok. rewrite bool_decide_true by (unfold maxAlloc; pose proof (zlen_nonneg payload); lia).
  unfold ReadFull_ignored, zlen. rewrite Nat2Z.id, take_length_app, drop_length_app.
  rewrite length_app. replace (length payload - _)%nat with 0%nat by lia.
  simpl. by rewrite app_nil_r.
Qed.

(** On a well-formed insert event whose payload is a parquet file
    with one row group, the typed readers return the column (narrowed to the
    requested width for [int8] and [int16]) and leave the reader right after the
    event. *)
Theorem NextEventReader_one_group h (d : insertEventData) payload rest r :
  fx_ok fx_baseEventHeader h → fx_ok (fx_eventData InsertK) d →
  EventLength h = zlen (event_bytes h d payload) → zlen payload ≤ 2 ^ 30 →
  NewParquetReader payload = Ok r →
  (∀ vs, column_groups PInt64 r 0 [vs] →
     NextInt64EventReader (event_bytes h d payload ++ rest) = Ok (vs, rest))
  ∧ (∀ vs, column_groups PInt32 r 0 [vs] →
     NextInt8EventReader (event_bytes h d payload ++ rest) = Ok (map int8 vs, rest)
     ∧ NextInt16EventReader (event_bytes h d payload ++ rest) = Ok (map int16 vs, rest))
  ∧ (∀ vs, column_groups PByteArray r 0 [vs] →
     NextVarcharEventReader (event_bytes h d payload ++ rest)
     = Ok (map string_of_bytes vs, rest)).
Proof.
  intros Hh Hd Hl Hp Hr.
  assert (∀ p vs, column_groups p r 0 [vs] →
    readData p 0 (event_bytes h d payload ++ rest) = Ok (vs, rest)) as Hread.
  { intros p vs Hc. unfold readData.
    rd_step ltac:(by apply read_payload_bytes_event).
    rd_step ltac:(unfold rd_lift; by rewrite Hr). unfold rd_lift.
    by rewrite (readPayloadAll_one _ _ _ _ Hc). }
  split_and!; intros vs Hc.
  - by apply (Hread PInt64).
  - split; unfold NextInt8EventReader, NextInt16EventReader, readDataTrans;
      by rd_step ltac:(by apply (Hread PInt32)).
  - unfold NextVarcharEventReader, readDataTrans.
    by rd_step ltac:(by apply (Hread PByteArray)).
Qed.
End payload_properties.

(** ** A concrete parquet reader

    One [int32] column given as its row groups; the file format is one byte per
    value, all in one group. *)
#[export] Instance ints_parquet : Parquet (list (list Z)) (list Z) := {
  NewParquetReader bs := Ok [map Z_of_byte bs];
  NumRowGroups := zlen;
  NumRows r i := zlen (default [] (r !! Z.to_nat i));
  Column r i col :=
    if bool_decide (col = 0) then Ok (default [] (r !! Z.to_nat i))
    else Err (Errorf "column out of range");
  ChunkType _ := PInt32;
  ReadBatch p c n dst :=
    (if bool_decide (length c ≤ length dst)%nat then
       match p return list (phys_val p) → res (list (phys_val p) * Z * Z) with
       | PInt32 => λ dst, Ok (c ++ drop (length c) dst, zlen c, zlen c)
       | _ => λ _, Err (Errorf "type")
       end
     else λ _, Err (Errorf "short buffer")) dst;
}.

Lemma ints_column_groups gs :
  zlen (concat gs) < 2 ^ 63 → column_groups PInt32 gs 0 gs.
Proof.
  intros Hl. split_and!; [done|done|]. intros i g Hg. cbn [phys_val] in *.
  assert (default [] (gs !! Z.to_nat (Z.of_nat i)) = g) as Hd by (rewrite Nat2Z.id; by rewrite Hg).
  simpl. rewrite Hd. split; [done|]. exists g. split; [done|]. split; [done|]. intros dst Hdst. simpl.
  by rewrite bool_decide_true.
Qed.

Lemma readPayloadAll_one_group_witness :
  readPayloadAll PInt32 [[4; 5; 6]] 0 = Ok [4; 5; 6].
Proof.
  apply (readPayloadAll_one_group PInt32 [[4; 5; 6]] 0 [4; 5; 6]).
  apply ints_column_groups. reflexivity.
Defined.

Lemma readPayloadAll_groups_overwritten_witness :
  ∃ result, readPayloadAll PInt32 [[1; 2]; [3; 4]] 0 = Ok result
    ∧ take 2 result = [3; 4] ∧ result !! 2%nat = Some 0.
Proof.
  destruct (readPayloadAll_groups_overwritten PInt32 [[1; 2]; [3; 4]] 0 [[1; 2]] [3; 4])
    as (result & Hr & Hl & Ht & Hz).
  { apply ints_column_groups. reflexivity. }
  exists result. split; [exact Hr|]. split; [exact Ht|]. apply Hz.
  - rewrite Hl. simpl. lia.
  - repeat constructor.
Defined.

Lemma NextEventReader_one_group_witness :
  let h := BaseEventHeader 0 InsertEventType 35 (-1) in
  let d : insertEventData := EventData 1 2 in
  NextInt8EventReader (event_bytes h d [x07; xff] ++ [x01]) = Ok ([7; -1], [x01]).
Proof.
  intros h d.
  destruct (NextEventReader_one_group h d [x07; xff] [x01] [[7; 255]]) as (_ & Hi & _).
  - vm_compute. intuition congruence.
  - vm_compute. intuition congruence.
  - vm_compute. reflexivity.
  - vm_compute. discriminate.
  - vm_compute. reflexivity.
  - apply (Hi [7; 255]). apply ints_column_groups. reflexivity.
Defined.
