(* ===== verification/PrimaryKey.v ===== *)
(** * Primary keys

    Models [storage/common/primary_key.go] and [primary_keys.go]: the two kinds of
    primary key behind the interface [PrimaryKey], their comparisons, conversions
    from raw values and to [schemapb.IDs], and the two kinds of key lists behind the
    interface [PrimaryKeys]. *)

From S2P Require Export Values.

(** The dynamic types of the interface: a pointer to an [Int64PrimaryKey] or to a
    [VarCharPrimaryKey].  A method with a pointer receiver that assigns returns the
    new value. *)
Inductive PrimaryKey :=
  | Int64PrimaryKey (Value : Z)
  | VarCharPrimaryKey (Value : string).

#[export] Instance PrimaryKey_eq_dec : EqDecision PrimaryKey.
Proof. solve_decision. Defined.

Definition NewInt64PrimaryKey (v : Z) : PrimaryKey := Int64PrimaryKey v.
Definition NewVarCharPrimaryKey (v : string) : PrimaryKey := VarCharPrimaryKey v.

(** [strings.Compare]. *)
Definition strings_Compare (a b : string) : Z :=
  match String.compare a b with Lt => -1 | Eq => 0 | Gt => 1 end.

Definition BaseString_GT (a b : string) : bool := bool_decide (strings_Compare a b > 0).
Definition BaseString_GE (a b : string) : bool := bool_decide (strings_Compare a b >= 0).
Definition BaseString_LT (a b : string) : bool := bool_decide (strings_Compare a b < 0).
Definition BaseString_LE (a b : string) : bool := bool_decide (strings_Compare a b <= 0).
Definition BaseString_EQ (a b : string) : bool := bool_decide (strings_Compare a b = 0).

(** Each method first asserts that the other key has its own dynamic type. *)
Definition Int64_GT (v : Z) (key : PrimaryKey) : bool :=
  match key with Int64PrimaryKey w => bool_decide (v > w) | _ => false end.
Definition Int64_GE (v : Z) (key : PrimaryKey) : bool :=
  match key with Int64PrimaryKey w => bool_decide (v >= w) | _ => false end.
Definition Int64_LT (v : Z) (key : PrimaryKey) : bool :=
  match key with Int64PrimaryKey w => bool_decide (v < w) | _ => false end.
Definition Int64_LE (v : Z) (key : PrimaryKey) : bool :=
  match key with Int64PrimaryKey w => bool_decide (v <= w) | _ => false end.
Definition Int64_EQ (v : Z) (key : PrimaryKey) : bool :=
  match key with Int64PrimaryKey w => bool_decide (v = w) | _ => false end.
Definition VarChar_GT (v : string) (key : PrimaryKey) : bool :=
  match key with VarCharPrimaryKey w => BaseString_GT v w | _ => false end.
Definition VarChar_GE (v : string) (key : PrimaryKey) : bool :=
  match key with VarCharPrimaryKey w => BaseString_GE v w | _ => false end.
Definition VarChar_LT (v : string) (key : PrimaryKey) : bool :=
  match key with VarCharPrimaryKey w => BaseString_LT v w | _ => false end.
Definition VarChar_LE (v : string) (key : PrimaryKey) : bool :=
  match key with VarCharPrimaryKey w => BaseString_LE v w | _ => false end.
Definition VarChar_EQ (v : string) (key : PrimaryKey) : bool :=
  match key with VarCharPrimaryKey w => BaseString_EQ v w | _ => false end.

Definition Int64_SetValue (data : any) : res PrimaryKey :=
  match data with
  | VInt64 v => Ok (Int64PrimaryKey v)
  | _ => Err (Errorf "wrong type value when setValue for Int64PrimaryKey")
  end.
Definition Int64_Size : Z := 16.

Definition BaseString_SetValue (data : any) : res PrimaryKey :=
  match data with
  | VString v => Ok (VarCharPrimaryKey v)
  | _ => Err (Errorf "wrong type value when setValue for StringPrimaryKey")
  end.
Definition VarChar_Size (v : string) : Z := int64 (8 * Z.of_nat (String.length v) + 8).

(** The interface: dispatch on the dynamic type. *)
Definition PK_GT (x key : PrimaryKey) : bool :=
  match x with Int64PrimaryKey v => Int64_GT v key | VarCharPrimaryKey v => VarChar_GT v key end.
Definition PK_GE (x key : PrimaryKey) : bool :=
  match x with Int64PrimaryKey v => Int64_GE v key | VarCharPrimaryKey v => VarChar_GE v key end.
Definition PK_LT (x key : PrimaryKey) : bool :=
  match x with Int64PrimaryKey v => Int64_LT v key | VarCharPrimaryKey v => VarChar_LT v key end.
Definition PK_LE (x key : PrimaryKey) : bool :=
  match x with Int64PrimaryKey v => Int64_LE v key | VarCharPrimaryKey v => VarChar_LE v key end.
Definition PK_EQ (x key : PrimaryKey) : bool :=
  match x with Int64PrimaryKey v => Int64_EQ v key | VarCharPrimaryKey v => VarChar_EQ v key end.
Definition PK_SetValue (x : PrimaryKey) (data : any) : res PrimaryKey :=
  match x with
  | Int64PrimaryKey _ => Int64_SetValue data
  | VarCharPrimaryKey _ => BaseString_SetValue data
  end.
Definition PK_GetValue (x : PrimaryKey) : any :=
  match x with Int64PrimaryKey v => VInt64 v | VarCharPrimaryKey v => VString v end.
Definition PK_Type (x : PrimaryKey) : Z :=
  match x with Int64PrimaryKey _ => DataType_Int64 | VarCharPrimaryKey _ => DataType_VarChar end.
Definition PK_Size (x : PrimaryKey) : Z :=
  match x with Int64PrimaryKey _ => Int64_Size | VarCharPrimaryKey v => VarChar_Size v end.

(** A failed type assertion without [ok] panics. *)
Definition GenPrimaryKeyByRawData (data : any) (pkType : Z) : res PrimaryKey :=
  if bool_decide (pkType = DataType_Int64) then
    match data with
    | VInt64 v => Ok (Int64PrimaryKey v)
    | _ => Panic "interface conversion"
    end
  else if bool_decide (pkType = DataType_VarChar) then
    match data with
    | VString v => Ok (VarCharPrimaryKey v)
    | _ => Panic "interface conversion"
    end
  else Err (Errorf "not supported primary data type").

Fixpoint gen_primary_keys (mk : any -> res PrimaryKey) (data : list any)
    : res (list PrimaryKey) :=
  match data with
  | [] => Ok []
  | v :: data => pk ← mk v; pks ← gen_primary_keys mk data; Ok (pk :: pks)
  end.

Definition GenInt64PrimaryKeys (data : list Z) : res (list PrimaryKey) :=
  gen_primary_keys (λ v, GenPrimaryKeyByRawData v DataType_Int64) (map VInt64 data).
Definition GenVarcharPrimaryKeys (data : list string) : res (list PrimaryKey) :=
  gen_primary_keys (λ v, GenPrimaryKeyByRawData v DataType_VarChar) (map VString data).

(** [schemapb.FieldData], as far as primary keys go: its type, and its scalar data
    when it is present; a getter of another kind of data returns an empty list. *)
Record FieldData := {
  fd_Type : Z;
  fd_Scalars : option (list Z * list string);
}.

(** The error results of this function carry the (empty) list next to the error. *)
Definition ParseFieldData2PrimaryKeys (data : option FieldData) : res (list PrimaryKey) :=
  match data with
  | None => Err (Errorf "failed to parse pks from nil field data")
  | Some data =>
      match fd_Scalars data with
      | None => Err (Errorf "failed to parse pks from nil scalar data")
      | Some (longs, strs) =>
          if bool_decide (fd_Type data = DataType_Int64) then
            Ok (map NewInt64PrimaryKey longs)
          else if bool_decide (fd_Type data = DataType_VarChar) then
            Ok (map NewVarCharPrimaryKey strs)
          else Err (Errorf "not supported primary data type")
      end
  end.

(** [schemapb.IDs]: a oneof, possibly unset. *)
Inductive IDs :=
  | IDs_Unset
  | IDs_IntId (data : list Z)
  | IDs_StrId (data : list string).

Definition ParseIDs2PrimaryKeys (ids : IDs) : list PrimaryKey :=
  match ids with
  | IDs_IntId l => map NewInt64PrimaryKey l
  | IDs_StrId l => map NewVarCharPrimaryKey l
  | IDs_Unset => []
  end.

Fixpoint int64_values (pks : list PrimaryKey) : res (list Z) :=
  match pks with
  | [] => Ok []
  | Int64PrimaryKey v :: pks => vs ← int64_values pks; Ok (v :: vs)
  | _ :: _ => Panic "interface conversion"
  end.
Fixpoint varchar_values (pks : list PrimaryKey) : res (list string) :=
  match pks with
  | [] => Ok []
  | VarCharPrimaryKey v :: pks => vs ← varchar_values pks; Ok (v :: vs)
  | _ :: _ => Panic "interface conversion"
  end.

(** The type of the first key decides; another type further on panics. *)
Definition ParsePrimaryKeys2IDs (pks : list PrimaryKey) : res IDs :=
  match pks with
  | [] => Ok IDs_Unset
  | pk :: _ =>
      if bool_decide (PK_Type pk = DataType_Int64) then IDs_IntId <$> int64_values pks
      else if bool_decide (PK_Type pk = DataType_VarChar) then IDs_StrId <$> varchar_values pks
      else Ok IDs_Unset
  end.

(** ** Lists of keys *)
Inductive PrimaryKeys :=
  | Int64PrimaryKeys (values : list Z)
  | VarcharPrimaryKeys (values : list string) (size : Z).

Definition NewInt64PrimaryKeys : PrimaryKeys := Int64PrimaryKeys [].
Definition NewVarcharPrimaryKeys : PrimaryKeys := VarcharPrimaryKeys [] 0.

Definition Int64_AppendRaw (values new : list Z) : PrimaryKeys :=
  Int64PrimaryKeys (values ++ new).

(** [pks.size += int64(len(str)) + 16] for each new string. *)
Definition Varchar_AppendRaw (values : list string) (size : Z) (new : list string)
    : PrimaryKeys :=
  VarcharPrimaryKeys (values ++ new)
    (foldl (λ size str, int64 (size + (Z.of_nat (String.length str) + 16))) size new).

Fixpoint assert_int64 (values : list PrimaryKey) : res (list Z) :=
  match values with
  | [] => Ok []
  | Int64PrimaryKey v :: values => vs ← assert_int64 values; Ok (v :: vs)
  | _ :: _ => Err (Errorf "pk type not match")
  end.
Fixpoint assert_varchar (values : list PrimaryKey) : res (list string) :=
  match values with
  | [] => Ok []
  | VarCharPrimaryKey v :: values => vs ← assert_varchar values; Ok (v :: vs)
  | _ :: _ => Err (Errorf "pk type not match")
  end.

(** [Append] builds the raw values first, so it appends all keys or none. *)
Definition Int64_Append (vs : list Z) (values : list PrimaryKey) : res PrimaryKeys :=
  iValues ← assert_int64 values; Ok (Int64_AppendRaw vs iValues).
Definition Varchar_Append (vs : list string) (size : Z) (values : list PrimaryKey)
    : res PrimaryKeys :=
  sValues ← assert_varchar values; Ok (Varchar_AppendRaw vs size sValues).

Definition must {A} (r : res A) : res A :=
  match r with Err _ => Panic "pk type not match" | r => r end.
Definition Int64_MustAppend (vs : list Z) (values : list PrimaryKey) : res PrimaryKeys :=
  must (Int64_Append vs values).
Definition Varchar_MustAppend (vs : list string) (size : Z) (values : list PrimaryKey)
    : res PrimaryKeys :=
  must (Varchar_Append vs size values).

Definition Int64_Get (vs : list Z) (idx : Z) : res PrimaryKey :=
  NewInt64PrimaryKey <$> go_index vs idx.
Definition Varchar_Get (vs : list string) (idx : Z) : res PrimaryKey :=
  NewVarCharPrimaryKey <$> go_index vs idx.

Definition Int64s_Size (vs : list Z) : Z := int64 (zlen vs * 8).

Definition Int64_MustMerge (vs : list Z) (another : PrimaryKeys) : res PrimaryKeys :=
  match another with
  | Int64PrimaryKeys ws => Ok (Int64PrimaryKeys (vs ++ ws))
  | _ => Panic "cannot merge different kind of pks"
  end.
Definition Varchar_MustMerge (vs : list string) (size : Z) (another : PrimaryKeys)
    : res PrimaryKeys :=
  match another with
  | VarcharPrimaryKeys ws t => Ok (VarcharPrimaryKeys (vs ++ ws) (int64 (size + t)))
  | _ => Panic "cannot merge different kind of pks"
  end.

(** The interface: dispatch on the dynamic type. *)
Definition PKs_Append (pks : PrimaryKeys) (values : list PrimaryKey) : res PrimaryKeys :=
  match pks with
  | Int64PrimaryKeys vs => Int64_Append vs values
  | VarcharPrimaryKeys vs size => Varchar_Append vs size values
  end.
Definition PKs_MustAppend (pks : PrimaryKeys) (values : list PrimaryKey) : res PrimaryKeys :=
  match pks with
  | Int64PrimaryKeys vs => Int64_MustAppend vs values
  | VarcharPrimaryKeys vs size => Varchar_MustAppend vs size values
  end.
Definition PKs_Get (pks : PrimaryKeys) (idx : Z) : res PrimaryKey :=
  match pks with
  | Int64PrimaryKeys vs => Int64_Get vs idx
  | VarcharPrimaryKeys vs _ => Varchar_Get vs idx
  end.
Definition PKs_Type (pks : PrimaryKeys) : Z :=
  match pks with
  | Int64PrimaryKeys _ => DataType_Int64
  | VarcharPrimaryKeys _ _ => DataType_VarChar
  end.
Definition PKs_Len (pks : PrimaryKeys) : Z :=
  match pks with Int64PrimaryKeys vs => zlen vs | VarcharPrimaryKeys vs _ => zlen vs end.
Definition PKs_Size (pks : PrimaryKeys) : Z :=
  match pks with
  | Int64PrimaryKeys vs => Int64s_Size vs
  | VarcharPrimaryKeys _ size => size
  end.
Definition PKs_MustMerge (pks another : PrimaryKeys) : res PrimaryKeys :=
  match pks with
  | Int64PrimaryKeys vs => Int64_MustMerge vs another
  | VarcharPrimaryKeys vs size => Varchar_MustMerge vs size another
  end.

Lemma PKs_MustAppend_eq pks values : PKs_MustAppend pks values = must (PKs_Append pks values).
Proof. by destruct pks. Qed.

(** ** Comparisons *)
Lemma strings_Compare_lt a b : strings_Compare a b < 0 ↔ String.compare a b = Lt.
Proof. unfold strings_Compare. destruct (String.compare a b); split; (done || lia). Qed.
Lemma strings_Compare_eq a b : strings_Compare a b = 0 ↔ a = b.
Proof.
  unfold strings_Compare. split; [intros H; apply String.compare_eq_iff; by destruct (String.compare a b)|].
  intros <-. pose proof (String.compare_antisym a a) as H. by destruct (String.compare a a).
Qed.
Lemma strings_Compare_antisym a b : strings_Compare a b = - strings_Compare b a.
Proof.
  unfold strings_Compare. rewrite (String.compare_antisym a b).
  by destruct (String.compare b a).
Qed.

Lemma strings_Compare_le a b : strings_Compare a b <= 0 ↔ String.le a b.
Proof.
  unfold strings_Compare, String.le, String.leb.
  destruct (String.compare a b); simpl; split; (done || lia).
Qed.

Lemma strings_Compare_trans a b c :
  strings_Compare a b < 0 → strings_Compare b c < 0 → strings_Compare a c < 0.
Proof.
  intros Hab Hbc.
  assert (strings_Compare a c <= 0) as Hle.
  { apply strings_Compare_le. transitivity b; apply strings_Compare_le; lia. }
  destruct (decide (strings_Compare a c = 0)) as [->%strings_Compare_eq|]; [|lia].
  rewrite strings_Compare_antisym in Hbc. lia.
Qed.

(** Reduces a comparison of keys of one type to arithmetic. *)
Ltac pk_cases :=
  repeat match goal with a : PrimaryKey |- _ => destruct a end; simpl in *; try done;
  unfold BaseString_GT, BaseString_GE, BaseString_LT, BaseString_LE, BaseString_EQ in *;
  repeat (rewrite bool_decide_eq_true in * || case_bool_decide); simpl; try done; try lia.

(** On keys of one type the comparison methods are those of one total
    order, equality being identity; keys of different types are incomparable under
    all five methods. *)
Theorem PK_order a b c :
  (if bool_decide (PK_Type a = PK_Type b) then
     (PK_EQ a b = true ↔ a = b) ∧ PK_LE a b = negb (PK_GT a b) ∧ PK_GE a b = negb (PK_LT a b)
     ∧ PK_GT a b = PK_LT b a ∧ PK_LE a b = PK_LT a b || PK_EQ a b
   else
     PK_EQ a b = false ∧ PK_LE a b = false ∧ PK_GE a b = false ∧ PK_GT a b = false
     ∧ PK_LT a b = false)
  ∧ (PK_LT a b = true → PK_LT b c = true → PK_LT a c = true).
Proof.
  split.
  - destruct a as [v|v], b as [w|w]; simpl; try by auto 10.
    + split; [split; [intros H%bool_decide_eq_true; by subst|intros [= ->]; by apply bool_decide_eq_true]|].
      pk_cases.
    + pose proof (strings_Compare_eq v w). pose proof (strings_Compare_antisym v w).
      split; [|pk_cases]. simpl. unfold BaseString_EQ. rewrite bool_decide_eq_true. naive_solver.
  - destruct a as [v|v], b as [w|w], c as [x|x]; simpl; try done.
    + rewrite !bool_decide_eq_true. lia.
    + unfold BaseString_LT. rewrite !bool_decide_eq_true. apply strings_Compare_trans.
Qed.

(** ** Conversion to [schemapb.IDs] *)
Lemma int64_values_spec pks :
  int64_values pks
  = if forallb (λ pk, bool_decide (PK_Type pk = DataType_Int64)) pks
    then Ok (map (λ pk, match pk with Int64PrimaryKey v => v | _ => 0 end) pks)
    else Panic "interface conversion".
Proof.
  induction pks as [|[v|v] pks IH]; simpl; [done| |done]. rewrite IH. by case_match.
Qed.
Lemma varchar_values_spec pks :
  varchar_values pks
  = if forallb (λ pk, bool_decide (PK_Type pk = DataType_VarChar)) pks
    then Ok (map (λ pk, match pk with VarCharPrimaryKey v => v | _ => "" end) pks)
    else Panic "interface conversion".
Proof.
  induction pks as [|[v|v] pks IH]; simpl; [done|done|]. rewrite IH. by case_match.
Qed.

Lemma int64_values_back l :
  forallb (λ pk, bool_decide (PK_Type pk = DataType_Int64)) l = true →
  map Int64PrimaryKey (map (λ pk, match pk with Int64PrimaryKey v => v | _ => 0 end) l) = l.
Proof.
  rewrite forallb_forall. intros E. rewrite map_map.
  transitivity (map id l); [|apply map_id]. apply map_ext_in. intros [w|w] Hin; [done|]. by apply E in Hin.
Qed.
Lemma varchar_values_back l :
  forallb (λ pk, bool_decide (PK_Type pk = DataType_VarChar)) l = true →
  map VarCharPrimaryKey (map (λ pk, match pk with VarCharPrimaryKey v => v | _ => "" end) l) = l.
Proof.
  rewrite forallb_forall. intros E. rewrite map_map.
  transitivity (map id l); [|apply map_id]. apply map_ext_in. intros [w|w] Hin; [|done]. by apply E in Hin.
Qed.

(** [ParsePrimaryKeys2IDs] succeeds exactly on lists whose keys
    all have the type of the first one, panics otherwise, and
    [ParseIDs2PrimaryKeys] gives the list back. *)
Theorem ParsePrimaryKeys2IDs_roundtrip pk pks :
  if forallb (λ q, bool_decide (PK_Type q = PK_Type pk)) pks
  then ∃ ids, ParsePrimaryKeys2IDs (pk :: pks) = Ok ids
              ∧ ParseIDs2PrimaryKeys ids = pk :: pks
  else ∃ why, ParsePrimaryKeys2IDs (pk :: pks) = Panic why.
Proof.
  destruct pk as [v|v]; unfold ParsePrimaryKeys2IDs; simpl.
  - rewrite int64_values_spec. case_match eqn:E; simpl; [|eauto].
    eexists; split; [done|]. simpl. f_equal. by apply int64_values_back.
  - rewrite varchar_values_spec. case_match eqn:E; simpl; [|eauto].
    eexists; split; [done|]. simpl. f_equal. by apply varchar_values_back.
Qed.

(** ** Key lists refine lists of keys of one type *)

(** The keys of the list, and its representation invariant: the size field of a
    string list is the sum of the sizes of its strings, modulo 2^64. *)
Definition PKs_elems (pks : PrimaryKeys) : list PrimaryKey :=
  match pks with
  | Int64PrimaryKeys vs => map Int64PrimaryKey vs
  | VarcharPrimaryKeys vs _ => map VarCharPrimaryKey vs
  end.

Definition varchar_size (vs : list string) : Z :=
  sum_Z (λ s, Z.of_nat (String.length s) + 16) vs.

Definition PKs_inv (pks : PrimaryKeys) : Prop :=
  match pks with
  | Int64PrimaryKeys _ => True
  | VarcharPrimaryKeys vs size => size = int64 (varchar_size vs)
  end.

Lemma assert_int64_spec values :
  assert_int64 values
  = if forallb (λ pk, bool_decide (PK_Type pk = DataType_Int64)) values
    then Ok (map (λ pk, match pk with Int64PrimaryKey v => v | _ => 0 end) values)
    else Err (Errorf "pk type not match").
Proof.
  induction values as [|[v|v] values IH]; simpl; [done| |done]. rewrite IH. by case_match.
Qed.
Lemma assert_varchar_spec values :
  assert_varchar values
  = if forallb (λ pk, bool_decide (PK_Type pk = DataType_VarChar)) values
    then Ok (map (λ pk, match pk with VarCharPrimaryKey v => v | _ => "" end) values)
    else Err (Errorf "pk type not match").
Proof.
  induction values as [|[v|v] values IH]; simpl; [done|done|]. rewrite IH. by case_match.
Qed.

Lemma varchar_size_foldl size vs ws :
  size = int64 (varchar_size vs) →
  foldl (λ size str, int64 (size + (Z.of_nat (String.length str) + 16))) size ws
  = int64 (varchar_size (vs ++ ws)).
Proof.
  revert size vs. induction ws as [|w ws IH]; intros size vs ->; simpl.
  { by rewrite app_nil_r. }
  rewrite (cons_middle w vs ws), app_assoc. apply IH.
  rewrite wraps_add_l by lia. f_equal. unfold varchar_size. rewrite sum_Z_app. simpl. lia.
Qed.

Lemma PKs_Append_spec pks values :
  PKs_inv pks → forallb (λ pk, bool_decide (PK_Type pk = PKs_Type pks)) values = true →
  ∃ pks', PKs_Append pks values = Ok pks' ∧ PKs_inv pks'
    ∧ PKs_elems pks' = PKs_elems pks ++ values ∧ PKs_Type pks' = PKs_Type pks.
Proof.
  destruct pks as [vs|vs size]; simpl; intros Hinv E.
  - unfold Int64_Append. rewrite assert_int64_spec, E. eexists; split_and!; [done..| |done].
    simpl. unfold Int64_AppendRaw. rewrite map_app. f_equal. by apply int64_values_back.
  - unfold Varchar_Append. rewrite assert_varchar_spec, E. eexists; split_and!; [done| | |done]; simpl.
    + by apply varchar_size_foldl.
    + rewrite map_app. f_equal. by apply varchar_values_back.
Qed.

Lemma PKs_Append_mismatch pks values :
  forallb (λ pk, bool_decide (PK_Type pk = PKs_Type pks)) values = false →
  PKs_Append pks values = Err (Errorf "pk type not match").
Proof.
  destruct pks as [vs|vs size]; simpl; intros E;
    unfold Int64_Append, Varchar_Append; by rewrite ?assert_int64_spec, ?assert_varchar_spec, E.
Qed.

Lemma PKs_MustMerge_spec pks another :
  PKs_inv pks → PKs_inv another → PKs_Type another = PKs_Type pks →
  ∃ pks', PKs_MustMerge pks another = Ok pks' ∧ PKs_inv pks'
    ∧ PKs_elems pks' = PKs_elems pks ++ PKs_elems another ∧ PKs_Type pks' = PKs_Type pks.
Proof.
  destruct pks as [vs|vs size], another as [ws|ws t]; simpl; intros Hi Hi' Ht; try done.
  - eexists; split_and!; [done..| |done]. simpl. by rewrite map_app.
  - eexists; split_and!; [done| | |done]; simpl.
    + rewrite Hi, Hi', wraps_add_l by lia. rewrite Z.add_comm, wraps_add_l by lia.
      unfold varchar_size. rewrite sum_Z_app. f_equal. lia.
    + by rewrite map_app.
Qed.

Lemma PKs_Get_spec pks i : PKs_Get pks i = go_index (PKs_elems pks) i.
Proof.
  assert (∀ A (mk : A → PrimaryKey) (l : list A), mk <$> go_index l i = go_index (map mk l) i)
    as Hget.
  { intros A mk l. unfold go_index. case_bool_decide; [|done].
    change (map mk l) with (mk <$> l). rewrite list_lookup_fmap. by destruct (l !! _). }
  destruct pks; simpl; apply Hget.
Qed.

(** [PrimaryKeys] is a list of keys of one type.  The empty lists
    satisfy the invariant; [Append] succeeds exactly when every key has the type of
    the list, appends them all and keeps the type and the invariant, and otherwise
    changes nothing; [MustMerge] concatenates lists of one type and panics on others;
    [Get] and [Len] are indexing and length; [Size] is the accounted size. *)
Theorem PrimaryKeys_refine pks values :
  PKs_inv NewInt64PrimaryKeys ∧ PKs_inv NewVarcharPrimaryKeys ∧
  (PKs_inv pks →
   (if forallb (λ pk, bool_decide (PK_Type pk = PKs_Type pks)) values
    then ∃ pks', PKs_Append pks values = Ok pks' ∧ PKs_inv pks'
           ∧ PKs_elems pks' = PKs_elems pks ++ values ∧ PKs_Type pks' = PKs_Type pks
    else PKs_Append pks values = Err (Errorf "pk type not match"))
   ∧ (∀ another, PKs_inv another →
        if bool_decide (PKs_Type another = PKs_Type pks)
        then ∃ pks', PKs_MustMerge pks another = Ok pks' ∧ PKs_inv pks'
               ∧ PKs_elems pks' = PKs_elems pks ++ PKs_elems another
        else ∃ why, PKs_MustMerge pks another = Panic why)
   ∧ (∀ i, PKs_Get pks i = go_index (PKs_elems pks) i)
   ∧ PKs_Len pks = zlen (PKs_elems pks)
   ∧ PKs_Size pks = int64 (match pks with
                           | Int64PrimaryKeys vs => zlen vs * 8
                           | VarcharPrimaryKeys vs _ => varchar_size vs
                           end)).
Proof.
  split_and!; [done..|]. intros Hinv. split_and!.
  - case_match eqn:E; [by apply PKs_Append_spec|by apply PKs_Append_mismatch].
  - intros another Ha. case_bool_decide as Ht.
    + destruct (PKs_MustMerge_spec pks another) as (pks' & ? & ? & ? & _); eauto.
    + destruct pks, another; simpl in *; eauto; done.
  - apply PKs_Get_spec.
  - destruct pks; simpl; unfold zlen; by rewrite length_map.
  - by destruct pks.
Qed.

Lemma PrimaryKeys_refine_witness :
  PKs_Append (VarcharPrimaryKeys ["a"] 17) [VarCharPrimaryKey "bc"]
    = Ok (VarcharPrimaryKeys ["a"; "bc"] 35)
  ∧ PKs_Len (VarcharPrimaryKeys ["a"] 17) = 1.
Proof.
  destruct (PrimaryKeys_refine (VarcharPrimaryKeys ["a"] 17) [VarCharPrimaryKey "bc"])
    as (_ & _ & H).
  split; [vm_compute; reflexivity|].
  destruct H as (_ & _ & _ & H & _); [reflexivity|]. exact H.
Defined.
