(* ===== verification/DeltaData.v ===== *)
(** * Delta logs

    Models [storage/delta_data.go], [storage/deltalog_reader.go] and
    [storage/entry_filter.go]: the deleted keys of a segment with their timestamps,
    how they are read from a delta log (one event whose parquet payload is a column
    of JSON documents), and the filters that a scan applies to its rows. *)

From S2P Require Export BinlogPayload PrimaryKey.

(** ** [DeltaData] *)
Record DeltaData := DD {
  dd_pks : option PrimaryKeys;    (* a nil interface for an unsupported type *)
  dd_tss : list Z;
  dd_dataType : Z;
  dd_delRowCount : Z;
  dd_memSize : Z;
}.

Definition NewDeltaData (dataType : Z) : DeltaData :=
  let pks :=
    if bool_decide (dataType = DataType_Int64) then Some NewInt64PrimaryKeys
    else if bool_decide (dataType = DataType_VarChar) then Some NewVarcharPrimaryKeys
    else None in
  DD pks [] dataType 0 0.

Definition DeltaData_Append (dd : DeltaData) (pk : PrimaryKey) (ts : Z) : res DeltaData :=
  match dd_pks dd with
  | None => Panic "invalid memory address or nil pointer dereference"
  | Some pks =>
      pks' ← PKs_MustAppend pks [pk];
      Ok (DD (Some pks') (dd_tss dd ++ [ts]) (dd_dataType dd)
            (int64 (dd_delRowCount dd + 1)) (dd_memSize dd))
  end.

(** The loop of [Range] from index [i], for at most [n] more rounds; [f] threads a
    state of its own, and its boolean result says whether to go on. *)
Fixpoint range_loop {St} (dd : DeltaData) (f : PrimaryKey → Z → St → St * bool)
    (n : nat) (i : Z) (s : St) : res St :=
  match n with
  | O => Ok s
  | S n =>
      match dd_pks dd with
      | None => Panic "invalid memory address or nil pointer dereference"
      | Some pks =>
          pk ← PKs_Get pks i;
          ts ← go_index (dd_tss dd) i;
          let '(s, go_on) := f pk ts s in
          if go_on : bool then range_loop dd f n (i + 1) s else Ok s
      end
  end.

Definition DeltaData_Range {St} (dd : DeltaData) (f : PrimaryKey → Z → St → St * bool) (s : St)
    : res St :=
  range_loop dd f (Z.to_nat (dd_delRowCount dd)) 0 s.

Definition DeltaData_Merge (dd add : DeltaData) : res DeltaData :=
  if bool_decide (dd_dataType dd ≠ dd_dataType add) then Err (Errorf "data type not match")
  else
    match dd_pks dd, dd_pks add with
    | Some pks, Some another =>
        pks' ← PKs_MustMerge pks another;
        Ok (DD (Some pks') (dd_tss dd ++ dd_tss add) (dd_dataType dd)
              (int64 (dd_delRowCount dd + dd_delRowCount add)) (dd_memSize dd))
    | None, _ => Panic "invalid memory address or nil pointer dereference"
    | Some _, None => Panic "cannot merge different kind of pks"
    end.

(** ** [DeltalogReader]

    [encoding/json] as the reader uses it: the members of an object with their raw
    values ([None] for a [null] member, a nil pointer in the program), and the
    decoding of one raw value into an [int64], a [uint64] or a [string]. *)
Class JsonDoc (R : Type) := {
  json_object : list byte → res (gmap string (option R));
  json_int64 : R → res Z;
  json_uint64 : R → res Z;
  json_string : R → res string;
}.

Record DeleteLog := DL { dl_Pk : option PrimaryKey; dl_Ts : Z; dl_PkType : Z }.

Section deltalog.
Context {R : Type} `{JsonDoc R}.

(** [*messageMap[key]]. *)
Definition json_member (m : gmap string (option R)) (key : string) : res R :=
  match m !! key with
  | Some (Some raw) => Ok raw
  | _ => Panic "invalid memory address or nil pointer dereference"
  end.

(** [UnmarshalJSON] of the two key types; decoding into a nil interface fails. *)
Definition PK_UnmarshalJSON (pk : option PrimaryKey) (raw : R) : res PrimaryKey :=
  match pk with
  | Some (Int64PrimaryKey _) => Int64PrimaryKey <$> json_int64 raw
  | Some (VarCharPrimaryKey _) => VarCharPrimaryKey <$> json_string raw
  | None => Err (Errorf "json: Unmarshal(nil)")
  end.

(** The receiver is reused from one entry to the next: a type that is neither of the
    two leaves the key object of the entry before in place. *)
Definition DeleteLog_UnmarshalJSON (data : list byte) (dl : DeleteLog) : res DeleteLog :=
  messageMap ← json_object data;
  rawType ← json_member messageMap "pkType";
  PkType ← json_int64 rawType;
  let Pk :=
    if bool_decide (PkType = DataType_Int64) then Some (Int64PrimaryKey 0)
    else if bool_decide (PkType = DataType_VarChar) then Some (VarCharPrimaryKey "")
    else dl_Pk dl in
  rawPk ← json_member messageMap "pk";
  Pk' ← PK_UnmarshalJSON Pk rawPk;
  rawTs ← json_member messageMap "ts";
  Ts ← json_uint64 rawTs;
  Ok (DL (Some Pk') Ts PkType).

(** The body of the loop over the entries. *)
Definition deltalog_entry (entry : list byte) (st : DeleteLog * DeltaData)
    : res (DeleteLog * DeltaData) :=
  let '(log, deltaData) := st in
  log' ← DeleteLog_UnmarshalJSON entry log;
  match dl_Pk log' with
  | None => Panic "invalid memory address or nil pointer dereference"
  | Some pk => deltaData' ← DeltaData_Append deltaData pk (dl_Ts log'); Ok (log', deltaData')
  end.

Definition deltalog_entries (dataType : Z) (entries : list (list byte)) : res DeltaData :=
  snd <$> foldM deltalog_entry entries (DL None 0 0, NewDeltaData dataType).

Context {F C : Type} `{Parquet F C}.

Definition NewDeltalogReader {J} `{JsonMap J} : reader (DescriptorEvent J) :=
  _ ← ReadMagicNumber; ReadDescriptorEvent.

(** Unlike the readers of [binlog_reader.go], this one does check [io.ReadFull]. *)
Definition Deltalog_NextEventReader (dataType : Z) : reader DeltaData :=
  header ← EventReader_ReadHeader;
  ifed ← ReadIndexFileEventData;
  data ← make_ReadFull (payload_length header ifed);
  pr ← rd_lift (NewParquetPayloadReader DataType_String data);
  entries ← rd_lift (GetBytesSliceFromPayload pr 0);
  rd_lift (deltalog_entries dataType entries).
End deltalog.

(** ** Filters *)

(** A missing key reads as 0. *)
Record DeltalogFilter := { deleteEntries : gmap any Z }.

Definition NewDeltalogFilter (entries : gmap any Z) : DeltalogFilter :=
  {| deleteEntries := entries |}.

Definition DeltalogFilter_Match (f : DeltalogFilter) (pk : PrimaryKey) (ts : Z) : res bool :=
  Ok (bool_decide (default 0 (deleteEntries f !! PK_GetValue pk) ≤ uint64 ts)).

(** IEEE 754 on the bits of a [float32] and of a [Float16]. *)
Definition float32_IsNaN (b : Z) : bool := bool_decide (Z.land b 0x7fffffff > 0x7f800000).
Definition float32_IsInf (b : Z) : bool := bool_decide (Z.land b 0x7fffffff = 0x7f800000).
Definition float16_IsNaN (b : Z) : bool := bool_decide (Z.land b 0x7fff > 0x7c00).
Definition float16_IsInf (b : Z) : bool := bool_decide (Z.land b 0x7fff = 0x7c00).

Definition AbnormalFloat (values : any) : bool :=
  match values with
  | VFloat16s vs => existsb (λ v, float16_IsNaN v || float16_IsInf v) vs
  | VFloat32s vs => existsb (λ v, float32_IsInf v || float32_IsNaN v) vs
  | _ => false
  end.

(** The expression language is a library: compiling and running a program are
    operations of this interface. *)
Class ExprLang (P : Type) := {
  expr_Compile : string → res P;
  expr_Run : P → gmap string any → res any;
}.

(** [schemapb.FieldSchema], the fields the scans read. *)
Record FieldSchema := FS {
  FieldID : Z;
  fs_Name : string;
  IsPrimaryKey : bool;
  DataType : Z;
}.

Section exprfilter.
Context {P : Type} `{ExprLang P}.

Record ExprFilter := EF {
  id2Schema : gmap Z FieldSchema;
  ef_expr : string;
  ef_program : P;
  ef_extra : gmap string any;
}.

Definition NewExprFilter (id2Schema : gmap Z FieldSchema) (iexpr : string) : res ExprFilter :=
  program ← expr_Compile iexpr;
  Ok (EF id2Schema iexpr program
        (if Contains iexpr "AbnormalFloat" then {["AbnormalFloat" := VFunc "AbnormalFloat"]}
         else ∅)).

(** [lo.MapKeys(values, ...)] ranges over the map in an order of its own, [order];
    a later field of the same name overwrites an earlier one. *)
Definition rename_field (id2Schema : gmap Z FieldSchema) (fv : Z * any) (env : gmap string any)
    : res (gmap string any) :=
  match id2Schema !! fv.1 with
  | Some s => Ok (<[fs_Name s := fv.2]> env)
  | None => Panic "invalid memory address or nil pointer dereference"
  end.

Definition ExprFilter_env (f : ExprFilter) (pk : PrimaryKey) (ts : Z) (order : list (Z * any))
    : res (gmap string any) :=
  env ← foldM (rename_field (id2Schema f)) order ∅;
  let env := <["$pk" := PK_GetValue pk]> env in
  let env := <["$timestamp" := VInt64 ts]> env in
  Ok (ef_extra f ∪ env).

Definition ExprFilter_Match (f : ExprFilter) (pk : PrimaryKey) (ts : Z) (order : list (Z * any))
    : res bool :=
  env ← ExprFilter_env f pk ts order;
  output ← expr_Run (ef_program f) env;
  match output with
  | VBool match_ => Ok match_
  | _ => Err (Errorf "filter expression result not bool")
  end.
End exprfilter.
Arguments ExprFilter P : clear implicits.

(** ** [DeltaData] refines a list of deletes *)

(** The deletes, in the order they were added. *)
Definition dd_elems (dd : DeltaData) : list (PrimaryKey * Z) :=
  match dd_pks dd with Some pks => zip (PKs_elems pks) (dd_tss dd) | None => [] end.

Definition dd_inv (dd : DeltaData) : Prop :=
  dd_delRowCount dd = zlen (dd_tss dd) ∧ zlen (dd_tss dd) < 2 ^ 63 ∧
  match dd_pks dd with
  | Some pks => PKs_inv pks ∧ PKs_Type pks = dd_dataType dd
                ∧ length (PKs_elems pks) = length (dd_tss dd)
  | None => dd_dataType dd ≠ DataType_Int64 ∧ dd_dataType dd ≠ DataType_VarChar
  end.

(** What [Range] promises: the visits in order, up to the first [false]. *)
Fixpoint visit {St} (f : PrimaryKey → Z → St → St * bool) (l : list (PrimaryKey * Z)) (s : St) : St :=
  match l with
  | [] => s
  | (pk, ts) :: l => let '(s, go_on) := f pk ts s in if go_on then visit f l s else s
  end.

Lemma NewDeltaData_inv t : dd_inv (NewDeltaData t) ∧ dd_elems (NewDeltaData t) = [].
Proof.
  unfold NewDeltaData, dd_inv, dd_elems.
  repeat case_bool_decide; simpl; split_and!; try done.
Qed.

Lemma PKs_type_supported pks :
  PKs_Type pks = DataType_Int64 ∨ PKs_Type pks = DataType_VarChar.
Proof. destruct pks; auto. Qed.
Lemma PK_type_supported pk : PK_Type pk = DataType_Int64 ∨ PK_Type pk = DataType_VarChar.
Proof. destruct pk; auto. Qed.

Lemma DeltaData_Append_ok dd pk ts :
  dd_inv dd → zlen (dd_tss dd) + 1 < 2 ^ 63 → PK_Type pk = dd_dataType dd →
  ∃ dd', DeltaData_Append dd pk ts = Ok dd' ∧ dd_inv dd' ∧ dd_dataType dd' = dd_dataType dd
    ∧ dd_elems dd' = dd_elems dd ++ [(pk, ts)] ∧ dd_tss dd' = dd_tss dd ++ [ts].
Proof.
  intros (Hc & Hl & Hp) Hlt Ht. unfold DeltaData_Append, dd_elems, dd_inv in *.
  destruct (dd_pks dd) as [pks|]; [|destruct (PK_type_supported pk), Hp; congruence].
  destruct Hp as (Hi & Hty & Hlen). rewrite PKs_MustAppend_eq. unfold must.
  destruct (PKs_Append_spec pks [pk] Hi) as (pks' & -> & Hi' & He & Hty').
  { simpl. by rewrite bool_decide_true by congruence. }
  pose proof (zlen_nonneg (dd_tss dd)).
  eexists; split; [done|]; simpl. rewrite zlen_app, He, Hty', !length_app, Hc, Hlen.
  rewrite wraps_id by (unfold in_s; lia). split_and!; try done.
  by rewrite zip_with_app by done.
Qed.

Lemma DeltaData_Append_mismatch dd pk ts :
  dd_inv dd → PK_Type pk ≠ dd_dataType dd → ∃ why, DeltaData_Append dd pk ts = Panic why.
Proof.
  intros (_ & _ & Hp) Ht. unfold DeltaData_Append. destruct (dd_pks dd) as [pks|]; [|eauto].
  rewrite PKs_MustAppend_eq. rewrite PKs_Append_mismatch; [eauto|].
  simpl. by rewrite bool_decide_false by (destruct Hp as (_ & Hty & _); congruence).
Qed.

Lemma range_loop_visit {St} dd pks (f : PrimaryKey → Z → St → St * bool) n i s :
  dd_pks dd = Some pks → length (PKs_elems pks) = length (dd_tss dd) →
  (i + n = length (dd_tss dd))%nat →
  range_loop dd f n (Z.of_nat i) s = Ok (visit f (drop i (dd_elems dd)) s).
Proof.
  intros Hp Hlen. unfold dd_elems. rewrite Hp. revert i s.
  induction n as [|n IH]; intros i s Hn; simpl.
  { rewrite drop_ge; [done|]. rewrite length_zip_with. lia. }
  rewrite Hp, PKs_Get_spec.
  destruct (lookup_lt_is_Some_2 (PKs_elems pks) i) as [pk Hpk]; [lia|].
  destruct (lookup_lt_is_Some_2 (dd_tss dd) i) as [ts Hts]; [lia|].
  assert (∀ A (l : list A) a, l !! i = Some a → go_index l (Z.of_nat i) = Ok a) as Hgo.
  { intros A l a Ha. apply go_index_Ok. rewrite Nat2Z.id. split; [lia|done]. }
  rewrite (Hgo _ _ _ Hpk), (Hgo _ _ _ Hts). simpl.
  rewrite (drop_S _ (pk, ts) i) by (by rewrite lookup_zip_with, Hpk; simpl; rewrite Hts).
  simpl. destruct (f pk ts s) as [s' []]; [|done].
  replace (Z.of_nat i + 1) with (Z.of_nat (i + 1)) by lia.
  rewrite IH by lia. by replace (i + 1)%nat with (S i) by lia.
Qed.

Lemma DeltaData_Range_visit {St} dd (f : PrimaryKey → Z → St → St * bool) s :
  dd_inv dd → is_Some (dd_pks dd) → DeltaData_Range dd f s = Ok (visit f (dd_elems dd) s).
Proof.
  intros (Hc & _ & Hp) [pks Hpks]. rewrite Hpks in Hp.
  unfold DeltaData_Range. rewrite Hc. unfold zlen. rewrite Nat2Z.id.
  rewrite (range_loop_visit dd pks f _ 0%nat); [by rewrite drop_0|naive_solver..].
Qed.

(** [DeltaData] implements a list of (key, timestamp) pairs of one
    key type.  A new value is empty; [Append] adds at the end exactly the keys of
    the value's type and panics on another one; [Merge] concatenates, refuses
    another data type and panics on unsupported ones; [Range] visits the pairs in
    order up to the first [false] and never fails. *)
Theorem DeltaData_refine dd :
  (∀ t, dd_inv (NewDeltaData t) ∧ dd_elems (NewDeltaData t) = []) ∧
  (dd_inv dd →
   (∀ pk ts, zlen (dd_tss dd) + 1 < 2 ^ 63 →
      if bool_decide (PK_Type pk = dd_dataType dd)
      then ∃ dd', DeltaData_Append dd pk ts = Ok dd' ∧ dd_inv dd'
             ∧ dd_dataType dd' = dd_dataType dd ∧ dd_elems dd' = dd_elems dd ++ [(pk, ts)]
      else ∃ why, DeltaData_Append dd pk ts = Panic why)
   ∧ (∀ add, dd_inv add → zlen (dd_tss dd) + zlen (dd_tss add) < 2 ^ 63 →
      if bool_decide (dd_dataType dd ≠ dd_dataType add)
      then DeltaData_Merge dd add = Err (Errorf "data type not match")
      else if bool_decide (is_Some (dd_pks dd))
      then ∃ dd', DeltaData_Merge dd add = Ok dd' ∧ dd_inv dd'
             ∧ dd_elems dd' = dd_elems dd ++ dd_elems add
      else ∃ why, DeltaData_Merge dd add = Panic why)
   ∧ (∀ St (f : PrimaryKey → Z → St → St * bool) s, is_Some (dd_pks dd) →
      DeltaData_Range dd f s = Ok (visit f (dd_elems dd) s))).
Proof.
  split; [apply NewDeltaData_inv|]. intros Hinv. split_and!.
  - intros pk ts Hlt. case_bool_decide;
    [destruct (DeltaData_Append_ok dd pk ts) as (dd' & ? & ? & ? & ? & _); eauto|].
    by apply DeltaData_Append_mismatch.
  - intros add Hadd Hlt. unfold DeltaData_Merge. case_bool_decide as Hd; [done|].
    destruct Hinv as (Hc & Hl & Hp), Hadd as (Hca & Hla & Hpa).
    unfold dd_elems. destruct (dd_pks dd) as [pks|] eqn:E.
    + rewrite bool_decide_true by done. destruct Hp as (Hi & Hty & Hlen).
      destruct (dd_pks add) as [another|];
        [|destruct (PKs_type_supported pks), Hpa; congruence].
      destruct Hpa as (Hi' & Hty' & Hlen').
      destruct (PKs_MustMerge_spec pks another Hi Hi') as (pks' & -> & Hi'' & He & Hty'');
        [congruence|].
      pose proof (zlen_nonneg (dd_tss dd)). pose proof (zlen_nonneg (dd_tss add)).
      eexists; split; [done|]. unfold dd_inv; simpl.
      rewrite zlen_app, He, Hty'', !length_app, Hc, Hca, Hlen, Hlen'.
      rewrite wraps_id by (unfold in_s; lia). split_and!; try done.
      by rewrite zip_with_app by done.
    + rewrite bool_decide_false by (intros []; done). eauto.
  - intros St f s Hpks. by apply DeltaData_Range_visit.
Qed.

(** ** Reading a delta log *)
Section deltalog_properties.
Context {R : Type} `{JsonDoc R} {F C : Type} `{Parquet F C}.

(** [entry] is the JSON document of the deletion of [d.1] at time [d.2]. *)
Definition is_delete_log (entry : list byte) (d : PrimaryKey * Z) : Prop :=
  ∃ m rawType rawPk rawTs, json_object entry = Ok m
    ∧ m !! "pkType" = Some (Some rawType) ∧ json_int64 rawType = Ok (PK_Type d.1)
    ∧ m !! "pk" = Some (Some rawPk)
    ∧ match d.1 with
      | Int64PrimaryKey v => json_int64 rawPk = Ok v
      | VarCharPrimaryKey v => json_string rawPk = Ok v
      end
    ∧ m !! "ts" = Some (Some rawTs) ∧ json_uint64 rawTs = Ok d.2.

Lemma DeleteLog_UnmarshalJSON_ok entry d dl :
  is_delete_log entry d →
  DeleteLog_UnmarshalJSON entry dl = Ok (DL (Some d.1) d.2 (PK_Type d.1)).
Proof.
  intros (m & rt & rp & rts & Hm & Ht & Ht' & Hp & Hp' & Hts & Hts').
  unfold DeleteLog_UnmarshalJSON, json_member. rewrite Hm. simpl. rewrite Ht. simpl. rewrite Ht'.
  simpl. rewrite Hp. simpl.
  destruct d as [[v|v] ts]; simpl in *; rewrite Hp'; simpl; rewrite Hts; simpl; by rewrite Hts'.
Qed.

Lemma foldM_deltalog_entry t entries ds log dd :
  Forall2 is_delete_log entries ds → dd_inv dd → dd_dataType dd = t →
  zlen (dd_tss dd) + zlen ds < 2 ^ 63 →
  if forallb (λ d, bool_decide (PK_Type d.1 = t)) ds
  then ∃ log' dd', foldM deltalog_entry entries (log, dd) = Ok (log', dd') ∧ dd_inv dd'
         ∧ dd_elems dd' = dd_elems dd ++ ds
  else ∃ why, foldM deltalog_entry entries (log, dd) = Panic why.
Proof.
  intros Hall. revert log dd. induction Hall as [|entry d entries ds He _ IH]; intros log dd Hi Ht Hl.
  { simpl. eexists _, _. rewrite app_nil_r. done. }
  simpl. rewrite (DeleteLog_UnmarshalJSON_ok _ d) by done. simpl.
  rewrite zlen_cons in Hl. pose proof (zlen_nonneg ds).
  case_bool_decide as Hd; simpl.
  - destruct (DeltaData_Append_ok dd d.1 d.2) as (dd' & -> & Hi' & Ht' & He' & Hs');
      [done|lia|congruence|]. simpl.
    specialize (IH (DL (Some d.1) d.2 (PK_Type d.1)) dd' Hi'). rewrite Hs', zlen_app in IH.
    change (zlen [d.2]) with 1 in IH. case_match.
    + destruct IH as (log' & dd'' & ? & ? & He''); [congruence|lia|]. eexists _, _.
      split_and!; [done..|]. rewrite He'', He', <-app_assoc. by destruct d.
    + apply IH; [congruence|lia].
  - destruct (DeltaData_Append_mismatch dd d.1 d.2) as [why ->]; [done|congruence|]. eauto.
Qed.

(** A delta log event whose parquet payload is one column of
    delete documents is read into exactly these deletes, in order, when their keys
    all have the requested data type, and makes the reader panic when one has not;
    a payload shorter than the header announces is an error (unlike in the readers
    of the data logs). *)
Theorem Deltalog_NextEventReader_spec h (d : indexFileEventData) payload rest r entries ds t :
  fx_ok fx_baseEventHeader h → fx_ok (fx_eventData IndexFileK) d →
  EventLength h = zlen (event_bytes h d payload) → 0 < zlen payload ≤ 2 ^ 30 →
  NewParquetReader payload = Ok r → column_groups PByteArray r 0 [entries] →
  Forall2 is_delete_log entries ds →
  (if forallb (λ d, bool_decide (PK_Type d.1 = t)) ds
   then ∃ dd, Deltalog_NextEventReader t (event_bytes h d payload ++ rest) = Ok (dd, rest)
          ∧ dd_inv dd ∧ dd_elems dd = ds
   else ∃ why, Deltalog_NextEventReader t (event_bytes h d payload ++ rest) = Panic why)
  ∧ ∀ n, (n < length payload)%nat → ∃ e,
      Deltalog_NextEventReader t (baseEventHeader_Write h ++ binary_Write (fx_eventData IndexFileK) d
                                  ++ take n payload) = Err e.
Proof.
  intros Hh Hd Hl Hp Hr Hc Hds.
  assert (payload_length h d = zlen payload) as Hpl.
  { apply payload_length_event; [done|lia]. }
  assert (∀ s, Deltalog_NextEventReader t
      (baseEventHeader_Write h ++ binary_Write (fx_eventData IndexFileK) d ++ s)
    = (data ← make_ReadFull (zlen payload);
       pr ← rd_lift (NewParquetPayloadReader DataType_String data);
       entries ← rd_lift (GetBytesSliceFromPayload pr 0);
       rd_lift (deltalog_entries t entries)) s) as Hrun.
  { intros s. unfold Deltalog_NextEventReader, EventReader_ReadHeader, readEventHeader.
    rd_step ltac:(by apply binary_Read_Write). unfold ReadIndexFileEventData.
    rd_step ltac:(by apply binary_Read_Write). by rewrite Hpl. }
  split.
  - unfold event_bytes. rewrite <-!app_assoc, Hrun.
    rd_step ltac:(apply make_ReadFull_app; [done|unfold maxAlloc; lia]).
    rd_step ltac:(by unfold rd_lift, NewParquetPayloadReader; rewrite bool_decide_false, Hr by lia).
    rd_step ltac:(unfold rd_lift, GetBytesSliceFromPayload; simpl pq_reader; by rewrite (readPayloadAll_one _ _ _ _ Hc)).
    destruct (NewDeltaData_inv t) as [Hi He].
    pose proof (foldM_deltalog_entry t entries ds (DL None 0 0) (NewDeltaData t) Hds Hi eq_refl) as Hf.
    unfold rd_lift, deltalog_entries.
    assert (zlen ds < 2 ^ 63) as Hlt.
    { destruct Hc as (_ & Hc & _). simpl in Hc. rewrite app_nil_r in Hc.
      unfold zlen in *. by rewrite <-(Forall2_length Hds). }
    case_match.
    + destruct Hf as (log & dd & -> & Hi' & He'); [done|]. exists dd. by rewrite He', He.
    + destruct Hf as [why ->]; [done|]. eauto.
  - intros n Hn. rewrite Hrun. destruct (make_ReadFull_short (zlen payload) (take n payload)) as [e He].
    { unfold zlen. rewrite length_take. lia. }
    { unfold maxAlloc. lia. }
    exists e. by apply reader_bind_Err.
Qed.
End deltalog_properties.

(** ** Filters *)

(** The filter drops exactly the rows whose key was deleted after
    the row's timestamp, read as an unsigned number; a key that was never deleted
    always passes. *)
Theorem DeltalogFilter_Match_spec entries pk ts :
  DeltalogFilter_Match (NewDeltalogFilter entries) pk ts = Ok true
  ↔ ∀ del, entries !! PK_GetValue pk = Some del → del ≤ uint64 ts.
Proof.
  unfold DeltalogFilter_Match, NewDeltalogFilter. simpl.
  pose proof (wrapu_range 64 ts ltac:(lia)) as [??].
  destruct (entries !! PK_GetValue pk) as [del|]; simpl; split.
  - intros [= Hle%bool_decide_eq_true] ? [= <-]. done.
  - intros Hall. by rewrite bool_decide_true by auto.
  - done.
  - intros _. by rewrite bool_decide_true.
Qed.

(** A float of [e] exponent and [m] mantissa bits without its sign is at least the
    infinity exactly when its exponent is all ones. *)
Lemma exponent_ones m e b :
  0 ≤ m → 0 < e →
  Z.land b (Z.ones (m + e)) >= Z.shiftl (Z.ones e) m
  ↔ Z.land b (Z.shiftl (Z.ones e) m) = Z.shiftl (Z.ones e) m.
Proof.
  intros Hm He.
  assert (Z.land b (Z.shiftl (Z.ones e) m) = Z.shiftl (b / 2 ^ m mod 2 ^ e) m) as ->.
  { rewrite <-Z.land_ones, <-Z.shiftr_div_pow2 by lia. apply Z.bits_inj'. intros n Hn.
    rewrite Z.land_spec, !Z.shiftl_spec by done. destruct (decide (n < m)).
    - by rewrite !(Z.testbit_neg_r _ (n - m)), andb_false_r by lia.
    - rewrite Z.land_spec, Z.shiftr_spec by lia. f_equal. f_equal. lia. }
  rewrite Z.land_ones by lia. rewrite !Z.shiftl_mul_pow2, Z.ones_equiv, Z.pow_add_r by lia.
  rewrite Z.rem_mul_r by lia. pose proof (Z.pow_pos_nonneg 2 m). pose proof (Z.pow_pos_nonneg 2 e).
  pose proof (Z.mod_pos_bound b (2 ^ m)). pose proof (Z.mod_pos_bound (b / 2 ^ m) (2 ^ e)).
  remember (b / 2 ^ m mod 2 ^ e) as q. remember (b mod 2 ^ m) as r.
  split; intros Hq; [|nia]. assert (q = Z.pred (2 ^ e)); [|nia].
  assert (¬ q ≤ 2 ^ e - 2); [|lia]. nia.
Qed.

(** [AbnormalFloat] finds the NaNs and infinities, those with an
    exponent of all ones, and only these. *)
Theorem AbnormalFloat_spec bits :
  (AbnormalFloat (VFloat32s bits) = true ↔ ∃ b, b ∈ bits ∧ Z.land b 0x7f800000 = 0x7f800000)
  ∧ (AbnormalFloat (VFloat16s bits) = true ↔ ∃ b, b ∈ bits ∧ Z.land b 0x7c00 = 0x7c00).
Proof.
  assert (∀ (f : Z → bool) (P : Z → Prop), (∀ b, f b = true ↔ P b) →
    existsb f bits = true ↔ ∃ b, b ∈ bits ∧ P b) as Hex.
  { intros f P Hf. rewrite existsb_exists. setoid_rewrite list_elem_of_In. by setoid_rewrite Hf. }
  split; apply Hex; intros b; unfold float32_IsInf, float32_IsNaN, float16_IsInf, float16_IsNaN;
    rewrite orb_true_iff, !bool_decide_eq_true.
  - pose proof (exponent_ones 23 8 b ltac:(lia) ltac:(lia)) as He.
    change (Z.shiftl (Z.ones 8) 23) with 0x7f800000 in He.
    change (Z.ones (23 + 8)) with 0x7fffffff in He. lia.
  - pose proof (exponent_ones 10 5 b ltac:(lia) ltac:(lia)) as He.
    change (Z.shiftl (Z.ones 5) 10) with 0x7c00 in He.
    change (Z.ones (10 + 5)) with 0x7fff in He. lia.
Qed.

(** The names of a row's fields. *)
Definition env_names (id2Schema : gmap Z FieldSchema) (order : list (Z * any)) : list string :=
  omap (λ fv, fs_Name <$> id2Schema !! fv.1) order.

Lemma env_names_cons sch fid w order s :
  sch !! fid = Some s → env_names sch ((fid, w) :: order) = fs_Name s :: env_names sch order.
Proof. unfold env_names. simpl. by intros ->. Qed.

Lemma elem_of_env_names sch order name :
  name ∈ env_names sch order ↔ ∃ fid v, (fid, v) ∈ order ∧ fs_Name <$> sch !! fid = Some name.
Proof.
  unfold env_names. rewrite list_elem_of_omap. split; [intros ([] & ? & ?); eauto|].
  intros (fid & v & ? & ?). by exists (fid, v).
Qed.

Lemma foldM_rename_field sch order env :
  (∀ fv, fv ∈ order → is_Some (sch !! fv.1)) → NoDup (env_names sch order) →
  ∃ env', foldM (rename_field sch) order env = Ok env' ∧
    ∀ name v, env' !! name = Some v ↔
      (∃ fid, (fid, v) ∈ order ∧ fs_Name <$> sch !! fid = Some name)
      ∨ ((name ∉ env_names sch order) ∧ env !! name = Some v).
Proof.
  revert env. induction order as [|[fid w] order IH]; intros env Hin Hnd.
  { exists env. split; [done|]. set_solver. }
  destruct (Hin (fid, w)) as [s Hs]; [left|]. simpl in Hs.
  rewrite (env_names_cons _ _ _ _ _ Hs) in Hnd |- *.
  apply list.NoDup_cons in Hnd as [Hn Hnd]. rewrite elem_of_env_names in Hn.
  destruct (IH (<[fs_Name s:=w]> env)) as (env' & He & Hl); [set_solver|done|].
  simpl. unfold rename_field at 2. simpl. rewrite Hs. simpl. exists env'. split; [done|].
  intros name v. rewrite Hl. setoid_rewrite elem_of_cons.
  destruct (decide (fs_Name s = name)) as [<-|Hne].
  - rewrite lookup_insert_eq. split.
    + intros [(fid' & Hin' & Hn')|[_ [= ->]]]; [destruct Hn; eauto|].
      left. exists fid. rewrite Hs. auto.
    + intros [(fid' & [[= -> ->]|Hin'] & Hn')|[Hn' _]].
      * right. split; [|done]. by rewrite elem_of_env_names.
      * destruct Hn. eauto.
      * destruct Hn'. by left.
  - rewrite lookup_insert_ne by done. split.
    + intros [(fid' & Hin' & Hn')|[??]]; [eauto 6|]. right. split; [|done]. intros [|]; congruence.
    + intros [(fid' & [[= -> ->]|Hin'] & Hn')|[Hn' ?]]; [|eauto|tauto].
      rewrite Hs in Hn'. simpl in Hn'. congruence.
Qed.

Section expr_properties.
Context {P : Type} `{ExprLang P}.

(** When every field of the row has a schema and no two share a
    name, the environment an expression sees does not depend on the order in which
    the row is traversed; it maps each field's name to its value, ["$pk"] and
    ["$timestamp"] to the key and time of the row, and the extra functions shadow
    all of these. *)
Theorem ExprFilter_env_spec (f : ExprFilter P) pk ts order :
  (∀ fv, fv ∈ order → is_Some (id2Schema f !! fv.1)) → NoDup (env_names (id2Schema f) order) →
  ∃ env, ExprFilter_env f pk ts order = Ok env
    ∧ (∀ order', order ≡ₚ order' → ExprFilter_env f pk ts order' = Ok env)
    ∧ (∀ name v, ef_extra f !! name = Some v → env !! name = Some v)
    ∧ (ef_extra f !! "$timestamp" = None → env !! "$timestamp" = Some (VInt64 ts))
    ∧ (ef_extra f !! "$pk" = None → env !! "$pk" = Some (PK_GetValue pk))
    ∧ (∀ fid v s, (fid, v) ∈ order → id2Schema f !! fid = Some s →
         ef_extra f !! fs_Name s = None → fs_Name s ≠ "$pk" → fs_Name s ≠ "$timestamp" →
         env !! fs_Name s = Some v).
Proof.
  intros Hin Hnd. destruct (foldM_rename_field _ order ∅ Hin Hnd) as (env & He & Hl).
  unfold ExprFilter_env. rewrite He. simpl. eexists. split; [done|]. split_and!.
  - intros order' Hp.
    destruct (foldM_rename_field (id2Schema f) order' ∅) as (env' & He' & Hl').
    { intros fv. rewrite <-Hp. apply Hin. }
    { unfold env_names. by rewrite <-Hp. }
    rewrite He'. simpl. do 4 f_equal. apply map_eq. intros name. apply option_eq. intros v.
    rewrite Hl, Hl', !elem_of_env_names. by setoid_rewrite Hp.
  - intros name v Hv. by apply lookup_union_Some_l.
  - intros Hx. by rewrite lookup_union_r, lookup_insert_eq.
  - intros Hx. by rewrite lookup_union_r, lookup_insert_ne, lookup_insert_eq.
  - intros fid v s Hf Hs Hx Hpk Hts. rewrite lookup_union_r, !lookup_insert_ne by done.
    apply Hl. left. exists fid. by rewrite Hs.
Qed.
End expr_properties.

(** ** Concrete instances *)

(** Documents of three bytes: the type of the key, the key and the timestamp. *)
#[export] Instance three_bytes : JsonDoc Z := {
  json_object bs :=
    match bs with
    | [t; k; ts] => Ok {["pkType" := Some (Z_of_byte t); "pk" := Some (Z_of_byte k);
                         "ts" := Some (Z_of_byte ts)]}
    | _ => Err (Errorf "invalid character")
    end;
  json_int64 r := Ok r;
  json_uint64 r := Ok r;
  json_string r := Ok (FormatInt r);
}.

Fixpoint cut3 (bs : list byte) : list (list byte) :=
  match bs with a :: b :: c :: bs => [a; b; c] :: cut3 bs | _ => [] end.

(** A file of such documents as one row group of byte arrays. *)
Definition documents_parquet : Parquet (list (list byte)) (list (list byte)) := {|
  NewParquetReader bs := Ok (cut3 bs);
  NumRowGroups _ := 1;
  NumRows r i := zlen r;
  Column r i col := Ok r;
  ChunkType _ := PByteArray;
  ReadBatch p c n dst :=
    (if bool_decide (length c ≤ length dst)%nat then
       match p return list (phys_val p) → res (list (phys_val p) * Z * Z) with
       | PByteArray => λ dst, Ok (c ++ drop (length c) dst, zlen c, zlen c)
       | _ => λ _, Err (Errorf "type")
       end
     else λ _, Err (Errorf "short buffer")) dst;
|}.

Lemma documents_column_groups r :
  zlen r < 2 ^ 63 → column_groups (H:=documents_parquet) PByteArray r 0 [r].
Proof.
  intros Hl. split_and!; [done|by simpl; rewrite app_nil_r|].
  intros [|i] g [= <-]. split; [done|]. exists r. split; [done|]. split; [done|].
  intros dst Hdst. simpl. by rewrite bool_decide_true.
Qed.

Lemma DeltaData_refine_witness :
  DeltaData_Range (DD (Some (Int64PrimaryKeys [7; 8])) [10; 11] DataType_Int64 2 0)
    (λ pk ts s, (ts :: s, true)) [] = Ok [11; 10].
Proof.
  destruct (DeltaData_refine (DD (Some (Int64PrimaryKeys [7; 8])) [10; 11] DataType_Int64 2 0))
    as (_ & H).
  destruct H as (_ & _ & H); [vm_compute; intuition congruence|].
  apply (H (list Z) (λ pk ts s, (ts :: s, true)) []). by eexists.
Defined.

Lemma Deltalog_NextEventReader_spec_witness :
  let _ := documents_parquet in
  let h := BaseEventHeader 0 IndexFileEventType 39 (-1) in
  let d : indexFileEventData := EventData 1 2 in
  ∃ dd, Deltalog_NextEventReader DataType_Int64 (event_bytes h d [x05; x07; x01; x05; x08; x02])
        = Ok (dd, [])
    ∧ dd_elems dd = [(Int64PrimaryKey 7, 1); (Int64PrimaryKey 8, 2)].
Proof.
  intros P h d.
  destruct (Deltalog_NextEventReader_spec h d [x05; x07; x01; x05; x08; x02] []
    [[x05; x07; x01]; [x05; x08; x02]] [[x05; x07; x01]; [x05; x08; x02]]
    [(Int64PrimaryKey 7, 1); (Int64PrimaryKey 8, 2)] DataType_Int64) as [H _].
  - vm_compute. intuition congruence.
  - vm_compute. intuition congruence.
  - vm_compute. reflexivity.
  - vm_compute. intuition congruence.
  - reflexivity.
  - apply documents_column_groups. reflexivity.
  - repeat constructor; eexists _, 5, _, _; split_and!; reflexivity.
  - simpl in H. destruct H as (dd & Hr & _ & He). exists dd. split; [exact Hr|exact He].
Defined.

(** An expression language whose programs are keys, compared with the key of the row. *)
#[export] Instance constant_expr : ExprLang any := {
  expr_Compile s := Ok (VString s);
  expr_Run p env := Ok (VBool (bool_decide (env !! "$pk" = Some p)));
}.

Lemma ExprFilter_env_spec_witness :
  let f := EF {[100 := FS 100 "a" false DataType_Int64; 101 := FS 101 "b" false DataType_Int64]}
              "" VNil ∅ in
  ∃ env, ExprFilter_env f (Int64PrimaryKey 3) 9 [(100, VInt64 1); (101, VInt64 2)] = Ok env
    ∧ ExprFilter_env f (Int64PrimaryKey 3) 9 [(101, VInt64 2); (100, VInt64 1)] = Ok env.
Proof.
  intros f.
  destruct (ExprFilter_env_spec f (Int64PrimaryKey 3) 9 [(100, VInt64 1); (101, VInt64 2)])
    as (env & He & Hp & _).
  - intros fv Hin. repeat (apply elem_of_cons in Hin as [->|Hin]; [by eexists|]).
    by apply not_elem_of_nil in Hin.
  - vm_compute. repeat constructor; set_solver.
  - exists env. split; [exact He|]. apply Hp. constructor.
Defined.
