(* ===== verification/Serde.v ===== *)
(** * Arrow serialisation

    Models [storage/common/data_type.go]: for every data type of Milvus, how a value
    is appended to an arrow builder and read back from an arrow array.

    The arrow library is the interface [Arrow]: the dynamic type of arrays and
    builders, null tests, element access and appending.  The encoding of the
    protobuf message [schemapb.ScalarField] is the interface [ScalarFieldProto]. *)

From S2P Require Export BinlogPayload.

(** The concrete array (and builder) types behind [arrow.Array]. *)
Inductive arrow_kind :=
  | KBoolean | KInt8 | KInt16 | KInt32 | KInt64 | KFloat32 | KFloat64
  | KString | KBinary | KFixedSizeBinary.

#[export] Instance arrow_kind_eq_dec : EqDecision arrow_kind.
Proof. solve_decision. Defined.

(** [arrow.DataType]: the kind, with its byte width for the fixed-size binaries. *)
Inductive arrow_type :=
  | Primitive (k : arrow_kind)
  | FixedSizeBinaryType (ByteWidth : Z).

Definition kind_of (t : arrow_type) : arrow_kind :=
  match t with Primitive k => k | FixedSizeBinaryType _ => KFixedSizeBinary end.

(** A builder has the type that it was made with.  Appending may panic. *)
Class Arrow (A B : Type) := {
  a_kind : A → arrow_kind;
  a_Len : A → Z;
  a_IsNull : A → Z → bool;
  a_Value : A → Z → any;
  b_type : B → arrow_type;
  b_AppendNull : B → B;
  b_Append : B → any → res B;
  b_NewArray : B → A;
}.
Definition b_kind {A B} `{Arrow A B} (b : B) : arrow_kind := kind_of (b_type b).

(** The value that a builder of kind [k] takes. *)
Definition kind_value (k : arrow_kind) (v : any) : bool :=
  match k, v with
  | KBoolean, VBool _ | KInt8, VInt8 _ | KInt16, VInt16 _ | KInt32, VInt32 _
  | KInt64, VInt64 _ | KFloat32, VFloat32 _ | KFloat64, VFloat64 _ | KString, VString _
  | KBinary, VBytes _ | KFixedSizeBinary, VBytes _ => true
  | _, _ => false
  end.

(** A value has the byte width of a fixed-size builder. *)
Definition fits (t : arrow_type) (v : any) : Prop :=
  match t, v with FixedSizeBinaryType w, VBytes bs => zlen bs = w | _, _ => True end.
#[export] Instance fits_dec t v : Decision (fits t v).
Proof. destruct t, v; simpl; apply _. Defined.

(** The documented behaviour of builders: what was appended, null or not, is found
    in the finished array at its position; a fixed-size builder panics on bytes of
    another width.  [b_items] are the elements so far. *)
Class ArrowLaws (A B : Type) `{Arrow A B} := {
  b_items : B → list (option any);
  b_items_AppendNull b : b_items (b_AppendNull b) = b_items b ++ [None];
  b_type_AppendNull b : b_type (b_AppendNull b) = b_type b;
  b_Append_fits b v : kind_value (b_kind b) v = true → fits (b_type b) v →
    ∃ b', b_Append b v = Ok b' ∧ b_type b' = b_type b ∧ b_items b' = b_items b ++ [Some v];
  b_Append_width b v : kind_value (b_kind b) v = true → ¬ fits (b_type b) v →
    ∃ why, b_Append b v = Panic why;
  a_kind_NewArray b : a_kind (b_NewArray b) = kind_of (b_type b);
  a_Len_NewArray b : a_Len (b_NewArray b) = zlen (b_items b);
  a_IsNull_NewArray b i x : b_items b !! i = Some x →
    a_IsNull (b_NewArray b) (Z.of_nat i) = bool_decide (x = None);
  a_Value_NewArray b i v : b_items b !! i = Some (Some v) →
    a_Value (b_NewArray b) (Z.of_nat i) = v;
}.

(** A [*schemapb.ScalarField] value is carried as [VScalarField bs] for some
    representation [bs]; the codec maps it to and from wire bytes. *)
Class ScalarFieldProto := {
  scalar_Unmarshal : list byte → res (list byte);
  scalar_Marshal : list byte → res (list byte);
}.
Class ScalarFieldProtoLaws `{ScalarFieldProto} :=
  scalar_Unmarshal_Marshal m bs : scalar_Marshal m = Ok bs → scalar_Unmarshal bs = Ok m.

(** ** Half-precision vectors *)
Fixpoint chunks2 (dim : nat) (b : list byte) : list Z :=
  match dim with
  | O => []
  | S dim => le_get (take 2 b) :: chunks2 dim (drop 2 b)
  end.

Definition Bytes2Float16 (b : list byte) : list Z := chunks2 (length b / 2) b.

(** [math.Float32frombits(uint32(u16) << 16)]. *)
Definition BFloat16Bytes2Float32 (b : list byte) : list Z :=
  map (λ u, uint32 (Z.shiftl u 16)) (chunks2 (length b / 2) b).

Section serde.
Context {A B : Type} `{Arrow A B} `{ScalarFieldProto}.

(** [Deserialize] returns a value and [ok]; the value is nil when [ok] is false, so
    the pair is an [option].  [Serialize] returns the builder and [ok], or panics. *)
Record SerdeEntry := SE {
  ArrowType : Z → arrow_type;
  Deserialize : A → Z → option any;
  Serialize : B → any → res (B * bool);
}.

(** [if a.IsNull(i) { return nil, true }], then the assertion on the array type and
    the bounds check. *)
Definition deserialize_as (k : arrow_kind) (f : any → option any) (a : A) (i : Z) : option any :=
  if a_IsNull a i then Some VNil
  else if bool_decide (a_kind a = k) && bool_decide (i < a_Len a) then f (a_Value a i)
  else None.

Definition serialize_as (k : arrow_kind) (f : any → option any) (b : B) (v : any) : res (B * bool) :=
  match v with
  | VNil => Ok (b_AppendNull b, true)
  | _ =>
      if bool_decide (b_kind b = k) then
        match f v with Some w => b' ← b_Append b w; Ok (b', true) | None => Ok (b, false) end
      else Ok (b, false)
  end.

(** The assertion on the dynamic type of the value. *)
Definition assert_kind (k : arrow_kind) (v : any) : option any :=
  if kind_value k v then Some v else None.

Definition primitiveEntry (k : arrow_kind) : SerdeEntry :=
  SE (λ _, Primitive k) (deserialize_as k Some) (serialize_as k (assert_kind k)).

Definition stringEntry : SerdeEntry := primitiveEntry KString.

Definition marshal_scalar (v : any) : option any :=
  match v with
  | VScalarField m => match scalar_Marshal m with Ok bs => Some (VBytes bs) | _ => None end
  | _ => None
  end.

Definition eagerArrayEntry : SerdeEntry :=
  SE (λ _, Primitive KBinary)
    (deserialize_as KBinary (λ v,
       match v with
       | VBytes bs =>
           match scalar_Unmarshal bs with Ok m => Some (VScalarField m) | _ => None end
       | _ => None
       end))
    (serialize_as KBinary marshal_scalar).

Definition byteEntry : SerdeEntry :=
  SE (λ _, Primitive KBinary)
    (deserialize_as KBinary Some)
    (serialize_as KBinary (λ v, match v with VBytes _ => Some v | _ => marshal_scalar v end)).

Definition fixedSizeDeserializer : A → Z → option any := deserialize_as KFixedSizeBinary Some.
Definition fixedSizeSerializer : B → any → res (B * bool) :=
  serialize_as KFixedSizeBinary (assert_kind KFixedSizeBinary).

Definition binaryVectorEntry : SerdeEntry :=
  SE (λ i, FixedSizeBinaryType (Z.quot (int64 (i + 7)) 8))
    fixedSizeDeserializer fixedSizeSerializer.

Definition float16VectorEntry : SerdeEntry :=
  SE (λ i, FixedSizeBinaryType (int64 (i * 2)))
    (deserialize_as KFixedSizeBinary (λ v,
       match v with VBytes raw => Some (VFloat16s (Bytes2Float16 raw)) | _ => None end))
    fixedSizeSerializer.

Definition bfloat16VectorEntry : SerdeEntry :=
  SE (λ i, FixedSizeBinaryType (int64 (i * 2)))
    (deserialize_as KFixedSizeBinary (λ v,
       match v with VBytes raw => Some (VFloat32s (BFloat16Bytes2Float32 raw)) | _ => None end))
    fixedSizeSerializer.

(** [arrow.Float32Traits.CastFromBytes] reads the bytes as [float32]s in place; the
    serialiser puts the bits of each element, little endian. *)
Definition floatVectorEntry : SerdeEntry :=
  SE (λ i, FixedSizeBinaryType (int64 (i * 4)))
    (deserialize_as KFixedSizeBinary (λ v,
       match v with VBytes raw => Some (VFloat32s (float_vector raw)) | _ => None end))
    (serialize_as KFixedSizeBinary (λ v,
       match v with VFloat32s vv => Some (VBytes (concat (map (le_put 4) vv))) | _ => None end)).

Definition SerdeMap (t : Z) : option SerdeEntry :=
  if bool_decide (t = DataType_Bool) then Some (primitiveEntry KBoolean)
  else if bool_decide (t = DataType_Int8) then Some (primitiveEntry KInt8)
  else if bool_decide (t = DataType_Int16) then Some (primitiveEntry KInt16)
  else if bool_decide (t = DataType_Int32) then Some (primitiveEntry KInt32)
  else if bool_decide (t = DataType_Int64) then Some (primitiveEntry KInt64)
  else if bool_decide (t = DataType_Float) then Some (primitiveEntry KFloat32)
  else if bool_decide (t = DataType_Double) then Some (primitiveEntry KFloat64)
  else if bool_decide (t = DataType_VarChar) then Some stringEntry
  else if bool_decide (t = DataType_String) then Some stringEntry
  else if bool_decide (t = DataType_Array) then Some eagerArrayEntry
  else if bool_decide (t = DataType_JSON) then Some byteEntry
  else if bool_decide (t = DataType_BinaryVector) then Some binaryVectorEntry
  else if bool_decide (t = DataType_Float16Vector) then Some float16VectorEntry
  else if bool_decide (t = DataType_BFloat16Vector) then Some bfloat16VectorEntry
  else if bool_decide (t = DataType_FloatVector) then Some floatVectorEntry
  else if bool_decide (t = DataType_SparseFloatVector) then Some byteEntry
  else None.

(** [storage.DeserializeItem]: a nil array panics. *)
Definition DeserializeItem (arr : option A) (dataType : Z) (idx : Z) : res (option any) :=
  match SerdeMap dataType with
  | None => Ok None
  | Some entry =>
      match arr with
      | Some a => Ok (Deserialize entry a idx)
      | None => Panic "invalid memory address or nil pointer dereference"
      end
  end.
End serde.
Arguments SerdeEntry : clear implicits.

(** ** Properties *)
Lemma chunks_concat n dim (chunks : nat → list byte → list Z) vs rest :
  (∀ b, chunks O b = []) →
  (∀ d b, chunks (S d) b = le_get (take n b) :: chunks d (drop n b)) →
  dim = length vs → Forall (in_u (8 * Z.of_nat n)) vs →
  chunks dim (concat (map (le_put n) vs) ++ rest) = vs.
Proof.
  intros H0 HS -> Hv. induction Hv as [|v vs Hv _ IH]; [apply H0|].
  simpl. rewrite HS, <-app_assoc.
  pose proof (length_le_put n v) as Hl.
  rewrite take_app_length', drop_app_length', le_get_put, IH by done. f_equal. by apply wrapu_id.
Qed.

Lemma length_concat_le_put n vs : length (concat (map (le_put n) vs)) = (length vs * n)%nat.
Proof. induction vs; simpl; rewrite ?length_app, ?length_le_put; lia. Qed.

Lemma float_vector_bits vs :
  Forall (in_u 32) vs → float_vector (concat (map (le_put 4) vs)) = vs.
Proof.
  intros Hv. unfold float_vector. rewrite <-(app_nil_r (concat _)) at 2.
  apply (chunks_concat 4); [done..| |done].
  rewrite length_concat_le_put. by apply Nat.div_mul.
Qed.

(** Decoding the little-endian bytes of [Float16] bits gives the
    bits back, and decoding those of [BFloat16] bits gives the [float32]s whose upper
    half they are; an odd trailing byte is ignored. *)
Theorem half_floats_decode vs (odd : list byte) :
  Forall (in_u 16) vs → (length odd < 2)%nat →
  Bytes2Float16 (concat (map (le_put 2) vs) ++ odd) = vs
  ∧ BFloat16Bytes2Float32 (concat (map (le_put 2) vs) ++ odd) = map (λ u, u * 2 ^ 16) vs.
Proof.
  intros Hv Ho.
  assert (chunks2 (length (concat (map (le_put 2) vs) ++ odd) / 2)
            (concat (map (le_put 2) vs) ++ odd) = vs) as Hc.
  { apply (chunks_concat 2); [done..| |done].
    rewrite length_app, length_concat_le_put, Nat.div_add_l by lia.
    rewrite Nat.div_small by done. lia. }
  unfold Bytes2Float16, BFloat16Bytes2Float32. rewrite Hc. split; [done|].
  apply map_ext_in. intros u Hu. rewrite Z.shiftl_mul_pow2 by lia. apply wrapu_id.
  rewrite Forall_forall in Hv. apply Hv in Hu. unfold in_u in *. lia.
Qed.

#[local] Arguments le_put : simpl never.

Section serde_properties.
Context {A B : Type} `{ArrowLaws A B} `{ScalarFieldProtoLaws}.

(** The table by Go types: the builder a data type needs, the element that a value
    becomes in it ([None]: not accepted), and the value read back. *)
Definition serde_kind (t : Z) : arrow_kind :=
  match t with
  | 1 => KBoolean | 2 => KInt8 | 3 => KInt16 | 4 => KInt32 | 5 => KInt64
  | 10 => KFloat32 | 11 => KFloat64 | 20 | 21 => KString
  | 22 | 23 | 104 => KBinary
  | _ => KFixedSizeBinary
  end.

Definition serde_stored (t : Z) (v : any) : option any :=
  let on ts := if bool_decide (t ∈ ts) then Some v else None in
  match v with
  | VBool _ => on [DataType_Bool]
  | VInt8 _ => on [DataType_Int8]
  | VInt16 _ => on [DataType_Int16]
  | VInt32 _ => on [DataType_Int32]
  | VInt64 _ => on [DataType_Int64]
  | VFloat32 _ => on [DataType_Float]
  | VFloat64 _ => on [DataType_Double]
  | VString _ => on [DataType_VarChar; DataType_String]
  | VBytes _ => on [DataType_JSON; DataType_SparseFloatVector; DataType_BinaryVector;
                    DataType_Float16Vector; DataType_BFloat16Vector]
  | VScalarField _ =>
      if bool_decide (t ∈ [DataType_Array; DataType_JSON; DataType_SparseFloatVector])
      then marshal_scalar v else None
  | VFloat32s vs =>
      if bool_decide (t = DataType_FloatVector)
      then Some (VBytes (concat (map (le_put 4) vs))) else None
  | _ => None
  end.

(** The 16-bit numbers of some bytes: the bytes at [2 i] and [2 i + 1], the lower one first. *)
Definition byte_at (raw : list byte) (i : nat) : Z := Z_of_byte (nth i raw x00).
Definition halves (raw : list byte) : list Z :=
  map (λ i, byte_at raw (2 * i) + 256 * byte_at raw (2 * i + 1)) (seq 0 (length raw / 2)).

(** A [Float16] is given as its bits; a [BFloat16] as the bits of the [float32] of which it
    is the upper half. *)
Definition serde_view (t : Z) (v : any) : any :=
  match v with
  | VBytes raw =>
      if bool_decide (t = DataType_Float16Vector) then VFloat16s (halves raw)
      else if bool_decide (t = DataType_BFloat16Vector) then VFloat32s (map (λ u, u * 65536) (halves raw))
      else v
  | VScalarField _ =>
      if bool_decide (t = DataType_Array) then v else default VNil (marshal_scalar v)
  | _ => v
  end.

(** Elements of [float32] vectors are 32-bit patterns. *)
Definition any_wf (v : any) : Prop :=
  match v with VFloat32s vs => Forall (in_u 32) vs | _ => True end.

Lemma chunks2_halves n raw :
  (2 * n ≤ length raw)%nat →
  chunks2 n raw
  = map (λ i, byte_at raw (2 * i) + 256 * byte_at raw (2 * i + 1)) (seq 0 n).
Proof.
  revert raw. induction n as [|n IH]; intros raw Hn; [done|].
  destruct raw as [|b1 [|b2 raw]]; [simpl in Hn; lia..|]. cbn [chunks2 seq map].
  rewrite skipn_cons, skipn_cons, skipn_O, IH by (simpl in Hn; lia).
  f_equal.
  { change (Z_of_byte b1 + 256 * (Z_of_byte b2 + 256 * 0) = Z_of_byte b1 + 256 * Z_of_byte b2). lia. }
  rewrite <-seq_shift, map_map. apply map_ext. intros i.
  replace (2 * S i)%nat with (S (S (2 * i))) by lia. done.
Qed.

Lemma Bytes2Float16_halves raw : Bytes2Float16 raw = halves raw.
Proof. apply chunks2_halves. pose proof (Nat.Div0.mul_div_le (length raw) 2). lia. Qed.

Lemma BFloat16_halves raw : BFloat16Bytes2Float32 raw = map (λ u, u * 65536) (halves raw).
Proof.
  unfold BFloat16Bytes2Float32. fold (Bytes2Float16 raw). rewrite Bytes2Float16_halves. unfold halves.
  rewrite !map_map. apply map_ext. intros i. rewrite Z.shiftl_mul_pow2 by lia. apply wrapu_id.
  pose proof (Z_of_byte_range (nth (2 * i) raw x00)). pose proof (Z_of_byte_range (nth (2 * i + 1) raw x00)).
  unfold in_u, byte_at. lia.
Qed.

Lemma serialize_as_ok k f b v w :
  v ≠ VNil → b_kind b = k → f v = Some w → kind_value k w = true →
  if bool_decide (fits (b_type b) w) then
    ∃ b', serialize_as k f b v = Ok (b', true) ∧ b_items b' = b_items b ++ [Some w]
      ∧ ∀ g : any → option any, deserialize_as k g (b_NewArray b') (zlen (b_items b)) = g w
  else ∃ why, serialize_as k f b v = Panic why.
Proof.
  intros Hv Hk Hf Hw. assert (serialize_as k f b v = b' ← b_Append b w; Ok (b', true)) as ->.
  { unfold serialize_as. rewrite bool_decide_true, Hf by done. by destruct v. }
  subst k. case_bool_decide as Hfit; [|destruct (b_Append_width b w) as [why ->]; [done..|]; by eexists].
  destruct (b_Append_fits b w) as (b' & -> & Ht & Hi); [done..|]. exists b'. split_and!; [done..|].
  intros g. assert (b_items b' !! length (b_items b) = Some (Some w)) as Hl.
  { rewrite Hi. by rewrite lookup_app_r, Nat.sub_diag by lia. }
  unfold deserialize_as, zlen.
  rewrite (a_IsNull_NewArray _ _ _ Hl), bool_decide_false by done.
  rewrite (a_Value_NewArray _ _ _ Hl), a_kind_NewArray, Ht, bool_decide_true by done.
  rewrite a_Len_NewArray, bool_decide_true; [done|].
  apply lookup_lt_Some in Hl. unfold zlen. lia.
Qed.

Lemma serialize_as_nil k f b :
  serialize_as k f b VNil = Ok (b_AppendNull b, true)
  ∧ ∀ k' (g : any → option any),
      deserialize_as k' g (b_NewArray (b_AppendNull b)) (zlen (b_items b)) = Some VNil.
Proof.
  split; [done|]. intros k' g. unfold deserialize_as, zlen.
  rewrite (a_IsNull_NewArray _ _ None); [done|].
  by rewrite b_items_AppendNull, lookup_app_r, Nat.sub_diag by lia.
Qed.

(** Evaluates the decidable propositions on data types. *)
Ltac decide_types :=
  repeat match goal with
  | H : context [bool_decide ?P] |- _ =>
      let b := eval vm_compute in (bool_decide P) in change (bool_decide P) with b in H
  | |- context [bool_decide ?P] =>
      let b := eval vm_compute in (bool_decide P) in change (bool_decide P) with b
  end.

(** Each entry of the table is a pair of conversions around the typed access. *)
Lemma SerdeMap_shape t (e : SerdeEntry A B) :
  SerdeMap t = Some e →
  ∃ g f, Deserialize e = deserialize_as (serde_kind t) g
    ∧ Serialize e = serialize_as (serde_kind t) f
    ∧ (∀ v, v ≠ VNil → f v = serde_stored t v)
    ∧ (∀ v w, any_wf v → serde_stored t v = Some w →
         kind_value (serde_kind t) w = true ∧ g w = Some (serde_view t v)).
Proof.
  unfold SerdeMap.
  repeat (case_bool_decide; [intros [= <-]; subst t; do 2 eexists;
    split; [reflexivity|]; split; [reflexivity|]; split; [by intros []|];
    intros v w Hwf Hs; destruct v; simpl in *; decide_types; simplify_eq; try done | ]);
    [..|done].
  - destruct (scalar_Marshal bs) as [raw| |] eqn:E; simplify_eq. split; [done|].
    by rewrite (scalar_Unmarshal_Marshal _ _ E).
  - by destruct (scalar_Marshal bs); simplify_eq.
  - by rewrite Bytes2Float16_halves.
  - by rewrite BFloat16_halves.
  - by rewrite float_vector_bits.
  - by destruct (scalar_Marshal bs); simplify_eq.
Qed.

(** C36 (roundtrip): for every data type of the table and a builder of its kind, nil
    becomes a null and is read back as nil. A value of the right Go type that has the byte
    width of the builder, or goes to one without a fixed width, is appended as one element,
    and reading that element of the finished array gives the value back: for the
    half-precision vectors decoded, every two bytes as one number, the lower one first,
    and moved to the upper half of a [float32] for [BFloat16]; and a scalar field stored as
    JSON as its encoding. Bytes of another width panic in a builder of fixed width. Any
    other value is refused and leaves the builder alone. *)
Theorem Serialize_Deserialize t (e : SerdeEntry A B) b v :
  SerdeMap t = Some e → b_kind b = serde_kind t → any_wf v →
  if bool_decide (v = VNil) then
    Serialize e b v = Ok (b_AppendNull b, true)
    ∧ Deserialize e (b_NewArray (b_AppendNull b)) (zlen (b_items b)) = Some VNil
  else match serde_stored t v with
       | Some w =>
           if bool_decide (fits (b_type b) w) then
             ∃ b', Serialize e b v = Ok (b', true) ∧ b_items b' = b_items b ++ [Some w]
               ∧ Deserialize e (b_NewArray b') (zlen (b_items b)) = Some (serde_view t v)
           else ∃ why, Serialize e b v = Panic why
       | None => Serialize e b v = Ok (b, false)
       end.
Proof.
  intros (g & f & Hd & Hs & Hf & Hg)%SerdeMap_shape Hk Hwf. rewrite Hd, Hs. case_bool_decide as Hv.
  { subst v. destruct (serialize_as_nil (serde_kind t) f b) as [-> Hn]. by rewrite Hn. }
  destruct (serde_stored t v) as [w|] eqn:Hw.
  - destruct (Hg v w) as [Hkv <-]; [done..|].
    pose proof (serialize_as_ok (serde_kind t) f b v w Hv Hk ltac:(by rewrite Hf) Hkv) as Hok.
    case_bool_decide; [|done]. destruct Hok as (b' & ? & ? & Hn). exists b'. by rewrite Hn.
  - unfold serialize_as. rewrite bool_decide_true, Hf, Hw by done. by destruct v.
Qed.

(** Whatever the entry, a non-nil value is refused by a builder of
    another kind, an element is refused in an array of another kind or beyond its
    end, and a null is read as nil before either check. *)
Theorem Serde_wrong_type t (e : SerdeEntry A B) b v a i :
  SerdeMap t = Some e →
  (b_kind b ≠ serde_kind t → v ≠ VNil → Serialize e b v = Ok (b, false))
  ∧ (a_IsNull a i = true → Deserialize e a i = Some VNil)
  ∧ (a_IsNull a i = false → a_kind a ≠ serde_kind t ∨ a_Len a ≤ i → Deserialize e a i = None).
Proof.
  intros (g & f & Hd & Hs & _)%SerdeMap_shape. rewrite Hd, Hs.
  unfold serialize_as, deserialize_as. split_and!.
  - intros Hk Hv. rewrite bool_decide_false by done. by destruct v.
  - by intros ->.
  - intros -> [Hk|Hi]; [by rewrite bool_decide_false|].
    by rewrite (bool_decide_false (i < _)), andb_false_r by lia.
Qed.
End serde_properties.

(** ** A concrete arrow: an array is its type and its elements. *)
#[export] Instance list_arrow : Arrow (arrow_type * list (option any)) (arrow_type * list (option any)) := {
  a_kind a := kind_of a.1;
  a_Len a := zlen a.2;
  a_IsNull a i := bool_decide (a.2 !! Z.to_nat i = Some None);
  a_Value a i := default VNil (default None (a.2 !! Z.to_nat i));
  b_type b := b.1;
  b_AppendNull b := (b.1, b.2 ++ [None]);
  b_Append b v := if bool_decide (fits b.1 v) then Ok (b.1, b.2 ++ [Some v]) else Panic "len(v) != dtype.ByteWidth";
  b_NewArray b := b;
}.

#[export] Instance list_arrow_laws :
  ArrowLaws (arrow_type * list (option any)) (arrow_type * list (option any)).
Proof.
  refine {| b_items b := b.2 |}; try done.
  - intros b v _ Hf. simpl. rewrite bool_decide_true by done. by eexists.
  - intros b v _ Hf. simpl. rewrite bool_decide_false by done. by eexists.
  - intros b i x Hx. simpl. rewrite Nat2Z.id, Hx. apply bool_decide_ext. split; congruence.
  - intros b i x Hx. simpl. by rewrite Nat2Z.id, Hx.
Defined.

#[export] Instance id_scalar : ScalarFieldProto := {
  scalar_Unmarshal := Ok; scalar_Marshal := Ok
}.
#[export] Instance id_scalar_laws : ScalarFieldProtoLaws.
Proof. intros m bs [= ->]. done. Qed.

Lemma half_floats_decode_witness :
  BFloat16Bytes2Float32 (concat (map (le_put 2) [0x3f80; 0x4000]) ++ [x07])
  = [0x3f800000; 0x40000000].
Proof.
  destruct (half_floats_decode [0x3f80; 0x4000] [x07]) as [_ H];
    [repeat constructor; vm_compute; intuition congruence|simpl; lia|]. exact H.
Defined.

(** A vector of [BFloat16] of the width of the builder is decoded; a longer one panics. *)
Lemma Serialize_Deserialize_witness :
  ∃ e : SerdeEntry (arrow_type * list (option any)) (arrow_type * list (option any)),
    SerdeMap DataType_BFloat16Vector = Some e
    ∧ (∃ b', Serialize e (FixedSizeBinaryType 4, []) (VBytes [x80; x3f; x00; x40]) = Ok (b', true)
         ∧ Deserialize e (b_NewArray b') 0 = Some (VFloat32s [0x3f800000; 0x40000000]))
    ∧ ∃ why, Serialize e (FixedSizeBinaryType 4, []) (VBytes [x80; x3f]) = Panic why.
Proof.
  exists bfloat16VectorEntry. split; [reflexivity|]. split.
  - destruct (Serialize_Deserialize DataType_BFloat16Vector bfloat16VectorEntry
      (FixedSizeBinaryType 4, [] : list (option any)) (VBytes [x80; x3f; x00; x40])) as (b' & Hs & _ & Hd);
      [reflexivity..|]. exists b'. split; [exact Hs|]. etrans; [exact Hd|]. vm_compute. reflexivity.
  - exact (Serialize_Deserialize DataType_BFloat16Vector bfloat16VectorEntry
      (FixedSizeBinaryType 4, [] : list (option any)) (VBytes [x80; x3f]) eq_refl eq_refl I).
Defined.

Lemma Serde_wrong_type_witness :
  ∃ e : SerdeEntry (arrow_type * list (option any)) (arrow_type * list (option any)),
    SerdeMap DataType_Int64 = Some e
    ∧ Serialize e (Primitive KInt8, []) (VInt64 1) = Ok ((Primitive KInt8, []), false)
    ∧ Deserialize e (Primitive KInt64, [Some (VInt64 1)]) 1 = None.
Proof.
  exists (primitiveEntry KInt64). split; [reflexivity|].
  destruct (Serde_wrong_type DataType_Int64 (primitiveEntry KInt64) (Primitive KInt8, [] : list (option any))
    (VInt64 1) (Primitive KInt64, [Some (VInt64 1)]) 1) as (Hb & _ & Ha); [reflexivity|].
  split; [apply Hb; discriminate|]. apply Ha; [reflexivity|]. right. vm_compute. discriminate.
Defined.
