(* ===== verification/SegmentReader.v ===== *)
(** * Reading the rows of a segment

    Models [storage/common/binlog_selector.go], [batch_iterator.go],
    [record_batch.go], [storage/binlog/reader.go], [storage/binlog/v2/binlog_reader.go],
    [NextRecordReader] of the v1 reader and [storage/segment_reader.go]: which files
    make up a batch of a segment, and how their columns are composed into record
    batches.

    Arrow's parquet reader is the interface [ArrowFile].  Go ranges over a map in an
    unspecified order: the functions that do take the order from [MapOrder].  A value
    with mutable state is passed and returned; where a call fails the program drops
    the value, so an error carries no state. *)

From S2P Require Export Serde DeltaData.

(** ** Segments and selectors *)
Record FieldBinlog := FB { fb_FieldID : Z; fb_Binlogs : list string }.

Record Segment := Seg {
  seg_ID : Z;
  seg_StorageVersion : Z;
  seg_Binlogs : list FieldBinlog;
}.

(** The three implementations of the interface [BinlogSelector]. *)
Inductive BinlogSelector :=
  | FieldIDSelector (set : gset Z)
  | AllSelector
  | MatchingWideColumnSelector (set : gset Z).

Definition NewFieldIDSelector (selectIDs : list Z) : BinlogSelector :=
  FieldIDSelector (list_to_set selectIDs).
Definition NewAllSelector : BinlogSelector := AllSelector.
Definition NewMatchingWideColumnSelector (selectIDs : list Z) : BinlogSelector :=
  MatchingWideColumnSelector (list_to_set selectIDs).

(** Whether the selector skips the binlogs of a field. *)
Definition selector_skips (s : BinlogSelector) (fieldID : Z) : bool :=
  match s with
  | FieldIDSelector set => bool_decide (fieldID ∉ set)
  | AllSelector => false
  | MatchingWideColumnSelector set => bool_decide (fieldID >= 100) && bool_decide (fieldID ∉ set)
  end.

(** One round of the loop of [SelectBinlogs]. *)
Definition select_binlog (s : BinlogSelector) (batchIdx : Z) (binlog : FieldBinlog)
    (result : gmap Z string) : res (gmap Z string) :=
  if bool_decide (batchIdx >= zlen (fb_Binlogs binlog)) then Err EOF
  else if selector_skips s (fb_FieldID binlog) then Ok result
  else path ← go_index (fb_Binlogs binlog) batchIdx; Ok (<[fb_FieldID binlog := path]> result).

Definition SelectBinlogs (s : BinlogSelector) (binlogs : list FieldBinlog) (batchIdx : Z)
    : res (gmap Z string) :=
  match s, binlogs with
  | (FieldIDSelector _ | MatchingWideColumnSelector _), [] => Err EOF
  | _, _ => foldM (select_binlog s batchIdx) binlogs ∅
  end.

(** ** Batches *)
Record BatchInfo := BI {
  bi_SegmentID : Z;
  BatchIdx : Z;
  Output : gmap Z (list byte);          (* a file is its bytes *)
  TargetBinlogs : gmap Z string;
}.

Record SegmentBatchIterator := SBI {
  sbi_segment : Segment;
  sbi_selector : BinlogSelector;
  sbi_translator : string → res (list byte);
  sbi_currentBatch : Z;
}.

Definition NewSegmentBatchIterator (segment : Segment) (selector : BinlogSelector)
    (translator : string → res (list byte)) : SegmentBatchIterator :=
  SBI segment selector translator 0.

Section batches.
Context `{MapOrder}.

Definition open_target (translator : string → res (list byte)) (fp : Z * string)
    (output : gmap Z (list byte)) : res (gmap Z (list byte)) :=
  rs ← translator fp.2; Ok (<[fp.1 := rs]> output).

Definition NextBatch (sbi : SegmentBatchIterator) : res (BatchInfo * SegmentBatchIterator) :=
  let cur := sbi_currentBatch sbi in
  targetFields ← SelectBinlogs (sbi_selector sbi) (seg_Binlogs (sbi_segment sbi)) cur;
  output ← foldM (open_target (sbi_translator sbi)) (range targetFields) ∅;
  Ok (BI (seg_ID (sbi_segment sbi)) cur output targetFields,
      SBI (sbi_segment sbi) (sbi_selector sbi) (sbi_translator sbi) (int64 (cur + 1))).
End batches.

(** ** Binlog readers

    An arrow record is the list of its columns; a record reader is the list of the
    records it still delivers. *)
Class ArrowFile (FA A : Type) := {
  OpenArrow : list byte → res FA;               (* [file.NewParquetReader], [NewFileReader] *)
  SchemaFieldIDs : FA → res (list (option string));    (* field metadata "PARQUET:field_id" *)
  ArrowRowGroups : FA → Z;
  GetRecordReader : FA → option (list Z) → option (list Z) → res (list (list A));
}.

Section readers.
Context {J FA A : Type} `{JsonMap J} `{ArrowFile FA A}.

(** The v2 reader. *)
Record BinlogReaderV2 := BR2 {
  arrReader : FA;
  v2_mapping : gmap Z Z;                (* field id to column index *)
  selectedColumn : option (list Z);     (* nil before [SelectFields] *)
  rgIndex : Z;
}.

Fixpoint v2_field_ids (idx : Z) (fields : list (option string)) (mapping : gmap Z Z)
    : res (gmap Z Z) :=
  match fields with
  | [] => Ok mapping
  | None :: _ => Err (Errorf "pq field schema does not contain stv2 field id metadata")
  | Some v :: fields =>
      match ParseInt v with
      | None => Err (Errorf "pq field schema does not contain stv2 field id metadata")
      | Some fieldID => v2_field_ids (idx + 1) fields (<[fieldID := idx]> mapping)
      end
  end.

Definition NewBinlogReaderV2 (f : list byte) : res BinlogReaderV2 :=
  arrReader ← OpenArrow f;
  fields ← SchemaFieldIDs arrReader;
  mapping ← v2_field_ids 0 fields ∅;
  Ok (BR2 arrReader mapping None 0).

(** The reader moves on to the next row group even when this one fails. *)
Definition V2_NextRecordReader (r : BinlogReaderV2) : res (list (list A) * BinlogReaderV2) :=
  if bool_decide (rgIndex r >= ArrowRowGroups (arrReader r)) then Err EOF
  else
    rr ← GetRecordReader (arrReader r) (selectedColumn r) (Some [rgIndex r]);
    Ok (rr, BR2 (arrReader r) (v2_mapping r) (selectedColumn r) (int64 (rgIndex r + 1))).

(** [outputFields] of [SelectFields]: column index to the field it was selected for. *)
Definition select_outputFields (mapping : gmap Z Z) (fields : list Z) : gmap Z Z :=
  foldl (λ m v, match mapping !! v with Some colIdx => <[colIdx := v]> m | None => m end) ∅ fields.
Definition select_columns (mapping : gmap Z Z) (fields : list Z) : list Z :=
  omap (λ v, mapping !! v) fields.

(** A missing entry of [outputFields] reads as field 0. *)
Definition V2_SelectFields (fields : list Z) (r : BinlogReaderV2) : BinlogReaderV2 :=
  let outputFields := select_outputFields (v2_mapping r) fields in
  let selected := select_columns (v2_mapping r) fields in
  let filteredMap :=
    foldl (λ m ic, <[default 0 (outputFields !! ic.2) := ic.1]> m) ∅
      (zip (seqZ 0 (zlen selected)) selected) in
  BR2 (arrReader r) filteredMap (Some selected) (rgIndex r).

(** The v1 reader reads one event and delivers all its records. *)
Definition V1_NextRecordReader (r : BinlogReader J) : res (list (list A) * BinlogReader J) :=
  '(data, rest) ← read_payload_bytes (k:=InsertK) (blr_reader r);
  arrowReader ← OpenArrow data;
  rr ← GetRecordReader arrowReader None None;
  Ok (rr, BLR rest (blr_event r)).

(** The interface [binlog.BinlogReader]. *)
Inductive AnyBinlogReader :=
  | ReaderV1 (r : BinlogReader J)
  | ReaderV2 (r : BinlogReaderV2).

Definition AnyNewBinlogReader (storageVersion : Z) (f : list byte) : res AnyBinlogReader :=
  if bool_decide (storageVersion = 0 ∨ storageVersion = 1) then ReaderV1 <$> NewBinlogReader f
  else if bool_decide (storageVersion = 2) then ReaderV2 <$> NewBinlogReaderV2 f
  else Err (Errorf "unsupported storage version").

Definition NextRecordReader (r : AnyBinlogReader) : res (list (list A) * AnyBinlogReader) :=
  match r with
  | ReaderV1 r => prod_map id ReaderV1 <$> V1_NextRecordReader r
  | ReaderV2 r => prod_map id ReaderV2 <$> V2_NextRecordReader r
  end.
Definition AnyMapping (r : AnyBinlogReader) : gmap Z Z :=
  match r with ReaderV1 r => GetMapping r | ReaderV2 r => v2_mapping r end.
Definition SelectFields (fields : list Z) (r : AnyBinlogReader) : AnyBinlogReader :=
  match r with ReaderV1 r => ReaderV1 r | ReaderV2 r => ReaderV2 (V2_SelectFields fields r) end.

(** ** Record batches *)

(** [compositeRecordBatch]: a slot of [recs] that was never set is a nil array. *)
Record RecordBatch := CRB { crb_index : gmap Z Z; crb_recs : list (option A) }.

Definition RB_Column (r : RecordBatch) (i : Z) : res (option A) :=
  match crb_index r !! i with
  | None => Ok None
  | Some idx => go_index (crb_recs r) idx
  end.

(** ** [SegmentBinlogRecordReader] *)
Context {B : Type} `{Arrow A B} `{MapOrder}.

Definition RB_Len (r : RecordBatch) : res Z :=
  match crb_recs r with
  | [] => Ok 0
  | Some a :: _ => Ok (a_Len a)
  | None :: _ => Panic "invalid memory address or nil pointer dereference"
  end.

Record SegmentBinlogRecordReader := SR {
  sr_iterator : SegmentBatchIterator;
  storageVersion : Z;
  outputFields : list Z;
  currentBatch : option BatchInfo;
  brs : list AnyBinlogReader;
  rrs : option (list (list (list A)));         (* nil before the first batch *)
}.

(** The next record reader of every file. *)
Fixpoint next_readers (brs : list AnyBinlogReader)
    : res (list (list (list A)) * list AnyBinlogReader) :=
  match brs with
  | [] => Ok ([], [])
  | br :: brs =>
      '(cr, br') ← NextRecordReader br;
      '(crs, brs') ← next_readers brs;
      Ok (cr :: crs, br' :: brs')
  end.

Definition nextRecordReader (crr : SegmentBinlogRecordReader) : res SegmentBinlogRecordReader :=
  match brs crr with
  | [] => Err EOF
  | _ =>
      '(rrs', brs') ← next_readers (brs crr);
      Ok (SR (sr_iterator crr) (storageVersion crr) (outputFields crr) (currentBatch crr)
            brs' (Some rrs'))
  end.

(** Opening one file of a batch; a file without any of the output fields is skipped. *)
Definition open_reader (version : Z) (output : list Z) (f : list byte)
    (st : list (list (list A)) * list AnyBinlogReader)
    : res (list (list (list A)) * list AnyBinlogReader) :=
  reader ← AnyNewBinlogReader version f;
  if existsb (λ o, bool_decide (is_Some (AnyMapping reader !! o))) output then
    let reader := SelectFields output reader in
    '(rr, reader) ← NextRecordReader reader;
    Ok (st.1 ++ [rr], st.2 ++ [reader])
  else Ok st.

Definition open_batch (crr : SegmentBinlogRecordReader) : res SegmentBinlogRecordReader :=
  '(batchInfo, it) ← NextBatch (sr_iterator crr);
  '(rrs', brs') ← foldM (open_reader (storageVersion crr) (outputFields crr))
                    (map snd (range (Output batchInfo))) ([], []);
  Ok (SR it (storageVersion crr) (outputFields crr) (Some batchInfo) brs' (Some rrs')).

Definition iterateNext (crr : SegmentBinlogRecordReader) : res SegmentBinlogRecordReader :=
  match nextRecordReader crr with
  | Ok crr' => Ok crr'
  | Err e => if bool_decide (e = EOF) then open_batch crr else Err e
  | Panic w => Panic w
  end.

(** Placing the output columns of one record: the state is [index], [recs] and
    [recIdx]. *)
Definition place_column (rec : list A) (output : Z) (fi : Z * Z)
    (st : gmap Z Z * list (option A) * Z) : res (gmap Z Z * list (option A) * Z) :=
  let '(index, recs, recIdx) := st in
  if bool_decide (fi.1 = output) then
    col ← go_index rec fi.2;
    if bool_decide (recIdx < zlen recs) then
      Ok (<[fi.1 := recIdx]> index, <[Z.to_nat recIdx := Some col]> recs, recIdx + 1)
    else Panic "index out of range"
  else Ok st.

Definition place_record (outputFields : list Z) (rec : list A) (mapping : gmap Z Z)
    (st : gmap Z Z * list (option A) * Z) : res (gmap Z Z * list (option A) * Z) :=
  foldM (λ fi, foldM (λ output, place_column rec output fi) outputFields) (range mapping) st.

Fixpoint compose_loop (outputFields : list Z) (brs : list AnyBinlogReader)
    (rrs : list (list (list A))) (st : gmap Z Z * list (option A) * Z)
    : res (gmap Z Z * list (option A) * Z * list (list (list A))) :=
  match brs, rrs with
  | [], _ => Ok (st, rrs)
  | _ :: _, [] => Panic "index out of range"
  | br :: brs, rr :: rrs =>
      match rr with
      | [] => Err EOF
      | rec :: rr' =>
          st' ← place_record outputFields rec (AnyMapping br) st;
          '(st'', rrs') ← compose_loop outputFields brs rrs st';
          Ok (st'', rr' :: rrs')
      end
  end.

Definition composeRecord (crr : SegmentBinlogRecordReader)
    : res (RecordBatch * SegmentBinlogRecordReader) :=
  '(index, recs, _, rrs') ←
     compose_loop (outputFields crr) (brs crr) (default [] (rrs crr))
       (∅, replicate (length (outputFields crr)) None, 0);
  Ok (CRB index recs,
      SR (sr_iterator crr) (storageVersion crr) (outputFields crr) (currentBatch crr)
        (brs crr) (Some rrs')).

(** A second [EOF], after the next batch or row group was opened, is returned. *)
Definition SR_Next (crr : SegmentBinlogRecordReader)
    : res (RecordBatch * option BatchInfo * SegmentBinlogRecordReader) :=
  crr ← match rrs crr with None => iterateNext crr | Some _ => Ok crr end;
  '(r, crr) ←
     match composeRecord crr with
     | Err e =>
         if bool_decide (e = EOF) then crr' ← iterateNext crr; composeRecord crr' else Err e
     | r => r
     end;
  Ok (r, currentBatch crr, crr).

Definition NewSegmentReader (segment : Segment) (selectedFields : list Z)
    (translator : string → res (list byte)) : res SegmentBinlogRecordReader :=
  let v := seg_StorageVersion segment in
  binlogSelector ←
    (if bool_decide (v = 0 ∨ v = 1) then Ok (NewFieldIDSelector selectedFields)
     else if bool_decide (v = 2) then Ok (NewMatchingWideColumnSelector selectedFields)
     else Err (Errorf "unsupported storage version"));
  let logIterator := NewSegmentBatchIterator segment binlogSelector translator in
  Ok (SR logIterator v selectedFields None [] None).
End readers.
Arguments BinlogReaderV2 : clear implicits.
Arguments AnyBinlogReader : clear implicits.
Arguments RecordBatch : clear implicits.
Arguments SegmentBinlogRecordReader : clear implicits.

(** ** Selecting the files of a batch *)
Lemma foldM_select_binlog s b binlogs result :
  0 ≤ b →
  if existsb (λ fb, bool_decide (b >= zlen (fb_Binlogs fb))) binlogs
  then foldM (select_binlog s b) binlogs result = Err EOF
  else ∃ result', foldM (select_binlog s b) binlogs result = Ok result' ∧
    (NoDup (map fb_FieldID binlogs) → (∀ fb, fb ∈ binlogs → result !! fb_FieldID fb = None) →
     ∀ f p, result' !! f = Some p ↔
       (∃ fb, fb ∈ binlogs ∧ fb_FieldID fb = f ∧ selector_skips s f = false
              ∧ fb_Binlogs fb !! Z.to_nat b = Some p)
       ∨ result !! f = Some p).
Proof.
  intros Hb. revert result. induction binlogs as [|fb binlogs IH]; intros result.
  { exists result. split; [done|]. set_solver. }
  assert (select_binlog s b fb result =
    if bool_decide (b >= zlen (fb_Binlogs fb)) then Err EOF
    else if selector_skips s (fb_FieldID fb) then Ok result
    else path ← go_index (fb_Binlogs fb) b; Ok (<[fb_FieldID fb := path]> result)) as Hs by done.
  cbn [foldM existsb]. case_bool_decide as Hlen; cbn [orb].
  { by rewrite Hs. }
  destruct (go_index_range (fb_Binlogs fb) b) as [path Hp]; [lia|].
  set (result1 := if selector_skips s (fb_FieldID fb) then result
                  else <[fb_FieldID fb := path]> result).
  assert (select_binlog s b fb result = Ok result1) as ->.
  { rewrite Hs, Hp. unfold result1. by case_match. }
  cbn [mbind res_bind]. specialize (IH result1). destruct (existsb _ binlogs); [done|].
  destruct IH as (result' & Hr & Hl). exists result'. split; [done|].
  intros [Hn Hnd]%list.NoDup_cons Hres f p. apply go_index_Ok in Hp as [_ Hp].
  rewrite Hl; [|done|].
  - unfold result1. setoid_rewrite elem_of_cons. split.
    + intros [(fb' & ? & ?)|Hf]; [eauto 6|]. case_match; [by right|].
      apply lookup_insert_Some in Hf as [[<- <-]|[??]]; [|by right]. left. exists fb. auto.
    + intros [(fb' & [->|?] & <- & Hk & Hp')|Hf]; [|eauto 6|].
      * right. rewrite Hk, lookup_insert_eq. congruence.
      * right. case_match; [done|]. rewrite lookup_insert_ne; [done|].
        intros <-. rewrite Hres in Hf; [done|]. by left.
  - intros fb' Hin. assert (fb_FieldID fb ≠ fb_FieldID fb') as Hne.
    { intros Heq. apply Hn. rewrite Heq. apply list_elem_of_fmap. eauto. }
    unfold result1. case_match; rewrite ?lookup_insert_ne by done; apply Hres; by right.
Qed.

(** A batch exists exactly while every field of the segment, whether
    selected or not, still has a file at its index (and, but for [AllSelector], the
    segment has fields at all); its files are those of the fields the selector does
    not skip. *)
Theorem SelectBinlogs_spec s binlogs b :
  0 ≤ b →
  if existsb (λ fb, bool_decide (b >= zlen (fb_Binlogs fb))) binlogs
     || match s with AllSelector => false | _ => bool_decide (binlogs = []) end
  then SelectBinlogs s binlogs b = Err EOF
  else ∃ result, SelectBinlogs s binlogs b = Ok result ∧
    (NoDup (map fb_FieldID binlogs) → ∀ f p, result !! f = Some p ↔
       ∃ fb, fb ∈ binlogs ∧ fb_FieldID fb = f ∧ selector_skips s f = false
             ∧ fb_Binlogs fb !! Z.to_nat b = Some p).
Proof.
  intros Hb. pose proof (foldM_select_binlog s b binlogs ∅ Hb) as Hf.
  assert (SelectBinlogs s binlogs b =
    if match s with AllSelector => false | _ => bool_decide (binlogs = []) end
    then Err EOF else foldM (select_binlog s b) binlogs ∅) as Heq by (by destruct s, binlogs).
  rewrite Heq. destruct (existsb _ binlogs); simpl.
  - by destruct (match s with AllSelector => _ | _ => _ end).
  - destruct (match s with AllSelector => _ | _ => _ end); [done|].
    destruct Hf as (result & Hr & Hl). exists result. split; [done|]. intros Hnd f p.
    rewrite Hl by done. set_solver.
Qed.

(** ** Selecting the columns of a v2 file *)
Lemma v2_field_ids_inj idx fields mapping mapping' :
  v2_field_ids idx fields mapping = Ok mapping' →
  (∀ f c, mapping !! f = Some c → c < idx) →
  (∀ f g c, mapping !! f = Some c → mapping !! g = Some c → f = g) →
  ∀ f g c, mapping' !! f = Some c → mapping' !! g = Some c → f = g.
Proof.
  revert idx mapping. induction fields as [|[v|] fields IH]; intros idx mapping; simpl.
  - by intros [= <-].
  - case_match; [|done]. intros H' Hlt Hinj. eapply IH; [exact H'| |].
    + intros f c Hc%lookup_insert_Some. destruct Hc as [[<- <-]|[? Hc%Hlt]]; lia.
    + intros f g c Hf%lookup_insert_Some Hg%lookup_insert_Some.
      destruct Hf as [[<- <-]|[? Hf]], Hg as [[<- E]|[? Hg]]; eauto.
      * apply Hlt in Hg. lia.
      * subst. apply Hlt in Hf. lia.
  - done.
Qed.

Lemma select_outputFields_spec (mapping m : gmap Z Z) (fields : list Z) :
  (∀ f g c, mapping !! f = Some c → mapping !! g = Some c → f = g) →
  ∀ f c, f ∈ fields → mapping !! f = Some c →
    foldl (λ m v, match mapping !! v with Some colIdx => <[colIdx := v]> m | None => m end) m fields
      !! c = Some f.
Proof.
  intros Hinj f c Hin Hc. revert m. induction fields as [|v fields IH] using rev_ind; intros m.
  { by apply not_elem_of_nil in Hin. }
  rewrite foldl_app. simpl. apply elem_of_app in Hin as [Hin|Hin%list_elem_of_singleton].
  - specialize (IH Hin m). destruct (mapping !! v) as [c'|] eqn:Hv; [|done].
    apply lookup_insert_Some. destruct (decide (c' = c)) as [->|]; [left|right; done].
    split; [done|]. by apply (Hinj v f c).
  - subst v. rewrite Hc. by apply lookup_insert_eq.
Qed.

(** The loop that numbers the selected columns, with the name [κ c] of column [c]. *)
Lemma foldl_insert_index (κ : Z → Z) cols k (m : gmap Z Z) f i :
  NoDup (map κ cols) →
  foldl (λ m ic, <[κ ic.2 := ic.1]> m) m (zip (seqZ k (zlen cols)) cols) !! f = Some i ↔
  (∃ j c, cols !! j = Some c ∧ κ c = f ∧ i = k + Z.of_nat j)
  ∨ ((f ∉ map κ cols) ∧ m !! f = Some i).
Proof.
  revert k m. induction cols as [|c cols IH]; intros k m; [set_solver|].
  rewrite zlen_cons, seqZ_cons by (pose proof (zlen_nonneg cols); lia).
  replace (Z.pred (zlen cols + 1)) with (zlen cols) by lia.
  simpl. intros [Hn Hnd]%list.NoDup_cons. rewrite IH, elem_of_cons by done. split.
  - intros [(j & c' & ? & ? & ->)|[? Hm]].
    + left. exists (S j), c'. split_and!; [done..|lia].
    + apply lookup_insert_Some in Hm as [[<- <-]|[??]]; [|right; naive_solver].
      left. exists 0%nat, c. split_and!; [done..|lia].
  - intros [([|j] & c' & Hc & <- & ->)|[Hf Hm]].
    + injection Hc as [= <-]. right. split; [done|]. rewrite lookup_insert_eq. f_equal. lia.
    + left. exists j, c'. split_and!; [done..|lia].
    + right. rewrite lookup_insert_ne by naive_solver. naive_solver.
Qed.

Section select_fields.
Context {FA A : Type} `{ArrowFile FA A}.

Lemma select_columns_keys (mapping : gmap Z Z) fields :
  (∀ f g c, mapping !! f = Some c → mapping !! g = Some c → f = g) →
  map (λ c, default 0 (select_outputFields mapping fields !! c)) (select_columns mapping fields)
  = filter (λ f, is_Some (mapping !! f)) fields.
Proof.
  intros Hinj. pose proof (select_outputFields_spec mapping ∅ fields Hinj) as Hout.
  fold (select_outputFields mapping fields) in Hout.
  assert (∀ l, l ⊆ fields →
    map (λ c, default 0 (select_outputFields mapping fields !! c)) (select_columns mapping l)
    = filter (λ f, is_Some (mapping !! f)) l) as Hl; [|by apply Hl].
  induction l as [|f l IH]; intros Hin; [done|].
  assert (select_columns mapping (f :: l) = match mapping !! f with
    Some c => c :: select_columns mapping l | None => select_columns mapping l end) as ->
    by reflexivity.
  destruct (mapping !! f) as [c|] eqn:Hf.
  - rewrite filter_cons_True by (rewrite Hf; eauto). simpl.
    rewrite (Hout f c), IH by set_solver. done.
  - rewrite filter_cons_False by (rewrite Hf; by intros []). apply IH. set_solver.
Qed.

(** On a freshly opened v2 file, selecting fields keeps exactly the
    requested fields that the file has; the new mapping sends each to the position,
    in the record that will be read, of the column the file stores it in. *)
Theorem V2_SelectFields_spec f (r : BinlogReaderV2 FA) fields :
  NewBinlogReaderV2 f = Ok r → NoDup fields →
  let r' := V2_SelectFields fields r in
  ∃ cols, selectedColumn r' = Some cols ∧
  (∀ field, is_Some (v2_mapping r' !! field) ↔ field ∈ fields ∧ is_Some (v2_mapping r !! field)) ∧
  (∀ field idx, v2_mapping r' !! field = Some idx →
     0 ≤ idx ∧ ∃ col, cols !! Z.to_nat idx = Some col ∧ v2_mapping r !! field = Some col).
Proof.
  intros Hr Hnd r'. unfold NewBinlogReaderV2 in Hr. res_inv. subst r.
  match goal with H : v2_field_ids _ _ _ = Ok ?m |- _ =>
    pose proof (v2_field_ids_inj _ _ _ _ H) as Hinj; set (mapping := m) in * end.
  specialize (Hinj ltac:(intros ??; rewrite lookup_empty; done)
                   ltac:(intros ???; rewrite lookup_empty; done)).
  set (cols := select_columns mapping fields). exists cols. split; [done|].
  set (κ := λ c, default 0 (select_outputFields mapping fields !! c)).
  assert (map κ cols = filter (λ f, is_Some (mapping !! f)) fields) as Hκ
    by by apply select_columns_keys.
  assert (∀ f i, v2_mapping r' !! f = Some i ↔
            ∃ j c, cols !! j = Some c ∧ κ c = f ∧ i = Z.of_nat j) as Hm.
  { intros g i. change (v2_mapping r') with
      (foldl (λ (m : gmap Z Z) ic, <[κ ic.2 := ic.1]> m) ∅ (zip (seqZ 0 (zlen cols)) cols)).
    rewrite (foldl_insert_index κ) by (rewrite Hκ; by apply list.NoDup_filter).
    rewrite lookup_empty. naive_solver. }
  assert (∀ j c, cols !! j = Some c → mapping !! κ c = Some c ∧ κ c ∈ fields) as Hc.
  { intros j c Hj%list_elem_of_lookup_2. unfold cols, select_columns in Hj.
    apply list_elem_of_omap in Hj as (g & Hg & Hgc).
    unfold κ, select_outputFields. by rewrite (select_outputFields_spec _ _ _ Hinj g c). }
  split.
  - intros g. change (v2_mapping _) with mapping at 2. split.
    + intros [i (j & c & Hj & <- & ->)%Hm]. destruct (Hc j c Hj). eauto.
    + intros [Hin Hs]. assert (g ∈ map κ cols) as Hg.
      { rewrite Hκ. apply list_elem_of_filter. auto. }
      apply list_elem_of_fmap in Hg as (c & -> & [j Hj]%list_elem_of_lookup_1).
      exists (Z.of_nat j). apply Hm. eauto.
  - intros g i (j & c & Hj & <- & ->)%Hm. split; [lia|]. exists c. rewrite Nat2Z.id.
    split; [done|]. by apply (Hc j c).
Qed.
End select_fields.

(** ** Delivering a segment *)
Section stream.
Context {J FA A B : Type} `{JsonMap J} `{ArrowFile FA A} `{Arrow A B} `{MapOrder}.
Implicit Types (crr : SegmentBinlogRecordReader J FA A) (br : AnyBinlogReader J FA).

(** What a reader delivers until the end of the segment. *)
Inductive delivers : SegmentBinlogRecordReader J FA A →
    list (RecordBatch A * option BatchInfo) → Prop :=
  | delivers_eof crr : SR_Next crr = Err EOF → delivers crr []
  | delivers_next crr r bi crr' l :
      SR_Next crr = Ok (r, bi, crr') → delivers crr' l → delivers crr ((r, bi) :: l).

(** Field [f] numbered [k], the next one [k + 1], ... *)
Fixpoint number_from (k : Z) (fs : list Z) (m : gmap Z Z) : gmap Z Z :=
  match fs with [] => m | f :: fs => number_from (k + 1) fs (<[f := k]> m) end.

Lemma number_from_notin k fs m f : f ∉ fs → number_from k fs m !! f = m !! f.
Proof.
  revert k m. induction fs as [|g fs IH]; intros k m Hf; simpl; [done|].
  apply not_elem_of_cons in Hf as [??]. by rewrite IH, lookup_insert_ne.
Qed.

Lemma number_from_lookup k fs m i f :
  NoDup fs → fs !! i = Some f → number_from k fs m !! f = Some (k + Z.of_nat i).
Proof.
  revert k m i. induction fs as [|g fs IH]; intros k m i; [done|].
  intros [Hn Hnd]%list.NoDup_cons. destruct i as [|i]; simpl.
  - intros [= ->]. rewrite number_from_notin, lookup_insert_eq by done. f_equal. lia.
  - intros Hi. rewrite (IH _ _ i) by done. f_equal. lia.
Qed.

(** A reader of the single field [f], in column 0. *)
Definition reads_field br (f : Z) : Prop := AnyMapping br = {[ f := 0 ]}.

Lemma place_record_single outputs (rec : list A) c f index recs k :
  NoDup outputs → f ∈ outputs → head rec = Some c → 0 ≤ k < zlen recs →
  place_record outputs rec {[ f := 0 ]} (index, recs, k)
  = Ok (<[f := k]> index, <[Z.to_nat k := Some c]> recs, k + 1).
Proof.
  intros Hnd Hin Hc Hk. unfold place_record.
  assert (range ({[f := 0]} : gmap Z Z) = [(f, 0)]) as ->.
  { apply Permutation_singleton_r. rewrite range_perm. by rewrite map_to_list_singleton. }
  cbn [foldM]. rewrite res_bind_ret'.
  assert (∀ l st, f ∉ l → foldM (λ output, place_column rec output (f, 0)) l st = Ok st) as Hskip.
  { induction l as [|o l IH]; intros st Hl; simpl; [done|]. apply not_elem_of_cons in Hl as [??].
    destruct st as [[??]?]. unfold place_column at 2. simpl. rewrite bool_decide_false by done.
    by apply IH. }
  apply list_elem_of_split in Hin as (l1 & l2 & ->).
  apply list.NoDup_app in Hnd as (_ & Hd & [Hn _]%list.NoDup_cons).
  rewrite foldM_app, Hskip by (intros Hx; eapply (Hd f Hx); left). cbn [mbind res_bind foldM].
  assert (place_column rec f (f, 0) (index, recs, k)
          = Ok (<[f := k]> index, <[Z.to_nat k := Some c]> recs, k + 1)) as ->; [|by apply Hskip].
  unfold place_column. simpl. rewrite bool_decide_true by done.
  destruct rec as [|c' rec]; [done|]. injection Hc as ->. simpl.
  by rewrite bool_decide_true by lia.
Qed.

(** One record of every file: the columns fill the slots in order. *)
Lemma compose_loop_single outputs bs rr fs cols filled index :
  NoDup outputs → Forall2 reads_field bs fs → Forall (λ f, f ∈ outputs) fs →
  Forall2 (λ (recs : list (list A)) (c : A), ∃ rec recs', recs = rec :: recs' ∧ head rec = Some c) rr cols →
  length fs = length cols → (length (filled ++ cols) ≤ length outputs)%nat →
  compose_loop outputs bs rr
    (index, map Some filled ++ replicate (length outputs - length filled) None, zlen filled)
  = Ok (number_from (zlen filled) fs index,
        map Some (filled ++ cols) ++ replicate (length outputs - length (filled ++ cols)) None,
        zlen (filled ++ cols), map tail rr).
Proof.
  intros Hnd Hbs. revert rr cols filled index.
  induction Hbs as [|br f bs fs Hbr Hbs IH]; intros rr cols filled index Hin Hrr Hl Hle.
  { destruct cols; [|done]. inversion Hrr; subst. by rewrite app_nil_r. }
  destruct cols as [|c cols]; [done|].
  inversion Hrr as [|recs ? rr' ? (rec & recs' & -> & Hc) Hrr']; subst.
  apply list.Forall_cons in Hin as [Hf Hin]. rewrite length_app in Hle. simpl in Hle, Hl.
  cbn [compose_loop]. rewrite Hbr.
  rewrite (place_record_single outputs rec c); [|done..|].
  2: { unfold zlen. rewrite length_app, length_map, length_replicate. lia. }
  cbn [mbind res_bind].
  assert (<[Z.to_nat (zlen filled):=Some c]>
      (map Some filled ++ replicate (length outputs - length filled) None)
    = map Some (filled ++ [c]) ++ replicate (length outputs - length (filled ++ [c])) None) as ->.
  { unfold zlen. rewrite Nat2Z.id, insert_app_r_alt, length_map, Nat.sub_diag by (by rewrite length_map).
    rewrite map_app, length_app, <-app_assoc. f_equal. simpl.
    replace (length outputs - length filled)%nat
      with (S (length outputs - (length filled + 1))) by lia. done. }
  replace (zlen filled + 1) with (zlen (filled ++ [c])) by (unfold zlen; rewrite length_app; simpl; lia).
  rewrite (IH rr' cols); [|done|done|lia|rewrite !length_app; simpl; lia].
  cbn [mbind res_bind]. rewrite <-(app_assoc filled [c] cols). simpl.
  by rewrite (zlen_app filled [c]).
Qed.

(** The record batch of the columns [cols] of the fields [fs]. *)
Definition field_batch (outputs fs : list Z) (cols : list A) : RecordBatch A :=
  CRB (number_from 0 fs ∅) (map Some cols ++ replicate (length outputs - length cols) None).

Lemma field_batch_column outputs fs cols i f c :
  NoDup fs → fs !! i = Some f → cols !! i = Some c →
  RB_Column (field_batch outputs fs cols) f = Ok (Some c).
Proof.
  intros Hnd Hf Hc. unfold RB_Column. simpl. rewrite (number_from_lookup _ _ _ i f) by done.
  apply go_index_Ok. rewrite Z.add_0_l, Nat2Z.id. split; [lia|].
  rewrite lookup_app_l by (rewrite length_map; by eapply lookup_lt_Some).
  change (map Some cols) with (Some <$> cols). by rewrite list_lookup_fmap, Hc.
Qed.

Lemma composeRecord_single crr fs rr cols :
  NoDup (outputFields crr) → NoDup fs → Forall2 reads_field (brs crr) fs →
  Forall (λ f, f ∈ outputFields crr) fs → rrs crr = Some rr →
  Forall2 (λ (recs : list (list A)) (c : A), ∃ rec recs', recs = rec :: recs' ∧ head rec = Some c) rr cols →
  length fs = length cols →
  composeRecord crr
  = Ok (field_batch (outputFields crr) fs cols,
        SR (sr_iterator crr) (storageVersion crr) (outputFields crr) (currentBatch crr)
           (brs crr) (Some (map tail rr))).
Proof.
  intros Hout Hfs Hbs Hin Hrr Hcols Hl. unfold composeRecord. rewrite Hrr. cbn [default from_option id].
  pose proof (compose_loop_single (outputFields crr) (brs crr) rr fs cols [] ∅) as Hc.
  simpl in Hc. rewrite Nat.sub_0_r in Hc. change (zlen []) with 0 in Hc. rewrite Hc; try done.
  rewrite <-Hl. apply submseteq_length, NoDup_submseteq; [done|].
  by apply list.Forall_forall.
Qed.

(** ** Segments of storage version 0 or 1 *)

(** The bytes of a v1 binlog of field [f] whose insert event holds the records
    [recs], one column each, and which ends there. *)
Definition v1_bytes (version f : Z) (bs : list byte) (recs : list (list A)) : Prop :=
  ∃ r r', AnyNewBinlogReader (FA:=FA) version bs = Ok (ReaderV1 r) ∧ GetMapping r = {[ f := 0 ]}
    ∧ V1_NextRecordReader (FA:=FA) r = Ok (recs, r') ∧ V1_NextRecordReader (FA:=FA) (A:=A) r' = Err EOF.

Lemma V1_NextRecordReader_mapping (r r' : BinlogReader J) (rr : list (list A)) :
  V1_NextRecordReader (FA:=FA) r = Ok (rr, r') → GetMapping r' = GetMapping r.
Proof.
  unfold V1_NextRecordReader. intros E. res_inv. repeat case_match; res_inv. by simplify_eq.
Qed.

(** The selected fields, and a segment of [n] batches in which every selected file is
    such a binlog; batch [b] has [rows b] records in every file. *)
Definition selected (outputs : list Z) (seg : Segment) : list FieldBinlog :=
  filter (λ fb, fb_FieldID fb ∈ outputs) (seg_Binlogs seg).

Record v1_segment (outputs : list Z) (translator : string → res (list byte)) (seg : Segment)
    (n : nat) (content : Z → nat → list (list A)) (rows : nat → nat) : Prop := {
  v1_version : seg_StorageVersion seg = 0 ∨ seg_StorageVersion seg = 1;
  v1_few : Z.of_nat n < 2 ^ 63;
  v1_outputs : NoDup outputs;
  v1_fields : NoDup (map fb_FieldID (seg_Binlogs seg));
  v1_some : selected outputs seg ≠ [];
  v1_batches fb : fb ∈ seg_Binlogs seg → length (fb_Binlogs fb) = n;
  v1_files fb b path : fb ∈ selected outputs seg → fb_Binlogs fb !! b = Some path →
    ∃ bs, translator path = Ok bs ∧
      v1_bytes (seg_StorageVersion seg) (fb_FieldID fb) bs (content (fb_FieldID fb) b);
  v1_rows fb b : fb ∈ selected outputs seg → (b < n)%nat →
    length (content (fb_FieldID fb) b) = rows b;
  v1_nonempty b : (b < n)%nat → (0 < rows b)%nat;
  v1_records fb b rec : fb ∈ selected outputs seg → rec ∈ content (fb_FieldID fb) b → rec ≠ [];
}.

Lemma foldM_open_target (translator : string → res (list byte)) l (output : gmap Z (list byte)) :
  NoDup (map fst l) → (∀ fp, fp ∈ l → ∃ bs, translator fp.2 = Ok bs) →
  (∀ fp, fp ∈ l → output !! fp.1 = None) →
  ∃ output', foldM (open_target translator) l output = Ok output' ∧
    ∀ f bs, output' !! f = Some bs ↔
      (∃ p, (f, p) ∈ l ∧ translator p = Ok bs) ∨ output !! f = Some bs.
Proof.
  revert output. induction l as [|[f p] l IH]; intros output Hnd Hall Hout.
  { exists output. split; [done|]. set_solver. }
  simpl in Hnd. apply list.NoDup_cons in Hnd as [Hn Hnd].
  destruct (Hall (f, p)) as [bs Hbs]; [left|]. simpl in Hbs.
  destruct (IH (<[f := bs]> output)) as (output' & Hr & Hl); [done| | |].
  { intros fp Hin. apply Hall. by right. }
  { intros [g q] Hin. simpl. rewrite lookup_insert_ne; [apply (Hout (g, q)); by right|].
    intros <-. apply Hn. apply list_elem_of_fmap. by exists (f, q). }
  exists output'. cbn [foldM]. unfold open_target at 2. simpl. rewrite Hbs. simpl. split; [done|].
  intros g cs. rewrite Hl. setoid_rewrite elem_of_cons. split.
  - intros [(q & ? & ?)|[[<- <-]|[??]]%lookup_insert_Some]; eauto 6.
  - intros [(q & [[= -> ->]|?] & Hq)|Hg]; [| |].
    + right. rewrite lookup_insert_eq. congruence.
    + eauto.
    + right. rewrite lookup_insert_ne; [done|]. intros <-.
      pose proof (Hout (f, p)) as Hx. simpl in Hx. rewrite Hx in Hg; [done|]. by left.
Qed.

Lemma foldM_open_reader version outputs (content : Z → list (list A)) l rr bs :
  (∀ fb, fb ∈ l → fb.1 ∈ outputs ∧ v1_bytes version fb.1 fb.2 (content fb.1)) →
  ∃ bs', foldM (open_reader version outputs) (map snd l) (rr, bs)
         = Ok (rr ++ map content (map fst l), bs ++ bs')
    ∧ Forall2 reads_field bs' (map fst l)
    ∧ Forall (λ br, NextRecordReader br = Err EOF) bs'.
Proof.
  revert rr bs. induction l as [|[f file] l IH]; intros rr bs Hall.
  { exists []. simpl. by rewrite !app_nil_r. }
  destruct (Hall (f, file)) as [Hf (r & r' & Hr & Hm & Hn & He)]; [left|]. simpl in *.
  assert (open_reader version outputs file (rr, bs)
          = Ok (rr ++ [content f], bs ++ [ReaderV1 r'])) as ->.
  { unfold open_reader. rewrite Hr. cbn [mbind res_bind AnyMapping]. rewrite Hm.
    replace (existsb _ outputs) with true.
    - simpl. rewrite Hn. done.
    - symmetry. apply existsb_exists. exists f. split; [by apply list_elem_of_In|].
      rewrite lookup_singleton_eq. by apply bool_decide_true. }
  cbn [mbind res_bind]. destruct (IH (rr ++ [content f]) (bs ++ [ReaderV1 r'])) as (bs' & -> & Hb2 & Hb3).
  { intros fb Hin. apply Hall. by right. }
  exists (ReaderV1 r' :: bs'). rewrite <-!app_assoc. split_and!; [done| |].
  - constructor; [|done]. unfold reads_field. simpl. by rewrite (V1_NextRecordReader_mapping _ _ _ Hn).
  - constructor; [|done]. simpl. by rewrite He.
Qed.

(** The reader inside batch [b], after [k] of its record batches. *)
Definition at_batch (outputs : list Z) translator seg content (b k : nat) (fs : list Z) crr : Prop :=
  outputFields crr = outputs ∧ storageVersion crr = seg_StorageVersion seg
  ∧ sr_iterator crr = SBI seg (NewFieldIDSelector outputs) translator (Z.of_nat (S b))
  ∧ (∃ bi, currentBatch crr = Some bi ∧ BatchIdx bi = Z.of_nat b)
  ∧ Forall2 reads_field (brs crr) fs ∧ Forall (λ br, NextRecordReader br = Err EOF) (brs crr)
  ∧ rrs crr = Some (map (λ f, drop k (content f b)) fs)
  ∧ fs ≡ₚ map fb_FieldID (selected outputs seg).

Section v1.
Context (outputs : list Z) (translator : string → res (list byte)) (seg : Segment) (n : nat).
Context (content : Z → nat → list (list A)) (rows : nat → nat).
Hypothesis Hseg : v1_segment outputs translator seg n content rows.

Lemma selected_spec fb : fb ∈ selected outputs seg ↔ fb ∈ seg_Binlogs seg ∧ fb_FieldID fb ∈ outputs.
Proof. unfold selected. rewrite list_elem_of_filter. tauto. Qed.

Lemma selected_NoDup : NoDup (map fb_FieldID (selected outputs seg)).
Proof.
  unfold selected. pose proof (v1_fields _ _ _ _ _ _ Hseg) as Hnd. revert Hnd.
  induction (seg_Binlogs seg) as [|fb l IH]; [done|]. simpl.
  intros [Hn Hnd]%list.NoDup_cons. rewrite filter_cons. case_decide; [|auto].
  simpl. apply list.NoDup_cons. split; [|auto]. contradict Hn.
  apply list_elem_of_fmap in Hn as (fb' & -> & [_ Hin]%list_elem_of_filter).
  apply list_elem_of_fmap. eauto.
Qed.

Lemma field_selected f :
  f ∈ map fb_FieldID (selected outputs seg) ↔ ∃ fb, fb ∈ selected outputs seg ∧ fb_FieldID fb = f.
Proof. rewrite list_elem_of_fmap. naive_solver. Qed.

Lemma some_selected : ∃ fb, fb ∈ selected outputs seg.
Proof.
  pose proof (v1_some _ _ _ _ _ _ Hseg). destruct (selected outputs seg) as [|fb l]; [done|].
  exists fb. left.
Qed.

Lemma batch_missing b :
  existsb (λ fb, bool_decide (Z.of_nat b >= zlen (fb_Binlogs fb))) (seg_Binlogs seg)
  = bool_decide (n ≤ b)%nat.
Proof.
  destruct some_selected as [fb0 [Hfb0 _]%selected_spec].
  apply eq_true_iff_eq. rewrite existsb_exists, bool_decide_eq_true.
  setoid_rewrite bool_decide_eq_true. unfold zlen. split.
  - intros (fb & Hin%list_elem_of_In & Hlt). pose proof (v1_batches _ _ _ _ _ _ Hseg fb Hin). lia.
  - intros Hb. exists fb0. split; [by apply list_elem_of_In|].
    pose proof (v1_batches _ _ _ _ _ _ Hseg fb0 Hfb0). lia.
Qed.

Lemma batches_nonempty : bool_decide (seg_Binlogs seg = []) = false.
Proof.
  destruct some_selected as [fb [Hfb _]%selected_spec]. apply bool_decide_false. intros E. rewrite E in Hfb.
  by apply not_elem_of_nil in Hfb.
Qed.

Lemma open_batch_end crr :
  sr_iterator crr = SBI seg (NewFieldIDSelector outputs) translator (Z.of_nat n) →
  open_batch crr = Err EOF.
Proof.
  intros Hit. unfold open_batch, NextBatch. rewrite Hit. cbn [sbi_selector sbi_segment sbi_currentBatch].
  pose proof (SelectBinlogs_spec (NewFieldIDSelector outputs) (seg_Binlogs seg) (Z.of_nat n)) as Hs.
  rewrite batch_missing, bool_decide_true in Hs by done. by rewrite Hs by lia.
Qed.

Lemma select_batch b :
  (b < n)%nat → ∃ result,
    SelectBinlogs (NewFieldIDSelector outputs) (seg_Binlogs seg) (Z.of_nat b) = Ok result
    ∧ ∀ f p, result !! f = Some p ↔
        ∃ fb, fb ∈ selected outputs seg ∧ fb_FieldID fb = f ∧ fb_Binlogs fb !! b = Some p.
Proof.
  intros Hb.
  pose proof (SelectBinlogs_spec (NewFieldIDSelector outputs) (seg_Binlogs seg) (Z.of_nat b)) as Hs.
  rewrite batch_missing, bool_decide_false in Hs by lia.
  cbn [NewFieldIDSelector orb] in Hs. rewrite batches_nonempty in Hs.
  destruct Hs as (result & Hr & Hl); [lia|]. exists result. split; [done|]. intros f p.
  rewrite Hl by apply (v1_fields _ _ _ _ _ _ Hseg). rewrite Nat2Z.id.
  setoid_rewrite selected_spec. cbn [selector_skips]. setoid_rewrite bool_decide_eq_false.
  setoid_rewrite elem_of_list_to_set. split.
  - intros (fb & ? & <- & ?%dec_stable & ?). eauto.
  - intros (fb & [? ?] & <- & ?). exists fb. naive_solver.
Qed.

Lemma range_elem {X} (m : gmap Z X) f x : (f, x) ∈ range m ↔ m !! f = Some x.
Proof. rewrite range_perm. apply elem_of_map_to_list. Qed.
Lemma range_NoDup {X} (m : gmap Z X) : NoDup (map fst (range m)).
Proof. rewrite range_perm. apply NoDup_fst_map_to_list. Qed.

Lemma next_batch b :
  (b < n)%nat → ∃ bi,
    NextBatch (SBI seg (NewFieldIDSelector outputs) translator (Z.of_nat b))
    = Ok (bi, SBI seg (NewFieldIDSelector outputs) translator (Z.of_nat (S b)))
    ∧ BatchIdx bi = Z.of_nat b
    ∧ map fst (range (Output bi)) ≡ₚ map fb_FieldID (selected outputs seg)
    ∧ ∀ fb, fb ∈ range (Output bi) →
        fb.1 ∈ outputs ∧ v1_bytes (seg_StorageVersion seg) fb.1 fb.2 (content fb.1 b).
Proof.
  intros Hb. destruct (select_batch b Hb) as (result & Hr & Hl). unfold NextBatch.
  cbn [sbi_selector sbi_segment sbi_currentBatch sbi_translator]. rewrite Hr. cbn [mbind res_bind].
  destruct (foldM_open_target translator (range result) ∅) as (out & Ho & Hol).
  { apply range_NoDup. }
  { intros [f p] (fb & Hin & <- & Hp)%range_elem%Hl.
    destruct (v1_files _ _ _ _ _ _ Hseg fb b p Hin Hp) as (bs & ? & _). eauto. }
  { intros. apply lookup_empty. }
  rewrite Ho. cbn [mbind res_bind]. exists (BI (seg_ID seg) (Z.of_nat b) out result). split; [|split; [done|]].
  { do 3 f_equal. rewrite wraps_id; unfold in_s; pose proof (v1_few _ _ _ _ _ _ Hseg); lia. }
  assert (∀ f bs, (f, bs) ∈ range out ↔
    ∃ fb p, fb ∈ selected outputs seg ∧ fb_FieldID fb = f ∧ fb_Binlogs fb !! b = Some p
            ∧ translator p = Ok bs) as Hout.
  { intros f bs. rewrite range_elem, Hol, lookup_empty. setoid_rewrite range_elem.
    setoid_rewrite Hl. naive_solver. }
  simpl. split.
  - apply NoDup_Permutation; [apply range_NoDup|apply selected_NoDup|]. intros f.
    rewrite field_selected, list_elem_of_fmap. split.
    + intros ([g bs] & -> & (fb & p & ? & ? & _)%Hout). eauto.
    + intros (fb & Hin & <-). pose proof Hin as [Hin' _]%selected_spec.
      destruct (lookup_lt_is_Some_2 (fb_Binlogs fb) b) as [p Hp].
      { by rewrite (v1_batches _ _ _ _ _ _ Hseg fb Hin'). }
      destruct (v1_files _ _ _ _ _ _ Hseg fb b p Hin Hp) as (bs & Hbs & _).
      exists (fb_FieldID fb, bs). split; [done|]. apply Hout. eauto 6.
  - intros [f bs] (fb & p & Hin & <- & Hp & Hbs)%Hout. simpl.
    split; [by apply selected_spec|].
    destruct (v1_files _ _ _ _ _ _ Hseg fb b p Hin Hp) as (bs' & Hbs' & ?). by assert (bs = bs') as -> by congruence.
Qed.

Lemma open_batch_ok crr b :
  outputFields crr = outputs → storageVersion crr = seg_StorageVersion seg →
  sr_iterator crr = SBI seg (NewFieldIDSelector outputs) translator (Z.of_nat b) → (b < n)%nat →
  ∃ crr' fs, open_batch crr = Ok crr' ∧ at_batch outputs translator seg content b 0 fs crr'.
Proof.
  intros Ho Hv Hit Hb. destruct (next_batch b Hb) as (bi & Hn & Hi & Hp & Hf).
  unfold open_batch. rewrite Hit, Hn. cbn [mbind res_bind]. rewrite Ho, Hv.
  destruct (foldM_open_reader (seg_StorageVersion seg) outputs (λ f, content f b)
              (range (Output bi)) [] [] Hf) as (bs' & -> & Hr & He).
  cbn [mbind res_bind]. eexists _, _. split; [done|]. unfold at_batch. simpl.
  split_and!; try done; eauto.
Qed.

(** Record [k] of batch [b], in every selected field. *)
Definition row_batch (b k : nat) (rb : RecordBatch A) : Prop :=
  ∀ fb, fb ∈ selected outputs seg → ∃ rec c,
    content (fb_FieldID fb) b !! k = Some rec ∧ head rec = Some c
    ∧ RB_Column rb (fb_FieldID fb) = Ok (Some c).

Lemma records_columns b k fs :
  (b < n)%nat → (k < rows b)%nat → fs ⊆ map fb_FieldID (selected outputs seg) →
  ∃ cols, length fs = length cols
    ∧ Forall2 (λ (recs : list (list A)) c, ∃ rec recs', recs = rec :: recs' ∧ head rec = Some c)
        (map (λ f, drop k (content f b)) fs) cols
    ∧ ∀ i f c, fs !! i = Some f → cols !! i = Some c →
        ∃ rec, content f b !! k = Some rec ∧ head rec = Some c.
Proof.
  intros Hb Hk. induction fs as [|f fs IH]; intros Hin.
  { exists []. split_and!; [done|constructor|done]. }
  destruct IH as (cols & Hl & H2' & Hi); [set_solver|].
  destruct (proj1 (field_selected f)) as (fb & Hfb & <-); [set_solver|].
  destruct (lookup_lt_is_Some_2 (content (fb_FieldID fb) b) k) as [rec Hrec].
  { by rewrite (v1_rows _ _ _ _ _ _ Hseg fb b Hfb Hb). }
  destruct rec as [|c rec'].
  { exfalso. apply (v1_records _ _ _ _ _ _ Hseg fb b [] Hfb); [|done].
    by eapply list_elem_of_lookup_2. }
  exists (c :: cols). split_and!; [simpl; lia| |].
  - constructor; [|done]. exists (c :: rec'), (drop (S k) (content (fb_FieldID fb) b)).
    split; [|done]. by apply drop_S.
  - intros [|i] f' c'; simpl; [|apply Hi]. intros [= <-] [= <-]. eauto.
Qed.

Lemma at_batch_compose b k fs crr :
  (b < n)%nat → (k < rows b)%nat → at_batch outputs translator seg content b k fs crr →
  ∃ rb crr', composeRecord crr = Ok (rb, crr') ∧ currentBatch crr' = currentBatch crr
    ∧ row_batch b k rb ∧ at_batch outputs translator seg content b (S k) fs crr'.
Proof.
  intros Hb Hk (Ho & Hv & Hit & Hbi & Hbs & Heof & Hrr & Hp).
  assert (NoDup fs) as Hnd by (rewrite Hp; apply selected_NoDup).
  destruct (records_columns b k fs Hb Hk) as (cols & Hl & Hcols & Hrec).
  { intros f Hf. by rewrite <-Hp. }
  erewrite (composeRecord_single crr fs _ cols); try done.
  - eexists _, _. split; [done|]. split; [done|]. split.
    + intros fb Hfb. assert (fb_FieldID fb ∈ fs) as [i Hi]%list_elem_of_lookup_1.
      { rewrite Hp. apply field_selected. eauto. }
      destruct (lookup_lt_is_Some_2 cols i) as [c Hc].
      { rewrite <-Hl. by eapply lookup_lt_Some. }
      destruct (Hrec _ _ _ Hi Hc) as (rec & ? & ?). exists rec, c. split_and!; [done..|].
      rewrite Ho. by eapply field_batch_column.
    + unfold at_batch. simpl. split_and!; try done. rewrite map_map. f_equal.
      apply map_ext. intros f. rewrite <-(Nat.add_1_r k), <-drop_drop. by destruct (drop k _).
  - rewrite Ho. apply (v1_outputs _ _ _ _ _ _ Hseg).
  - rewrite Ho. apply list.Forall_forall. intros f. rewrite Hp, field_selected.
    intros (fb & [_ ?]%selected_spec & <-). done.
Qed.

Lemma at_batch_next b k fs crr :
  (b < n)%nat → (k < rows b)%nat → at_batch outputs translator seg content b k fs crr →
  ∃ rb bi crr', SR_Next crr = Ok (rb, Some bi, crr') ∧ BatchIdx bi = Z.of_nat b
    ∧ row_batch b k rb ∧ at_batch outputs translator seg content b (S k) fs crr'.
Proof.
  intros Hb Hk Hat. pose proof Hat as (_ & _ & _ & (bi & Hbi & Hidx) & _ & _ & Hrr & _).
  destruct (at_batch_compose b k fs crr Hb Hk Hat) as (rb & crr' & Hc & Hcur & Hrow & Hat').
  exists rb, bi, crr'. unfold SR_Next. rewrite Hrr. cbn [mbind res_bind]. rewrite Hc.
  cbn [mbind res_bind]. rewrite Hcur, Hbi. auto.
Qed.

(** The reader at the end of a batch goes on like the one at the start of the next. *)
Lemma at_batch_end b fs crr :
  (b < n)%nat → at_batch outputs translator seg content b (rows b) fs crr →
  composeRecord crr = Err EOF ∧ iterateNext crr = open_batch crr.
Proof.
  intros Hb (Ho & Hv & Hit & Hbi & Hbs & Heof & Hrr & Hp).
  destruct some_selected as [fb Hfb].
  assert (fb_FieldID fb ∈ fs) as Hin by (rewrite Hp; apply field_selected; eauto).
  destruct fs as [|f fs]; [by apply not_elem_of_nil in Hin|].
  destruct (proj1 (field_selected f)) as (fb' & Hfb' & <-); [rewrite <-Hp; left|].
  apply Forall2_cons_inv_r in Hbs as (br & brs' & Hbr & Hbs & Hb'). split.
  - unfold composeRecord. rewrite Hb', Hrr. cbn [default from_option id map compose_loop].
    by rewrite drop_ge by (by rewrite (v1_rows _ _ _ _ _ _ Hseg fb' b Hfb' Hb)).
  - unfold iterateNext, nextRecordReader. rewrite Hb' in Heof |- *.
    apply list.Forall_cons in Heof as [He _]. simpl. rewrite He. simpl. done.
Qed.

Lemma SR_Next_open b fs crr crr' :
  (b < n)%nat → at_batch outputs translator seg content b 0 fs crr' →
  iterateNext crr = Ok crr' → rrs crr = None ∨ composeRecord crr = Err EOF →
  SR_Next crr = SR_Next crr'.
Proof.
  intros Hb Hat Hi Hc. pose proof (v1_nonempty _ _ _ _ _ _ Hseg b Hb) as Hrows.
  destruct (at_batch_compose b 0 fs crr' Hb Hrows Hat) as (rb & crr'' & Hc' & _).
  pose proof Hat as (_ & _ & _ & _ & _ & _ & Hrr & _).
  unfold SR_Next. rewrite Hrr. destruct (rrs crr) as [rr|] eqn:E.
  - destruct Hc as [|Hc]; [done|]. cbn [mbind res_bind]. rewrite Hc, bool_decide_true by done.
    rewrite Hi. cbn [mbind res_bind]. by rewrite Hc'.
  - rewrite Hi. cbn [mbind res_bind]. by rewrite Hc'.
Qed.

Lemma SR_Next_end crr :
  iterateNext crr = Err EOF → rrs crr = None ∨ composeRecord crr = Err EOF →
  SR_Next crr = Err EOF.
Proof.
  intros Hi Hc. unfold SR_Next. destruct (rrs crr).
  - destruct Hc as [|Hc]; [done|]. cbn [mbind res_bind]. rewrite Hc, bool_decide_true by done.
    by rewrite Hi.
  - by rewrite Hi.
Qed.

Lemma delivers_eq crr crr' l : SR_Next crr = SR_Next crr' → delivers crr' l → delivers crr l.
Proof.
  intros Heq Hd. destruct Hd; [apply delivers_eof; by rewrite Heq|].
  eapply delivers_next; [by rewrite Heq|done].
Qed.

(** The records still to come, as (batch, record in the batch). *)
Definition batch_rows (b k : nat) : list (nat * nat) := map (pair b) (seq k (rows b - k)).
Definition positions (b : nat) : list (nat * nat) :=
  concat (map (λ b, batch_rows b 0) (seq b (n - b))).

Definition delivered (p : nat * nat) (d : RecordBatch A * option BatchInfo) : Prop :=
  (∃ bi, d.2 = Some bi ∧ BatchIdx bi = Z.of_nat p.1) ∧ row_batch p.1 p.2 d.1.

Lemma deliver_batch b fs l :
  (b < n)%nat →
  (∀ crr, at_batch outputs translator seg content b (rows b) fs crr →
     ∃ ds, delivers crr ds ∧ Forall2 delivered l ds) →
  ∀ m k crr, (k + m = rows b)%nat → at_batch outputs translator seg content b k fs crr →
  ∃ ds, delivers crr ds ∧ Forall2 delivered (batch_rows b k ++ l) ds.
Proof.
  intros Hb Hend. unfold batch_rows. induction m as [|m IH]; intros k crr Hk Hat.
  { replace (rows b - k)%nat with 0%nat by lia. simpl. apply Hend.
    by replace (rows b) with k by lia. }
  destruct (at_batch_next b k fs crr) as (rb & bi & crr' & Hn & Hi & Hrow & Hat'); [done|lia|done|].
  destruct (IH (S k) crr') as (ds & Hd & Hf); [lia|done|].
  exists ((rb, Some bi) :: ds). split; [by eapply delivers_next|].
  replace (rows b - k)%nat with (S (rows b - S k)) by lia. simpl. constructor; [|done].
  split; [eauto|done].
Qed.

(** From a reader that is about to open batch [b]. *)
Lemma deliver_from m b crr :
  (b + m = n)%nat → outputFields crr = outputs → storageVersion crr = seg_StorageVersion seg →
  sr_iterator crr = SBI seg (NewFieldIDSelector outputs) translator (Z.of_nat b) →
  iterateNext crr = open_batch crr → rrs crr = None ∨ composeRecord crr = Err EOF →
  ∃ ds, delivers crr ds ∧ Forall2 delivered (positions b) ds.
Proof.
  revert b crr. induction m as [|m IH]; intros b crr Hbm Ho Hv Hit Hi Hc.
  - exists []. unfold positions. replace (n - b)%nat with 0%nat by lia. split; [|constructor].
    apply delivers_eof, SR_Next_end; [|done]. rewrite Hi. apply open_batch_end.
    by rewrite Hit; replace b with n by lia.
  - assert (b < n)%nat as Hb by lia.
    destruct (open_batch_ok crr b Ho Hv Hit Hb) as (crr' & fs & Hop & Hat).
    assert (positions b = batch_rows b 0 ++ positions (S b)) as ->.
    { unfold positions. replace (n - b)%nat with (S (n - S b)) by lia. done. }
    destruct (deliver_batch b fs (positions (S b)) Hb) with (m := rows b) (k := 0%nat) (crr := crr')
      as (ds & Hd & Hf); [|lia|done|].
    + intros crr'' Hat''. destruct (at_batch_end b fs crr'' Hb Hat'') as [Hc'' Hi''].
      destruct Hat'' as (Ho'' & Hv'' & Hit'' & _).
      apply (IH (S b)); auto; lia.
    + exists ds. split; [|done]. eapply delivers_eq; [|exact Hd].
      eapply SR_Next_open; [exact Hb|exact Hat|by rewrite Hi|done].
Qed.
End v1.

(** C5 (functional): over a v1 segment of [n] batches whose selected fields are files
    with one column of non-empty records, the reader delivers every record of every
    batch exactly once, batch by batch and in the order of the files, each as one
    record batch that holds the record's column of every selected field, and then
    ends with [EOF]. *)
Theorem SegmentReader_delivers outputs translator seg n content rows :
  v1_segment outputs translator seg n content rows →
  ∃ crr ds, NewSegmentReader seg outputs translator = Ok crr ∧ delivers crr ds
    ∧ Forall2 (delivered outputs seg content) (positions n rows 0) ds.
Proof.
  intros Hseg. unfold NewSegmentReader.
  rewrite bool_decide_true by apply (v1_version _ _ _ _ _ _ Hseg). cbn [mbind res_bind].
  set (crr := SR _ _ _ _ _ _).
  destruct (deliver_from outputs translator seg n content rows Hseg n 0 crr)
    as (ds & Hd & Hf); try done; [by left|]. exists crr, ds. auto.
Qed.
End stream.

(** ** Concrete files

    An arrow file is its bytes: one record per byte, with one column. *)
#[export] Instance bytes_arrow : ArrowFile (list byte) Z := {
  OpenArrow bs := Ok bs;
  SchemaFieldIDs _ := Ok [Some "100"; Some "101"; Some "1"];
  ArrowRowGroups _ := 1;
  GetRecordReader bs _ _ := Ok (map (λ b, [Z_of_byte b]) bs);
}.

Definition sample_binlog : list byte :=
  sample_file ++ event_bytes (BaseEventHeader 0 InsertEventType 35 (-1))
                   (EventData 1 2 : insertEventData) [x05; x06].

Definition sample_segment : Segment := Seg 7 1 [FB 101 ["a"; "b"]; FB 102 ["c"; "d"]].

Lemma sample_v1_segment :
  v1_segment (J:=string) (FA:=list byte) [101] (λ _, Ok sample_binlog) sample_segment 2
    (λ _ _, [[5]; [6]]) (λ _, 2%nat).
Proof.
  split; try done.
  - by right.
  - apply (bool_decide_unpack _). vm_compute. exact I.
  - apply (bool_decide_unpack _). vm_compute. exact I.
  - intros fb Hfb. repeat (apply elem_of_cons in Hfb as [->|Hfb]; [done|]).
    by apply not_elem_of_nil in Hfb.
  - intros fb b path Hfb _. exists sample_binlog. split; [done|].
    assert (fb = FB 101 ["a"; "b"]) as -> by (vm_compute in Hfb; set_solver).
    eexists _, _. repeat (split; [vm_compute; reflexivity|]). vm_compute. reflexivity.
  - intros; lia.
  - intros fb b rec _ Hrec. repeat (apply elem_of_cons in Hrec as [->|Hrec]; [done|]).
    by apply not_elem_of_nil in Hrec.
Qed.

Lemma SegmentReader_delivers_witness :
  ∃ (crr : SegmentBinlogRecordReader string (list byte) Z) ds,
    NewSegmentReader sample_segment [101] (λ _, Ok sample_binlog) = Ok crr ∧ delivers crr ds
    ∧ Forall2 (delivered [101] sample_segment (λ _ _, [[5]; [6]]))
        [(0, 0); (0, 1); (1, 0); (1, 1)]%nat ds.
Proof.
  exact (SegmentReader_delivers [101] _ sample_segment 2 _ _ sample_v1_segment).
Defined.

Lemma SelectBinlogs_spec_witness :
  SelectBinlogs (NewFieldIDSelector [101]) (seg_Binlogs sample_segment) 2 = Err EOF.
Proof.
  exact (SelectBinlogs_spec (NewFieldIDSelector [101]) (seg_Binlogs sample_segment) 2 ltac:(lia)).
Defined.

Lemma V2_SelectFields_spec_witness :
  let r := BR2 ([] : list byte) {[100 := 0; 101 := 1; 1 := 2]} None 0 in
  NewBinlogReaderV2 [] = Ok r
  ∧ ∃ cols, selectedColumn (V2_SelectFields [101; 1; 7] r) = Some cols.
Proof.
  assert (NewBinlogReaderV2 (FA:=list byte) []
          = Ok (BR2 [] {[100 := 0; 101 := 1; 1 := 2]} None 0)) as Hr by (vm_compute; reflexivity).
  split; [exact Hr|].
  destruct (V2_SelectFields_spec [] _ [101; 1; 7] Hr) as (cols & Hc & _).
  - apply (bool_decide_unpack _). vm_compute. exact I.
  - exists cols. exact Hc.
Defined.
