(* ===== verification/SegmentScan.v ===== *)
(** * Scanning a segment

    Models [storage/segment_iterator.go], the scan tasks of [storage/tasks] and, of
    [states/scan_binlog.go], the selection of fields, the collection of deletes and
    the scan of one segment: every row that the filters accept is handed to a task.

    A task keeps its state when a scan fails, so scans return the state next to
    their result. *)

From S2P Require Export SegmentReader.

(** ** Tasks

    The interface [tasks.ScanTask]; the counters are [atomic.Int64]. *)
Class ScanTask (T : Type) := {
  Scan : PrimaryKey → BatchInfo → Z → gmap Z any → T → T * res unit;
  Counter : T → Z;
}.

Record CountTask := CT { count_counter : Z }.
Definition NewCountTask : CountTask := CT 0.
#[export] Instance CountTask_ScanTask : ScanTask CountTask := {
  Scan pk batchInfo offset values t := (CT (int64 (count_counter t + 1)), Ok tt);
  Counter := count_counter;
}.

Record DedupTask := DT {
  dedup_counter : Z;
  ids : gset any;
  dedupResult : gmap any Z;
}.
Definition NewDedupTask : DedupTask := DT 0 ∅ ∅.
Definition Dedup_Scan (pk : PrimaryKey) (t : DedupTask) : DedupTask :=
  let pkv := PK_GetValue pk in
  if bool_decide (pkv ∈ ids t) then
    DT (int64 (dedup_counter t + 1)) (ids t)
      (<[pkv := int64 (default 0 (dedupResult t !! pkv) + 1)]> (dedupResult t))
  else DT (dedup_counter t) ({[pkv]} ∪ ids t) (dedupResult t).
#[export] Instance DedupTask_ScanTask : ScanTask DedupTask := {
  Scan pk batchInfo offset values t := (Dedup_Scan pk t, Ok tt);
  Counter := dedup_counter;
}.

(** What [LocateTask] prints for an entry, without the field values. *)
Record Located := Loc {
  loc_segment : Z; loc_offset : Z; loc_pk : any; loc_batch : Z; loc_binlog : string;
}.
Record LocateTask := LT {
  locate_counter : Z;
  limit : Z;
  locate_pkField : Z;
  located : list Located;       (* printed so far *)
}.
Definition NewLocateTask (limit pkField : Z) : LocateTask := LT 0 limit pkField [].
#[export] Instance LocateTask_ScanTask : ScanTask LocateTask := {
  Scan pk batchInfo offset values t :=
    let idx := int64 (locate_counter t + 1) in
    let t := LT idx (limit t) (locate_pkField t) (located t) in
    if bool_decide (idx > limit t) && bool_decide (limit t > 0) then (t, Err EOF)
    else
      (LT idx (limit t) (locate_pkField t)
         (located t ++ [Loc (bi_SegmentID batchInfo) offset (PK_GetValue pk) (BatchIdx batchInfo)
                          (default "" (TargetBinlogs batchInfo !! locate_pkField t))]), Ok tt);
  Counter := locate_counter;
}.

(** ** Filters and rows *)
Section scan.
Context {J FA A B P T : Type} `{JsonMap J} `{ArrowFile FA A} `{Arrow A B} `{ScalarFieldProto}.
Context `{ExprLang P} `{MapOrder} `{ScanTask T}.

(** The interface [EntryFilter]. *)
Inductive EntryFilter :=
  | ByDeltalog (f : DeltalogFilter)
  | ByExpr (f : ExprFilter P).

Definition Match (f : EntryFilter) (pk : PrimaryKey) (ts : Z) (values : gmap Z any) : res bool :=
  match f with
  | ByDeltalog f => DeltalogFilter_Match f pk ts
  | ByExpr f => ExprFilter_Match f pk ts (range values)
  end.

(** The loop of [scan] over the filters; [values[1].(int64)] panics unless the row has
    an [int64] timestamp. *)
Fixpoint match_filters (filters : list EntryFilter) (pk : PrimaryKey) (values : gmap Z any)
    : res bool :=
  match filters with
  | [] => Ok true
  | filter :: filters =>
      match values !! 1 with
      | Some (VInt64 ts) =>
          match_ ← Match filter pk ts values;
          if match_ : bool then match_filters filters pk values else Ok false
      | _ => Panic "interface conversion"
      end
  end.

Definition scan (filters : list EntryFilter) (pk : PrimaryKey) (batchInfo : BatchInfo) (offset : Z)
    (values : gmap Z any) (task : T) : T * res unit :=
  match match_filters filters pk values with
  | Ok true => Scan pk batchInfo offset values task
  | Ok false => (task, Ok tt)
  | Err e => (task, Err e)
  | Panic w => (task, Panic w)
  end.

(** Decoding row [i]: the error of [pk.SetValue] is dropped. *)
Definition read_field (id2Schema : gmap Z FieldSchema) (rb : RecordBatch A) (i fieldID : Z)
    (st : gmap Z any * PrimaryKey) : res (gmap Z any * PrimaryKey) :=
  match id2Schema !! fieldID with
  | None => Panic "invalid memory address or nil pointer dereference"
  | Some fieldSchema =>
      arr ← RB_Column rb fieldID;
      v ← DeserializeItem (B:=B) arr (DataType fieldSchema) i;
      match v with
      | None => Err (Errorf "failed to deserialize field")
      | Some val =>
          Ok (<[fieldID := val]> st.1,
              if IsPrimaryKey fieldSchema then
                match PK_SetValue st.2 val with Ok pk => pk | _ => st.2 end
              else st.2)
      end
  end.

Definition read_row (id2Schema : gmap Z FieldSchema) (fields : list Z) (rb : RecordBatch A)
    (pk : PrimaryKey) (i : Z) : res (gmap Z any * PrimaryKey) :=
  foldM (read_field id2Schema rb i) fields (∅, pk).

Record SegmentIterator := SI {
  si_segment : Segment;
  si_schema : list FieldSchema;
  si_filters : list EntryFilter;
  si_id2Schema : gmap Z FieldSchema;
  si_translator : string → res (list byte);
}.

(** The variables of [Range]'s loop, with the state of the task. *)
Record ScanState := SS { ss_pk : PrimaryKey; ss_offset : Z; ss_batchIdx : Z; ss_task : T }.

(** The loop over the [n] rows of one record batch, from row [i]. *)
Fixpoint scan_rows (si : SegmentIterator) (fields : list Z) (rb : RecordBatch A)
    (batchInfo : BatchInfo) (n : nat) (i : Z) (st : ScanState) : ScanState * res unit :=
  match n with
  | O => (st, Ok tt)
  | S n =>
      match read_row (si_id2Schema si) fields rb (ss_pk st) i with
      | Err e => (st, Err e)
      | Panic w => (st, Panic w)
      | Ok (values, pk) =>
          let '(task, e) := scan (si_filters si) pk batchInfo (ss_offset st) values (ss_task st) in
          match e with
          | Ok _ =>
              scan_rows si fields rb batchInfo n (i + 1)
                (SS pk (int64 (ss_offset st + 1)) (ss_batchIdx st) task)
          | e => (SS pk (ss_offset st) (ss_batchIdx st) task, e)
          end
      end
  end.

(** [for { ... }]: at most [fuel] record batches, [None] when that is not enough. *)
Fixpoint Range_loop (fuel : nat) (si : SegmentIterator) (fields : list Z)
    (reader : SegmentBinlogRecordReader J FA A) (st : ScanState) : option (T * res unit) :=
  match fuel with
  | O => None
  | S fuel =>
      match SR_Next reader with
      | Err e => Some (ss_task st, if bool_decide (e = EOF) then Ok tt else Err e)
      | Panic w => Some (ss_task st, Panic w)
      | Ok (_, None, _) =>
          Some (ss_task st, Panic "invalid memory address or nil pointer dereference")
      | Ok (recordBatch, Some batchInfo, reader) =>
          let st :=
            if bool_decide (BatchIdx batchInfo ≠ ss_batchIdx st)
            then SS (ss_pk st) 0 (BatchIdx batchInfo) (ss_task st) else st in
          match RB_Len (B:=B) recordBatch with
          | Err e => Some (ss_task st, Err e)
          | Panic w => Some (ss_task st, Panic w)
          | Ok len =>
              let '(st, e) := scan_rows si fields recordBatch batchInfo (Z.to_nat len) 0 st in
              match e with
              | Ok _ => Range_loop fuel si fields reader st
              | e => Some (ss_task st, e)
              end
          end
      end
  end.

Definition new_pk (schema : list FieldSchema) : res PrimaryKey :=
  match List.find (λ f, IsPrimaryKey f) schema with
  | None => Panic "invalid memory address or nil pointer dereference"
  | Some pkSchema =>
      if bool_decide (DataType pkSchema = DataType_Int64) then Ok (Int64PrimaryKey 0)
      else if bool_decide (DataType pkSchema = DataType_VarChar) then Ok (VarCharPrimaryKey "")
      else Err (Errorf "unssupported primary key type")
  end.

Definition Range (fuel : nat) (si : SegmentIterator) (task : T) : option (T * res unit) :=
  let fields := map fst (range (si_id2Schema si)) in
  match reader ← NewSegmentReader (J:=J) (FA:=FA) (A:=A) (si_segment si) fields (si_translator si);
        pk ← new_pk (si_schema si); Ok (reader, pk) with
  | Ok (reader, pk) => Range_loop fuel si fields reader (SS pk 0 (-1) task)
  | Err e => Some (task, Err e)
  | Panic w => Some (task, Panic w)
  end.

(** ** The scan-binlog command *)

(** The timestamp field, the primary key and the named fields. *)
Definition scan_fields (schema : list FieldSchema) (names : gset string) : gmap Z FieldSchema :=
  foldl (λ fields fieldSchema,
    if bool_decide (FieldID fieldSchema = 1) || IsPrimaryKey fieldSchema
       || bool_decide (fs_Name fieldSchema ∈ names)
    then <[FieldID fieldSchema := fieldSchema]> fields else fields) ∅ schema.

(** The callback of [addDeltaRecords]: the lookup is by timestamp, a [uint64]. *)
Definition record_delete (pk : PrimaryKey) (ts : Z) (recordMap : gmap any Z) : gmap any Z * bool :=
  (match recordMap !! VUint64 ts with
   | Some old => if bool_decide (ts > old) then <[PK_GetValue pk := ts]> recordMap else recordMap
   | None => <[PK_GetValue pk := ts]> recordMap
   end, true).
End scan.
Arguments EntryFilter : clear implicits.
Arguments SegmentIterator : clear implicits.

Section scan_command.
Context {J FA A B P T F C R : Type} `{JsonMap J} `{ArrowFile FA A} `{Arrow A B} `{ScalarFieldProto}.
Context `{ExprLang P} `{MapOrder} `{ScanTask T} `{JsonDoc R} `{Parquet F C}.

Definition add_delta_file (getObject : string → res (list byte)) (dataType : Z) (path : string)
    (recordMap : gmap any Z) : gmap any Z * res unit :=
  match
    (deltaObj ← getObject path;
     '(_, rest) ← NewDeltalogReader (J:=J) deltaObj;
     '(deltaData, _) ← Deltalog_NextEventReader (F:=F) dataType rest;
     DeltaData_Range deltaData record_delete recordMap)
  with
  | Ok recordMap' => (recordMap', Ok tt)
  | Err e => (recordMap, Err e)
  | Panic w => (recordMap, Panic w)
  end.

Fixpoint addDeltaRecords (getObject : string → res (list byte)) (dataType : Z)
    (paths : list string) (recordMap : gmap any Z) : gmap any Z * res unit :=
  match paths with
  | [] => (recordMap, Ok tt)
  | path :: paths =>
      let '(recordMap, e) := add_delta_file getObject dataType path recordMap in
      match e with
      | Ok _ => addDeltaRecords getObject dataType paths recordMap
      | e => (recordMap, e)
      end
  end.

(** One segment: its error from the delta logs is dropped, a panic is not. *)
Definition workFn (fuel : nat) (getObject : string → res (list byte)) (pkType : Z)
    (schema : list FieldSchema) (fields : gmap Z FieldSchema) (l0DeleteRecords : gmap any Z)
    (exprFilter : option (ExprFilter P)) (segment : Segment) (deltalogs : list string) (task : T)
    : option (T * res unit) :=
  let '(deletedRecords, e) := addDeltaRecords getObject pkType deltalogs ∅ in
  match e with
  | Panic w => Some (task, Panic w)
  | _ =>
      let filters :=
        [ByDeltalog (NewDeltalogFilter l0DeleteRecords);
         ByDeltalog (NewDeltalogFilter deletedRecords)]
        ++ match exprFilter with Some f => [ByExpr f] | None => [] end in
      Range (J:=J) (FA:=FA) (A:=A) (B:=B) fuel (SI segment schema filters fields getObject) task
  end.
End scan_command.

(** ** Properties *)
Section scan_properties.
Context {J FA A B P T : Type} `{JsonMap J} `{ArrowFile FA A} `{Arrow A B} `{ScalarFieldProto}.
Context `{ExprLang P} `{MapOrder} `{ScanTask T}.

(** A row of the segment: its batch, its record batch and its index in that. *)
#[local] Abbreviation row := (BatchInfo * RecordBatch A * Z)%type.

(** The rows of a delivered record batch; none when its length or batch is missing. *)
Definition rows_of (d : RecordBatch A * option BatchInfo) : list row :=
  match d.2, RB_Len (B:=B) d.1 with
  | Some bi, Ok len => map (λ i, (bi, d.1, i)) (seqZ 0 (Z.of_nat (Z.to_nat len)))
  | _, _ => []
  end.

(** The position of a row in its batch: how many rows with its batch index came
    before; [seen] are the batch indices of these rows. *)
Fixpoint with_offsets (seen : list Z) (rows : list row) : list (row * Z) :=
  match rows with
  | [] => []
  | r :: rows =>
      (r, zlen (filter (λ b, b = BatchIdx r.1.1) seen))
      :: with_offsets (BatchIdx r.1.1 :: seen) rows
  end.

(** Scanning rows one by one, each decoded by [decode], up to the first error. *)
Fixpoint scan_all (filters : list (EntryFilter P)) (decode : row → gmap Z any * PrimaryKey)
    (rows : list (row * Z)) (task : T) : T * res unit :=
  match rows with
  | [] => (task, Ok tt)
  | (r, offset) :: rows =>
      let '(values, pk) := decode r in
      let '(task, e) := scan filters pk r.1.1 offset values task in
      match e with Ok _ => scan_all filters decode rows task | e => (task, e) end
  end.

Lemma scan_all_app filters decode l1 l2 task :
  scan_all filters decode (l1 ++ l2) task =
  let '(task, e) := scan_all filters decode l1 task in
  match e with Ok _ => scan_all filters decode l2 task | e => (task, e) end.
Proof.
  revert task. induction l1 as [|[r off] l1 IH]; intros task; simpl; [done|].
  destruct (decode r) as [values pk]. destruct (scan _ _ _ _ _ _) as [task' []]; auto.
Qed.

Lemma with_offsets_app seen l1 l2 :
  with_offsets seen (l1 ++ l2)
  = with_offsets seen l1 ++ with_offsets (rev (map (λ r : row, BatchIdx r.1.1) l1) ++ seen) l2.
Proof.
  revert seen. induction l1 as [|r l1 IH]; intros seen; simpl; [done|].
  rewrite IH, <-(app_assoc (rev _) [_] seen). done.
Qed.

(** A record batch is [decoded] when its length is known and every row decodes into
    the fields' values and a key of type [t], whatever the key before it. *)
Definition decoded (si : SegmentIterator P) (fields : list Z) (t : Z)
    (decode : row → gmap Z any * PrimaryKey) (d : RecordBatch A * option BatchInfo) : Prop :=
  ∃ bi len, d.2 = Some bi ∧ RB_Len (B:=B) d.1 = Ok len ∧ 0 ≤ len ∧
    ∀ i pk, 0 ≤ i < len → PK_Type pk = t →
      read_row (B:=B) (si_id2Schema si) fields d.1 pk i = Ok (decode (bi, d.1, i))
      ∧ PK_Type (decode (bi, d.1, i)).2 = t.

Lemma scan_rows_all si fields rb bi t decode n i (st : ScanState) seen :
  (∀ j pk, i ≤ j < i + Z.of_nat n → PK_Type pk = t →
     read_row (B:=B) (si_id2Schema si) fields rb pk j = Ok (decode (bi, rb, j))
     ∧ PK_Type (decode (bi, rb, j)).2 = t) →
  PK_Type (ss_pk st) = t → ss_batchIdx st = BatchIdx bi →
  ss_offset st = zlen (filter (λ b, b = BatchIdx bi) seen) →
  zlen seen + Z.of_nat n < 2 ^ 63 →
  let rows := map (λ j, (bi, rb, j)) (seqZ i (Z.of_nat n)) in
  ∃ st' e, scan_rows (B:=B) si fields rb bi n i st = (st', e)
    ∧ scan_all (si_filters si) decode (with_offsets seen rows) (ss_task st) = (ss_task st', e)
    ∧ (∀ u, e = Ok u → PK_Type (ss_pk st') = t ∧ ss_batchIdx st' = BatchIdx bi
         ∧ ss_offset st' = zlen (filter (λ b, b = BatchIdx bi)
                                   (rev (map (λ r : row, BatchIdx r.1.1) rows) ++ seen))).
Proof.
  revert i st seen. induction n as [|n IH]; intros i st seen Hread Ht Hb Ho Hlt rows.
  { exists st, (Ok tt). split_and!; try done. }
  subst rows. rewrite seqZ_cons by lia. replace (Z.pred (Z.of_nat (S n))) with (Z.of_nat n) by lia.
  simpl. destruct (Hread i (ss_pk st)) as [Hr Hpk]; [lia|done|]. rewrite Hr.
  destruct (decode (bi, rb, i)) as [values pk]. simpl in Hpk. rewrite <-Ho.
  destruct (scan _ _ _ _ _ _) as [task e] eqn:Hscan.
  destruct e as [u|e|w]; [|eexists _, _; split_and!; [done..|discriminate]
                          |eexists _, _; split_and!; [done..|discriminate]].
  assert (∀ l : list Z, zlen (filter (λ b, b = BatchIdx bi) l) ≤ zlen l) as Hfl.
  { intros l. unfold zlen. pose proof (length_filter (λ b, b = BatchIdx bi) l). lia. }
  destruct (IH (Z.succ i) (SS pk (int64 (ss_offset st + 1)) (ss_batchIdx st) task)
              (BatchIdx bi :: seen)) as (st' & e & Hs1 & Hs2 & Hs3); simpl; try done.
  { intros j pk' Hj. apply Hread. lia. }
  { rewrite filter_cons_True by done. rewrite zlen_cons, <-Ho. apply wraps_id; [lia|].
    pose proof (Hfl seen). pose proof (zlen_nonneg (filter (λ b, b = BatchIdx bi) seen)).
    unfold in_s. lia. }
  { rewrite zlen_cons. lia. }
  exists st', e. rewrite <-Z.add_1_r in Hs1, Hs2, Hs3. rewrite <-Z.add_1_r.
  split_and!; [done..|]. intros u' Hu. destruct (Hs3 u' Hu) as (? & ? & Hoff).
  split_and!; [done..|]. by rewrite Hoff, <-(app_assoc (rev _) [_] seen).
Qed.

Lemma filter_count_none (b : Z) seen :
  Forall (λ x, x < b) seen → filter (λ x, x = b) seen = [].
Proof.
  induction 1 as [|x seen Hx _ IH]; [done|]. by rewrite filter_cons_False by lia.
Qed.

(** The batch indices of what is delivered never decrease, from [b] on. *)
Fixpoint batches_from (b : Z) (ds : list (RecordBatch A * option BatchInfo)) : Prop :=
  match ds with
  | [] => True
  | d :: ds => match d.2 with
               | Some bi => b ≤ BatchIdx bi ∧ batches_from (BatchIdx bi) ds
               | None => False
               end
  end.

Lemma Range_loop_all si fields t decode reader ds fuel (st : ScanState) seen :
  delivers reader ds → Forall (decoded si fields t decode) ds → (length ds < fuel)%nat →
  batches_from (ss_batchIdx st) ds →
  PK_Type (ss_pk st) = t → Forall (λ b, b ≤ ss_batchIdx st) seen →
  ss_offset st = zlen (filter (λ b, b = ss_batchIdx st) seen) →
  zlen seen + zlen (concat (map rows_of ds)) < 2 ^ 63 →
  Range_loop (J:=J) (FA:=FA) (B:=B) fuel si fields reader st
  = Some (scan_all (si_filters si) decode (with_offsets seen (concat (map rows_of ds))) (ss_task st)).
Proof.
  intros Hd. revert fuel st seen. induction Hd as [reader Heof|reader rb bi reader' ds Hn _ IH];
    intros fuel st seen Hdec Hfuel Hb Ht Hseen Ho Hlt;
    (destruct fuel as [|fuel]; [simpl in Hfuel; lia|]); simpl.
  { by rewrite Heof. }
  rewrite Hn. apply list.Forall_cons in Hdec as [(bi' & len & Hbi & Hlen & Hpos & Hread) Hdec].
  simpl in Hbi, Hlen, Hread. subst bi. simpl in Hb. destruct Hb as [Hb Hbs]. rewrite Hlen.
  set (st1 := if bool_decide _ then _ else st).
  assert (ss_pk st1 = ss_pk st ∧ ss_task st1 = ss_task st ∧ ss_batchIdx st1 = BatchIdx bi'
    ∧ ss_offset st1 = zlen (filter (λ b, b = BatchIdx bi') seen)
    ∧ Forall (λ b, b ≤ BatchIdx bi') seen) as (Hpk1 & Htk1 & Hb1 & Ho1 & Hseen1).
  { unfold st1. case_bool_decide as Hne; simpl.
    - split_and!; [done..| |].
      + rewrite filter_count_none; [done|]. eapply Forall_impl; [|exact Hseen]. simpl. lia.
      + eapply Forall_impl; [|exact Hseen]. simpl. lia.
    - rewrite Hne. by split_and!. }
  clearbody st1. assert (rows_of (rb, Some bi')
    = map (λ j, (bi', rb, j)) (seqZ 0 (Z.of_nat (Z.to_nat len)))) as Hrows
    by (unfold rows_of; simpl; by rewrite Hlen).
  rewrite Hrows. cbn [map concat] in Hlt. rewrite Hrows, zlen_app in Hlt.
  set (rows := map _ (seqZ 0 _)) in *.
  assert (zlen rows = Z.of_nat (Z.to_nat len)) as Hrl.
  { unfold rows, zlen. rewrite length_map, length_seqZ. lia. }
  rewrite Hrl in Hlt. match type of Hlt with context [@zlen ?X (concat ?l)] =>
    pose proof (@zlen_nonneg X (concat l)) end.
  destruct (scan_rows_all si fields rb bi' t decode (Z.to_nat len) 0 st1 seen)
    as (st' & e & Hs1 & Hs2 & Hs3); [|congruence|done|done|lia|].
  { intros j pk Hj. apply Hread. lia. }
  rewrite Hs1, with_offsets_app, scan_all_app, <-Htk1. fold rows in Hs2, Hs3. rewrite Hs2.
  destruct e as [u|e|w]; [|done..]. destruct (Hs3 u eq_refl) as (Hpk' & Hb' & Ho').
  apply IH; try done.
  - simpl in Hfuel. lia.
  - by rewrite Hb'.
  - rewrite Hb'. apply list.Forall_app. split; [|done].
    apply list.Forall_forall. intros b Hbin%list_elem_of_In. apply in_rev in Hbin.
    apply in_map_iff in Hbin as (r & <- & Hr). unfold rows in Hr.
    apply in_map_iff in Hr as (j & <- & _). done.
  - by rewrite Hb'.
  - rewrite zlen_app. unfold zlen at 1. rewrite length_rev, length_map. fold (zlen rows). rewrite Hrl. lia.
Qed.

(** What a segment iterator reads: a reader that delivers [ds], a first key [pk0]. *)
Record scannable (si : SegmentIterator P) (decode : row → gmap Z any * PrimaryKey)
    (ds : list (RecordBatch A * option BatchInfo)) : Prop := {
  sc_reader : ∃ reader : SegmentBinlogRecordReader J FA A,
    NewSegmentReader (si_segment si) (map fst (range (si_id2Schema si))) (si_translator si) = Ok reader
    ∧ delivers reader ds;
  sc_rows : ∃ pk0, new_pk (si_schema si) = Ok pk0
    ∧ Forall (decoded si (map fst (range (si_id2Schema si))) (PK_Type pk0) decode) ds;
  sc_batches : batches_from 0 ds;
  sc_few : zlen (concat (map rows_of ds)) < 2 ^ 63;
}.

Lemma Range_all si decode ds fuel task :
  scannable si decode ds → (length ds < fuel)%nat →
  Range (J:=J) (FA:=FA) (B:=B) fuel si task
  = Some (scan_all (si_filters si) decode (with_offsets [] (concat (map rows_of ds))) task).
Proof.
  intros [(reader & Hr & Hd) (pk0 & Hpk & Hdec) Hb Hlt] Hfuel. unfold Range.
  rewrite Hr. cbn [mbind res_bind]. rewrite Hpk. cbn [mbind res_bind].
  eapply (Range_loop_all si _ (PK_Type pk0) decode reader ds fuel (SS pk0 0 (-1) task) []);
    simpl; try done.
  destruct ds as [|[rb [bi|]] ds]; simpl in *; [done| |done]. split; [lia|]. apply Hb.
Qed.

(** C6 (functional): over a segment whose reader delivers decodable record batches in
    the order of the batches, [Range] ends, having scanned every row exactly once and
    in order with its own values and key, and with its position in its batch as
    offset, up to the first error of a filter or of the task, which it returns. *)
Theorem Range_scans si decode ds fuel task :
  scannable si decode ds → (length ds < fuel)%nat →
  Range (J:=J) (FA:=FA) (B:=B) fuel si task
  = Some (scan_all (si_filters si) decode (with_offsets [] (concat (map rows_of ds))) task).
Proof. apply Range_all. Qed.
End scan_properties.

Section count.
Context {J FA A B P : Type} `{JsonMap J} `{ArrowFile FA A} `{Arrow A B} `{ScalarFieldProto}.
Context `{ExprLang P} `{MapOrder}.

Lemma scan_all_count filters (decode : BatchInfo * RecordBatch A * Z → gmap Z any * PrimaryKey)
    (keep : BatchInfo * RecordBatch A * Z → bool) rows seen task :
  (∀ r, r ∈ rows → match_filters filters (decode r).2 (decode r).1 = Ok (keep r)) →
  in_s 64 (count_counter task) →
  scan_all filters decode (with_offsets seen rows) task
  = (CT (int64 (count_counter task + zlen (filter (λ r, keep r = true) rows))), Ok tt).
Proof.
  revert seen task. induction rows as [|r rows IH]; intros seen task Hk Hc; simpl.
  { rewrite Z.add_0_r, wraps_id by done. by destruct task. }
  pose proof (Hk r ltac:(left)) as Hr. destruct (decode r) as [values pk]. simpl in Hr.
  unfold scan. rewrite Hr. rewrite filter_cons. destruct (keep r); simpl.
  - rewrite IH; [|intros; apply Hk; by right|by apply wraps_range]. simpl.
    rewrite wraps_add_l, zlen_cons by lia. do 3 f_equal. lia.
  - apply IH; [|done]. intros. apply Hk. by right.
Qed.

(** The count task counts exactly the rows that all filters accept. *)
Theorem Range_counts (si : SegmentIterator P)
    (decode : BatchInfo * RecordBatch A * Z → gmap Z any * PrimaryKey) keep ds fuel :
  scannable (J:=J) (FA:=FA) (B:=B) si decode ds → (length ds < fuel)%nat →
  (∀ r, r ∈ concat (map (rows_of (B:=B)) ds) →
     match_filters (si_filters si) (decode r).2 (decode r).1 = Ok (keep r)) →
  Range (J:=J) (FA:=FA) (B:=B) fuel si NewCountTask
  = Some (CT (zlen (filter (λ r, keep r = true) (concat (map (rows_of (B:=B)) ds)))), Ok tt).
Proof.
  intros Hs Hf Hk. rewrite (Range_all si decode ds) by done.
  rewrite (scan_all_count _ _ keep); [|done|in_range]. f_equal. f_equal. f_equal.
  apply wraps_id; [lia|]. simpl. destruct Hs as [_ _ _ Hlt].
  match goal with |- context [@zlen ?X (filter ?Q ?l)] =>
    pose proof (length_filter Q l); pose proof (zlen_nonneg (filter Q l)) end.
  unfold in_s, zlen in *. lia.
Qed.
End count.

#[export] Instance PK_GetValue_inj : Inj (=) (=) PK_GetValue.
Proof. by intros [v|v] [w|w] [= ->]. Qed.

Lemma dedup_step t pk :
  Dedup_Scan pk t =
  if bool_decide (PK_GetValue pk ∈ ids t) then
    DT (int64 (dedup_counter t + 1)) (ids t)
      (<[PK_GetValue pk := int64 (default 0 (dedupResult t !! PK_GetValue pk) + 1)]> (dedupResult t))
  else DT (dedup_counter t) ({[PK_GetValue pk]} ∪ ids t) (dedupResult t).
Proof. reflexivity. Qed.

Lemma count_snoc (pk pk' : PrimaryKey) ks :
  zlen (filter (λ k, k = pk') (ks ++ [pk]))
  = zlen (filter (λ k, k = pk') ks) + if decide (pk = pk') then 1 else 0.
Proof.
  rewrite list.filter_app, zlen_app. f_equal. rewrite filter_cons. by case_decide.
Qed.

Lemma count_zero (pk : PrimaryKey) ks : pk ∉ ks → zlen (filter (λ k, k = pk) ks) = 0.
Proof.
  induction ks as [|k ks IH]; [done|]. intros [? ?]%not_elem_of_cons.
  rewrite filter_cons_False by congruence. auto.
Qed.
Lemma count_pos (pk : PrimaryKey) ks : pk ∈ ks → 1 ≤ zlen (filter (λ k, k = pk) ks).
Proof.
  intros Hin. assert (pk ∈ filter (λ k, k = pk) ks) as Hf by by apply list_elem_of_filter.
  destruct (filter _ ks); [by apply not_elem_of_nil in Hf|]. rewrite zlen_cons.
  match goal with |- context [zlen ?l] => pose proof (zlen_nonneg l) end. lia.
Qed.

Lemma keys_elem pk ks :
  PK_GetValue pk ∈ (list_to_set (map PK_GetValue ks) : gset any) ↔ pk ∈ ks.
Proof.
  rewrite elem_of_list_to_set, list_elem_of_fmap. split; [by intros (k & ->%(inj _) & ?)|eauto].
Qed.

Lemma size_list_to_set_le (l : list any) : (size (list_to_set l : gset any) ≤ length l)%nat.
Proof.
  induction l as [|v l IH]; [done|]. simpl. rewrite size_union_alt, size_singleton.
  pose proof (subseteq_size (list_to_set l ∖ {[v]}) (list_to_set l : gset any)) as Hs.
  specialize (Hs ltac:(set_solver)). lia.
Qed.

(** After a scan of the keys [ks], the dedup task knows every key,
    reports exactly those that occurred more than once, each with its number of
    repetitions, and its counter is the number of keys in excess. *)
Theorem Dedup_Scan_spec ks :
  zlen ks < 2 ^ 63 →
  let t := foldl (λ t pk, Dedup_Scan pk t) NewDedupTask ks in
  ids t = list_to_set (map PK_GetValue ks)
  ∧ (∀ pk, dedupResult t !! PK_GetValue pk =
       let n := zlen (filter (λ k, k = pk) ks) in
       if bool_decide (n ≤ 1) then None else Some (n - 1))
  ∧ dedup_counter t = zlen ks - Z.of_nat (size (ids t)).
Proof.
  induction ks as [|pk ks IH] using rev_ind; [done|]. rewrite zlen_app, map_app.
  change (zlen [pk]) with 1. intros Hlt. rewrite foldl_app. simpl.
  destruct IH as (Hids & Hres & Hc); [lia|].
  set (t := foldl (λ t pk, Dedup_Scan pk t) NewDedupTask ks) in *.
  rewrite dedup_step, list_to_set_app_L, Hids. simpl.
  assert (zlen (filter (λ k, k = pk) ks) ≤ zlen ks) as Hle.
  { unfold zlen. pose proof (length_filter (λ k, k = pk) ks). lia. }
  case_bool_decide as Hin; rewrite keys_elem in Hin; simpl; split_and!.
  - apply leibniz_equiv. pose proof (proj2 (keys_elem pk ks) Hin). set_solver.
  - intros pk'. rewrite count_snoc. destruct (decide (pk = pk')) as [<-|Hne].
    + pose proof (count_pos pk ks Hin). rewrite lookup_insert_eq, Hres. simpl.
      rewrite (bool_decide_false (_ + 1 ≤ 1)) by lia. f_equal.
      case_bool_decide; simpl; rewrite wraps_id; unfold in_s; lia.
    + rewrite lookup_insert_ne, Z.add_0_r by (by intros ?%(inj _)). apply Hres.
  - rewrite Hc, Hids. pose proof (size_list_to_set_le (map PK_GetValue ks)) as Hs.
    rewrite length_map in Hs. rewrite wraps_id; unfold in_s, zlen in *; lia.
  - set_solver.
  - intros pk'. rewrite Hres, count_snoc. destruct (decide (pk = pk')) as [<-|Hne].
    + by rewrite count_zero.
    + by rewrite Z.add_0_r.
  - rewrite Hc, Hids, size_union, size_singleton; [lia|].
    intros x ->%elem_of_singleton ?%keys_elem. done.
Qed.

Definition after_deletes (ds : list (PrimaryKey * Z)) : gmap any Z :=
  foldl (λ m d, (record_delete d.1 d.2 m).1) ∅ ds.

Lemma record_delete_fresh pk ts m :
  m !! VUint64 ts = None → (record_delete pk ts m).1 = <[PK_GetValue pk := ts]> m.
Proof. intros Hm. unfold record_delete. by rewrite Hm. Qed.

Lemma after_deletes_times ds ts : after_deletes ds !! VUint64 ts = None.
Proof.
  unfold after_deletes. revert ts. induction ds as [|[k t] ds IH] using rev_ind; intros ts; [done|].
  rewrite foldl_app. cbn [foldl fst snd]. rewrite record_delete_fresh by apply IH.
  rewrite lookup_insert_ne; [apply IH|by destruct k].
Qed.

(** The callback looks the timestamp up among the keys, where
    it never is, so the guard against older deletes has no effect: after the deletes
    [ds] a key has the timestamp of its last entry, not of its latest delete. *)
Theorem record_delete_last ds pk :
  foldl (λ m d, (record_delete d.1 d.2 m).1) ∅ ds !! PK_GetValue pk
  = snd <$> list.last (filter (λ d, d.1 = pk) ds).
Proof.
  change (foldl _ ∅ ds) with (after_deletes ds).
  induction ds as [|[k t] ds IH] using rev_ind; [done|].
  unfold after_deletes. rewrite foldl_app, list.filter_app. cbn [foldl fst snd].
  rewrite record_delete_fresh by apply after_deletes_times. fold (after_deletes ds).
  rewrite filter_cons, filter_nil. cbn [fst]. case_decide as Hk.
  - subst k. by rewrite lookup_insert_eq, last_snoc.
  - rewrite lookup_insert_ne by (by intros ?%(inj _)). by rewrite app_nil_r.
Qed.

(** ** A concrete scan: the columns of [bytes_arrow] hold one [int64] each. *)
#[export] Instance one_int64 : Arrow Z unit := {
  a_kind _ := KInt64;
  a_Len _ := 1;
  a_IsNull _ _ := false;
  a_Value z _ := VInt64 z;
  b_type _ := Primitive KInt64;
  b_AppendNull b := b;
  b_Append b _ := Ok b;
  b_NewArray _ := 0;
}.

Definition sample_iterator : SegmentIterator any :=
  SI sample_segment [FS 101 "pk" true DataType_Int64] []
    {[101 := FS 101 "pk" true DataType_Int64]} (λ _, Ok sample_binlog).

Definition sample_batch (b : Z) : BatchInfo :=
  BI 7 b {[101 := sample_binlog]} {[101 := if bool_decide (b = 0) then "a" else "b"]}.
Definition sample_row (v : Z) : RecordBatch Z := CRB {[101 := 0]} [Some v].
Definition sample_rows : list (RecordBatch Z * option BatchInfo) :=
  [(sample_row 5, Some (sample_batch 0)); (sample_row 6, Some (sample_batch 0));
   (sample_row 5, Some (sample_batch 1)); (sample_row 6, Some (sample_batch 1))].
Definition sample_decode (r : BatchInfo * RecordBatch Z * Z) : gmap Z any * PrimaryKey :=
  match crb_recs r.1.2 with
  | Some v :: _ => ({[101 := VInt64 v]}, Int64PrimaryKey v)
  | _ => (∅, Int64PrimaryKey 0)
  end.

Lemma sample_scannable :
  scannable (J:=string) (FA:=list byte) (B:=unit) sample_iterator sample_decode sample_rows.
Proof.
  split.
  - eexists. split; [vm_compute; reflexivity|].
    repeat (eapply delivers_next; [vm_compute; reflexivity|]). apply delivers_eof.
    vm_compute. reflexivity.
  - exists (Int64PrimaryKey 0). split; [reflexivity|].
    unfold sample_rows. rewrite !list.Forall_cons. split_and!; [..|by apply list.Forall_nil];
      (eexists _, 1; split; [reflexivity|]; split; [reflexivity|];
      split; [lia|]; intros i [v|v] Hi Ht; [|discriminate];
      assert (i = 0) as -> by lia; split; vm_compute; reflexivity).
  - vm_compute. intuition congruence.
  - reflexivity.
Qed.

Lemma Range_scans_witness :
  Range (J:=string) (FA:=list byte) (B:=unit) 5 sample_iterator (NewLocateTask 3 101)
  = Some (LT 4 3 101
      [Loc 7 0 (VInt64 5) 0 "a"; Loc 7 1 (VInt64 6) 0 "a"; Loc 7 0 (VInt64 5) 1 "b"], Err EOF).
Proof.
  rewrite (Range_scans (J:=string) (FA:=list byte) (B:=unit) sample_iterator sample_decode sample_rows);
    [vm_compute; reflexivity|exact sample_scannable|simpl; lia].
Defined.

Lemma Range_counts_witness :
  Range (J:=string) (FA:=list byte) (B:=unit) 5 sample_iterator NewCountTask = Some (CT 4, Ok tt).
Proof.
  rewrite (Range_counts (J:=string) (FA:=list byte) (B:=unit) sample_iterator sample_decode
             (λ _, true) sample_rows);
    [vm_compute; reflexivity|exact sample_scannable|simpl; lia|intros; reflexivity].
Defined.

Lemma Dedup_Scan_spec_witness :
  let t := foldl (λ t pk, Dedup_Scan pk t) NewDedupTask
             [Int64PrimaryKey 1; Int64PrimaryKey 2; Int64PrimaryKey 1] in
  dedupResult t !! VInt64 1 = Some 1 ∧ dedup_counter t = 1.
Proof.
  intros t.
  destruct (Dedup_Scan_spec [Int64PrimaryKey 1; Int64PrimaryKey 2; Int64PrimaryKey 1])
    as (_ & Hr & Hc); [vm_compute; reflexivity|].
  split; [exact (Hr (Int64PrimaryKey 1))|]. unfold t. rewrite Hc. vm_compute. reflexivity.
Defined.
