(* ===== verification/MetaKV.v ===== *)
(** * The metadata store: etcd

    Models [states/kv/kv.go] (the etcd side), [states/kv/utils.go] and
    [states/kv/options.go].  The etcd client library is the interface [EtcdClient];
    [EtcdLaws] states what the operations used here promise on a reachable server
    with no other writer.  A call that changes the store returns the new client
    state next to its result. *)

From S2P Require Export KeyOrder.

(** ** The etcd client *)

(** The range of keys a request is about: its key alone, [WithPrefix],
    [WithFromKey], [WithRange(end)]. *)
Inductive key_range := RKey | RPrefix | RFromKey | RRange (range_end : string).

Record GetOp := Op {
  op_range : key_range;
  op_limit : Z;                 (* [WithLimit]; 0: none *)
  op_keysOnly : bool;
  op_countOnly : bool;
  op_rev : option Z;            (* [WithRev] *)
}.

Record GetResponse := Resp {
  resp_Kvs : list (string * string);
  resp_Count : Z;
  resp_More : bool;
  resp_Revision : Z;
}.

Class EtcdClient (St : Type) := {
  client_Get : St → string → GetOp → res GetResponse;
  client_Put : St → string → string → St * res unit;
  (* [Txn(ctx).If().Then(puts...).Commit()] *)
  client_TxnPut : St → list (string * string) → St * res unit;
  (* the deleted pairs, as returned for [WithPrevKV] *)
  client_Delete : St → string → key_range → St * res (list (string * string));
  GetPrefixRangeEnd : string → string;
}.

(** Whether key [k] is in the range [r] of a request for [key]; the end ["\000"]
    stands for no end. *)
Definition in_range_of (r : key_range) (key k : string) : bool :=
  match r with
  | RKey => bool_decide (k = key)
  | RPrefix => HasPrefix k key
  | RFromKey => kle key k
  | RRange e => kle key k && (bool_decide (e = String zero_char "") || klt k e)
  end.

Definition matching (m : gmap string string) (r : key_range) (key : string)
    : list (string * string) :=
  filter (λ kv, in_range_of r key kv.1 = true) (sorted_kvs m).

(** The answer to a [Get]: the pairs in the range, sorted, up to the limit; [Count] is
    the number of pairs in the range, and [More] tells that some were cut off. *)
Definition answer (m : gmap string string) (rev : Z) (key : string) (op : GetOp) : GetResponse :=
  let all := matching m (op_range op) key in
  let page := if bool_decide (0 < op_limit op) then take (Z.to_nat (op_limit op)) all else all in
  Resp (if op_countOnly op then [] else map (λ kv, (kv.1, if op_keysOnly op then "" else kv.2)) page)
    (zlen all) (bool_decide (0 < op_limit op) && bool_decide (op_limit op < zlen all)) rev.

(** The server refuses an empty key; the client puts the key ["\000"] in its place for
    [WithPrefix] and [WithFromKey]. *)
Definition key_given (r : key_range) (key : string) : Prop :=
  key ≠ "" ∨ r = RPrefix ∨ r = RFromKey.

Definition ErrEmptyKey : goerr := Errorf "etcdserver: key is not provided".

Class EtcdLaws (St : Type) `{EtcdClient St} := {
  etcd_kvs : St → gmap string string;
  etcd_rev : St → Z;
  etcd_up : St → Prop;
  etcd_Get s key op : etcd_up s → op_rev op = None ∨ op_rev op = Some (etcd_rev s) →
    key_given (op_range op) key →
    client_Get s key op = Ok (answer (etcd_kvs s) (etcd_rev s) key op);
  etcd_Get_empty s op : etcd_up s → ¬ key_given (op_range op) "" →
    client_Get s "" op = Err ErrEmptyKey;
  etcd_Put s key value : etcd_up s → key ≠ "" →
    ∃ s', client_Put s key value = (s', Ok tt) ∧ etcd_kvs s' = <[key := value]> (etcd_kvs s)
          ∧ etcd_up s';
  etcd_TxnPut s l : etcd_up s → NoDup (map fst l) → "" ∉ map fst l →
    ∃ s', client_TxnPut s l = (s', Ok tt) ∧ etcd_kvs s' = list_to_map l ∪ etcd_kvs s ∧ etcd_up s';
  etcd_Delete s key r : etcd_up s → key ≠ "" →
    ∃ s', client_Delete s key r = (s', Ok (matching (etcd_kvs s) r key))
          ∧ etcd_kvs s' = filter (λ kv, in_range_of r key kv.1 = false) (etcd_kvs s) ∧ etcd_up s';
  (* "Get(foo, WithPrefix()) is equal to Get(foo, WithRange(GetPrefixRangeEnd(foo)))" *)
  etcd_prefix_end p k : kle p k = true →
    in_range_of (RRange (GetPrefixRangeEnd p)) p k = in_range_of RPrefix p k;
}.

(** ** [joinPath] *)
Definition joinPath (parts : list string) : string :=
  let r := path_Join parts in
  match parts with
  | [] => r
  | _ => if HasSuffix (List.last parts "") "/" then r +:+ "/" else r
  end.

(** ** [bufio.Writer]

    What reached the underlying writer, which does not fail, and what is still in the
    buffer of the default size. *)
Record bufio_Writer := MkWr { wr_out : list byte; wr_buf : list byte }.

Definition bufio_size : Z := 4096.

Definition bufio_NewWriter : bufio_Writer := MkWr [] [].

Definition bufio_Flush (w : bufio_Writer) : bufio_Writer := MkWr (wr_out w ++ wr_buf w) [].

(** With an empty buffer data that does not fit is written directly; otherwise the
    buffer is filled and flushed first. *)
Definition bufio_Write (w : bufio_Writer) (p : list byte) : bufio_Writer :=
  let avail := bufio_size - zlen (wr_buf w) in
  if bool_decide (zlen p <= avail) then MkWr (wr_out w) (wr_buf w ++ p)
  else match wr_buf w with
       | [] => MkWr (wr_out w ++ p) []
       | _ =>
           let out := wr_out w ++ wr_buf w ++ take (Z.to_nat avail) p in
           let p := drop (Z.to_nat avail) p in
           if bool_decide (zlen p <= bufio_size) then MkWr out p else MkWr (out ++ p) []
       end.

(** ** Framing of backups *)
Definition writeBackupBytes (w : bufio_Writer) (data : list byte) : bufio_Writer :=
  let w := bufio_Write w (le_put 8 (zlen data)) in
  if bool_decide (0 < zlen data) then bufio_Write w data else w.

(** The bytes of such a frame. *)
Definition frame (data : list byte) : list byte :=
  le_put 8 (zlen data) ++ (if bool_decide (0 < zlen data) then data else []).

(** A sequence of data in the framing of backups and audit logs. *)
Definition frames (l : list (list byte)) : list byte := concat (map frame l).

Definition write_frames (w : bufio_Writer) (l : list (list byte)) : bufio_Writer :=
  foldl writeBackupBytes w l.

(** The encodings of [google.golang.org/protobuf/proto] for the messages [M], and of
    [encoding/json] for maps of strings. *)
Class ProtoCodec (M : Type) := {
  proto_Marshal : M → res (list byte);
  proto_Unmarshal : list byte → res M;
}.
(** [bs, _ := proto.Marshal(m)]. *)
Definition marshalled {M} `{ProtoCodec M} (m : M) : list byte :=
  match proto_Marshal m with Ok bs => bs | _ => [] end.

Class JsonStrings := {
  strings_Marshal : gmap string string → list byte;
  strings_Unmarshal : list byte → res (gmap string string);
}.

Record PartHeader := PH { PartType : Z; PartLen : Z; Extra : list byte }.
Definition PartType_EtcdBackup : Z := 1.
Definition PartType_MetricsBackup : Z := 2.
Definition PartType_MetricsDefaultBackup : Z := 3.
Definition PartType_Configurations : Z := 4.
Definition PartType_AppMetrics : Z := 5.
Definition PartType_LoadedSegments : Z := 6.

(** [commonpb.KeyDataPair]. *)
Record KeyDataPair := KDP { kdp_Key : string; kdp_Data : list byte }.

Section etcd.
Context {St : Type} `{EtcdClient St}.

Record etcdKV := EtcdKV { client : St; rootPath : string }.

Definition NewEtcdKV (client : St) : etcdKV := EtcdKV client "".

(** The result of a call that changed the client's state. *)
Definition updated {A} (kv : etcdKV) (r : St * res A) : etcdKV * res A :=
  (EtcdKV r.1 (rootPath kv), r.2).

Definition Load (kv : etcdKV) (key : string) (keysOnly : bool) : res string :=
  let key := joinPath [rootPath kv; key] in
  resp ← client_Get (client kv) key (Op RKey 0 keysOnly false None);
  if bool_decide (resp_Count resp <= 0) then Err ErrKeyNotFound
  else kv0 ← go_index (resp_Kvs resp) 0; Ok kv0.2.

Definition LoadWithPrefix (kv : etcdKV) (key : string) (keysOnly : bool)
    : res (list string * list string) :=
  let key := joinPath [rootPath kv; key] in
  resp ← client_Get (client kv) key (Op RPrefix 0 keysOnly false None);
  Ok (map fst (resp_Kvs resp), map snd (resp_Kvs resp)).

Definition Save (kv : etcdKV) (key value : string) : etcdKV * res unit :=
  updated kv (client_Put (client kv) (joinPath [rootPath kv; key]) value).

(** [values[i]] panics when there are fewer values than keys. *)
Definition MultiSave (kv : etcdKV) (keys values : list string) : etcdKV * res unit :=
  if bool_decide (length keys ≤ length values)%nat
  then updated kv (client_TxnPut (client kv) (zip keys values))
  else (kv, Panic "index out of range").

Definition Remove (kv : etcdKV) (key : string) : etcdKV * res unit :=
  let '(kv, r) := updated kv (client_Delete (client kv) (joinPath [rootPath kv; key]) RKey) in
  (kv, _ ← r; Ok tt).

Definition RemoveWithPrefix (kv : etcdKV) (prefix : string) : etcdKV * res unit :=
  let key := joinPath [rootPath kv; prefix] in
  let key := if HasSuffix key "/" then key else key +:+ "/" in
  let '(kv, r) := updated kv (client_Delete (client kv) key RPrefix) in
  (kv, _ ← r; Ok tt).

Definition removeWithPrevKV (kv : etcdKV) (key : string)
    : etcdKV * res (option (string * string)) :=
  let '(kv, r) := updated kv (client_Delete (client kv) (joinPath [rootPath kv; key]) RKey) in
  (kv, prev ← r; Ok (head prev)).

(** [return resp.PrevKvs, err]: the response is nil when the call failed. *)
Definition removeWithPrefixAndPrevKV (kv : etcdKV) (prefix : string)
    : etcdKV * res (list (string * string)) :=
  let '(kv, r) := updated kv (client_Delete (client kv) (joinPath [rootPath kv; prefix]) RPrefix) in
  (kv, match r with
       | Err _ => Panic "invalid memory address or nil pointer dereference"
       | r => r
       end).

(** The loop of [GetAllRootPath], for at most [fuel] requests. *)
Definition root_step (kv : string * string) (st : list string * string) : list string * string :=
  let p := List.hd "" (Split "/" kv.1) in
  (if bool_decide (p ≠ "") then st.1 ++ [p] else st.1, p +:+ "0").

Fixpoint GetAllRootPath (fuel : nat) (kv : etcdKV) (apps : list string) (current : string)
    : option (res (list string)) :=
  match fuel with
  | O => None
  | S fuel =>
      match client_Get (client kv) current (Op RFromKey 1 true false None) with
      | Err e => Some (Err e)
      | Panic w => Some (Panic w)
      | Ok resp =>
          let '(apps, current) := foldl (λ st kv, root_step kv st) (apps, current) (resp_Kvs resp) in
          if resp_More resp then GetAllRootPath fuel kv apps current else Some (Ok apps)
      end
  end.

(** [WalkWithPrefix]: the callback keeps a state of type [T]; it may change the store,
    which is in the state, so that [get] finds the store of the next request there. *)
Fixpoint walk_page {T} (fn : string → string → T → T * res unit) (kvs : list (string * string))
    (t : T) : T * res unit :=
  match kvs with
  | [] => (t, Ok tt)
  | (k, v) :: kvs =>
      let '(t, r) := fn k v t in
      match r with Ok _ => walk_page fn kvs t | r => (t, r) end
  end.

Fixpoint walk_loop {T} (fuel : nat) (get : T → etcdKV) (op : GetOp) (key : string)
    (fn : string → string → T → T * res unit) (t : T) : option (T * res unit) :=
  match fuel with
  | O => None
  | S fuel =>
      match client_Get (client (get t)) key op with
      | Err e => Some (t, Err e)
      | Panic w => Some (t, Panic w)
      | Ok resp =>
          let '(t, r) := walk_page fn (resp_Kvs resp) t in
          match r with
          | Ok _ =>
              if resp_More resp then
                match go_index (resp_Kvs resp) (zlen (resp_Kvs resp) - 1) with
                | Ok kv0 => walk_loop fuel get op (key_next kv0.1) fn t
                | _ => Some (t, Panic "index out of range")
                end
              else Some (t, Ok tt)
          | r => Some (t, r)
          end
      end
  end.

Definition WalkWithPrefix {T} (fuel : nat) (get : T → etcdKV) (prefix : string)
    (paginationSize : Z) (fn : string → string → T → T * res unit) (t : T) : option (T * res unit) :=
  let prefix := path_Join [rootPath (get t); prefix] in
  walk_loop fuel get (Op (RRange (GetPrefixRangeEnd prefix)) paginationSize false false None)
    prefix fn t.

(** ** [BackupKV] *)
Context `{ProtoCodec PartHeader} `{ProtoCodec KeyDataPair} `{JsonStrings}.

(** [instance] and [metaPath] of the base path. *)
Definition split_base (base : string) : string * string :=
  let parts := Split "/" base in
  if bool_decide (1 < zlen parts) then
    (joinPath (removelast parts), List.last parts "")
  else (base, "").

Definition backup_meta (base : string) (cnt rev : Z) : gmap string string :=
  <["metaPath" := (split_base base).2]> (<["instance" := (split_base base).1]>
    (<["rev" := FormatInt rev]> {["cnt" := FormatInt cnt]})).

(** One pair of a page: [valid], [currentKey] and what was written. *)
Definition backup_pair (prefix : string) (kv : string * string) (st : Z * string * bufio_Writer)
    : res (Z * string * bufio_Writer) :=
  let '(valid, currentKey, w) := st in
  if HasPrefix kv.1 prefix then
    bs ← proto_Marshal (KDP kv.1 (bytes_of_string kv.2));
    Ok (valid + 1, key_next kv.1, writeBackupBytes w bs)
  else Ok st.

(** The loop over pages, for at most [fuel] requests; what was written is kept when it
    fails. *)
Fixpoint backup_loop (fuel : nat) (kv : etcdKV) (op : GetOp) (prefix : string) (cnt : Z)
    (currentKey : string) (i : Z) (w : bufio_Writer) : option (bufio_Writer * res unit) :=
  match fuel with
  | O => None
  | S fuel =>
      match client_Get (client kv) currentKey op with
      | Err e => Some (w, Err e)
      | Panic p => Some (w, Panic p)
      | Ok resp =>
          if bool_decide (resp_Count resp = 0) then Some (w, Ok tt)
          else
            match foldM (backup_pair prefix) (resp_Kvs resp) (0, currentKey, w) with
            | Err e => Some (w, Err e)
            | Panic p => Some (w, Panic p)
            | Ok (valid, currentKey, w) =>
                let i := int64 (i + valid) in
                if bool_decide (cnt = 0) then Some (w, Panic "integer divide by zero")
                else backup_loop fuel kv op prefix cnt currentKey i w
            end
      end
  end.

Definition BackupKV (fuel : nat) (kv : etcdKV) (base prefix : string) (w : bufio_Writer)
    (ignoreRevision : bool) (batchSize : Z) : option (bufio_Writer * res unit) :=
  let key := joinPath [base; prefix] in
  match client_Get (client kv) key (Op RPrefix 0 false true None) with
  | Err e => Some (w, Err e)
  | Panic p => Some (w, Panic p)
  | Ok resp =>
      let cnt := resp_Count resp in
      let rev := resp_Revision resp in
      let ph := PH PartType_EtcdBackup (-1) (strings_Marshal (backup_meta base cnt rev)) in
      match proto_Marshal ph with
      | Err e => Some (w, Err e)
      | Panic p => Some (w, Panic p)
      | Ok bs =>
          let w := writeBackupBytes w bs in
          let op := Op RFromKey batchSize false false
                      (if ignoreRevision then None else Some rev) in
          match backup_loop fuel kv op key cnt key 0 w with
          | Some (w, Ok _) => Some (bufio_Flush (writeBackupBytes (bufio_Flush w) []), Ok tt)
          | r => r
          end
      end
  end.
End etcd.
Arguments etcdKV : clear implicits.

(** Everything that was written, whether it reached the underlying writer or not. *)
Definition wr_data (w : bufio_Writer) : list byte := wr_out w ++ wr_buf w.

Definition wr_ok (w : bufio_Writer) : Prop := zlen (wr_buf w) <= bufio_size.

Lemma wr_data_Write w p : wr_data (bufio_Write w p) = wr_data w ++ p.
Proof.
  unfold bufio_Write, wr_data. case_bool_decide; [by rewrite <-app_assoc|].
  destruct (wr_buf w) as [|b buf]; cbn [wr_out wr_buf]; [by rewrite !app_nil_r|].
  case_bool_decide; cbn [wr_out wr_buf]; rewrite ?app_nil_r, <-!app_assoc; by rewrite take_drop.
Qed.

Lemma wr_ok_Write w p : wr_ok w → wr_ok (bufio_Write w p).
Proof.
  unfold wr_ok, bufio_Write, bufio_size. intros Hw. case_bool_decide; cbn [wr_buf].
  - rewrite zlen_app. lia.
  - destruct (wr_buf w); [by cbn|]. case_bool_decide; cbn [wr_buf]; [done|]. by cbn.
Qed.

Lemma wr_data_frame w data : wr_data (writeBackupBytes w data) = wr_data w ++ frame data.
Proof.
  unfold writeBackupBytes, frame. case_bool_decide; rewrite !wr_data_Write; [by rewrite <-app_assoc|].
  by rewrite app_nil_r.
Qed.

Lemma wr_ok_frame w data : wr_ok w → wr_ok (writeBackupBytes w data).
Proof. intros Hw. unfold writeBackupBytes. case_bool_decide; by repeat apply wr_ok_Write. Qed.

Lemma wr_data_frames w l : wr_data (write_frames w l) = wr_data w ++ frames l.
Proof.
  revert w. induction l as [|d l IH]; intros w; cbn; [by rewrite app_nil_r|].
  by rewrite IH, wr_data_frame, <-app_assoc.
Qed.

Lemma wr_ok_frames w l : wr_ok w → wr_ok (write_frames w l).
Proof. revert w. induction l as [|d l IH]; intros w Hw; [done|]. by apply IH, wr_ok_frame. Qed.

Lemma wr_out_Write w p : ∃ l, wr_out (bufio_Write w p) = wr_out w ++ l.
Proof.
  unfold bufio_Write. case_bool_decide; [exists []; by rewrite app_nil_r|].
  destruct (wr_buf w); [by eexists|]. case_bool_decide; cbn [wr_out]; rewrite <-?app_assoc; by eexists.
Qed.

Lemma wr_out_frame w data : ∃ l, wr_out (writeBackupBytes w data) = wr_out w ++ l.
Proof.
  unfold writeBackupBytes. destruct (wr_out_Write w (le_put 8 (zlen data))) as [l1 H1].
  case_bool_decide; [|by exists l1]. destruct (wr_out_Write (bufio_Write w (le_put 8 (zlen data))) data)
    as [l2 H2]. exists (l1 ++ l2). by rewrite H2, H1, app_assoc.
Qed.

Lemma write_frames_app w l1 l2 : write_frames w (l1 ++ l2) = write_frames (write_frames w l1) l2.
Proof. apply foldl_app. Qed.

(** A short frame that has just been written leaves something in the buffer. *)
Lemma stopper_buffered w : wr_ok w → wr_buf (writeBackupBytes w []) ≠ [].
Proof.
  unfold wr_ok, writeBackupBytes. rewrite (bool_decide_false (0 < _)) by done.
  pose proof (length_le_put 8 (zlen (@nil byte))) as Hl. set (p := le_put 8 _) in *.
  intros Hw. assert (zlen p = 8) as Hp by (unfold zlen; lia). clearbody p.
  unfold bufio_Write, bufio_size in *. case_bool_decide as Ha; cbn [wr_buf].
  - intros [_ ->]%app_eq_nil. done.
  - destruct (wr_buf w) as [|b buf]; [by rewrite Hp in Ha|]. set (n := Z.to_nat _).
    assert (zlen (drop n p) = 8 - Z.of_nat n) as Hd by (unfold zlen in *; rewrite length_drop; lia).
    rewrite bool_decide_true by lia. cbn [wr_buf]. intros E. rewrite E in Hd. unfold zlen in *.
    simpl in Hd. lia.
Qed.

(** What fits the buffer does not reach the underlying writer. *)
Lemma Write_fits w p : zlen (wr_buf w) + zlen p <= bufio_size → wr_out (bufio_Write w p) = wr_out w.
Proof. intros Hw. unfold bufio_Write. by rewrite bool_decide_true by lia. Qed.

Lemma frames_fit w l :
  zlen (wr_buf w) + zlen (frames l) <= bufio_size → wr_out (write_frames w l) = wr_out w.
Proof.
  revert w. induction l as [|d l IH]; intros w Hw; [done|].
  cbn [write_frames foldl]. fold (write_frames (writeBackupBytes w d) l).
  change (frames (d :: l)) with (frame d ++ frames l) in Hw. rewrite zlen_app in Hw.
  pose proof (zlen_nonneg (frames l)).
  assert (wr_out (writeBackupBytes w d) = wr_out w) as Ho.
  { unfold frame in Hw. rewrite zlen_app in Hw. unfold writeBackupBytes.
    pose proof (zlen_nonneg d). destruct (decide (0 < zlen d)) as [Hd|Hd].
    - rewrite bool_decide_true in Hw |- * by done. rewrite !Write_fits; [done|lia|].
      unfold bufio_Write. rewrite bool_decide_true by lia. cbn [wr_buf]. rewrite zlen_app. lia.
    - rewrite bool_decide_false in Hw |- * by done. change (zlen []) with 0 in Hw.
      rewrite Write_fits; [done|]. lia. }
  pose proof (wr_data_frame w d) as Hd. unfold wr_data in Hd. rewrite Ho, <-app_assoc in Hd.
  apply app_inv_head in Hd. rewrite IH; [done|]. rewrite Hd, zlen_app. lia.
Qed.

Lemma frames_app l1 l2 : frames (l1 ++ l2) = frames l1 ++ frames l2.
Proof. unfold frames. by rewrite map_app, concat_app. Qed.

Lemma frames_cons bs l : frames (bs :: l) = frame bs ++ frames l.
Proof. done. Qed.

Lemma frames_nil : frames [] = [].
Proof. done. Qed.

(** Framed data as a right-nested concatenation. *)
Create HintDb go_frames.
#[export] Hint Rewrite frames_app frames_cons frames_nil @app_nil_l @app_nil_r : go_frames.
#[export] Hint Rewrite <- @app_assoc : go_frames.

(** ** Reading and writing *)
Section etcd_properties.
Context {St : Type} `{EtcdLaws St}.
Implicit Types (kv : etcdKV St).

Definition kv_up kv : Prop := etcd_up (client kv).
Definition kv_map kv : gmap string string := etcd_kvs (client kv).

(** The key in the store of a key of the caller. *)
Definition full_key kv (key : string) : string := joinPath [rootPath kv; key].

Lemma matching_key (m : gmap string string) key :
  matching m RKey key = match m !! key with Some v => [(key, v)] | None => [] end.
Proof.
  unfold matching. simpl. set (l := filter _ _).
  assert (∀ k v, (k, v) ∈ l ↔ k = key ∧ m !! k = Some v) as Hl.
  { intros k v. unfold l. rewrite list_elem_of_filter, elem_of_sorted_kvs. simpl.
    by rewrite bool_decide_eq_true. }
  assert (NoDup l) as Hnd.
  { apply list.NoDup_filter. rewrite sorted_kvs_perm. apply NoDup_map_to_list. }
  destruct (m !! key) as [v|] eqn:Hv.
  - apply Permutation_singleton_r. apply NoDup_Permutation; [done|apply NoDup_singleton|].
    intros [k w]. rewrite Hl, list_elem_of_singleton. split; [|intros [= -> ->]; done].
    intros [-> Hw]. by simplify_eq.
  - destruct l as [|[k w] l']; [done|]. destruct (proj1 (Hl k w)) as [-> ?]; [left|congruence].
Qed.

(** The directory that [RemoveWithPrefix] clears. *)
Definition dir_key kv (prefix : string) : string :=
  if HasSuffix (full_key kv prefix) "/" then full_key kv prefix else full_key kv prefix +:+ "/".

Lemma dir_key_slash kv prefix : HasSuffix (dir_key kv prefix) "/" = true.
Proof.
  unfold dir_key. destruct (HasSuffix (full_key kv prefix) "/") eqn:E; [done|apply HasSuffix_app].
Qed.

(** The pairs whose key starts with [p], in key order. *)
Definition prefixed (m : gmap string string) (p : string) : list (string * string) :=
  filter (λ x, HasPrefix x.1 p = true) (sorted_kvs m).

Lemma Load_map kv key :
  kv_up kv → full_key kv key ≠ "" → Load kv key false
    = match kv_map kv !! full_key kv key with Some v => Ok v | None => Err ErrKeyNotFound end.
Proof.
  intros Hup Hne. unfold Load. fold (full_key kv key).
  rewrite etcd_Get by (done || by left).
  unfold answer. cbn [op_range op_limit mbind res_bind resp_Count resp_Kvs op_countOnly].
  rewrite matching_key. unfold kv_map. by destruct (etcd_kvs _ !! _).
Qed.

Lemma LoadWithPrefix_map kv prefix :
  kv_up kv → LoadWithPrefix kv prefix false
    = Ok (let l := prefixed (kv_map kv) (full_key kv prefix) in (map fst l, map snd l)).
Proof.
  intros Hup. unfold LoadWithPrefix. fold (full_key kv prefix).
  rewrite etcd_Get by (done || (by left) || (right; by left)). simpl. unfold matching.
  do 2 f_equal; by rewrite map_map.
Qed.

Lemma Save_map kv key value :
  kv_up kv → full_key kv key ≠ "" → ∃ kv', Save kv key value = (kv', Ok tt) ∧ kv_up kv'
    ∧ rootPath kv' = rootPath kv ∧ kv_map kv' = <[full_key kv key := value]> (kv_map kv).
Proof.
  intros Hup Hne. unfold Save. fold (full_key kv key).
  destruct (etcd_Put (client kv) (full_key kv key) value Hup Hne) as (s' & -> & ? & ?).
  by eexists.
Qed.

Lemma MultiSave_map kv keys values :
  kv_up kv → length keys = length values → NoDup keys → "" ∉ keys →
  ∃ kv', MultiSave kv keys values = (kv', Ok tt) ∧ kv_up kv'
    ∧ rootPath kv' = rootPath kv ∧ kv_map kv' = list_to_map (zip keys values) ∪ kv_map kv.
Proof.
  intros Hup Hl Hnd Hne. unfold MultiSave. rewrite bool_decide_true by lia.
  assert (map fst (zip keys values) = keys) as Hk.
  { change (map fst) with (fmap (M:=list) (@fst string string)). apply fst_zip. lia. }
  destruct (etcd_TxnPut (client kv) (zip keys values) Hup) as (s' & -> & ? & ?);
    [by rewrite Hk..|]. by eexists.
Qed.

Lemma Remove_map kv key :
  kv_up kv → full_key kv key ≠ "" → ∃ kv', Remove kv key = (kv', Ok tt) ∧ kv_up kv'
    ∧ rootPath kv' = rootPath kv ∧ kv_map kv' = delete (full_key kv key) (kv_map kv).
Proof.
  intros Hup Hne. unfold Remove. fold (full_key kv key).
  destruct (etcd_Delete (client kv) (full_key kv key) RKey Hup Hne) as (s' & -> & Hm & ?).
  eexists; split_and!; [done..|]. unfold kv_map. cbn. rewrite Hm. apply map_eq. intros k.
  apply option_eq. intros v. rewrite map_lookup_filter_Some, lookup_delete_Some. simpl.
  rewrite bool_decide_eq_false. naive_solver.
Qed.

Lemma RemoveWithPrefix_map kv prefix :
  kv_up kv → ∃ kv', RemoveWithPrefix kv prefix = (kv', Ok tt) ∧ kv_up kv'
    ∧ rootPath kv' = rootPath kv
    ∧ kv_map kv' = filter (λ p, HasPrefix p.1 (dir_key kv prefix) = false) (kv_map kv).
Proof.
  intros Hup. unfold RemoveWithPrefix. fold (full_key kv prefix). fold (dir_key kv prefix).
  pose proof (dir_key_slash kv prefix) as Hs.
  assert (dir_key kv prefix ≠ "") as Hne by (intros E; rewrite E in Hs; done).
  destruct (etcd_Delete (client kv) _ RPrefix Hup Hne) as (s' & -> & Hm & ?). by eexists.
Qed.

(** C13 (refinement): on a reachable etcd, [Load] returns the value under the
    root path or [ErrKeyNotFound] (an empty key is refused); [Save], [Remove] and [MultiSave] (whose keys are not
    joined with the root path) update exactly their keys; [LoadWithPrefix] lists the
    pairs whose key starts with the joined path, sorted by key; [RemoveWithPrefix]
    deletes exactly the keys below the path as a directory; no other key changes. The
    limit that a server may put on the size of a transaction is left out. *)
Theorem etcdKV_refines_map kv :
  kv_up kv →
  (∀ key, Load kv key false
     = if bool_decide (full_key kv key = "") then Err ErrEmptyKey
       else match kv_map kv !! full_key kv key with Some v => Ok v | None => Err ErrKeyNotFound end)
  ∧ (∀ prefix, LoadWithPrefix kv prefix false
     = Ok (let l := filter (λ p, HasPrefix p.1 (full_key kv prefix) = true) (sorted_kvs (kv_map kv))
           in (map fst l, map snd l)))
  ∧ (∀ key value, full_key kv key ≠ "" → ∃ kv', Save kv key value = (kv', Ok tt) ∧ kv_up kv'
       ∧ rootPath kv' = rootPath kv ∧ kv_map kv' = <[full_key kv key := value]> (kv_map kv))
  ∧ (∀ keys values, length keys = length values → NoDup keys → "" ∉ keys →
       ∃ kv', MultiSave kv keys values = (kv', Ok tt) ∧ kv_up kv'
       ∧ rootPath kv' = rootPath kv ∧ kv_map kv' = list_to_map (zip keys values) ∪ kv_map kv)
  ∧ (∀ key, full_key kv key ≠ "" → ∃ kv', Remove kv key = (kv', Ok tt) ∧ kv_up kv'
       ∧ rootPath kv' = rootPath kv ∧ kv_map kv' = delete (full_key kv key) (kv_map kv))
  ∧ (∀ prefix, HasSuffix (dir_key kv prefix) "/" = true
       ∧ ∃ kv', RemoveWithPrefix kv prefix = (kv', Ok tt) ∧ kv_up kv' ∧ rootPath kv' = rootPath kv
       ∧ kv_map kv' = filter (λ p, HasPrefix p.1 (dir_key kv prefix) = false) (kv_map kv)).
Proof.
  intros Hup. split_and!; intros.
  - case_bool_decide as Hk; [|by apply Load_map]. unfold Load. fold (full_key kv key). rewrite Hk.
    rewrite etcd_Get_empty; [done|done|]. by intros [?|[?|?]].
  - by apply LoadWithPrefix_map.
  - by apply Save_map.
  - by apply MultiSave_map.
  - by apply Remove_map.
  - split; [apply dir_key_slash|by apply RemoveWithPrefix_map].
Qed.

(** ** Walking over a prefix *)
Lemma walk_page_app {T} (fn : string → string → T → T * res unit) l1 l2 t :
  walk_page fn (l1 ++ l2) t =
  let '(t, r) := walk_page fn l1 t in match r with Ok _ => walk_page fn l2 t | r => (t, r) end.
Proof.
  revert t. induction l1 as [|[k v] l1 IH]; intros t; simpl; [done|].
  by destruct (fn k v t) as [t' []].
Qed.

Lemma answer_kvs m rev key op :
  op_countOnly op = false → op_keysOnly op = false →
  resp_Kvs (answer m rev key op)
  = if bool_decide (0 < op_limit op) then take (Z.to_nat (op_limit op)) (matching m (op_range op) key)
    else matching m (op_range op) key.
Proof.
  intros Hc Hk. unfold answer. simpl. rewrite Hc, Hk.
  transitivity (map id (if bool_decide (0 < op_limit op)
    then take (Z.to_nat (op_limit op)) (matching m (op_range op) key)
    else matching m (op_range op) key)); [|apply map_id]. apply map_ext. by intros [].
Qed.

(** What a walk over the keys [P] relies on: the callback leaves what is to come as it is. *)
Definition walk_ok {T} (get : T → etcdKV St) (fn : string → string → T → T * res unit)
    (ok : T → Prop) (P : string → Prop) : Prop :=
  ∀ t, ok t → kv_up (get t) ∧ ∀ k v, kv_map (get t) !! k = Some v → P k → ok (fn k v t).1
    ∧ ∀ k', klt k k' = true → kv_map (get (fn k v t).1) !! k' = kv_map (get t) !! k'.

Lemma walk_page_ok {T} get (fn : string → string → T → T * res unit) ok P l k t :
  walk_ok get fn ok P → ok t → StronglySorted kv_lt l →
  Forall (λ p : string * string, kv_map (get t) !! p.1 = Some p.2 ∧ P p.1 ∧ kle p.1 k = true) l →
  ok (walk_page fn l t).1
  ∧ ∀ k', klt k k' = true → kv_map (get (walk_page fn l t).1) !! k' = kv_map (get t) !! k'.
Proof.
  intros Hfn. revert t. induction l as [|[k0 v0] l IH]; intros t Ht Hs Hl; [by split|].
  apply StronglySorted_cons in Hs as [Hlt Hs]. apply list.Forall_cons in Hl as [(Hv & HP & Hk) Hl].
  cbn [walk_page]. destruct (Hfn t Ht) as [_ Hstep]. destruct (Hstep k0 v0 Hv HP) as [Ht' Hm].
  destruct (fn k0 v0 t) as [t' r]. cbn [fst] in *.
  assert (∀ k', klt k k' = true → kv_map (get t') !! k' = kv_map (get t) !! k') as Hm'.
  { intros k' Hk'. apply Hm. by eapply kle_klt_trans. }
  destruct r; [|by split..]. destruct (IH t' Ht' Hs) as [? He].
  - apply list.Forall_forall. intros x Hx. eapply list.Forall_forall in Hl as (? & ? & ?); [|done].
    eapply list.Forall_forall in Hlt; [|done]. split_and!; [|done..]. by rewrite Hm.
  - split; [done|]. intros k' Hk'. by rewrite He, Hm'.
Qed.

Lemma matching_agree (m m' : gmap string string) e k :
  (∀ k', klt k k' = true → m' !! k' = m !! k') →
  matching m' (RRange e) (key_next k) = matching m (RRange e) (key_next k).
Proof.
  intros Hm. apply kv_lt_unique; [apply StronglySorted_filter, sorted_kvs_sorted..|].
  intros [k' v']. unfold matching. rewrite !list_elem_of_filter, !elem_of_sorted_kvs. simpl.
  rewrite key_next_le. split; intros [Hb Hk']; (split; [done|]).
  - rewrite <-Hm; [done|]. by apply andb_true_iff in Hb as [? _].
  - rewrite Hm; [done|]. by apply andb_true_iff in Hb as [? _].
Qed.

Lemma walk_loop_all {T} fuel get e limit key (fn : string → string → T → T * res unit) ok P t :
  walk_ok get fn ok P → (∀ k, in_range_of (RRange e) key k = true → P k) → ok t → key ≠ "" →
  (length (matching (kv_map (get t)) (RRange e) key) < fuel)%nat →
  walk_loop fuel get (Op (RRange e) limit false false None) key fn t
  = Some (walk_page fn (matching (kv_map (get t)) (RRange e) key) t).
Proof.
  intros Hfn. revert key t. induction fuel as [|fuel IH]; intros key t HP Ht Hne Hf; [lia|].
  destruct (Hfn t Ht) as [Hup _].
  cbn [walk_loop]. rewrite etcd_Get by (done || by left). rewrite answer_kvs by done.
  cbn [op_limit op_range]. fold (kv_map (get t)).
  set (all := matching (kv_map (get t)) (RRange e) key) in *.
  unfold answer. cbn [resp_More op_limit op_range]. fold (kv_map (get t)). fold all.
  case_bool_decide as Hlim; cbn [andb].
  2: { destruct (walk_page fn all t) as [t' [[]| |]]; done. }
  case_bool_decide as Hmore.
  2: { rewrite take_ge by (unfold zlen in Hmore; lia).
       destruct (walk_page fn all t) as [t' [[]| |]]; done. }
  unfold zlen in Hmore. set (n := Z.to_nat limit) in *.
  destruct (lookup_lt_is_Some_2 all (n - 1)) as [[k v] Hk]; [lia|].
  assert (take n all = take (n - 1) all ++ [(k, v)]) as Htake.
  { replace n with (S (n - 1)) at 1 by lia. by apply take_S_r. }
  assert (all = take (n - 1) all ++ (k, v) :: drop n all) as Hsplit.
  { rewrite (cons_middle (k, v)), app_assoc, <-Htake. by rewrite take_drop. }
  assert (matching (kv_map (get t)) (RRange e) (key_next k) = drop n all) as Hnext.
  { apply (filter_after (sorted_kvs (kv_map (get t))) (take (n - 1) all) (drop n all)
             (λ x, bool_decide (e = String zero_char "") || klt x e) key k v);
      [apply sorted_kvs_sorted|exact Hsplit]. }
  assert (go_index (take n all) (zlen (take n all) - 1) = Ok (k, v)) as ->.
  { apply go_index_Ok. rewrite Htake. unfold zlen. rewrite length_app. simpl. split; [lia|].
    apply list_lookup_middle. rewrite length_take. lia. }
  assert (StronglySorted kv_lt all) as Hsort by apply StronglySorted_filter, sorted_kvs_sorted.
  assert (∀ p, p ∈ all → kv_map (get t) !! p.1 = Some p.2
            ∧ in_range_of (RRange e) key p.1 = true) as Hall.
  { intros [k' v'] [? ?%elem_of_sorted_kvs]%list_elem_of_filter. done. }
  assert (kle key k = true) as Hkey.
  { destruct (Hall (k, v)) as [_ Hr]; [by eapply list_elem_of_lookup_2|].
    by apply andb_true_iff in Hr as [? _]. }
  assert (Forall (λ p : string * string,
            kv_map (get t) !! p.1 = Some p.2 ∧ P p.1 ∧ kle p.1 k = true) (take n all)) as Hbelow.
  { apply list.Forall_forall. intros p Hp.
    destruct (Hall p) as [? Hr]; [rewrite <-(take_drop n all); apply elem_of_app; by left|].
    split_and!; [done|by apply HP|].
    rewrite Htake in Hp. apply elem_of_app in Hp as [Hp| ->%list_elem_of_singleton]; [|apply kle_refl].
    apply klt_le. rewrite Hsplit in Hsort. apply sorted_split in Hsort as [Hlt _].
    by eapply list.Forall_forall in Hlt. }
  destruct (walk_page_ok get fn ok P (take n all) k t Hfn Ht) as [Ht' Hagree]; [|done|].
  { rewrite <-(take_drop n all) in Hsort. by apply StronglySorted_app in Hsort as (_ & ? & _). }
  pose proof (walk_page_app fn (take n all) (drop n all) t) as Happ. rewrite take_drop in Happ.
  rewrite Happ. destruct (walk_page fn (take n all) t) as [t' [[]| |]]; [|done..].
  cbn [fst] in *. pose proof (matching_agree _ _ e k Hagree) as Hma. rewrite Hnext in Hma.
  rewrite (IH (key_next k)); rewrite ?Hma; [done| |done| |rewrite length_drop; lia].
  2: { destruct k; done. }
  intros k' Hk'. apply HP. revert Hk'. cbn [in_range_of]. rewrite key_next_le, !andb_true_iff.
  intros [Hk' ?]. split; [|done]. eapply kle_trans; [exact Hkey|]. by apply klt_le.
Qed.

(** The pairs that a walk visits. *)
Definition walk_key kv (prefix : string) : string := path_Join [rootPath kv; prefix].

Lemma WalkWithPrefix_all {T} get prefix paginationSize
    (fn : string → string → T → T * res unit) ok t fuel :
  walk_ok get fn ok (λ k, HasPrefix k (walk_key (get t) prefix) = true) → ok t →
  walk_key (get t) prefix ≠ "" → (size (kv_map (get t)) < fuel)%nat →
  WalkWithPrefix fuel get prefix paginationSize fn t
  = Some (walk_page fn (prefixed (kv_map (get t)) (walk_key (get t) prefix)) t).
Proof.
  intros Hfn Ht Hne Hf. unfold WalkWithPrefix. fold (walk_key (get t) prefix). set (p := walk_key _ _).
  assert (∀ k, in_range_of (RRange (GetPrefixRangeEnd p)) p k = true ↔ HasPrefix k p = true) as Hp.
  { intros k. destruct (kle p k) eqn:Hk; [by rewrite etcd_prefix_end|]. simpl. rewrite Hk.
    split; [done|]. intros Hp%kle_prefix. congruence. }
  assert (matching (kv_map (get t)) (RRange (GetPrefixRangeEnd p)) p
          = prefixed (kv_map (get t)) p) as Hm by (apply list_filter_iff; intros [k v]; apply Hp).
  erewrite walk_loop_all; [by rewrite Hm|done|intros k; apply Hp|done..|]. rewrite Hm.
  eapply Nat.le_lt_trans; [apply length_filter|].
  rewrite (Permutation_length (sorted_kvs_perm _)). by rewrite length_map_to_list.
Qed.

(** On a reachable etcd, over a path that is not empty, [WalkWithPrefix] ends and hands every pair
    whose key starts with the cleaned path to the callback, exactly once, in key order
    and whatever the page size, up to the callback's first error, which it returns; and
    that even if the callback changes the store up to the key it is called with. *)
Theorem WalkWithPrefix_spec {T} get prefix paginationSize
    (fn : string → string → T → T * res unit) ok t fuel :
  walk_ok get fn ok (λ k, HasPrefix k (path_Join [rootPath (get t); prefix]) = true) → ok t →
  path_Join [rootPath (get t); prefix] ≠ "" → (size (kv_map (get t)) < fuel)%nat →
  WalkWithPrefix fuel get prefix paginationSize fn t
  = Some (walk_page fn
            (filter (λ p, HasPrefix p.1 (path_Join [rootPath (get t); prefix]) = true)
               (sorted_kvs (kv_map (get t)))) t).
Proof. apply WalkWithPrefix_all. Qed.

(** ** Root paths *)
Definition first_part (k : string) : string := List.hd "" (Split "/" k).

(** A key with a slash is its first part, the slash and the rest; and the other way. *)
Lemma first_part_slash k : Split "/" k ≠ [k] → ∃ r, k = first_part k +:+ "/" +:+ r.
Proof.
  intros Hk. pose proof (Join_Split "/" k) as Hj. unfold first_part in *.
  destruct (Split "/" k) as [|p [|q ps]] eqn:E; [by apply Split_nonempty in E| |].
  - simpl in Hj. by subst.
  - exists (Join "/" (q :: ps)). by rewrite <-Hj.
Qed.

Lemma first_part_dir p k : Split "/" p = [p] → HasPrefix k (p +:+ "/") = true → first_part k = p.
Proof.
  intros Hp [r ->]%HasPrefix_spec. unfold first_part. rewrite string_app_assoc.
  change ("/" +:+ r) with (String "/" r). by rewrite Split_app_sep.
Qed.

Lemma first_part_plain k : Split "/" (first_part k) = [first_part k].
Proof.
  apply (Split_elem _ k). unfold first_part. pose proof (Split_nonempty "/" k).
  destruct (Split "/" k); [done|]. left.
Qed.

Lemma klt_zero p r : klt (p +:+ "/" +:+ r) (p +:+ "0") = true.
Proof.
  unfold klt. induction p as [|c p IH]; autorewrite with go_string.
  - reflexivity.
  - simpl. by rewrite decide_True.
Qed.

(** What the loop knows when it asks for the keys from [current] on. *)
Definition roots_inv (m : gmap string string) (apps : list string) (current : string) : Prop :=
  NoDup apps ∧ "" ∉ apps
  ∧ (∀ p, p ∈ apps → ∃ k, is_Some (m !! k) ∧ first_part k = p)
  ∧ (∀ k, is_Some (m !! k) → klt k current = true → first_part k ≠ "" → first_part k ∈ apps)
  ∧ (∀ k, is_Some (m !! k) → kle current k = true → first_part k ∉ apps).

(** All keys have a slash. *)
Definition keys_slashed (m : gmap string string) : Prop :=
  ∀ k, is_Some (m !! k) → Split "/" k ≠ [k].

Lemma roots_step m apps current k v l :
  keys_slashed m → roots_inv m apps current →
  matching m RFromKey current = (k, v) :: l →
  let st := root_step (k, "") (apps, current) in
  roots_inv m st.1 st.2 ∧ (length (matching m RFromKey st.2) ≤ length l)%nat
  ∧ (l = [] → ∀ k', is_Some (m !! k') → first_part k' ≠ "" → first_part k' ∈ st.1).
Proof.
  intros Hsl (Hnd & Hne & Hsound & Hbelow & Habove) Hmatch.
  assert (∀ k' v', m !! k' = Some v' → kle current k' = true → (k', v') ∈ (k, v) :: l) as Hin.
  { intros k' v' Hk' Hc. rewrite <-Hmatch. unfold matching. apply list_elem_of_filter.
    split; [done|]. by apply elem_of_sorted_kvs. }
  assert (m !! k = Some v ∧ kle current k = true) as [Hk Hck].
  { assert ((k, v) ∈ matching m RFromKey current) as Hx by (rewrite Hmatch; left).
    unfold matching in Hx. apply list_elem_of_filter in Hx as [? Hx%elem_of_sorted_kvs]. done. }
  assert (∀ k' v', (k', v') ∈ l → klt k k' = true) as Hlt.
  { assert (StronglySorted kv_lt ((k, v) :: l)) as Hs
      by (rewrite <-Hmatch; apply StronglySorted_filter, sorted_kvs_sorted).
    apply StronglySorted_cons in Hs as [Hs _]. intros k' v' Hin'.
    exact (proj1 (list.Forall_forall _ _) Hs _ Hin'). }
  destruct (first_part_slash k (Hsl k (mk_is_Some _ _ Hk))) as [r Hr].
  unfold root_step. cbn [fst snd]. fold (first_part k). set (p := first_part k) in *.
  assert (∀ k', is_Some (m !! k') → kle current k' = true → klt k' (p +:+ "0") = true →
            first_part k' = p) as Hsame.
  { intros k' [v' Hk'] Hc Hz. apply first_part_dir; [apply first_part_plain|].
    apply between_slash_zero; [|done]. apply kle_trans with k.
    - rewrite Hr. apply kle_prefix. rewrite <-string_app_assoc. apply HasPrefix_app.
    - pose proof (Hin k' v' Hk' Hc) as [[= -> ->]|Hc']%elem_of_cons; [apply kle_refl|].
      by apply klt_le, (Hlt k' v'). }
  assert (klt k (p +:+ "0") = true) as Hkz by (rewrite Hr; apply klt_zero).
  split_and!.
  - assert (∀ k', is_Some (m !! k') → kle (p +:+ "0") k' = true → first_part k' ≠ p) as Hdiff.
    { intros k' Hk' Hz Heq. destruct (first_part_slash k' (Hsl k' Hk')) as [r' Hr'].
      rewrite Heq in Hr'. pose proof (klt_zero p r') as Hlz. rewrite <-Hr' in Hlz.
      unfold klt in Hlz. by rewrite Hz in Hlz. }
    assert (∀ k', kle (p +:+ "0") k' = true → kle current k' = true) as Hup.
    { intros k' Hz. eapply kle_trans; [exact Hck|]. eapply kle_trans; [|exact Hz]. by apply klt_le. }
    assert (p ∉ apps) as Hp by (apply Habove; [by eexists|done]).
    unfold roots_inv. case_bool_decide as Hpe; split_and!; try done.
    + apply list.NoDup_app. split_and!; [done| |apply NoDup_singleton]. set_solver.
    + set_solver.
    + intros q [Hq|Hq%list_elem_of_singleton]%elem_of_app; [auto|]. exists k. by split; [eexists|].
    + intros k' Hk' Hz Hn. apply elem_of_app. destruct (kle current k') eqn:Hc.
      * right. rewrite (Hsame k') by done. by apply list_elem_of_singleton.
      * left. apply Hbelow; [done| |done]. unfold klt. by rewrite Hc.
    + intros k' Hk' Hz [Ha|Ha%list_elem_of_singleton]%elem_of_app; [|by eapply Hdiff].
      by apply (Habove k'); [|apply Hup|].
    + intros k' Hk' Hz Hn. destruct (kle current k') eqn:Hc.
      * rewrite (Hsame k') in Hn by done. done.
      * apply Hbelow; [done| |done]. unfold klt. by rewrite Hc.
    + intros k' Hk' Hz. apply Habove; [done|by apply Hup].
  - assert (matching m RFromKey (p +:+ "0") = filter (λ x, kle (p +:+ "0") x.1 = true) l) as ->.
    { rewrite <-(filter_after (sorted_kvs m) [] l (λ _, true) current k v) at 1.
      - rewrite list_filter_filter. apply list_filter_iff. intros [k' v']. simpl.
        rewrite andb_true_r, key_next_le. split; [|tauto]. intros Hz. split; [done|].
        by eapply klt_kle_trans.
      - apply sorted_kvs_sorted.
      - simpl. rewrite <-Hmatch. apply list_filter_iff. intros [k' v']. simpl. by rewrite andb_true_r. }
    apply length_filter.
  - intros -> k' [v' Hk'] Hn. destruct (kle current k') eqn:Hc.
    + apply (Hin k' v' Hk') in Hc. apply list_elem_of_singleton in Hc as [= -> ->]. fold p in Hn |- *.
      rewrite bool_decide_true by done. set_solver.
    + assert (first_part k' ∈ apps); [|case_bool_decide; set_solver].
      apply Hbelow; [by eexists| |done]. unfold klt. by rewrite Hc.
Qed.

Lemma GetAllRootPath_inv fuel kv apps current :
  kv_up kv → keys_slashed (kv_map kv) → roots_inv (kv_map kv) apps current →
  (length (matching (kv_map kv) RFromKey current) < fuel)%nat →
  ∃ apps', GetAllRootPath fuel kv apps current = Some (Ok apps') ∧ NoDup apps' ∧
    ∀ p, p ∈ apps' ↔ p ≠ "" ∧ ∃ k, is_Some (kv_map kv !! k) ∧ first_part k = p.
Proof.
  intros Hup Hsl. revert apps current. induction fuel as [|fuel IH]; intros apps current Hinv Hf; [lia|].
  cbn [GetAllRootPath]. rewrite etcd_Get by (done || (by left) || (right; by right)). unfold answer.
  cbn [resp_Kvs resp_More op_limit op_countOnly op_keysOnly op_range]. fold (kv_map kv).
  rewrite (bool_decide_true (0 < 1)) by lia. change (Z.to_nat 1) with 1%nat.
  destruct (matching (kv_map kv) RFromKey current) as [|[k v] l] eqn:Hm.
  - exists apps. split; [done|]. destruct Hinv as (Hnd & Hne & Hsound & Hbelow & _).
    split; [done|]. intros p. split; [intros Hp; split; [by intros ->|auto]|].
    intros [Hp (k & [v Hk] & <-)]. apply Hbelow; [by eexists| |done]. unfold klt.
    destruct (kle current k) eqn:Hc; [|done]. exfalso.
    assert ((k, v) ∈ matching (kv_map kv) RFromKey current) as Hin.
    { unfold matching. apply list_elem_of_filter. split; [done|]. by apply elem_of_sorted_kvs. }
    rewrite Hm in Hin. by apply not_elem_of_nil in Hin.
  - destruct (roots_step _ _ _ _ _ _ Hsl Hinv Hm) as (Hinv' & Hlen & Hlast).
    cbn [map take foldl fst snd].
    destruct (root_step (k, "") (apps, current)) as [apps' current'] eqn:Hst. cbn [fst snd] in *.
    rewrite zlen_cons. case_bool_decide as Hmore; cbn [andb].
    + apply IH; [done|]. simpl in Hf. lia.
    + exists apps'. split; [done|]. destruct Hinv' as (Hnd & Hne & Hsound & _).
      split; [done|]. intros p. split; [intros Hp; split; [by intros ->|auto]|].
      intros [Hp (k' & Hk' & <-)]. apply Hlast; [|done..].
      destruct l; [done|]. rewrite zlen_cons in Hmore. pose proof (zlen_nonneg l). lia.
Qed.

(** On a reachable etcd whose keys all have a slash, [GetAllRootPath]
    ends and returns exactly the non-empty first path elements of the keys, each once. *)
Theorem GetAllRootPath_spec kv fuel :
  kv_up kv → keys_slashed (kv_map kv) → (size (kv_map kv) < fuel)%nat →
  ∃ apps, GetAllRootPath fuel kv [] "" = Some (Ok apps) ∧ NoDup apps ∧
    ∀ p, p ∈ apps ↔ p ≠ "" ∧ ∃ k, is_Some (kv_map kv !! k) ∧ first_part k = p.
Proof.
  intros Hup Hsl Hf. apply GetAllRootPath_inv; [done..| |].
  - split_and!; [constructor|by apply not_elem_of_nil| | |].
    + intros p Hp. by apply not_elem_of_nil in Hp.
    + intros k _ Hk. by destruct k.
    + intros k _ _. by apply not_elem_of_nil.
  - unfold matching. eapply Nat.le_lt_trans; [apply length_filter|].
    rewrite (Permutation_length (sorted_kvs_perm _)). by rewrite length_map_to_list.
Qed.
End etcd_properties.

(** ** A concrete store: etcd with a map for its contents *)
Fixpoint prefix_end (p : string) : option string :=
  match p with
  | "" => None
  | String c p =>
      match prefix_end p with
      | Some e => Some (String c e)
      | None =>
          if bool_decide (code c < 255)%N then Some (String (ascii_of_N (code c + 1)) "") else None
      end
  end.

Lemma code_lt c : (code c < 256)%N.
Proof. apply N_ascii_bounded. Qed.

Lemma code_ascii n : (n < 256)%N → code (ascii_of_N n) = n.
Proof. apply N_ascii_embedding. Qed.

Lemma prefix_end_not_zero p e : prefix_end p = Some e → e ≠ String zero_char "".
Proof.
  destruct p as [|c p]; simpl; [done|]. destruct (prefix_end p) as [e'|] eqn:E.
  - intros [= <-] [= -> ->]. destruct p as [|d p]; [done|]. simpl in E.
    repeat case_match; simplify_eq.
  - case_bool_decide as Hc; [|done]. intros [= <-] [= Hz].
    assert (code (ascii_of_N (code c + 1)) = 0%N) as Hz' by by rewrite Hz.
    rewrite code_ascii in Hz' by lia. lia.
Qed.

Lemma prefix_end_spec p k :
  kle p k = true →
  match prefix_end p with Some e => klt k e = HasPrefix k p | None => HasPrefix k p = true end.
Proof.
  revert k. induction p as [|c p IH]; intros k; [by destruct k|].
  destruct k as [|d k]; [done|]. simpl kle. rewrite HasPrefix_cons. cbn [prefix_end].
  destruct (decide (c = d)) as [<-|Hne].
  - intros Hk%IH. rewrite (bool_decide_true (c = c)) by done. destruct (prefix_end p) as [e|].
    + unfold klt in *. simpl. by rewrite decide_True.
    + rewrite Hk. case_bool_decide as Hc; [|done]. unfold klt. simpl.
      assert (ascii_of_N (code c + 1) ≠ c) as Hd.
      { intros E. assert (code (ascii_of_N (code c + 1)) = code c) as E' by by rewrite E.
        rewrite code_ascii in E' by lia. lia. }
      rewrite decide_False by done. rewrite code_ascii by lia.
      rewrite bool_decide_false by lia. done.
  - intros Hlt%bool_decide_eq_true. rewrite (bool_decide_false (c = d)) by done. simpl.
    destruct (prefix_end p) as [e|].
    + unfold klt. simpl. rewrite decide_False by done. by rewrite bool_decide_true.
    + pose proof (code_lt d). rewrite bool_decide_true by lia. unfold klt. simpl.
      destruct (decide (ascii_of_N (code c + 1) = d)) as [|Hd]; [done|].
      rewrite code_ascii by lia. rewrite bool_decide_true; [done|].
      assert (code d ≠ code c + 1)%N; [|lia]. intros E. apply Hd, code_inj.
      by rewrite code_ascii by lia.
Qed.

#[export] Instance map_etcd : EtcdClient (gmap string string) := {
  client_Get m key op :=
    match op_range op with
    | RKey | RRange _ =>
        if bool_decide (key = "") then Err ErrEmptyKey else Ok (answer m 1 key op)
    | _ => Ok (answer m 1 key op)
    end;
  client_Put m key value := (<[key := value]> m, Ok tt);
  client_TxnPut m l := (list_to_map l ∪ m, Ok tt);
  client_Delete m key r :=
    (filter (λ kv, in_range_of r key kv.1 = false) m, Ok (matching m r key));
  GetPrefixRangeEnd p := default (String zero_char "") (prefix_end p);
}.

#[export] Instance map_etcd_laws : EtcdLaws (gmap string string).
Proof.
  refine {| etcd_kvs m := m; etcd_rev _ := 1; etcd_up _ := True |}; try (by eauto).
  { intros m key [r limit ko co rev] _ _ Hk. simpl in *. destruct r; [|done|done|];
      (rewrite bool_decide_false; [done|]; by destruct Hk as [?|[?|?]]). }
  { intros m [r limit ko co rev] _ Hk. unfold key_given in Hk. simpl in *. destruct r; naive_solver. }
  intros p k Hk. simpl. rewrite Hk. pose proof (prefix_end_spec p k Hk) as Hs. simpl.
  destruct (prefix_end p) as [e|] eqn:E; simpl.
  - by rewrite bool_decide_false, Hs by (by eapply prefix_end_not_zero).
  - by rewrite Hs.
Defined.

Definition sample_kv : etcdKV (gmap string string) :=
  EtcdKV {["by-dev/a" := "1"; "by-dev/ab" := "2"; "other/x" := "3"]} "by-dev".

Lemma etcdKV_refines_map_witness :
  Load sample_kv "a" false = Ok "1" ∧ LoadWithPrefix sample_kv "a" false
    = Ok (["by-dev/a"; "by-dev/ab"], ["1"; "2"]).
Proof.
  destruct (etcdKV_refines_map sample_kv) as (Hl & Hp & _); [exact I|].
  rewrite Hl, Hp. vm_compute. split; reflexivity.
Defined.

(** A walk that deletes each key it visits. *)
Definition sample_delete (k v : string) (t : etcdKV (gmap string string) * list string)
    : (etcdKV (gmap string string) * list string) * res unit :=
  let kv := EtcdKV (delete k (client t.1)) (rootPath t.1) in ((kv, t.2 ++ [k]), Ok tt).

Lemma WalkWithPrefix_spec_witness :
  WalkWithPrefix 4 fst "" 1 sample_delete (sample_kv, [])
  = Some ((EtcdKV {["other/x" := "3"]} "by-dev", ["by-dev/a"; "by-dev/ab"]), Ok tt).
Proof.
  rewrite (WalkWithPrefix_spec fst "" 1 sample_delete (λ _, True)).
  - vm_compute. reflexivity.
  - intros t _. split; [exact I|]. intros k v _ _. split; [exact I|]. intros k' Hk'.
    unfold kv_map. simpl. apply lookup_delete_ne. by apply klt_ne.
  - exact I.
  - vm_compute. discriminate.
  - vm_compute. repeat constructor.
Defined.

Lemma GetAllRootPath_spec_witness :
  ∃ apps, GetAllRootPath 4 sample_kv [] "" = Some (Ok apps) ∧ NoDup apps.
Proof.
  destruct (GetAllRootPath_spec sample_kv 4) as (apps & Ha & Hn & _).
  - exact I.
  - assert (map_Forall (λ k _, Split "/" k ≠ [k]) (kv_map sample_kv)) as Hf
      by (apply (bool_decide_unpack _); vm_compute; exact I).
    intros k [v Hk]. exact (Hf k v Hk).
  - vm_compute. repeat constructor.
  - exists apps. split; [exact Ha|exact Hn].
Defined.
