(* ===== verification/Tikv.v ===== *)
(** * The metadata store: TiKV

    Models the TiKV side of [states/kv/kv.go].  The client library is the interface
    [TikvClient]; an iterator is the list of the pairs it still delivers and the error
    that ends it, if any.  TiKV stores no empty value, so the program stores a reserved
    string in its place. *)

From S2P Require Export MetaKV.

(** A mutation buffered in a transaction. *)
Inductive tk_op := TSet (key value : string) | TDelete (key : string).

Class TikvClient (St : Type) := {
  tk_Get : St → string → res string;
  tk_Iter : St → string → string → res (list (string * string) * option goerr);
  tk_Begin : St → res unit;
  tk_Set : string → string → res unit;
  tk_Delete : string → res unit;
  tk_Commit : St → list tk_op → St * res unit;
  tk_DeleteRange : St → string → string → St * res unit;
  PrefixNextKey : string → string;
}.

(** The keys from [lo] to [hi]; an empty end is no end. *)
Definition in_bounds (lo hi k : string) : bool :=
  kle lo k && (bool_decide (hi = "") || klt k hi).

Class TikvLaws (St : Type) `{TikvClient St} := {
  tk_kvs : St → gmap string string;
  tk_up : St → Prop;
  tk_Get_law s k : tk_up s →
    tk_Get s k = match tk_kvs s !! k with Some v => Ok v | None => Err (Errorf "not exist") end;
  tk_Iter_law s lo hi : tk_up s →
    tk_Iter s lo hi = Ok (filter (λ kv, in_bounds lo hi kv.1 = true) (sorted_kvs (tk_kvs s)), None);
  tk_Begin_law s : tk_up s → tk_Begin s = Ok tt;
  tk_Set_law k v : k ≠ "" → v ≠ "" → tk_Set k v = Ok tt;
  tk_Commit_Set s k v : tk_up s →
    ∃ s', tk_Commit s [TSet k v] = (s', Ok tt) ∧ tk_kvs s' = <[k := v]> (tk_kvs s) ∧ tk_up s';
  tk_prefix_next p k : kle p k = true →
    in_bounds p (PrefixNextKey p) k = HasPrefix k p;
}.

Definition EmptyValueString : string := "__milvus_reserved_empty_tikv_value_DO_NOT_USE".

Definition isEmptyByte (value : string) : bool :=
  bool_decide (value = EmptyValueString) || bool_decide (String.length value = 0%nat).
Definition convertEmptyByteToString (value : string) : string :=
  if isEmptyByte value then "" else value.
Definition convertEmptyStringToByte (value : string) : res string :=
  if bool_decide (String.length value = 0%nat) then Ok EmptyValueString
  else if bool_decide (value = EmptyValueString) then
    Err (Errorf "value for key is reserved by EmptyValue")
  else Ok value.

Section tikv.
Context {St : Type} `{TikvClient St}.

Record txnTiKV := TxnTiKV { tk_client : St; tk_rootPath : string }.

Definition NewTiKV (txn : St) : txnTiKV := TxnTiKV txn "".

Definition TiKV_Load (kv : txnTiKV) (key : string) : res string :=
  val ← tk_Get (tk_client kv) (joinPath [tk_rootPath kv; key]);
  Ok (convertEmptyByteToString val).

(** An iterator read to its end. *)
Definition read_all (it : list (string * string) * option goerr)
    : res (list (string * string)) :=
  match it.2 with Some e => Err e | None => Ok it.1 end.

Definition TiKV_LoadWithPrefix (kv : txnTiKV) (prefix : string)
    : res (list string * list string) :=
  let prefix := joinPath [tk_rootPath kv; prefix] in
  iter ← tk_Iter (tk_client kv) prefix (PrefixNextKey prefix);
  items ← read_all iter;
  Ok (map fst items, map (λ kv, convertEmptyByteToString kv.2) items).

Definition tk_commit (kv : txnTiKV) (ops : list tk_op) : txnTiKV * res unit :=
  let '(s, r) := tk_Commit (tk_client kv) ops in (TxnTiKV s (tk_rootPath kv), r).

Definition TiKV_Save (kv : txnTiKV) (key value : string) : txnTiKV * res unit :=
  let key := joinPath [tk_rootPath kv; key] in
  match _ ← tk_Begin (tk_client kv);
        byteValue ← convertEmptyStringToByte value;
        _ ← tk_Set key byteValue; Ok byteValue with
  | Ok byteValue => tk_commit kv [TSet key byteValue]
  | Err e => (kv, Err e)
  | Panic w => (kv, Panic w)
  end.

Definition TiKV_MultiSave (kv : txnTiKV) (keys values : list string) : txnTiKV * res unit :=
  (kv, Err (Errorf "not implemented")).

Definition TiKV_Remove (kv : txnTiKV) (key : string) : txnTiKV * res unit :=
  let key := joinPath [tk_rootPath kv; key] in
  match _ ← tk_Begin (tk_client kv); tk_Delete key with
  | Ok _ => tk_commit kv [TDelete key]
  | r => (kv, r)
  end.

(** No slash is appended here, unlike in the etcd store. *)
Definition TiKV_RemoveWithPrefix (kv : txnTiKV) (prefix : string) : txnTiKV * res unit :=
  let startKey := joinPath [tk_rootPath kv; prefix] in
  let '(s, r) := tk_DeleteRange (tk_client kv) startKey (PrefixNextKey startKey) in
  (TxnTiKV s (tk_rootPath kv), r).

(** A failed load counts as a missing key; the returned key is the caller's. *)
Definition TiKV_removeWithPrevKV (kv : txnTiKV) (key : string)
    : txnTiKV * res (option (string * string)) :=
  match TiKV_Load kv key with
  | Err _ => (kv, Ok None)
  | Panic w => (kv, Panic w)
  | Ok preV => let '(kv, r) := TiKV_Remove kv key in (kv, _ ← r; Ok (Some (key, preV)))
  end.

Definition TiKV_removeWithPrefixAndPrevKV (kv : txnTiKV) (prefix : string)
    : txnTiKV * res (list (string * string)) :=
  match TiKV_LoadWithPrefix kv prefix with
  | Err e => (kv, Err e)
  | Panic w => (kv, Panic w)
  | Ok (keys, vals) =>
      let '(kv, r) := TiKV_RemoveWithPrefix kv prefix in (kv, _ ← r; Ok (zip keys vals))
  end.

(** At most [fuel] iterators are opened. *)
Fixpoint TiKV_GetAllRootPath (fuel : nat) (kv : txnTiKV) (apps : list string) (startKey : string)
    : option (res (list string)) :=
  match fuel with
  | O => None
  | S fuel =>
      match tk_Iter (tk_client kv) startKey "~" with
      | Err e => Some (Err e)
      | Panic w => Some (Panic w)
      | Ok ([], _) => Some (Ok apps)
      | Ok ((k, _) :: _, _) =>
          let p := first_part k in
          if bool_decide (p ≠ "") then TiKV_GetAllRootPath fuel kv (apps ++ [p]) (p +:+ "0")
          else Some (Ok apps)
      end
  end.

Fixpoint walk_items {T} (fn : string → string → T → T * res unit) (items : list (string * string))
    (err : option goerr) (t : T) : T * res unit :=
  match items with
  | [] => (t, match err with Some e => Err e | None => Ok tt end)
  | (k, v) :: items =>
      let '(t, r) := fn k (if isEmptyByte v then "" else v) t in
      match r with Ok _ => walk_items fn items err t | r => (t, r) end
  end.

Definition TiKV_WalkWithPrefix {T} (kv : txnTiKV) (prefix : string) (paginationSize : Z)
    (fn : string → string → T → T * res unit) (t : T) : T * res unit :=
  let prefix := path_Join [tk_rootPath kv; prefix] in
  match tk_Iter (tk_client kv) prefix (PrefixNextKey prefix) with
  | Ok (items, err) => walk_items fn items err t
  | Err e => (t, Err e)
  | Panic w => (t, Panic w)
  end.

(** ** [BackupKV] *)
Context `{ProtoCodec PartHeader} `{ProtoCodec KeyDataPair} `{JsonStrings}.

(** A key without the prefix is skipped without moving the iterator, so the loop stays
    on it; at most [fuel] rounds. *)
Fixpoint TiKV_backup_loop (fuel : nat) (base : string) (cnt batchSize : Z)
    (items : list (string * string)) (err : option goerr) (i : Z) (w : bufio_Writer)
    : option (bufio_Writer * res Z) :=
  match fuel with
  | O => None
  | S fuel =>
      match items with
      | [] => Some (w, match err with Some e => Err e | None => Ok i end)
      | (k, v) :: items' =>
          if HasPrefix k base then
            match proto_Marshal (KDP k (bytes_of_string v)) with
            | Err e => Some (w, Err e)
            | Panic p => Some (w, Panic p)
            | Ok bs =>
                let w := writeBackupBytes w bs in
                match items', err with
                | [], Some e => Some (w, Err e)
                | _, _ =>
                    let i := int64 (i + 1) in
                    if bool_decide (cnt = 0) || bool_decide (batchSize = 0)
                    then Some (w, Panic "integer divide by zero")
                    else TiKV_backup_loop fuel base cnt batchSize items' err i w
                end
            end
          else TiKV_backup_loop fuel base cnt batchSize items err i w
      end
  end.

(** The result of the final [txn.Commit]. *)
Definition TiKV_BackupKV (fuel : nat) (kv : txnTiKV) (base prefix : string) (w : bufio_Writer)
    (batchSize : Z) : option (bufio_Writer * res unit) :=
  let startKey := joinPath [base; prefix] in
  let endKey := PrefixNextKey startKey in
  match _ ← tk_Begin (tk_client kv); it ← tk_Iter (tk_client kv) startKey endKey;
        items ← read_all it;
        let cnt := zlen items in
        let ph := PH PartType_EtcdBackup (-1) (strings_Marshal (backup_meta base cnt 0)) in
        bs ← proto_Marshal ph; Ok (cnt, bs) with
  | Err e => Some (w, Err e)
  | Panic p => Some (w, Panic p)
  | Ok (cnt, bs) =>
      let w := writeBackupBytes w bs in
      match tk_Iter (tk_client kv) startKey endKey with
      | Err e => Some (w, Err e)
      | Panic p => Some (w, Panic p)
      | Ok (items, err) =>
          match TiKV_backup_loop fuel base cnt batchSize items err 0 w with
          | None => None
          | Some (w, Err e) => Some (w, Err e)
          | Some (w, Panic p) => Some (w, Panic p)
          | Some (w, Ok _) =>
              if bool_decide (cnt = 0) then Some (w, Panic "integer divide by zero")
              else Some (bufio_Flush (writeBackupBytes (bufio_Flush w) []),
                         (tk_Commit (tk_client kv) []).2)
          end
      end
  end.
End tikv.
Arguments txnTiKV : clear implicits.

(** ** Properties *)
Lemma convert_roundtrip value byteValue :
  convertEmptyStringToByte value = Ok byteValue →
  byteValue ≠ "" ∧ convertEmptyByteToString byteValue = value.
Proof.
  unfold convertEmptyStringToByte, convertEmptyByteToString, isEmptyByte.
  case_bool_decide as H0; [|case_bool_decide as H1]; intros [= <-].
  - destruct value; [|done]. split; [done|]. by rewrite bool_decide_true.
  - rewrite !bool_decide_false by done. split; [by intros ->|done].
Qed.

Section tikv_properties.
Context {St : Type} `{TikvLaws St}.
Implicit Types (kv : txnTiKV St).

(** On a reachable TiKV, saving any value but the reserved one, the
    empty value included, succeeds, and [Load] and [LoadWithPrefix] then see exactly
    this value under the joined key and the stored ones elsewhere; saving the reserved
    value fails and changes nothing. *)
Theorem TiKV_Save_Load kv key value :
  tk_up (tk_client kv) → joinPath [tk_rootPath kv; key] ≠ "" →
  if bool_decide (value = EmptyValueString) then ∃ e, TiKV_Save kv key value = (kv, Err e)
  else ∃ kv', TiKV_Save kv key value = (kv', Ok tt)
    ∧ tk_up (tk_client kv') ∧ tk_rootPath kv' = tk_rootPath kv
    ∧ TiKV_Load kv' key = Ok value
    ∧ (∀ key', joinPath [tk_rootPath kv; key'] ≠ joinPath [tk_rootPath kv; key] →
         TiKV_Load kv' key' = TiKV_Load kv key')
    ∧ (∀ prefix, ∃ items, TiKV_LoadWithPrefix kv' prefix = Ok items
         ∧ ∀ k v, (k, v) ∈ zip items.1 items.2 ↔
             HasPrefix k (joinPath [tk_rootPath kv; prefix]) = true
             ∧ convertEmptyByteToString <$> tk_kvs (tk_client kv') !! k = Some v).
Proof.
  intros Hup Hne. unfold TiKV_Save. rewrite tk_Begin_law by done. cbn [mbind res_bind].
  destruct (convertEmptyStringToByte value) as [bv|e|w] eqn:Hc; cbn [mbind res_bind].
  - destruct (convert_roundtrip _ _ Hc) as [Hbv Hback].
    assert (value ≠ EmptyValueString) as Hv by (intros ->; done).
    rewrite bool_decide_false by done. rewrite tk_Set_law by done. cbn [mbind res_bind].
    unfold tk_commit.
    destruct (tk_Commit_Set (tk_client kv) (joinPath [tk_rootPath kv; key]) bv Hup)
      as (s' & -> & Hk & Hup').
    eexists. split; [done|]. split_and!; try done.
    + unfold TiKV_Load. cbn. by rewrite tk_Get_law, Hk, lookup_insert_eq, <-Hback by done.
    + intros key' Hne'. unfold TiKV_Load. cbn [tk_client tk_rootPath].
      by rewrite !tk_Get_law, Hk, lookup_insert_ne by done.
    + intros prefix. unfold TiKV_LoadWithPrefix. cbn [tk_client tk_rootPath].
      rewrite tk_Iter_law by done. cbn [mbind res_bind read_all fst snd]. eexists. split; [done|].
      intros k v. cbn [fst snd]. set (l := filter _ _).
      assert (zip (map fst l) (map (λ x, convertEmptyByteToString x.2) l)
              = map (λ x, (x.1, convertEmptyByteToString x.2)) l) as ->.
      { induction l as [|x l IH]; simpl; [done|by rewrite IH]. }
      rewrite list_elem_of_fmap. split.
      * intros ([k' v'] & [= -> ->] & Hin). unfold l in Hin.
        apply list_elem_of_filter in Hin as [Hb Hin%elem_of_sorted_kvs]. simpl in Hb.
        rewrite Hin. split; [|done].
        rewrite <-tk_prefix_next; [done|]. by apply andb_true_iff in Hb as [? _].
      * intros [Hp (v' & Hk' & ->)%fmap_Some]. exists (k, v'). split; [done|].
        apply list_elem_of_filter. split; [|by apply elem_of_sorted_kvs]. simpl.
        by rewrite tk_prefix_next by by apply kle_prefix.
  - unfold convertEmptyStringToByte in Hc. case_bool_decide; [done|].
    case_bool_decide; [|done]. eauto.
  - unfold convertEmptyStringToByte in Hc. repeat case_bool_decide; done.
Qed.
End tikv_properties.

(** ** A concrete store: TiKV with a map for its contents *)
Definition apply_tk_op (m : gmap string string) (o : tk_op) : gmap string string :=
  match o with TSet k v => <[k := v]> m | TDelete k => delete k m end.

#[export] Instance map_tikv : TikvClient (gmap string string) := {
  tk_Get m k := match m !! k with Some v => Ok v | None => Err (Errorf "not exist") end;
  tk_Iter m lo hi := Ok (filter (λ x, in_bounds lo hi x.1 = true) (sorted_kvs m), None);
  tk_Begin _ := Ok tt;
  tk_Set _ _ := Ok tt;
  tk_Delete _ := Ok tt;
  tk_Commit m ops := (foldl apply_tk_op m ops, Ok tt);
  tk_DeleteRange m lo hi := (filter (λ x, in_bounds lo hi x.1 = false) m, Ok tt);
  PrefixNextKey p := default "" (prefix_end p);
}.

#[export] Instance map_tikv_laws : TikvLaws (gmap string string).
Proof.
  refine {| tk_kvs m := m; tk_up _ := True |}; try (by eauto).
  intros p k Hk. unfold in_bounds. simpl. rewrite Hk. pose proof (prefix_end_spec p k Hk) as Hs.
  destruct (prefix_end p) as [e|] eqn:E; simpl; [|by rewrite Hs].
  rewrite bool_decide_false; [by rewrite Hs|]. intros ->. simpl in Hs.
  destruct p as [|c p]; [done|]. simpl in E. repeat case_match; simplify_eq.
Defined.

Definition sample_tikv : txnTiKV (gmap string string) :=
  TxnTiKV {["by-dev/a" := "1"; "by-dev/b" := EmptyValueString]} "by-dev".

Lemma TiKV_Save_Load_witness :
  ∃ kv', TiKV_Save sample_tikv "c" "" = (kv', Ok tt) ∧ TiKV_Load kv' "c" = Ok "".
Proof.
  pose proof (TiKV_Save_Load sample_tikv "c" "" I) as Hs.
  destruct Hs as (kv' & Hs & _ & _ & Hl & _); [vm_compute; discriminate|].
  exists kv'. split; [exact Hs|exact Hl].
Defined.
