(* ===== verification/AuditKV.v ===== *)
(** * The interface of metadata stores, and the auditing store

    The interface [MetaKV] of [states/kv/kv.go], what its clients rely on
    ([MetaKVLaws]), the etcd store as an implementation, and the store of
    [states/kv/kv_audit.go], which logs the changes made through it to a file. *)

From S2P Require Export MetaKV.

Class MetaKV (K : Type) := {
  mk_Load : K → string → bool → res string;
  mk_LoadWithPrefix : K → string → bool → res (list string * list string);
  mk_Save : K → string → string → K * res unit;
  mk_MultiSave : K → list string → list string → K * res unit;
  mk_Remove : K → string → K * res unit;
  mk_RemoveWithPrefix : K → string → K * res unit;
  mk_removeWithPrevKV : K → string → K * res (option (string * string));
  mk_removeWithPrefixAndPrevKV : K → string → K * res (list (string * string));
  mk_WalkWithPrefix : ∀ T, nat → (T → K) → string → Z → (string → string → T → T * res unit) →
    T → option (T * res unit);
  mk_GetAllRootPath : nat → K → option (res (list string));
}.

(** What a reachable store promises: it is a map; a key of the caller stands for the key
    [mk_key] of the map; a removed directory is the prefix [mk_dir], a walk is over the
    prefix [mk_walk].  [Remove] of a missing key may fail or not. *)
Class MetaKVLaws (K : Type) `{MetaKV K} := {
  mk_up : K → Prop;
  mk_map : K → gmap string string;
  mk_key : K → string → string;
  mk_dir : K → string → string;
  mk_walk : K → string → string;
  law_Load c key : mk_up c → mk_key c key ≠ "" →
    mk_Load c key false
    = match mk_map c !! mk_key c key with Some v => Ok v | None => Err ErrKeyNotFound end;
  law_LoadWithPrefix c prefix : mk_up c →
    mk_LoadWithPrefix c prefix false
    = Ok (let l := prefixed (mk_map c) (mk_key c prefix) in (map fst l, map snd l));
  law_Save c key value : mk_up c → mk_key c key ≠ "" →
    ∃ c', mk_Save c key value = (c', Ok tt) ∧ mk_up c' ∧ mk_key c' = mk_key c
          ∧ mk_dir c' = mk_dir c ∧ mk_walk c' = mk_walk c ∧ mk_map c' = <[mk_key c key := value]> (mk_map c);
  law_Remove c key : mk_up c → mk_key c key ≠ "" →
    ∃ c' r, mk_Remove c key = (c', r) ∧ mk_up c' ∧ mk_key c' = mk_key c ∧ mk_dir c' = mk_dir c
          ∧ mk_walk c' = mk_walk c ∧ (r = Ok tt ∨ r = Err ErrKeyNotFound) ∧ (is_Some (mk_map c !! mk_key c key) → r = Ok tt)
          ∧ mk_map c' = delete (mk_key c key) (mk_map c);
  law_RemoveWithPrefix c prefix : mk_up c →
    ∃ c', mk_RemoveWithPrefix c prefix = (c', Ok tt) ∧ mk_up c' ∧ mk_key c' = mk_key c
          ∧ mk_dir c' = mk_dir c ∧ mk_walk c' = mk_walk c
          ∧ mk_map c' = filter (λ p, HasPrefix p.1 (mk_dir c prefix) = false) (mk_map c);
  (* the callback leaves what the walk has not reached yet as it is *)
  law_WalkWithPrefix T (get : T → K) prefix n (fn : string → string → T → T * res unit) ok t fuel :
    (∀ t', ok t' → mk_up (get t') ∧ ∀ k v, mk_map (get t') !! k = Some v →
       HasPrefix k (mk_walk (get t) prefix) = true → ok (fn k v t').1
       ∧ ∀ k', klt k k' = true → mk_map (get (fn k v t').1) !! k' = mk_map (get t') !! k') →
    ok t → mk_walk (get t) prefix ≠ "" → (size (mk_map (get t)) < fuel)%nat →
    mk_WalkWithPrefix T fuel get prefix n fn t
    = Some (walk_page fn (prefixed (mk_map (get t)) (mk_walk (get t) prefix)) t);
}.

(** [MultiSave] writes pairs under their keys as they are; not every store has it. *)
Class MetaKVBatch (K : Type) `{MetaKVLaws K} := {
  law_MultiSave c keys values :
    mk_up c → length keys = length values → NoDup keys → "" ∉ keys →
    ∃ c', mk_MultiSave c keys values = (c', Ok tt) ∧ mk_up c' ∧ mk_key c' = mk_key c
          ∧ mk_map c' = list_to_map (zip keys values) ∪ mk_map c;
}.

(** ** The etcd store *)
Section etcd_store.
Context {St : Type} `{EtcdClient St}.

#[export] Instance etcd_MetaKV : MetaKV (etcdKV St) := {
  mk_Load := Load;
  mk_LoadWithPrefix := LoadWithPrefix;
  mk_Save := Save;
  mk_MultiSave := MultiSave;
  mk_Remove := Remove;
  mk_RemoveWithPrefix := RemoveWithPrefix;
  mk_removeWithPrevKV := removeWithPrevKV;
  mk_removeWithPrefixAndPrevKV := removeWithPrefixAndPrevKV;
  mk_WalkWithPrefix T := WalkWithPrefix;
  mk_GetAllRootPath fuel kv := GetAllRootPath fuel kv [] "";
}.
End etcd_store.

Lemma same_root {St} (kv kv' : etcdKV St) :
  rootPath kv' = rootPath kv →
  full_key kv' = full_key kv ∧ dir_key kv' = dir_key kv ∧ walk_key kv' = walk_key kv.
Proof. unfold walk_key, dir_key, full_key. by intros ->. Qed.

#[export] Instance etcd_MetaKVLaws {St} `{EtcdLaws St} : MetaKVLaws (etcdKV St).
Proof.
  refine {| mk_up := kv_up; mk_map := kv_map; mk_key := full_key; mk_dir := dir_key;
            mk_walk := walk_key |};
    simpl; [intros c..|].
  - apply Load_map.
  - apply LoadWithPrefix_map.
  - intros key value Hup Hne. destruct (Save_map c key value Hup Hne) as (c' & ? & ? & Hr & ?).
    destruct (same_root _ _ Hr) as (? & ? & ?). by exists c'.
  - intros key Hup Hne. destruct (Remove_map c key Hup Hne) as (c' & ? & ? & Hr & ?).
    destruct (same_root _ _ Hr) as (? & ? & ?). exists c', (Ok tt). split_and!; auto.
  - intros prefix Hup. destruct (RemoveWithPrefix_map c prefix Hup) as (c' & ? & ? & Hr & ?).
    destruct (same_root _ _ Hr) as (? & ? & ?). by exists c'.
  - intros T. apply WalkWithPrefix_all.
Defined.

#[export] Instance etcd_MetaKVBatch {St} `{EtcdLaws St} : MetaKVBatch (etcdKV St).
Proof.
  constructor. intros c keys values Hup Hl Hnd Hne.
  destruct (MultiSave_map c keys values Hup Hl Hnd Hne) as (c' & ? & ? & Hr & ?).
  destruct (same_root _ _ Hr) as (? & ? & ?). by exists c'.
Defined.

(** ** The audit log *)

(** [*os.File], written at its end. *)
Class OsFile (F : Type) := { file_Write : F → list byte → F * res Z }.
Class OsFileLaws (F : Type) `{OsFile F} := {
  file_data : F → list byte;
  file_ok : F → Prop;
  file_Write_ok f bs : file_ok f →
    ∃ f', file_Write f bs = (f', Ok (zlen bs)) ∧ file_data f' = file_data f ++ bs ∧ file_ok f';
}.

Definition AuditOpType_OpDel : Z := 1.
Definition AuditOpType_OpPut : Z := 2.
Definition AuditOpType_OpPutBefore : Z := 3.
Definition AuditOpType_OpPutAfter : Z := 4.

Record AuditHeader := AuditHdr { ah_Version : Z; ah_OpType : Z; ah_EntriesNum : Z }.

(** [mvccpb.KeyValue], of which the log uses the key and the value. *)
Record KeyValue := KV { kv_Key : list byte; kv_Value : list byte }.

Section audit.
Context {K F : Type} `{MetaKV K} `{OsFile F} `{ProtoCodec AuditHeader} `{ProtoCodec KeyValue}.

Record FileAuditKV := Audit { cli : K; file : F }.

Definition NewFileAuditKV (kv : K) (file : F) : FileAuditKV := Audit kv file.

(** A failed write of the length ends it; a failed write of the data is only printed. *)
Definition writeData (f : F) (data : list byte) : F :=
  let '(f, r) := file_Write f (le_put 8 (zlen data)) in
  match r with
  | Ok _ => if bool_decide (0 < zlen data) then (file_Write f data).1 else f
  | _ => f
  end.

Definition writeHeader (f : F) (op entriesNum : Z) : F :=
  writeData f (marshalled (AuditHdr 1 op entriesNum)).

Definition writeLogKV (f : F) (kv : option KeyValue) : F :=
  match kv with None => f | Some kv => writeData f (marshalled kv) end.

Definition writeKeyValue (f : F) (key value : string) : F :=
  writeLogKV f (Some (KV (bytes_of_string key) (bytes_of_string value))).

(** The log entries of the loop of [RemoveWithPrefix]; [values[i]] panics when there
    are fewer values than keys. *)
Fixpoint writeKeyValues (f : F) (keys values : list string) : F * res unit :=
  match keys, values with
  | [], _ => (f, Ok tt)
  | key :: keys, val :: values => writeKeyValues (writeKeyValue f key val) keys values
  | _ :: _, [] => (f, Panic "index out of range")
  end.

Definition audit_Save (c : FileAuditKV) (key value : string) : FileAuditKV * res unit :=
  let f := writeHeader (file c) AuditOpType_OpPut 2 in
  let '(k, err) := mk_Save (cli c) key value in
  match err with
  | Panic w => (Audit k f, Panic w)
  | _ =>
      let f := match err with
               | Ok _ => writeKeyValue (writeHeader f AuditOpType_OpPutBefore 1) key value
               | _ => f
               end in
      (Audit k (writeHeader f AuditOpType_OpPutAfter 1), err)
  end.

Definition audit_MultiSave (c : FileAuditKV) (keys values : list string)
    : FileAuditKV * res unit := (c, Err (Errorf "not implemented")).

Definition audit_Remove (c : FileAuditKV) (key : string) : FileAuditKV * res unit :=
  match mk_Load (cli c) key false with
  | Err e => (c, Err e)
  | Panic w => (c, Panic w)
  | Ok val =>
      let '(k, err) := mk_Remove (cli c) key in
      match err with
      | Ok _ => (Audit k (writeKeyValue (writeHeader (file c) AuditOpType_OpDel 1) key val), Ok tt)
      | _ => (Audit k (file c), err)
      end
  end.

Definition audit_RemoveWithPrefix (c : FileAuditKV) (key : string) : FileAuditKV * res unit :=
  match mk_LoadWithPrefix (cli c) key false with
  | Err e => (c, Err e)
  | Panic w => (c, Panic w)
  | Ok (keys, values) =>
      let '(k, err) := mk_RemoveWithPrefix (cli c) key in
      match err with
      | Ok _ =>
          let '(f, r) := writeKeyValues (writeHeader (file c) AuditOpType_OpDel 1) keys values in
          (Audit k f, r)
      | _ => (Audit k (file c), err)
      end
  end.

(** A call handed on to the audited store. *)
Definition through {A} (c : FileAuditKV) (r : K * A) : FileAuditKV * A :=
  (Audit r.1 (file c), r.2).

#[export] Instance audit_MetaKV : MetaKV FileAuditKV := {
  mk_Load c := mk_Load (cli c);
  mk_LoadWithPrefix c := mk_LoadWithPrefix (cli c);
  mk_Save := audit_Save;
  mk_MultiSave := audit_MultiSave;
  mk_Remove := audit_Remove;
  mk_RemoveWithPrefix := audit_RemoveWithPrefix;
  mk_removeWithPrevKV c key := through c (mk_removeWithPrevKV (cli c) key);
  mk_removeWithPrefixAndPrevKV c prefix := through c (mk_removeWithPrefixAndPrevKV (cli c) prefix);
  mk_WalkWithPrefix T fuel get := mk_WalkWithPrefix T fuel (λ t, cli (get t));
  mk_GetAllRootPath fuel c := mk_GetAllRootPath fuel (cli c);
}.
End audit.
Arguments FileAuditKV : clear implicits.

(** ** What the log holds *)

Section audit_properties.
Context {K F : Type} `{MetaKVLaws K} `{OsFileLaws F}.
Context `{ProtoCodec AuditHeader} `{ProtoCodec KeyValue}.
Implicit Types (c : FileAuditKV K F) (f : F).

(** Writing one after the other keeps a good file good and appends frames. *)
Definition appends f f' (l : list (list byte)) : Prop :=
  file_ok f' ∧ file_data f' = file_data f ++ frames l.

Lemma writeData_appends f data : file_ok f → appends f (writeData f data) [data].
Proof.
  intros Hf. unfold writeData, appends, frames, frame. cbn [map concat].
  destruct (file_Write_ok f (le_put 8 (zlen data)) Hf) as (f1 & -> & Hd1 & Hf1).
  case_bool_decide.
  - destruct (file_Write_ok f1 data Hf1) as (f2 & -> & Hd2 & Hf2). split; [done|]. cbn [fst].
    by rewrite Hd2, Hd1, <-!app_assoc, app_nil_r.
  - split; [done|]. by rewrite Hd1, !app_nil_r.
Qed.

Lemma appends_trans f f1 f2 l1 l2 :
  appends f f1 l1 → (file_ok f1 → appends f1 f2 l2) → appends f f2 (l1 ++ l2).
Proof.
  intros [Hok1 Hd1] [Hok2 Hd2]; [done|]. split; [done|]. by rewrite Hd2, Hd1, frames_app, <-app_assoc.
Qed.

Definition log_header (op n : Z) : list byte := marshalled (AuditHdr 1 op n).
Definition log_pair (kv : string * string) : list byte :=
  marshalled (KV (bytes_of_string kv.1) (bytes_of_string kv.2)).

Lemma writeKeyValues_appends f keys values :
  length keys = length values → file_ok f →
  ∃ f', writeKeyValues f keys values = (f', Ok tt) ∧ appends f f' (map log_pair (zip keys values)).
Proof.
  revert f values. induction keys as [|key keys IH]; intros f [|val values] Hl Hf; try done.
  - exists f. split; [done|]. split; [done|]. by rewrite app_nil_r.
  - pose proof (writeData_appends f (log_pair (key, val)) Hf) as Ha.
    destruct (IH (writeKeyValue f key val) values) as (f' & Hw & Ha'); [by injection Hl|apply Ha|].
    exists f'. split; [done|]. by apply (appends_trans _ _ _ [_] _ Ha).
Qed.

Definition audit_up c : Prop := mk_up (cli c) ∧ file_ok (file c).

(** The store under the audit has changed to [m], and [l] was logged. *)
Definition audited c c' (m : gmap string string) (l : list (list byte)) : Prop :=
  mk_up (cli c') ∧ mk_key (cli c') = mk_key (cli c) ∧ mk_dir (cli c') = mk_dir (cli c)
  ∧ mk_walk (cli c') = mk_walk (cli c) ∧ mk_map (cli c') = m ∧ appends (file c) (file c') l.

Lemma audit_Save_spec c key value :
  audit_up c → mk_key (cli c) key ≠ "" →
  ∃ c', audit_Save c key value = (c', Ok tt)
    ∧ audited c c' (<[mk_key (cli c) key := value]> (mk_map (cli c)))
        [log_header AuditOpType_OpPut 2; log_header AuditOpType_OpPutBefore 1;
         log_pair (key, value); log_header AuditOpType_OpPutAfter 1].
Proof.
  intros [Hup Hf] Hne. unfold audit_Save.
  destruct (law_Save (cli c) key value Hup Hne) as (k & -> & Hk).
  eexists. split; [done|]. split_and!; try apply Hk. cbn [file].
  apply (appends_trans _ _ _ [_] _ (writeData_appends _ _ Hf)). intros Hf1.
  apply (appends_trans _ _ _ [_] _ (writeData_appends _ _ Hf1)). intros Hf2.
  apply (appends_trans _ _ _ [_] _ (writeData_appends _ _ Hf2)). intros Hf3.
  by apply writeData_appends.
Qed.

Lemma audit_Remove_spec c key :
  audit_up c → mk_key (cli c) key ≠ "" →
  match mk_map (cli c) !! mk_key (cli c) key with
  | None => audit_Remove c key = (c, Err ErrKeyNotFound)
  | Some v => ∃ c', audit_Remove c key = (c', Ok tt)
      ∧ audited c c' (delete (mk_key (cli c) key) (mk_map (cli c)))
          [log_header AuditOpType_OpDel 1; log_pair (key, v)]
  end.
Proof.
  intros [Hup Hf] Hne. unfold audit_Remove. rewrite law_Load by done.
  destruct (mk_map (cli c) !! _) as [v|] eqn:Hv; [|done].
  destruct (law_Remove (cli c) key Hup Hne) as (k & r & -> & Huk & Hkk & Hdk & Hwk & _ & Hr & Hm).
  rewrite Hr by by eexists. eexists. split; [done|]. split_and!; try done. cbn [file].
  apply (appends_trans _ _ _ [_] _ (writeData_appends _ _ Hf)). by apply writeData_appends.
Qed.

Lemma audit_RemoveWithPrefix_spec c prefix :
  audit_up c →
  ∃ c', audit_RemoveWithPrefix c prefix = (c', Ok tt)
    ∧ audited c c' (filter (λ p, HasPrefix p.1 (mk_dir (cli c) prefix) = false) (mk_map (cli c)))
        (log_header AuditOpType_OpDel 1
           :: map log_pair (prefixed (mk_map (cli c)) (mk_key (cli c) prefix))).
Proof.
  intros [Hup Hf]. unfold audit_RemoveWithPrefix. rewrite law_LoadWithPrefix by done.
  set (l := prefixed _ _). cbv zeta.
  destruct (law_RemoveWithPrefix (cli c) prefix Hup) as (k & -> & Huk & Hkk & Hdk & Hwk & Hm).
  pose proof (writeData_appends _ (log_header AuditOpType_OpDel 1) Hf) as Ha.
  destruct (writeKeyValues_appends (writeHeader (file c) AuditOpType_OpDel 1)
              (map fst l) (map snd l)) as (f' & -> & Ha'); [by rewrite !length_map|apply Ha|].
  eexists. split; [done|]. split_and!; try done. cbn [file].
  apply (appends_trans _ _ _ [_] _ Ha). intros _. enough (zip (map fst l) (map snd l) = l) as Hz
    by by rewrite Hz in Ha'.
  clear. induction l as [|[k v] l IH]; simpl; [done|by rewrite IH].
Qed.

(** The auditing store keeps the promises of the interface. *)
#[export] Instance audit_MetaKVLaws : MetaKVLaws (FileAuditKV K F).
Proof.
  refine {| mk_up := audit_up; mk_map c := mk_map (cli c); mk_key c := mk_key (cli c);
            mk_dir c := mk_dir (cli c); mk_walk c := mk_walk (cli c) |}; simpl; [intros c..|].
  - intros key [Hup _] Hne. by apply law_Load.
  - intros prefix [Hup _]. by apply law_LoadWithPrefix.
  - intros key value Hup Hne. destruct (audit_Save_spec c key value Hup Hne)
      as (c' & ? & Hu & ? & ? & ? & ? & ? & _). by exists c'.
  - intros key Hup Hne. pose proof (audit_Remove_spec c key Hup Hne) as Hr.
    destruct (mk_map (cli c) !! _) as [v|] eqn:Hv.
    + destruct Hr as (c' & ? & Hu & ? & ? & ? & ? & ? & _). exists c', (Ok tt). repeat split; try done; by left.
    + exists c, (Err ErrKeyNotFound). split_and!; try done; [by right|].
      by rewrite delete_id.
  - intros prefix Hup. destruct (audit_RemoveWithPrefix_spec c prefix Hup)
      as (c' & ? & Hu & ? & ? & ? & ? & ? & _). by exists c'.
  - intros T get prefix n fn ok t fuel Hfn Ht. apply (law_WalkWithPrefix T (λ t, cli (get t))) with ok;
      [|done]. intros t' Ht'. destruct (Hfn t' Ht') as [[? _] ?]. by split.
Defined.

(** C35 (refinement): over any store that keeps the promises of the interface and a file
    that takes every write, the auditing store changes the map as the store itself does
    (a [Remove] of a missing key fails, without a change), and the log grows by exactly
    the frames of the change: [Save] puts the new pair under the "before" header and
    nothing under the "after" header; [Remove] logs the old pair; [RemoveWithPrefix]
    logs, under a header that says one entry, every pair whose key starts with the
    joined path. *)
Theorem FileAuditKV_spec c :
  mk_up c →
  (∀ key, mk_Load c key false = mk_Load (cli c) key false)
  ∧ (∀ key value, mk_key c key ≠ "" → ∃ c', mk_Save c key value = (c', Ok tt)
       ∧ audited c c' (<[mk_key c key := value]> (mk_map c))
           [log_header AuditOpType_OpPut 2; log_header AuditOpType_OpPutBefore 1;
            log_pair (key, value); log_header AuditOpType_OpPutAfter 1])
  ∧ (∀ key, mk_key c key ≠ "" →
       match mk_map c !! mk_key c key with
       | None => mk_Remove c key = (c, Err ErrKeyNotFound)
       | Some v => ∃ c', mk_Remove c key = (c', Ok tt)
           ∧ audited c c' (delete (mk_key c key) (mk_map c))
               [log_header AuditOpType_OpDel 1; log_pair (key, v)]
       end)
  ∧ (∀ prefix, ∃ c', mk_RemoveWithPrefix c prefix = (c', Ok tt)
       ∧ audited c c' (filter (λ p, HasPrefix p.1 (mk_dir c prefix) = false) (mk_map c))
           (log_header AuditOpType_OpDel 1
              :: map log_pair (prefixed (mk_map c) (mk_key c prefix)))).
Proof.
  intros Hup. split_and!.
  - done.
  - intros. by apply audit_Save_spec.
  - intros. by apply audit_Remove_spec.
  - intros. by apply audit_RemoveWithPrefix_spec.
Qed.
End audit_properties.

(** Auditing an etcd store, [RemoveWithPrefix] of a path that does not
    end in a slash logs as deleted also the pairs that only start with the path, such as
    the path itself, and leaves these in the store. *)
Theorem audit_RemoveWithPrefix_logs_kept {St F} `{EtcdLaws St} `{OsFileLaws F}
    `{ProtoCodec AuditHeader} `{ProtoCodec KeyValue} (c : FileAuditKV (etcdKV St) F) prefix :
  kv_up (cli c) → file_ok (file c) → HasSuffix (full_key (cli c) prefix) "/" = false →
  ∃ c' logged, audit_RemoveWithPrefix c prefix = (c', Ok tt)
    ∧ file_data (file c')
      = file_data (file c) ++ frames (log_header AuditOpType_OpDel 1 :: map log_pair logged)
    ∧ ∀ k v, kv_map (cli c) !! k = Some v →
        ((k, v) ∈ logged ↔ HasPrefix k (full_key (cli c) prefix) = true)
        ∧ (kv_map (cli c') !! k = Some v
           ↔ HasPrefix k (full_key (cli c) prefix +:+ "/") = false).
Proof.
  intros Hup Hf Hs. destruct (audit_RemoveWithPrefix_spec c prefix) as (c' & He & Ha).
  { by split. }
  destruct Ha as (_ & _ & _ & _ & Hm & _ & Hd).
  exists c', (prefixed (kv_map (cli c)) (full_key (cli c) prefix)). split_and!; [done..|].
  intros k v Hk. split.
  - unfold prefixed. rewrite list_elem_of_filter, elem_of_sorted_kvs. simpl. naive_solver.
  - change (mk_map (cli c')) with (kv_map (cli c')) in Hm. rewrite Hm, map_lookup_filter_Some.
    simpl. unfold dir_key. rewrite Hs. naive_solver.
Qed.

(** ** A concrete auditing store *)
#[export] Instance mem_file : OsFile (list byte) := { file_Write f bs := (f ++ bs, Ok (zlen bs)) }.
#[export] Instance mem_file_laws : OsFileLaws (list byte).
Proof. refine {| file_data f := f; file_ok _ := True |}. by eauto. Defined.

(** Encodings good enough for the examples: the fields one after the other. *)
#[export] Instance sample_header_codec : ProtoCodec AuditHeader := {
  proto_Marshal h := Ok (le_put 4 (ah_Version h) ++ le_put 4 (ah_OpType h) ++ le_put 4 (ah_EntriesNum h));
  proto_Unmarshal bs := if bool_decide (length bs = 12%nat)
    then Ok (AuditHdr (le_get (take 4 bs)) (le_get (take 4 (drop 4 bs))) (le_get (drop 8 bs)))
    else Err (Errorf "proto");
}.
#[export] Instance sample_kv_codec : ProtoCodec KeyValue := {
  proto_Marshal kv := Ok (le_put 4 (zlen (kv_Key kv)) ++ kv_Key kv ++ kv_Value kv);
  proto_Unmarshal bs :=
    let n := Z.to_nat (le_get (take 4 bs)) in
    Ok (KV (take n (drop 4 bs)) (drop (4 + n) bs));
}.

Definition sample_audit : FileAuditKV (etcdKV (gmap string string)) (list byte) :=
  Audit sample_kv [].

Lemma FileAuditKV_spec_witness :
  ∃ c', audit_Save sample_audit "k" "v" = (c', Ok tt)
    ∧ mk_map c' !! "by-dev/k" = Some "v" ∧ length (file c') = 74%nat.
Proof.
  destruct (FileAuditKV_spec sample_audit ltac:(split; exact I)) as (_ & Hs & _ & _).
  destruct (Hs "k" "v") as (c' & He & _ & _ & _ & _ & Hm & _ & Hd); [vm_compute; discriminate|].
  exists c'. split; [exact He|]. simpl in Hd. split.
  - simpl. simpl in Hm. rewrite Hm. vm_compute. reflexivity.
  - rewrite Hd. vm_compute. reflexivity.
Defined.

Lemma audit_RemoveWithPrefix_logs_kept_witness :
  ∃ c' (logged : list (string * string)), audit_RemoveWithPrefix sample_audit "a" = (c', Ok tt)
    ∧ ("by-dev/ab", "2") ∈ logged ∧ kv_map (cli c') !! "by-dev/ab" = Some "2".
Proof.
  destruct (audit_RemoveWithPrefix_logs_kept sample_audit "a") as (c' & logged & He & _ & Hk);
    [exact I|exact I|reflexivity|].
  destruct (Hk "by-dev/ab" "2") as [[_ H1] [_ H2]]; [reflexivity|].
  exists c', logged. split; [exact He|]. split; [exact (H1 eq_refl)|exact (H2 eq_refl)].
Defined.
