(* ===== verification/Paths.v ===== *)
(** * Keys as paths

    Models [states/etcd/common/path.go], and has what the metadata commands rely on for
    their keys: a key is a path of elements without a slash, [path.Join] of such paths
    puts slashes between them, and decimal numbers are elements. *)

From S2P Require Export AuditKV.

(** ** [path.go] *)
Definition PathPart (p : string) (idx : Z) : res string :=
  let parts := Split "/" p in
  let idx := if bool_decide (idx < 0) then zlen parts + idx else idx in
  if bool_decide (idx < 0) && bool_decide (zlen parts <= idx) then Err (Errorf "out of index")
  else go_index parts idx.

Definition PathPartInt64 (p : string) (idx : Z) : res Z :=
  part ← PathPart p idx;
  match ParseInt part with Some v => Ok v | None => Err (Errorf "invalid syntax") end.

(** ** Plain paths *)
Definition plain (e : string) : Prop := e ≠ "" ∧ e ≠ "." ∧ e ≠ "..".
#[export] Instance plain_dec e : Decision (plain e).
Proof. unfold plain. apply _. Defined.

(** A path without empty or dot elements: [path.Clean] leaves it alone. *)
Definition is_path (p : string) : Prop := Forall plain (Split "/" p).
#[export] Instance is_path_dec p : Decision (is_path p).
Proof. unfold is_path. apply _. Defined.

(** Paths one after the other. *)
Definition joined (l : list string) : string := Join "/" l.

Lemma Split_app sep a b : Split sep (a +:+ String sep b) = Split sep a ++ Split sep b.
Proof.
  induction a as [|c a IH]; autorewrite with go_string; simpl; [by rewrite decide_True|].
  rewrite IH. case_decide; [done|]. pose proof (Split_nonempty sep a).
  by destruct (Split sep a).
Qed.

Lemma Split_none_app sep a b :
  Split sep a = [a] → Split sep b = [b] → Split sep (a +:+ b) = [a +:+ b].
Proof.
  intros Ha Hb. induction a as [|c a IH]; [done|]. simpl in *. case_decide; [by destruct a|].
  destruct (Split sep a) as [|p ps] eqn:E; [by apply Split_nonempty in E|]. injection Ha as -> ->.
  change ((String c a) +:+ b) with (String c (a +:+ b)). by rewrite IH.
Qed.

Lemma Split_slash a b : Split "/" (a +:+ "/" +:+ b) = Split "/" a ++ Split "/" b.
Proof. change ("/" +:+ b) with (String "/" b). apply Split_app. Qed.

Lemma Split_end a : Split "/" (a +:+ "/") = Split "/" a ++ [""].
Proof. apply (Split_app "/" a ""). Qed.

Lemma Join_cons sep a l : l ≠ [] → Join sep (a :: l) = a +:+ sep +:+ Join sep l.
Proof. by destruct l. Qed.

Lemma Split_Join sep l : l ≠ [] → Split sep (Join (String sep "") l) = concat (map (Split sep) l).
Proof.
  induction l as [|a l IH]; [done|]. intros _. destruct (decide (l = [])) as [->|Hl].
  - simpl. by rewrite app_nil_r.
  - rewrite Join_cons by done. change (String sep "" +:+ ?s) with (String sep s).
    rewrite Split_app, IH by done. done.
Qed.

Lemma joined_cons a l : l ≠ [] → joined (a :: l) = a +:+ "/" +:+ joined l.
Proof. apply Join_cons. Qed.

Lemma Split_joined l : l ≠ [] → Split "/" (joined l) = concat (map (Split "/") l).
Proof. apply Split_Join. Qed.

Lemma joined_is_path l : l ≠ [] → Forall is_path l → is_path (joined l).
Proof.
  intros Hl Hp. unfold is_path. rewrite Split_joined by done. apply List.Forall_concat.
  apply List.Forall_map. exact Hp.
Qed.

Lemma is_path_nonempty p : is_path p → p ≠ "".
Proof.
  intros Hp ->. unfold is_path in Hp. simpl in Hp. by apply list.Forall_cons in Hp as [[? _] _].
Qed.

Lemma is_path_app a b : is_path a → is_path b → is_path (a +:+ "/" +:+ b).
Proof. intros Ha Hb. unfold is_path. rewrite Split_slash. by apply Forall_app. Qed.

Lemma is_path_start p : is_path p → HasPrefix p "/" = false.
Proof.
  intros Hp. apply not_true_iff_false. intros [t ->]%HasPrefix_spec.
  unfold is_path in Hp. change ("/" +:+ t) with ("" +:+ "/" +:+ t) in Hp.
  rewrite Split_slash in Hp. simpl in Hp. by apply list.Forall_cons in Hp as [[? _] _].
Qed.

Lemma foldl_clean stack es :
  Forall plain es → foldl (clean_step false) stack es = rev es ++ stack.
Proof.
  revert stack. induction es as [|e es IH]; intros stack; [done|].
  intros [(? & ? & ?) Hes]%list.Forall_cons. simpl. rewrite IH by done. unfold clean_step.
  rewrite !decide_False by done. by rewrite <-app_assoc.
Qed.

Lemma Clean_path p : is_path p → path_Clean p = p.
Proof.
  intros Hp. unfold path_Clean. rewrite is_path_start by done.
  rewrite foldl_clean by done. rewrite app_nil_r, rev_involutive, (Join_Split "/" p).
  rewrite string_app_nil_l. rewrite decide_False by (by apply is_path_nonempty). done.
Qed.

Lemma path_join_raw_joined buf l :
  buf ≠ "" → path_join_raw buf l = joined (buf :: l).
Proof.
  revert buf. induction l as [|a l IH]; intros buf Hb; [done|]. cbn [path_join_raw].
  rewrite decide_False by done.
  assert (buf +:+ "/" +:+ a ≠ "") as Hne by (destruct buf; done).
  rewrite IH by done. destruct (decide (l = [])) as [->|Hl]; [done|].
  rewrite !(joined_cons _ (a :: l)), !joined_cons by done. by rewrite !string_app_assoc.
Qed.

Lemma path_Join_joined l : l ≠ [] → Forall is_path l → path_Join l = joined l.
Proof.
  intros Hl Hp. unfold path_Join. destruct l as [|a l]; [done|].
  apply list.Forall_cons in Hp as Hp'. destruct Hp' as [Ha _].
  pose proof (is_path_nonempty a Ha) as Hne. cbn [path_join_raw forallb].
  rewrite decide_True by done. rewrite path_join_raw_joined by done.
  rewrite bool_decide_false by done. cbn [andb]. by apply Clean_path, joined_is_path.
Qed.

(** Joining below an empty root path. *)
Lemma path_Join_empty p : is_path p → path_Join [""; p] = p.
Proof.
  intros Hp. pose proof (is_path_nonempty p Hp). unfold path_Join. cbn [path_join_raw forallb].
  rewrite !decide_True by done. rewrite bool_decide_true, bool_decide_false by done. cbn [andb].
  by apply Clean_path.
Qed.

Lemma path_Clean_slash p : is_path p → path_Clean (p +:+ "/") = p.
Proof.
  intros Hp. unfold path_Clean.
  assert (HasPrefix (p +:+ "/") "/" = false) as ->.
  { pose proof (is_path_start p Hp) as Hs. pose proof (is_path_nonempty p Hp).
    destruct p as [|c p]; [done|]. rewrite string_app_cons, HasPrefix_cons. rewrite HasPrefix_cons in Hs.
    apply andb_false_iff in Hs as [->|Hs]; [done|]. unfold HasPrefix in Hs. by destruct p. }
  rewrite Split_end, foldl_app, (foldl_clean [] (Split "/" p)) by done. cbn [foldl].
  change (clean_step false (rev (Split "/" p) ++ []) "") with (rev (Split "/" p) ++ []).
  rewrite app_nil_r, rev_involutive, (Join_Split "/" p), string_app_nil_l.
  rewrite decide_False by (by apply is_path_nonempty). done.
Qed.

(** Empty elements do not count. *)
Lemma foldl_clean_nonempty rooted stack es :
  foldl (clean_step rooted) stack es = foldl (clean_step rooted) stack (filter (λ e, e ≠ "") es).
Proof.
  revert stack. induction es as [|e es IH]; intros stack; [done|]. rewrite filter_cons. cbn [foldl].
  destruct (decide (e = "")) as [->|He].
  - rewrite (decide_False (P := "" ≠ "")) by tauto. apply IH.
  - rewrite decide_True by done. apply IH.
Qed.

Lemma Clean_parts p p' :
  HasPrefix p "/" = false → filter (λ e, e ≠ "") (Split "/" p) = Split "/" p' → is_path p' → path_Clean p = p'.
Proof.
  intros Hs Hp Hp'. unfold path_Clean. rewrite Hs, foldl_clean_nonempty, Hp, (foldl_clean [] (Split "/" p')) by done.
  rewrite app_nil_r, rev_involutive, (Join_Split "/" p'), string_app_nil_l.
  by rewrite decide_False by (by apply is_path_nonempty).
Qed.

Lemma filter_plain es : Forall plain es → filter (λ e, e ≠ "") es = es.
Proof. induction 1 as [|e es [He _] _ IH]; [done|]. by rewrite filter_cons, decide_True, IH. Qed.

(** A slash at the end of an element makes no difference. *)
Lemma path_Join_slash b q l : Forall is_path (b :: q :: l) → path_Join (b :: (q +:+ "/") :: l) = joined (b :: q :: l).
Proof.
  intros Hp. apply list.Forall_cons in Hp as Hp'. destruct Hp' as [Hb (Hq & Hl)%list.Forall_cons].
  pose proof (is_path_nonempty b Hb) as Hne. unfold path_Join. cbn [forallb].
  assert (∀ l', path_join_raw "" (b :: l') = path_join_raw b l') as -> by done.
  rewrite path_join_raw_joined by done. rewrite bool_decide_false by done. cbn [andb].
  assert (joined (b :: (q +:+ "/") :: l) = b +:+ "/" +:+ joined ((q +:+ "/") :: l)) as E by (by apply joined_cons).
  apply Clean_parts.
  - rewrite E. pose proof (is_path_start b Hb) as Hs. destruct b as [|c b]; [done|].
    rewrite string_app_cons, HasPrefix_cons. rewrite HasPrefix_cons in Hs.
    apply andb_false_iff in Hs as [->|Hs]; [done|]. unfold HasPrefix in Hs. by destruct b.
  - rewrite !Split_joined by done. cbn [map concat]. rewrite Split_end.
    rewrite !list.filter_app. rewrite (filter_plain (Split "/" b)), (filter_plain (Split "/" q)) by done.
    rewrite (filter_plain (concat _)) by (apply List.Forall_concat, List.Forall_map; done).
    rewrite filter_cons, decide_False by tauto. by rewrite <-!(assoc_L (++)).
  - by apply joined_is_path.
Qed.

Lemma path_Join_empty_slash p : is_path p → path_Join [""; p +:+ "/"] = p.
Proof.
  intros Hp. pose proof (is_path_nonempty p Hp).
  assert (p +:+ "/" ≠ "") by (by destruct p).
  unfold path_Join. cbn [path_join_raw forallb].
  rewrite !decide_True by done. rewrite bool_decide_true, bool_decide_false by done. cbn [andb].
  by apply path_Clean_slash.
Qed.

Lemma HasSuffix_spec s x : HasSuffix s x = true ↔ ∃ t, s = t +:+ x.
Proof.
  split; [|intros [t ->]; apply HasSuffix_app].
  induction s as [|c s IH]; simpl; rewrite orb_true_iff, bool_decide_eq_true.
  - intros [<-|?]; [by exists ""|done].
  - intros [<-|[t ->]%IH]; [by exists ""|by exists (String c t)].
Qed.

Lemma is_path_end p : is_path p → HasSuffix p "/" = false.
Proof.
  intros Hp. apply not_true_iff_false. intros [t ->]%HasSuffix_spec. unfold is_path in Hp.
  rewrite Split_end in Hp. by apply Forall_app in Hp as [_ [[? _] _]%list.Forall_cons].
Qed.

(** ** Prefixes *)
Lemma HasPrefix_dir k a : HasPrefix k (a +:+ "/") = true ↔ ∃ t, k = a +:+ "/" +:+ t.
Proof.
  rewrite HasPrefix_spec. split; intros [t ->]; exists t; by rewrite string_app_assoc.
Qed.

Lemma HasPrefix_dir_Split k a :
  HasPrefix k (a +:+ "/") = true → ∃ rest, Split "/" k = Split "/" a ++ rest ∧ rest ≠ [].
Proof.
  intros [t ->]%HasPrefix_dir. exists (Split "/" t).
  rewrite Split_slash. split; [done|]. apply Split_nonempty.
Qed.

Lemma Split_inj sep a b : Split sep a = Split sep b → a = b.
Proof. intros Hab. rewrite <-(Join_Split sep a), <-(Join_Split sep b). by rewrite Hab. Qed.

(** Two directories of the same depth that share a key are the same. *)
Lemma same_dir k a b :
  HasPrefix k (a +:+ "/") = true → HasPrefix k (b +:+ "/") = true →
  length (Split "/" a) = length (Split "/" b) → a = b.
Proof.
  intros (r & Ha & _)%HasPrefix_dir_Split (r' & Hb & _)%HasPrefix_dir_Split Hl.
  apply (Split_inj "/"). rewrite Ha in Hb. by apply app_inj_1 in Hb as [? _].
Qed.

(** ** Decimal numbers as elements *)
Lemma parse_digits_char acc s z c :
  parse_digits acc s = Some z → (∃ t u, s = t +:+ String c u) → is_Some (digit_of c).
Proof.
  revert acc. induction s as [|d s IH]; intros acc Hp (t & u & Hs).
  { by destruct t. }
  simpl in Hp. destruct (digit_of d) as [n|] eqn:Hd; [|done]. cbn in Hp.
  destruct t as [|t0 t]; autorewrite with go_string in Hs; injection Hs as -> Hs.
  - by rewrite Hd.
  - eapply IH; [done|eauto].
Qed.

Lemma parse_nat10_plain s z :
  parse_nat10 s = Some z → plain s ∧ Split "/" s = [s] ∧ ¬ (∃ u, s = String "-" u).
Proof.
  intros Hp. assert (parse_digits 0 s = Some z) as Hd by (by destruct s).
  assert (∀ c, digit_of c = None → ¬ ∃ t u, s = t +:+ String c u) as Hn.
  { intros c Hc Hs. destruct (parse_digits_char 0 s z c Hd Hs) as [? E]. congruence. }
  split_and!.
  - repeat split; intros ->; [done|by vm_compute in Hd..].
  - apply Split_no_sep. intros t u ->. eapply (Hn "/"%char); [done|eauto].
  - intros [u ->]. eapply (Hn "-"%char); [done|]. by exists "", u.
Qed.

Lemma FormatInt_pos z : 0 ≤ z → ∃ n, parse_nat10 (FormatInt z) = Some n.
Proof.
  intros Hz. unfold FormatInt. destruct z as [|p|p]; [by eexists| |lia].
  change (pretty (Z.pos p)) with (pretty (N.pos p)).
  destruct (parse_nat10_pretty (N.pos p)) as (c & s & _ & _ & Hp). by eexists.
Qed.

Lemma ParseUint_FormatInt z : in_u 64 z → ParseUint (FormatInt z) = Some z.
Proof.
  intros Hz. assert (parse_nat10 (FormatInt z) = Some z) as Hp.
  { unfold FormatInt. destruct z as [|p|p]; [done| |by destruct Hz].
    change (pretty (Z.pos p)) with (pretty (N.pos p)).
    by destruct (parse_nat10_pretty (N.pos p)) as (c & s & _ & _ & Hp). }
  unfold ParseUint. rewrite Hp. cbn [mbind option_bind]. by rewrite decide_True.
Qed.

Lemma FormatInt_elem z : plain (FormatInt z) ∧ Split "/" (FormatInt z) = [FormatInt z].
Proof.
  destruct (decide (0 ≤ z)) as [Hz|Hz].
  - destruct (FormatInt_pos z Hz) as [n Hn]. by apply parse_nat10_plain in Hn as (? & ? & _).
  - destruct z as [|p|p]; [lia..|]. unfold FormatInt.
    change (pretty (Z.neg p)) with ("-" +:+ pretty (N.pos p)).
    destruct (parse_nat10_pretty (N.pos p)) as (c & s & _ & _ & Hp).
    apply parse_nat10_plain in Hp as (_ & Hs & _). rewrite string_app_cons, string_app_nil_l. split.
    + done.
    + simpl. by rewrite Hs.
Qed.

(** A number has no other characters than digits and a sign. *)
Lemma parse_nat10_Split s z sep : parse_nat10 s = Some z → digit_of sep = None → Split sep s = [s].
Proof.
  intros Hp Hs. assert (parse_digits 0 s = Some z) as Hd by (by destruct s).
  apply Split_no_sep. intros t u ->.
  destruct (parse_digits_char 0 _ z sep Hd) as [? E]; [eauto|congruence].
Qed.

Lemma FormatInt_Split z sep :
  digit_of sep = None → sep ≠ "-"%char → Split sep (FormatInt z) = [FormatInt z].
Proof.
  intros Hs Hne. destruct (decide (0 ≤ z)) as [Hz|Hz].
  - destruct (FormatInt_pos z Hz) as [n Hn]. by eapply parse_nat10_Split.
  - destruct z as [|p|p]; [lia..|]. unfold FormatInt.
    change (pretty (Z.neg p)) with ("-" +:+ pretty (N.pos p)).
    destruct (parse_nat10_pretty (N.pos p)) as (c & s & _ & _ & Hp).
    rewrite string_app_cons, string_app_nil_l. simpl. rewrite decide_False by done.
    by rewrite (parse_nat10_Split _ _ sep Hp).
Qed.

(** A number starts with a digit or a sign. *)
Lemma FormatInt_digits z c s : FormatInt z = String c s → c = "-"%char ∨ is_Some (digit_of c).
Proof.
  intros Hz. destruct (decide (0 ≤ z)) as [Hp|Hn].
  - right. destruct (FormatInt_pos z Hp) as [n Hn]. rewrite Hz in Hn. simpl in Hn.
    by destruct (digit_of c).
  - left. destruct z; try lia. by injection Hz.
Qed.

Lemma elem_is_path s : Split "/" s = [s] → plain s → is_path s.
Proof. intros Hs Hp. unfold is_path. rewrite Hs. by constructor. Qed.

(** A name and a number, which is not a dot. *)
Lemma name_number_is_path name z :
  Split "/" name = [name] → (2 < String.length name)%nat → is_path (name +:+ FormatInt z).
Proof.
  intros Hn Hl. apply elem_is_path.
  - apply Split_none_app; [done|]. by apply FormatInt_elem.
  - destruct name as [|a [|b [|d name]]]; simpl in Hl; try lia. rewrite !string_app_cons. by repeat split.
Qed.

Lemma FormatInt_is_path z : is_path (FormatInt z).
Proof.
  unfold is_path. destruct (FormatInt_elem z) as [Hp ->]. by constructor.
Qed.

Lemma FormatInt_inj z z' : in_s 64 z → in_s 64 z' → FormatInt z = FormatInt z' → z = z'.
Proof.
  intros Hz%ParseInt_FormatInt Hz'%ParseInt_FormatInt E. rewrite E in Hz. congruence.
Qed.

Create HintDb go_path.
#[export] Hint Resolve FormatInt_is_path is_path_app joined_is_path is_path_nonempty : go_path.

(** Decides [is_path] of a literal. *)
Ltac is_path_dec := apply (bool_decide_unpack _); vm_compute; exact I.

Lemma is_path_parts p : is_path p ↔ Forall plain (Split "/" p).
Proof. done. Qed.
Lemma is_path_app_inv a b : is_path (a +:+ "/" +:+ b) ↔ is_path a ∧ is_path b.
Proof. by rewrite !is_path_parts, Split_slash, list.Forall_app. Qed.
Lemma is_path_not_dot p : is_path p → p ≠ ".".
Proof. intros Hp ->. apply is_path_parts, list.Forall_cons in Hp as [(_ & ? & _) _]. done. Qed.
#[global] Opaque is_path.

(** Splits [Forall is_path [...]] into its elements. *)
Ltac each_path := repeat apply list.Forall_cons_2; [..|apply list.Forall_nil_2]; try done; try is_path_dec.

(** ** The last element *)
Lemma trim_slashes_id s : HasSuffix s "/" = false → trim_slashes s = s.
Proof.
  induction s as [|c s IH]; [done|]. cbn [HasSuffix trim_slashes]. intros [Hc Hs]%orb_false_iff.
  rewrite IH by done. apply bool_decide_eq_false in Hc. destruct s; [|done].
  case_decide; [congruence|done].
Qed.

Lemma path_Base_path d e : is_path e → Split "/" e = [e] → path_Base (d +:+ "/" +:+ e) = e ∧ path_Base e = e.
Proof.
  intros Hp He. pose proof (is_path_nonempty e Hp) as Hne. pose proof (is_path_end e Hp) as Hend.
  assert (HasSuffix (d +:+ "/" +:+ e) "/" = false) as Hend'.
  { apply not_true_iff_false. intros (t & Ht)%HasSuffix_spec. apply (f_equal (Split "/")) in Ht.
    rewrite Split_slash, Split_end, He in Ht. apply app_inj_tail in Ht as [_ ->]. done. }
  unfold path_Base. split.
  - rewrite decide_False by (by destruct d). rewrite trim_slashes_id by done.
    rewrite decide_False by (by destruct d). rewrite Split_slash, He. apply List.last_last.
  - rewrite decide_False, trim_slashes_id, decide_False, He by done. done.
Qed.

(** A slash at the end of the first element. *)
Lemma path_Join_dir d e : is_path d → is_path e → path_Join [d +:+ "/"; e] = d +:+ "/" +:+ e.
Proof.
  intros Hd He. pose proof (is_path_nonempty d Hd) as Hne. unfold path_Join. cbn [forallb].
  assert (d +:+ "/" ≠ "") as Hn by (by destruct d).
  assert (path_join_raw "" [d +:+ "/"; e] = (d +:+ "/") +:+ "/" +:+ e) as ->
    by (change (path_join_raw (d +:+ "/") [e] = (d +:+ "/") +:+ "/" +:+ e); cbn [path_join_raw]; by rewrite decide_False).
  rewrite bool_decide_false by done. cbn [andb].
  apply Clean_parts; [| |by apply is_path_app].
  - pose proof (is_path_start d Hd) as Hs. destruct d as [|c d]; [done|].
    rewrite !string_app_cons, HasPrefix_cons. rewrite HasPrefix_cons in Hs.
    apply andb_false_iff in Hs as [->|Hs]; [done|]. unfold HasPrefix in Hs. by destruct d.
  - rewrite Split_slash, Split_end, Split_slash, !list.filter_app.
    rewrite (filter_plain (Split "/" d)), (filter_plain (Split "/" e)) by done. simpl. by rewrite app_nil_r.
Qed.
