(* ===== verification/Completion.v ===== *)
(** * Completion and history of the shell

    Models [src/states/autocomplete] (what may follow the line that is typed) and
    [src/history] (the lines that were).  The commands and their flags come from the
    command library as a tree; the file system is an interface. *)

From S2P Require Export Paths.

(** ** Commands and candidates *)

(** [pflag.Flag] and [cobra.Command], as far as they are read. *)
Record Flag := MkFlag { flag_Name : string; flag_Usage : string }.
Inductive Command := MkCommand (use short : string) (flags : list Flag) (commands : list Command).
Definition Use (c : Command) : string := let '(MkCommand u _ _ _) := c in u.
Definition Short (c : Command) : string := let '(MkCommand _ s _ _) := c in s.
Definition Flags (c : Command) : list Flag := let '(MkCommand _ _ f _) := c in f.
Definition Commands (c : Command) : list Command := let '(MkCommand _ _ _ l) := c in l.

Inductive cmdCompType := cmdCompAll | cmdCompCommand | cmdCompFlag.
#[export] Instance cmdCompType_eq_dec : EqDecision cmdCompType.
Proof. solve_decision. Defined.
Inductive inputState := inputStateCmd | inputStateFlagTag | inputStateFlagValue.

Record cComp := MkComp { raw : string; cTag : string; cValue : string; cType : cmdCompType }.
Record inputResult := MkInput { parts : list cComp; state : inputState }.

(** The previous candidates of a file are always empty; [dirs] is its validator. *)
Inductive acCandidate :=
  | cmdCandidate (c : Command)
  | flagCandidate (f : Flag)
  | fileCandidate (dirs : bool).

(** [os.Stat] (is it a directory?), [os.ReadDir] (names, and which are directories) and
    [homedir.Expand]. *)
Class FileSystem := {
  homedir_Expand : string → res string;
  os_Stat : string → res bool;
  os_ReadDir : string → res (list (string * bool));
}.

Definition path_Dir (p : string) : string :=
  match cut_last "/" p with Some (d, _) => path_Clean (d +:+ "/") | None => "." end.

Definition cmdName (c : Command) : string := List.hd "" (Split " " (Use c)).

(** [part[1:len(part)-1]]. *)
Definition unbracket (part : string) : string := String.substring 1 (String.length part - 2) part.

Definition cmd_args (c : Command) : list acCandidate :=
  concat (map (λ part,
    if HasPrefix part "[" && HasSuffix part "]" then
      let name := unbracket part in
      (if bool_decide (name = "file") then [fileCandidate false] else [])
      ++ (if bool_decide (name = "directory") then [fileCandidate true] else [])
    else []) (Split " " (Use c))).

Definition cmd_Match (c : Command) (input : cComp) : bool :=
  bool_decide (cType input = cmdCompCommand) && bool_decide (cmdName c = cTag input).
Definition flag_Match (f : Flag) (input : cComp) : bool :=
  bool_decide (cType input = cmdCompFlag) && bool_decide (cTag input = flag_Name f).
Definition file_Match (input : cComp) : bool := bool_decide (cType input = cmdCompCommand).

Definition cand_Match (cand : acCandidate) (input : cComp) : bool :=
  match cand with
  | cmdCandidate c => cmd_Match c input
  | flagCandidate f => flag_Match f input
  | fileCandidate _ => file_Match input
  end.

Definition cmd_NextCandidates (c : Command) : list acCandidate :=
  map cmdCandidate (Commands c) ++ map flagCandidate (Flags c) ++ cmd_args c.

Definition NextCandidates (cand : acCandidate) (current : list acCandidate) : list acCandidate :=
  match cand with
  | cmdCandidate c => cmd_NextCandidates c
  | flagCandidate _ => current
  | fileCandidate _ => []
  end.

Section suggest.
Context `{FileSystem}.

Definition file_Suggest (dirs : bool) (target : cComp) : gmap string string :=
  match (if HasPrefix (cTag target) "~" then homedir_Expand (cTag target) else Ok (cTag target)) with
  | Ok ctag =>
      let '(d, part) := if HasSuffix ctag "/" then (ctag, "") else (path_Dir ctag, path_Base ctag) in
      if bool_decide (cType target = cmdCompAll)
      then {["file" := "folder/part: " +:+ d +:+ "/" +:+ part]}
      else match os_Stat d with
           | Ok true =>
               match os_ReadDir d with
               | Ok fs =>
                   foldl (λ m '(name, isDir),
                     if HasPrefix name part && (negb dirs || isDir) then <[path_Join [d; name] := ""]> m else m)
                     ∅ fs
               | _ => ∅
               end
           | _ => ∅
           end
  | _ => ∅
  end.

Definition cmd_Suggest (c : Command) (target : cComp) : gmap string string :=
  if HasPrefix (cmdName c) (cTag target) || bool_decide (cType target = cmdCompAll)
  then {[cmdName c := Short c]} else ∅.
Definition flag_Suggest (f : Flag) (target : cComp) : gmap string string :=
  let k := "--" +:+ flag_Name f in
  if (HasPrefix k (raw target) && HasPrefix (raw target) "--") || bool_decide (cType target = cmdCompAll)
  then {[k := flag_Usage f]} else ∅.

Definition Suggest (cand : acCandidate) (target : cComp) : gmap string string :=
  match cand with
  | cmdCandidate c => cmd_Suggest c target
  | flagCandidate f => flag_Suggest f target
  | fileCandidate dirs => file_Suggest dirs target
  end.

(** ** The line *)

(** [comps[len(comps)-1].cValue = part]. *)
Definition set_last_value (comps : list cComp) (part : string) : res (list cComp) :=
  match rev comps with
  | c :: r => Ok (rev r ++ [MkComp (raw c) (cTag c) part (cType c)])
  | [] => Panic "index out of range"
  end.

Definition parse_part (part : string) (st : list cComp * bool) : res (list cComp * bool) :=
  let '(comps, currentFlagValue) := st in
  if (currentFlagValue : bool) then comps ← set_last_value comps part; Ok (comps, false)
  else if HasPrefix part "-" then
    let raw := strings_TrimLeft "-" part in
    if Contains raw "=" then
      match Split "=" raw with
      | [tag; value] => Ok (comps ++ [MkComp part tag value cmdCompFlag], false)
      | _ => Ok (comps, false)
      end
    else Ok (comps ++ [MkComp part raw "" cmdCompFlag], true)
  else Ok (comps ++ [MkComp part part "" cmdCompCommand], false).

Definition parseInput (input : string) : res inputResult :=
  let isEndBlank := HasSuffix input " " in
  '(comps, currentFlagValue) ← foldM parse_part (filter (λ p, p <> "") (Split " " input)) ([], false);
  let ist := if (currentFlagValue : bool)
            then if isEndBlank then inputStateFlagValue else inputStateFlagTag
            else inputStateCmd in
  Ok (MkInput (if isEndBlank then comps ++ [MkComp "" "" "" cmdCompCommand] else comps) ist).

(** The leading parts reduce the candidates; the last one is the target. *)
Fixpoint reduce (comps : list cComp) (candidates : list acCandidate) : option (list acCandidate * cComp) :=
  match comps with
  | [] => None
  | [target] => Some (candidates, target)
  | c :: comps =>
      match List.find (λ cand, cand_Match cand c) candidates with
      | Some cand => reduce comps (NextCandidates cand candidates)
      | None => None
      end
  end.

Definition suggest_all (candidates : list acCandidate) (target : cComp) : gmap string string :=
  foldl (λ result cand, Suggest cand target ∪ result) ∅ candidates.

Definition findCmdSuggestions (comps : list cComp) (commands : list Command) : gmap string string :=
  match reduce comps (map cmdCandidate commands) with
  | Some (candidates, target) => suggest_all candidates target
  | None => ∅
  end.

Definition SuggestInputCommands (input : string) (commands : list Command) : res (gmap string string) :=
  iResult ← parseInput input;
  Ok (findCmdSuggestions (parts iResult) commands).
End suggest.

(** ** History *)
Record Item := MkItem { it_Cmd : string; it_Ts : Z }.

(** [encoding/json] on items: a line that is written is read back, and has no end of
    line in it. *)
Class ItemJson := {
  item_Marshal : Item → string;
  item_Unmarshal : string → option Item;
}.
Class ItemJsonLaws `{ItemJson} := {
  item_Unmarshal_Marshal i : item_Unmarshal (item_Marshal i) = Some i;
  item_Marshal_line i : Split "010" (item_Marshal i) = [item_Marshal i];
  item_Marshal_end i : HasSuffix (item_Marshal i) (String "013" "") = false;
}.

(** [bufio.ScanLines] with the default buffer: an end of line may follow a carriage return,
    a last line that is empty is none, and the scan ends at a line that does not fit. *)
Definition MaxLine : Z := 65535.
Definition drop_cr (l : string) : string :=
  if HasSuffix l (String "013" "") then String.substring 0 (String.length l - 1) l else l.
Fixpoint fitting (l : list string) : list string :=
  match l with
  | [] => []
  | x :: l => if bool_decide (Z.of_nat (String.length x) <= MaxLine) then x :: fitting l else []
  end.
Definition ScanLines (data : string) : list string :=
  let ls := Split "010" data in
  map drop_cr (fitting (match rev ls with "" :: r => rev r | _ => ls end)).

Section history.
Context `{ItemJson}.

(** [Helper]: the items, and the file if it could be opened. *)
Record Helper := MkHelper { h_items : list Item; h_file : option string }.

(** [before] is the file if it can be read, [opened] says whether it can be opened for writing. *)
Definition NewHistoryHelper (before : option string) (opened : bool) : Helper :=
  let items := match before with Some data => omap item_Unmarshal (ScanLines data) | None => [] end in
  MkHelper items (if opened then Some (default "" before) else None).

Definition AddLog (h : Helper) (cmd : string) (now now' : Z) : Helper :=
  if bool_decide (TrimSpace cmd = "") then h
  else
    MkHelper (h_items h ++ [MkItem cmd now'])
      (match h_file h with
       | Some data => Some (data +:+ item_Marshal (MkItem cmd now) +:+ String "010" "")
       | None => None
       end).

Definition List_history (h : Helper) (input : string) : list Item :=
  filter (λ i, HasPrefix (it_Cmd i) input = true) (h_items h).
End history.

(** ** What is suggested

    A line is a sequence of words, flags with a value, and the word that is being typed. *)
Inductive token :=
  | TWord (w : string)
  | TFlag (name value : string) (eq : bool).

Definition spaceless (s : string) : Prop := Split " " s = [s].
Definition undashed (s : string) : Prop := HasPrefix s "-" = false.

Definition token_ok (t : token) : Prop :=
  match t with
  | TWord w => w <> "" ∧ spaceless w ∧ undashed w
  | TFlag n v eq =>
      spaceless n ∧ undashed n ∧ Split "=" n = [n] ∧ spaceless v
      ∧ if (eq : bool) then Split "=" v = [v] else v <> ""
  end.
#[export] Instance token_ok_dec t : Decision (token_ok t).
Proof. destruct t as [|? ? []]; unfold token_ok, spaceless, undashed; apply _. Defined.

Definition render (t : token) : list string :=
  match t with
  | TWord w => [w]
  | TFlag n v true => ["--" +:+ n +:+ "=" +:+ v]
  | TFlag n v false => ["--" +:+ n; v]
  end.
Definition token_comp (t : token) : cComp :=
  match t with
  | TWord w => MkComp w w "" cmdCompCommand
  | TFlag n v true => MkComp ("--" +:+ n +:+ "=" +:+ v) n v cmdCompFlag
  | TFlag n v false => MkComp ("--" +:+ n) n v cmdCompFlag
  end.

(** The word that is typed: empty after a space, or it may be the start of a flag. *)
Definition typed_comp (w : string) : cComp :=
  if bool_decide (w = "") then MkComp "" "" "" cmdCompCommand
  else if HasPrefix w "-" then MkComp w (strings_TrimLeft "-" w) "" cmdCompFlag
  else MkComp w w "" cmdCompCommand.

Lemma HasPrefix_char c d s : HasPrefix (String d s) (String c "") = bool_decide (c = d).
Proof.
  unfold HasPrefix. simpl. destruct (ascii_dec c d) as [->|Hne].
  - rewrite bool_decide_true by done. by destruct s.
  - by rewrite bool_decide_false.
Qed.

Lemma undashed_cons c s : undashed (String c s) ↔ "-"%char <> c.
Proof. unfold undashed. rewrite HasPrefix_char. apply bool_decide_eq_false. Qed.

Lemma undashed_app s t : s <> "" → undashed (s +:+ t) ↔ undashed s.
Proof. destruct s as [|c s]; [done|]. autorewrite with go_string. by rewrite !undashed_cons. Qed.

Lemma TrimLeft_undashed s : undashed s → strings_TrimLeft "-" s = s.
Proof.
  destruct s as [|c s]; [done|]. rewrite undashed_cons. simpl. intros Hd. by rewrite decide_False by congruence.
Qed.

Lemma Contains_Split c s : Contains s (String c "") = false ↔ Split c s = [s].
Proof.
  induction s as [|d s IH]; [done|]. cbn [Contains Split]. rewrite HasPrefix_char, orb_false_iff, IH, bool_decide_eq_false.
  destruct (decide (d = c)) as [->|Hne]; [naive_solver|]. pose proof (Split_nonempty c s).
  destruct (Split c s) as [|p ps]; [done|]. split; [|split]; naive_solver.
Qed.

Lemma flag_raw x : undashed x → HasPrefix ("--" +:+ x) "-" = true ∧ strings_TrimLeft "-" ("--" +:+ x) = x.
Proof. intros Hx. split; [apply (HasPrefix_app "-" ("-" +:+ x))|].
  change (strings_TrimLeft "-" x = x). by apply TrimLeft_undashed.
Qed.

Lemma parse_token acc t :
  token_ok t → foldM parse_part (render t) (acc, false) = Ok (acc ++ [token_comp t], false).
Proof.
  destruct t as [w|n v []]; cbn [token_ok render token_comp].
  - intros (Hne & _ & Hd). cbn. unfold undashed in Hd. by rewrite Hd.
  - intros (_ & Hd & Hn & _ & Hv). cbn [foldM]. unfold parse_part.
    assert (undashed (n +:+ "=" +:+ v)) as Hu by (destruct n; [done|by apply undashed_app]).
    destruct (flag_raw _ Hu) as [-> ->].
    assert (Hs : Split "=" (n +:+ "=" +:+ v) = [n; v]).
    { change ("=" +:+ v) with (String "=" v). by rewrite Split_app, Hn, Hv. }
    destruct (Contains (n +:+ "=" +:+ v) "=") eqn:Hc; [by rewrite Hs|].
    apply Contains_Split in Hc. rewrite Hs in Hc. done.
  - intros (_ & Hd & Hn & _ & Hv). cbn [foldM]. unfold parse_part. destruct (flag_raw _ Hd) as [-> ->].
    apply Contains_Split in Hn as ->. cbn [mbind res_bind]. unfold set_last_value.
    rewrite rev_unit, rev_involutive. done.
Qed.

Lemma parse_tokens acc ts :
  Forall token_ok ts →
  foldM parse_part (concat (map render ts)) (acc, false) = Ok (acc ++ map token_comp ts, false).
Proof.
  intros Hts. revert acc. induction Hts as [|t ts Ht _ IH]; intros acc; cbn; [by rewrite app_nil_r|].
  rewrite foldM_app, parse_token by done. cbn. rewrite IH. by rewrite <-app_assoc.
Qed.

(** What the line is split into. *)
Lemma render_parts ts : Forall token_ok ts → Forall (λ p, p <> "" ∧ spaceless p) (concat (map render ts)).
Proof.
  intros Hts. apply List.Forall_concat. rewrite List.Forall_map. eapply list.Forall_impl; [exact Hts|].
  intros [w|n v []]; cbn.
  - intros (? & ? & _). by repeat constructor.
  - intros (Hn & _ & _ & Hv & _). repeat constructor; [done|]. unfold spaceless.
    apply (Split_none_app " " "--" _ eq_refl), Split_none_app; [done|]. by apply (Split_none_app " " "=").
  - intros (Hn & _ & _ & Hv & ?). repeat constructor; [done| |done|done]. by apply (Split_none_app " " "--").
Qed.

Lemma Split_spaceless l : l <> [] → Forall spaceless l → Split " " (Join " " l) = l.
Proof.
  intros Hne Hl. rewrite (Split_Join " ") by done. clear Hne.
  induction Hl as [|x l Hx _ IH]; [done|]. cbn. by rewrite Hx, IH.
Qed.

(** A typed word: without spaces, and if it starts with a dash, without a value. *)
Definition typed_ok (w : string) : Prop :=
  spaceless w ∧ (HasPrefix w "-" = true → Split "=" (strings_TrimLeft "-" w) = [strings_TrimLeft "-" w]).

Lemma parse_line ts w :
  Forall token_ok ts → typed_ok w → ts <> [] ∨ w <> "" →
  parts <$> parseInput (Join " " (concat (map render ts) ++ [w])) = Ok (map token_comp ts ++ [typed_comp w]).
Proof.
  intros Hts [Hw Hv] Hne. pose proof (render_parts ts Hts) as Hps. unfold parseInput.
  rewrite Split_spaceless; [|by destruct (concat _)
    |apply list.Forall_app; split; [eapply list.Forall_impl; [exact Hps|by intros ? []]|by constructor]].
  rewrite list.filter_app, (filter_all _ (concat _)) by (eapply list.Forall_impl; [exact Hps|by intros ? []]).
  rewrite foldM_app, (parse_tokens [] ts) by done. cbn [mbind res_bind app].
  set (ps := concat (map render ts)) in *. unfold typed_comp. case_bool_decide as Hwe.
  - subst w. rewrite filter_cons_False by tauto. cbn.
    assert (HasSuffix (Join " " (ps ++ [""])) " " = true) as ->; [|done].
    apply HasSuffix_spec. exists (Join " " ps). rewrite Join_app by (subst ps; destruct ts as [|t ts];
      [tauto|destruct t as [|? ? []]; done] || done). done.
  - rewrite filter_cons_True by done.
    assert (HasSuffix (Join " " (ps ++ [w])) " " = false) as ->.
    { apply not_true_is_false. intros (t & Ht)%HasSuffix_spec.
      pose proof (f_equal (Split " ") Ht) as Hs. rewrite Split_spaceless in Hs; [|by destruct ps|].
      - rewrite (Split_app " " t "") in Hs. cbn in Hs. apply app_inj_tail in Hs as [_ Hs]. done.
      - apply list.Forall_app; split; [eapply list.Forall_impl; [exact Hps|by intros ? []]|by constructor]. }
    cbn [filter list_filter foldM]. unfold parse_part. destruct (HasPrefix w "-") eqn:Hd; [|done].
    specialize (Hv eq_refl). apply Contains_Split in Hv. by rewrite Hv.
Qed.

(** Where a line leads: the commands, flags and arguments that may follow. *)
Record node := MkNode { nd_cmds : list Command; nd_flags : list Flag; nd_args : list acCandidate }.
Definition root (commands : list Command) : node := MkNode commands [] [].
Definition node_of (c : Command) : node := MkNode (Commands c) (Flags c) (cmd_args c).
Definition candidates_of (n : node) : list acCandidate :=
  map cmdCandidate (nd_cmds n) ++ map flagCandidate (nd_flags n) ++ nd_args n.

Fixpoint visit (n : node) (ts : list token) : option node :=
  match ts with
  | [] => Some n
  | TWord w :: ts =>
      match List.find (λ c, bool_decide (cmdName c = w)) (nd_cmds n), nd_args n with
      | Some c, _ => visit (node_of c) ts
      | None, [] => None
      | None, _ => visit (root []) ts
      end
  | TFlag f _ _ :: ts =>
      if existsb (λ g, bool_decide (f = flag_Name g)) (nd_flags n) then visit n ts else None
  end.

Definition is_file (c : acCandidate) : Prop := match c with fileCandidate _ => True | _ => False end.

Lemma cmd_args_files c : Forall is_file (cmd_args c).
Proof.
  unfold cmd_args. apply List.Forall_concat, List.Forall_map, list.Forall_forall. intros part _.
  case_match; [|constructor]. repeat case_bool_decide; repeat constructor.
Qed.

Lemma find_app {A} (f : A → bool) (l k : list A) :
  List.find f (l ++ k) = match List.find f l with Some x => Some x | None => List.find f k end.
Proof. induction l as [|x l IH]; [done|]. cbn. by destruct (f x). Qed.

Lemma find_map {A B} (f : B → bool) (g : A → B) (l : list A) :
  List.find f (map g l) = g <$> List.find (λ x, f (g x)) l.
Proof. induction l as [|x l IH]; [done|]. cbn. by destruct (f (g x)). Qed.

Lemma find_none {A} (f : A → bool) (l : list A) : Forall (λ x, f x = false) l → List.find f l = None.
Proof. by induction 1 as [|x l Hx _ IH]; cbn; [|rewrite Hx]. Qed.

Lemma reduce_cons c cs candidates :
  cs <> [] →
  reduce (c :: cs) candidates
  = match List.find (λ cand, cand_Match cand c) candidates with
    | Some cand => reduce cs (NextCandidates cand candidates)
    | None => None
    end.
Proof. by destruct cs. Qed.

(** The candidates of a line are those of the node it leads to. *)
Lemma reduce_visit n ts c :
  Forall is_file (nd_args n) →
  reduce (map token_comp ts ++ [c]) (candidates_of n) = (λ m, (candidates_of m, c)) <$> visit n ts.
Proof.
  revert n. induction ts as [|t ts IH]; intros n Hn; [done|].
  replace (map token_comp (t :: ts) ++ [c]) with (token_comp t :: (map token_comp ts ++ [c])) by done.
  rewrite reduce_cons by (by destruct ts). unfold candidates_of at 1. rewrite !find_app, !find_map. destruct t as [w|f v e].
  - cbn [token_comp visit cand_Match cType cTag]. unfold cmd_Match. cbn [cType cTag]. rewrite bool_decide_true by done. cbn [andb].
    destruct (List.find (λ c, bool_decide (cmdName c = w)) (nd_cmds n)) as [cm|]; cbn [fmap option_fmap option_map].
    + apply (IH (node_of cm)), cmd_args_files.
    + rewrite find_none by (apply list.Forall_forall; intros; unfold cand_Match, flag_Match; by rewrite bool_decide_false). cbn.
      destruct Hn as [|[| |d] l Hd _]; [done..|]. cbn [List.find cand_Match cType]. unfold file_Match. cbn [cType]. rewrite bool_decide_true by done.
      apply (IH (root [])). constructor.
  - assert (Hc : ∀ b : bool, cType (token_comp (TFlag f v b)) = cmdCompFlag ∧ cTag (token_comp (TFlag f v b)) = f)
      by by intros [].
    destruct (Hc e) as [Ht Hg]. cbn [visit cand_Match]. unfold cmd_Match, flag_Match. rewrite Ht, Hg.
    rewrite find_none by (apply list.Forall_forall; intros; by rewrite bool_decide_false). cbn [fmap option_fmap option_map].
    rewrite (bool_decide_true (cmdCompFlag = cmdCompFlag)) by done. cbn [andb].
    rewrite (find_none _ (nd_args n)).
    2:{ eapply list.Forall_impl; [exact Hn|]. intros [| |d] Hd; [done..|].
        unfold cand_Match, file_Match. rewrite Ht. by rewrite bool_decide_false. }
    destruct (List.find _ (nd_flags n)) as [g|] eqn:Hf.
    + apply find_some in Hf as [Hin Hg']. cbn. rewrite (proj2 (existsb_exists _ _)) by (by exists g). by apply IH.
    + cbn. destruct (existsb _ _) eqn:He; [|done]. apply existsb_exists in He as (g & Hin & Hg').
      by rewrite (List.find_none _ _ Hf g Hin) in Hg'.
Qed.

Section spec.
Context `{FS : FileSystem}.

(** Candidates that agree on what they suggest give the union of it. *)
Lemma suggest_all_lookup cands target k v :
  (∀ c c' x y, c ∈ cands → c' ∈ cands → Suggest c target !! k = Some x → Suggest c' target !! k = Some y → x = y) →
  suggest_all cands target !! k = Some v ↔ ∃ c, c ∈ cands ∧ Suggest c target !! k = Some v.
Proof.
  unfold suggest_all. induction cands as [|c cands IH] using rev_ind; intros Hag.
  { split; [done|]. by intros (? & ?%elem_of_nil & _). }
  rewrite foldl_app. cbn [foldl]. rewrite lookup_union_Some_raw, IH.
  2:{ intros c1 c2 x y Hc1 Hc2. apply Hag; apply elem_of_app; by left. }
  split.
  - intros [Hc|[_ (c' & Hc' & Hv)]].
    + exists c. split; [apply elem_of_app; right; left|done].
    + exists c'. split; [apply elem_of_app; by left|done].
  - intros (c' & Hc' & Hv). destruct (Suggest c target !! k) as [x|] eqn:Hx.
    + left. f_equal. apply (Hag c c'); [apply elem_of_app; right; left|done..].
    + right. split; [done|]. apply elem_of_app in Hc' as [Hc'| ->%list_elem_of_singleton]; [by exists c'|congruence].
Qed.

Definition line (ts : list token) (w : string) : string := Join " " (concat (map render ts) ++ [w]).

(** What a node suggests for a typed word. *)
Definition suggested (n : node) (w k v : string) : Prop :=
  (∃ c, c ∈ nd_cmds n ∧ k = cmdName c ∧ v = Short c ∧ HasPrefix k (strings_TrimLeft "-" w) = true)
  ∨ (∃ f, f ∈ nd_flags n ∧ k = "--" +:+ flag_Name f ∧ v = flag_Usage f
       ∧ HasPrefix w "--" = true ∧ HasPrefix k w = true).

Lemma typed_comp_parts w :
  raw (typed_comp w) = w ∧ cTag (typed_comp w) = strings_TrimLeft "-" w ∧ cType (typed_comp w) <> cmdCompAll.
Proof.
  unfold typed_comp. case_bool_decide as Hw; [by subst|]. destruct (HasPrefix w "-") eqn:Hd; [done|].
  split_and!; [done| |done]. cbn. by rewrite TrimLeft_undashed.
Qed.

Lemma Suggest_cmd c w k v :
  Suggest (cmdCandidate c) (typed_comp w) !! k = Some v
  ↔ k = cmdName c ∧ v = Short c ∧ HasPrefix k (strings_TrimLeft "-" w) = true.
Proof.
  destruct (typed_comp_parts w) as (_ & Ht & Ha). unfold Suggest, cmd_Suggest. rewrite Ht, (bool_decide_false (_ = cmdCompAll)) by done.
  rewrite orb_false_r. destruct (HasPrefix (cmdName c) _) eqn:Hp.
  - rewrite lookup_singleton_Some. naive_solver.
  - rewrite lookup_empty. naive_solver congruence.
Qed.
Lemma Suggest_flag f w k v :
  Suggest (flagCandidate f) (typed_comp w) !! k = Some v
  ↔ k = "--" +:+ flag_Name f ∧ v = flag_Usage f ∧ HasPrefix w "--" = true ∧ HasPrefix k w = true.
Proof.
  destruct (typed_comp_parts w) as (Hr & _ & Ha). unfold Suggest, flag_Suggest.
  rewrite Hr, (bool_decide_false (_ = cmdCompAll)) by done. rewrite orb_false_r.
  destruct (HasPrefix ("--" +:+ flag_Name f) w && HasPrefix w "--") eqn:Hp.
  - apply andb_true_iff in Hp as [??]. rewrite lookup_singleton_Some. naive_solver.
  - rewrite lookup_empty. apply andb_false_iff in Hp. naive_solver congruence.
Qed.

Lemma NoDup_map_inj {A B} (f : A → B) (l : list A) x y :
  NoDup (map f l) → x ∈ l → y ∈ l → f x = f y → x = y.
Proof.
  induction l as [|z l IH]; [by intros _ ?%elem_of_nil|]. cbn. intros [Hz Hn]%list.NoDup_cons Hx Hy Hxy.
  apply elem_of_cons in Hx as [->|Hx]; apply elem_of_cons in Hy as [->|Hy]; [done| | |by apply IH].
  - destruct Hz. rewrite Hxy. by apply list_elem_of_fmap_2.
  - destruct Hz. rewrite <-Hxy. by apply list_elem_of_fmap_2.
Qed.

(** The names of a node are its own: commands have different names without a leading dash,
    and flags different names. *)
Definition distinct (n : node) : Prop :=
  NoDup (map cmdName (nd_cmds n)) ∧ NoDup (map flag_Name (nd_flags n))
  ∧ Forall (λ c, undashed (cmdName c)) (nd_cmds n).
#[local] Instance distinct_dec n : Decision (distinct n).
Proof. unfold distinct, undashed. apply _. Defined.

Lemma suggest_node n w k v :
  distinct n → nd_args n = [] →
  suggest_all (candidates_of n) (typed_comp w) !! k = Some v ↔ suggested n w k v.
Proof.
  intros (Hc & Hf & Hd) Ha. unfold candidates_of. rewrite Ha, app_nil_r.
  assert (Hin : ∀ c x, c ∈ map cmdCandidate (nd_cmds n) ++ map flagCandidate (nd_flags n) →
    Suggest c (typed_comp w) !! k = Some x →
    (∃ d, c = cmdCandidate d ∧ d ∈ nd_cmds n ∧ k = cmdName d ∧ x = Short d ∧ HasPrefix k (strings_TrimLeft "-" w) = true)
    ∨ ∃ f, c = flagCandidate f ∧ f ∈ nd_flags n ∧ k = "--" +:+ flag_Name f ∧ x = flag_Usage f
       ∧ HasPrefix w "--" = true ∧ HasPrefix k w = true).
  { intros c x [Hi|Hi]%elem_of_app Hs; apply list_elem_of_fmap in Hi as (d & -> & Hi); [left|right]; exists d.
    - apply Suggest_cmd in Hs. naive_solver.
    - apply Suggest_flag in Hs. naive_solver. }
  rewrite suggest_all_lookup.
  - split.
    + intros (c & Hi & Hs). destruct (Hin c v Hi Hs) as [(d & _ & ?)|(f & _ & ?)]; [left; by exists d|right; by exists f].
    + intros [(c & Hi & Hs)|(f & Hi & Hs)].
      * exists (cmdCandidate c). split; [apply elem_of_app; left; by apply list_elem_of_fmap_2|by apply Suggest_cmd].
      * exists (flagCandidate f). split; [apply elem_of_app; right; by apply list_elem_of_fmap_2|by apply Suggest_flag].
  - intros c c' x y H1 H2 [(d & -> & Hd1 & Hk & -> & _)|(f & -> & Hf1 & Hk & -> & _)]%Hin
      [(d' & -> & Hd2 & Hk' & -> & _)|(f' & -> & Hf2 & Hk' & -> & _)]%Hin; try done.
    + f_equal. apply (NoDup_map_inj cmdName (nd_cmds n)); congruence.
    + rewrite list.Forall_forall in Hd. specialize (Hd d Hd1). rewrite <-Hk, Hk' in Hd. done.
    + rewrite list.Forall_forall in Hd. specialize (Hd d' Hd2). rewrite <-Hk', Hk in Hd. done.
    + f_equal. apply (NoDup_map_inj flag_Name (nd_flags n)); [done..|]. rewrite Hk in Hk'.
      by apply (inj (String.append "--")) in Hk'.
Qed.

(** A line of words and flags before the word that is typed is read without a panic, and
    leads through the tree of commands.  If it leads nowhere nothing is suggested; at a
    command without file arguments, exactly the commands below it and its flags that start
    with the typed word are, each with its description.  The dashes of a flag that is
    typed are dropped for commands, so those that start with its name are suggested as well. *)
Theorem SuggestInputCommands_spec ts w commands :
  Forall token_ok ts → typed_ok w → ts <> [] ∨ w <> "" →
  ∃ m, SuggestInputCommands (line ts w) commands = Ok m
    ∧ match visit (root commands) ts with
      | None => m = ∅
      | Some n => distinct n → nd_args n = [] → ∀ k v, m !! k = Some v ↔ suggested n w k v
      end.
Proof.
  intros Hts Hw Hne. pose proof (parse_line ts w Hts Hw Hne) as Hp. unfold SuggestInputCommands, line.
  destruct (parseInput _) as [r| |]; [|done..]. injection Hp as Hp. cbn [mbind res_bind]. rewrite Hp.
  eexists. split; [done|]. unfold findCmdSuggestions.
  pose proof (reduce_visit (root commands) ts (typed_comp w) (list.Forall_nil_2 _)) as Hr.
  unfold candidates_of in Hr at 1. cbn [nd_cmds nd_flags nd_args root map app] in Hr. rewrite app_nil_r in Hr. rewrite Hr.
  destruct (visit (root commands) ts) as [n|]; [|done]. cbn. intros Hd Ha k v. by apply suggest_node.
Qed.
End spec.

(** *** The folder of a path *)
Lemma path_Dir_elem e : Split "/" e = [e] → path_Dir e = ".".
Proof. unfold path_Dir, cut_last. by intros ->. Qed.
Lemma path_Dir_path d e : is_path d → Split "/" e = [e] → path_Dir (d +:+ "/" +:+ e) = d.
Proof.
  intros Hd He. unfold path_Dir. rewrite (proj2 (cut_last_spec "/" _ d e)) by done. by apply path_Clean_slash.
Qed.

(** ** The history file *)
Section file.
Context `{J : ItemJson} `{JL : !ItemJsonLaws}.

(** The lines of items, and the items up to one whose line does not fit the scanner's buffer. *)
Definition written (items : list Item) : string := foldr (λ i s, item_Marshal i +:+ String "010" s) "" items.
Fixpoint until_long (items : list Item) : list Item :=
  match items with
  | [] => []
  | i :: items =>
      if bool_decide (Z.of_nat (String.length (item_Marshal i)) ≤ MaxLine) then i :: until_long items else []
  end.

Lemma Split_written items : Split "010" (written items) = map item_Marshal items ++ [""].
Proof.
  induction items as [|i items IH]; [done|].
  change (written (i :: items)) with (item_Marshal i +:+ String "010" (written items)).
  by rewrite Split_app, item_Marshal_line, IH.
Qed.

Lemma ScanLines_written items : ScanLines (written items) = map item_Marshal (until_long items).
Proof.
  unfold ScanLines. rewrite Split_written, rev_unit, rev_involutive.
  induction items as [|i items IH]; [done|]. cbn. case_bool_decide; [|done]. cbn. rewrite IH.
  unfold drop_cr. by rewrite item_Marshal_end.
Qed.

Lemma written_snoc items i : written (items ++ [i]) = written items +:+ item_Marshal i +:+ String "010" "".
Proof.
  induction items as [|j items IH]; [done|].
  change (written ((j :: items) ++ [i])) with (item_Marshal j +:+ String "010" (written (items ++ [i]))).
  rewrite IH. change (written (j :: items)) with (item_Marshal j +:+ String "010" (written items)).
  by rewrite string_app_assoc.
Qed.

Lemma NewHistoryHelper_written items : h_items (NewHistoryHelper (Some (written items)) true) = until_long items.
Proof.
  unfold NewHistoryHelper. cbn [h_items]. rewrite ScanLines_written.
  induction (until_long items) as [|i l IH]; [done|]. cbn. by rewrite item_Unmarshal_Marshal, IH.
Qed.

(** A session: commands with the two readings of the clock that each takes. *)
Definition session (logs : list (string * Z * Z)) : Helper :=
  foldl (λ h '(cmd, now, now'), AddLog h cmd now now') (NewHistoryHelper None true) logs.
Definition typed (logs : list (string * Z * Z)) : list (string * Z * Z) :=
  filter (λ l, TrimSpace l.1.1 ≠ "") logs.

Lemma session_file logs :
  h_file (session logs) = Some (written (map (λ l, MkItem l.1.1 l.1.2) (typed logs)))
  ∧ h_items (session logs) = map (λ l, MkItem l.1.1 l.2) (typed logs).
Proof.
  unfold session, typed. induction logs as [|[[cmd now] now'] logs [IHf IHi]] using rev_ind; [done|].
  rewrite foldl_app, list.filter_app. cbn [foldl]. set (h := foldl _ _ logs) in *. unfold AddLog. rewrite IHf, IHi.
  case_bool_decide as Hb.
  - rewrite (filter_cons_False _ _ []) by (cbn; tauto). rewrite filter_nil, app_nil_r. done.
  - rewrite (filter_cons_True _ _ []) by done. rewrite !map_app. cbn. by rewrite written_snoc.
Qed.

(** What is typed in one session and is not blank is found in the next, in order; but a
    line that does not fit the buffer of the scanner hides itself and all that follow. *)
Theorem history_roundtrip logs :
  h_items (session logs) = map (λ l, MkItem l.1.1 l.2) (typed logs)
  ∧ h_items (NewHistoryHelper (h_file (session logs)) true)
    = until_long (map (λ l, MkItem l.1.1 l.1.2) (typed logs)).
Proof. destruct (session_file logs) as [-> ->]. split; [done|]. apply NewHistoryHelper_written. Qed.
End file.

(** ** Examples *)
#[local] Instance no_files : FileSystem := {|
  homedir_Expand _ := Err (Errorf "no home"); os_Stat _ := Err (Errorf "no such file");
  os_ReadDir _ := Err (Errorf "no such file")
|}.
Definition sample_commands : list Command :=
  [MkCommand "show" "show metadata" []
     [MkCommand "segment" "list segments" [MkFlag "collection" "collection id"; MkFlag "segment" "segment id"] [];
      MkCommand "session" "list sessions" [] []];
   MkCommand "load-backup [file]" "load a backup" [] []].

Lemma SuggestInputCommands_spec_witness :
  ∃ m, SuggestInputCommands "show segment --collection 1 --se" sample_commands = Ok m
    ∧ m !! "--segment" = Some "segment id".
Proof.
  destruct (SuggestInputCommands_spec [TWord "show"; TWord "segment"; TFlag "collection" "1" false] "--se"
    sample_commands) as (m & Hm & Hs).
  - repeat constructor; clean_dec.
  - split; [clean_dec|]. intros _. vm_compute. reflexivity.
  - by left.
  - exists m. split; [exact Hm|]. cbn in Hs. apply Hs.
    + clean_dec.
    + reflexivity.
    + right. exists (MkFlag "segment" "segment id"). split_and!; [right; left|reflexivity..].
Defined.

(** Items written as a length and two numbers would do as well; here, as the bits of their code. *)
#[local] Instance item_eq_dec : EqDecision Item.
Proof. solve_decision. Defined.
#[local] Instance item_countable : Countable Item.
Proof.
  refine (inj_countable' (λ i, (it_Cmd i, it_Ts i)) (λ p, MkItem p.1 p.2) _). by intros [].
Defined.
Fixpoint bits (p : positive) : string :=
  match p with xH => "" | xO p => String "0" (bits p) | xI p => String "1" (bits p) end.
Fixpoint unbits (s : string) : positive :=
  match s with "" => xH | String c s => if decide (c = "0"%char) then xO (unbits s) else xI (unbits s) end.
Lemma unbits_bits p : unbits (bits p) = p.
Proof. induction p as [p IH|p IH|]; [| |done]; cbn [bits unbits]; rewrite IH; by case_decide. Qed.
Lemma bits_char p c : c ≠ "0"%char → c ≠ "1"%char → Split c (bits p) = [bits p] ∧ HasSuffix (bits p) (String c "") = false.
Proof.
  intros H0 H1. induction p as [p [IHs IHx]|p [IHs IHx]|]; [| |done]; split.
  all: cbn [bits Split HasSuffix].
  all: rewrite ?decide_False, ?IHs, ?IHx, ?orb_false_r by congruence; try done.
  all: rewrite bool_decide_false by congruence; done.
Qed.
#[local] Instance sample_item_json : ItemJson := {|
  item_Marshal i := bits (encode i); item_Unmarshal s := decode (unbits s)
|}.
#[local] Instance sample_item_laws : ItemJsonLaws.
Proof.
  constructor; intros i; cbn.
  - by rewrite unbits_bits, decode_encode.
  - by apply bits_char.
  - by apply bits_char.
Qed.

Lemma history_roundtrip_witness :
  h_items (NewHistoryHelper (h_file (session [("exit", 5, 5); (" ", 6, 6)])) true) = [MkItem "exit" 5].
Proof.
  destruct (history_roundtrip [("exit", 5, 5); (" ", 6, 6)]) as [_ Hf]. rewrite Hf. vm_compute. reflexivity.
Defined.
