(* ===== verification/Framework.v ===== *)
(** * The command framework

    Models [src/framework]: how the methods of a state become commands ([command.go]), how
    the fields of a parameter become flags and get their values from them, which format a
    result is printed in ([resultset.go]), and how a line is processed ([state.go]).  What
    Go's reflection sees of a method or a struct is a record; the flag sets are those of the
    flag library, an interface.  The tree of commands, which the command library keeps and
    searches, is not modelled. *)

From S2P Require Export Completion.

(** ** Parameters *)

(** The kinds of fields that the code tells apart. *)
Inductive Kind :=
  | KInt64
  | KString
  | KBool
  | KStruct
  | KInt64Slice
  | KStringSlice
  | KOther (k : string).

Record StructField := MkField {
  sf_Name : string;
  sf_Exported : bool;
  sf_name : string;      (* the tags *)
  sf_default : string;
  sf_desc : string;
  sf_Kind : Kind;
}.

(** A pointer to a struct with the methods of [CmdParam]: what [Desc] returns, the tags
    [use] and [desc] of an embedded [ParamBase], and the fields. *)
Record CmdParam := MkParam {
  cp_Desc : string * string;
  cp_Base : option (string * string);
  cp_Fields : list StructField;
}.

Inductive FlagValue :=
  | FInt64 (z : Z)
  | FString (s : string)
  | FBool (b : bool)
  | FInt64s (l : list Z)
  | FStrings (l : list string).
#[export] Instance FlagValue_eq_dec : EqDecision FlagValue.
Proof. solve_decision. Defined.

(** [pflag.FlagSet]: a set of flags with their values.  A flag is defined once, with a
    default; the command line gives a flag that is defined a value of its type.  A flag is
    changed once it has been given one. *)
Class FlagSets (F : Type) := {
  fs_empty : F;
  fs_define : string → FlagValue → F → res F;
  fs_set : string → FlagValue → F → F;
  fs_get : string → F → option FlagValue;
  fs_changed : string → F → bool;
}.
Definition same_type (v w : FlagValue) : bool :=
  match v, w with
  | FInt64 _, FInt64 _ | FString _, FString _ | FBool _, FBool _
  | FInt64s _, FInt64s _ | FStrings _, FStrings _ => true
  | _, _ => false
  end.
(** A value [x] is given to a flag that has the value [v]: the slice flags of the library put
    it in the place of the default the first time, and append to it later; the other flags
    take the new value. *)
Definition flag_given (changed : bool) (v x : FlagValue) : FlagValue :=
  match v, x with
  | FInt64s l, FInt64s l' => FInt64s (if changed then l ++ l' else l')
  | FStrings l, FStrings l' => FStrings (if changed then l ++ l' else l')
  | _, _ => x
  end.
Class FlagLaws (F : Type) `{FlagSets F} := {
  fs_get_empty n : fs_get n fs_empty = None;
  fs_define_new n v fs : fs_get n fs = None →
    ∃ fs', fs_define n v fs = Ok fs' ∧ (∀ m, fs_get m fs' = if decide (m = n) then Some v else fs_get m fs)
      ∧ ∀ m, fs_changed m fs' = if decide (m = n) then false else fs_changed m fs;
  fs_define_again n v fs : is_Some (fs_get n fs) → ∃ w, fs_define n v fs = Panic w;
  fs_get_set n v w fs : fs_get n fs = Some w → same_type v w = true →
    ∀ m, fs_get m (fs_set n v fs)
         = if decide (m = n) then Some (flag_given (fs_changed n fs) w v) else fs_get m fs;
  fs_changed_set n v w fs : fs_get n fs = Some w → same_type v w = true →
    ∀ m, fs_changed m (fs_set n v fs) = if decide (m = n) then true else fs_changed m fs;
}.

Section flags.
Context {F : Type} `{FlagSets F}.

(** The flag of a field, [None] for a field that has none. *)
Definition field_default (f : StructField) : option FlagValue :=
  if negb (sf_Exported f) then None
  else match sf_Kind f with
  | KInt64 => Some (FInt64 (default 0 (ParseInt (sf_default f))))
  | KString => Some (FString (sf_default f))
  | KBool => Some (FBool (default false (ParseBool (sf_default f))))
  | KInt64Slice => Some (FInt64s [])
  | KStringSlice => Some (FStrings [])
  | KStruct | KOther _ => None
  end.

Definition setupFlags (p : CmdParam) (flags : F) : res F :=
  foldM (λ f flags, match field_default f with Some v => fs_define (sf_name f) v flags | None => Ok flags end)
    (cp_Fields p) flags.

(** [GetInt64] and so on: the flag has to exist and to have the type. *)
Definition fs_GetInt64 (name : string) (flags : F) : res FlagValue :=
  match fs_get name flags with Some (FInt64 z) => Ok (FInt64 z) | _ => Err (Errorf "flag accessed but not defined") end.
Definition fs_GetString (name : string) (flags : F) : res FlagValue :=
  match fs_get name flags with Some (FString z) => Ok (FString z) | _ => Err (Errorf "flag accessed but not defined") end.
Definition fs_GetBool (name : string) (flags : F) : res FlagValue :=
  match fs_get name flags with Some (FBool z) => Ok (FBool z) | _ => Err (Errorf "flag accessed but not defined") end.
Definition fs_GetInt64Slice (name : string) (flags : F) : res FlagValue :=
  match fs_get name flags with Some (FInt64s z) => Ok (FInt64s z) | _ => Err (Errorf "flag accessed but not defined") end.
Definition fs_GetStringSlice (name : string) (flags : F) : res FlagValue :=
  match fs_get name flags with Some (FStrings z) => Ok (FStrings z) | _ => Err (Errorf "flag accessed but not defined") end.

(** The values of a struct's fields. *)
Definition parse_field (flags : F) (f : StructField) (values : gmap string FlagValue) : res (gmap string FlagValue) :=
  let set (get : string → F → res FlagValue) := v ← get (sf_name f) flags; Ok (<[sf_Name f := v]> values) in
  if negb (sf_Exported f) then Ok values
  else match sf_Kind f with
  | KInt64 => set fs_GetInt64
  | KString => set fs_GetString
  | KBool => set fs_GetBool
  | KInt64Slice => set fs_GetInt64Slice
  | KStringSlice => set fs_GetStringSlice
  | KStruct | KOther _ => Ok values
  end.
Definition parseFlags (p : CmdParam) (flags : F) (values : gmap string FlagValue) : res (gmap string FlagValue) :=
  foldM (parse_field flags) (cp_Fields p) values.

(** ** Commands *)
Definition GetCmdFromFlag (p : CmdParam) : string * string := default ("", "") (cp_Base p).

(** The loop of [ParseUseSegments], over the words and with the segment that is open. *)
Fixpoint use_segments (parts : list string) (last : string) : list string :=
  match parts with
  | [] => if bool_decide (last = "") then [] else [last]
  | part :: parts =>
      if HasPrefix part "[" && HasSuffix part "]" then use_segments parts (last +:+ " " +:+ part)
      else (if bool_decide (last = "") then [] else [last]) ++ use_segments parts part
  end.
Definition ParseUseSegments (use : string) : list string := use_segments (Split " " use) "".

(** A parameter of a method, after the receiver. *)
Inductive InType := InContext | InParam (p : CmdParam) | InOther.
Record Method := MkMethod { m_Name : string; m_In : list InType }.

(** [s[:len(s)-n]]. *)
Definition slice_to_end (s : string) (n : nat) : res string :=
  if (n <=? String.length s)%nat then Ok (String.substring 0 (String.length s - n) s)
  else Panic "slice bounds out of range".

(** The command of a method: its name with arguments, its description and its flags;
    and the keywords above it. *)
Record MethodCmd := MkMethodCmd {
  mc_kws : list string;
  mc_Use : string;
  mc_Short : string;
  mc_flags : F;
}.

Definition parseMethod (mt : Method) : res (option MethodCmd) :=
  match m_In mt with
  | (InParam _ | InOther) :: _ | _ :: (InContext | InOther) :: _ => Ok None
  | [] | [InContext] => Panic "nil pointer dereference"
  | InContext :: InParam p :: _ =>
      let '(use, short) := cp_Desc p in
      let '(fUse, fDesc) := GetCmdFromFlag p in
      let use := if bool_decide (use = "") then fUse else use in
      let short := if bool_decide (short = "") then fDesc else short in
      use ← (if bool_decide (use = "") then name ← slice_to_end (m_Name mt) 8; Ok (strings_ToLower name) else Ok use);
      match rev (ParseUseSegments use) with
      | [] => Panic "index out of range"
      | lastKw :: kws =>
          flags ← setupFlags p fs_empty;
          Ok (Some (MkMethodCmd (rev kws) lastKw short flags))
      end
  end.

Definition parseFunctionCommands (methods : list Method) : res (list MethodCmd) :=
  foldM (λ mt commands,
      if HasSuffix (m_Name mt) "Command" then
        c ← parseMethod mt;
        Ok (match c with Some c => commands ++ [c] | None => commands end)
      else Ok commands)
    methods [].
End flags.
Arguments MethodCmd F : clear implicits.

(** ** Formats and results *)
Inductive Format :=
  | FormatUnset
  | FormatDefault
  | FormatPlain
  | FormatJSON
  | FormatTable
  | FormatLine.
#[export] Instance Format_eq_dec : EqDecision Format.
Proof. solve_decision. Defined.

Definition name2Format : gmap string Format :=
  {["default" := FormatDefault; "plain" := FormatPlain; "json" := FormatJSON;
    "table" := FormatTable; "line" := FormatLine]}.
Definition NameFormat (name : string) : Format :=
  if bool_decide (name = "") then FormatUnset else default FormatDefault (name2Format !! name).

(** [CmdState.GetGlobalFormat]: the name in the configuration, if there is one. *)
Definition GetGlobalFormat (config : option string) : Format :=
  match config with
  | Some formatName => if bool_decide (formatName <> "") then NameFormat formatName else FormatDefault
  | None => FormatDefault
  end.

(** A result set: how it prints, and its format if it is a [PresetResultSet]. *)
Record ResultSet := MkResultSet { rs_PrintAs : Format → string; rs_preset : option Format }.

(** What a method returns: a nil or an error, a nil or a result set, or something else. *)
Inductive Result := RErr (e : option string) | RSet (r : option ResultSet) | ROther.

Definition output_format (provider : option Format) (rs : ResultSet) : Format :=
  let outputFormat := default FormatDefault provider in
  match rs_preset rs with
  | Some f => if bool_decide (f <> FormatUnset) then f else outputFormat
  | None => outputFormat
  end.

(** The lines that are printed; the last result comes first, and an error ends it. *)
Fixpoint print_results (provider : option Format) (results : list Result) : list string :=
  match results with
  | [] => []
  | RErr (Some e) :: _ => [e]
  | RSet (Some rs) :: results => rs_PrintAs rs (output_format provider rs) :: print_results provider results
  | _ :: results => print_results provider results
  end.

(** [cmd.Run]: the error of [ParseArgs] is not looked at; [values] are the fields after it. *)
Definition cmd_Run {F} `{FlagSets F} (p : CmdParam) (provider : option Format) (values : gmap string FlagValue)
    (flags : F) (method : gmap string FlagValue → list Result) : res (list string) :=
  match parseFlags p flags values with
  | Ok values => Ok (print_results provider (rev (method values)))
  | Err e => Ok [match e with Errorf m => m | _ => "" end]
  | Panic w => Panic w
  end.

(** ** States *)
Section states.
Context {St : Type}.

(** [CmdState], with the states that a command may move to. *)
Record CmdState := MkState { cs_label : string; cs_nextState : option St; cs_tag : string }.

Definition SetNext (s : CmdState) (tag : string) (next : option St) : CmdState := MkState (cs_label s) next tag.
Definition NextState (s : CmdState) : string * option St := (cs_tag s, cs_nextState s).

(** Running a line in the command library: it may call [SetNext]. *)
Variable Execute : CmdState → list string → CmdState * res unit.
Variable ExitErr : goerr.

(** The state that is entered: this one, another one, or none. *)
Inductive Target := Self | Other (st : option St).

Definition Process (s : CmdState) (cmd : string) : CmdState * Target * res unit :=
  let '(s, r) := Execute s (Split " " cmd) in
  match r with
  | Err e => if bool_decide (e = ExitErr) then (s, Other (cs_nextState s), r) else (s, Self, r)
  | Panic _ => (s, Self, r)
  | Ok _ =>
      match cs_nextState s with
      | Some next => (MkState (cs_label s) None (cs_tag s), Other (Some next), Ok tt)
      | None => (s, Self, Ok tt)
      end
  end.
End states.

(** ** Segments of a use *)
Definition bracketed (s : string) : bool := HasPrefix s "[" && HasSuffix s "]".

(** A keyword with its arguments in brackets. *)
Definition group_ok (g : string * list string) : Prop :=
  g.1 ≠ "" ∧ spaceless g.1 ∧ bracketed g.1 = false
  ∧ Forall (λ a, spaceless a ∧ bracketed a = true) g.2.
#[export] Instance group_ok_dec g : Decision (group_ok g).
Proof. unfold group_ok, spaceless. apply _. Defined.
Definition segment (g : string * list string) : string := Join " " (g.1 :: g.2).

Lemma use_segments_args args rest last :
  Forall (λ a, bracketed a = true) args → last ≠ "" →
  use_segments (args ++ rest) last = use_segments rest (Join " " (last :: args)).
Proof.
  intros Ha. revert last. induction Ha as [|a args Ha _ IH]; intros last Hl; [done|].
  cbn [app use_segments]. unfold bracketed in Ha. rewrite Ha, IH by (by destruct last).
  f_equal. destruct args; cbn [Join]; by rewrite ?string_app_assoc.
Qed.

Lemma use_segments_groups gs last :
  Forall group_ok gs →
  use_segments (concat (map (λ g, g.1 :: g.2) gs)) last
  = (if bool_decide (last = "") then [] else [last]) ++ map segment gs.
Proof.
  intros Hgs. revert last. induction Hgs as [|[k args] gs (Hk & Hs & Hb & Ha) _ IH]; intros last; cbn [fst snd map concat app use_segments] in *.
  { by rewrite app_nil_r. }
  unfold bracketed in Hb. rewrite Hb. f_equal.
  rewrite use_segments_args by (done || (eapply list.Forall_impl; [exact Ha|by intros ? []])).
  rewrite IH, bool_decide_false; [done|]. unfold segment. by destruct k, args.
Qed.

Lemma groups_spaceless gs :
  Forall group_ok gs → Forall spaceless (concat (map (λ g, g.1 :: g.2) gs)).
Proof.
  intros Hgs. apply List.Forall_concat. rewrite List.Forall_map. eapply list.Forall_impl; [exact Hgs|].
  intros g (_ & Hs & _ & Ha). constructor; [done|]. eapply list.Forall_impl; [exact Ha|by intros ? []].
Qed.

(** The use of a command is its keywords with their arguments. *)
Lemma ParseUseSegments_groups gs :
  Forall group_ok gs → gs ≠ [] →
  ParseUseSegments (Join " " (concat (map (λ g, g.1 :: g.2) gs))) = map segment gs.
Proof.
  intros Hgs Hne. unfold ParseUseSegments. rewrite Split_spaceless; [|by destruct gs|by apply groups_spaceless].
  rewrite use_segments_groups by done. by rewrite bool_decide_true.
Qed.

(** ** Flags and fields *)
Section flag_laws.
Context {F : Type} `{FS : FlagSets F} `{FL : !FlagLaws F}.

(** The fields that have a flag, with its default. *)
Definition flagged (fields : list StructField) : list (StructField * FlagValue) :=
  omap (λ f, (λ v, (f, v)) <$> field_default f) fields.
Definition flag_names (fields : list StructField) : list string := map (sf_name ∘ fst) (flagged fields).

(** The default of the flag with a name. *)
Definition default_of (fields : list StructField) (n : string) : option FlagValue :=
  snd <$> List.find (λ fv, bool_decide (sf_name fv.1 = n)) (flagged fields).

Lemma default_of_None fields n : n ∉ flag_names fields → default_of fields n = None.
Proof.
  unfold default_of, flag_names. induction (flagged fields) as [|fv l IH]; [done|]. cbn.
  intros [Hn Hl]%not_elem_of_cons. rewrite bool_decide_false by congruence. by apply IH.
Qed.

Lemma setup_fields fields fs :
  NoDup (flag_names fields) → Forall (λ n, fs_get n fs = None) (flag_names fields) →
  ∃ fs', foldM (λ f flags, match field_default f with Some v => fs_define (sf_name f) v flags | None => Ok flags end)
           fields fs = Ok fs'
    ∧ (∀ m, fs_get m fs' = match default_of fields m with Some v => Some v | None => fs_get m fs end)
    ∧ ∀ m, fs_changed m fs' = match default_of fields m with Some _ => false | None => fs_changed m fs end.
Proof.
  unfold flag_names, default_of. revert fs. induction fields as [|f fields IH]; intros fs; [by exists fs|].
  cbn [flagged omap list_omap foldM]. destruct (field_default f) as [v|] eqn:Hf; cbn [fmap option_fmap option_map].
  2:{ apply IH. }
  cbn. intros [Hn Hnd]%list.NoDup_cons [Hg Hgs]%list.Forall_cons.
  destruct (fs_define_new (sf_name f) v fs Hg) as (fs1 & -> & Hs & Hc). cbn [mbind res_bind].
  destruct (IH fs1 Hnd) as (fs' & -> & Hfs' & Hcs').
  { rewrite list.Forall_forall in Hgs |- *. intros m Hm. rewrite Hs, decide_False by (by intros ->). by apply Hgs. }
  exists fs'. split; [done|].
  pose proof (default_of_None fields (sf_name f) Hn) as Hd. unfold default_of in Hd.
  split; intros m; rewrite ?Hfs', ?Hcs', ?Hs, ?Hc; case_bool_decide as Hm; cbn.
  1,3: subst m; rewrite Hd; by rewrite decide_True.
  all: by rewrite decide_False by congruence.
Qed.

(** A flag that is already there is not defined again. *)
Lemma setup_clash fields fs :
  ¬ (NoDup (flag_names fields) ∧ Forall (λ n, fs_get n fs = None) (flag_names fields)) →
  ∃ w, foldM (λ f flags, match field_default f with Some v => fs_define (sf_name f) v flags | None => Ok flags end)
         fields fs = Panic w.
Proof.
  unfold flag_names. revert fs. induction fields as [|f fields IH]; intros fs Hn.
  { destruct Hn. split; constructor. }
  revert Hn. cbn [foldM flagged omap list_omap].
  destruct (field_default f) as [v|]; cbn [fmap option_fmap option_map]; [|apply IH].
  cbn. intros Hn. destruct (fs_get (sf_name f) fs) as [x|] eqn:Hg.
  - assert (is_Some (fs_get (sf_name f) fs)) as Hx by (by exists x).
    destruct (fs_define_again (sf_name f) v fs Hx) as [w ->]. by exists w.
  - destruct (fs_define_new (sf_name f) v fs Hg) as (fs1 & -> & Hs & _). cbn. apply IH. intros [Hnd Hf]. destruct Hn.
    rewrite list.Forall_forall in Hf. split; constructor; [|done|done|].
    + intros Hin. specialize (Hf _ Hin). by rewrite Hs, decide_True in Hf.
    + apply list.Forall_forall. intros m Hm. specialize (Hf m Hm). rewrite Hs in Hf. by case_decide.
Qed.

(** What the command line sets: flags of the command, to values of their type. *)
Definition setting_ok (fields : list StructField) (s : string * FlagValue) : Prop :=
  ∃ v, default_of fields s.1 = Some v ∧ same_type s.2 v = true.
Definition set_flags (settings : list (string * FlagValue)) (fs : F) : F :=
  foldl (λ fs s, fs_set s.1 s.2 fs) fs settings.
(** The values that are given to a flag, in order, and what the flag holds after them: all
    the elements given to a slice, the last value given to another flag, or the default. *)
Definition given (settings : list (string * FlagValue)) (n : string) : list FlagValue :=
  omap (λ s, if decide (n = s.1) then Some s.2 else None) settings.
Definition ints_of (v : FlagValue) : list Z := match v with FInt64s l => l | _ => [] end.
Definition strings_of (v : FlagValue) : list string := match v with FStrings l => l | _ => [] end.
Definition flag_value (vs : list FlagValue) (dflt : FlagValue) : FlagValue :=
  match dflt, vs with
  | _, [] => dflt
  | FInt64s _, _ => FInt64s (concat (map ints_of vs))
  | FStrings _, _ => FStrings (concat (map strings_of vs))
  | _, _ => List.last vs dflt
  end.

Lemma same_type_trans u v w : same_type u w = true → same_type v w = true → same_type u v = true.
Proof. by destruct u, v, w. Qed.
Lemma same_type_refl v : same_type v v = true.
Proof. by destruct v. Qed.
Lemma same_type_given c v x w :
  same_type v w = true → same_type x w = true → same_type (flag_given c v x) w = true.
Proof. by destruct v, x, w. Qed.

(** Giving values one after the other. *)
Definition give_all (changed : bool) (vs : list FlagValue) (v : FlagValue) : FlagValue :=
  match vs with [] => v | x :: vs => foldl (flag_given true) (flag_given changed v x) vs end.

Lemma give_all_cons c x vs v : give_all c (x :: vs) v = give_all true vs (flag_given c v x).
Proof. by destruct vs. Qed.

Lemma last_given {A} (l : list A) (x d : A) : List.last (x :: l) d = List.last l x.
Proof. revert x. induction l as [|y l IH]; intros x; [done|]. cbn [List.last] in *. destruct l; [done|apply (IH x)]. Qed.

Lemma flag_given_fold vs v :
  Forall (λ x, same_type x v = true) vs →
  foldl (flag_given true) v vs
  = match v with
    | FInt64s l => FInt64s (l ++ concat (map ints_of vs))
    | FStrings l => FStrings (l ++ concat (map strings_of vs))
    | _ => List.last vs v
    end.
Proof.
  revert v. induction vs as [|x vs IH]; intros v Hvs.
  { destruct v; simpl; by rewrite ?app_nil_r. }
  apply list.Forall_cons in Hvs as [Hx Hvs]. cbn [foldl]. rewrite IH.
  - destruct v, x; try done; cbn [flag_given map concat ints_of strings_of]; rewrite ?app_assoc; try done;
      by rewrite last_given.
  - eapply list.Forall_impl; [exact Hvs|]. intros y Hy. destruct v, x, y; done.
Qed.

(** The first value takes the place of the default. *)
Lemma give_all_value vs v :
  Forall (λ x, same_type x v = true) vs → give_all false vs v = flag_value vs v.
Proof.
  intros Hvs. destruct vs as [|x vs]; [by destruct v|]. apply list.Forall_cons in Hvs as [Hx Hvs].
  cbn [give_all]. rewrite flag_given_fold.
  - destruct v, x; try done; cbn [flag_value flag_given]; by rewrite ?last_given.
  - eapply list.Forall_impl; [exact Hvs|]. intros y Hy. by destruct v, x, y.
Qed.

Lemma set_flags_get fields settings fs n v w :
  Forall (setting_ok fields) settings →
  (∀ m u, default_of fields m = Some u → ∃ x, fs_get m fs = Some x ∧ same_type x u = true) →
  default_of fields n = Some w → fs_get n fs = Some v →
  fs_get n (set_flags settings fs) = Some (give_all (fs_changed n fs) (given settings n) v)
  ∧ same_type (give_all (fs_changed n fs) (given settings n) v) w = true
  ∧ Forall (λ x, same_type x w = true) (given settings n).
Proof.
  intros Hset. revert fs v. induction Hset as [|[m x] settings (u & Hu & Hx) _ IH]; intros fs v Hfs Hn Hv.
  { split_and!; [done| |constructor]. destruct (Hfs n w Hn) as (y & Hy & Ht). cbn. congruence. }
  unfold given. cbn [omap list_omap set_flags foldl] in *. cbn [fst snd] in *.
  destruct (Hfs m u Hu) as (y & Hy & Hyu).
  pose proof (fs_get_set m x y fs Hy (same_type_trans _ _ _ Hx Hyu)) as Hg.
  pose proof (fs_changed_set m x y fs Hy (same_type_trans _ _ _ Hx Hyu)) as Hc.
  assert (∀ k t, default_of fields k = Some t → ∃ z, fs_get k (fs_set m x fs) = Some z ∧ same_type z t = true) as Hfs1.
  { intros k t Hk. rewrite Hg. case_decide as Hkm; [|by apply Hfs]. subst k. eexists. split; [done|].
    simplify_eq. by apply same_type_given. }
  case_decide as Hnm.
  - subst m. simplify_eq. rewrite give_all_cons.
    destruct (IH (fs_set n x fs) (flag_given (fs_changed n fs) v x)) as (IH1 & IH2 & IH3);
      [done|done|rewrite Hg; by rewrite decide_True|].
    rewrite Hc, decide_True in IH1, IH2 by done. split_and!; [done|done|by constructor].
  - destruct (IH (fs_set m x fs) v) as (IH1 & IH2 & IH3); [done|done|rewrite Hg; by rewrite decide_False|].
    rewrite Hc, decide_False in IH1, IH2 by done. by split_and!.
Qed.

(** *** Reading fields *)
Definition has_kind (k : Kind) (v : FlagValue) : bool :=
  match k, v with
  | KInt64, FInt64 _ | KString, FString _ | KBool, FBool _ | KInt64Slice, FInt64s _ | KStringSlice, FStrings _ => true
  | KInt64, _ | KString, _ | KBool, _ | KInt64Slice, _ | KStringSlice, _ => false
  | KStruct, _ | KOther _, _ => true
  end.

Lemma kind_default f v w : field_default f = Some w → has_kind (sf_Kind f) v = same_type v w.
Proof.
  unfold field_default. destruct (sf_Exported f); [|done]. cbn [negb].
  by destruct (sf_Kind f); intros ?; simplify_eq; destruct v.
Qed.

(** The flag of a field is there, with a value of its kind, if the field has one. *)
Definition flag_fits (fs : F) (f : StructField) : bool :=
  match field_default f, fs_get (sf_name f) fs with
  | None, _ => true
  | Some _, Some v => has_kind (sf_Kind f) v
  | Some _, None => false
  end.

(** Reading a field gives its flag's value, or an error. *)
Lemma parse_field_fits fs f values :
  parse_field fs f values
  = match field_default f with
    | None => Ok values
    | Some _ =>
        if flag_fits fs f then Ok (match fs_get (sf_name f) fs with Some v => <[sf_Name f := v]> values | None => values end)
        else Err (Errorf "flag accessed but not defined")
    end.
Proof.
  unfold flag_fits, field_default, parse_field,
    fs_GetInt64, fs_GetString, fs_GetBool, fs_GetInt64Slice, fs_GetStringSlice.
  destruct (sf_Exported f); [|done]. cbn [negb].
  destruct (sf_Kind f); try done; by destruct (fs_get (sf_name f) fs) as [[]|].
Qed.

(** The fields with the values of their flags. *)
Definition read_value (fs : F) (f : StructField) : option FlagValue :=
  field_default f ≫= λ _, fs_get (sf_name f) fs.
Fixpoint assigned (fs : F) (fields : list StructField) (values : gmap string FlagValue) : gmap string FlagValue :=
  match fields with
  | [] => values
  | f :: fields => assigned fs fields (match read_value fs f with Some v => <[sf_Name f := v]> values | None => values end)
  end.

Lemma parse_fields fs fields values :
  foldM (parse_field fs) fields values
  = if forallb (flag_fits fs) fields then Ok (assigned fs fields values)
    else Err (Errorf "flag accessed but not defined").
Proof.
  revert values. induction fields as [|f fields IH]; intros values; [done|]. cbn [foldM forallb assigned].
  rewrite parse_field_fits. unfold read_value. destruct (field_default f) as [w|] eqn:Hd; cbn [mbind option_bind].
  - destruct (flag_fits fs f); [|done]. cbn [mbind res_bind andb]. apply IH.
  - assert (flag_fits fs f = true) as -> by (unfold flag_fits; by rewrite Hd). apply IH.
Qed.

Lemma assigned_lookup fs fields values :
  NoDup (map sf_Name fields) →
  (∀ f v, f ∈ fields → read_value fs f = Some v → assigned fs fields values !! sf_Name f = Some v)
  ∧ ∀ n, n ∉ map (sf_Name ∘ fst) (flagged fields) → assigned fs fields values !! n = values !! n.
Proof.
  revert values. induction fields as [|g fields IH]; intros values Hnames.
  { split; [by intros f w ?%elem_of_nil|done]. }
  cbn in Hnames. apply list.NoDup_cons in Hnames as [Hg Hnames]. cbn [assigned].
  destruct (IH (match read_value fs g with Some v => <[sf_Name g := v]> values | None => values end) Hnames)
    as [IH1 IH2]. split.
  - intros f w [->|Hf]%elem_of_cons Hd; [|by apply IH1]. rewrite IH2.
    + rewrite Hd. apply lookup_insert_eq.
    + intros Hin. destruct Hg. apply list_elem_of_fmap in Hin as ([f' w'] & Heq & Hin).
      apply list_elem_of_omap in Hin as (f'' & Hin & Hd'). destruct (field_default f''); [|done].
      injection Hd' as <- <-. cbn in Heq. rewrite Heq. by apply list_elem_of_fmap_2.
  - intros n Hn. cbn [flagged omap list_omap] in Hn. unfold read_value in *.
    destruct (field_default g) as [w|]; [|by rewrite IH2]. cbn in Hn.
    apply not_elem_of_cons in Hn as [Hng Hn]. rewrite IH2 by done. cbn [mbind option_bind].
    destruct (fs_get (sf_name g) fs); [|done]. by rewrite lookup_insert_ne by congruence.
Qed.

Lemma flagged_elem fields f w : f ∈ fields → field_default f = Some w → (f, w) ∈ flagged fields.
Proof. intros Hf Hd. apply list_elem_of_omap. exists f. by rewrite Hd. Qed.

Lemma default_of_field fields f w :
  NoDup (flag_names fields) → f ∈ fields → field_default f = Some w → default_of fields (sf_name f) = Some w.
Proof.
  intros Hnd Hf Hd. pose proof (flagged_elem fields f w Hf Hd) as Hin. revert Hnd Hin.
  unfold flag_names, default_of. induction (flagged fields) as [|[g x] l IH]; [by intros _ ?%elem_of_nil|].
  cbn. intros [Hg Hnd]%list.NoDup_cons [Heq|Hin]%elem_of_cons.
  - injection Heq as -> ->. by rewrite bool_decide_true.
  - rewrite bool_decide_false; [by apply IH|]. intros Heq. destruct Hg. rewrite Heq.
    by apply (list_elem_of_fmap_2 (sf_name ∘ fst) l (f, w)).
Qed.


(** *** The types of a struct's fields *)
Definition well_typed (fields : list StructField) (values : gmap string FlagValue) : Prop :=
  ∀ f v, f ∈ fields → values !! sf_Name f = Some v → has_kind (sf_Kind f) v = true.

Lemma field_name_inj (fields : list StructField) f g :
  NoDup (map sf_Name fields) → f ∈ fields → g ∈ fields → sf_Name f = sf_Name g → f = g.
Proof.
  induction fields as [|x l IH]; [by intros _ ?%not_elem_of_nil|].
  cbn. intros [Hx Hl]%list.NoDup_cons [->|Hf]%elem_of_cons [->|Hg]%elem_of_cons Heq; [done|..|by apply IH];
    destruct Hx; [rewrite Heq|rewrite <-Heq]; by apply list_elem_of_fmap_2.
Qed.

(** C38 (type): whatever the flags hold, a parameter that is read from them is well typed. If the flag
    of every field that has one is defined and has the type of the field, reading succeeds: each
    of these fields then has exactly the value of its flag, the others keep theirs, and a
    parameter that was well typed is so again. If the flag of a field is not defined or has another
    type, reading is an error, and no field gets a value of another type. *)
Theorem parseFlags_typed p (flags : F) values :
  NoDup (map sf_Name (cp_Fields p)) → well_typed (cp_Fields p) values →
  if forallb (flag_fits flags) (cp_Fields p)
  then ∃ values', parseFlags p flags values = Ok values' ∧ well_typed (cp_Fields p) values'
    ∧ (∀ f, f ∈ cp_Fields p → is_Some (field_default f) →
         values' !! sf_Name f = fs_get (sf_name f) flags ∧ is_Some (fs_get (sf_name f) flags))
    ∧ ∀ f, f ∈ cp_Fields p → field_default f = None → values' !! sf_Name f = values !! sf_Name f
  else ∃ e, parseFlags p flags values = Err e.
Proof.
  intros Hnd Hwt. unfold parseFlags. rewrite parse_fields.
  destruct (forallb _ _) eqn:Hfit; [|by eexists]. rewrite forallb_forall in Hfit.
  destruct (assigned_lookup flags (cp_Fields p) values Hnd) as [Ha Hk].
  assert (∀ f, f ∈ cp_Fields p → is_Some (field_default f) →
    ∃ v, fs_get (sf_name f) flags = Some v ∧ has_kind (sf_Kind f) v = true
      ∧ assigned flags (cp_Fields p) values !! sf_Name f = Some v) as Hset.
  { intros f Hf [w Hd]. pose proof (Hfit f (proj1 (list_elem_of_In _ _) Hf)) as Hff.
    unfold flag_fits in Hff. rewrite Hd in Hff. destruct (fs_get (sf_name f) flags) as [v|] eqn:Hg; [|done].
    exists v. split_and!; [done..|]. apply Ha; [done|]. unfold read_value. by rewrite Hd. }
  assert (∀ f, f ∈ cp_Fields p → field_default f = None →
    assigned flags (cp_Fields p) values !! sf_Name f = values !! sf_Name f) as Hkeep.
  { intros f Hf Hd. apply Hk. intros Hin. apply list_elem_of_fmap in Hin as ([g w] & Heq & Hin).
    apply list_elem_of_omap in Hin as (g' & Hin & Hd'). destruct (field_default g') eqn:Hg'; [|done].
    injection Hd' as <- <-. cbn in Heq. pose proof (field_name_inj _ f g' Hnd Hf Hin Heq). congruence. }
  eexists. split_and!; [done| | |done].
  - intros f v Hf Hv. destruct (field_default f) as [w|] eqn:Hd.
    + destruct (Hset f Hf) as (v' & _ & Hkd & Hv'); [by rewrite Hd|]. congruence.
    + rewrite Hkeep in Hv by done. by apply (Hwt f).
  - intros f Hf Hd. destruct (Hset f Hf Hd) as (v & Hg & _ & Hv). rewrite Hg. split; [done|by eexists].
Qed.
End flag_laws.

Section commands.
Context {F : Type} `{FS : FlagSets F} `{FL : !FlagLaws F}.

(** A method with a context and a parameter becomes a command below the keywords of the
    tag [use]: the last keyword, with its arguments, is the command's, the ones before it lead to
    it.  It has a flag with the default of each field that has one.  A method whose parameter
    gives two fields the same flag, as the ones without a tag do, panics. *)
Theorem parseMethod_spec p name use short gs g rest :
  cp_Desc p = ("", "") → cp_Base p = Some (use, short) →
  use = Join " " (concat (map (λ g, g.1 :: g.2) (gs ++ [g]))) → Forall group_ok (gs ++ [g]) →
  (NoDup (flag_names (cp_Fields p)) →
   ∃ fs, parseMethod (F:=F) (MkMethod name (InContext :: InParam p :: rest))
         = Ok (Some (MkMethodCmd (map segment gs) (segment g) short fs))
     ∧ ∀ m, fs_get m fs = default_of (cp_Fields p) m)
  ∧ (¬ NoDup (flag_names (cp_Fields p)) →
     ∃ w, parseMethod (F:=F) (MkMethod name (InContext :: InParam p :: rest)) = Panic w).
Proof.
  intros Hdesc Hbase Huse Hgs.
  assert (Hne : use ≠ "").
  { subst use. destruct gs as [|g' gs]; cbn in Hgs; apply list.Forall_cons in Hgs as [(Hk & _) _].
    - by destruct g as [[|? ?] [|? ?]].
    - by destruct g' as [[|? ?] [|? ?]], gs as [|[? [|? ?]] ?], g as [? [|? ?]]. }
  unfold parseMethod. cbn [m_In]. rewrite Hdesc. unfold GetCmdFromFlag. rewrite Hbase. cbn [default from_option id].
  rewrite !(bool_decide_true ("" = "")) by done. rewrite (bool_decide_false (use = "")) by done. cbn [mbind res_bind].
  rewrite Huse, ParseUseSegments_groups by (done || by destruct gs).
  rewrite map_app. cbn [map]. rewrite rev_unit, rev_involutive. unfold setupFlags. split.
  - intros Hnd. destruct (setup_fields (cp_Fields p) fs_empty Hnd) as (fs & Hfs & Hget & _).
    { apply list.Forall_forall. intros. apply fs_get_empty. }
    rewrite Hfs. exists fs. split; [done|]. intros m. rewrite Hget, fs_get_empty. by destruct (default_of _ _).
  - intros Hnd.
    destruct (setup_clash (cp_Fields p) fs_empty) as [w ->]; [tauto|]. by exists w.
Qed.

Lemma substring_take s t : String.substring 0 (String.length s) (s +:+ t) = s.
Proof. induction s as [|c s IH]; [by destruct t|]. autorewrite with go_string. cbn. by rewrite IH. Qed.

Lemma slice_to_end_app s t : slice_to_end (s +:+ t) (String.length t) = Ok s.
Proof.
  unfold slice_to_end. rewrite string_length_app.
  destruct (Nat.leb_spec (String.length t) (String.length s + String.length t));
    [|lia]. rewrite Nat.add_sub. by rewrite substring_take.
Qed.

(** Without the tag, the command is named after the method, and one letter too many is cut
    off its end. *)
Lemma default_use p n c rest :
  cp_Desc p = ("", "") → cp_Base p = None → n ≠ "" → spaceless (strings_ToLower n) →
  bracketed (strings_ToLower n) = false → NoDup (flag_names (cp_Fields p)) →
  ∃ fs, parseMethod (F:=F) (MkMethod (n +:+ String c "Command") (InContext :: InParam p :: rest))
        = Ok (Some (MkMethodCmd [] (strings_ToLower n) "" fs)).
Proof.
  intros Hdesc Hbase Hn Hs Hb Hnd. unfold parseMethod. cbn [m_In m_Name]. rewrite Hdesc. unfold GetCmdFromFlag.
  rewrite Hbase. cbn [default from_option id]. rewrite !(bool_decide_true ("" = "")) by done.
  pose proof (slice_to_end_app n (String c "Command")) as Hsl. cbn [String.length] in Hsl. rewrite Hsl. cbn [mbind res_bind].
  pose proof (ParseUseSegments_groups [(strings_ToLower n, [])]) as Hg.
  cbn [map concat app Join fst snd] in Hg. rewrite Hg; [|repeat constructor..].
  - cbn. destruct (setup_fields (cp_Fields p) fs_empty Hnd) as (fs & Hfs & _).
    { apply list.Forall_forall. intros. apply fs_get_empty. }
    unfold setupFlags. rewrite Hfs. by eexists.
  - by destruct n.
  - done.
  - done.
  - done.
Qed.
End commands.

(** The results after the last error, in reverse, and then that error, are printed; each
    set in its own format, or else in the one of the state, or else in the default one. *)
Lemma print_results_error provider results e later :
  Forall (λ r, match r with RErr (Some _) => False | _ => True end) later →
  print_results provider (rev (results ++ RErr (Some e) :: later))
  = print_results provider (rev later) ++ [e].
Proof.
  intros Hl. rewrite rev_app_distr. cbn [rev]. rewrite <-app_assoc. cbn [app].
  assert (Forall (λ r, match r with RErr (Some _) => False | _ => True end) (rev later)) as Hr
    by (apply List.Forall_rev in Hl; done).
  revert Hr. generalize (rev later). clear Hl later. intros l Hl. induction Hl as [|r l Hr _ IH]; [done|].
  destruct r as [[x|]|[rs|]|]; cbn; [done| | | |]; by rewrite ?IH.
Qed.

(** ** Examples *)
(** The flags with their values, and whether they are changed. *)
#[local] Abbreviation flag_map := (gmap string (FlagValue * bool)).
#[export] Instance map_flags : FlagSets flag_map := {|
  fs_empty := ∅;
  fs_define n v fs := match fs !! n with None => Ok (<[n := (v, false)]> fs) | Some _ => Panic "flag redefined" end;
  fs_set n v fs := match fs !! n with Some (w, c) => <[n := (flag_given c w v, true)]> fs | None => fs end;
  fs_get n fs := fst <$> fs !! n;
  fs_changed n fs := from_option snd false (fs !! n);
|}.
#[export] Instance map_flag_laws : FlagLaws flag_map.
Proof.
  constructor.
  - intros n. done.
  - intros n v fs Hn. cbn in *. destruct (fs !! n) eqn:Hf; [done|]. eexists. split; [done|].
    split; intros m; case_decide as Hm; [subst; by rewrite lookup_insert_eq| |subst; by rewrite lookup_insert_eq|];
      by rewrite lookup_insert_ne by congruence.
  - intros n v fs [w Hw]. cbn in *. destruct (fs !! n); [by eexists|done].
  - intros n v w fs Hw _ m. cbn in *. destruct (fs !! n) as [[x c]|] eqn:Hf; [|done]. injection Hw as ->. cbn.
    case_decide as Hm; [subst; by rewrite lookup_insert_eq|]. by rewrite lookup_insert_ne by congruence.
  - intros n v w fs Hw _ m. cbn in *. destruct (fs !! n) as [[x c]|] eqn:Hf; [|done].
    case_decide as Hm; [subst; by rewrite lookup_insert_eq|]. by rewrite lookup_insert_ne by congruence.
Qed.

(** [SegmentParam] of [show segment], in part, and the fields of [VerifySegmentParam]. *)
Definition sample_param : CmdParam :=
  MkParam ("", "") (Some ("show segment [file]", "display segments"))
    [MkField "ParamBase" true "" "" "" KStruct;
     MkField "CollectionID" true "collection" "0" "collection id" KInt64;
     MkField "Format" true "format" "line" "format" KString;
     MkField "Detail" true "detail" "false" "details" KBool].
Definition untagged_param : CmdParam :=
  MkParam ("", "") (Some ("verify-segment", "Verify segment file matches storage"))
    [MkField "CollectionID" true "" "" "" KInt64; MkField "RootPath" true "" "" "" KString;
     MkField "Fix" true "" "" "" KBool].

(** A parameter with a list of segments. *)
Definition list_param : CmdParam :=
  MkParam ("", "") (Some ("check segments", "check segments"))
    [MkField "Segments" true "segment" "" "segment ids" KInt64Slice;
     MkField "Format" true "format" "line" "format" KString].


Definition sample_flags : flag_map :=
  {["collection" := (FInt64 7, true); "format" := (FString "line", false); "detail" := (FBool false, false)]}.

(** The flags of the parameter are read; without the flag for the collection, which the
    parameter needs, reading is an error. *)
Lemma parseFlags_typed_witness :
  (∃ values, parseFlags sample_param sample_flags ∅ = Ok values
    ∧ well_typed (cp_Fields sample_param) values ∧ values !! "CollectionID" = Some (FInt64 7))
  ∧ ∃ e, parseFlags sample_param (delete "collection" sample_flags) ∅ = Err e.
Proof.
  assert (well_typed (cp_Fields sample_param) ∅) as Hwt by (intros f v _ Hv; rewrite lookup_empty in Hv; discriminate).
  split.
  - destruct (parseFlags_typed sample_param sample_flags ∅) as (values & Hp & Ht & Hv & _); [clean_dec|exact Hwt|].
    exists values. split_and!; [exact Hp|exact Ht|].
    destruct (Hv (MkField "CollectionID" true "collection" "0" "collection id" KInt64)) as [Hc _];
      [right; left|by eexists|]. etrans; [exact Hc|reflexivity].
  - exact (parseFlags_typed sample_param (delete "collection" sample_flags) ∅ ltac:(clean_dec) Hwt).
Defined.

Lemma parseMethod_spec_witness :
  (∃ fs, parseMethod (F:=flag_map) (MkMethod "SegmentCommand" [InContext; InParam sample_param])
     = Ok (Some (MkMethodCmd ["show"] "segment [file]" "display segments" fs)))
  ∧ ∃ w, parseMethod (F:=flag_map) (MkMethod "VerifyCommand" [InContext; InParam untagged_param]) = Panic w.
Proof.
  split.
  - destruct (parseMethod_spec (F:=flag_map) sample_param "SegmentCommand" "show segment [file]"
      "display segments" [("show", [])] ("segment", ["[file]"]) []) as [Hok _];
      [reflexivity|reflexivity|reflexivity|clean_dec|].
    destruct Hok as (fs & Hp & _); [clean_dec|]. exists fs. exact Hp.
  - destruct (parseMethod_spec (F:=flag_map) untagged_param "VerifyCommand" "verify-segment"
      "Verify segment file matches storage" [] ("verify-segment", []) []) as [_ Hbad];
      [reflexivity|reflexivity|reflexivity|clean_dec|].
    apply Hbad. clean_dec.
Defined.
