(* ===== verification/Listing.v ===== *)
(** * Listing metadata objects

    Models [states/etcd/common/list.go], [models/common.go], [pair.go], and the listings
    of [states/etcd/common] that only name a prefix and a message type: [alias.go],
    [bulkinsert.go], [compaction_task.go], [database.go], [index.go], [partition.go],
    [replica.go], [user.go] and so on.

    A listing loads the pairs below a prefix and decodes the values.  The message types
    of the Milvus packages are type parameters with their encoding, [ProtoCodec]. *)

From S2P Require Export Paths.

(** A listing's filters, all of which an object has to pass. *)
Definition accepts {T} (filters : list (T → bool)) (x : T) : bool := forallb (λ f, f x) filters.

(** [proto.Unmarshal([]byte(val), info)]. *)
Definition decoded {T} `{ProtoCodec T} (val : string) : option T :=
  match proto_Unmarshal (bytes_of_string val) with Ok x => Some x | _ => None end.

(** [string(bs)] for [bs, err := proto.Marshal(info)]. *)
Definition encoded {T} `{ProtoCodec T} (x : T) : res string :=
  bs ← proto_Marshal x; Ok (string_of_bytes bs).

(** What is encoded is read back. *)
Class ProtoLaws (T : Type) `{ProtoCodec T} := {
  proto_Unmarshal_Marshal (x : T) bs : proto_Marshal x = Ok bs → proto_Unmarshal bs = Ok x;
}.

(** [encoding/json] into objects of a type. *)
Class JsonCodec (T : Type) := { json_obj_Unmarshal : list byte → res T }.

(** ** [models.ProtoWrapper] *)
Record ProtoWrapper (T : Type) := NewProtoWrapper { GetProto : T; Key : string }.
Arguments NewProtoWrapper {T} _ _.
Arguments GetProto {T} _.
Arguments Key {T} _.

Definition EnumName (m : gmap Z string) (v : Z) : string :=
  match m !! v with Some s => s | None => FormatInt v end.

(** ** [pair.go] *)
Definition GetKVPair (pairs : list (string * string)) (key : string) : string :=
  match List.find (λ kv, bool_decide (kv.1 = key)) pairs with
  | Some kv => kv.2
  | None => ""
  end.

(** A later pair of the same key replaces an earlier one. *)
Definition KVListMap (pairs : list (string * string)) : gmap string string :=
  foldl (λ m kv, <[kv.1 := kv.2]> m) ∅ pairs.

(** ** [list.go] *)
Section list.
Context {K : Type} `{MetaKV K}.

Definition ListJSONObjects {T} `{JsonCodec T} (kv : K) (prefix : string)
    (filters : list (T → bool)) : res (list T * list string) :=
  '(keys, vals) ← mk_LoadWithPrefix kv prefix false;
  if bool_decide (length keys ≠ length vals) then Err (Errorf "keys and vals of different size")
  else
    let elem val := match json_obj_Unmarshal (bytes_of_string val) with
                    | Ok x => Some x | _ => None end in
    Ok (filter (λ x, accepts filters x = true) (omap elem vals), keys).

Definition ListProtoObjects {T} `{ProtoCodec T} (kv : K) (prefix : string)
    (filters : list (T → bool)) : res (list T * list string) :=
  '(keys, vals) ← mk_LoadWithPrefix kv prefix false;
  if bool_decide (length keys ≠ length vals) then Err (Errorf "keys and vals of different size")
  else Ok (filter (λ x, accepts filters x = true) (omap decoded vals), keys).

(** The loop of [ListProtoObjectsAdv]; the prefilter may keep a state. *)
Fixpoint list_adv {T D} `{ProtoCodec T} (preFilter : string → string → D → D * bool)
    (filters : list (T → bool)) (pairs : list (string * string)) (d : D) : D * list T :=
  match pairs with
  | [] => (d, [])
  | (key, val) :: pairs =>
      let '(d, keep) := preFilter key val d in
      let '(d', result) := list_adv preFilter filters pairs d in
      match keep, decoded val with
      | true, Some elem => (d', if accepts filters elem then elem :: result else result)
      | _, _ => (d', result)
      end
  end.

Definition ListProtoObjectsAdv {T D} `{ProtoCodec T} (kv : K) (prefix : string)
    (preFilter : string → string → D → D * bool) (filters : list (T → bool)) (d : D)
    : res (D * list T * list string) :=
  '(keys, vals) ← mk_LoadWithPrefix kv prefix false;
  if bool_decide (length keys ≠ length vals) then Err (Errorf "keys and vals of different size")
  else Ok (list_adv preFilter filters (zip keys vals) d, keys).

(** The [idx]-th decoded object is converted with the [idx]-th key of all the keys. *)
Fixpoint obj2models {T M} (convert : T → string → M) (filters : list (M → bool))
    (keys : list string) (infos : list T) (idx : Z) : res (list M) :=
  match infos with
  | [] => Ok []
  | info :: infos =>
      key ← go_index keys idx;
      let result := convert info key in
      rest ← obj2models convert filters keys infos (idx + 1);
      Ok (if accepts filters result then result :: rest else rest)
  end.

Definition ListObj2Models {T M} `{ProtoCodec T} (cli : K) (prefix : string)
    (convert : T → string → M) (filters : list (M → bool)) : res (list M) :=
  '(infos, keys) ← ListProtoObjects cli prefix [];
  obj2models convert filters keys infos 0.
End list.

(** ** The prefixes of [consts.go] and its neighbours *)
Definition RCPrefix := "root-coord".
Definition DBPrefix := "database".
Definition DBInfoPrefix := "db-info".
Definition CollectionPrefix := "collection".
Definition CollectionInfoPrefix := "collection-info".
Definition PartitionPrefix := "partitions".
Definition SnapshotPrefix := "snapshots".
Definition DCPrefix := "datacoord-meta".
Definition ChannelCheckpointPrefix := "channel-cp".
Definition ChannelWatchPrefix := "channelwatch".
Definition ChannelRemovalPrefix := "channel-removal".
Definition SegmentMetaPrefix := "s".
Definition SegmentStatsMetaPrefix := "statslog".
Definition CompactionTaskPrefix := "compaction-task".
Definition ReplicaPrefix := "querycoord-replica".
Definition PartitionLoadedPrefix := "querycoord-partition-loadinfo".
Definition ResourceGroupPrefix := "queryCoord-ResourceGroup/".
Definition IndexPrefix := "field-index".
Definition SegmentIndexPrefix := "segment-index".
Definition StatsTaskPrefix := "stats-task".
Definition AliasPrefixWithoutDB := "root-coord/aliases".
Definition AliasPrefixDB := "root-coord/database/alias".
Definition ImportJobPrefix := "datacoord-meta/import-job".
Definition PreImportTaskPrefix := "datacoord-meta/preimport-task".
Definition ImportTaskPrefix := "datacoord-meta/import-task".
Definition CollectionLoadPrefixV2 := "querycoord-collection-loadinfo".
Definition replicateConfiguration := "streamingcoord-meta/replicate-configuration".
Definition replicatePChannel := "streamingcoord-meta/replicating-pchannel/".
Definition userPrefix := "root-coord/credential/users".

(** ** The listings that name a prefix and a type *)
Section listings.
Context {K : Type} `{MetaKV K}.

(** [T] is the listed message. *)
Section of_message.
Context {T : Type} `{ProtoCodec T}.
Notation filters := (list (ProtoWrapper T → bool)).

Definition ListAlias (cli : K) (basePath version : string) (fs : filters)
    : res (list (ProtoWrapper T)) :=
  as1 ← ListObj2Models cli (path_Join [basePath; AliasPrefixWithoutDB]) NewProtoWrapper fs;
  as2 ← ListObj2Models cli (path_Join [basePath; AliasPrefixDB]) NewProtoWrapper fs;
  Ok (as1 ++ as2).

Definition ListImportJobs (cli : K) (basePath : string) (fs : filters) :=
  ListObj2Models cli (path_Join [basePath; ImportJobPrefix] +:+ "/") NewProtoWrapper fs.

Definition ListPreImportTasks (cli : K) (basePath : string) (fs : filters) :=
  ListObj2Models cli (path_Join [basePath; PreImportTaskPrefix] +:+ "/") NewProtoWrapper fs.

Definition ListImportTasks (cli : K) (basePath : string) (fs : filters) :=
  ListObj2Models cli (path_Join [basePath; ImportTaskPrefix] +:+ "/") NewProtoWrapper fs.

Definition ListChannelCheckpoint (cli : K) (basePath : string) (fs : filters) :=
  ListObj2Models cli (path_Join [basePath; DCPrefix; ChannelCheckpointPrefix] +:+ "/")
    NewProtoWrapper fs.

Definition ListChannelWatch (cli : K) (basePath : string) (fs : filters) :=
  ListObj2Models cli (path_Join [basePath; "channelwatch"] +:+ "/") NewProtoWrapper fs.

Definition ListCollectionLoadedInfo (cli : K) (basePath : string) (fs : filters) :=
  ListObj2Models cli (path_Join [basePath; CollectionLoadPrefixV2]) NewProtoWrapper fs.

Definition ListCompactionTask (cli : K) (basePath : string) (fs : filters) :=
  ListObj2Models cli (path_Join [basePath; DCPrefix; CompactionTaskPrefix] +:+ "/")
    NewProtoWrapper fs.

Definition ListDatabase (cli : K) (basePath : string) (fs : filters) :=
  ListObj2Models cli (path_Join [basePath; RCPrefix; DBPrefix; DBInfoPrefix] +:+ "/")
    NewProtoWrapper fs.

Definition ListIndex (cli : K) (basePath : string) (fs : filters) :=
  ListObj2Models cli (path_Join [basePath; IndexPrefix] +:+ "/") NewProtoWrapper fs.

Definition ListSegmentIndex (cli : K) (basePath : string) (fs : filters) :=
  ListObj2Models cli (path_Join [basePath; SegmentIndexPrefix] +:+ "/") NewProtoWrapper fs.

Definition ListCollectionPartitions (cli : K) (basePath : string) (collectionID : Z) :=
  ListObj2Models cli
    (path_Join [basePath; RCPrefix; PartitionPrefix; FormatInt collectionID] +:+ "/")
    (@NewProtoWrapper T) [].

Definition ListPartitions (cli : K) (basePath : string) (fs : filters) :=
  ListObj2Models cli (path_Join [basePath; RCPrefix; PartitionPrefix] +:+ "/") NewProtoWrapper fs.

Definition ListPartitionLoadedInfo (cli : K) (basePath : string) (fs : filters) :=
  ListObj2Models cli (path_Join [basePath; PartitionLoadedPrefix]) NewProtoWrapper fs.

Definition ListReplicas (cli : K) (basePath : string) (fs : filters) :=
  ListObj2Models cli (path_Join [basePath; ReplicaPrefix] +:+ "/") NewProtoWrapper fs.

Definition ListResourceGroups (cli : K) (basePath : string) (fs : filters) :=
  ListObj2Models cli (path_Join [basePath; ResourceGroupPrefix] +:+ "/") NewProtoWrapper fs.

Definition ListStatsTask (cli : K) (basePath : string) (fs : filters) :=
  ListObj2Models cli (path_Join [basePath; DCPrefix; StatsTaskPrefix] +:+ "/") NewProtoWrapper fs.

(** [metas[0]] panics for an empty listing. *)
Definition ListReplicateConfiguration (cli : K) (basePath : string) : res T :=
  '(metas, _) ← ListProtoObjects cli (path_Join [basePath; replicateConfiguration]) [];
  go_index metas 0.

Definition ListReplicatePChannel (cli : K) (basePath : string) : res (list T) :=
  '(metas, _) ← ListProtoObjects cli (path_Join [basePath; replicatePChannel] +:+ "/") [];
  Ok metas.
End of_message.

(** [UserInfo] pairs the credential with the key at its position. *)
Definition ListUsers {T} `{JsonCodec T} (cli : K) (basePath : string) : res (list (T * string)) :=
  '(infos, keys) ← ListJSONObjects cli (path_Join [basePath; userPrefix]) [];
  obj2models pair [] keys infos 0.

(** *** [config_etcd.go] *)
Definition ListEtcdConfigs (cli : K) (basePath : string) : res (list string * list string) :=
  mk_LoadWithPrefix cli (path_Join [basePath; "config"]) false.
Definition GetEtcdConfig (cli : K) (basePath key : string) : res string :=
  mk_Load cli (path_Join [basePath; "config"; key]) false.
Definition SetEtcdConfig (cli : K) (basePath key value : string) : K * res unit :=
  mk_Save cli (path_Join [basePath; "config"; key]) value.
Definition RemoveEtcdConfig (cli : K) (basePath key : string) : K * res unit :=
  mk_Remove cli (path_Join [basePath; "config"; key]).
End listings.

(** ** Stores without a root path

    [NewEtcdKV] and [NewTiKV] set no root path, so the keys the commands build are the
    keys of the store. *)
Section store.
Context {K : Type} `{MetaKVLaws K}.
Implicit Types (c : K).

Definition no_root c : Prop :=
  ∀ p, is_path p →
    mk_key c p = p ∧ mk_key c (p +:+ "/") = p +:+ "/" ∧ mk_dir c p = p +:+ "/"
    ∧ mk_dir c (p +:+ "/") = p +:+ "/" ∧ mk_walk c p = p ∧ mk_walk c (p +:+ "/") = p.

(** A reachable store without a root path. *)
Definition healthy c : Prop := mk_up c ∧ no_root c.

Lemma no_root_same c c' :
  mk_key c' = mk_key c → mk_dir c' = mk_dir c → mk_walk c' = mk_walk c → no_root c → no_root c'.
Proof. unfold no_root. by intros -> -> ->. Qed.

Lemma healthy_up c : healthy c → mk_up c.
Proof. by intros [? _]. Qed.

Lemma healthy_key c p : healthy c → is_path p → mk_key c p = p.
Proof. intros [_ Hr] Hp. apply (Hr p Hp). Qed.
Lemma healthy_key_dir c p : healthy c → is_path p → mk_key c (p +:+ "/") = p +:+ "/".
Proof. intros [_ Hr] Hp. apply (Hr p Hp). Qed.

Lemma healthy_walk c p : healthy c → is_path p → mk_walk c p = p ∧ mk_walk c (p +:+ "/") = p.
Proof. intros [_ Hr] Hp. apply (Hr p Hp). Qed.

Lemma healthy_Load c p : healthy c → is_path p →
  mk_Load c p false = match mk_map c !! p with Some v => Ok v | None => Err ErrKeyNotFound end.
Proof.
  intros Hc Hp. pose proof (healthy_key c p Hc Hp) as Hk.
  rewrite law_Load by (rewrite ?Hk; by apply healthy_up || apply is_path_nonempty). by rewrite Hk.
Qed.

Lemma healthy_Save c p v : healthy c → is_path p →
  ∃ c', mk_Save c p v = (c', Ok tt) ∧ healthy c' ∧ mk_map c' = <[p := v]> (mk_map c).
Proof.
  intros Hc Hp. pose proof (healthy_key c p Hc Hp) as Hk. destruct Hc as [Hup Hr].
  destruct (law_Save c p v Hup) as (c' & Hs & ? & Hk' & Hd' & Hw' & Hm).
  { rewrite Hk. by apply is_path_nonempty. }
  rewrite Hk in Hm. exists c'. repeat split; try done; by eapply no_root_same.
Qed.

Lemma healthy_Remove c p : healthy c → is_path p →
  ∃ c' r, mk_Remove c p = (c', r) ∧ healthy c' ∧ mk_map c' = delete p (mk_map c)
    ∧ (r = Ok tt ∨ r = Err ErrKeyNotFound) ∧ (is_Some (mk_map c !! p) → r = Ok tt).
Proof.
  intros Hc Hp. pose proof (healthy_key c p Hc Hp) as Hk. destruct Hc as [Hup Hr].
  destruct (law_Remove c p Hup) as (c' & r & Hs & ? & Hk' & Hd' & Hw' & ? & ? & Hm).
  { rewrite Hk. by apply is_path_nonempty. }
  rewrite Hk in *. exists c', r. repeat split; try done; by eapply no_root_same.
Qed.

Lemma healthy_RemoveWithPrefix c p : healthy c → is_path p →
  ∃ c', mk_RemoveWithPrefix c p = (c', Ok tt) ∧ healthy c'
    ∧ mk_map c' = filter (λ kv, HasPrefix kv.1 (p +:+ "/") = false) (mk_map c).
Proof.
  intros [Hup Hr] Hp. destruct (law_RemoveWithPrefix c p Hup) as (c' & Hs & ? & Hk' & Hd' & Hw' & Hm).
  destruct (Hr p Hp) as (_ & _ & Hd & _). rewrite Hd in Hm.
  exists c'. repeat split; try done; by eapply no_root_same.
Qed.
End store.

#[export] Hint Resolve healthy_up : go_path.

(** The etcd store that [NewEtcdKV] makes. *)
Lemma NewEtcdKV_healthy {St} `{EtcdLaws St} (client : St) :
  etcd_up client → healthy (NewEtcdKV client).
Proof.
  intros Hup. split; [exact Hup|]. intros p Hp.
  pose proof (is_path_end p Hp) as He. cbn [mk_key mk_dir mk_walk etcd_MetaKVLaws].
  assert (full_key (NewEtcdKV client) p = p) as Hk.
  { unfold full_key, joinPath. cbn [rootPath NewEtcdKV List.last].
    by rewrite He, path_Join_empty. }
  assert (full_key (NewEtcdKV client) (p +:+ "/") = p +:+ "/") as Hk'.
  { unfold full_key, joinPath. cbn [rootPath NewEtcdKV List.last].
    by rewrite HasSuffix_app, path_Join_empty_slash. }
  repeat split; try done; unfold dir_key.
  - by rewrite Hk, He.
  - by rewrite Hk', HasSuffix_app.
  - by apply path_Join_empty.
  - by apply path_Join_empty_slash.
Qed.

(** ** What a listing returns *)
Section list_properties.
Context {K : Type} `{MetaKVLaws K}.
Context {T : Type} `{ProtoCodec T}.
Implicit Types (c : K) (l : list (string * string)).

(** The pairs of a listing, and the objects it lists with their own keys. *)
Definition pairs_of c (prefix : string) : list (string * string) :=
  prefixed (mk_map c) (mk_key c prefix).

Definition own_models {M} (convert : T → string → M) l : list M :=
  omap (λ kv, x ← decoded kv.2; Some (convert x kv.1)) l.

Definition decodable l : Prop := Forall (λ kv, is_Some (decoded (T:=T) kv.2)) l.

Lemma ListProtoObjects_up c prefix (fs : list (T → bool)) :
  mk_up c → ListProtoObjects c prefix fs
  = Ok (filter (λ x, accepts fs x = true) (omap decoded (map snd (pairs_of c prefix))),
        map fst (pairs_of c prefix)).
Proof.
  intros Hup. unfold ListProtoObjects. rewrite law_LoadWithPrefix by done. cbn [mbind res_bind].
  fold (pairs_of c prefix). rewrite bool_decide_false; [done|]. rewrite !length_map. tauto.
Qed.

Lemma obj2models_zip {M} (convert : T → string → M) fs keys infos (n : nat) :
  (length infos + n ≤ length keys)%nat →
  obj2models convert fs keys infos (Z.of_nat n)
  = Ok (filter (λ x, accepts fs x = true) (zip_with convert infos (drop n keys))).
Proof.
  revert n. induction infos as [|info infos IH]; intros n Hn; [done|]. cbn [obj2models length] in *.
  destruct (lookup_lt_is_Some_2 keys n) as [key Hk]; [lia|].
  assert (go_index keys (Z.of_nat n) = Ok key) as ->.
  { apply go_index_Ok. split; [lia|]. by rewrite Nat2Z.id. }
  cbn [mbind res_bind]. replace (Z.of_nat n + 1) with (Z.of_nat (S n)) by lia.
  rewrite IH by lia. cbn [mbind res_bind]. rewrite (drop_S _ _ _ Hk). cbn [zip_with].
  rewrite filter_cons. by destruct (accepts fs _).
Qed.

Lemma length_omap_le {A B} (f : A → option B) (l : list A) : (length (omap f l) ≤ length l)%nat.
Proof. induction l as [|a l IH]; simpl; [done|]. unfold omap in *; destruct (f a); simpl; lia. Qed.

Lemma ListObj2Models_up {M} c prefix (convert : T → string → M) fs :
  mk_up c → ListObj2Models c prefix convert fs
  = Ok (filter (λ x, accepts fs x = true)
          (zip_with convert (omap decoded (map snd (pairs_of c prefix)))
             (map fst (pairs_of c prefix)))).
Proof.
  intros Hup. unfold ListObj2Models. rewrite ListProtoObjects_up by done. cbn [mbind res_bind].
  rewrite (filter_all _ (omap _ _)) by (by apply list.Forall_true).
  rewrite (obj2models_zip convert fs _ _ 0); [done|]. rewrite length_map.
  etrans; [apply Nat.add_le_mono_r, length_omap_le|]. rewrite length_map. lia.
Qed.

Lemma zip_own {M} (convert : T → string → M) l :
  decodable l → zip_with convert (omap decoded (map snd l)) (map fst l) = own_models convert l.
Proof.
  induction l as [|[k v] l IH]; [done|]. intros [[x Hx] Hl]%list.Forall_cons. simpl in *.
  rewrite Hx. simpl. f_equal. by apply IH.
Qed.

(** Every object is listed with its own key when all values decode. *)
Lemma ListObj2Models_own {M} c prefix (convert : T → string → M) fs :
  mk_up c → decodable (pairs_of c prefix) →
  ListObj2Models c prefix convert fs
  = Ok (filter (λ x, accepts fs x = true) (own_models convert (pairs_of c prefix))).
Proof. intros Hup Hd. rewrite ListObj2Models_up by done. by rewrite zip_own. Qed.

Lemma zip_shifted {M} (convert : T → string → M) l1 k v k' v' x l2 :
  decodable l1 → decoded (T:=T) v = None → decoded v' = Some x →
  zip_with convert (omap decoded (map snd (l1 ++ (k, v) :: (k', v') :: l2)))
    (map fst (l1 ++ (k, v) :: (k', v') :: l2)) !! length l1 = Some (convert x k).
Proof.
  intros Hl1 Hv Hv'. induction l1 as [|[k0 v0] l1 IH].
  - simpl. by rewrite Hv, Hv'.
  - apply list.Forall_cons in Hl1 as [[y Hy] Hl1]. simpl in *. rewrite Hy. simpl. auto.
Qed.
End list_properties.

(** Over a reachable store, a listing returns, in the order of their
    keys, the objects that the values below the prefix encode and that pass all filters;
    it skips what does not decode, and when everything decodes each object comes with
    its own key. *)
Theorem ListObj2Models_spec {K T M} `{MetaKVLaws K} `{ProtoCodec T} (c : K) prefix
    (convert : T → string → M) fs :
  mk_up c →
  let l := prefixed (mk_map c) (mk_key c prefix) in
  ListProtoObjects c prefix []
    = Ok (omap (λ kv, decoded kv.2) l, map fst l)
  ∧ (Forall (λ kv, is_Some (decoded (T:=T) kv.2)) l →
     ListObj2Models c prefix convert fs
     = Ok (filter (λ m, accepts fs m = true)
             (omap (λ kv, x ← decoded kv.2; Some (convert x kv.1)) l))).
Proof.
  intros Hup l. split.
  - rewrite ListProtoObjects_up by done. fold (pairs_of c prefix) in l. fold l.
    rewrite filter_all by (by apply list.Forall_true). do 2 f_equal. clear.
    induction l as [|[k v] l IH]; [done|]. simpl. destruct (decoded v); [f_equal|]; exact IH.
  - apply ListObj2Models_own. done.
Qed.

(** One value that does not decode, such as the tombstone of a dropped
    collection, shifts the keys: the next object is listed with the key of the broken
    pair, and not with its own. *)
Theorem ListObj2Models_shifted {K T M} `{MetaKVLaws K} `{ProtoCodec T} (c : K) prefix
    (convert : T → string → M) l1 k v k' v' x l2 :
  mk_up c →
  prefixed (mk_map c) (mk_key c prefix) = l1 ++ (k, v) :: (k', v') :: l2 →
  Forall (λ kv, is_Some (decoded (T:=T) kv.2)) l1 →
  decoded (T:=T) v = None → decoded v' = Some x →
  ∃ ms, ListObj2Models c prefix convert [] = Ok ms ∧ ms !! length l1 = Some (convert x k)
    ∧ k ≠ k'.
Proof.
  intros Hup Hl Hl1 Hv Hv'. eexists. split; [by apply ListObj2Models_up|].
  rewrite filter_all by (by apply list.Forall_true). unfold pairs_of. rewrite Hl.
  split; [by apply zip_shifted|].
  assert (StronglySorted kv_lt (l1 ++ (k, v) :: (k', v') :: l2)) as Hs.
  { rewrite <-Hl. apply StronglySorted_filter, sorted_kvs_sorted. }
  apply sorted_split in Hs as [_ [Hk _]%list.Forall_cons]. by apply klt_ne in Hk.
Qed.

(** ** Examples of encodings *)

(** The encoding of finitely many messages. *)
Definition table_codec {T} `{EqDecision T} (tbl : list (string * T)) : ProtoCodec T := {|
  proto_Marshal x := match List.find (λ p, bool_decide (p.2 = x)) tbl with
                     | Some p => Ok (bytes_of_string p.1)
                     | None => Err (Errorf "invalid UTF-8")
                     end;
  proto_Unmarshal bs := match List.find (λ p, bool_decide (bytes_of_string p.1 = bs)) tbl with
                        | Some p => Ok p.2
                        | None => Err (Errorf "cannot parse invalid wire-format data")
                        end;
|}.

Lemma table_codec_laws {T} `{EqDecision T} (tbl : list (string * T)) :
  NoDup (map fst tbl) → @ProtoLaws T (table_codec tbl).
Proof.
  intros Hnd. constructor. intros x bs. cbn [proto_Marshal proto_Unmarshal table_codec].
  destruct (List.find _ tbl) as [[k y]|] eqn:Hf; [|done]. intros [= <-].
  apply find_some in Hf as [Hin Hy%bool_decide_eq_true]. simpl in *. subst y.
  induction tbl as [|[k' y] tbl IH]; [done|]. simpl in *. apply list.NoDup_cons in Hnd as [Hn Hnd].
  case_bool_decide as Hk.
  - apply (inj bytes_of_string) in Hk as ->. destruct Hin as [[= ->]|Hin]; [done|].
    destruct Hn. apply list_elem_of_fmap. exists (k, x). split; [done|].
    by apply list_elem_of_In.
  - apply IH; [done|]. by destruct Hin as [[= -> ->]|Hin].
Qed.

Definition sample_numbers : list (string * Z) := [("n1", 1); ("n2", 2); ("n3", 3)].
#[local] Instance sample_number_codec : ProtoCodec Z := table_codec sample_numbers.

Definition sample_store : etcdKV (gmap string string) :=
  NewEtcdKV {["r/a" := "n1"; "r/b" := "?"; "r/c" := "n3"; "s/d" := "n2"; "t/e" := "n1"]}.

Lemma ListObj2Models_spec_witness :
  ListObj2Models sample_store "s/" (@NewProtoWrapper Z) []
  = Ok [NewProtoWrapper 2 "s/d"].
Proof.
  destruct (ListObj2Models_spec sample_store "s/" (@NewProtoWrapper Z) []) as [_ Hm]; [exact I|].
  etrans; [apply Hm|vm_compute; reflexivity].
  apply (bool_decide_unpack _). vm_compute. exact I.
Defined.

Lemma ListObj2Models_shifted_witness :
  ∃ ms, ListObj2Models sample_store "r/" (@NewProtoWrapper Z) [] = Ok ms
    ∧ ms !! 1%nat = Some (NewProtoWrapper 3 "r/b").
Proof.
  destruct (ListObj2Models_shifted sample_store "r/" (@NewProtoWrapper Z)
              [("r/a", "n1")] "r/b" "?" "r/c" "n3" 3 []) as (ms & Hm & Hk & _).
  - exact I.
  - vm_compute. reflexivity.
  - apply (bool_decide_unpack _). vm_compute. exact I.
  - vm_compute. reflexivity.
  - vm_compute. reflexivity.
  - exists ms. split; [exact Hm|exact Hk].
Defined.
