(* ===== verification/Segments.v ===== *)
(** * Segment metadata

    Models [models/segment.go] and [states/etcd/common/segment.go]: the segments of the
    metadata store with their binlogs, which are loaded when they are first asked for,
    and how segments are listed, filled, removed, updated and walked. *)

From S2P Require Export Listing.

(** ** The messages

    The fields of [datapb.SegmentInfo] and its parts that the program reads or writes;
    [si_rest] stands for the others. *)
Record MsgPosition := MsgPos {
  mp_ChannelName : string;
  mp_MsgID : list byte;
  mp_Timestamp : Z;
}.

Record PbBinlog := MkPbBinlog {
  pb_EntriesNum : Z;
  pb_TimestampFrom : Z;
  pb_TimestampTo : Z;
  pb_LogPath : string;
  pb_LogSize : Z;
  pb_LogID : Z;
  pb_MemorySize : Z;
}.

Record PbFieldBinlog := MkPbFieldBinlog {
  pfb_FieldID : Z;
  pfb_Binlogs : list PbBinlog;
  pfb_ChildFields : list Z;
}.

Record SegmentInfo := MkSegmentInfo {
  si_ID : Z;
  si_CollectionID : Z;
  si_PartitionID : Z;
  si_InsertChannel : string;
  si_NumOfRows : Z;
  si_State : Z;
  si_StartPosition : option MsgPosition;
  si_DmlPosition : option MsgPosition;
  si_Binlogs : list PbFieldBinlog;
  si_Statslogs : list PbFieldBinlog;
  si_Deltalogs : list PbFieldBinlog;
  si_rest : string;
}.

#[export] Instance MsgPosition_eq_dec : EqDecision MsgPosition.
Proof. solve_decision. Defined.
#[export] Instance PbBinlog_eq_dec : EqDecision PbBinlog.
Proof. solve_decision. Defined.
#[export] Instance PbFieldBinlog_eq_dec : EqDecision PbFieldBinlog.
Proof. solve_decision. Defined.
#[export] Instance SegmentInfo_eq_dec : EqDecision SegmentInfo.
Proof. solve_decision. Defined.

(** [commonpb.SegmentState]. *)
Definition SegmentState_Growing : Z := 2.
Definition SegmentState_Sealed : Z := 3.
Definition SegmentState_Flushed : Z := 4.
Definition SegmentState_Flushing : Z := 5.
Definition SegmentState_Dropped : Z := 6.
Definition SegmentState_Importing : Z := 7.

Definition with_Binlogs (s : SegmentInfo) (l : list PbFieldBinlog) : SegmentInfo :=
  MkSegmentInfo (si_ID s) (si_CollectionID s) (si_PartitionID s) (si_InsertChannel s)
    (si_NumOfRows s) (si_State s) (si_StartPosition s) (si_DmlPosition s) l (si_Statslogs s)
    (si_Deltalogs s) (si_rest s).
Definition with_Statslogs (s : SegmentInfo) (l : list PbFieldBinlog) : SegmentInfo :=
  MkSegmentInfo (si_ID s) (si_CollectionID s) (si_PartitionID s) (si_InsertChannel s)
    (si_NumOfRows s) (si_State s) (si_StartPosition s) (si_DmlPosition s) (si_Binlogs s) l
    (si_Deltalogs s) (si_rest s).
Definition with_Deltalogs (s : SegmentInfo) (l : list PbFieldBinlog) : SegmentInfo :=
  MkSegmentInfo (si_ID s) (si_CollectionID s) (si_PartitionID s) (si_InsertChannel s)
    (si_NumOfRows s) (si_State s) (si_StartPosition s) (si_DmlPosition s) (si_Binlogs s)
    (si_Statslogs s) l (si_rest s).

(** [fmt.Sprintf("%d/%d/...", ids...)]. *)
Definition ids_path (ids : list Z) : string := joined (map FormatInt ids).

(** ** [models.Segment] *)
Record Binlog := MkBinlog {
  bl_EntriesNum : Z;
  bl_TimestampFrom : Z;
  bl_TimestampTo : Z;
  bl_LogPath : string;
  bl_LogSize : Z;
  bl_LogID : Z;
  bl_MemSize : Z;
}.

Record ModelFieldBinlog := MkFieldBinlog {
  mfb_FieldID : Z;
  mfb_Binlogs : list Binlog;
  mfb_ChildFields : list Z;
}.

Definition newBinlogV2 (b : PbBinlog) : Binlog :=
  MkBinlog (pb_EntriesNum b) (pb_TimestampFrom b) (pb_TimestampTo b) (pb_LogPath b)
    (pb_LogSize b) (pb_LogID b) (pb_MemorySize b).

(** What the lazy function of a segment loads, from the store as it is then. *)
Definition Logs : Type := list PbFieldBinlog * list PbFieldBinlog * list PbFieldBinlog.

Record ModelSegment (K : Type) := MkSegment {
  sg_info : SegmentInfo;
  sg_binlogs : list ModelFieldBinlog;
  sg_statslogs : list ModelFieldBinlog;
  sg_deltalogs : list ModelFieldBinlog;
  sg_key : string;
  sg_loaded : bool;                    (* [loadOnce] has run *)
  sg_lazy : K → res Logs;
}.
Arguments MkSegment {K}.
Arguments sg_info {K} _.
Arguments sg_binlogs {K} _.
Arguments sg_statslogs {K} _.
Arguments sg_deltalogs {K} _.
Arguments sg_key {K} _.
Arguments sg_loaded {K} _.
Arguments sg_lazy {K} _ _.

Definition NewSegment {K} (segment : SegmentInfo) (key : string) (lazy : K → res Logs)
    : ModelSegment K :=
  MkSegment segment [] [] [] key false lazy.

(** [mFunc] of the lazy load. *)
Definition convertFieldBinlog (fbl : PbFieldBinlog) : ModelFieldBinlog :=
  MkFieldBinlog (pfb_FieldID fbl) (map newBinlogV2 (pfb_Binlogs fbl)) (pfb_ChildFields fbl).

(** [s.loadOnce.Do(...)]: a failed load is not tried again. *)
Definition load_once {K} (cli : K) (s : ModelSegment K) : ModelSegment K :=
  if sg_loaded s then s
  else match sg_lazy s cli with
       | Ok (binlogs, statslogs, deltalogs) =>
           MkSegment (sg_info s) (map convertFieldBinlog binlogs) (map convertFieldBinlog statslogs)
             (map convertFieldBinlog deltalogs) (sg_key s) true (sg_lazy s)
       | _ =>
           MkSegment (sg_info s) (sg_binlogs s) (sg_statslogs s) (sg_deltalogs s) (sg_key s) true
             (sg_lazy s)
       end.

Definition GetBinlogs {K} (cli : K) (s : ModelSegment K) : ModelSegment K * list ModelFieldBinlog :=
  let s := load_once cli s in (s, sg_binlogs s).
Definition GetStatslogs {K} (cli : K) (s : ModelSegment K) : ModelSegment K * list ModelFieldBinlog :=
  let s := load_once cli s in (s, sg_statslogs s).
Definition GetDeltalogs {K} (cli : K) (s : ModelSegment K) : ModelSegment K * list ModelFieldBinlog :=
  let s := load_once cli s in (s, sg_deltalogs s).

Definition GetTimestamp (pos : option MsgPosition) : Z :=
  match pos with Some p => mp_Timestamp p | None => 0 end.

(** ** [common/segment.go] *)
Definition ErrReachMaxNumOfWalkSegment : goerr := Errorf "reach max number of the walked segments".

Section segments.
Context {K : Type} `{MetaKV K} `{ProtoCodec SegmentInfo} `{ProtoCodec PbFieldBinlog}.

(** [f] of the lazy function, with the path that it gives each log. *)
Definition load_logs (cli : K) (prefix : string) (pb : Z → Z → string) : res (list PbFieldBinlog) :=
  '(fields, _) ← ListProtoObjects cli prefix [];
  Ok (map (λ field,
    MkPbFieldBinlog (pfb_FieldID field)
      (map (λ b, MkPbBinlog (pb_EntriesNum b) (pb_TimestampFrom b) (pb_TimestampTo b)
                   (pb (pfb_FieldID field) (pb_LogID b)) (pb_LogSize b) (pb_LogID b)
                   (pb_MemorySize b)) (pfb_Binlogs field))
      (pfb_ChildFields field)) fields).

Definition segment_ids (s : SegmentInfo) : list Z := [si_CollectionID s; si_PartitionID s; si_ID s].

Definition getSegmentLazyFunc (basePath : string) (s : SegmentInfo) (cli : K) : res Logs :=
  let ids := segment_ids s in
  let prefix kind := path_Join [basePath; "datacoord-meta"; kind +:+ "/" +:+ ids_path ids] in
  binlogs ← load_logs cli (prefix "binlog")
    (λ fieldID logID, "ROOT_PATH/insert_log/" +:+ ids_path (ids ++ [fieldID; logID]));
  statslogs ← load_logs cli (prefix "statslog")
    (λ fieldID logID, "ROOT_PATH/stats_log/" +:+ ids_path (ids ++ [fieldID; logID]));
  deltalogs ← load_logs cli (prefix "deltalog")
    (λ _ logID, "ROOT_PATH/delta_log/" +:+ ids_path (ids ++ [logID]));
  Ok (binlogs, statslogs, deltalogs).

Definition ListSegments (cli : K) (basePath : string) (filters : list (ModelSegment K → bool))
    : res (list (ModelSegment K)) :=
  ListObj2Models cli (path_Join [basePath; DCPrefix; SegmentMetaPrefix] +:+ "/")
    (λ info key, NewSegment info key (getSegmentLazyFunc basePath info)) filters.

(** One of the three blocks of [FillFieldsIfV2]; a missing log path is made from the
    field and log identifiers. *)
Definition fill_logs (cli : K) (prefix : string) (log_path : Z → Z → string)
    : res (list PbFieldBinlog) :=
  '(fields, _) ← ListProtoObjects cli prefix [];
  Ok (map (λ field : PbFieldBinlog,
    MkPbFieldBinlog (pfb_FieldID field)
      (map (λ b, MkPbBinlog (pb_EntriesNum b) (pb_TimestampFrom b) (pb_TimestampTo b)
                   (if bool_decide (pb_LogPath b = "") then log_path (pfb_FieldID field) (pb_LogID b)
                    else pb_LogPath b) (pb_LogSize b) 0 0) (pfb_Binlogs field))
      []) fields).

(** The segment is filled in place: what was filled before a failure stays. *)
Definition fill_if_empty (cli : K) (basePath kind : string) (log_path : Z → Z → string)
    (logs : SegmentInfo → list PbFieldBinlog) (set : SegmentInfo → list PbFieldBinlog → SegmentInfo)
    (s : SegmentInfo) : SegmentInfo * res unit :=
  if bool_decide (zlen (logs s) = 0) then
    match fill_logs cli (path_Join [basePath; "datacoord-meta";
                           kind +:+ "/" +:+ ids_path (segment_ids s)]) log_path with
    | Ok l => (set s l, Ok tt)
    | Err e => (s, Err e)
    | Panic w => (s, Panic w)
    end
  else (s, Ok tt).

Definition FillFieldsIfV2 (cli : K) (basePath : string) (s : SegmentInfo) : SegmentInfo * res unit :=
  let ids := segment_ids s in
  let '(s, err) := fill_if_empty cli basePath "binlog"
    (λ fieldID logID, "files/insert_log/" +:+ ids_path (ids ++ [fieldID; logID]))
    si_Binlogs with_Binlogs s in
  match err with
  | Ok _ =>
      let '(s, err) := fill_if_empty cli basePath "deltalog"
        (λ _ logID, "files/delta_log/" +:+ ids_path (ids ++ [logID])) si_Deltalogs with_Deltalogs s in
      match err with
      | Ok _ =>
          fill_if_empty cli basePath "statslog"
            (λ _ logID, "files/statslog/" +:+ ids_path (ids ++ [logID])) si_Statslogs with_Statslogs s
      | err => (s, err)
      end
  | err => (s, err)
  end.

(** [RemoveSegmentByID]: only the error of the first and of the last call is returned. *)
Definition RemoveSegmentByID (cli : K) (basePath : string) (collectionID partitionID segmentID : Z)
    : K * res unit :=
  let key kind := path_Join [basePath; "datacoord-meta/" +:+ kind;
                             ids_path [collectionID; partitionID; segmentID]] in
  let '(cli, err) := mk_Remove cli (key "s") in
  match err with
  | Ok _ =>
      let '(cli, err) := mk_Remove cli (key "binlog") in
      match err with
      | Panic w => (cli, Panic w)
      | _ =>
          let '(cli, err) := mk_Remove cli (key "deltalog") in
          match err with
          | Panic w => (cli, Panic w)
          | _ => mk_Remove cli (key "statslog")
          end
      end
  | err => (cli, err)
  end.

Definition RemoveSegment (cli : K) (basePath : string) (info : SegmentInfo) : K * res unit :=
  RemoveSegmentByID cli basePath (si_CollectionID info) (si_PartitionID info) (si_ID info).

Definition RemoveSegmentInsertLogPath (cli : K) (basePath : string)
    (collectionID partitionID segmentID fieldID logID : Z) : K * res unit :=
  mk_Remove cli (path_Join [basePath; "datacoord-meta"; "insert_log";
                            ids_path [collectionID; partitionID; segmentID; fieldID; logID]]).
Definition RemoveSegmentDeltaLogPath (cli : K) (basePath : string)
    (collectionID partitionID segmentID logID : Z) : K * res unit :=
  mk_Remove cli (path_Join [basePath; "datacoord-meta"; "delta_log";
                            ids_path [collectionID; partitionID; segmentID; logID]]).
Definition RemoveSegmentStatLogPath (cli : K) (basePath : string)
    (collectionID partitionID segmentID fieldID logID : Z) : K * res unit :=
  mk_Remove cli (path_Join [basePath; "datacoord-meta"; "stats_log";
                            ids_path [collectionID; partitionID; segmentID; fieldID; logID]]).

(** The loop of [UpdateSegments]: the [idx]-th decoded segment is saved under the
    [idx]-th key. *)
Fixpoint update_segments (cli : K) (fn : SegmentInfo → SegmentInfo) (keys : list string)
    (segments : list SegmentInfo) (idx : Z) : K * res unit :=
  match segments with
  | [] => (cli, Ok tt)
  | info :: segments =>
      match encoded (fn info), go_index keys idx with
      | Err e, _ => (cli, Err e)
      | Panic w, _ | _, Panic w => (cli, Panic w)
      | _, Err e => (cli, Err e)
      | Ok bs, Ok key =>
          let '(cli, err) := mk_Save cli key bs in
          match err with
          | Ok _ => update_segments cli fn keys segments (idx + 1)
          | err => (cli, err)
          end
      end
  end.

Definition UpdateSegments (cli : K) (basePath : string) (collectionID : Z)
    (fn : SegmentInfo → SegmentInfo) : K * res unit :=
  let prefix := path_Join [basePath; SegmentMetaPrefix +:+ "/" +:+ FormatInt collectionID] +:+ "/" in
  match ListProtoObjects cli prefix [] with
  | Ok (segments, keys) => update_segments cli fn keys segments 0
  | Err e => (cli, Err e)
  | Panic w => (cli, Panic w)
  end.

(** The callback of [WalkAllSegments]; [op] has a state, in which [get] finds the store. *)
Definition walk_segment {T} (filter : option (SegmentInfo → bool))
    (op : SegmentInfo → T → T * res unit) (limit : Z) (k v : string) (st : T * Z)
    : (T * Z) * res unit :=
  let '(t, cnt) := st in
  match proto_Unmarshal (bytes_of_string v) with
  | Err e => (st, Err e)
  | Panic w => (st, Panic w)
  | Ok info =>
      if match filter with None => true | Some f => f info end then
        let '(t, err) := op info t in
        match err with
        | Ok _ =>
            let cnt := int64 (cnt + 1) in
            ((t, cnt), if bool_decide (limit <= cnt) then Err ErrReachMaxNumOfWalkSegment else Ok tt)
        | err => ((t, cnt), err)
        end
      else (st, Ok tt)
  end.

Definition WalkAllSegments {T} (fuel : nat) (get : T → K) (basePath : string)
    (filter : option (SegmentInfo → bool)) (op : SegmentInfo → T → T * res unit) (limit : Z) (t : T)
    : option (T * res unit) :=
  '((t, _), err) ← mk_WalkWithPrefix (T * Z) fuel (λ st, get st.1)
    (path_Join [basePath; SegmentMetaPrefix] +:+ "/") 1000 (walk_segment filter op limit) (t, 0);
  Some (t, err).
End segments.

(** ** Facts about the keys *)
Lemma ids_path_is_path ids : ids ≠ [] → is_path (ids_path ids).
Proof.
  intros Hne. apply joined_is_path; [by destruct ids|]. apply List.Forall_map.
  apply list.Forall_true. apply FormatInt_is_path.
Qed.

Lemma Split_ids_path ids : ids ≠ [] → Split "/" (ids_path ids) = map FormatInt ids.
Proof.
  intros Hne. unfold ids_path. rewrite Split_joined by (by destruct ids). clear Hne.
  induction ids as [|i ids IH]; [done|]. simpl. rewrite IH. by destruct (FormatInt_elem i) as [_ ->].
Qed.

(** The key of a kind of record of a segment. *)
Definition seg_key (base kind : string) (ids : list Z) : string :=
  joined [base; "datacoord-meta/" +:+ kind; ids_path ids].

Definition seg_kind (kind : string) : Prop := kind ∈ ["s"; "binlog"; "deltalog"; "statslog"].

Lemma seg_kind_path kind : seg_kind kind → is_path ("datacoord-meta/" +:+ kind).
Proof.
  unfold seg_kind. intros Hk.
  repeat (apply elem_of_cons in Hk as [->|Hk]; [is_path_dec|]). by apply not_elem_of_nil in Hk.
Qed.

Lemma seg_key_join base kind ids :
  is_path base → seg_kind kind → ids ≠ [] →
  path_Join [base; "datacoord-meta/" +:+ kind; ids_path ids] = seg_key base kind ids
  ∧ is_path (seg_key base kind ids).
Proof.
  intros Hb Hk Hi. assert (Forall is_path [base; "datacoord-meta/" +:+ kind; ids_path ids]).
  { each_path; [by apply seg_kind_path|by apply ids_path_is_path]. }
  split; [by apply path_Join_joined|by apply joined_is_path].
Qed.

Lemma Split_seg_key base kind ids :
  seg_kind kind → ids ≠ [] →
  Split "/" (seg_key base kind ids) = Split "/" base ++ ["datacoord-meta"; kind] ++ map FormatInt ids.
Proof.
  intros Hk Hi. unfold seg_key. rewrite Split_joined by done. simpl.
  rewrite Split_ids_path, app_nil_r by done. do 2 f_equal. unfold seg_kind in Hk.
  repeat (apply elem_of_cons in Hk as [->|Hk]; [reflexivity|]). by apply not_elem_of_nil in Hk.
Qed.

Lemma length_seg_key base kind ids :
  seg_kind kind → ids ≠ [] →
  length (Split "/" (seg_key base kind ids)) = (length (Split "/" base) + 2 + length ids)%nat.
Proof.
  intros. rewrite Split_seg_key by done. rewrite length_app. simpl. rewrite length_map. lia.
Qed.

(** ** Removing segments *)
Section segment_properties.
Context {K : Type} `{MetaKVLaws K} `{ProtoCodec SegmentInfo} `{ProtoCodec PbFieldBinlog}.
Implicit Types (c : K) (m : gmap string string).

Definition without_segment (base : string) (ids : list Z) m : gmap string string :=
  delete (seg_key base "statslog" ids) (delete (seg_key base "deltalog" ids)
    (delete (seg_key base "binlog" ids) (delete (seg_key base "s" ids) m))).

Lemma without_segment_other base ids m k :
  (∀ kind, seg_kind kind → k ≠ seg_key base kind ids) → without_segment base ids m !! k = m !! k.
Proof.
  intros Hk. unfold without_segment.
  rewrite !lookup_delete_ne; [done|..]; intros E; symmetry in E; revert E; apply Hk; unfold seg_kind;
    set_solver.
Qed.

Lemma RemoveSegmentByID_up c base cid pid sid :
  healthy c → is_path base →
  let ids := [cid; pid; sid] in
  ∃ c' r, RemoveSegmentByID c base cid pid sid = (c', r) ∧ healthy c'
    ∧ (r = Ok tt ∨ r = Err ErrKeyNotFound)
    ∧ (mk_map c' = without_segment base ids (mk_map c)
       ∨ mk_map c' = mk_map c ∧ mk_map c !! seg_key base "s" ids = None).
Proof.
  intros Hc Hb ids. assert (ids ≠ []) as Hi by done. unfold RemoveSegmentByID.
  cbv beta zeta. change [cid; pid; sid] with ids.
  assert (∀ kind, seg_kind kind →
    path_Join [base; "datacoord-meta/" +:+ kind; ids_path ids] = seg_key base kind ids
    ∧ is_path (seg_key base kind ids)) as Hkey by (intros; by apply seg_key_join).
  destruct (Hkey "s") as [-> Hp1]; [unfold seg_kind; set_solver|].
  destruct (Hkey "binlog") as [-> Hp2]; [unfold seg_kind; set_solver|].
  destruct (Hkey "deltalog") as [-> Hp3]; [unfold seg_kind; set_solver|].
  destruct (Hkey "statslog") as [-> Hp4]; [unfold seg_kind; set_solver|].
  destruct (healthy_Remove c _ Hc Hp1) as (c1 & r1 & -> & Hc1 & Hm1 & Hr1 & Hs1).
  destruct Hr1 as [->| ->].
  2: { exists c1, (Err ErrKeyNotFound). split_and!; [done..|by right|].
       destruct (mk_map c !! seg_key base "s" ids) eqn:E; [by discriminate Hs1; eauto|].
       right. rewrite Hm1. split; [by apply delete_id|done]. }
  destruct (healthy_Remove c1 _ Hc1 Hp2) as (c2 & r2 & -> & Hc2 & Hm2 & Hr2 & _).
  destruct (healthy_Remove c2 _ Hc2 Hp3) as (c3 & r3 & E3 & Hc3 & Hm3 & Hr3 & _).
  destruct (healthy_Remove c3 _ Hc3 Hp4) as (c4 & r4 & E4 & Hc4 & Hm4 & Hr4 & _).
  exists c4, r4. unfold without_segment. rewrite Hm4, Hm3, Hm2, Hm1.
  destruct Hr2 as [->| ->]; rewrite E3; destruct Hr3 as [->| ->]; rewrite E4; auto.
Qed.

(** A key with another number of elements is none of the segment's keys. *)
Lemma seg_key_depth base kind kind' ids k :
  seg_kind kind → seg_kind kind' → ids ≠ [] →
  HasPrefix k (seg_key base kind ids +:+ "/") = true → k ≠ seg_key base kind' ids.
Proof.
  intros Hk Hk' Hi (rest & Hs & Hr)%HasPrefix_dir_Split ->.
  apply (f_equal length) in Hs. rewrite length_app, !length_seg_key in Hs by done.
  destruct rest; simpl in *; [done|lia].
Qed.

(** On a store without a root path that has the segment, [RemoveSegment]
    deletes the record of the segment and, if there, three keys that end in the
    segment's identifier, and nothing else.  The binlogs, delta logs and stats logs of
    the segment's fields, whose keys continue with a field identifier, all stay. *)
Theorem RemoveSegment_spec c base info :
  healthy c → is_path base →
  let ids := [si_CollectionID info; si_PartitionID info; si_ID info] in
  is_Some (mk_map c !! seg_key base "s" ids) →
  ∃ c' r, RemoveSegment c base info = (c', r) ∧ healthy c'
    ∧ mk_map c' = without_segment base ids (mk_map c)
    ∧ mk_map c' !! seg_key base "s" ids = None
    ∧ ∀ kind k, kind ∈ ["binlog"; "deltalog"; "statslog"] →
        HasPrefix k (seg_key base kind ids +:+ "/") = true → mk_map c' !! k = mk_map c !! k.
Proof.
  intros Hc Hb ids [v Hv]. unfold RemoveSegment.
  destruct (RemoveSegmentByID_up c base (si_CollectionID info) (si_PartitionID info) (si_ID info) Hc Hb)
    as (c' & r & Hr & Hc' & _ & [Hm|[_ Hn]]).
  2: { fold ids in Hn. congruence. }
  exists c', r. split_and!; [done..| |].
  - rewrite Hm. unfold without_segment.
    do 3 (apply lookup_delete_None; right). apply lookup_delete_None. by left.
  - intros kind k Hk Hp. rewrite Hm. apply without_segment_other. intros kind' Hk'.
    eapply seg_key_depth; [| |done|exact Hp]; [unfold seg_kind; set_solver|done].
Qed.

(** ** Walking and updating *)

(** The path that the segment listing uses, and the one that walks and updates use. *)
Lemma walk_prefix base : is_path base → path_Join [base; SegmentMetaPrefix] = joined [base; "s"].
Proof. intros Hb. apply path_Join_joined; [done|]. each_path. Qed.

(** [WalkAllSegments] walks over the keys that start with the base path, a slash and an
    [s], and not over the directory of the segments: it calls the operation for no segment
    of a store without keys of the first kind. *)
Lemma WalkAllSegments_misses {T} fuel (get : T → K) base filter op limit t :
  healthy (get t) → is_path base →
  map_Forall (λ k _, HasPrefix k (joined [base; "s"]) = false) (mk_map (get t)) →
  (size (mk_map (get t)) < fuel)%nat →
  WalkAllSegments fuel get base filter op limit t = Some (t, Ok tt).
Proof.
  intros Hc Hb Hno Hf. unfold WalkAllSegments. rewrite walk_prefix by done.
  assert (is_path (joined [base; "s"])) as Hp by (apply joined_is_path; [done|each_path]).
  destruct (healthy_walk _ _ Hc Hp) as [_ Hw].
  rewrite (law_WalkWithPrefix _ _ _ _ _ (λ st, st = (t, 0))); [|..|done].
  - cbn [fst]. rewrite Hw. unfold prefixed. rewrite filter_none; [done|].
    apply list.Forall_forall. intros [k v] Hk%elem_of_sorted_kvs. cbn [fst]. by rewrite (Hno k v Hk).
  - intros st ->. cbn [fst]. split; [by apply healthy_up|]. intros k v Hk. rewrite Hw.
    by rewrite (Hno k v Hk).
  - done.
  - cbn [fst]. rewrite Hw. by apply is_path_nonempty.
Qed.

(** The keys of a store are paths. *)
Definition clean_keys m : Prop := map_Forall (λ k _, is_path k) m.

Lemma update_segments_up c fn (enc : SegmentInfo → string) keys segments (n : nat) :
  healthy c → Forall is_path (drop n keys) → (n + length segments ≤ length keys)%nat →
  Forall (λ s, encoded (fn s) = Ok (enc s)) segments →
  ∃ c', update_segments c fn keys segments (Z.of_nat n) = (c', Ok tt) ∧ healthy c'
    ∧ mk_map c' = foldl (λ m kv, <[kv.1 := kv.2]> m) (mk_map c)
                    (zip (drop n keys) (map enc segments)).
Proof.
  revert c n. induction segments as [|s segments IH]; intros c n Hc Hk Hl He.
  { exists c. cbn [map zip]. by rewrite zip_with_nil_r. }
  apply list.Forall_cons in He as [Hs He]. cbn [update_segments length] in *. rewrite Hs.
  destruct (lookup_lt_is_Some_2 keys n) as [key Hkey]; [lia|].
  assert (go_index keys (Z.of_nat n) = Ok key) as ->.
  { apply go_index_Ok. split; [lia|]. by rewrite Nat2Z.id. }
  rewrite (drop_S _ _ _ Hkey) in *. apply list.Forall_cons in Hk as [Hp Hk].
  destruct (healthy_Save c key (enc s) Hc Hp) as (c1 & -> & Hc1 & Hm1).
  replace (Z.of_nat n + 1) with (Z.of_nat (S n)) by lia.
  destruct (IH c1 (S n) Hc1 Hk) as (c' & -> & Hc' & Hm'); [lia|done|].
  exists c'. split_and!; [done..|]. rewrite Hm'. cbn [map zip zip_with foldl fst snd]. by rewrite Hm1.
Qed.

Lemma foldl_insert_lookup (l : list (string * string)) m k :
  NoDup (map fst l) →
  foldl (λ m kv, <[kv.1 := kv.2]> m) m l !! k
  = match (list_to_map l : gmap string string) !! k with Some v => Some v | None => m !! k end.
Proof.
  revert m. induction l as [|[k0 v0] l IH]; intros m Hnd; [done|].
  cbn [map fst] in Hnd. apply list.NoDup_cons in Hnd as [Hn Hnd]. cbn [foldl list_to_map fst snd].
  rewrite IH by done. destruct (decide (k = k0)) as [->|Hne].
  - simpl. rewrite !lookup_insert_eq.
    assert ((list_to_map l : gmap string string) !! k0 = None) as ->; [|done].
    apply not_elem_of_list_to_map. exact Hn.
  - simpl. by rewrite !lookup_insert_ne.
Qed.

Definition update_prefix (base : string) (cid : Z) : string :=
  joined [base; "s/" +:+ FormatInt cid].

Lemma update_prefix_join base cid :
  is_path base → path_Join [base; SegmentMetaPrefix +:+ "/" +:+ FormatInt cid] = update_prefix base cid
  ∧ is_path (update_prefix base cid).
Proof.
  intros Hb. assert (Forall is_path [base; "s/" +:+ FormatInt cid]).
  { each_path. apply (is_path_app "s"); [is_path_dec|apply FormatInt_is_path]. }
  split; [by apply path_Join_joined|by apply joined_is_path].
Qed.

Lemma omap_enc (enc : SegmentInfo → string) (l : list (string * string)) :
  Forall (λ kv, is_Some (decoded (T:=SegmentInfo) kv.2)) l →
  zip (map fst l) (map enc (omap decoded (map snd l)))
  = omap (λ kv, s ← decoded kv.2; Some (kv.1, enc s)) l.
Proof.
  induction l as [|[k v] l IH]; [done|]. intros [[x Hx] Hl]%list.Forall_cons. simpl in *.
  rewrite Hx. simpl. f_equal. by apply IH.
Qed.

Lemma map_fst_omap (enc : SegmentInfo → string) (l : list (string * string)) :
  Forall (λ kv, is_Some (decoded (T:=SegmentInfo) kv.2)) l →
  map fst (omap (λ kv, s ← decoded kv.2; Some (kv.1, enc s)) l) = map fst l.
Proof.
  induction l as [|[k v] l IH]; [done|]. intros [[x Hx] Hl]%list.Forall_cons. simpl in *.
  rewrite Hx. simpl. f_equal. by apply IH.
Qed.

Lemma NoDup_prefixed m p : NoDup (map fst (prefixed m p)).
Proof.
  unfold prefixed. assert (NoDup (map fst (sorted_kvs m))) as Hnd.
  { rewrite sorted_kvs_perm. apply NoDup_fst_map_to_list. }
  revert Hnd. generalize (sorted_kvs m). intros l. induction l as [|[k v] l IH]; [done|].
  cbn [map fst]. intros [Hn Hnd]%list.NoDup_cons. rewrite filter_cons. case_decide; [|auto].
  cbn [map fst]. apply list.NoDup_cons. split; [|auto]. intros Hin. apply Hn.
  apply list_elem_of_fmap in Hin as (y & -> & [_ Hy]%list_elem_of_filter).
  apply list_elem_of_fmap. eauto.
Qed.

Lemma elem_of_prefixed m p k v :
  (k, v) ∈ prefixed m p ↔ m !! k = Some v ∧ HasPrefix k p = true.
Proof. unfold prefixed. rewrite list_elem_of_filter, elem_of_sorted_kvs. simpl. tauto. Qed.

(** When all values below the prefix decode, [UpdateSegments] applies the
    function to every one of them, saves each under its own key, and changes nothing
    else. *)
Theorem UpdateSegments_spec c base cid fn (enc : SegmentInfo → string) :
  healthy c → is_path base → clean_keys (mk_map c) →
  let p := update_prefix base cid +:+ "/" in
  (∀ k v, mk_map c !! k = Some v → HasPrefix k p = true →
     ∃ s, decoded v = Some s ∧ encoded (fn s) = Ok (enc s)) →
  ∃ c', UpdateSegments c base cid fn = (c', Ok tt) ∧ healthy c'
    ∧ ∀ k, mk_map c' !! k = if HasPrefix k p then v ← mk_map c !! k; s ← decoded v; Some (enc s)
                            else mk_map c !! k.
Proof.
  intros Hc Hb Hclean p Hall. unfold UpdateSegments.
  destruct (update_prefix_join base cid Hb) as [-> Hp]. fold p.
  rewrite ListProtoObjects_up by (by apply healthy_up). unfold pairs_of, p.
  rewrite healthy_key_dir by done. fold p. set (l := prefixed (mk_map c) p).
  assert (∀ k v, (k, v) ∈ l → mk_map c !! k = Some v ∧ HasPrefix k p = true) as Hl.
  { intros k v Hkv. by apply elem_of_prefixed in Hkv. }
  assert (Forall (λ kv, is_Some (decoded (T:=SegmentInfo) kv.2)) l) as Hd.
  { apply list.Forall_forall. intros [k v] Hkv. destruct (Hl k v Hkv) as [Hv Hk].
    destruct (Hall k v Hv Hk) as (s & Hs & _). simpl. eauto. }
  rewrite filter_all by (by apply list.Forall_true).
  destruct (update_segments_up c fn enc (map fst l) (omap decoded (map snd l)) 0)
    as (c' & Hu & Hc' & Hm'); [done|..].
  - apply List.Forall_map, list.Forall_forall. intros [k v] Hkv. destruct (Hl k v Hkv) as [Hv _].
    exact (Hclean k v Hv).
  - rewrite length_map. etrans; [apply length_omap_le|]. by rewrite length_map.
  - apply list.Forall_forall. intros s (v & Hv & Hs)%list_elem_of_omap.
    apply list_elem_of_fmap in Hv as ([k v'] & -> & Hkv). destruct (Hl k v' Hkv) as [Hv Hk].
    destruct (Hall k v' Hv Hk) as (s' & Hs' & He). simpl in Hs. congruence.
  - exists c'. split_and!; [exact Hu|done|]. intros k. rewrite Hm', drop_0, omap_enc by done.
    rewrite foldl_insert_lookup by (rewrite map_fst_omap by done; apply NoDup_prefixed).
    destruct (list_to_map _ !! k) as [s|] eqn:E.
    + apply elem_of_list_to_map in E.
      2: { change (NoDup (map fst (omap (λ kv, s ← decoded kv.2; Some (kv.1, enc s)) l))).
           rewrite map_fst_omap by done. apply NoDup_prefixed. }
      apply list_elem_of_omap in E as ([k' v] & Hkv & He). destruct (Hl k' v Hkv) as [Hv Hk].
      simpl in He. destruct (decoded v) as [x|] eqn:Hx; [|done]. injection He as -> <-.
      rewrite Hk, Hv. simpl. by rewrite Hx.
    + destruct (HasPrefix k p) eqn:Hk; [|done]. destruct (mk_map c !! k) as [v|] eqn:Hv; [|done].
      exfalso. apply not_elem_of_list_to_map in E. apply E.
      change (k ∈ map fst (omap (λ kv, s ← decoded kv.2; Some (kv.1, enc s)) l)).
      rewrite map_fst_omap by done. apply list_elem_of_fmap. exists (k, v). split; [done|].
      by apply elem_of_prefixed.
Qed.

(** A record that does not decode makes [UpdateSegments] save the segment
    after it under the key of the broken record, which is lost, and leave the segment's
    own record as it was. *)
Theorem UpdateSegments_shifted c base cid fn k v k' v' s bs :
  healthy c → is_path base → clean_keys (mk_map c) →
  prefixed (mk_map c) (update_prefix base cid +:+ "/") = [(k, v); (k', v')] →
  decoded (T:=SegmentInfo) v = None → decoded v' = Some s → encoded (fn s) = Ok bs →
  ∃ c', UpdateSegments c base cid fn = (c', Ok tt) ∧ mk_map c' = <[k := bs]> (mk_map c)
    ∧ mk_map c' !! k' = Some v'.
Proof.
  intros Hc Hb Hclean Hl Hv Hv' Hbs. unfold UpdateSegments.
  destruct (update_prefix_join base cid Hb) as [-> Hp].
  rewrite ListProtoObjects_up by (by apply healthy_up). unfold pairs_of.
  rewrite healthy_key_dir by done. rewrite Hl. simpl. rewrite Hv, Hv'. simpl.
  rewrite Hbs.
  assert (∀ k0 v0, (k0, v0) ∈ [(k, v); (k', v')] → mk_map c !! k0 = Some v0) as Hin.
  { intros k0 v0 Hkv. rewrite <-Hl in Hkv. by apply elem_of_prefixed in Hkv as [? _]. }
  assert (mk_map c !! k = Some v) as Hk by (apply Hin; left).
  assert (mk_map c !! k' = Some v') as Hk' by (apply Hin; right; left).
  destruct (healthy_Save c k bs Hc (Hclean k v Hk)) as (c' & Hsave & _ & Hm).
  rewrite Hsave.
  exists c'. split_and!; [done..|]. rewrite Hm. rewrite lookup_insert_ne; [done|].
  assert (StronglySorted kv_lt [(k, v); (k', v')]) as Hs.
  { rewrite <-Hl. apply StronglySorted_filter, sorted_kvs_sorted. }
  apply (sorted_split [] _ k v) in Hs as [_ [Hlt _]%list.Forall_cons]. by apply klt_ne in Hlt.
Qed.

(** ** Filling *)

(** The logs of a kind that the store has for a segment: the values of all the keys that
    start with the segment's key, decoded. *)
Definition stored_logs c (base kind : string) (ids : list Z) : list PbFieldBinlog :=
  omap decoded (map snd (prefixed (mk_map c) (seg_key base kind ids))).

Lemma fill_logs_up c base kind ids log_path :
  healthy c → is_path base → seg_kind kind → ids ≠ [] →
  ∃ f, (∀ x, pfb_FieldID (f x) = pfb_FieldID x
          ∧ length (pfb_Binlogs (f x)) = length (pfb_Binlogs x)
          ∧ Forall (λ b, pb_LogPath b ≠ "" ∨ ∃ id, pb_LogPath b = log_path (pfb_FieldID x) id)
              (pfb_Binlogs (f x)))
    ∧ fill_logs c (path_Join [base; "datacoord-meta"; kind +:+ "/" +:+ ids_path ids]) log_path
      = Ok (map f (stored_logs c base kind ids)).
Proof.
  intros Hc Hb Hk Hi. unfold fill_logs.
  assert (path_Join [base; "datacoord-meta"; kind +:+ "/" +:+ ids_path ids] = seg_key base kind ids)
    as ->.
  { rewrite path_Join_joined; [by unfold seg_key; simpl; rewrite ?string_app_assoc|done|].
    each_path. apply is_path_app; [|by apply ids_path_is_path]. unfold seg_kind in Hk.
    repeat (apply elem_of_cons in Hk as [->|Hk]; [is_path_dec|]). by apply not_elem_of_nil in Hk. }
  destruct (seg_key_join base kind ids Hb Hk Hi) as [_ Hp].
  rewrite ListProtoObjects_up by (by apply healthy_up). unfold pairs_of. rewrite healthy_key by done.
  cbn [mbind res_bind]. rewrite filter_all by (by apply list.Forall_true).
  eexists. split; [|reflexivity]. intros x. cbn [pfb_FieldID pfb_Binlogs]. rewrite length_map.
  split_and!; [done..|]. apply List.Forall_map, list.Forall_forall. intros b _. cbn [pb_LogPath].
  case_bool_decide; [right; eauto|by left].
Qed.

(** Whether a segment has any log, as [isEmptySegment] of the repairs asks. *)
Definition no_binlogs (logs : list PbFieldBinlog) : bool :=
  forallb (λ f, bool_decide (zlen (pfb_Binlogs f) = 0)) logs.

Lemma no_binlogs_map f (logs : list PbFieldBinlog) :
  (∀ x, length (pfb_Binlogs (f x)) = length (pfb_Binlogs x)) →
  no_binlogs (map f logs) = no_binlogs logs.
Proof.
  intros Hf. unfold no_binlogs. induction logs as [|x logs IH]; [done|]. simpl. rewrite IH.
  do 2 f_equal. unfold zlen. by rewrite Hf.
Qed.

(** One block: the logs are kept if there are any, and replaced by the stored ones, with
    their paths filled in, if not. *)
Lemma fill_if_empty_up c base kind log_path logs set s :
  healthy c → is_path base → seg_kind kind →
  ∃ l, fill_if_empty c base kind log_path logs set s
       = ((if bool_decide (zlen (logs s) = 0) then set s l else s), Ok tt)
    ∧ map pfb_FieldID l = map pfb_FieldID (stored_logs c base kind (segment_ids s))
    ∧ no_binlogs l = no_binlogs (stored_logs c base kind (segment_ids s)).
Proof.
  intros Hc Hb Hk. unfold fill_if_empty.
  destruct (fill_logs_up c base kind (segment_ids s) log_path Hc Hb Hk) as (f & Hf & ->); [done|].
  exists (map f (stored_logs c base kind (segment_ids s))). split_and!.
  - by case_bool_decide.
  - rewrite map_map. apply map_ext. apply Hf.
  - apply no_binlogs_map. apply Hf.
Qed.

(** The blocks of [FillFieldsIfV2] together: each list is kept, or replaced by what is stored. *)
Definition list_filled c (base kind : string) (ids : list Z) (old new : list PbFieldBinlog) : Prop :=
  if bool_decide (zlen old = 0)
  then map pfb_FieldID new = map pfb_FieldID (stored_logs c base kind ids)
       ∧ no_binlogs new = no_binlogs (stored_logs c base kind ids)
  else new = old.

Lemma FillFieldsIfV2_up c base s :
  healthy c → is_path base →
  ∃ s', FillFieldsIfV2 c base s = (s', Ok tt) ∧ segment_ids s' = segment_ids s
    ∧ list_filled c base "binlog" (segment_ids s) (si_Binlogs s) (si_Binlogs s')
    ∧ list_filled c base "deltalog" (segment_ids s) (si_Deltalogs s) (si_Deltalogs s')
    ∧ list_filled c base "statslog" (segment_ids s) (si_Statslogs s) (si_Statslogs s').
Proof.
  intros Hc Hb. unfold FillFieldsIfV2.
  destruct (fill_if_empty_up c base "binlog" (λ fieldID logID,
    "files/insert_log/" +:+ ids_path (segment_ids s ++ [fieldID; logID])) si_Binlogs with_Binlogs s
    Hc Hb) as (l1 & -> & Hf1 & Hn1); [unfold seg_kind; set_solver|].
  set (s1 := if bool_decide _ then with_Binlogs s l1 else s).
  assert (segment_ids s1 = segment_ids s) as Hi1 by (unfold s1; by case_bool_decide).
  destruct (fill_if_empty_up c base "deltalog" (λ _ logID,
    "files/delta_log/" +:+ ids_path (segment_ids s ++ [logID])) si_Deltalogs with_Deltalogs s1
    Hc Hb) as (l2 & -> & Hf2 & Hn2); [unfold seg_kind; set_solver|].
  set (s2 := if bool_decide _ then with_Deltalogs s1 l2 else s1).
  assert (segment_ids s2 = segment_ids s) as Hi2 by (unfold s2; by case_bool_decide).
  destruct (fill_if_empty_up c base "statslog" (λ _ logID,
    "files/statslog/" +:+ ids_path (segment_ids s ++ [logID])) si_Statslogs with_Statslogs s2
    Hc Hb) as (l3 & -> & Hf3 & Hn3); [unfold seg_kind; set_solver|].
  rewrite Hi1 in Hf2, Hn2. rewrite Hi2 in Hf3, Hn3.
  eexists. split; [done|]. subst s1 s2. unfold list_filled. split_and!.
  - by repeat case_bool_decide.
  - repeat case_bool_decide; simpl in *; done.
  - repeat case_bool_decide; simpl in *; done.
  - repeat case_bool_decide; simpl in *; done.
Qed.

(** On a store without a root path [FillFieldsIfV2] never fails.  A list
    of logs that has elements is kept; an empty one becomes one list of logs per decodable
    value under the segment's key, for the same fields and with the same number of logs.
    The prefix has no slash at its end: the logs of a segment whose identifier continues
    the digits of this one's are taken too. *)
Theorem FillFieldsIfV2_spec c base s :
  healthy c → is_path base →
  let stored kind := stored_logs c base kind (segment_ids s) in
  ∃ s', FillFieldsIfV2 c base s = (s', Ok tt) ∧ segment_ids s' = segment_ids s
    ∧ list_filled c base "binlog" (segment_ids s) (si_Binlogs s) (si_Binlogs s')
    ∧ list_filled c base "deltalog" (segment_ids s) (si_Deltalogs s) (si_Deltalogs s')
    ∧ list_filled c base "statslog" (segment_ids s) (si_Statslogs s) (si_Statslogs s')
    ∧ ∀ k v, mk_map c !! k = Some v → HasPrefix k (seg_key base "binlog" (segment_ids s)) = true →
        ∀ f, decoded v = Some f → f ∈ stored "binlog".
Proof.
  intros Hc Hb stored. destruct (FillFieldsIfV2_up c base s Hc Hb) as (s' & ? & ? & ? & ? & ?).
  exists s'. split_and!; [done..|]. intros k v Hk Hp f Hd. unfold stored, stored_logs.
  apply list_elem_of_omap. exists v. split; [|done]. apply list_elem_of_fmap. exists (k, v).
  split; [done|]. by apply elem_of_prefixed.
Qed.
End segment_properties.

(** ** Examples *)
Definition sample_segment (id state : Z) : SegmentInfo :=
  MkSegmentInfo id 1 2 "by-dev-rootcoord-dml_0_1v0" 100 state None None [] [] [] "".

Definition sample_field_binlog : PbFieldBinlog :=
  MkPbFieldBinlog 100 [MkPbBinlog 100 1 9 "" 4096 5 0] [].

#[export] Instance sample_segment_codec : ProtoCodec SegmentInfo :=
  table_codec [("seg7", sample_segment 7 4); ("seg7-dropped", sample_segment 7 6);
               ("seg8", sample_segment 8 3); ("seg8-dropped", sample_segment 8 6)].
#[export] Instance sample_field_binlog_codec : ProtoCodec PbFieldBinlog :=
  table_codec [("logs", sample_field_binlog)].

Definition etcd_store (l : list (string * string)) : etcdKV (gmap string string) :=
  NewEtcdKV (list_to_map l).

Lemma etcd_store_healthy l : healthy (etcd_store l).
Proof. by apply NewEtcdKV_healthy. Qed.

Definition sample_segments : etcdKV (gmap string string) :=
  etcd_store [("by-dev/datacoord-meta/s/1/2/7", "seg7");
              ("by-dev/datacoord-meta/s/1/2/8", "seg8");
              ("by-dev/datacoord-meta/binlog/1/2/7/100", "logs");
              ("by-dev/datacoord-meta/binlog/1/2/8", "?")].

Lemma RemoveSegment_spec_witness :
  ∃ c' r, RemoveSegment sample_segments "by-dev" (sample_segment 7 4) = (c', r)
    ∧ mk_map c' !! "by-dev/datacoord-meta/s/1/2/7" = None
    ∧ mk_map c' !! "by-dev/datacoord-meta/binlog/1/2/7/100" = Some "logs".
Proof.
  destruct (RemoveSegment_spec sample_segments "by-dev" (sample_segment 7 4))
    as (c' & r & Hr & _ & _ & Hs & Hb).
  - apply etcd_store_healthy.
  - is_path_dec.
  - vm_compute. by eexists.
  - exists c', r. split; [exact Hr|]. split; [exact Hs|].
    rewrite (Hb "binlog"); [vm_compute; reflexivity|left|vm_compute; reflexivity].
Defined.

Definition sample_to_update : etcdKV (gmap string string) :=
  etcd_store [("by-dev/s/1/2/7", "seg7"); ("by-dev/s/1/2/8", "seg8"); ("by-dev/s/3/2/9", "?")].

Definition mark_dropped (s : SegmentInfo) : SegmentInfo := sample_segment (si_ID s) 6.
Definition dropped_name (s : SegmentInfo) : string :=
  "seg" +:+ FormatInt (si_ID s) +:+ "-dropped".

Lemma UpdateSegments_spec_witness :
  ∃ c', UpdateSegments sample_to_update "by-dev" 1 mark_dropped = (c', Ok tt)
    ∧ mk_map c' !! "by-dev/s/1/2/8" = Some "seg8-dropped"
    ∧ mk_map c' !! "by-dev/s/3/2/9" = Some "?".
Proof.
  destruct (UpdateSegments_spec sample_to_update "by-dev" 1 mark_dropped dropped_name)
    as (c' & Hu & _ & Hk).
  - apply etcd_store_healthy.
  - is_path_dec.
  - apply (bool_decide_unpack _). vm_compute. exact I.
  - intros k v Hv Hp.
    assert (map_Forall (λ k v, HasPrefix k (update_prefix "by-dev" 1 +:+ "/") = true →
              v = "seg7" ∨ v = "seg8") (mk_map sample_to_update)) as Hf
      by (apply (bool_decide_unpack _); vm_compute; exact I).
    destruct (Hf k v Hv Hp) as [->| ->]; eexists; split; vm_compute; reflexivity.
  - exists c'. split; [exact Hu|]. rewrite !Hk. split; vm_compute; reflexivity.
Defined.

Lemma UpdateSegments_shifted_witness :
  let c := etcd_store [("by-dev/s/1/2/7", "?"); ("by-dev/s/1/2/8", "seg8")] in
  ∃ c', UpdateSegments c "by-dev" 1 mark_dropped = (c', Ok tt)
    ∧ mk_map c' = {["by-dev/s/1/2/7" := "seg8-dropped"; "by-dev/s/1/2/8" := "seg8"]}.
Proof.
  intros c.
  destruct (UpdateSegments_shifted c "by-dev" 1 mark_dropped "by-dev/s/1/2/7" "?"
    "by-dev/s/1/2/8" "seg8" (sample_segment 8 3) "seg8-dropped") as (c' & Hu & Hm & _).
  - apply etcd_store_healthy.
  - is_path_dec.
  - apply (bool_decide_unpack _). vm_compute. exact I.
  - vm_compute. reflexivity.
  - vm_compute. reflexivity.
  - vm_compute. reflexivity.
  - vm_compute. reflexivity.
  - exists c'. split; [exact Hu|]. rewrite Hm. vm_compute. reflexivity.
Defined.

Lemma FillFieldsIfV2_spec_witness :
  ∃ s', FillFieldsIfV2 sample_segments "by-dev" (sample_segment 7 4) = (s', Ok tt)
    ∧ map pfb_FieldID (si_Binlogs s') = [100].
Proof.
  destruct (FillFieldsIfV2_spec sample_segments "by-dev" (sample_segment 7 4))
    as (s' & Hf & _ & [Hb _] & _).
  - apply etcd_store_healthy.
  - is_path_dec.
  - exists s'. split; [exact Hf|]. rewrite Hb. vm_compute. reflexivity.
Defined.
