(* ===== verification/Collections.v ===== *)
(** * Collection metadata

    Models [models/collection.go], [models/collection_schema.go],
    [states/etcd/common/collection.go], [collection_history.go], [channel.go] and
    [channel_watch.go]: collections with the fields and functions that the store keeps
    apart from them, their history, and how a collection or one of its fields is
    updated. *)

From S2P Require Export Segments.

(** ** The messages

    The fields that the program reads or writes; a [rest] stands for the others. *)
Inductive ValueField :=
  | BoolData (v : bool)
  | IntData (v : Z)
  | LongData (v : Z)
  | FloatData (bits : Z)
  | DoubleData (bits : Z)
  | StringData (v : string)
  | BytesData (v : list byte).

Record FieldSchema := MkFieldSchema {
  fs_FieldID : Z;
  fs_Name : string;
  fs_DataType : Z;
  fs_IsPrimaryKey : bool;
  fs_AutoID : bool;
  fs_IsDynamic : bool;
  fs_IsClusteringKey : bool;
  fs_Nullable : bool;
  fs_DefaultValue : option ValueField;
  fs_TypeParams : list (string * string);
  fs_rest : string;
}.

Record StructArrayFieldSchema := MkStructField { saf_FieldID : Z; saf_rest : string }.
Record FunctionSchema := MkFunction { fn_Name : string; fn_rest : string }.

Record CollectionSchema := MkSchema {
  cs_Name : string;
  cs_Description : string;
  cs_AutoID : bool;
  cs_Fields : list FieldSchema;
  cs_EnableDynamicField : bool;
  cs_DbName : string;
  cs_StructArrayFields : list StructArrayFieldSchema;
  cs_Functions : list FunctionSchema;
  cs_Properties : list (string * string);
}.

Record CollectionInfo := MkCollectionInfo {
  ci_ID : Z;
  ci_Schema : option CollectionSchema;
  ci_State : Z;
  ci_VirtualChannelNames : list string;
  ci_PhysicalChannelNames : list string;
  ci_StartPositions : list (string * list byte);
  ci_ConsistencyLevel : Z;
  ci_DbId : Z;
  ci_ShardsNum : Z;
  ci_Properties : list (string * string);
}.

#[export] Instance ValueField_eq_dec : EqDecision ValueField.
Proof. solve_decision. Defined.
#[export] Instance FieldSchema_eq_dec : EqDecision FieldSchema.
Proof. solve_decision. Defined.
#[export] Instance StructArrayFieldSchema_eq_dec : EqDecision StructArrayFieldSchema.
Proof. solve_decision. Defined.
#[export] Instance FunctionSchema_eq_dec : EqDecision FunctionSchema.
Proof. solve_decision. Defined.
#[export] Instance CollectionSchema_eq_dec : EqDecision CollectionSchema.
Proof. solve_decision. Defined.
#[export] Instance CollectionInfo_eq_dec : EqDecision CollectionInfo.
Proof. solve_decision. Defined.

(** [etcdpb.CollectionState]. *)
Definition CollectionState_CollectionCreated : Z := 0.
Definition CollectionState_CollectionDropping : Z := 2.
Definition CollectionState_CollectionDropped : Z := 3.

(** [datapb.ChannelWatchInfo] with its [VchannelInfo], which may be nil. *)
Record WatchVchan := MkVchan { vc_CollectionID : Z; vc_ChannelName : string }.
Record ChannelWatchInfo := MkChannelWatchInfo {
  cw_Vchan : option WatchVchan;
  cw_Schema : option CollectionSchema;
  cw_rest : string;                  (* the fields that the program does not write *)
}.
(** [info.GetVchan().GetChannelName()]. *)
Definition cw_ChannelName (info : ChannelWatchInfo) : string :=
  match cw_Vchan info with Some v => vc_ChannelName v | None => "" end.

#[export] Instance WatchVchan_eq_dec : EqDecision WatchVchan.
Proof. solve_decision. Defined.
#[export] Instance ChannelWatchInfo_eq_dec : EqDecision ChannelWatchInfo.
Proof. solve_decision. Defined.

(** [etcdpb.PartitionInfo]. *)
Record PartitionInfo := MkPartitionInfo {
  pi_PartitionID : Z;
  pi_CollectionId : Z;
  pi_PartitionName : string;
  pi_State : Z;
  pi_rest : string;
}.
#[export] Instance PartitionInfo_eq_dec : EqDecision PartitionInfo.
Proof. solve_decision. Defined.

Definition with_Fields (s : CollectionSchema) (fields : list FieldSchema)
    (structs : list StructArrayFieldSchema) : CollectionSchema :=
  MkSchema (cs_Name s) (cs_Description s) (cs_AutoID s) fields (cs_EnableDynamicField s)
    (cs_DbName s) structs (cs_Functions s) (cs_Properties s).
Definition with_Schema (c : CollectionInfo) (s : CollectionSchema) : CollectionInfo :=
  MkCollectionInfo (ci_ID c) (Some s) (ci_State c) (ci_VirtualChannelNames c)
    (ci_PhysicalChannelNames c) (ci_StartPositions c) (ci_ConsistencyLevel c) (ci_DbId c)
    (ci_ShardsNum c) (ci_Properties c).
Definition with_ConsistencyLevel (c : CollectionInfo) (l : Z) : CollectionInfo :=
  MkCollectionInfo (ci_ID c) (ci_Schema c) (ci_State c) (ci_VirtualChannelNames c)
    (ci_PhysicalChannelNames c) (ci_StartPositions c) l (ci_DbId c) (ci_ShardsNum c)
    (ci_Properties c).

Definition nil_dereference : string := "invalid memory address or nil pointer dereference".

(** ** [models.Collection] *)
Record Channel := MkChannel {
  ch_PhysicalName : string;
  ch_VirtualName : string;
  ch_StartPosition : MsgPosition;
}.

Record Collection := MkCollection {
  co_proto : CollectionInfo;
  co_key : string;
  co_Functions : list (ProtoWrapper FunctionSchema);
}.

Definition NewCollection (info : CollectionInfo) (key : string) : Collection :=
  MkCollection info key [].

(** [c.proto.PhysicalChannelNames[idx]] and [c.proto.StartPositions[idx]] panic when
    these lists are shorter than that of the virtual names. *)
Fixpoint channels_of (info : CollectionInfo) (names : list string) (idx : Z) : res (list Channel) :=
  match names with
  | [] => Ok []
  | virtualName :: names =>
      physical ← go_index (ci_PhysicalChannelNames info) idx;
      pos ← go_index (ci_StartPositions info) idx;
      rest ← channels_of info names (idx + 1);
      Ok (MkChannel physical virtualName (MsgPos pos.1 pos.2 0) :: rest)
  end.
Definition Channels (c : Collection) : res (list Channel) :=
  channels_of (co_proto c) (ci_VirtualChannelNames (co_proto c)) 0.

(** [models.FieldSchema]; only what [NewFieldSchemaFromBase] copies can be set. *)
Record ModelFieldSchema := MkModelField {
  mf_FieldID : Z;
  mf_Name : string;
  mf_IsPrimaryKey : bool;
  mf_AutoID : bool;
  mf_DataType : Z;
  mf_Description : string;
  mf_Properties : gmap string string;
}.
Definition empty_field : ModelFieldSchema := MkModelField 0 "" false false 0 "" ∅.

Definition NewFieldSchemaFromBase (schema : FieldSchema) (description : string) : ModelFieldSchema :=
  MkModelField (fs_FieldID schema) (fs_Name schema) (fs_IsPrimaryKey schema) (fs_AutoID schema)
    (fs_DataType schema) description ∅.

(** The first field that satisfies a condition. *)
Definition find_field (description : FieldSchema → string) (cond : FieldSchema → bool)
    (c : Collection) : res (ModelFieldSchema * bool) :=
  match ci_Schema (co_proto c) with
  | None => Panic nil_dereference
  | Some s =>
      match List.find cond (cs_Fields s) with
      | Some field => Ok (NewFieldSchemaFromBase field (description field), true)
      | None => Ok (empty_field, false)
      end
  end.

Definition DataType_BinaryVector : Z := 100.
Definition DataType_FloatVector : Z := 101.

Definition GetPKField (description : FieldSchema → string) : Collection → res (ModelFieldSchema * bool) :=
  find_field description fs_IsPrimaryKey.
Definition GetVectorField (description : FieldSchema → string)
    : Collection → res (ModelFieldSchema * bool) :=
  find_field description (λ f, bool_decide (fs_DataType f = DataType_BinaryVector)
                               || bool_decide (fs_DataType f = DataType_FloatVector)).

Definition GetDim (fs : ModelFieldSchema) : res Z :=
  if bool_decide (mf_DataType fs ≠ DataType_FloatVector)
     && bool_decide (mf_DataType fs ≠ DataType_BinaryVector) then Err (Errorf "field is not vector")
  else match mf_Properties fs !! "dim" with
       | None => Err (Errorf "field not has dim property")
       | Some raw => match ParseInt raw with
                     | Some dim => Ok dim
                     | None => Err (Errorf "invalid syntax")
                     end
       end.

(** ** [common/collection.go] *)
Definition CollectionMetaPrefix := path_Join [RCPrefix; CollectionPrefix].
Definition DBCollectionMetaPrefix := path_Join [RCPrefix; DBPrefix; CollectionInfoPrefix].
Definition FieldMetaPrefix := "root-coord/fields".
Definition FunctionMetaPrefix := "root-coord/functions".

Definition ErrCollectionNotFound : goerr := Errorf "collection not found".
(** [0xE2, 0x9B, 0xBC]. *)
Definition CollectionTombstone : string :=
  String (ascii_of_N 226) (String (ascii_of_N 155) (String (ascii_of_N 188) "")).

(** [x, _ := f()]: nothing on failure; a panic goes on. *)
Definition or_nil {A} (r : res (list A)) : res (list A) :=
  match r with Ok l => Ok l | Err _ => Ok [] | Panic w => Panic w end.

(** [lo.Map] with a function that may panic. *)
Fixpoint mapR {A B} (f : A → res B) (l : list A) : res (list B) :=
  match l with
  | [] => Ok []
  | x :: l => y ← f x; ys ← mapR f l; Ok (y :: ys)
  end.

(** [lo.Filter] with a function that may panic. *)
Fixpoint filterR {A} (f : A → res bool) (l : list A) : res (list A) :=
  match l with
  | [] => Ok []
  | x :: l => b ← f x; l' ← filterR f l; Ok (if b : bool then x :: l' else l')
  end.

(** A pointer that is followed. *)
Definition deref {A} (p : option A) : res A :=
  match p with Some x => Ok x | None => Panic nil_dereference end.

Section collections.
Context {K : Type} `{MetaKV K} `{ProtoCodec CollectionInfo} `{ProtoCodec FieldSchema}.
Context `{ProtoCodec StructArrayFieldSchema} `{ProtoCodec FunctionSchema}.

Definition getCollectionFields (cli : K) (basePath : string) (collID : Z) : res (list FieldSchema) :=
  '(fields, _) ← ListProtoObjects cli (path_Join [basePath; "root-coord/fields/" +:+ FormatInt collID]) [];
  Ok fields.

Definition getCollectionStructFields (cli : K) (basePath : string) (collID : Z)
    : res (list StructArrayFieldSchema) :=
  '(fields, _) ← ListProtoObjects cli
     (path_Join [basePath; "root-coord/struct-array-fields/" +:+ FormatInt collID]) [];
  Ok fields.

Definition ListCollectionFunctions (cli : K) (basePath : string) (collectionID : Z)
    : res (list (ProtoWrapper FunctionSchema)) :=
  ListObj2Models cli (path_Join [basePath; FunctionMetaPrefix; FormatInt collectionID] +:+ "/")
    NewProtoWrapper [].

(** Legacy collections first, then those of databases. *)
Definition ListCollectionWithoutFields (cli : K) (basePath : string)
    (filters : list (Collection → bool)) : res (list Collection) :=
  c1 ← ListObj2Models cli (path_Join [basePath; CollectionMetaPrefix]) NewCollection filters;
  c2 ← ListObj2Models cli (path_Join [basePath; DBCollectionMetaPrefix]) NewCollection filters;
  Ok (c1 ++ c2).

(** The closure of [ListCollections] that fills a listed collection: the fields replace
    those of the schema, whose pointer must not be nil. *)
Definition fill_collection (cli : K) (basePath : string) (c : Collection) : res Collection :=
  let id := ci_ID (co_proto c) in
  match ci_Schema (co_proto c) with
  | None => Panic nil_dereference
  | Some schema =>
      fields ← or_nil (getCollectionFields cli basePath id);
      structs ← or_nil (getCollectionStructFields cli basePath id);
      functions ← or_nil (ListCollectionFunctions cli basePath id);
      Ok (MkCollection (with_Schema (co_proto c) (with_Fields schema fields structs)) (co_key c)
            functions)
  end.

Definition ListCollections (cli : K) (basePath : string) (filters : list (Collection → bool))
    : res (list Collection) :=
  results ← ListCollectionWithoutFields cli basePath filters;
  mapR (fill_collection cli basePath) results.

Definition GetCollectionByIDVersion (cli : K) (basePath : string) (collID : Z) : res Collection :=
  colls ← ListCollections cli basePath [λ c, bool_decide (ci_ID (co_proto c) = collID)];
  match colls with
  | [] => Err ErrCollectionNotFound
  | c :: _ => Ok c
  end.

(** The fields that a legacy schema lacks are appended; those that do not decode are left
    out.  [collection.Schema] must not be nil when there is a field to append. *)
Fixpoint append_fields (collection : CollectionInfo) (vals : list string) : res CollectionInfo :=
  match vals with
  | [] => Ok collection
  | val :: vals =>
      match decoded (T:=FieldSchema) val with
      | None => append_fields collection vals
      | Some field =>
          match ci_Schema collection with
          | None => Panic nil_dereference
          | Some s =>
              append_fields (with_Schema collection
                (with_Fields s (cs_Fields s ++ [field]) (cs_StructArrayFields s))) vals
          end
      end
  end.

Definition fill_fields (cli : K) (prefix : string) (collection : CollectionInfo) : res CollectionInfo :=
  if bool_decide (zlen (match ci_Schema collection with Some s => cs_Fields s | None => [] end) = 0)
  then
    '(keys, vals) ← mk_LoadWithPrefix cli prefix false;
    if bool_decide (length keys ≠ length vals) then Err (Errorf "keys and vals of different size")
    else append_fields collection vals
  else Ok collection.

Definition FillFieldSchemaIfEmpty (cli : K) (basePath : string) (collection : CollectionInfo)
    : res CollectionInfo :=
  fill_fields cli (path_Join [basePath; "root-coord/fields/" +:+ FormatInt (ci_ID collection)])
    collection.
Definition FillFieldSchemaIfEmptyV2 (cli : K) (basePath : string) (collection : CollectionInfo)
    : res CollectionInfo :=
  fill_fields cli ("root-coord/fields/" +:+ FormatInt (ci_ID collection)) collection.

Definition UpdateCollection (cli : K) (key : string) (fn : CollectionInfo → CollectionInfo)
    (dryRun : bool) : K * res unit :=
  match (val ← mk_Load cli key false; info ← proto_Unmarshal (bytes_of_string val);
         encoded (fn info)) with
  | Err e => (cli, Err e)
  | Panic w => (cli, Panic w)
  | Ok bs => if negb dryRun then (cli, Ok tt) else mk_Save cli key bs
  end.

(** One round of the loop of [UpdateField]: [inl] leaves the function with a result. *)
Definition match_field (fieldID : Z) (kv : string * string) (st : Z * string * string)
    : res unit + (Z * string * string) :=
  let '(curTs, matchedKey, matchedValue) := st in
  match Split "_" (path_Base kv.1) with
  | [] => inl (Panic "index out of range")
  | p0 :: ps =>
      match Atoi p0 with
      | None => inl (Err (Errorf "invalid syntax"))
      | Some i =>
          if bool_decide (i = fieldID) then
            match ps with
            | String _ (String _ tsString) :: _ =>
                match Atoi tsString with
                | None => inl (Ok tt)
                | Some ts => inr (if bool_decide (curTs < ts) then (ts, kv.1, kv.2) else st)
                end
            | _ => inl (Panic "index out of range")
            end
          else inr st
      end
  end.

Fixpoint match_fields (fieldID : Z) (kvs : list (string * string)) (st : Z * string * string)
    : res unit + (Z * string * string) :=
  match kvs with
  | [] => inr st
  | kv :: kvs =>
      match match_field fieldID kv st with
      | inl r => inl r
      | inr st => match_fields fieldID kvs st
      end
  end.

Definition UpdateField (cli : K) (basePath : string) (collectionID fieldID : Z)
    (fn : FieldSchema → res FieldSchema) (dryRun : bool) : K * res unit :=
  let prefix := path_Join [basePath; SnapshotPrefix; FieldMetaPrefix; FormatInt collectionID] in
  match mk_LoadWithPrefix cli prefix false with
  | Err e => (cli, Err e)
  | Panic w => (cli, Panic w)
  | Ok ([], _) => (cli, Err (Errorf "wrong path"))
  | Ok (keys, values) =>
      match match_fields fieldID (zip keys values) (0, "", "") with
      | inl r => (cli, r)
      | inr (_, matchedKey, matchedValue) =>
          if bool_decide (matchedValue = "") || bool_decide (matchedKey = "")
          then (cli, Err (Errorf "not found field"))
          else
            match (info ← proto_Unmarshal (bytes_of_string matchedValue); info ← fn info;
                   encoded info) with
            | Err e => (cli, Err e)
            | Panic w => (cli, Panic w)
            | Ok bs =>
                if dryRun then (cli, Ok tt)
                else
                  let '(cli, err) := mk_Save cli matchedKey bs in
                  match err with
                  | Ok _ =>
                      let prefixCache := path_Join [basePath; FieldMetaPrefix;
                                           FormatInt collectionID; FormatInt fieldID] in
                      match mk_Load cli prefixCache false with
                      | Ok _ => mk_Save cli prefixCache bs
                      | Err _ => (cli, Ok tt)
                      | Panic w => (cli, Panic w)
                      end
                  | err => (cli, err)
                  end
            end
      end
  end.

(** ** [collection_history.go] *)
Record CollectionHistory := MkHistory {
  hi_Collection : option Collection;       (* nil for a tombstone *)
  hi_Ts : Z;
  hi_Dropped : bool;
}.

(** The promoted method [Key] of the embedded collection. *)
Definition history_Key (h : CollectionHistory) : res string :=
  match hi_Collection h with Some c => Ok (co_key c) | None => Panic nil_dereference end.

Definition parseHistoryTs (entry : string) : Z :=
  match SplitStr entry "_ts" with
  | [_; ts] => ParseUint_value ts
  | _ => 0
  end.

Definition ListHistoryCollection (cli : K) (prefix : string)
    : res (list CollectionInfo * list string * list string) :=
  '(dropped, colls, paths) ← ListProtoObjectsAdv cli prefix
     (λ key value dropped,
        if bool_decide (value = CollectionTombstone) then (dropped ++ [key], false)
        else (dropped, true)) [] [];
  Ok (colls, paths, dropped).

(** The [idx]-th decoded collection has the [idx]-th path. *)
Definition ListCollectionHistory (cli : K) (basePath : string) (dbID collectionID : Z)
    : res (list CollectionHistory) :=
  let prefix :=
    if bool_decide (dbID = 0) then
      path_Join [basePath; "snapshots/root-coord/collection"; FormatInt collectionID]
    else path_Join [basePath; "snapshots/root-coord/database/collection-info"; FormatInt dbID;
                    FormatInt collectionID] in
  '(colls, paths, dropped) ← ListHistoryCollection cli prefix;
  results ← obj2models (λ coll path, MkHistory (Some (NewCollection coll path)) (parseHistoryTs path)
                                       false) [] paths colls 0;
  Ok (results ++ map (λ entry, MkHistory None (parseHistoryTs entry) true) dropped).

Fixpoint remove_history (cli : K) (collectionID : Z) (paths : list string)
    (colls : list CollectionInfo) (idx : Z) : K * res unit :=
  match colls with
  | [] => (cli, Ok tt)
  | coll :: colls =>
      if bool_decide (ci_ID coll ≠ collectionID) then remove_history cli collectionID paths colls (idx + 1)
      else if bool_decide (ci_State coll = CollectionState_CollectionDropped)
              || bool_decide (ci_State coll = CollectionState_CollectionDropping) then
        match go_index paths idx with
        | Ok path =>
            let '(cli, err) := mk_Remove cli path in
            match err with
            | Panic w => (cli, Panic w)
            | _ => remove_history cli collectionID paths colls (idx + 1)
            end
        | Err e => (cli, Err e)
        | Panic w => (cli, Panic w)
        end
      else remove_history cli collectionID paths colls (idx + 1)
  end.

Definition RemoveCollectionHistory (cli : K) (basePath version : string) (collectionID : Z)
    : K * res unit :=
  match ListHistoryCollection cli
          (path_Join [basePath; "snapshots/root-coord/collection"; FormatInt collectionID]) with
  | Err e => (cli, Err e)
  | Panic w => (cli, Panic w)
  | Ok (colls, paths, _) => remove_history cli collectionID paths colls 0
  end.

(** ** [channel.go] and [channel_watch.go] *)
Context `{ProtoCodec ChannelWatchInfo}.

Definition SetChannelWatch (cli : K) (basePath channelName : string) (col : Collection)
    : K * res unit :=
  let removalKey := path_Join [basePath; DCPrefix; ChannelRemovalPrefix; channelName] in
  let '(cli, err) := mk_Save cli removalKey "non-removed" in
  match err with
  | Ok _ =>
      let watchKey := path_Join [basePath; ChannelWatchPrefix; FormatInt (- 2 ^ 63); channelName] in
      match encoded (MkChannelWatchInfo (Some (MkVchan (ci_ID (co_proto col)) channelName))
                       (ci_Schema (co_proto col)) "") with
      | Ok bs => mk_Save cli watchKey bs
      | Err e => (cli, Err e)
      | Panic w => (cli, Panic w)
      end
  | err => (cli, err)
  end.

Definition WriteChannelWatchInfo (cli : K) (basePath : string) (info : ProtoWrapper ChannelWatchInfo)
    : K * res unit :=
  match encoded (GetProto info) with
  | Ok bs => mk_Save cli (Key info) bs
  | Err e => (cli, Err e)
  | Panic w => (cli, Panic w)
  end.
End collections.

(** ** What the operations do *)
Section collection_properties.
Context {K : Type} `{MetaKVLaws K} `{ProtoCodec CollectionInfo} `{ProtoCodec FieldSchema}.
Context `{ProtoCodec StructArrayFieldSchema} `{ProtoCodec FunctionSchema}.
Implicit Types (c : K).

(** The objects that the values below a key encode. *)
Definition objects {T} `{ProtoCodec T} c (prefix : string) : list T :=
  omap decoded (map snd (prefixed (mk_map c) prefix)).

Lemma ListProtoObjects_healthy {T} `{ProtoCodec T} c p :
  healthy c → is_path p →
  ListProtoObjects c p [] = Ok (objects (T:=T) c p, map fst (prefixed (mk_map c) p)).
Proof.
  intros Hc Hp. rewrite ListProtoObjects_up by (by apply healthy_up). unfold pairs_of, objects.
  rewrite healthy_key by done. by rewrite filter_all by (by apply list.Forall_true).
Qed.

Definition fields_key (base : string) (id : Z) : string := joined [base; "root-coord/fields/" +:+ FormatInt id].
Definition structs_key (base : string) (id : Z) : string :=
  joined [base; "root-coord/struct-array-fields/" +:+ FormatInt id].

Lemma fields_key_join base id :
  is_path base →
  path_Join [base; "root-coord/fields/" +:+ FormatInt id] = fields_key base id
  ∧ is_path (fields_key base id).
Proof.
  intros Hb. assert (Forall is_path [base; "root-coord/fields/" +:+ FormatInt id]).
  { each_path. apply (is_path_app "root-coord/fields"); [is_path_dec|apply FormatInt_is_path]. }
  split; [by apply path_Join_joined|by apply joined_is_path].
Qed.

Lemma structs_key_join base id :
  is_path base →
  path_Join [base; "root-coord/struct-array-fields/" +:+ FormatInt id] = structs_key base id
  ∧ is_path (structs_key base id).
Proof.
  intros Hb. assert (Forall is_path [base; "root-coord/struct-array-fields/" +:+ FormatInt id]).
  { each_path. apply (is_path_app "root-coord/struct-array-fields"); [is_path_dec|apply FormatInt_is_path]. }
  split; [by apply path_Join_joined|by apply joined_is_path].
Qed.

(** The collection with what the store has for it. *)
Definition filled_schema c (base : string) (id : Z) (s : CollectionSchema) : CollectionSchema :=
  with_Fields s (objects c (fields_key base id)) (objects c (structs_key base id)).

Lemma fill_collection_up c base coll s :
  healthy c → is_path base → ci_Schema (co_proto coll) = Some s →
  ∃ functions, fill_collection c base coll
    = Ok (MkCollection (with_Schema (co_proto coll) (filled_schema c base (ci_ID (co_proto coll)) s))
            (co_key coll) functions).
Proof.
  intros Hc Hb Hs. unfold fill_collection. rewrite Hs.
  unfold getCollectionFields, getCollectionStructFields, ListCollectionFunctions.
  destruct (fields_key_join base (ci_ID (co_proto coll)) Hb) as [-> Hf].
  destruct (structs_key_join base (ci_ID (co_proto coll)) Hb) as [-> Hsf].
  rewrite !ListProtoObjects_healthy by done. rewrite ListObj2Models_up by (by apply healthy_up).
  simpl. by eexists.
Qed.

(** The listed collections before they are filled. *)
Definition collections_at c (base : string) : list Collection :=
  own_models NewCollection (prefixed (mk_map c) (joined [base; "root-coord/collection"]))
  ++ own_models NewCollection (prefixed (mk_map c) (joined [base; "root-coord/database/collection-info"])).

Definition collections_decode c (base : string) : Prop :=
  decodable (T:=CollectionInfo) (prefixed (mk_map c) (joined [base; "root-coord/collection"]))
  ∧ decodable (T:=CollectionInfo)
      (prefixed (mk_map c) (joined [base; "root-coord/database/collection-info"])).

Lemma ListCollectionWithoutFields_up c base filters :
  healthy c → is_path base → collections_decode c base →
  ListCollectionWithoutFields c base filters
  = Ok (filter (λ x, accepts filters x = true) (collections_at c base)).
Proof.
  intros Hc Hb [Hd1 Hd2]. unfold ListCollectionWithoutFields, collections_at.
  change CollectionMetaPrefix with "root-coord/collection".
  change DBCollectionMetaPrefix with "root-coord/database/collection-info".
  assert (∀ q, is_path q → path_Join [base; q] = joined [base; q] ∧ is_path (joined [base; q])) as Hq.
  { intros q Hq. assert (Forall is_path [base; q]) by each_path.
    split; [by apply path_Join_joined|by apply joined_is_path]. }
  destruct (Hq "root-coord/collection") as [-> Hp1]; [is_path_dec|].
  destruct (Hq "root-coord/database/collection-info") as [-> Hp2]; [is_path_dec|].
  rewrite !ListObj2Models_own; unfold pairs_of; rewrite ?healthy_key by done;
    try done; try (by apply healthy_up).
  cbn [mbind res_bind]. by rewrite list.filter_app.
Qed.

Lemma mapR_all {A B} (f : A → res B) (g : A → B) l : (∀ x, x ∈ l → f x = Ok (g x)) → mapR f l = Ok (map g l).
Proof.
  induction l as [|x l IH]; intros Hf; [done|]. cbn [mapR map]. rewrite Hf by (by left). cbn [mbind res_bind].
  rewrite IH by (intros; apply Hf; by right). done.
Qed.

Lemma mapR_Forall2 {A B} (f : A → res B) (P : A → B → Prop) l :
  (∀ x, x ∈ l → ∃ y, f x = Ok y ∧ P x y) → ∃ ys, mapR f l = Ok ys ∧ Forall2 P l ys.
Proof.
  induction l as [|x l IH]; intros Hl; [by exists []|].
  destruct (Hl x) as (y & Hy & HP); [left|]. destruct IH as (ys & Hys & HPs).
  { intros z Hz. apply Hl. by right. }
  exists (y :: ys). split; [|by constructor]. simpl. rewrite Hy. simpl. by rewrite Hys.
Qed.

Lemma ListCollections_up c base filters :
  healthy c → is_path base → collections_decode c base →
  (∀ x, x ∈ collections_at c base → is_Some (ci_Schema (co_proto x))) →
  ∃ colls, ListCollections c base filters = Ok colls
    ∧ Forall2 (λ x y, co_key y = co_key x
                 ∧ ∃ s, ci_Schema (co_proto x) = Some s
                   ∧ co_proto y = with_Schema (co_proto x) (filled_schema c base (ci_ID (co_proto x)) s))
        (filter (λ x, accepts filters x = true) (collections_at c base)) colls.
Proof.
  intros Hc Hb Hd Hs. unfold ListCollections. rewrite ListCollectionWithoutFields_up by done.
  cbn [mbind res_bind]. apply mapR_Forall2. intros x [_ Hx]%list_elem_of_filter.
  destruct (Hs x Hx) as [s Hxs]. destruct (fill_collection_up c base x s Hc Hb Hxs) as [fs Hf].
  eexists. split; [exact Hf|]. split; [done|]. by exists s.
Qed.

(** When all collection values decode and have a schema,
    [ListCollections] lists the collections that pass the filters, each with its own key;
    the filters see the schema as it is stored, without the fields, which are then
    replaced by those that the store has under the collection's identifier. *)
Theorem ListCollections_spec c base filters :
  healthy c → is_path base → collections_decode c base →
  (∀ x, x ∈ collections_at c base → is_Some (ci_Schema (co_proto x))) →
  ∃ colls, ListCollections c base filters = Ok colls
    ∧ Forall2 (λ x y, co_key y = co_key x
                 ∧ ∃ s, ci_Schema (co_proto x) = Some s
                   ∧ co_proto y = with_Schema (co_proto x) (filled_schema c base (ci_ID (co_proto x)) s))
        (filter (λ x, accepts filters x = true) (collections_at c base)) colls.
Proof. apply ListCollections_up. Qed.

(** ** Updating *)

(** [UpdateCollection] saves the changed collection when it is told that this is a dry run,
    and only then. *)
Lemma UpdateCollection_inverted c key fn val info bs :
  healthy c → is_path key → mk_map c !! key = Some val →
  decoded val = Some info → encoded (fn info) = Ok bs →
  UpdateCollection c key fn false = (c, Ok tt)
  ∧ ∃ c', UpdateCollection c key fn true = (c', Ok tt) ∧ healthy c'
      ∧ mk_map c' = <[key := bs]> (mk_map c).
Proof.
  intros Hc Hp Hv Hd He. unfold UpdateCollection. rewrite healthy_Load by done. rewrite Hv.
  cbn [mbind res_bind]. unfold decoded in Hd. destruct (proto_Unmarshal _) as [x| |]; [|done..].
  injection Hd as ->. cbn [mbind res_bind]. rewrite He. split; [done|].
  destruct (healthy_Save c key bs Hc Hp) as (c' & -> & ? & ?). by exists c'.
Qed.

(** The field and the timestamp that a key of the field history names. *)
Definition field_key (key : string) : option (Z * Z) :=
  match Split "_" (path_Base key) with
  | p0 :: String _ (String _ ts) :: _ => f ← Atoi p0; t ← Atoi ts; Some (f, t)
  | _ => None
  end.

(** The pair of the greatest positive timestamp of a field, the first one of these. *)
Fixpoint latest (fieldID : Z) (kvs : list (string * string)) (best : Z * string * string)
    : Z * string * string :=
  match kvs with
  | [] => best
  | (k, v) :: kvs =>
      latest fieldID kvs
        (match field_key k with
         | Some (f, t) =>
             if bool_decide (f = fieldID) && bool_decide (best.1.1 < t) then (t, k, v) else best
         | None => best
         end)
  end.

Lemma match_fields_latest fieldID kvs best :
  Forall (λ kv, is_Some (field_key kv.1)) kvs →
  match_fields fieldID kvs best = inr (latest fieldID kvs best).
Proof.
  revert best. induction kvs as [|[k v] kvs IH]; intros best; [done|].
  intros [[[f t] Hk] Hkvs]%list.Forall_cons. cbn [match_fields latest fst] in *. rewrite Hk.
  unfold match_field. destruct best as [[curTs mk] mv]. cbn [fst snd]. unfold field_key in Hk.
  destruct (Split "_" (path_Base k)) as [|p0 [|[|? [|? ts]] ps]]; try done.
  destruct (Atoi p0) as [f'|]; [|done]. cbn [mbind option_bind] in Hk.
  destruct (Atoi ts) as [t'|]; [|done]. cbn [mbind option_bind] in Hk. injection Hk as -> ->.
  case_bool_decide; cbn [andb]; [|by apply IH]. by apply IH.
Qed.

Lemma latest_max fieldID kvs best :
  let r := latest fieldID kvs best in
  best.1.1 <= r.1.1
  ∧ (∀ k v t, (k, v) ∈ kvs → field_key k = Some (fieldID, t) → t <= r.1.1)
  ∧ (r = best ∨ ∃ k v t, (k, v) ∈ kvs ∧ field_key k = Some (fieldID, t) ∧ r = (t, k, v)).
Proof.
  revert best. induction kvs as [|[k v] kvs IH]; intros best r.
  { split_and!; [done| |by left]. by intros k v t Hin%elem_of_nil. }
  subst r. cbn [latest]. set (best' := match field_key k with Some _ => _ | None => _ end).
  destruct (IH best') as (Hle & Hmax & Hr). cbv zeta in *.
  assert (best.1.1 <= best'.1.1
    ∧ (∀ t, field_key k = Some (fieldID, t) → t <= best'.1.1)
    ∧ (best' = best ∨ ∃ t, field_key k = Some (fieldID, t) ∧ best' = (t, k, v))) as (Hb & Ht & Hb').
  { unfold best'. destruct (field_key k) as [[f t]|]; [|split_and!; [done|done|by left]].
    case_bool_decide as Hf; cbn [andb]; [subst f|].
    - case_bool_decide as Hlt; cbn [fst]; (split_and!; [lia|intros t0 [= ->]; lia|]); eauto.
    - split_and!; [done| |by left]. intros t0 [= -> ->]. done. }
  split_and!.
  - lia.
  - intros k0 v0 t [[= -> ->]|Hin]%elem_of_cons Hk0; [|by eapply Hmax].
    specialize (Ht t Hk0). lia.
  - destruct Hr as [->|(k0 & v0 & t & Hin & ? & ?)].
    + destruct Hb' as [->|(t & ? & ->)]; [by left|]. right. exists k, v, t. by split; [left|].
    + right. exists k0, v0, t. by split; [right|].
Qed.

Definition field_history_key (base : string) (cid : Z) : string :=
  joined [base; SnapshotPrefix; FieldMetaPrefix; FormatInt cid].
Definition field_cache_key (base : string) (cid fid : Z) : string :=
  joined [base; FieldMetaPrefix; FormatInt cid; FormatInt fid].

Lemma field_keys_join base cid fid :
  is_path base →
  path_Join [base; SnapshotPrefix; FieldMetaPrefix; FormatInt cid] = field_history_key base cid
  ∧ is_path (field_history_key base cid)
  ∧ path_Join [base; FieldMetaPrefix; FormatInt cid; FormatInt fid] = field_cache_key base cid fid
  ∧ is_path (field_cache_key base cid fid).
Proof.
  intros Hb. assert (Forall is_path [base; SnapshotPrefix; FieldMetaPrefix; FormatInt cid]).
  { each_path. apply FormatInt_is_path. }
  assert (Forall is_path [base; FieldMetaPrefix; FormatInt cid; FormatInt fid]).
  { each_path; apply FormatInt_is_path. }
  split_and!; try (by apply path_Join_joined); by apply joined_is_path.
Qed.

(** The newest entry of a field in its history, all of whose keys are well formed. *)
Definition newest c (base : string) (cid fid : Z) (k v : string) (t : Z) : Prop :=
  let l := prefixed (mk_map c) (field_history_key base cid) in
  Forall (λ kv, is_Some (field_key kv.1)) l
  ∧ (k, v) ∈ l ∧ field_key k = Some (fid, t) ∧ 0 < t ∧ v ≠ ""
  ∧ ∀ k' v' t', (k', v') ∈ l → field_key k' = Some (fid, t') → t' <= t ∧ (t' = t → k' = k).

(** When all keys of the field history are well formed, [UpdateField] changes the entry of
    the greatest timestamp of the field, and the cached field if there is one, and nothing
    else; a dry run changes nothing. *)
Lemma UpdateField_newest c base cid fid fn k v t x y bs :
  healthy c → is_path base → clean_keys (mk_map c) → newest c base cid fid k v t →
  decoded v = Some x → fn x = Ok y → encoded y = Ok bs →
  let m := <[k := bs]> (mk_map c) in
  UpdateField c base cid fid fn true = (c, Ok tt)
  ∧ ∃ c', UpdateField c base cid fid fn false = (c', Ok tt) ∧ healthy c'
      ∧ mk_map c' = match m !! field_cache_key base cid fid with
                    | Some _ => <[field_cache_key base cid fid := bs]> m
                    | None => m
                    end.
Proof.
  intros Hc Hb Hclean (Hl & Hkv & Hk & Ht & Hv & Hmax) Hd Hfn He m.
  set (l := prefixed _ _) in *.
  destruct (field_keys_join base cid fid Hb) as (Hj1 & Hp1 & Hj2 & Hp2).
  assert (mk_map c !! k = Some v) as Hmk by (by apply elem_of_prefixed in Hkv as [? _]).
  pose proof (Hclean k v Hmk) as Hpk.
  assert (latest fid l (0, "", "") = (t, k, v)) as Hlat.
  { destruct (latest_max fid l (0, "", "")) as (_ & Hge & Hr).
    specialize (Hge k v t Hkv Hk). destruct Hr as [Hr|(k' & v' & t' & Hin & Hk' & Hr)].
    - rewrite Hr in Hge. cbn in Hge. lia.
    - rewrite Hr in *. cbn [fst] in Hge. destruct (Hmax k' v' t' Hin Hk') as [Hle Heq].
      assert (t' = t) as -> by lia. rewrite (Heq eq_refl) in *.
      apply elem_of_prefixed in Hin as [Hin _]. congruence. }
  unfold UpdateField. rewrite Hj1, Hj2, law_LoadWithPrefix by (by apply healthy_up).
  rewrite healthy_key by done. cbv zeta. fold l.
  destruct (map fst l) as [|k0 keys] eqn:Hkeys.
  { apply map_eq_nil in Hkeys. rewrite Hkeys in Hkv. by apply not_elem_of_nil in Hkv. }
  rewrite <-Hkeys. assert (zip (map fst l) (map snd l) = l) as -> by apply zip_fst_snd.
  rewrite match_fields_latest, Hlat by done.
  rewrite !bool_decide_false by (try done; by apply is_path_nonempty). cbn [orb].
  unfold decoded in Hd. destruct (proto_Unmarshal (bytes_of_string v)) as [x'| |]; [|done..].
  injection Hd as ->. cbn [mbind res_bind]. rewrite Hfn. cbn [mbind res_bind]. rewrite He.
  split; [done|].
  destruct (healthy_Save c k bs Hc Hpk) as (c1 & -> & Hc1 & Hm1).
  rewrite healthy_Load by done. rewrite Hm1. fold m.
  destruct (m !! field_cache_key base cid fid) as [w|] eqn:Hw; [|by exists c1].
  destruct (healthy_Save c1 (field_cache_key base cid fid) bs Hc1 Hp2) as (c2 & -> & Hc2 & Hm2).
  exists c2. split_and!; [done..|]. by rewrite Hm2, Hm1.
Qed.

(** One key of the field whose timestamp is not a number makes [UpdateField]
    report success without a change, although other entries of the field are there. *)
Theorem UpdateField_bad_timestamp c base cid fid fn dryRun l1 k v l2 p0 a b ts ps :
  healthy c → is_path base →
  prefixed (mk_map c) (field_history_key base cid) = l1 ++ (k, v) :: l2 →
  Forall (λ kv, is_Some (field_key kv.1)) l1 →
  Split "_" (path_Base k) = p0 :: String a (String b ts) :: ps →
  Atoi p0 = Some fid → Atoi ts = None →
  UpdateField c base cid fid fn dryRun = (c, Ok tt).
Proof.
  intros Hc Hb Hl Hl1 Hk Hp0 Hts.
  destruct (field_keys_join base cid fid Hb) as (Hj1 & Hp1 & _).
  assert (∀ st, match_fields fid (l1 ++ (k, v) :: l2) st = inl (Ok tt)) as Hm.
  { clear Hl. induction l1 as [|[k1 v1] l1 IH]; intros [[ct mk] mv]; simpl.
    - rewrite Hk, Hp0. rewrite bool_decide_true by done. by rewrite Hts.
    - apply list.Forall_cons in Hl1 as [Hk1 Hl1].
      pose proof (match_fields_latest fid [(k1, v1)] (ct, mk, mv)) as Hone.
      rewrite list.Forall_singleton in Hone. specialize (Hone Hk1). simpl in Hone.
      destruct (Split "_" (path_Base k1)) as [|q0 qs]; [done|].
      destruct (Atoi q0) as [i|]; [|done]. case_bool_decide; [|by apply IH].
      destruct qs as [|[|? [|? s]] ?]; try done. destruct (Atoi s); [by apply IH|done]. }
  unfold UpdateField. rewrite Hj1, law_LoadWithPrefix by (by apply healthy_up).
  rewrite healthy_key by done. cbv zeta. rewrite Hl.
  destruct (map fst (l1 ++ (k, v) :: l2)) as [|k0 keys] eqn:Hkeys; [by destruct l1|].
  rewrite <-Hkeys.
  assert (zip (map fst (l1 ++ (k, v) :: l2)) (map snd (l1 ++ (k, v) :: l2)) = l1 ++ (k, v) :: l2)
    as -> by apply zip_fst_snd.
  by rewrite Hm.
Qed.

(** A tombstone before it in the listing makes [RemoveCollectionHistory] delete
    the tombstone in place of the dropped collection's entry. *)
Theorem RemoveCollectionHistory_shifted c base version cid k k' v' coll :
  healthy c → is_path base → clean_keys (mk_map c) →
  prefixed (mk_map c) (joined [base; "snapshots/root-coord/collection"; FormatInt cid])
    = [(k, CollectionTombstone); (k', v')] →
  v' ≠ CollectionTombstone → decoded v' = Some coll → ci_ID coll = cid →
  ci_State coll = CollectionState_CollectionDropped →
  ∃ c', RemoveCollectionHistory c base version cid = (c', Ok tt)
    ∧ mk_map c' = delete k (mk_map c) ∧ mk_map c' !! k' = Some v'.
Proof.
  intros Hc Hb Hclean Hl Hv Hd Hid Hst. unfold RemoveCollectionHistory, ListHistoryCollection.
  assert (Forall is_path [base; "snapshots/root-coord/collection"; FormatInt cid]) as Hp.
  { each_path. apply FormatInt_is_path. }
  rewrite path_Join_joined by done. unfold ListProtoObjectsAdv.
  rewrite law_LoadWithPrefix by (by apply healthy_up).
  rewrite healthy_key by (try done; by apply joined_is_path). rewrite Hl.
  assert (∀ k0 v0, (k0, v0) ∈ [(k, CollectionTombstone); (k', v')] → mk_map c !! k0 = Some v0) as Hin.
  { intros k0 v0 Hkv. rewrite <-Hl in Hkv. by apply elem_of_prefixed in Hkv as [? _]. }
  assert (mk_map c !! k = Some CollectionTombstone) as Hk by (apply Hin; left).
  assert (mk_map c !! k' = Some v') as Hk' by (apply Hin; right; left).
  destruct (healthy_Remove c k Hc (Hclean k _ Hk)) as (c' & r & Hr & _ & Hm & _ & Hok).
  simpl. rewrite bool_decide_false by done. rewrite Hd. simpl.
  rewrite bool_decide_false by (by intros []). rewrite Hst, bool_decide_true by done. simpl.
  rewrite Hr, Hok by by eexists. exists c'. split_and!; [done..|]. rewrite Hm.
  rewrite lookup_delete_ne; [done|].
  assert (StronglySorted kv_lt [(k, CollectionTombstone); (k', v')]) as Hs.
  { rewrite <-Hl. apply StronglySorted_filter, sorted_kvs_sorted. }
  apply (sorted_split [] _ k) in Hs as [_ [Hlt _]%list.Forall_cons]. by apply klt_ne in Hlt.
Qed.
End collection_properties.

(** ** Examples *)
Definition sample_field (id : Z) (name : string) : FieldSchema :=
  MkFieldSchema id name 5 (bool_decide (id = 100)) false false false false None [] "".
Definition sample_schema : CollectionSchema := MkSchema "c" "" false [] false "default" [] [] [].
Definition sample_info (id state level : Z) : CollectionInfo :=
  MkCollectionInfo id (Some sample_schema) state ["dml_0_1v0"] ["dml_0"] [("dml_0", [])] level 1 1 [].

#[export] Instance sample_collection_codec : ProtoCodec CollectionInfo :=
  table_codec [("c1", sample_info 1 0 0); ("c1-strong", sample_info 1 0 2);
               ("c1-dropped", sample_info 1 3 0)].
#[export] Instance sample_field_codec : ProtoCodec FieldSchema :=
  table_codec [("pk", sample_field 100 "pk"); ("old", sample_field 101 "old");
               ("new", sample_field 101 "new")].
#[export] Instance sample_struct_codec : ProtoCodec StructArrayFieldSchema := table_codec [].
#[export] Instance sample_function_codec : ProtoCodec FunctionSchema := table_codec [].

Definition sample_collections : etcdKV (gmap string string) :=
  etcd_store [("by-dev/root-coord/collection/1", "c1");
              ("by-dev/root-coord/fields/1/100", "pk");
              ("by-dev/root-coord/fields/1/101", "old")].

Lemma ListCollections_spec_witness :
  ∃ colls, ListCollections sample_collections "by-dev" [] = Ok colls
    ∧ map co_key colls = ["by-dev/root-coord/collection/1"].
Proof.
  destruct (ListCollections_spec sample_collections "by-dev" []) as (colls & Hl & Hf).
  - apply etcd_store_healthy.
  - is_path_dec.
  - split; vm_compute; repeat constructor; eexists; reflexivity.
  - assert (Forall (λ x, is_Some (ci_Schema (co_proto x))) (collections_at sample_collections "by-dev"))
      as Hs by (vm_compute; repeat constructor; eexists; reflexivity).
    intros x Hx. rewrite list.Forall_forall in Hs. by apply Hs.
  - exists colls. split; [exact Hl|].
    assert (filter (λ x, accepts [] x = true) (collections_at sample_collections "by-dev")
      = [NewCollection (sample_info 1 0 0) "by-dev/root-coord/collection/1"]) as Hc
      by (vm_compute; reflexivity).
    rewrite Hc in Hf. inversion Hf as [|x y xs ys [Hk _] Hnil]; subst.
    inversion Hnil; subst. simpl. rewrite Hk. reflexivity.
Defined.

Lemma UpdateField_bad_timestamp_witness :
  let c := etcd_store [("by-dev/snapshots/root-coord/fields/1/101_ts1", "old");
                       ("by-dev/snapshots/root-coord/fields/1/101_ts?", "old")] in
  UpdateField c "by-dev" 1 101 (λ _, Ok (sample_field 101 "new")) false = (c, Ok tt).
Proof.
  intros c. apply (UpdateField_bad_timestamp c "by-dev" 1 101 _ _
    [("by-dev/snapshots/root-coord/fields/1/101_ts1", "old")]
    "by-dev/snapshots/root-coord/fields/1/101_ts?" "old" [] "101" "t" "s" "?" []).
  - apply etcd_store_healthy.
  - is_path_dec.
  - vm_compute. reflexivity.
  - apply (bool_decide_unpack _). vm_compute. exact I.
  - vm_compute. reflexivity.
  - vm_compute. reflexivity.
  - vm_compute. reflexivity.
Defined.

Lemma RemoveCollectionHistory_shifted_witness :
  let c := etcd_store [("by-dev/snapshots/root-coord/collection/1_ts3", CollectionTombstone);
                       ("by-dev/snapshots/root-coord/collection/1_ts7", "c1-dropped")] in
  ∃ c', RemoveCollectionHistory c "by-dev" "2.2.0" 1 = (c', Ok tt)
    ∧ mk_map c' !! "by-dev/snapshots/root-coord/collection/1_ts7" = Some "c1-dropped".
Proof.
  intros c. destruct (RemoveCollectionHistory_shifted c "by-dev" "2.2.0" 1
    "by-dev/snapshots/root-coord/collection/1_ts3" "by-dev/snapshots/root-coord/collection/1_ts7"
    "c1-dropped" (sample_info 1 3 0)) as (c' & Hr & _ & Hk).
  - apply etcd_store_healthy.
  - is_path_dec.
  - apply (bool_decide_unpack _). vm_compute. exact I.
  - vm_compute. reflexivity.
  - done.
  - vm_compute. reflexivity.
  - reflexivity.
  - reflexivity.
  - exists c'. split; [exact Hr|exact Hk].
Defined.
