(* ===== verification/Commands.v ===== *)
(** * Commands

    What the commands of [states/etcd/remove], [repair] and [set] are made of: programs
    that read and change a metadata store and may stop with an error; the printing is
    left out.  On a healthy store such a program is a function on the store's map. *)

From S2P Require Export Collections.

(** ** Programs over a store *)
Definition cmd (K A : Type) : Type := K → K * res A.

#[export] Instance cmd_ret {K} : MRet (cmd K) := fun A x c => (c, Ok x).
#[export] Instance cmd_bind {K} : MBind (cmd K) := fun A B f m c =>
  let '(c, r) := m c in
  match r with Ok x => f x c | Err e => (c, Err e) | Panic w => (c, Panic w) end.

(** The monad of a bind is the one of the whole program. *)
#[global] Arguments mbind {_ _ _ _} & _ _.

(** A call that only reads the store. *)
Definition reads {K A} (f : K → res A) : cmd K A := λ c, (c, f c).
(** A value that may have failed. *)
Definition of_res {K A} (r : res A) : cmd K A := λ c, (c, r).
(** [return errors.New(...)]. *)
Definition stop {K A} (e : goerr) : cmd K A := λ c, (c, Err e).

(** A call whose error the code looks at, or prints and goes on; a panic is passed on. *)
Definition attempt {K A} (m : cmd K A) : cmd K (res A) := λ c,
  let '(c, r) := m c in (c, match r with Panic w => Panic w | r => Ok r end).
Definition try_ {K A} (m : cmd K A) : cmd K unit := λ c,
  let '(c, r) := m c in (c, match r with Panic w => Panic w | _ => Ok tt end).

(** [for _, x := range l { ... }] with a body that may return. *)
Fixpoint for_each {K A} (f : A → cmd K unit) (l : list A) : cmd K unit :=
  match l with
  | [] => mret tt
  | x :: l => f x ;; for_each f l
  end.

Lemma for_each_app {K A} (f : A → cmd K unit) l l' c :
  for_each f (l ++ l') c = mbind (M:=cmd K) (λ _, for_each f l') (for_each f l) c.
Proof.
  revert c. induction l as [|x l IH]; intros c; [done|]. cbn [app for_each]. unfold mbind, cmd_bind in *.
  destruct (f x c) as [c' [[]| |]]; [|done..]. rewrite IH. by destruct (for_each f l c') as [? [[]| |]].
Qed.

(** [lo.GroupBy]. *)
Definition GroupBy {A B} `{Countable B} (f : A → B) (l : list A) : gmap B (list A) :=
  foldl (λ m x, <[f x := default [] (m !! f x) ++ [x]]> m) ∅ l.

(** ** Groups *)
Lemma GroupBy_snoc {A B} `{Countable B} (f : A → B) l x :
  GroupBy f (l ++ [x]) = <[f x := default [] (GroupBy f l !! f x) ++ [x]]> (GroupBy f l).
Proof. unfold GroupBy. by rewrite foldl_app. Qed.

Lemma GroupBy_lookup {A B} `{Countable B} (f : A → B) l i :
  GroupBy f l !! i = (let g := filter (λ x, f x = i) l in if decide (g = []) then None else Some g).
Proof.
  induction l as [|x l IH] using rev_ind; [done|]. rewrite GroupBy_snoc, list.filter_app. cbv zeta in *.
  destruct (decide (f x = i)) as [<-|Hne].
  - rewrite lookup_insert_eq, IH, filter_cons_True by done.
    destruct (filter _ l) as [|y ys]; [done|]. by rewrite !decide_False.
  - rewrite lookup_insert_ne by done. rewrite filter_cons_False by done. by rewrite IH, app_nil_r.
Qed.

(** Going over all groups goes over every element once. *)
Lemma concat_groups_insert {A B} `{Countable B} (m : gmap B (list A)) i x :
  concat (map snd (map_to_list (<[i := default [] (m !! i) ++ [x]]> m)))
  ≡ₚ x :: concat (map snd (map_to_list m)).
Proof.
  rewrite <-insert_delete_eq, map_to_list_insert by apply lookup_delete_eq. simpl.
  destruct (m !! i) as [g|] eqn:Hg; simpl.
  - rewrite <-(insert_delete_id _ _ _ Hg) at 2. rewrite map_to_list_insert by apply lookup_delete_eq.
    simpl. rewrite <-(assoc_L (++)). symmetry. apply Permutation_middle.
  - by rewrite delete_id by done.
Qed.

Lemma concat_GroupBy {A B} `{Countable B} (f : A → B) l : concat (map snd (map_to_list (GroupBy f l))) ≡ₚ l.
Proof.
  induction l as [|x l IH] using rev_ind; [done|]. rewrite GroupBy_snoc, concat_groups_insert, IH.
  by rewrite (comm (++) l).
Qed.

(** ** The effect of a program

    [P] is what it needs of the map, [g] what it does to it. *)
Section effects.
Context {K : Type} `{MetaKVLaws K}.
Implicit Types (c : K) (m : gmap string string) (g : gmap string string → gmap string string).

Definition effect (P : gmap string string → Prop) (p : cmd K unit) g : Prop :=
  ∀ c, healthy c → P (mk_map c) →
    ∃ c', p c = (c', Ok tt) ∧ healthy c' ∧ mk_map c' = g (mk_map c).

#[export] Instance effect_ext :
  Proper (pointwise_relation _ (flip impl) ==> eq ==> pointwise_relation _ eq ==> impl) effect.
Proof.
  intros P P' HP p ? <- g g' Hg He c Hc HPc. destruct (He c Hc) as (c' & ? & ? & Hm); [by apply HP|].
  exists c'. split_and!; [done..|]. by rewrite Hm, Hg.
Qed.

Lemma effect_ret P : effect P (mret tt) id.
Proof. intros c Hc _. by exists c. Qed.

Lemma effect_seq P P' p p' g g' :
  effect P p g → effect P' p' g' → (∀ m, P m → P' (g m)) → effect P (p ;; p') (g' ∘ g).
Proof.
  intros He He' HP c Hc HPc. destruct (He c Hc HPc) as (c1 & Hp & Hc1 & Hm1).
  destruct (He' c1 Hc1) as (c2 & Hp' & Hc2 & Hm2); [rewrite Hm1; auto|].
  exists c2. split_and!; [|done|by rewrite Hm2, Hm1]. unfold mbind, cmd_bind. by rewrite Hp.
Qed.

Lemma effect_for_each {A} P (f : A → cmd K unit) (g : A → gmap string string → gmap string string) l :
  (∀ x, x ∈ l → effect P (f x) (g x)) → (∀ x m, x ∈ l → P m → P (g x m)) →
  effect P (for_each f l) (λ m, foldl (λ m x, g x m) m l).
Proof.
  intros Hf HP. induction l as [|x l IH]; [apply effect_ret|]. simpl.
  apply (effect_seq P P (f x) (for_each f l) (g x) (λ m, foldl (λ m x, g x m) m l)).
  - apply Hf. left.
  - apply IH; intros; [apply Hf|apply HP]; by (try right).
  - intros m. apply HP. left.
Qed.

(** A program without an effect leaves even the store itself as it is. *)
Lemma for_each_nop {A} (f : A → cmd K unit) l c :
  (∀ x, x ∈ l → f x c = (c, Ok tt)) → for_each f l c = (c, Ok tt).
Proof.
  induction l as [|x l IH]; intros Hf; [done|]. simpl. unfold mbind, cmd_bind.
  rewrite Hf by left. apply IH. intros. apply Hf. by right.
Qed.

(** Removing, saving. *)
Definition without (keys : list string) m : gmap string string := filter (λ kv, kv.1 ∉ keys) m.

Lemma without_nil m : without [] m = m.
Proof. apply map_filter_id. intros. apply not_elem_of_nil. Qed.

Lemma without_lookup keys m k : without keys m !! k = if bool_decide (k ∈ keys) then None else m !! k.
Proof.
  unfold without. case_bool_decide.
  - apply map_lookup_filter_None. right. naive_solver.
  - destruct (m !! k) eqn:Hk; [by apply map_lookup_filter_Some|]. apply map_lookup_filter_None. by left.
Qed.

Lemma without_cons k keys m : without keys (delete k m) = without (k :: keys) m.
Proof.
  apply map_eq. intros i. rewrite !without_lookup, !bool_decide_decide.
  destruct (decide (i = k)) as [->|Hne].
  - rewrite lookup_delete_eq. rewrite (decide_True (P := k ∈ k :: keys)) by left. by case_decide.
  - rewrite lookup_delete_ne by done. repeat case_decide; set_solver.
Qed.

Lemma foldl_delete keys m : foldl (λ m k, delete k m) m keys = without keys m.
Proof.
  revert m. induction keys as [|k keys IH]; intros m; [by rewrite without_nil|]. simpl.
  by rewrite IH, without_cons.
Qed.

Lemma without_perm keys keys' m : keys ≡ₚ keys' → without keys m = without keys' m.
Proof. intros Hp. apply map_eq. intros k. rewrite !without_lookup.
  rewrite (bool_decide_ext (k ∈ keys) (k ∈ keys')); [done|by rewrite Hp]. Qed.

Lemma try_Remove_effect P k : is_path k → effect P (try_ (λ c, mk_Remove c k)) (delete k).
Proof.
  intros Hk c Hc _. destruct (healthy_Remove c k Hc Hk) as (c' & r & Hr & Hc' & Hm & Hrr & _).
  exists c'. unfold try_. rewrite Hr. by destruct Hrr as [->| ->].
Qed.

Lemma Remove_effect k : is_path k → effect (λ m, is_Some (m !! k)) (λ c, mk_Remove c k) (delete k).
Proof.
  intros Hk c Hc Hs. destruct (healthy_Remove c k Hc Hk) as (c' & r & Hr & Hc' & Hm & _ & Hok).
  exists c'. by rewrite Hr, Hok.
Qed.

Lemma Save_effect P k v : is_path k → effect P (λ c, mk_Save c k v) (insert k v).
Proof. intros Hk c Hc _. destruct (healthy_Save c k v Hc Hk) as (c' & ? & ? & ?). by exists c'. Qed.

Lemma RemoveWithPrefix_effect P p :
  is_path p → effect P (λ c, mk_RemoveWithPrefix c p) (filter (λ kv, HasPrefix kv.1 (p +:+ "/") = false)).
Proof.
  intros Hp c Hc _. destruct (healthy_RemoveWithPrefix c p Hc Hp) as (c' & ? & ? & ?). by exists c'.
Qed.

Lemma RemoveWithPrefix_dir_effect P p :
  is_path p →
  effect P (λ c, mk_RemoveWithPrefix c (p +:+ "/")) (filter (λ kv, HasPrefix kv.1 (p +:+ "/") = false)).
Proof.
  intros Hp c [Hup Hr] _.
  destruct (law_RemoveWithPrefix c (p +:+ "/") Hup) as (c' & Hs & ? & Hk' & Hd' & Hw' & Hm).
  destruct (Hr p Hp) as (_ & _ & _ & Hd & _). rewrite Hd in Hm.
  exists c'. repeat split; try done; by eapply no_root_same.
Qed.

(** Removing some directories. *)
Definition without_dirs (dirs : list string) m : gmap string string :=
  filter (λ kv, existsb (λ d, HasPrefix kv.1 (d +:+ "/")) dirs = false) m.

Lemma without_dirs_cons d dirs m :
  without_dirs dirs (filter (λ kv, HasPrefix kv.1 (d +:+ "/") = false) m) = without_dirs (d :: dirs) m.
Proof.
  unfold without_dirs. rewrite map_filter_filter. apply map_filter_ext. intros k v _. cbn [existsb fst].
  rewrite orb_false_iff. tauto.
Qed.

Lemma without_dirs_lookup dirs m k :
  without_dirs dirs m !! k = if existsb (λ d, HasPrefix k (d +:+ "/")) dirs then None else m !! k.
Proof.
  unfold without_dirs. destruct (existsb _ dirs) eqn:Hk.
  - apply map_lookup_filter_None. right. intros v _. simpl. by rewrite Hk.
  - destruct (m !! k) eqn:Hm; [by apply map_lookup_filter_Some|]. apply map_lookup_filter_None. by left.
Qed.

Lemma effect_try P p g : effect P p g → effect P (try_ p) g.
Proof.
  intros He c Hc HP. destruct (He c Hc HP) as (c' & Hp & ? & ?). exists c'. unfold try_. by rewrite Hp.
Qed.

(** A directory can be named with or without its slash. *)
Lemma RemoveWithPrefix_all ps ds :
  Forall is_path ds → Forall2 (λ p d, p = d ∨ p = d +:+ "/") ps ds →
  effect (λ _, True) (for_each (λ p, try_ (λ c, mk_RemoveWithPrefix c p)) ps) (without_dirs ds).
Proof.
  intros Hds Hps. induction Hps as [|p d ps ds Hp Hps IH].
  { intros c Hc _. exists c. split_and!; [done..|]. symmetry. by apply map_filter_id. }
  apply list.Forall_cons in Hds as [Hd Hds]. intros c Hc HP.
  assert (effect (λ _, True) (try_ (λ c, mk_RemoveWithPrefix c p))
    (filter (λ kv, HasPrefix kv.1 (d +:+ "/") = false))) as He.
  { apply effect_try. destruct Hp as [-> | ->];
      [by apply RemoveWithPrefix_effect|by apply RemoveWithPrefix_dir_effect]. }
  destruct (effect_seq (λ _, True) (λ _, True) _ (for_each (λ p, try_ (λ c, mk_RemoveWithPrefix c p)) ps) _
    (without_dirs ds) He) with (c := c) as (c' & ? & ? & Hm); try done; [by apply IH|].
  exists c'. split_and!; [done..|]. by rewrite Hm, <-without_dirs_cons.
Qed.

Lemma RemoveWithPrefix_each {A} (f : A → string) xs :
  Forall (λ x, is_path (f x)) xs →
  effect (λ _, True) (for_each (λ x c, mk_RemoveWithPrefix c (f x)) xs) (without_dirs (map f xs)).
Proof.
  intros Hxs. induction xs as [|x xs IH].
  { intros c Hc _. exists c. split_and!; [done..|]. symmetry. by apply map_filter_id. }
  apply list.Forall_cons in Hxs as [Hx Hxs]. intros c Hc HP.
  destruct (effect_seq (λ _, True) (λ _, True) _ (for_each (λ x c, mk_RemoveWithPrefix c (f x)) xs) _
    (without_dirs (map f xs)) (RemoveWithPrefix_effect _ _ Hx)) with (c := c) as (c' & ? & ? & Hm);
    try done; [by apply IH|].
  exists c'. split_and!; [done..|]. cbn [map]. by rewrite Hm, <-without_dirs_cons.
Qed.

(** Removing each of some keys, whether they are there or not. *)
Lemma try_Remove_all P keys :
  Forall is_path keys →
  effect P (for_each (λ k, try_ (λ c, mk_Remove c k)) keys) (without keys).
Proof.
  intros Hk c Hc _.
  destruct (effect_for_each (λ _, True) (λ k, try_ (λ c, mk_Remove c k)) delete keys)
    with (c := c) as (c' & ? & ? & Hm); try done.
  - intros k Hin. apply try_Remove_effect. by eapply list.Forall_forall in Hk.
  - exists c'. split_and!; [done..|]. by rewrite Hm, foldl_delete.
Qed.

(** Removing each of some keys, all of which have to be there. *)
Lemma Remove_all keys :
  Forall is_path keys → NoDup keys →
  effect (λ m, Forall (λ k, is_Some (m !! k)) keys) (for_each (λ k c, mk_Remove c k) keys) (without keys).
Proof.
  induction keys as [|k keys IH]; intros Hk Hnd.
  { intros c Hc _. exists c. by rewrite without_nil. }
  apply list.Forall_cons in Hk as [Hk Hks]. apply list.NoDup_cons in Hnd as [Hn Hnd].
  intros c Hc [Hin Hins]%list.Forall_cons.
  destruct (effect_seq (λ m, is_Some (m !! k) ∧ Forall (λ k, is_Some (m !! k)) keys)
    (λ m, Forall (λ k, is_Some (m !! k)) keys) (λ c, mk_Remove c k) (for_each (λ k c, mk_Remove c k) keys)
    (delete k) (without keys)) with (c := c) as (c' & Hp & Hc' & Hm); [|by apply IH| |done|done|].
  - intros c0 Hc0 [Hi _]. by apply Remove_effect.
  - intros m [_ Hf]. apply list.Forall_forall. intros k' Hk'. rewrite lookup_delete_ne; [|naive_solver].
    by eapply list.Forall_forall in Hf.
  - exists c'. split_and!; [done..|]. by rewrite Hm, <-without_cons.
Qed.
End effects.

(** The keys of the listed objects, and of those that pass the filters. *)
Lemma own_models_keys {T} `{ProtoCodec T} (l : list (string * string)) :
  decodable (T:=T) l → map Key (own_models (@NewProtoWrapper T) l) = map fst l.
Proof.
  induction l as [|[k v] l IH]; [done|]. intros [[x Hx] Hl]%list.Forall_cons.
  unfold own_models in *. simpl in *. rewrite Hx. simpl. f_equal. by apply IH.
Qed.

Lemma elem_of_own_models {T M} `{ProtoCodec T} (convert : T → string → M) (l : list (string * string)) y :
  y ∈ own_models convert l ↔ ∃ k v x, (k, v) ∈ l ∧ decoded v = Some x ∧ y = convert x k.
Proof.
  unfold own_models. rewrite list_elem_of_omap. split.
  - intros ([k v] & Hin & Hy). cbn [fst snd] in Hy.
    destruct (decoded v) as [x|] eqn:Hx; [|done]. injection Hy as <-. by exists k, v, x.
  - intros (k & v & x & Hin & Hx & ->). exists (k, v). cbn [fst snd]. by rewrite Hx.
Qed.

Lemma filter_map_comm {A B} (f : A → B) (P : B → bool) l :
  map f (filter (λ x, P (f x) = true) l) = filter (λ y, P y = true) (map f l).
Proof.
  induction l as [|x l IH]; [done|]. cbn [map]. rewrite !filter_cons.
  destruct (P (f x)); [rewrite !decide_True|rewrite !decide_False]; try done. cbn [map]. by rewrite IH.
Qed.

Lemma map_own_models {T M U} `{ProtoCodec T} (convert : T → string → M) (f : M → U) (g : T → U) l :
  (∀ x k, f (convert x k) = g x) → map f (own_models convert l) = map g (omap decoded (map snd l)).
Proof.
  intros Hf. unfold own_models. induction l as [|[k v] l IH]; [done|]. simpl.
  destruct (decoded v) as [x|]; simpl; [rewrite Hf; f_equal|]; exact IH.
Qed.

Lemma NoDup_map_filter {A B} (f : A → B) (P : A → Prop) `{∀ x, Decision (P x)} l :
  NoDup (map f l) → NoDup (map f (filter P l)).
Proof.
  induction l as [|x l IH]; [done|]. cbn [map]. intros [Hn Hnd]%list.NoDup_cons. rewrite filter_cons.
  case_decide; [|by apply IH]. cbn [map]. apply list.NoDup_cons. split; [|by apply IH].
  intros (y & Hy & [_ Hin]%list_elem_of_filter)%list_elem_of_fmap. apply Hn, list_elem_of_fmap. eauto.
Qed.

(** The keys of the objects of a listing that satisfy a condition. *)
Definition holds {T} `{ProtoCodec T} (P : T → bool) (p : string) (kv : string * string) : bool :=
  HasPrefix kv.1 p && match decoded kv.2 with Some x => P x | None => false end.

Lemma elem_of_listed {K T} `{MetaKVLaws K} `{ProtoCodec T} (P : T → bool) (c : K) p k :
  k ∈ map Key (filter (λ w, P (GetProto w) = true)
                 (own_models NewProtoWrapper (prefixed (mk_map c) p)))
  ↔ ∃ v, mk_map c !! k = Some v ∧ holds P p (k, v) = true.
Proof.
  unfold holds. cbn [fst snd]. split.
  - intros (w & -> & [Hw Hin]%list_elem_of_filter)%list_elem_of_fmap.
    apply elem_of_own_models in Hin as (k & v & x & [Hv Hk]%elem_of_prefixed & Hx & ->).
    exists v. split; [done|]. cbn [Key GetProto] in *. by rewrite Hk, Hx.
  - intros (v & Hv & [Hk Hd]%andb_true_iff). destruct (decoded v) as [x|] eqn:Hx; [|done].
    apply list_elem_of_fmap. exists (NewProtoWrapper x k). split; [done|].
    apply list_elem_of_filter. split; [done|]. apply elem_of_own_models. exists k, v, x.
    split_and!; [|done..]. by apply elem_of_prefixed.
Qed.

(** Removing keys that the pairs at them decide. *)
Lemma without_pairs (P : string * string → bool) keys (m : gmap string string) :
  (∀ k, k ∈ keys ↔ ∃ v, m !! k = Some v ∧ P (k, v) = true) →
  without keys m = filter (λ kv, P kv = false) m.
Proof.
  intros Hk. apply map_eq. intros k. rewrite without_lookup. destruct (m !! k) as [v|] eqn:Hv.
  - case_bool_decide as Hin; symmetry.
    + apply Hk in Hin as (v' & Hv' & HP). apply map_lookup_filter_None. right. intros v0 Hv0.
      rewrite Hv0 in Hv'. injection Hv' as <-. by rewrite HP.
    + apply map_lookup_filter_Some. split; [done|]. apply not_true_iff_false. intros HP.
      apply Hin, Hk. eauto.
  - symmetry. case_bool_decide; apply map_lookup_filter_None; by left.
Qed.

(** ** Commands that change one part of the store and read another *)
Section agree.
Context {K : Type} `{MetaKVLaws K}.
Context `{ProtoCodec CollectionInfo} `{ProtoCodec FieldSchema} `{ProtoCodec StructArrayFieldSchema}.
Context `{ProtoCodec FunctionSchema}.
Implicit Types (c : K) (m : gmap string string).

(** The same pairs below a prefix. *)
Definition agree (p : string) m m' : Prop := ∀ k, HasPrefix k p = true → m !! k = m' !! k.

Lemma prefixed_agree p m m' : agree p m m' → prefixed m p = prefixed m' p.
Proof.
  intros Ha. apply kv_lt_unique; [apply StronglySorted_filter, sorted_kvs_sorted..|].
  intros [k v]. rewrite !elem_of_prefixed. split; intros [Hk Hp]; (split; [|done]); [by rewrite <-Ha|by rewrite Ha].
Qed.

Lemma agree_prefix p q m m' : HasPrefix q p = true → agree p m m' → agree q m m'.
Proof. intros Hq Ha k Hk. apply Ha. by eapply HasPrefix_trans. Qed.

Lemma ListProtoObjects_agree {T} `{ProtoCodec T} c c' p (fs : list (T → bool)) :
  healthy c → healthy c' → mk_key c p = mk_key c' p → agree (mk_key c p) (mk_map c) (mk_map c') →
  ListProtoObjects c p fs = ListProtoObjects c' p fs.
Proof.
  intros Hc Hc' Hk Ha. rewrite !ListProtoObjects_up by (by apply healthy_up). unfold pairs_of.
  rewrite <-Hk. by rewrite (prefixed_agree _ _ _ Ha).
Qed.

(** The directory of the root coordinator. *)
Definition root_coord (base : string) : string := base +:+ "/root-coord/".

Lemma root_coord_key base q :
  is_path base → is_path q → HasPrefix q "root-coord/" = true →
  path_Join [base; q] = joined [base; q] ∧ is_path (joined [base; q])
  ∧ HasPrefix (joined [base; q]) (root_coord base) = true
  ∧ HasPrefix (joined [base; q] +:+ "/") (root_coord base) = true.
Proof.
  intros Hb Hq Hqp. assert (Forall is_path [base; q]) as Hf by each_path.
  split_and!; [by apply path_Join_joined|by apply joined_is_path|..];
    apply HasPrefix_spec in Hqp as [r ->]; apply HasPrefix_spec; unfold root_coord; cbn [joined Join];
    eexists; rewrite !string_app_assoc; reflexivity.
Qed.

(** Reading below the root coordinator's directory. *)
Lemma root_coord_objects {T} `{ProtoCodec T} base q c c' (fs : list (T → bool)) :
  healthy c → healthy c' → is_path base → is_path q → HasPrefix q "root-coord/" = true →
  agree (root_coord base) (mk_map c) (mk_map c') →
  ListProtoObjects c (path_Join [base; q]) fs = ListProtoObjects c' (path_Join [base; q]) fs
  ∧ ListProtoObjects c (path_Join [base; q] +:+ "/") fs
    = ListProtoObjects c' (path_Join [base; q] +:+ "/") fs.
Proof.
  intros Hc Hc' Hb Hq Hqp Ha. destruct (root_coord_key base q Hb Hq Hqp) as (-> & Hp & Hp1 & Hp2).
  split; apply ListProtoObjects_agree; rewrite ?healthy_key, ?healthy_key_dir by done; try done;
    by eapply agree_prefix.
Qed.

Lemma fill_collection_agree base c c' coll :
  healthy c → healthy c' → is_path base → agree (root_coord base) (mk_map c) (mk_map c') →
  fill_collection c base coll = fill_collection c' base coll.
Proof.
  intros Hc Hc' Hb Ha. unfold fill_collection. destruct (ci_Schema (co_proto coll)); [|done].
  unfold getCollectionFields, getCollectionStructFields, ListCollectionFunctions, ListObj2Models.
  assert (∀ d n, is_path d → is_path (d +:+ "/" +:+ FormatInt n)) as Hid.
  { intros d n Hd. apply is_path_app; [done|apply FormatInt_is_path]. }
  set (id := ci_ID (co_proto coll)).
  assert (is_path ("root-coord/fields/" +:+ FormatInt id)) as Hp1
    by (apply (Hid "root-coord/fields"); is_path_dec).
  assert (is_path ("root-coord/struct-array-fields/" +:+ FormatInt id)) as Hp2
    by (apply (Hid "root-coord/struct-array-fields"); is_path_dec).
  assert (is_path ("root-coord/functions/" +:+ FormatInt id)) as Hp3
    by (apply (Hid "root-coord/functions"); is_path_dec).
  rewrite (proj1 (root_coord_objects base _ c c' [] Hc Hc' Hb Hp1 eq_refl Ha)).
  rewrite (proj1 (root_coord_objects base _ c c' [] Hc Hc' Hb Hp2 eq_refl Ha)).
  assert (path_Join [base; FunctionMetaPrefix; FormatInt id]
    = path_Join [base; "root-coord/functions/" +:+ FormatInt id]) as ->.
  { rewrite !path_Join_joined; try done; each_path. apply FormatInt_is_path. }
  by rewrite (proj2 (root_coord_objects base _ c c' [] Hc Hc' Hb Hp3 eq_refl Ha)).
Qed.

(** A listing of the collections sees that directory only. *)
Lemma ListCollections_agree base c c' fs :
  healthy c → healthy c' → is_path base → agree (root_coord base) (mk_map c) (mk_map c') →
  ListCollections c base fs = ListCollections c' base fs.
Proof.
  intros Hc Hc' Hb Ha. unfold ListCollections, ListCollectionWithoutFields, ListObj2Models.
  change CollectionMetaPrefix with "root-coord/collection".
  change DBCollectionMetaPrefix with "root-coord/database/collection-info".
  assert (is_path "root-coord/collection" ∧ is_path "root-coord/database/collection-info") as [Hp1 Hp2]
    by (split; is_path_dec).
  rewrite (proj1 (root_coord_objects base _ c c' [] Hc Hc' Hb Hp1 eq_refl Ha)).
  rewrite (proj1 (root_coord_objects base _ c c' [] Hc Hc' Hb Hp2 eq_refl Ha)).
  assert (∀ l, mapR (fill_collection c base) l = mapR (fill_collection c' base) l) as Hmap.
  { intros l. induction l as [|x l IH]; [done|]. simpl.
    rewrite (fill_collection_agree base c c') by done. by rewrite IH. }
  match goal with |- (?r ≫= _) = _ => destruct r end; simpl; [apply Hmap|done..].
Qed.

Lemma GetCollectionByIDVersion_agree base c c' id :
  healthy c → healthy c' → is_path base → agree (root_coord base) (mk_map c) (mk_map c') →
  GetCollectionByIDVersion c base id = GetCollectionByIDVersion c' base id.
Proof.
  intros. unfold GetCollectionByIDVersion. by rewrite (ListCollections_agree base c c') by done.
Qed.
End agree.

(** ** Removing several segments *)
Section segments_removed.
Context {K : Type} `{MetaKVLaws K}.
Implicit Types (c : K) (m : gmap string string).

Definition segment_keys (base : string) (ids : list Z) : list string :=
  [seg_key base "s" ids; seg_key base "binlog" ids; seg_key base "deltalog" ids; seg_key base "statslog" ids].

Lemma without_segment_keys base ids m :
  without_segment base ids m = without (segment_keys base ids) m.
Proof. unfold without_segment, segment_keys. by rewrite <-!without_cons, without_nil. Qed.

Lemma without_app ks ks' m : without ks' (without ks m) = without (ks ++ ks') m.
Proof.
  apply map_eq. intros k. rewrite !without_lookup, !bool_decide_decide.
  repeat case_decide; set_solver.
Qed.

Lemma seg_key_inj base kind kind' ids ids' :
  seg_kind kind → seg_kind kind' → ids ≠ [] → ids' ≠ [] →
  seg_key base kind ids = seg_key base kind' ids' → kind = kind' ∧ map FormatInt ids = map FormatInt ids'.
Proof.
  intros Hk Hk' Hi Hi' E. apply (f_equal (Split "/")) in E. rewrite !Split_seg_key in E by done.
  apply (inj (app _)) in E. by injection E.
Qed.

(** A segment's own key is among the keys of the same segment only. *)
Lemma elem_of_segment_keys base ids ids' :
  ids ≠ [] → ids' ≠ [] → seg_key base "s" ids ∈ segment_keys base ids' →
  seg_key base "s" ids = seg_key base "s" ids'.
Proof.
  intros Hi Hi' Hin. unfold segment_keys in Hin. rewrite !elem_of_cons in Hin.
  destruct Hin as [E|[E|[E|[E|Hin]]]]; [done|..|by apply not_elem_of_nil in Hin];
    apply seg_key_inj in E as [? _]; try done; unfold seg_kind; set_solver.
Qed.

Lemma segment_keys_dir base ids k :
  ids ≠ [] → k ∈ segment_keys base ids → HasPrefix k (base +:+ "/datacoord-meta/") = true.
Proof.
  intros Hi Hk. apply HasPrefix_spec. unfold segment_keys, seg_key in Hk. cbn [joined Join] in Hk.
  rewrite !elem_of_cons in Hk.
  destruct Hk as [-> |[-> |[-> |[-> |Hk]]]]; [..|by apply not_elem_of_nil in Hk];
    eexists; rewrite !string_app_assoc; reflexivity.
Qed.
(** Removing the records of some segments that are all there. *)
Definition keys_of_segments (base : string) (infos : list SegmentInfo) : list string :=
  concat (map (λ s, segment_keys base (segment_ids s)) infos).

Lemma remove_segments_effect base (rm : SegmentInfo → cmd K unit) infos :
  is_path base →
  (∀ s c, rm s c = RemoveSegmentByID c base (si_CollectionID s) (si_PartitionID s) (si_ID s)) →
  NoDup (map (λ s, seg_key base "s" (segment_ids s)) infos) →
  effect (λ m, Forall (λ s, is_Some (m !! seg_key base "s" (segment_ids s))) infos)
    (for_each (λ s, try_ (rm s)) infos) (without (keys_of_segments base infos)).
Proof.
  intros Hb Hrm. induction infos as [|s infos IH]; intros Hnd.
  { intros c Hc _. exists c. split_and!; [done..|]. by rewrite without_nil. }
  cbn [map] in Hnd. apply list.NoDup_cons in Hnd as [Hn Hnd]. intros c Hc [[v Hs] Hss]%list.Forall_cons.
  cbn [for_each]. unfold mbind, cmd_bind, try_ at 1. rewrite Hrm.
  destruct (RemoveSegmentByID_up c base (si_CollectionID s) (si_PartitionID s) (si_ID s) Hc Hb)
    as (c1 & r & -> & Hc1 & Hr & [Hm1|[_ Hno]]).
  2: { unfold segment_ids in Hs. congruence. }
  fold (segment_ids s) in Hm1. rewrite without_segment_keys in Hm1.
  destruct (IH Hnd c1 Hc1) as (c' & Hf & Hc' & Hm').
  - apply list.Forall_forall. intros s' Hin. rewrite Hm1, without_lookup, bool_decide_false.
    + by eapply list.Forall_forall in Hss.
    + intros Hk. apply Hn, list_elem_of_fmap. exists s'. split; [|done].
      symmetry. by eapply elem_of_segment_keys.
  - exists c'. split_and!; [by destruct Hr as [-> | ->]|done|]. rewrite Hm', Hm1, without_app. done.
Qed.

Lemma keys_of_segments_perm base l l' :
  l ≡ₚ l' → keys_of_segments base l ≡ₚ keys_of_segments base l'.
Proof. intros Hp. unfold keys_of_segments. by rewrite Hp. Qed.

Lemma keys_of_segments_dir base infos k :
  k ∈ keys_of_segments base infos → HasPrefix k (base +:+ "/datacoord-meta/") = true.
Proof.
  unfold keys_of_segments. intros (ks & Hks & Hk)%list_elem_of_In%in_concat.
  apply in_map_iff in Hks as (s & <- & _). apply list_elem_of_In in Hk.
  by apply segment_keys_dir in Hk.
Qed.

Lemma without_agree base infos m :
  agree (root_coord base) (without (keys_of_segments base infos) m) m.
Proof.
  intros k Hk. rewrite without_lookup, bool_decide_false; [done|]. intros Hin%keys_of_segments_dir.
  apply HasPrefix_spec in Hk as [r ->]. apply HasPrefix_spec in Hin as [r' Hr]. unfold root_coord in Hr.
  rewrite !string_app_assoc in Hr. by apply (inj (String.append base)) in Hr.
Qed.

Lemma for_each_filter {A B} (f : A → B) (P : B → bool) (g : B → cmd K unit) l c :
  for_each (λ x, if P (f x) then g (f x) else mret tt) l c
  = for_each g (filter (λ y, P y = true) (map f l)) c.
Proof.
  revert c. induction l as [|x l IH]; intros c; [done|]. cbn [map for_each]. rewrite filter_cons.
  destruct (P (f x)).
  - rewrite decide_True by done. cbn [for_each]. unfold mbind, cmd_bind.
    destruct (g (f x) c) as [c' [[]| |]]; [apply IH|done..].
  - rewrite decide_False by done. apply IH.
Qed.

(** A loop over groups of segments that removes some of each group, which may depend on
    the root coordinator's directory only. *)
Lemma remove_groups {G} base (rm : SegmentInfo → cmd K unit) (body : G → cmd K unit)
    (members : G → list SegmentInfo) (doomed : SegmentInfo → bool) m0 gs c :
  is_path base →
  (∀ s c, rm s c = RemoveSegmentByID c base (si_CollectionID s) (si_PartitionID s) (si_ID s)) →
  (∀ g c, g ∈ gs → healthy c → agree (root_coord base) (mk_map c) m0 →
     body g c = for_each (λ s, try_ (rm s)) (filter (λ s, doomed s = true) (members g)) c) →
  NoDup (map (λ s, seg_key base "s" (segment_ids s)) (concat (map members gs))) →
  healthy c → agree (root_coord base) (mk_map c) m0 →
  Forall (λ s, is_Some (mk_map c !! seg_key base "s" (segment_ids s))) (concat (map members gs)) →
  ∃ c', for_each body gs c = (c', Ok tt) ∧ healthy c'
    ∧ mk_map c' = without (keys_of_segments base
                    (filter (λ s, doomed s = true) (concat (map members gs)))) (mk_map c).
Proof.
  intros Hb Hrm. revert c. induction gs as [|g gs IH]; intros c Hbody Hnd Hc Ha Hin.
  { exists c. by rewrite without_nil. }
  cbn [map concat] in *. rewrite map_app in Hnd. apply list.NoDup_app in Hnd as (Hg & Hdis & Hgs).
  apply list.Forall_app in Hin as [Hin Hins]. cbn [for_each]. unfold mbind, cmd_bind.
  rewrite (Hbody g c) by (done || by left).
  destruct (remove_segments_effect base rm (filter (λ s, doomed s = true) (members g)) Hb Hrm)
    with (c := c) as (c1 & -> & Hc1 & Hm1).
  - by apply NoDup_map_filter.
  - done.
  - apply list.Forall_forall. intros s [_ Hs]%list_elem_of_filter. by eapply list.Forall_forall in Hin.
  - destruct (IH c1) as (c' & Hf & Hc' & Hm'); [by intros; apply Hbody; [right|..]|done|done| | |].
    + rewrite Hm1. intros k Hk. rewrite (without_agree base _ _ k Hk). by apply Ha.
    + apply list.Forall_forall. intros s Hs. rewrite Hm1, without_lookup, bool_decide_false.
      * by eapply list.Forall_forall in Hins.
      * intros (ks & (s' & <- & Hs')%in_map_iff & Hk)%list_elem_of_In%in_concat.
        apply list_elem_of_In, list_elem_of_filter in Hs' as [_ Hs']. apply list_elem_of_In in Hk.
        apply elem_of_segment_keys in Hk; [|done..].
        eapply (Hdis (seg_key base "s" (segment_ids s'))); apply list_elem_of_fmap; eauto.
    + exists c'. split_and!; [done..|]. rewrite Hm', Hm1, without_app. unfold keys_of_segments.
      by rewrite list.filter_app, map_app, concat_app.
Qed.
End segments_removed.
