(* ===== verification/Backup.v ===== *)
(** * Backups

    Models [states/etcd_backup.go] and [states/etcd/common/session.go]: the backup file
    is a header frame, the etcd part of [etcdKV.BackupKV], and three parts with what the
    sessions report.  Contents are those before compression; what is left in the buffer of the
    writer when the command ends is not in them.  What a session's node
    answers over HTTP or gRPC is an argument of the definitions. *)

From S2P Require Export AuditKV.

Record Session := MkSession {
  ServerID : Z;
  ServerName : string;
  Address : string;
  Exclusive : bool;
  Version : string;
  HostName : string;
  LeaseID : Z;
  session_key : string;
}.

Definition SetKey (s : Session) (key : string) : Session :=
  MkSession (ServerID s) (ServerName s) (Address s) (Exclusive s) (Version s) (HostName s)
    (LeaseID s) key.

(** [encoding/json] of sessions. *)
Class JsonSession := {
  session_Marshal : Session → res (list byte);
  session_Unmarshal : list byte → res Session;
}.

Record BackupHeader := BackupHdr {
  bh_Version : Z;
  bh_Instance : string;
  bh_MetaPath : string;
  bh_Entries : Z;
  bh_Component : string;
  bh_Extra : list byte;
}.

(** The components that [BackupCommand] tells apart. *)
Inductive milvusComponent := compAll | compQueryCoord | compOther (name : string).

Record BackupParam := MkBackupParam {
  bp_component : milvusComponent;
  bp_IgnoreRevision : bool;
  bp_BatchSize : Z;
}.

(** The servers that have a client for metrics and configurations. *)
Definition has_client (name : string) : bool :=
  bool_decide (strings_ToLower name ∈
    ["rootcoord"; "datacoord"; "indexcoord"; "querycoord"; "datanode"; "querynode"]).

Section sessions.
Context {K : Type} `{MetaKV K} `{JsonSession}.

Definition ListSessionsByPrefix (cli : K) (prefix : string) : res (list Session) :=
  '(keys, vals) ← mk_LoadWithPrefix cli prefix false;
  Ok (omap (λ kv, match session_Unmarshal (bytes_of_string kv.2) with
                  | Ok session => Some (SetKey session kv.1)
                  | _ => None
                  end) (zip keys vals)).

Definition ListSessions (cli : K) (basePath : string) : res (list Session) :=
  ListSessionsByPrefix cli (path_Join [basePath; "session"]).

Context `{ProtoCodec PartHeader}.

(** The frames a part holds for one session, if any. *)
Definition metrics_frames (fetchInstanceMetrics : Session → res (list byte * list byte))
    (session : Session) : list (list byte) :=
  match fetchInstanceMetrics session with
  | Ok (mbs, dmbs) =>
      match session_Marshal session with Ok bs => [bs; mbs; dmbs] | _ => [] end
  | _ => []
  end.

(** [fetch] stands for the dial, the call and the encoding of the answer. *)
Definition client_frames (fetch : Session → res (list byte)) (session : Session)
    : list (list byte) :=
  if has_client (ServerName session) then
    match fetch session with
    | Ok data => match session_Marshal session with Ok bs => [bs; data] | _ => [] end
    | _ => []
    end
  else [].

(** A part: its header, the frames of the sessions, and the deferred stopper. *)
Definition backup_part (cli : K) (basePath : string) (partType : Z)
    (session_frames : Session → list (list byte)) (w : bufio_Writer) : bufio_Writer * res unit :=
  match ListSessions cli basePath with
  | Err e => (w, Err e)
  | Panic p => (w, Panic p)
  | Ok sessions =>
      match proto_Marshal (PH partType (-1) []) with
      | Err e => (w, Err e)
      | Panic p => (w, Panic p)
      | Ok bs =>
          let w := writeBackupBytes w bs in
          let w := foldl (λ w session, write_frames w (session_frames session)) w sessions in
          (writeBackupBytes w [], Ok tt)
      end
  end.

Definition backupMetrics (cli : K) (basePath : string)
    (fetchInstanceMetrics : Session → res (list byte * list byte)) (w : bufio_Writer) :=
  backup_part cli basePath PartType_MetricsBackup (metrics_frames fetchInstanceMetrics) w.

Definition backupAppMetrics (cli : K) (basePath : string) (fetch : Session → res (list byte))
    (w : bufio_Writer) :=
  backup_part cli basePath PartType_AppMetrics (client_frames fetch) w.

Definition backupConfiguration (cli : K) (basePath : string) (fetch : Session → res (list byte))
    (w : bufio_Writer) :=
  backup_part cli basePath PartType_Configurations (client_frames fetch) w.
End sessions.

(** What the nodes of the sessions report. *)
Record Reports := MkReports {
  rp_metrics : Session → res (list byte * list byte);
  rp_configuration : Session → res (list byte);
  rp_appMetrics : Session → res (list byte);
}.

Section backup.
Context {St : Type} `{EtcdClient St} `{JsonSession} `{JsonStrings}.
Context `{ProtoCodec PartHeader} `{ProtoCodec KeyDataPair} `{ProtoCodec BackupHeader}.

Definition writeBackupHeader (w : bufio_Writer) (version : Z) : bufio_Writer * res unit :=
  match proto_Marshal (BackupHdr version "" "" 0 "" []) with
  | Ok bs => (bufio_Write (bufio_Write w (le_put 8 (zlen bs))) bs, Ok tt)
  | Err e => (w, Err e)
  | Panic p => (w, Panic p)
  end.

Definition backupEtcdV2 (fuel : nat) (cli : etcdKV St) (base prefix : string) (w : bufio_Writer)
    (opt : BackupParam) : option (bufio_Writer * res unit) :=
  BackupKV fuel cli base prefix w (bp_IgnoreRevision opt) (bp_BatchSize opt).

(** The errors of the parts are printed or dropped. *)
Definition ignoring_err (r : bufio_Writer * res unit)
    (k : bufio_Writer → bufio_Writer * res unit) : bufio_Writer * res unit :=
  match r with (w, Panic why) => (w, Panic why) | (w, _) => k w end.

(** What the deferred [Close]s leave in the file: nothing flushes the [bufio.Writer]
    after the last parts, so that what its buffer holds is not in the file. *)
Definition file_contents (r : bufio_Writer * res unit) : list byte * res unit := (wr_out r.1, r.2).

Definition BackupCommand (fuel : nat) (client : etcdKV St) (basePath : string) (rp : Reports)
    (p : BackupParam) : option (list byte * res unit) :=
  match bp_component p with
  | compOther name => Some ([], Err (Errorf "component not supported for separate backup"))
  | c =>
      let prefix := match c with compQueryCoord => "queryCoord-" | _ => "" end in
      let '(w, r) := writeBackupHeader bufio_NewWriter 2 in
      match r with
      | Ok _ =>
          match backupEtcdV2 fuel client basePath prefix w p with
          | None => None
          | Some (w, Panic why) => Some (file_contents (w, Panic why))
          | Some (w, _) =>
              Some (file_contents (ignoring_err (backupMetrics client basePath (rp_metrics rp) w) (λ w,
                    ignoring_err (backupConfiguration client basePath (rp_configuration rp) w) (λ w,
                    ignoring_err (backupAppMetrics client basePath (rp_appMetrics rp) w) (λ w,
                    (w, Ok tt))))))
          end
      | r => Some (file_contents (w, r))
      end
  end.
End backup.

(** ** What [BackupKV] writes *)
Section backup_properties.
Context {St : Type} `{EtcdLaws St} `{JsonStrings}.
Context `{ProtoCodec PartHeader} `{ProtoCodec KeyDataPair}.
Implicit Types (kv : etcdKV St).

Definition pair_entry (x : string * string) : KeyDataPair := KDP x.1 (bytes_of_string x.2).
Definition encodable {M} `{ProtoCodec M} (m : M) : Prop := ∃ bs, proto_Marshal m = Ok bs.

Lemma marshalled_Ok {M} `{ProtoCodec M} (m : M) :
  encodable m → proto_Marshal m = Ok (marshalled m).
Proof. intros [bs Hb]. unfold marshalled. by rewrite Hb. Qed.

Definition write_pairs (w : bufio_Writer) (l : list (string * string)) : bufio_Writer :=
  write_frames w (map (λ x, marshalled (pair_entry x)) l).

Lemma backup_pair_below prefix k v valid cur w :
  HasPrefix k prefix = true → encodable (pair_entry (k, v)) →
  backup_pair prefix (k, v) (valid, cur, w)
  = Ok (valid + 1, key_next k, writeBackupBytes w (marshalled (pair_entry (k, v)))).
Proof.
  intros Hk He. unfold backup_pair. cbn [fst snd]. rewrite Hk.
  change (KDP k (bytes_of_string v)) with (pair_entry (k, v)). by rewrite (marshalled_Ok _ He).
Qed.

(** A page of keys all below the prefix. *)
Lemma backup_pairs_all prefix l valid cur w :
  Forall (λ x, HasPrefix x.1 prefix = true) l → Forall (λ x, encodable (pair_entry x)) l →
  foldM (backup_pair prefix) l (valid, cur, w)
  = Ok (valid + zlen l, default cur (key_next ∘ fst <$> list.last l), write_pairs w l).
Proof.
  intros Hp He. revert valid cur w. induction l as [|[k v] l IH]; intros valid cur w.
  { simpl. by rewrite Z.add_0_r. }
  apply list.Forall_cons in Hp as [Hk Hp], He as [Hek He].
  cbn [foldM]. rewrite (backup_pair_below _ _ _ _ _ _ Hk Hek). cbn [mbind res_bind]. rewrite (IH Hp He).
  f_equal. rewrite zlen_cons. f_equal. f_equal; [lia|].
  destruct l as [|x l]; [done|]. change (list.last ((k, v) :: x :: l)) with (list.last (x :: l)).
  destruct (list.last (x :: l)) eqn:E; [done|]. by apply last_None in E.
Qed.

(** The pairs that the loop still has to see. *)
Definition from_key kv (cur : string) : list (string * string) :=
  matching (kv_map kv) RFromKey cur.

Definition revision_ok kv (op : GetOp) : Prop :=
  op_rev op = None ∨ op_rev op = Some (etcd_rev (client kv)).

Lemma from_key_after kv cur l1 k v l2 :
  from_key kv cur = l1 ++ (k, v) :: l2 → from_key kv (key_next k) = l2.
Proof.
  unfold from_key, matching. cbn [in_range_of]. intros Hf.
  assert (∀ c, filter (λ x : string * string, kle c x.1 = true) (sorted_kvs (kv_map kv))
               = filter (λ x, kle c x.1 && true = true) (sorted_kvs (kv_map kv))) as Heq.
  { intros c. apply list_filter_iff. intros x. by rewrite andb_true_r. }
  rewrite Heq in Hf |- *.
  exact (filter_after _ l1 l2 (λ _, true) cur k v (sorted_kvs_sorted _) Hf).
Qed.

(** The first page and what is left for the next request. *)
Lemma from_key_page kv cur op :
  let all := from_key kv cur in
  let page := if bool_decide (0 < op_limit op) then take (Z.to_nat (op_limit op)) all else all in
  all ≠ [] →
  ∃ rest, all = page ++ rest ∧ page ≠ []
    ∧ from_key kv (default cur (key_next ∘ fst <$> list.last page)) = rest.
Proof.
  intros all page Hne. exists (drop (length page) all).
  assert (all = page ++ drop (length page) all) as Hall.
  { unfold page. case_bool_decide.
    - rewrite length_take. destruct (Nat.le_ge_cases (Z.to_nat (op_limit op)) (length all)).
      + rewrite Nat.min_l by done. by rewrite take_drop.
      + rewrite Nat.min_r, drop_all, app_nil_r by done. by rewrite take_ge.
    - by rewrite drop_all, app_nil_r. }
  assert (page ≠ []) as Hp.
  { unfold page. case_bool_decide; [|done]. destruct all; [done|].
    destruct (Z.to_nat (op_limit op)) eqn:E; [lia|done]. }
  split_and!; [done..|]. destruct (exists_last Hp) as (l1 & [k v] & Hl).
  rewrite Hl at 1. rewrite last_snoc. cbn [fmap option_fmap option_map default compose fst].
  apply (from_key_after kv cur l1 k v). fold all. rewrite Hall at 1. rewrite Hl at 1.
  by rewrite <-app_assoc.
Qed.

Lemma resp_page kv cur op :
  op_countOnly op = false → op_keysOnly op = false → op_range op = RFromKey →
  resp_Kvs (answer (kv_map kv) (etcd_rev (client kv)) cur op)
  = if bool_decide (0 < op_limit op) then take (Z.to_nat (op_limit op)) (from_key kv cur)
    else from_key kv cur.
Proof. intros Hc Hk Hr. rewrite answer_kvs by done. by rewrite Hr. Qed.

Lemma backup_loop_all fuel kv op prefix cnt cur i w :
  kv_up kv → revision_ok kv op →
  op_countOnly op = false → op_keysOnly op = false → op_range op = RFromKey → cnt ≠ 0 →
  Forall (λ x, HasPrefix x.1 prefix = true) (from_key kv cur) →
  Forall (λ x, encodable (pair_entry x)) (from_key kv cur) →
  (length (from_key kv cur) < fuel)%nat →
  backup_loop fuel kv op prefix cnt cur i w = Some (write_pairs w (from_key kv cur), Ok tt).
Proof.
  intros Hup Hrev Hc Hk Hr Hcnt. revert cur i w.
  induction fuel as [|fuel IH]; intros cur i w Hp He Hf; [lia|]. cbn [backup_loop].
  rewrite etcd_Get by (done || (rewrite ?Hr; right; by right)). fold (kv_map kv). rewrite resp_page by done.
  change (resp_Count (answer (kv_map kv) (etcd_rev (client kv)) cur op))
    with (zlen (matching (kv_map kv) (op_range op) cur)). rewrite Hr. fold (from_key kv cur).
  destruct (decide (from_key kv cur = [])) as [Hnil|Hne].
  { by rewrite Hnil. }
  rewrite bool_decide_false by (unfold zlen; destruct (from_key kv cur); simpl; [done|lia]).
  destruct (from_key_page kv cur op Hne) as (rest & Hall & Hpage & Hrest).
  set (page := if bool_decide (0 < op_limit op) then _ else _) in *.
  rewrite Hall in Hp, He. apply list.Forall_app in Hp as [Hp1 Hp2], He as [He1 He2].
  rewrite (backup_pairs_all _ _ _ _ _ Hp1 He1). rewrite bool_decide_false by done.
  rewrite Hall in Hf |- *. rewrite length_app in Hf.
  assert (0 < length page)%nat by (destruct page; [done|simpl; lia]).
  rewrite IH; rewrite Hrest; [|done..|lia].
  unfold write_pairs. by rewrite map_app, write_frames_app.
Qed.

(** A key beyond the prefix: from the joined path on, but not below it. *)
Definition beyond kv (prefix : string) (cur : string) : Prop :=
  ∃ k v, (k, v) ∈ from_key kv cur ∧ kle prefix k = true ∧ HasPrefix k prefix = false.

Lemma elem_of_from_key kv cur k v :
  (k, v) ∈ from_key kv cur ↔ kv_map kv !! k = Some v ∧ kle cur k = true.
Proof.
  unfold from_key, matching. rewrite list_elem_of_filter, elem_of_sorted_kvs. simpl. tauto.
Qed.

Lemma below_lt_beyond prefix k k' :
  kle prefix k' = true → HasPrefix k prefix = true → HasPrefix k' prefix = false →
  klt k k' = true.
Proof.
  intros Hk' Hk Hn. unfold klt. destruct (kle k' k) eqn:E; [|done].
  pose proof (prefix_block _ _ _ Hk' E Hk). congruence.
Qed.

(** The current key after a page stays below every key beyond the prefix. *)
Lemma backup_pairs_beyond prefix l cur valid w k' :
  kle prefix k' = true → HasPrefix k' prefix = false → kle cur k' = true →
  Forall (λ x, encodable (pair_entry x)) l →
  ∃ valid' cur' w', foldM (backup_pair prefix) l (valid, cur, w) = Ok (valid', cur', w')
    ∧ kle cur' k' = true.
Proof.
  intros Hk' Hn Hcur He. revert valid cur w Hcur.
  induction l as [|[k v] l IH]; intros valid cur w Hcur; [by eexists _, _, _|].
  apply list.Forall_cons in He as [Hek He]. cbn [foldM].
  destruct (HasPrefix k prefix) eqn:Hk.
  - rewrite (backup_pair_below _ _ _ _ _ _ Hk Hek). cbn [mbind res_bind]. apply (IH He).
    rewrite key_next_le. by apply (below_lt_beyond prefix).
  - assert (backup_pair prefix (k, v) (valid, cur, w) = Ok (valid, cur, w)) as ->
      by (unfold backup_pair; cbn [fst snd]; by rewrite Hk).
    cbn [mbind res_bind]. by apply (IH He).
Qed.

Lemma backup_loop_beyond fuel kv op prefix cnt cur i w :
  kv_up kv → revision_ok kv op →
  op_countOnly op = false → op_keysOnly op = false → op_range op = RFromKey → cnt ≠ 0 →
  beyond kv prefix cur → map_Forall (λ k v, encodable (pair_entry (k, v))) (kv_map kv) →
  backup_loop fuel kv op prefix cnt cur i w = None.
Proof.
  intros Hup Hrev Hc Hk Hr Hcnt Hb He. revert cur i w Hb.
  induction fuel as [|fuel IH]; intros cur i w (k' & v' & Hin & Hk' & Hn); [done|].
  cbn [backup_loop]. rewrite etcd_Get by (done || (rewrite ?Hr; right; by right)). fold (kv_map kv). rewrite resp_page by done.
  change (resp_Count (answer (kv_map kv) (etcd_rev (client kv)) cur op))
    with (zlen (matching (kv_map kv) (op_range op) cur)). rewrite Hr. fold (from_key kv cur).
  rewrite bool_decide_false
    by (unfold zlen; destruct (from_key kv cur); [by apply not_elem_of_nil in Hin|simpl; lia]).
  apply elem_of_from_key in Hin as [Hm Hcur].
  destruct (backup_pairs_beyond prefix
    (if bool_decide (0 < op_limit op) then take (Z.to_nat (op_limit op)) (from_key kv cur)
     else from_key kv cur) cur 0 w k' Hk' Hn Hcur) as (valid' & cur' & w' & -> & Hcur').
  { apply list.Forall_forall. intros [k v] Hin.
    assert ((k, v) ∈ from_key kv cur) as Hf.
    { case_bool_decide; [|done]. rewrite <-(take_drop (Z.to_nat (op_limit op)) (from_key kv cur)).
      apply elem_of_app. by left. }
    apply elem_of_from_key in Hf as [Hf _]. exact (He k v Hf). }
  rewrite bool_decide_false by done. apply IH. exists k', v'. split; [|done].
  by apply elem_of_from_key.
Qed.

(** Keys beyond the prefix are skipped. *)
Lemma backup_pairs_none kv key l valid cur w :
  prefixed (kv_map kv) key = [] → (∀ x, x ∈ l → x ∈ from_key kv key) →
  foldM (backup_pair key) l (valid, cur, w) = Ok (valid, cur, w).
Proof.
  intros Hp. induction l as [|[k v] l IH]; intros Hl; [done|]. cbn [foldM].
  assert (HasPrefix k key = false) as Hk.
  { apply not_true_iff_false. intros Hk. assert ((k, v) ∈ prefixed (kv_map kv) key) as Hc.
    - apply list_elem_of_filter. split; [done|]. apply elem_of_sorted_kvs.
      apply (elem_of_from_key kv key). apply Hl. by left.
    - rewrite Hp in Hc. by apply not_elem_of_nil in Hc. }
  assert (backup_pair key (k, v) (valid, cur, w) = Ok (valid, cur, w)) as ->
    by (unfold backup_pair; cbn [fst snd]; by rewrite Hk).
  cbn [mbind res_bind]. apply IH. intros x Hx. apply Hl. by right.
Qed.

Lemma wr_data_flush w : wr_data (bufio_Flush w) = wr_data w.
Proof. unfold wr_data. simpl. apply app_nil_r. Qed.

Lemma flushed_data w data : wr_data w = data → bufio_Flush w = MkWr data [].
Proof. by intros <-. Qed.

(** The header frame of the etcd part. *)
Definition etcd_header (base : string) (cnt rev : Z) : PartHeader :=
  PH PartType_EtcdBackup (-1) (strings_Marshal (backup_meta base cnt rev)).

Lemma BackupKV_unfold fuel kv base prefix w ignoreRevision batchSize :
  let key := joinPath [base; prefix] in
  let cnt := zlen (prefixed (kv_map kv) key) in
  let rev := etcd_rev (client kv) in
  kv_up kv → encodable (etcd_header base cnt rev) →
  BackupKV fuel kv base prefix w ignoreRevision batchSize
  = match backup_loop fuel kv (Op RFromKey batchSize false false
                                 (if ignoreRevision then None else Some rev)) key cnt key 0
            (writeBackupBytes w (marshalled (etcd_header base cnt rev))) with
    | Some (w, Ok _) => Some (bufio_Flush (writeBackupBytes (bufio_Flush w) []), Ok tt)
    | r => r
    end.
Proof.
  intros key cnt rev Hup He. unfold BackupKV.
  rewrite etcd_Get by (done || (by left) || (right; by left)).
  fold (kv_map kv). fold key.
  change (resp_Count (answer (kv_map kv) (etcd_rev (client kv)) key (Op RPrefix 0 false true None)))
    with cnt.
  change (resp_Revision (answer (kv_map kv) (etcd_rev (client kv)) key
    (Op RPrefix 0 false true None))) with rev.
  fold (etcd_header base cnt rev). by rewrite (marshalled_Ok _ He).
Qed.

Lemma from_key_prefixed kv key :
  ¬ beyond kv key key → from_key kv key = prefixed (kv_map kv) key.
Proof.
  intros Hb. unfold from_key, matching, prefixed. apply filter_ext_in. intros [k v] Hin. simpl. split; [|by intros ?%kle_prefix].
  intros Hk. destruct (HasPrefix k key) eqn:E; [done|]. exfalso. apply Hb. exists k, v.
  split_and!; [|done..]. apply elem_of_from_key. by apply elem_of_sorted_kvs in Hin.
Qed.

Lemma BackupKV_written fuel kv base prefix w ignoreRevision batchSize :
  let key := joinPath [base; prefix] in
  let pairs := prefixed (kv_map kv) key in
  let header := etcd_header base (zlen pairs) (etcd_rev (client kv)) in
  kv_up kv → ¬ beyond kv key key → pairs ≠ [] → encodable header →
  Forall (λ x, encodable (pair_entry x)) pairs → (length pairs < fuel)%nat →
  BackupKV fuel kv base prefix w ignoreRevision batchSize
  = Some (MkWr (wr_data w
                  ++ frames (marshalled header :: map (λ x, marshalled (pair_entry x)) pairs ++ [[]]))
            [], Ok tt).
Proof.
  intros key pairs header Hup Hb Hne Hh He Hf. rewrite BackupKV_unfold by done.
  rewrite backup_loop_all; rewrite ?from_key_prefixed; try done.
  - do 2 f_equal. fold key pairs header. apply flushed_data.
    rewrite wr_data_frame, wr_data_flush. unfold write_pairs.
    rewrite wr_data_frames, wr_data_frame. autorewrite with go_frames. done.
  - unfold revision_ok. destruct ignoreRevision; [by left|by right].
  - unfold zlen. fold key pairs. destruct pairs; simpl; [done|lia].
  - apply list.Forall_forall. intros x Hx. by apply list_elem_of_filter in Hx as [? _].
Qed.


(** When the store has a key after the keys of the prefix, [BackupKV]
    never returns however many requests it makes; unless the prefix has no key at all:
    then it panics at the first page. *)
Theorem BackupKV_beyond fuel kv base prefix w ignoreRevision batchSize :
  let key := joinPath [base; prefix] in
  let pairs := prefixed (kv_map kv) key in
  let header := etcd_header base (zlen pairs) (etcd_rev (client kv)) in
  kv_up kv → beyond kv key key → encodable header →
  map_Forall (λ k v, encodable (pair_entry (k, v))) (kv_map kv) →
  BackupKV fuel kv base prefix w ignoreRevision batchSize
  = match fuel, pairs with
    | S _, [] => Some (writeBackupBytes w (marshalled header), Panic "integer divide by zero")
    | _, _ => None
    end.
Proof.
  intros key pairs header Hup Hb Hh He. rewrite BackupKV_unfold by done.
  fold key pairs header. set (op := Op RFromKey _ _ _ _).
  assert (revision_ok kv op) as Hrev
    by (unfold revision_ok, op; destruct ignoreRevision; [by left|by right]).
  destruct pairs as [|x l] eqn:Hp.
  - destruct fuel as [|fuel]; [done|]. destruct Hb as (k' & v' & Hin & Hk' & Hn). cbn [backup_loop].
    rewrite etcd_Get by (done || (rewrite ?Hr; right; by right)). fold (kv_map kv). rewrite resp_page by done.
    change (resp_Count (answer (kv_map kv) (etcd_rev (client kv)) key op))
      with (zlen (from_key kv key)).
    rewrite bool_decide_false
      by (unfold zlen; destruct (from_key kv key); [by apply not_elem_of_nil in Hin|simpl; lia]).
    rewrite (backup_pairs_none kv); [done..|]. intros x. case_bool_decide; [|done].
    rewrite <-(take_drop (Z.to_nat (op_limit op)) (from_key kv key)) at 2. rewrite elem_of_app. by left.
  - rewrite backup_loop_beyond; try done. by destruct fuel.
Qed.
End backup_properties.

(** ** Concrete encodings and an example *)
Class ProtoLaws (M : Type) `{ProtoCodec M} (default : M) := {
  proto_roundtrip m bs : proto_Marshal m = Ok bs → proto_Unmarshal bs = Ok m;
  proto_empty : proto_Unmarshal [] = Ok default;
}.

#[export] Instance sample_part_codec : ProtoCodec PartHeader := {
  proto_Marshal h :=
    if bool_decide (in_u 32 (PartType h) ∧ in_s 64 (PartLen h))
    then Ok (le_put 4 (PartType h) ++ le_put 8 (PartLen h) ++ Extra h)
    else Err (Errorf "proto");
  proto_Unmarshal bs :=
    match bs with
    | [] => Ok (PH 0 0 [])
    | _ =>
        if bool_decide (length bs < 12)%nat then Err (Errorf "proto")
        else Ok (PH (le_get (take 4 bs)) (int64 (le_get (take 8 (drop 4 bs)))) (drop 12 bs))
    end;
}.

#[export] Instance sample_pair_codec : ProtoCodec KeyDataPair := {
  proto_Marshal p :=
    let key := bytes_of_string (kdp_Key p) in
    if bool_decide (zlen key < 2 ^ 32) then Ok (le_put 4 (zlen key) ++ key ++ kdp_Data p)
    else Err (Errorf "proto");
  proto_Unmarshal bs :=
    match bs with
    | [] => Ok (KDP "" [])
    | _ =>
        let n := Z.to_nat (le_get (take 4 bs)) in
        if bool_decide (length bs < 4 + n)%nat then Err (Errorf "proto")
        else Ok (KDP (string_of_bytes (take n (drop 4 bs))) (drop (4 + n) bs))
    end;
}.

(** Keys and values, each after its length. *)
#[export] Instance sample_strings_codec : JsonStrings := {
  strings_Marshal m :=
    concat (map (λ x, le_put 4 (zlen (bytes_of_string x.1)) ++ bytes_of_string x.1
                      ++ le_put 4 (zlen (bytes_of_string x.2)) ++ bytes_of_string x.2)
              (map_to_list m));
  strings_Unmarshal :=
    (fix go fuel (m : gmap string string) bs :=
       match fuel, bs with
       | _, [] => Ok m
       | O, _ => Err (Errorf "json")
       | S fuel, _ =>
           let n := Z.to_nat (le_get (take 4 bs)) in
           let key := string_of_bytes (take n (drop 4 bs)) in
           let bs := drop (4 + n) bs in
           let n := Z.to_nat (le_get (take 4 bs)) in
           go fuel (<[key := string_of_bytes (take n (drop 4 bs))]> m) (drop (4 + n) bs)
       end) 100%nat ∅;
}.

(** The backup of the store under [by-dev], which has the last keys of the store, and
    of the whole of a store with keys after it. *)
Definition sample_store : etcdKV (gmap string string) :=
  EtcdKV {["by-dev/a" := "1"; "by-dev/ab" := ""; "aa/x" := "3"]} "by-dev".

Lemma not_beyond_sample : ¬ beyond sample_store "by-dev" "by-dev".
Proof.
  intros (k & v & Hin & Hk & Hn). revert Hin.
  assert (from_key sample_store "by-dev" = prefixed (kv_map sample_store) "by-dev") as ->
    by (vm_compute; reflexivity).
  intros [Hp _]%list_elem_of_filter. simpl in Hp. congruence.
Qed.


Lemma BackupKV_beyond_witness :
  (∀ fuel, BackupKV fuel sample_store "aa" "" bufio_NewWriter true 10 = None)
  ∧ ∃ w, BackupKV 5 sample_store "ab" "" bufio_NewWriter true 10 = Some (w, Panic "integer divide by zero").
Proof.
  assert (map_Forall (λ k v, encodable (pair_entry (k, v))) (kv_map sample_store)) as He.
  { intros k v Hk. apply elem_of_sorted_kvs in Hk. revert Hk.
    assert (sorted_kvs (kv_map sample_store)
            = [("aa/x", "3"); ("by-dev/a", "1"); ("by-dev/ab", "")]) as -> by (vm_compute; reflexivity).
    rewrite !elem_of_cons. intros Hk.
    repeat destruct Hk as [[= -> ->]|Hk]; [eexists; vm_compute; reflexivity..|].
    by apply not_elem_of_nil in Hk. }
  assert (∀ base, klt base "by-dev/a" = true → HasPrefix "by-dev/a" base = false →
            beyond sample_store base base) as Hb.
  { intros base Hlt Hn. exists "by-dev/a", "1". apply klt_le in Hlt. split_and!; [|done..].
    apply elem_of_from_key. by split. }
  split.
  - intros fuel. rewrite BackupKV_beyond; [by destruct fuel|exact I| | |exact He].
    + by apply Hb.
    + eexists. vm_compute. reflexivity.
  - eexists. rewrite BackupKV_beyond; [vm_compute; reflexivity|exact I| | |exact He].
    + by apply Hb.
    + eexists. vm_compute. reflexivity.
Defined.
