(* ===== verification/Remove.v ===== *)
(** * The remove commands

    Models [states/etcd/remove]: the commands that delete what is left over in the
    metadata store.  Each command lists what it looks for, prints it, and deletes it if it
    is told to run. *)

From S2P Require Export Commands Backup.

(** ** The messages *)
Record IndexInfo := MkIndexInfo {
  ii_CollectionID : Z;
  ii_FieldID : Z;
  ii_IndexName : string;
  ii_IndexID : Z;
  ii_TypeParams : list (string * string);
  ii_IndexParams : list (string * string);
  ii_IndexedRows : Z;
  ii_TotalRows : Z;
  ii_State : Z;
  ii_IndexStateFailReason : string;
  ii_IsAutoIndex : bool;
  ii_UserIndexParams : list (string * string);
  ii_rest : string;                    (* the fields that the program does not name *)
}.

Record FieldIndex := MkFieldIndex {
  fi_IndexInfo : option IndexInfo;
  fi_Deleted : bool;
  fi_CreateTime : Z;
}.

Record CompactionTask := MkCompactionTask {
  ct_PlanID : Z;
  ct_TriggerID : Z;
  ct_State : Z;
  ct_Type : Z;
  ct_CollectionID : Z;
  ct_PartitionID : Z;
}.

Record StatsTask := MkStatsTask {
  st_CollectionID : Z;
  st_SegmentID : Z;
  st_TaskID : Z;
  st_State : Z;
  st_SubJobType : Z;
}.

Record ImportJob := MkImportJob { ij_JobID : Z; ij_rest : string }.

#[export] Instance IndexInfo_eq_dec : EqDecision IndexInfo.
Proof. solve_decision. Defined.
#[export] Instance FieldIndex_eq_dec : EqDecision FieldIndex.
Proof. solve_decision. Defined.
#[export] Instance CompactionTask_eq_dec : EqDecision CompactionTask.
Proof. solve_decision. Defined.
#[export] Instance StatsTask_eq_dec : EqDecision StatsTask.
Proof. solve_decision. Defined.
#[export] Instance ImportJob_eq_dec : EqDecision ImportJob.
Proof. solve_decision. Defined.

(** The getters of a message that may be nil. *)
Definition GetIndexID (x : FieldIndex) : Z :=
  match fi_IndexInfo x with Some i => ii_IndexID i | None => 0 end.
Definition GetCollectionID (x : FieldIndex) : Z :=
  match fi_IndexInfo x with Some i => ii_CollectionID i | None => 0 end.

(** The generated names of the numbers of an enumeration. *)
Class EnumStrings := {
  CompactionType_String : Z → string;
  CompactionTaskState_String : Z → string;
  StatsSubJob_String : Z → string;
  JobState_String : Z → string;
  SegmentState_String : Z → string;
}.


(** [s[n:]]. *)
Definition slice_from (s : string) (n : nat) : res string :=
  if (n <=? String.length s)%nat then Ok (String.substring n (String.length s - n) s)
  else Panic "slice bounds out of range".

(** ** The commands *)
Section remove.
Context {K : Type} `{MetaKV K} `{EnumStrings} `{MapOrder}.
Context `{ProtoCodec CollectionInfo} `{ProtoCodec FieldSchema} `{ProtoCodec StructArrayFieldSchema}.
Context `{ProtoCodec FunctionSchema} `{ProtoCodec SegmentInfo} `{ProtoCodec PbFieldBinlog}.
Context `{ProtoCodec ChannelWatchInfo} `{ProtoCodec MsgPosition} `{ProtoCodec FieldIndex}.
Context `{ProtoCodec CompactionTask} `{ProtoCodec StatsTask} `{ProtoCodec ImportJob}.
Variable basePath : string.

(** *** [collection_clean.go] *)
Definition paginationSize : Z := 2000.

(** Whether the callback removes a key: no part of the key after the prefix is the
    identifier of a collection. *)
Definition leaked (ids : list string) (prefix : string) (opts : list (string → bool))
    (sKey : string) : res bool :=
  if existsb (λ opt, opt sKey) opts then Ok false
  else key ← slice_from sKey (String.length prefix);
       Ok (negb (existsb (λ s, bool_decide (s ∈ ids)) (Split "/" key))).

Definition clean_key (ids : list string) (run : bool) (prefix : string) (opts : list (string → bool))
    (k v : string) : cmd K unit :=
  gone ← of_res (leaked ids prefix opts k);
  if (gone : bool) && run then (λ c, mk_Remove c k) else mret tt.

Definition cleanMetaFn (fuel : nat) (ids : list string) (run : bool) (prefix : string)
    (opts : list (string → bool)) (c : K) : option (K * res unit) :=
  mk_WalkWithPrefix K fuel (λ c, c) prefix paginationSize (clean_key ids run prefix opts) c.

(** One walk after the other, until one fails. *)
Fixpoint clean_prefixes (fuel : nat) (ids : list string) (run : bool)
    (prefixes : list (string * list (string → bool))) (c : K) : option (K * res unit) :=
  match prefixes with
  | [] => Some (c, Ok tt)
  | (prefix, opts) :: prefixes =>
      '(c, r) ← cleanMetaFn fuel ids run prefix opts c;
      match r with Ok _ => clean_prefixes fuel ids run prefixes c | r => Some (c, r) end
  end.

Definition clean_targets : list (string * list (string → bool)) :=
  [(path_Join [basePath; CollectionMetaPrefix], []);
   (path_Join [basePath; DBCollectionMetaPrefix], []);
   (path_Join [basePath; FieldMetaPrefix], []);
   (path_Join [basePath; SnapshotPrefix; FieldMetaPrefix], []);
   (path_Join [basePath; PartitionPrefix], []);
   (path_Join [basePath; SnapshotPrefix; PartitionPrefix], []);
   (path_Join [basePath; DCPrefix; SegmentMetaPrefix],
    [λ key, HasPrefix key (path_Join [basePath; DCPrefix; SegmentStatsMetaPrefix])])].

Definition CollectionMetaLeakedCommand (fuel : nat) (run : bool) (c : K) : option (K * res unit) :=
  match ListCollections c basePath [] with
  | Ok collections =>
      clean_prefixes fuel (map (λ col, FormatInt (ci_ID (co_proto col))) collections) run
        clean_targets c
  | Err e => Some (c, Err e)
  | Panic w => Some (c, Panic w)
  end.

(** *** [collection_dropping.go] *)
Definition is_dropped (c : Collection) : bool :=
  bool_decide (ci_State (co_proto c) = CollectionState_CollectionDropping)
  || bool_decide (ci_State (co_proto c) = CollectionState_CollectionDropped).

Definition drop_prefixes (collection : CollectionInfo) : list string :=
  let id := FormatInt (ci_ID collection) in
  let collectionKey :=
    if bool_decide (ci_DbId collection ≠ 0)
    then "root-coord/database/collection-info/" +:+ FormatInt (ci_DbId collection) +:+ "/" +:+ id
    else "root-coord/collection/" +:+ id in
  [path_Join [basePath; "root-coord/fields/" +:+ id] +:+ "/";
   path_Join [basePath; SnapshotPrefix; "root-coord/fields/" +:+ id] +:+ "/";
   path_Join [basePath; "root-coord/partitions/" +:+ id] +:+ "/";
   path_Join [basePath; SnapshotPrefix; "root-coord/partitions/" +:+ id] +:+ "/";
   path_Join [basePath; SnapshotPrefix; collectionKey]].

Definition channel_keys (channel : Channel) : list string :=
  [path_Join [basePath; "datacoord-meta/channel-cp"; ch_VirtualName channel];
   path_Join [basePath; "datacoord-meta/channel-removal"; ch_VirtualName channel]].

Definition cleanCollectionMeta (info : Collection) (run : bool) : cmd K unit :=
  let collection := co_proto info in
  if bool_decide (co_key info = "") then
    schema ← of_res (deref (ci_Schema collection));
    stop (Errorf "Collection key is empty string, cannot perform cleanup")
  else
    watchInfos ← reads (λ cli,
      infos ← ListChannelWatch cli basePath [];
      filterR (λ cw, vchan ← deref (cw_Vchan (GetProto cw));
                     Ok (bool_decide (vc_CollectionID vchan = ci_ID collection))) infos);
    if existsb (λ w : ProtoWrapper ChannelWatchInfo, bool_decide (Key w = "")) watchInfos
    then stop (Errorf "channel watch info key is empty")
    else
      channels ← of_res (Channels info);
      let keys := co_key info :: map Key watchInfos ++ concat (map channel_keys channels) in
      if negb run then mret tt
      else
        for_each (λ prefix, try_ (λ c, mk_RemoveWithPrefix c prefix)) (drop_prefixes collection);;
        for_each (λ key, try_ (λ c, mk_Remove c key)) keys.

Definition CollectionDropCommand (collectionID : Z) (run : bool) : cmd K unit :=
  collections ← (
    if bool_decide (0 < collectionID) then
      collection ← reads (λ cli, GetCollectionByIDVersion cli basePath collectionID);
      mret (if is_dropped collection then [collection] else [])
    else reads (λ cli, ListCollections cli basePath [is_dropped]));
  for_each (λ collection,
    _ ← of_res (deref (ci_Schema (co_proto collection)));
    cleanCollectionMeta collection run) collections.

(** *** [binlog.go] *)
Definition backupKeyPrefix := "birdwatcher/backup".

Definition backupBinlog (key : string) : cmd K unit :=
  val ← reads (λ c, mk_Load c key false);
  λ c, mk_Save c (path_Join [backupKeyPrefix; key]) val.

Definition restoreBinlog (key : string) : cmd K unit :=
  val ← reads (λ c, mk_Load c (path_Join [backupKeyPrefix; key]) false);
  λ c, mk_Save c key val.

Definition getFieldBinlog (key : string) (c : K) : res PbFieldBinlog :=
  value ← mk_Load c key false; proto_Unmarshal (bytes_of_string value).

Definition removeLogFromFieldBinlog (logID : Z) (fieldBinlog : PbFieldBinlog) : PbFieldBinlog :=
  MkPbFieldBinlog (pfb_FieldID fieldBinlog)
    (filter (λ b, logID ≠ pb_LogID b) (pfb_Binlogs fieldBinlog)) (pfb_ChildFields fieldBinlog).

Definition saveFieldBinlog (key : string) (fieldBinlog : PbFieldBinlog) : cmd K unit :=
  mb ← of_res (encoded fieldBinlog); λ c, mk_Save c key mb.

Record RemoveBinlogParam := MkRemoveBinlog {
  rb_LogType : string;
  rb_CollectionID : Z;
  rb_PartitionID : Z;
  rb_SegmentID : Z;
  rb_FieldID : Z;
  rb_LogID : Z;
  rb_Restore : bool;
  rb_RemoveAll : bool;
  rb_Run : bool;
}.

Definition binlog_key (p : RemoveBinlogParam) : string :=
  path_Join [basePath; "datacoord-meta"; rb_LogType p +:+ "/" +:+
    ids_path [rb_CollectionID p; rb_PartitionID p; rb_SegmentID p; rb_FieldID p]].

Definition RemoveBinlogCommand (p : RemoveBinlogParam) : cmd K unit :=
  if bool_decide (rb_LogType p ∈ ["binlog"; "deltalog"; "statslog"]) then
    let key := binlog_key p in
    if rb_Restore p then restoreBinlog key
    else
      backupBinlog key;;
      fieldBinlog ← reads (getFieldBinlog key);
      if rb_RemoveAll p then
        if rb_Run p then (λ c, mk_Remove c key) else mret tt
      else if rb_Run p then saveFieldBinlog key (removeLogFromFieldBinlog (rb_LogID p) fieldBinlog)
      else mret tt
  else stop (Errorf "p.LogType unknown").

(** *** [bulkinsert.go] *)
Definition RemoveImportJobCommand (jobID : Z) (run : bool) : cmd K unit :=
  jobs ← reads (λ c, ListImportJobs c basePath [λ job, bool_decide (ij_JobID (GetProto job) = jobID)]);
  match jobs with
  | [job] => if run then (λ c, mk_Remove c (Key job)) else mret tt
  | _ => mret tt
  end.

(** *** [channel.go] *)
Definition RemoveChannelCommand (channel : string) (run force : bool) : cmd K unit :=
  collections ← reads (λ c, ListCollections c basePath []);
  let validChannels := concat (map (λ col, ci_VirtualChannelNames (co_proto col)) collections) in
  let selected name := (String.length channel =? 0)%nat || bool_decide (name = channel) in
  let target name := negb (bool_decide (name ∈ validChannels)) || force in
  watchChannels ← reads (λ c, ListChannelWatch c basePath [λ w, selected (cw_ChannelName (GetProto w))]);
  cps ← reads (λ c, ListChannelCheckpoint c basePath [λ p, selected (mp_ChannelName (GetProto p))]);
  let targets :=
    map Key (filter (λ w, target (cw_ChannelName (GetProto w)) = true) watchChannels)
    ++ map Key (filter (λ p, target (mp_ChannelName (GetProto p)) = true) cps) in
  if run then for_each (λ path, try_ (λ c, mk_Remove c path)) targets else mret tt.

(** *** [compaction_task.go] and [stats_task.go] *)
Record CompactionTaskParam := MkCompactionParam {
  cp_CompactionType : string;
  cp_JobID : string;
  cp_TaskID : string;
  cp_State : string;
  cp_CollectionID : Z;
  cp_PartitionID : Z;
}.

(** A string parameter that is given and differs. *)
Definition differs (param value : string) : bool :=
  bool_decide (param ≠ "") && bool_decide (param ≠ value).

Definition compaction_filter (p : CompactionTaskParam) (w : ProtoWrapper CompactionTask) : bool :=
  let task := GetProto w in
  negb (differs (cp_CompactionType p) (CompactionType_String (ct_Type task))
        || differs (cp_JobID p) (FormatInt (ct_TriggerID task))
        || differs (cp_TaskID p) (FormatInt (ct_PlanID task))
        || differs (cp_State p) (CompactionTaskState_String (ct_State task))
        || bool_decide (0 < cp_CollectionID p) && bool_decide (ct_CollectionID task ≠ cp_CollectionID p)
        || bool_decide (0 < cp_PartitionID p) && bool_decide (ct_PartitionID task ≠ cp_PartitionID p)).

Definition RemoveCompactionTaskCommand (p : CompactionTaskParam) (run : bool) : cmd K unit :=
  tasks ← reads (λ c, ListCompactionTask c basePath [compaction_filter p]);
  if run then for_each (λ task c, mk_RemoveWithPrefix c (Key task)) tasks else mret tt.

Record StatsTaskParam := MkStatsParam {
  sp_SubJobType : string;
  sp_TaskID : string;
  sp_State : string;
  sp_CollectionID : Z;
  sp_SegmentID : Z;
}.

Definition stats_filter (p : StatsTaskParam) (w : ProtoWrapper StatsTask) : bool :=
  let task := GetProto w in
  negb (bool_decide (sp_SubJobType p ≠ StatsSubJob_String (st_SubJobType task))
        || differs (sp_TaskID p) (FormatInt (st_TaskID task))
        || differs (sp_State p) (JobState_String (st_State task))
        || bool_decide (sp_CollectionID p ≠ 0) && bool_decide (st_CollectionID task ≠ sp_CollectionID p)
        || bool_decide (sp_SegmentID p ≠ 0) && bool_decide (st_SegmentID task ≠ sp_SegmentID p)).

Definition RemoveStatsTaskCommand (p : StatsTaskParam) (run : bool) : cmd K unit :=
  if bool_decide (sp_SubJobType p = "") then stop (Errorf "subJobType parameter is required")
  else
    tasks ← reads (λ c, ListStatsTask c basePath [stats_filter p]);
    if run then for_each (λ task c, mk_RemoveWithPrefix c (Key task)) tasks else mret tt.

(** *** [dirty_importing_segment.go] *)
Definition remove_ids (info : SegmentInfo) : cmd K unit := λ c,
  RemoveSegmentByID c basePath (si_CollectionID info) (si_PartitionID info) (si_ID info).

Definition in_collection (collectionID : Z) (s : ModelSegment K) : bool :=
  bool_decide (collectionID = 0) || bool_decide (si_CollectionID (sg_info s) = collectionID).

(** [uint64(p.Ts)]: a negative timestamp is a great one. *)
Definition dirty (ts : Z) (info : SegmentInfo) : bool :=
  let dml := GetTimestamp (si_DmlPosition info) in
  let segmentTs := if bool_decide (dml = 0) then GetTimestamp (si_StartPosition info) else dml in
  bool_decide (si_State info = SegmentState_Importing)
  && (bool_decide (si_NumOfRows info = 0) && bool_decide (segmentTs < uint64 ts)).

Definition DirtyImportingSegmentCommand (collectionID ts : Z) (run : bool) : cmd K unit :=
  segments ← reads (λ c, ListSegments c basePath [in_collection collectionID]);
  let groups := GroupBy (λ s, si_CollectionID (sg_info s)) segments in
  for_each (λ '(_, segments),
    for_each (λ s, if dirty ts (sg_info s) && run then try_ (remove_ids (sg_info s)) else mret tt)
      segments) (range groups).

(** *** [etcd_config.go] *)
Definition RemoveEtcdConfigCommand (key : string) (run : bool) : cmd K unit :=
  if bool_decide (key = "") then mret tt
  else
    _ ← reads (λ c, GetEtcdConfig c basePath key);
    if run then (λ c, RemoveEtcdConfig c basePath key) else mret tt.

(** *** [index.go] *)
Definition RemoveIndexCommand (indexID : Z) (run : bool) : cmd K unit :=
  indexes ← reads (λ c, ListIndex c basePath [λ w, bool_decide (GetIndexID (GetProto w) = indexID)]);
  if run then for_each (λ index c, mk_Remove c (Key index)) indexes else mret tt.

(** *** [segment_orphan.go] *)
Definition SegmentOrphanCommand (collectionID : Z) (run : bool) : cmd K unit :=
  segments ← reads (λ c, ListSegments c basePath [in_collection collectionID]);
  let groups := GroupBy (λ s, si_CollectionID (sg_info s)) segments in
  for_each (λ '(id, segments),
    found ← attempt (reads (λ c, GetCollectionByIDVersion c basePath id));
    if match found with Err e => bool_decide (e = ErrCollectionNotFound) | _ => false end && run
    then for_each (λ s, try_ (remove_ids (sg_info s))) segments
    else mret tt) (range groups).
End remove.

(** *** [segment.go]

    The files of the local machine; [os_Stat] tells whether a path exists. *)
Class OsFiles (F : Type) := {
  os_Stat : F → string → bool;
  os_MkdirAll : F → string → F * res unit;
  os_OpenFile : F → string → F * res unit;
  os_Write : F → string → list byte → F * res unit;
}.

Section remove_segment.
Context {K F : Type} `{MetaKV K} `{OsFiles F} `{EnumStrings} `{ProtoCodec SegmentInfo}.
Context `{ProtoCodec PbFieldBinlog}.
Variable basePath : string.

(** [now] is the time as the file's name has it. *)
Definition backupSegmentInfo (info : SegmentInfo) (backupDir now : string) (fs : F) : F * res unit :=
  let '(fs, err) := if os_Stat fs backupDir then (fs, Ok tt) else os_MkdirAll fs backupDir in
  match err with
  | Ok _ =>
      let filePath := backupDir +:+ "/bw_etcd_segment_" +:+ FormatInt (si_ID info) +:+ "." +:+ now
                      +:+ ".bak" in
      let '(fs, err) := os_OpenFile fs filePath in
      match err with
      | Ok _ => match proto_Marshal info with
                | Ok bs => os_Write fs filePath bs
                | Err e => (fs, Err e)
                | Panic w => (fs, Panic w)
                end
      | err => (fs, err)
      end
  | err => (fs, err)
  end.

Record SegmentParam := MkSegmentParam {
  rp_SegmentID : Z;
  rp_CollectionID : Z;
  rp_State : string;
  rp_MaxNum : Z;
  rp_Run : bool;
}.

Definition segment_filter (p : SegmentParam) (info : SegmentInfo) : bool :=
  (bool_decide (rp_CollectionID p = 0) || bool_decide (si_CollectionID info = rp_CollectionID p))
  && (bool_decide (rp_SegmentID p = 0) || bool_decide (si_ID info = rp_SegmentID p))
  && (bool_decide (rp_State p = "") || EqualFold (SegmentState_String (si_State info)) (rp_State p)).

(** [opFunc]; the count is that of the removed segments, or of those found. *)
Definition remove_op (p : SegmentParam) (backupDir now : string) (info : SegmentInfo)
    (st : K * F * Z) : (K * F * Z) * res unit :=
  let '(c, fs, cnt) := st in
  if negb (rp_Run p) then ((c, fs, cnt + 1), Ok tt)
  else
    let '(fs, err) := backupSegmentInfo info backupDir now fs in
    match err with
    | Ok _ =>
        let '(c, err) := RemoveSegment c basePath info in
        match err with
        | Ok _ => ((c, fs, cnt + 1), Ok tt)
        | err => ((c, fs, cnt), err)
        end
    | err => ((c, fs, cnt), err)
    end.

(** The error of the walk is printed only. *)
Definition RemoveSegmentCommand (fuel : nat) (p : SegmentParam) (backupDir now : string)
    (c : K) (fs : F) : option (K * F * Z * res unit) :=
  '(st, err) ← WalkAllSegments fuel (λ st, st.1.1) basePath (Some (segment_filter p))
     (remove_op p backupDir now) (rp_MaxNum p) (c, fs, 0);
  Some (st, match err with Panic w => Panic w | _ => Ok tt end).
End remove_segment.

(** *** [session.go]

    The leases of an etcd client.  [MustGetETCDClient] panics for another store;
    [Revoke] answers [None] for [ErrLeaseNotFound]. *)
Class Leases (K : Type) := {
  MustGetETCDClient : K → res unit;
  Revoke : K → Z → K * res (option unit);
}.

Section remove_session.
Context {K : Type} `{MetaKV K} `{Leases K} `{JsonSession}.
Variable basePath : string.

Definition revoke (session : Session) : cmd K unit :=
  reads MustGetETCDClient;;
  _ ← (λ c, Revoke c (LeaseID session));
  mret tt.

(** [errors.Is(err, kv.ErrKeyNotFound)] for the session's key. *)
Definition key_gone (c : K) (session : Session) : res bool :=
  match mk_Load c (session_key session) false with
  | Err e => Ok (bool_decide (e = ErrKeyNotFound))
  | Ok _ => Ok false
  | Panic w => Panic w
  end.

Definition RemoveSessionCommand (component : string) (nodeID : Z) (run : bool) : cmd K unit :=
  sessions ← reads (λ c, ListSessions c basePath);
  let sessions := filter (λ s, EqualFold (ServerName s) component = true ∧ ServerID s = nodeID) sessions in
  if negb run then mret tt
  else
    for_each revoke sessions;;
    gone ← reads (λ c, mapR (key_gone c) sessions);
    if forallb id gone then mret tt else stop (Errorf "validation failed").
End remove_session.

(** ** What the commands do *)
Lemma slice_from_prefix p t : slice_from (p +:+ t) (String.length p) = Ok t.
Proof.
  unfold slice_from. rewrite string_length_app, (proj2 (Nat.leb_le _ _)) by lia. f_equal. apply substring_app. lia.
Qed.

Section clean_properties.
Context {K : Type} `{MetaKVLaws K}.
Context `{ProtoCodec CollectionInfo} `{ProtoCodec FieldSchema} `{ProtoCodec StructArrayFieldSchema}.
Context `{ProtoCodec FunctionSchema}.
Implicit Types (c : K) (m : gmap string string).

(** A walk whose callback removes some of the keys. *)
Lemma walk_removes (gone : string → bool) (fn : string → string → cmd K unit) l c :
  healthy c → NoDup (map fst l) →
  Forall (λ kv, is_path kv.1 ∧ is_Some (mk_map c !! kv.1)) l →
  Forall (λ kv, ∀ c, fn kv.1 kv.2 c = if gone kv.1 then mk_Remove c kv.1 else (c, Ok tt)) l →
  ∃ c', walk_page fn l c = (c', Ok tt) ∧ healthy c'
    ∧ mk_map c' = without (filter (λ k, gone k = true) (map fst l)) (mk_map c).
Proof.
  revert c. induction l as [|[k v] l IH]; intros c Hc Hnd Hl Hfn.
  { exists c. by rewrite without_nil. }
  cbn [map fst] in Hnd. apply list.NoDup_cons in Hnd as [Hn Hnd].
  apply list.Forall_cons in Hl as [[Hp Hs] Hl]. apply list.Forall_cons in Hfn as [Hk Hfn].
  cbn [walk_page fst snd map] in *. rewrite Hk, filter_cons. destruct (gone k) eqn:Hg.
  - destruct (Remove_effect k Hp c Hc Hs) as (c1 & -> & Hc1 & Hm1).
    destruct (IH c1) as (c' & Hw & Hc' & Hm'); [done..| |done|].
    + apply list.Forall_forall. intros [k' v'] Hin.
      pose proof (proj1 (list.Forall_forall _ _) Hl _ Hin) as [Hp' Hs']. split; [done|]. rewrite Hm1, lookup_delete_ne; [done|].
      intros ->. apply Hn, list_elem_of_fmap. by exists (k', v').
    + exists c'. split_and!; [done..|]. rewrite Hm', Hm1, decide_True by done. by rewrite without_cons.
  - rewrite decide_False by done. by apply IH.
Qed.

Definition is_leaked (ids : list string) (t : string * list (string → bool)) (k : string) : bool :=
  HasPrefix k t.1 && match leaked ids t.1 t.2 k with Ok b => b | _ => false end.

Lemma clean_key_leaked ids run t k v c :
  HasPrefix k t.1 = true →
  clean_key ids run t.1 t.2 k v c
  = if run && is_leaked ids t k then mk_Remove c k else (c, Ok tt).
Proof.
  intros Hk. unfold clean_key, is_leaked. rewrite Hk. unfold mbind, cmd_bind, of_res, leaked.
  apply HasPrefix_spec in Hk as [r ->]. rewrite slice_from_prefix.
  destruct (existsb _ t.2); simpl; [by rewrite andb_false_r|]. rewrite andb_comm.
  by case_match.
Qed.

Lemma without_filter (gone : string → bool) m p :
  (∀ k, gone k = true → HasPrefix k p = true) →
  without (filter (λ k, gone k = true) (map fst (prefixed m p))) m
  = filter (λ kv, gone kv.1 = false) m.
Proof.
  intros Hg. apply map_eq. intros k. rewrite without_lookup.
  destruct (m !! k) as [v|] eqn:Hk.
  - case_bool_decide as Hin.
    + apply list_elem_of_filter in Hin as [Hgk _]. symmetry. apply map_lookup_filter_None. right.
      intros v' _. simpl. by rewrite Hgk.
    + symmetry. apply map_lookup_filter_Some. split; [done|]. simpl. apply not_true_iff_false.
      intros Hgk. apply Hin. apply list_elem_of_filter. split; [done|].
      apply list_elem_of_fmap. exists (k, v). split; [done|]. apply elem_of_prefixed. auto.
  - case_bool_decide; symmetry; apply map_lookup_filter_None; by left.
Qed.

Lemma clean_keys_filter P `{∀ x, Decision (P x)} m : clean_keys m → clean_keys (filter P m).
Proof. intros Hm k v [Hk _]%map_lookup_filter_Some. by eapply Hm. Qed.

Lemma cleanMetaFn_up fuel ids run t c :
  healthy c → is_path t.1 → clean_keys (mk_map c) → (size (mk_map c) < fuel)%nat →
  ∃ c', cleanMetaFn fuel ids run t.1 t.2 c = Some (c', Ok tt) ∧ healthy c'
    ∧ mk_map c' = filter (λ kv, run && is_leaked ids t kv.1 = false) (mk_map c).
Proof.
  intros Hc Ht Hm Hf. unfold cleanMetaFn. destruct (healthy_walk c _ Hc Ht) as [Hw _].
  rewrite (law_WalkWithPrefix _ _ _ _ _ (λ c', healthy c' ∧ clean_keys (mk_map c')));
    [|..|done|by rewrite Hw; apply is_path_nonempty|done]; cbn beta.
  - rewrite Hw.
    destruct (walk_removes (λ k, run && is_leaked ids t k) (clean_key ids run t.1 t.2)
      (prefixed (mk_map c) t.1) c) as (c' & -> & Hc' & Hm'); [done|apply NoDup_prefixed|..].
    + apply list.Forall_forall. intros [k v] [Hk _]%elem_of_prefixed.
      split; [by eapply Hm|by eexists].
    + apply list.Forall_forall. intros [k v] [_ Hk]%elem_of_prefixed c0.
      by apply clean_key_leaked.
    + exists c'. split_and!; [done..|]. rewrite Hm'. apply without_filter.
      intros k [_ Hk]%andb_true_iff. by apply andb_true_iff in Hk as [].
  - intros c' [Hc' Hm']. split; [by apply healthy_up|]. intros k v Hk Hp. rewrite Hw in Hp.
    rewrite clean_key_leaked by done. destruct (run && is_leaked ids t k).
    + destruct (Remove_effect k (Hm' k v Hk) c' Hc') as (c1 & -> & Hc1 & Hm1); [by eexists|].
      split_and!; [done| |].
      * cbn [fst]. rewrite Hm1. by apply map_Forall_delete.
      * intros k' Hlt. cbn [fst]. rewrite Hm1, lookup_delete_ne; [done|]. by apply klt_ne.
    + by split_and!.
Qed.

Definition any_leaked (ids : list string) (ts : list (string * list (string → bool))) (k : string) : bool :=
  existsb (λ t, is_leaked ids t k) ts.

Lemma clean_prefixes_up fuel ids run ts c :
  healthy c → Forall (λ t, is_path t.1) ts → clean_keys (mk_map c) → (size (mk_map c) < fuel)%nat →
  ∃ c', clean_prefixes fuel ids run ts c = Some (c', Ok tt) ∧ healthy c'
    ∧ mk_map c' = filter (λ kv, run && any_leaked ids ts kv.1 = false) (mk_map c).
Proof.
  revert c. induction ts as [|t ts IH]; intros c Hc Hts Hm Hf.
  { exists c. split_and!; [done..|]. symmetry. apply map_filter_id. intros. simpl. by destruct run. }
  apply list.Forall_cons in Hts as [Ht Hts]. destruct t as [p opts]. cbn [clean_prefixes].
  destruct (cleanMetaFn_up fuel ids run (p, opts) c Hc Ht Hm Hf) as (c1 & Hr & Hc1 & Hm1).
  cbn [fst snd] in Hr. rewrite Hr. cbn [mbind option_bind]. destruct (IH c1) as (c' & -> & Hc' & Hm'); [done..| | |].
  - rewrite Hm1. by apply clean_keys_filter.
  - rewrite Hm1. eapply Nat.le_lt_trans; [|exact Hf]. apply map_subseteq_size, map_filter_subseteq.
  - exists c'. split_and!; [done..|]. rewrite Hm', Hm1, map_filter_filter. apply map_filter_ext.
    intros k v _. simpl. destruct run, (is_leaked ids (p, opts) k), (any_leaked ids ts k); simpl; naive_solver.
Qed.
Lemma path_Join_is_path l : l ≠ [] → Forall is_path l → is_path (path_Join l).
Proof. intros Hl Hf. rewrite path_Join_joined by done. by apply joined_is_path. Qed.

Lemma clean_targets_paths base : is_path base → Forall (λ t, is_path t.1) (clean_targets base).
Proof.
  intros Hb. unfold clean_targets.
  repeat apply list.Forall_cons_2; [..|apply list.Forall_nil_2]; apply path_Join_is_path; try done; each_path.
Qed.

Lemma is_leaked_parts ids t k :
  is_leaked ids t k = HasPrefix k t.1 && negb (existsb (λ opt, opt k) t.2)
    && forallb (λ s, bool_decide (s ∉ ids)) (Split "/" (TrimPrefix k t.1)).
Proof.
  unfold is_leaked, leaked. destruct (HasPrefix k t.1) eqn:Hk; [|done]. cbn [andb].
  apply HasPrefix_spec in Hk as [r ->]. rewrite slice_from_prefix, TrimPrefix_app.
  destruct (existsb _ t.2); [done|]. cbn [mbind res_bind negb andb].
  generalize (Split "/" r). intros l. induction l as [|x l IH]; [done|]. simpl.
  rewrite negb_orb, IH, bool_decide_not. done.
Qed.

(** C9 (safety): [remove collection-meta-leaked] deletes exactly the keys that start with
    one of its seven prefixes and have no part, after the prefix, that is the identifier
    of a listed collection; but those below the seventh prefix that start with
    [datacoord-meta/statslog], all other keys, and all keys in a dry run, stay.  It ends
    without an error for every store larger than the pages of the walk, too. *)
Theorem CollectionMetaLeaked_spec c base fuel run colls :
  healthy c → is_path base → clean_keys (mk_map c) → (size (mk_map c) < fuel)%nat →
  ListCollections c base [] = Ok colls →
  let ids := map (λ col, FormatInt (ci_ID (co_proto col))) colls in
  let leaked_below k p := HasPrefix k p
                  && forallb (λ s, bool_decide (s ∉ ids)) (Split "/" (TrimPrefix k p)) in
  let gone k := run
    && (existsb (leaked_below k)
          (map joined [[base; "root-coord/collection"]; [base; "root-coord/database/collection-info"];
                       [base; "root-coord/fields"]; [base; "snapshots"; "root-coord/fields"];
                       [base; "partitions"]; [base; "snapshots"; "partitions"]])
        || leaked_below k (joined [base; "datacoord-meta"; "s"])
           && negb (HasPrefix k (joined [base; "datacoord-meta"; "statslog"]))) in
  ∃ c', CollectionMetaLeakedCommand base fuel run c = Some (c', Ok tt) ∧ healthy c'
    ∧ mk_map c' = filter (λ kv, gone kv.1 = false) (mk_map c).
Proof.
  intros Hc Hb Hm Hf Hl ids leaked_below gone. unfold CollectionMetaLeakedCommand. rewrite Hl. fold ids.
  destruct (clean_prefixes_up fuel ids run (clean_targets base) c) as (c' & -> & Hc' & Hm');
    [done|by apply clean_targets_paths|done..|].
  exists c'. split_and!; [done..|]. rewrite Hm'. apply map_filter_ext. intros k v _. cbn [fst].
  unfold gone, any_leaked, clean_targets. rewrite !path_Join_joined by (done || each_path).
  cbn [existsb map]. rewrite !is_leaked_parts. cbn [fst snd existsb negb].
  change (joined [base; CollectionMetaPrefix]) with (joined [base; "root-coord/collection"]).
  change (joined [base; DBCollectionMetaPrefix]) with (joined [base; "root-coord/database/collection-info"]).
  unfold leaked_below. rewrite !andb_true_r, !orb_false_r, !orb_assoc.
  by rewrite <-(andb_assoc (HasPrefix k _) (negb _)), (andb_comm (negb _)), andb_assoc.
Qed.

Definition stats_task_key (base : string) (id : Z) : string :=
  joined [base; DCPrefix; StatsTaskPrefix; FormatInt id].

(** The prefix of the segments is also one of the statistics tasks: unless
    its own identifier happens to be that of a collection, [remove
    collection-meta-leaked] deletes the record of a statistics task, whose key has no
    collection identifier at all, while its collection is alive. *)
Theorem CollectionMetaLeaked_stats_tasks c base fuel colls id :
  healthy c → is_path base → clean_keys (mk_map c) → (size (mk_map c) < fuel)%nat →
  ListCollections c base [] = Ok colls →
  FormatInt id ∉ map (λ col, FormatInt (ci_ID (co_proto col))) colls →
  ∃ c', CollectionMetaLeakedCommand base fuel true c = Some (c', Ok tt)
    ∧ mk_map c' !! stats_task_key base id = None.
Proof.
  intros Hc Hb Hm Hf Hl Hid. unfold CollectionMetaLeakedCommand. rewrite Hl.
  set (ids := map _ colls) in *.
  destruct (clean_prefixes_up fuel ids true (clean_targets base) c) as (c' & -> & Hc' & Hm');
    [done|by apply clean_targets_paths|done..|].
  exists c'. split; [done|]. rewrite Hm'. apply map_lookup_filter_None. right. intros v _ Hg.
  apply not_true_iff_false in Hg. apply Hg. simpl. unfold any_leaked, clean_targets. cbn [existsb].
  rewrite !orb_true_iff. do 6 right. left. rewrite is_leaked_parts. cbn [fst snd existsb].
  rewrite !path_Join_joined by (done || each_path). unfold stats_task_key. cbn [joined Join].
  assert (base +:+ "/" +:+ DCPrefix +:+ "/" +:+ StatsTaskPrefix +:+ "/" +:+ FormatInt id
    = (base +:+ "/" +:+ DCPrefix +:+ "/" +:+ SegmentMetaPrefix) +:+ "tats-task/" +:+ FormatInt id) as ->
    by (by rewrite !string_app_assoc).
  rewrite HasPrefix_app, TrimPrefix_app. cbn [andb].
  change ("tats-task/" +:+ FormatInt id) with ("tats-task" +:+ "/" +:+ FormatInt id).
  rewrite (Split_slash "tats-task" (FormatInt id)). destruct (FormatInt_elem id) as [_ ->].
  change (Split "/" "tats-task") with ["tats-task"].
  cbn [forallb app]. rewrite !andb_true_iff. split_and!; try done.
  - rewrite orb_false_r. apply negb_true_iff, not_true_iff_false. rewrite !string_app_assoc.
    intros [r Hr]%HasPrefix_spec. rewrite !string_app_assoc in Hr.
    by apply (inj (String.append base)) in Hr.
  - apply bool_decide_eq_true. intros (col & Hcol & _)%list_elem_of_fmap.
    symmetry in Hcol. by apply FormatInt_digits in Hcol as [? | [? ?]].
  - by apply bool_decide_eq_true.
Qed.
End clean_properties.

Section remove_properties.
Context {K : Type} `{MetaKVLaws K} `{EnumStrings} `{MapOrder}.
Context `{ProtoCodec CollectionInfo} `{ProtoCodec FieldSchema} `{ProtoCodec StructArrayFieldSchema}.
Context `{ProtoCodec FunctionSchema} `{ProtoCodec SegmentInfo} `{ProtoCodec PbFieldBinlog}.
Context `{ProtoCodec ChannelWatchInfo} `{ProtoCodec MsgPosition} `{ProtoCodec FieldIndex}.
Context `{ProtoCodec CompactionTask} `{ProtoCodec StatsTask} `{ProtoCodec ImportJob}.
Implicit Types (c : K) (m : gmap string string).

(** A listing with filters over a healthy store, all of whose values decode. *)
Lemma listing_dir {T} `{ProtoCodec T} c p (fs : list (ProtoWrapper T → bool)) :
  healthy c → is_path p → decodable (T:=T) (prefixed (mk_map c) (p +:+ "/")) →
  ListObj2Models c (p +:+ "/") NewProtoWrapper fs
  = Ok (filter (λ x, accepts fs x = true) (own_models NewProtoWrapper (prefixed (mk_map c) (p +:+ "/")))).
Proof.
  intros Hc Hp Hd. rewrite ListObj2Models_own; unfold pairs_of; rewrite ?healthy_key_dir by done;
    [done|by apply healthy_up|done].
Qed.

(** ** Dropped collections *)
Definition drop_dirs (base : string) (info : CollectionInfo) : list string :=
  let id := FormatInt (ci_ID info) in
  [joined [base; "root-coord/fields/" +:+ id];
   joined [base; SnapshotPrefix; "root-coord/fields/" +:+ id];
   joined [base; "root-coord/partitions/" +:+ id];
   joined [base; SnapshotPrefix; "root-coord/partitions/" +:+ id];
   joined [base; SnapshotPrefix;
     if bool_decide (ci_DbId info ≠ 0)
     then "root-coord/database/collection-info/" +:+ FormatInt (ci_DbId info) +:+ "/" +:+ id
     else "root-coord/collection/" +:+ id]].

Lemma drop_prefixes_dirs base info :
  is_path base →
  Forall is_path (drop_dirs base info)
  ∧ Forall2 (λ p d, p = d ∨ p = d +:+ "/") (drop_prefixes base info) (drop_dirs base info).
Proof.
  intros Hb. assert (∀ d n, is_path d → is_path (d +:+ "/" +:+ FormatInt n)) as Hid.
  { intros d n Hd. apply is_path_app; [done|apply FormatInt_is_path]. }
  assert (is_path ("root-coord/fields/" +:+ FormatInt (ci_ID info))) as H1'
    by (apply (Hid "root-coord/fields"); is_path_dec).
  assert (is_path ("root-coord/partitions/" +:+ FormatInt (ci_ID info))) as H2'
    by (apply (Hid "root-coord/partitions"); is_path_dec).
  set (ck := if bool_decide (ci_DbId info ≠ 0)
     then "root-coord/database/collection-info/" +:+ FormatInt (ci_DbId info) +:+ "/" +:+ FormatInt (ci_ID info)
     else "root-coord/collection/" +:+ FormatInt (ci_ID info)).
  assert (is_path ck) as H3'.
  { unfold ck. case_bool_decide; [|apply (Hid "root-coord/collection"); is_path_dec].
    rewrite <-!string_app_assoc. rewrite string_app_assoc. apply Hid.
    apply (Hid "root-coord/database/collection-info"). is_path_dec. }
  assert (∀ l, l ≠ [] → Forall is_path l → is_path (joined l) ∧ path_Join l = joined l) as Hj.
  { intros l Hl Hf. split; [by apply joined_is_path|by apply path_Join_joined]. }
  unfold drop_dirs, drop_prefixes. fold ck. split.
  - repeat apply list.Forall_cons_2; [..|apply list.Forall_nil_2]; apply Hj; try done; each_path.
  - assert (∀ l, l ≠ [] → Forall is_path l → path_Join l +:+ "/" = joined l ∨ path_Join l +:+ "/" = joined l +:+ "/")
      as Hj'.
    { intros l Hl Hf. right. by rewrite (proj2 (Hj l Hl Hf)). }
    repeat apply list.Forall2_cons_2; try apply list.Forall2_nil_2; try (apply Hj'; try done; each_path).
    left. apply Hj; try done; each_path.
Qed.

(** The entries of the history are in none of the directories. *)
Lemma history_not_in_dirs base info ts d :
  In d (drop_dirs base info) → HasPrefix (List.last (drop_dirs base info) "" +:+ "_ts" +:+ ts) (d +:+ "/") ≠ true.
Proof.
  unfold drop_dirs. set (ck := if bool_decide (ci_DbId info ≠ 0) then _ else _). cbn [List.last joined Join].
  assert (ck = "root-coord/database/collection-info/" +:+ FormatInt (ci_DbId info) +:+ "/" +:+ FormatInt (ci_ID info)
          ∨ ck = "root-coord/collection/" +:+ FormatInt (ci_ID info)) as Hck
    by (unfold ck; case_bool_decide; auto).
  intros Hd (r & Hr)%HasPrefix_spec. cbn [In] in Hd. rewrite !string_app_assoc in Hr.
  repeat destruct Hd as [<-|Hd]; try done; rewrite ?string_app_assoc in Hr;
    apply (inj (String.append base)) in Hr; try done;
    destruct Hck as [E|E]; rewrite E in Hr; rewrite ?string_app_assoc in Hr; simplify_eq/=.
Qed.

(** A listing's keys are keys of the store, even if shifted. *)
Lemma listed_keys {T} `{ProtoCodec T} c p (fs : list (ProtoWrapper T → bool)) ws w :
  healthy c → ListObj2Models c p NewProtoWrapper fs = Ok ws → w ∈ ws → is_Some (mk_map c !! Key w).
Proof.
  intros Hc. rewrite ListObj2Models_up by (by apply healthy_up). intros [= <-] [_ Hw]%list_elem_of_filter.
  unfold pairs_of in Hw. apply elem_of_zip_with in Hw as (x & k & -> & _ & Hk). cbn [Key].
  apply list_elem_of_fmap in Hk as ([k' v] & -> & [Hv _]%elem_of_prefixed). by exists v.
Qed.

(** Nor below the watch infos or among the keys of the channels. *)
Lemma history_elsewhere base info ts r : HasPrefix (List.last (drop_dirs base info) "" +:+ "_ts" +:+ ts)
    (joined [base; "channelwatch"] +:+ "/" +:+ r) ≠ true.
Proof.
  unfold drop_dirs. cbn [List.last joined Join]. intros (r' & Hr)%HasPrefix_spec.
  rewrite !string_app_assoc in Hr. by apply (inj (String.append base)) in Hr.
Qed.
Lemma history_no_channel base info ts q name :
  q = "datacoord-meta/channel-cp" ∨ q = "datacoord-meta/channel-removal" →
  List.last (drop_dirs base info) "" +:+ "_ts" +:+ ts ≠ joined [base; q; name].
Proof.
  unfold drop_dirs. cbn [List.last joined Join]. intros Hq Hr.
  rewrite !string_app_assoc in Hr. apply (inj (String.append base)) in Hr.
  by destruct Hq as [-> | ->].
Qed.

Lemma elem_of_channel_keys base channels k :
  is_path base → Forall (λ ch, is_path (ch_VirtualName ch)) channels →
  k ∈ concat (map (channel_keys base) channels)
  ↔ existsb (λ ch, bool_decide (k = joined [base; "datacoord-meta/channel-cp"; ch_VirtualName ch])
             || bool_decide (k = joined [base; "datacoord-meta/channel-removal"; ch_VirtualName ch])) channels
    = true.
Proof.
  intros Hb Hv. induction Hv as [|ch l Hch _ IH]; cbn [map concat existsb].
  - split; [by intros ?%not_elem_of_nil|done].
  - rewrite elem_of_app, orb_true_iff, IH. unfold channel_keys.
    rewrite !path_Join_joined by (done || each_path).
    rewrite !elem_of_cons, orb_true_iff, !bool_decide_eq_true. pose proof (not_elem_of_nil k). tauto.
Qed.

(** A condition on the listed objects, as one on the pairs of the store. *)
Lemma existsb_listed {T} `{ProtoCodec T} (P : T → bool) (m : gmap string string) dir :
  existsb (λ w, P (GetProto w)) (own_models NewProtoWrapper (prefixed m dir))
  = existsb (holds P dir) (sorted_kvs m).
Proof.
  apply eq_iff_eq_true. rewrite !List.existsb_exists. unfold holds. split.
  - intros (w & Hin%list_elem_of_In & Hp).
    apply elem_of_own_models in Hin as (k & v & x & [Hkv Hk]%elem_of_prefixed & Hx & ->).
    exists (k, v). split; [by apply list_elem_of_In, elem_of_sorted_kvs|]. cbn [fst snd GetProto] in *.
    by rewrite Hk, Hx.
  - intros ([k v] & Hin%list_elem_of_In & [Hk Hd]%andb_true_iff). cbn [fst snd] in *.
    apply elem_of_sorted_kvs in Hin. destruct (decoded v) as [x|] eqn:Hx; [|done].
    exists (NewProtoWrapper x k). split; [|done]. apply list_elem_of_In, elem_of_own_models.
    exists k, v, x. split_and!; [|done..]. by apply elem_of_prefixed.
Qed.

Lemma dropped_filter keys dirs (gone : string * string → bool) (m : gmap string string) :
  (∀ k v, m !! k = Some v →
     gone (k, v) = true ↔ k ∈ keys ∨ existsb (λ d, HasPrefix k (d +:+ "/")) dirs = true) →
  without keys (without_dirs dirs m) = filter (λ kv, gone kv = false) m.
Proof.
  intros Hg. apply map_eq. intros k. rewrite without_lookup, without_dirs_lookup.
  destruct (m !! k) as [v|] eqn:Hk.
  - pose proof (Hg k v Hk) as Hgk. case_bool_decide as Hin; [|destruct (existsb _ dirs) eqn:Hd]; symmetry.
    + apply map_lookup_filter_None. right. intros v' Hv' E. simplify_eq. intuition congruence.
    + apply map_lookup_filter_None. right. intros v' Hv' E. simplify_eq. intuition congruence.
    + apply map_lookup_filter_Some. split; [done|]. apply not_true_iff_false. rewrite Hgk.
      intuition congruence.
  - symmetry. transitivity (@None string); [apply map_lookup_filter_None; by left|].
    by repeat case_match.
Qed.

(** The watch infos of a collection, when none of them is without a channel. *)
Lemma filterR_watch id (ws : list (ProtoWrapper ChannelWatchInfo)) :
  filterR (λ cw, vchan ← deref (cw_Vchan (GetProto cw)); Ok (bool_decide (vc_CollectionID vchan = id))) ws
  = if existsb (λ w, bool_decide (cw_Vchan (GetProto w) = None)) ws then Panic nil_dereference
    else Ok (filter (λ w, bool_decide (vc_CollectionID <$> cw_Vchan (GetProto w) = Some id) = true) ws).
Proof.
  induction ws as [|w ws IH]; [done|]. cbn [filterR existsb]. rewrite IH, filter_cons.
  destruct (cw_Vchan (GetProto w)) as [v|]; cbn [deref mbind res_bind fmap option_fmap option_map]; [|done].
  destruct (existsb _ ws); cbn [orb res_bind bool_decide]; [done|].
  rewrite (bool_decide_ext (Some (vc_CollectionID v) = Some id) (vc_CollectionID v = id))
    by (split; [by intros [= ?]|by intros ->]).
  by case_bool_decide.
Qed.

(** C23 (functional): [cleanCollectionMeta] of a collection deletes, in a store whose values
    below [channelwatch] all decode, exactly: its key; the watch infos of its channels; for
    each of its channels the checkpoint below [datacoord-meta/channel-cp] and the mark below
    [datacoord-meta/channel-removal]; and what is below the directories of its fields and
    partitions, of their snapshots, and of the snapshot of the collection's key.  A dry run deletes nothing; and when some watch info, of any collection, has no channel,
    both panic and delete nothing.  The history of the collection, whose keys continue the
    collection's key with an underscore and a timestamp, stays: the store puts a slash at
    the end of the prefix that was meant to match it. *)
Theorem cleanCollectionMeta_spec c base info channels :
  healthy c → is_path base → clean_keys (mk_map c) → is_path (co_key info) →
  Channels info = Ok channels → Forall (λ ch, is_path (ch_VirtualName ch)) channels →
  let id := ci_ID (co_proto info) in
  let watch_dir := joined [base; "channelwatch"] +:+ "/" in
  decodable (T:=ChannelWatchInfo) (prefixed (mk_map c) watch_dir) →
  let dirs := drop_dirs base (co_proto info) in
  let gone kv :=
    bool_decide (kv.1 = co_key info)
    || holds (λ w, bool_decide (vc_CollectionID <$> cw_Vchan w = Some id)) watch_dir kv
    || existsb (λ ch, bool_decide (kv.1 = joined [base; "datacoord-meta/channel-cp"; ch_VirtualName ch])
                 || bool_decide (kv.1 = joined [base; "datacoord-meta/channel-removal"; ch_VirtualName ch]))
         channels
    || existsb (λ d, HasPrefix kv.1 (d +:+ "/")) dirs in
  if existsb (holds (λ w, bool_decide (cw_Vchan w = None)) watch_dir) (sorted_kvs (mk_map c))
  then ∀ run, cleanCollectionMeta base info run c = (c, Panic nil_dereference)
  else
    cleanCollectionMeta base info false c = (c, Ok tt)
    ∧ ∃ c', cleanCollectionMeta base info true c = (c', Ok tt) ∧ healthy c'
        ∧ mk_map c' = filter (λ kv, gone kv = false) (mk_map c)
        ∧ ∀ ts, let history := List.last dirs "" +:+ "_ts" +:+ ts in
            history ≠ co_key info → mk_map c' !! history = mk_map c !! history.
Proof.
  intros Hc Hb Hm Hk Hch Hv id watch_dir Hd dirs gone.
  set (ws := own_models (@NewProtoWrapper ChannelWatchInfo) (prefixed (mk_map c) watch_dir)).
  assert (ListChannelWatch c base [] = Ok ws) as Hl.
  { unfold ListChannelWatch. rewrite path_Join_joined by (done || each_path).
    rewrite listing_dir; [|done|apply joined_is_path; [done|each_path]|exact Hd].
    f_equal. fold watch_dir ws. apply filter_all. by apply list.Forall_true. }
  assert (existsb (λ w : ProtoWrapper ChannelWatchInfo, bool_decide (cw_Vchan (GetProto w) = None)) ws
          = existsb (holds (λ w, bool_decide (cw_Vchan w = None)) watch_dir) (sorted_kvs (mk_map c))) as <-
    by exact (existsb_listed (λ w, bool_decide (cw_Vchan w = None)) (mk_map c) watch_dir).
  assert (co_key info ≠ "") as Hkey by (by apply is_path_nonempty).
  assert ((infos ← ListChannelWatch c base [];
           filterR (λ cw, vchan ← deref (cw_Vchan (GetProto cw));
                          Ok (bool_decide (vc_CollectionID vchan = id))) infos)
    = if existsb (λ w : ProtoWrapper ChannelWatchInfo,
      bool_decide (cw_Vchan (GetProto w) = None)) ws then Panic nil_dereference
    else Ok (filter (λ w, bool_decide (vc_CollectionID <$> cw_Vchan (GetProto w) = Some id) = true) ws)) as Hlook.
  { rewrite Hl. cbn [mbind res_bind]. apply filterR_watch. }
  destruct (existsb _ ws).
  { intros run. unfold cleanCollectionMeta. rewrite (bool_decide_false (co_key info = "")) by done.
    unfold mbind at 1, cmd_bind at 1, reads at 1. fold id. by rewrite Hlook. }
  set (watch := filter _ ws) in *.
  assert (∀ k, k ∈ map Key watch ↔ ∃ v, mk_map c !! k = Some v
    ∧ holds (λ w, bool_decide (vc_CollectionID <$> cw_Vchan w = Some id)) watch_dir (k, v) = true) as Hwatch
    by (intros k; exact (elem_of_listed (λ w : ChannelWatchInfo,
      bool_decide (vc_CollectionID <$> cw_Vchan w = Some id)) c watch_dir k)).
  set (keys := co_key info :: map Key watch ++ concat (map (channel_keys base) channels)).
  assert (Forall is_path keys) as Hkeys.
  { apply list.Forall_cons. split; [done|]. apply list.Forall_app. split.
    - apply list.Forall_forall. intros k (v & Hkv & _)%Hwatch. by eapply Hm.
    - apply List.Forall_concat, List.Forall_map. eapply list.Forall_impl; [exact Hv|].
      intros ch Hp. unfold channel_keys. each_path; apply path_Join_is_path; try done; each_path. }
  assert (existsb (λ w : ProtoWrapper ChannelWatchInfo, bool_decide (Key w = "")) watch = false) as Hne.
  { apply not_true_iff_false. intros (w & Hin & Hwk%bool_decide_eq_true)%List.existsb_exists.
    apply list_elem_of_In in Hin. destruct (proj1 (Hwatch (Key w))) as (v & Hkv & _).
    { apply list_elem_of_fmap. by exists w. }
    rewrite Hwk in Hkv. exact (is_path_nonempty _ (Hm _ _ Hkv) eq_refl). }
  assert (∀ run, cleanCollectionMeta base info run c = (if negb run then mret tt
      else for_each (λ prefix, try_ (λ c, mk_RemoveWithPrefix c prefix)) (drop_prefixes base (co_proto info));;
           for_each (λ key, try_ (λ c, mk_Remove c key)) keys) c) as Hrun.
  { intros run. unfold cleanCollectionMeta. rewrite (bool_decide_false (co_key info = "")) by done.
    unfold mbind at 1, cmd_bind at 1, reads at 1. fold id. rewrite Hlook, Hne.
    unfold mbind at 1, cmd_bind at 1, of_res at 1. by rewrite Hch. }
  split; [by rewrite Hrun|]. rewrite Hrun. cbn [negb]. destruct (drop_prefixes_dirs base (co_proto info) Hb) as [Hdd Hps].
  destruct (effect_seq (λ _, True) (λ _, True) _ _ _ _ (RemoveWithPrefix_all (K:=K) _ _ Hdd Hps)
    (try_Remove_all (λ _, True) keys Hkeys)) with (c := c) as (c' & Hr & Hc' & Hmap); try done.
  cbn [compose] in Hmap. assert (mk_map c' = filter (λ kv, gone kv = false) (mk_map c)) as Hgone.
  { rewrite Hmap. apply dropped_filter. intros k v Hkv. unfold keys, gone. cbn [fst].
    rewrite elem_of_cons, elem_of_app, Hwatch, (elem_of_channel_keys base channels k Hb Hv), !orb_true_iff,
      bool_decide_eq_true. naive_solver. }
  exists c'. split_and!; [done..|]. intros ts Hh. cbv zeta. rewrite Hgone. set (history := _ +:+ "_ts" +:+ ts) in *.
  destruct (mk_map c !! history) as [v|] eqn:Ehv;
    [apply map_lookup_filter_Some; split; [done|]|apply map_lookup_filter_None; by left].
  unfold gone. cbn [fst]. rewrite bool_decide_false by done. cbn [orb]. rewrite !orb_false_iff. split_and!.
  - apply andb_false_iff. left. apply not_true_iff_false. intros Hp. by apply history_elsewhere in Hp.
  - apply not_true_iff_false. intros (ch & _ & [Hp%bool_decide_eq_true|Hp%bool_decide_eq_true]%orb_true_iff)%List.existsb_exists.
    + revert Hp. apply history_no_channel. by left.
    + revert Hp. apply history_no_channel. by right.
  - apply not_true_iff_false. intros (d & Hd' & Hp)%List.existsb_exists. revert Hd' Hp.
    apply history_not_in_dirs.
Qed.
(** ** Tasks *)
Lemma remove_tasks_up {T} `{ProtoCodec T} c p (fs : list (ProtoWrapper T → bool)) tasks :
  healthy c → clean_keys (mk_map c) → ListObj2Models c p NewProtoWrapper fs = Ok tasks →
  (∀ k task, is_Some (mk_map c !! k) → task ∈ tasks → HasPrefix k (Key task +:+ "/") = false) →
  ∃ c', for_each (λ task c, mk_RemoveWithPrefix c (Key task)) tasks c = (c', Ok tt)
    ∧ mk_map c' = mk_map c ∧ ∀ task, task ∈ tasks → is_Some (mk_map c' !! Key task).
Proof.
  intros Hc Hm Hl Hno. destruct (RemoveWithPrefix_each (K:=K) Key tasks) with (c := c)
    as (c' & Hr & _ & Hm'); [|done|done|].
  - apply list.Forall_forall. intros w Hw. destruct (listed_keys c p fs tasks w Hc Hl Hw) as [v Hv].
    by eapply Hm.
  - assert (mk_map c' = mk_map c) as Hmm.
    { rewrite Hm'. apply map_filter_id. intros k v Hk. cbn [fst]. apply not_true_iff_false.
      intros (d & (w & <- & Hw)%in_map_iff & Hp)%List.existsb_exists. apply list_elem_of_In in Hw.
      by rewrite (Hno k w) in Hp by (done || by exists v). }
    exists c'. split_and!; [done..|]. intros w Hw. rewrite Hmm. by eapply listed_keys.
Qed.

(** [remove compaction] removes with the key of each task it found as a prefix,
    to which the store appends a slash: unless there are keys below that of a task, which
    the program's tasks do not have, it deletes nothing, and reports success. *)
Theorem RemoveCompactionTask_keeps c base p tasks :
  healthy c → clean_keys (mk_map c) →
  ListCompactionTask c base [compaction_filter p] = Ok tasks →
  (∀ k task, is_Some (mk_map c !! k) → task ∈ tasks → HasPrefix k (Key task +:+ "/") = false) →
  ∃ c', RemoveCompactionTaskCommand base p true c = (c', Ok tt) ∧ mk_map c' = mk_map c
    ∧ ∀ task, task ∈ tasks → is_Some (mk_map c' !! Key task).
Proof.
  intros Hc Hm Hl Hno. unfold RemoveCompactionTaskCommand.
  unfold mbind, cmd_bind, reads. rewrite Hl. by eapply remove_tasks_up.
Qed.

(** The same of [remove stats-task]. *)
Theorem RemoveStatsTask_keeps c base p tasks :
  healthy c → clean_keys (mk_map c) → sp_SubJobType p ≠ "" →
  ListStatsTask c base [stats_filter p] = Ok tasks →
  (∀ k task, is_Some (mk_map c !! k) → task ∈ tasks → HasPrefix k (Key task +:+ "/") = false) →
  ∃ c', RemoveStatsTaskCommand base p true c = (c', Ok tt) ∧ mk_map c' = mk_map c
    ∧ ∀ task, task ∈ tasks → is_Some (mk_map c' !! Key task).
Proof.
  intros Hc Hm Hp Hl Hno. unfold RemoveStatsTaskCommand. rewrite bool_decide_false by done.
  unfold mbind, cmd_bind, reads. rewrite Hl. by eapply remove_tasks_up.
Qed.

(** ** Binlogs *)
Definition with_action (p : RemoveBinlogParam) (restore removeAll run : bool) : RemoveBinlogParam :=
  MkRemoveBinlog (rb_LogType p) (rb_CollectionID p) (rb_PartitionID p) (rb_SegmentID p)
    (rb_FieldID p) (rb_LogID p) restore removeAll run.

Lemma binlog_keys base p :
  is_path base → rb_LogType p ∈ ["binlog"; "deltalog"; "statslog"] →
  is_path (binlog_key base p) ∧ is_path (path_Join [backupKeyPrefix; binlog_key base p])
  ∧ path_Join [backupKeyPrefix; binlog_key base p] ≠ binlog_key base p.
Proof.
  intros Hb Ht. assert (is_path (binlog_key base p)) as Hp.
  { apply path_Join_is_path; [done|]. each_path. apply is_path_app; [|by apply ids_path_is_path].
    repeat (apply elem_of_cons in Ht as [->|Ht]; [is_path_dec|]). by apply not_elem_of_nil in Ht. }
  assert (Forall is_path [backupKeyPrefix; binlog_key base p]) as Hf by each_path.
  split_and!; [done|by apply path_Join_is_path|]. rewrite path_Join_joined by done. cbn [joined Join].
  generalize (binlog_key base p). intros k Hk. apply (f_equal String.length) in Hk. revert Hk.
  change (backupKeyPrefix +:+ "/" +:+ k) with ("birdwatcher/backup/" +:+ k). simpl.
  change ("" +:+ k) with k. lia.
Qed.

(** [remove binlog] saves the pair under a backup key before it deletes it
    or takes a log out of it, in a dry run too, and a later call with [restore] brings it
    back: all that differs from the store before is the backup key. *)
Theorem RemoveBinlog_roundtrip c base p v fb bs :
  healthy c → is_path base → rb_LogType p ∈ ["binlog"; "deltalog"; "statslog"] →
  let key := binlog_key base p in
  let saved := <[path_Join [backupKeyPrefix; key] := v]> (mk_map c) in
  mk_map c !! key = Some v → proto_Unmarshal (bytes_of_string v) = Ok fb →
  encoded (removeLogFromFieldBinlog (rb_LogID p) fb) = Ok bs →
  ∀ removeAll run,
  ∃ c1 c2, RemoveBinlogCommand base (with_action p false removeAll run) c = (c1, Ok tt)
    ∧ mk_map c1 = (if run then if removeAll then delete key saved else <[key := bs]> saved else saved)
    ∧ RemoveBinlogCommand base (with_action p true removeAll run) c1 = (c2, Ok tt)
    ∧ mk_map c2 = saved.
Proof.
  intros Hc Hb Ht key saved Hv Hfb Hbs removeAll run.
  destruct (binlog_keys base p Hb Ht) as (Hk & Hbk & Hne). fold key in Hk, Hbk, Hne.
  destruct (healthy_Save c _ v Hc Hbk) as (c0 & Hs0 & Hc0 & Hm0). fold saved in Hm0.
  assert (saved !! key = Some v) as Hsv by (unfold saved; by rewrite lookup_insert_ne).
  assert (∃ c1, RemoveBinlogCommand base (with_action p false removeAll run) c = (c1, Ok tt) ∧ healthy c1
    ∧ mk_map c1 = (if run then if removeAll then delete key saved else <[key := bs]> saved else saved))
    as (c1 & H1' & Hc1 & Hm1).
  { unfold RemoveBinlogCommand. rewrite bool_decide_true by done. cbn [rb_Restore rb_RemoveAll rb_Run with_action].
    change (binlog_key base (with_action p false removeAll run)) with key.
    unfold mbind, cmd_bind, backupBinlog, mbind, cmd_bind, reads. rewrite healthy_Load, Hv by done.
    rewrite Hs0. unfold getFieldBinlog. rewrite healthy_Load, Hm0, Hsv by done.
    cbn [mbind res_bind]. rewrite Hfb. destruct removeAll, run; try by exists c0.
    - destruct (Remove_effect key Hk c0 Hc0) as (c1 & ? & ? & ?); [rewrite Hm0; by exists v|].
      exists c1. by rewrite <-Hm0.
    - unfold saveFieldBinlog, mbind, cmd_bind, of_res. cbn [rb_LogID with_action]. rewrite Hbs.
      destruct (healthy_Save c0 key bs Hc0 Hk) as (c1 & ? & ? & ?). exists c1. by rewrite <-Hm0. }
  assert (mk_map c1 !! path_Join [backupKeyPrefix; key] = Some v) as Hb1.
  { rewrite Hm1. destruct run, removeAll; rewrite ?lookup_delete_ne, ?(lookup_insert_ne _ key) by done;
      apply lookup_insert_eq. }
  destruct (healthy_Save c1 key v Hc1 Hk) as (c2 & Hs2 & Hc2 & Hm2).
  exists c1, c2. split_and!; [done..| |].
  - unfold RemoveBinlogCommand. rewrite bool_decide_true by done. cbn [rb_Restore with_action].
    change (binlog_key base (with_action p true removeAll run)) with key.
    unfold restoreBinlog, mbind, cmd_bind, reads. by rewrite healthy_Load, Hb1 by done.
  - rewrite Hm2, Hm1. destruct run, removeAll; rewrite ?insert_delete_eq, ?insert_insert_eq;
      by apply insert_id.
Qed.
(** ** Segments *)

(** The records of the segments; each is at the key that its identifiers make. *)
Definition segment_pairs c (base : string) : list (string * string) :=
  prefixed (mk_map c) (joined [base; DCPrefix; SegmentMetaPrefix] +:+ "/").
Definition segment_infos c (base : string) : list SegmentInfo :=
  omap decoded (map snd (segment_pairs c base)).
Definition keyed_segments c (base : string) : Prop :=
  Forall (λ kv, ∃ s, decoded kv.2 = Some s ∧ kv.1 = seg_key base "s" (segment_ids s)) (segment_pairs c base).

Lemma ListSegments_up c base (f : SegmentInfo → bool) :
  healthy c → is_path base → keyed_segments c base →
  ∃ segs, ListSegments c base [λ s, f (sg_info s)] = Ok segs
    ∧ map sg_info segs = filter (λ s, f s = true) (segment_infos c base).
Proof.
  intros Hc Hb Hk. unfold ListSegments. assert (Forall is_path [base; DCPrefix; SegmentMetaPrefix]) as Hf by each_path.
  rewrite path_Join_joined by done. assert (is_path (joined [base; DCPrefix; SegmentMetaPrefix])) as Hp
    by (by apply joined_is_path).
  rewrite ListObj2Models_own; unfold pairs_of; rewrite ?healthy_key_dir by done; [|by apply healthy_up|].
  - eexists. split; [done|]. fold (segment_pairs c base).
    assert (segment_infos c base = map sg_info (own_models (λ info key, NewSegment info key
      (getSegmentLazyFunc (K:=K) base info)) (segment_pairs c base))) as ->
      by (rewrite (map_own_models _ sg_info id) by done; by rewrite map_id).
    etrans; [|apply (filter_map_comm sg_info f)].
    f_equal. apply list_filter_iff. intros x. unfold accepts. cbn [forallb]. by rewrite andb_true_r.
  - eapply list.Forall_impl; [exact Hk|]. intros kv (s & Hs & _). by eexists.
Qed.

Lemma keyed_segments_keys c base :
  keyed_segments c base →
  map (λ s, seg_key base "s" (segment_ids s)) (segment_infos c base) = map fst (segment_pairs c base).
Proof.
  unfold keyed_segments, segment_infos. generalize (segment_pairs c base). intros l.
  induction l as [|[k v] l IH]; [done|]. intros [(s & Hs & Hk) Hl]%list.Forall_cons. cbn [fst snd] in *.
  change (omap decoded (map snd ((k, v) :: l))) with
    (match decoded (T:=SegmentInfo) v with
     | Some s => s :: omap decoded (map snd l) | None => omap decoded (map snd l) end).
  rewrite Hs. cbn [map fst]. by rewrite IH, Hk by done.
Qed.

Lemma keyed_segments_there c base s :
  keyed_segments c base → s ∈ segment_infos c base →
  is_Some (mk_map c !! seg_key base "s" (segment_ids s)).
Proof.
  intros Hk Hin. assert (seg_key base "s" (segment_ids s) ∈ map fst (segment_pairs c base)) as Hkey.
  { rewrite <-keyed_segments_keys by done.
    by apply (list_elem_of_fmap_2 (λ s, seg_key base "s" (segment_ids s))). }
  apply list_elem_of_fmap in Hkey as ([k v] & -> & [Hv _]%elem_of_prefixed). by eexists.
Qed.

(** What the loops over the groups of a listing do. *)
Lemma remove_listed c base f (group : SegmentInfo → Z) (rm : SegmentInfo → cmd K unit)
    (body : Z * list (ModelSegment K) → cmd K unit) (doomed : SegmentInfo → bool) :
  healthy c → is_path base → keyed_segments c base →
  (∀ s c, rm s c = RemoveSegmentByID c base (si_CollectionID s) (si_PartitionID s) (si_ID s)) →
  (∀ id segs c', healthy c' → agree (root_coord base) (mk_map c') (mk_map c) →
     Forall (λ s, group (sg_info s) = id) segs →
     body (id, segs) c' = for_each (λ s, try_ (rm s)) (filter (λ s, doomed s = true) (map sg_info segs)) c') →
  ∃ segs c', ListSegments c base [λ s, f (sg_info s)] = Ok segs
    ∧ for_each body (range (GroupBy (λ s, group (sg_info s)) segs)) c = (c', Ok tt) ∧ healthy c'
    ∧ mk_map c' = without (keys_of_segments base
        (filter (λ s, (f s && doomed s) = true) (segment_infos c base))) (mk_map c).
Proof.
  intros Hc Hb Hk Hrm Hbody. destruct (ListSegments_up c base f Hc Hb Hk) as (segs & Hl & Hs). exists segs.
  set (gs := range (GroupBy (λ s : ModelSegment K, group (sg_info s)) segs)).
  assert (concat (map (map sg_info ∘ snd) gs) ≡ₚ map sg_info segs) as Hperm.
  { assert (concat (map (map sg_info ∘ snd) gs) = map sg_info (concat (map snd gs))) as ->
      by (by rewrite concat_map, map_map).
    apply Permutation_map. unfold gs. rewrite range_perm. apply concat_GroupBy. }
  assert (NoDup (map (λ s, seg_key base "s" (segment_ids s)) (map sg_info segs))) as Hnd.
  { rewrite Hs. apply NoDup_map_filter. rewrite keyed_segments_keys by done. apply NoDup_prefixed. }
  destruct (remove_groups base rm body (map sg_info ∘ snd) doomed (mk_map c) gs c)
    as (c' & Hr & Hc' & Hm); try done.
  - intros [id ss] c1 Hg Hc1 Ha. apply Hbody; [done..|]. apply list.Forall_forall. intros s Hin.
    unfold gs in Hg. rewrite range_perm in Hg. apply elem_of_map_to_list in Hg.
    rewrite GroupBy_lookup in Hg. cbv zeta in Hg. case_decide; [done|]. injection Hg as <-.
    by apply list_elem_of_filter in Hin as [].
  - by rewrite Hperm.
  - rewrite Hperm, Hs. apply list.Forall_forall. intros s [_ Hin]%list_elem_of_filter.
    by apply keyed_segments_there.
  - exists c'. split_and!; [done..|]. rewrite Hm. apply without_perm, keys_of_segments_perm.
    rewrite Hperm, Hs, list_filter_filter. apply reflexive_eq, list_filter_iff. intros s.
    rewrite andb_true_iff. tauto.
Qed.

(** [remove segment-orphan] deletes the four keys of every segment whose
    collection is not found, whatever the order in which the map of the groups is gone
    through, and nothing else; a dry run deletes nothing. *)
Theorem SegmentOrphan_spec c base cid :
  healthy c → is_path base → keyed_segments c base →
  (∀ id w, GetCollectionByIDVersion c base id ≠ Panic w) →
  let missing id := match GetCollectionByIDVersion c base id with
                    | Err e => bool_decide (e = ErrCollectionNotFound) | _ => false end in
  let orphans := filter (λ s, ((bool_decide (cid = 0) || bool_decide (si_CollectionID s = cid))
                               && missing (si_CollectionID s)) = true) (segment_infos c base) in
  ∃ c' c0, SegmentOrphanCommand base cid true c = (c', Ok tt) ∧ healthy c'
    ∧ mk_map c' = without (keys_of_segments base orphans) (mk_map c)
    ∧ SegmentOrphanCommand base cid false c = (c0, Ok tt) ∧ mk_map c0 = mk_map c.
Proof.
  intros Hc Hb Hk Hnp missing orphans.
  set (body := λ run '((id, segs) : Z * list (ModelSegment K)),
    found ← attempt (reads (λ c, GetCollectionByIDVersion c base id));
    if match found with Err e => bool_decide (e = ErrCollectionNotFound) | _ => false end && run
    then for_each (λ s, try_ (remove_ids base (sg_info s))) segs else mret tt).
  assert (∀ run id segs c', healthy c' → agree (root_coord base) (mk_map c') (mk_map c) →
     Forall (λ s, si_CollectionID (sg_info s) = id) segs →
     body run (id, segs) c' = for_each (λ s, try_ (remove_ids base s))
       (filter (λ s, missing (si_CollectionID s) && run = true) (map sg_info segs)) c') as Hbody.
  { intros run id segs c' Hc' Ha Hids. unfold body, mbind, cmd_bind, attempt, reads.
    rewrite (GetCollectionByIDVersion_agree base c' c) by done.
    rewrite <-(for_each_filter sg_info (λ s, missing (si_CollectionID s) && run) (λ s, try_ (remove_ids base s))).
    assert (∀ b : bool, (if b then for_each (λ s, try_ (remove_ids base (sg_info s))) segs else mret tt) c'
      = for_each (λ s, if b then try_ (remove_ids base (sg_info s)) else mret tt) segs c') as Hif.
    { intros [] ; [done|]. symmetry. by apply for_each_nop. }
    assert (for_each (λ s, if missing (si_CollectionID (sg_info s)) && run
        then try_ (remove_ids base (sg_info s)) else mret tt) segs c'
      = for_each (λ s, if missing id && run then try_ (remove_ids base (sg_info s)) else mret tt) segs c') as ->.
    { clear -Hids. revert c'. induction segs as [|s segs IH]; intros c'; [done|].
      apply list.Forall_cons in Hids as [Hs Hids]. cbn [for_each]. unfold mbind, cmd_bind. rewrite Hs.
      
      match goal with |- (let '(_, _) := ?m c' in _) = _ => destruct (m c') as [c1 [[]| |]] end; [by apply IH|done..]. }
    rewrite <-Hif. unfold missing. specialize (Hnp id).
    destruct (GetCollectionByIDVersion c base id); [done|done|]. by destruct (Hnp why). }
  set (f := λ s, bool_decide (cid = 0) || bool_decide (si_CollectionID s = cid)).
  destruct (remove_listed c base f si_CollectionID (remove_ids base) (body true)
    (λ s, missing (si_CollectionID s) && true) Hc Hb Hk (λ _ _, eq_refl) (Hbody true))
    as (segs & c' & Hl & Hr & Hc' & Hm).
  destruct (remove_listed c base f si_CollectionID (remove_ids base) (body false)
    (λ s, missing (si_CollectionID s) && false) Hc Hb Hk (λ _ _, eq_refl) (Hbody false))
    as (segs' & c0 & Hl' & Hr0 & Hc0 & Hm0).
  exists c', c0. split_and!; [|done| | |].
  - unfold SegmentOrphanCommand, mbind at 1, cmd_bind at 1, reads at 1.
    change (in_collection cid) with (λ s : ModelSegment K, f (sg_info s)). by rewrite Hl.
  - rewrite Hm. do 2 f_equal. unfold orphans. apply list_filter_iff. intros s. by rewrite andb_true_r.
  - unfold SegmentOrphanCommand, mbind at 1, cmd_bind at 1, reads at 1.
    change (in_collection cid) with (λ s : ModelSegment K, f (sg_info s)). by rewrite Hl'.
  - rewrite Hm0, filter_none; [by rewrite without_nil|]. apply list.Forall_true. intros s.
    by rewrite !andb_false_r.
Qed.

(** [remove dirty-importing-segment] deletes the keys of the importing
    segments without rows whose position (that of the last row, or else of the start) is
    before the timestamp, which is taken as an unsigned number, and nothing else. *)
Theorem DirtyImportingSegment_spec c base cid ts run :
  healthy c → is_path base → keyed_segments c base →
  ∃ c', DirtyImportingSegmentCommand base cid ts run c = (c', Ok tt) ∧ healthy c'
    ∧ mk_map c' = without (keys_of_segments base
        (filter (λ s, ((bool_decide (cid = 0) || bool_decide (si_CollectionID s = cid))
                       && (dirty ts s && run)) = true) (segment_infos c base))) (mk_map c).
Proof.
  intros Hc Hb Hk. unfold DirtyImportingSegmentCommand.
  set (body := λ '((_, segs) : Z * list (ModelSegment K)), for_each (λ s,
    if dirty ts (sg_info s) && run then try_ (remove_ids base (sg_info s)) else mret tt) segs).
  set (f := λ s, bool_decide (cid = 0) || bool_decide (si_CollectionID s = cid)).
  destruct (remove_listed c base f si_CollectionID (remove_ids base) body (λ s, dirty ts s && run)
    Hc Hb Hk (λ _ _, eq_refl)) as (segs & c' & Hl & Hr & Hc' & Hm).
  - intros id segs c' _ _ _. unfold body. 
    apply (for_each_filter sg_info (λ s, dirty ts s && run) (λ s, try_ (remove_ids base s))).
  - exists c'. split_and!; [|done|by rewrite Hm].
    unfold mbind at 1, cmd_bind at 1, reads at 1.
    change (in_collection cid) with (λ s : ModelSegment K, f (sg_info s)). by rewrite Hl.
Qed.
(** ** Channels and indexes *)

(** A directory's listing, by a condition on the objects. *)
Lemma listed_dir {T} `{ProtoCodec T} c base q (P : T → bool) :
  healthy c → is_path base → is_path q →
  decodable (T:=T) (prefixed (mk_map c) (joined [base; q] +:+ "/")) →
  ListObj2Models c (path_Join [base; q] +:+ "/") NewProtoWrapper [λ w, P (GetProto w)]
  = Ok (filter (λ w, P (GetProto w) = true)
          (own_models NewProtoWrapper (prefixed (mk_map c) (joined [base; q] +:+ "/")))).
Proof.
  intros Hc Hb Hq Hd. assert (Forall is_path [base; q]) as Hf by each_path.
  rewrite path_Join_joined by done. rewrite listing_dir by (try done; by apply joined_is_path).
  f_equal. apply list_filter_iff. intros w. unfold accepts. simpl. by rewrite andb_true_r.
Qed.

(** [remove index] deletes the records of the index, and nothing else. *)
Theorem RemoveIndex_spec c base indexID run :
  healthy c → is_path base → clean_keys (mk_map c) →
  let dir := joined [base; IndexPrefix] +:+ "/" in
  decodable (T:=FieldIndex) (prefixed (mk_map c) dir) →
  ∃ c', RemoveIndexCommand base indexID run c = (c', Ok tt)
    ∧ mk_map c' = filter (λ kv, run && holds (λ x, bool_decide (GetIndexID x = indexID)) dir kv = false)
                    (mk_map c).
Proof.
  intros Hc Hb Hm dir Hd. unfold RemoveIndexCommand, mbind, cmd_bind, reads, ListIndex.
  assert (is_path IndexPrefix) as Hq by is_path_dec.
  pose proof (listed_dir c base IndexPrefix (λ x, bool_decide (GetIndexID x = indexID)) Hc Hb Hq Hd) as Hl.
  cbn beta in Hl. rewrite Hl. fold dir.
  destruct run.
  2: { exists c. split; [done|]. symmetry. by apply map_filter_id. }
  set (P := λ x : FieldIndex, bool_decide (GetIndexID x = indexID)). set (ws := filter _ _).
  assert (∀ k, k ∈ map Key ws ↔ ∃ v, mk_map c !! k = Some v
    ∧ holds P dir (k, v) = true) as Hkeys by (intros k; apply (elem_of_listed P c dir k)).
  destruct (Remove_all (K:=K) (map Key ws)) with (c := c) as (c' & Hr & _ & Hm').
  - apply list.Forall_forall. intros k (v & Hv & _)%Hkeys. by eapply Hm.
  - apply NoDup_map_filter. rewrite own_models_keys by done. apply NoDup_prefixed.
  - done.
  - apply list.Forall_forall. intros k (v & Hv & _)%Hkeys. by exists v.
  - exists c'. split; [|by rewrite Hm', (without_pairs _ _ _ Hkeys)].
    rewrite <-Hr. clear. generalize c as c1.
    induction ws as [|w ws IH]; intros c1; [done|]. cbn [map for_each]. unfold mbind, cmd_bind.
    destruct (mk_Remove c1 (Key w)) as [c2 [[]| |]]; [apply IH|done..].
Qed.

(** [remove channel] deletes the watch infos and checkpoints of the selected
    channels that are no channel of a listed collection, or of all selected channels when
    it is forced; without force no record of a collection's channel is lost. *)
Theorem RemoveChannel_spec c base channel run force colls :
  healthy c → is_path base → clean_keys (mk_map c) → ListCollections c base [] = Ok colls →
  let dw := joined [base; "channelwatch"] +:+ "/" in
  let dc := joined [base; "datacoord-meta/channel-cp"] +:+ "/" in
  decodable (T:=ChannelWatchInfo) (prefixed (mk_map c) dw) →
  decodable (T:=MsgPosition) (prefixed (mk_map c) dc) →
  let valid := concat (map (λ col, ci_VirtualChannelNames (co_proto col)) colls) in
  let gone name := ((channel =? "")%string || bool_decide (name = channel))
                   && (negb (bool_decide (name ∈ valid)) || force) in
  ∃ c', RemoveChannelCommand base channel run force c = (c', Ok tt)
    ∧ mk_map c' = filter (λ kv, run && (holds (λ w, gone (cw_ChannelName w)) dw kv
                                        || holds (λ p, gone (mp_ChannelName p)) dc kv) = false) (mk_map c).
Proof.
  intros Hc Hb Hm Hl dw dc Hdw Hdc valid gone.
  unfold RemoveChannelCommand. unfold mbind at 1, cmd_bind at 1, reads at 1. rewrite Hl. fold valid.
  assert ((String.length channel =? 0)%nat = (channel =? "")%string) as -> by (by destruct channel).
  set (sel := λ name, (channel =? "")%string || bool_decide (name = channel)).
  unfold mbind at 1, cmd_bind at 1, reads at 1, ListChannelWatch.
  assert (is_path "channelwatch" ∧ is_path "datacoord-meta/channel-cp") as [Hq1 Hq2] by (split; is_path_dec).
  pose proof (listed_dir c base _ (λ w, sel (cw_ChannelName w)) Hc Hb Hq1 Hdw) as Hw.
  unfold sel in Hw. cbn beta in Hw. rewrite Hw. fold dw.
  unfold mbind at 1, cmd_bind at 1, reads at 1, ListChannelCheckpoint.
  assert (path_Join [base; DCPrefix; ChannelCheckpointPrefix] = path_Join [base; "datacoord-meta/channel-cp"]) as ->
    by (rewrite !path_Join_joined by (done || each_path); done).
  pose proof (listed_dir c base _ (λ p, sel (mp_ChannelName p)) Hc Hb Hq2 Hdc) as Hp.
  unfold sel in Hp. cbn beta in Hp. rewrite Hp. fold dc.
  destruct run.
  2: { exists c. split; [done|]. symmetry. by apply map_filter_id. }
  assert (∀ T (f : T → string) (l : list (ProtoWrapper T)),
    filter (λ w, negb (bool_decide (f (GetProto w) ∈ valid)) || force = true)
      (filter (λ w, sel (f (GetProto w)) = true) l) = filter (λ w, gone (f (GetProto w)) = true) l) as Hg.
  { intros T f l. rewrite list_filter_filter. apply list_filter_iff. intros w. unfold gone.
    fold (sel (f (GetProto w))). rewrite andb_true_iff. tauto. }
  pose proof (Hg _ cw_ChannelName) as Hg1. pose proof (Hg _ mp_ChannelName) as Hg2. unfold sel in Hg1, Hg2.
  cbn beta in Hg1, Hg2.
  rewrite Hg1, Hg2. clear Hg Hg1 Hg2. set (keys := _ ++ _).
  assert (∀ k, k ∈ keys ↔ ∃ v, mk_map c !! k = Some v
    ∧ (holds (λ w, gone (cw_ChannelName w)) dw (k, v)
       || holds (λ p, gone (mp_ChannelName p)) dc (k, v)) = true) as Hkeys.
  { intros k. unfold keys. rewrite elem_of_app.
    pose proof (elem_of_listed (λ w, gone (cw_ChannelName w)) c dw k) as He1.
    pose proof (elem_of_listed (λ p, gone (mp_ChannelName p)) c dc k) as He2.
    cbn beta in He1, He2.
    split.
    - intros [Hk|Hk].
      + apply He1 in Hk as (v & ? & Hv). exists v. by rewrite Hv.
      + apply He2 in Hk as (v & ? & Hv). exists v. by rewrite Hv, orb_true_r.
    - intros (v & Hv & [Hk|Hk]%orb_true_iff); [left; apply He1|right; apply He2]; eauto. }
  destruct (try_Remove_all (K:=K) (λ _, True) keys) with (c := c) as (c' & Hr & _ & Hm'); try done.
  - apply list.Forall_forall. intros k (v & Hv & _)%Hkeys. by eapply Hm.
  - exists c'. split; [exact Hr|]. rewrite Hm'.
    apply (without_pairs (λ kv, holds (λ w, gone (cw_ChannelName w)) dw kv
                                || holds (λ p, gone (mp_ChannelName p)) dc kv) keys), Hkeys.
Qed.
End remove_properties.

(** [remove segment] finds no segment, whatever its parameters: on a store
    in which no key starts with the base path and [/s], and wherever its segments are, it
    removes nothing, backs nothing up, and reports success. *)
Theorem RemoveSegmentCommand_nothing {K F} `{MetaKVLaws K} `{OsFiles F} `{EnumStrings}
    `{ProtoCodec SegmentInfo} `{ProtoCodec PbFieldBinlog} (c : K) (fs : F) base fuel p backupDir now :
  healthy c → is_path base →
  map_Forall (λ k _, HasPrefix k (base +:+ "/s") = false) (mk_map c) →
  (size (mk_map c) < fuel)%nat →
  RemoveSegmentCommand base fuel p backupDir now c fs = Some (c, fs, 0, Ok tt).
Proof.
  intros Hc Hb Hno Hf. unfold RemoveSegmentCommand.
  by rewrite (WalkAllSegments_misses fuel (λ st : K * F * Z, st.1.1) base _ _ _ (c, fs, 0)).
Qed.

(** ** Examples *)
Definition sample_watch : ChannelWatchInfo := MkChannelWatchInfo (Some (MkVchan 1 "dml_0_1v0")) (Some sample_schema) "".
Definition sample_position (channel : string) : MsgPosition := MsgPos channel [] 7.
Definition sample_index (id : Z) : FieldIndex :=
  MkFieldIndex (Some (MkIndexInfo 1 101 "ix" id [] [("index_type", "HNSW")] 0 0 3 "" false [] "")) false 9.
Definition sample_task : CompactionTask := MkCompactionTask 5 4 1 7 1 2.

#[export] Instance sample_watch_codec : ProtoCodec ChannelWatchInfo := table_codec [("w1", sample_watch)].
#[export] Instance sample_position_codec : ProtoCodec MsgPosition :=
  table_codec [("p1", sample_position "dml_0_1v0"); ("p9", sample_position "dml_0_9v0")].
#[export] Instance sample_index_codec : ProtoCodec FieldIndex :=
  table_codec [("ix1", sample_index 1); ("ix2", sample_index 2)].
#[export] Instance sample_task_codec : ProtoCodec CompactionTask := table_codec [("task", sample_task)].
#[export] Instance sample_enums : EnumStrings := {|
  CompactionType_String := FormatInt; CompactionTaskState_String := FormatInt;
  StatsSubJob_String := FormatInt; JobState_String := FormatInt; SegmentState_String := FormatInt;
|}.

(** A cluster with one collection; the task, two segments and a checkpoint are left over. *)
Definition sample_cluster : etcdKV (gmap string string) :=
  etcd_store [("by-dev/root-coord/collection/1", "c1");
              ("by-dev/root-coord/fields/1/100", "pk");
              ("by-dev/root-coord/fields/9/100", "pk");
              ("by-dev/snapshots/root-coord/collection/1_ts3", "c1");
              ("by-dev/channelwatch/3/dml_0_1v0", "w1");
              ("by-dev/datacoord-meta/channel-cp/dml_0_1v0", "p1");
              ("by-dev/datacoord-meta/channel-cp/dml_0_9v0", "p9");
              ("by-dev/datacoord-meta/compaction-task/7/4/5", "task");
              ("by-dev/datacoord-meta/stats-task/77", "st");
              ("by-dev/field-index/1/1", "ix1"); ("by-dev/field-index/1/2", "ix2")].


Definition sample_filled : Collection :=
  MkCollection (with_Schema (sample_info 1 0 0) (with_Fields sample_schema [sample_field 100 "pk"] []))
    "by-dev/root-coord/collection/1" [].

Lemma CollectionMetaLeaked_spec_witness :
  ∃ c', CollectionMetaLeakedCommand "by-dev" 12 true sample_cluster = Some (c', Ok tt)
    ∧ mk_map c' !! "by-dev/root-coord/fields/9/100" = None
    ∧ mk_map c' !! "by-dev/root-coord/fields/1/100" = Some "pk".
Proof.
  destruct (CollectionMetaLeaked_spec sample_cluster "by-dev" 12 true [sample_filled]) as (c' & Hr & _ & Hm).
  - apply etcd_store_healthy.
  - is_path_dec.
  - clean_dec.
  - vm_compute. repeat constructor.
  - vm_compute. reflexivity.
  - exists c'. split; [exact Hr|]. rewrite Hm. split; vm_compute; reflexivity.
Defined.

Lemma CollectionMetaLeaked_stats_tasks_witness :
  ∃ c', CollectionMetaLeakedCommand "by-dev" 12 true sample_cluster = Some (c', Ok tt)
    ∧ mk_map c' !! "by-dev/datacoord-meta/stats-task/77" = None.
Proof.
  destruct (CollectionMetaLeaked_stats_tasks sample_cluster "by-dev" 12 [sample_filled] 77) as (c' & Hr & Hm).
  - apply etcd_store_healthy.
  - is_path_dec.
  - clean_dec.
  - vm_compute. repeat constructor.
  - vm_compute. reflexivity.
  - clean_dec.
  - exists c'. split; [exact Hr|exact Hm].
Defined.

Lemma cleanCollectionMeta_spec_witness :
  ∃ c', cleanCollectionMeta "by-dev" sample_filled true sample_cluster = (c', Ok tt)
    ∧ mk_map c' !! "by-dev/root-coord/fields/1/100" = None
    ∧ mk_map c' !! "by-dev/channelwatch/3/dml_0_1v0" = None
    ∧ mk_map c' !! "by-dev/snapshots/root-coord/collection/1_ts3" = Some "c1".
Proof.
  pose proof (cleanCollectionMeta_spec sample_cluster "by-dev" sample_filled
    [MkChannel "dml_0" "dml_0_1v0" (MsgPos "dml_0" [] 0)]) as Hs. cbv zeta in Hs.
  assert (existsb (holds (λ w : ChannelWatchInfo, bool_decide (cw_Vchan w = None))
    (joined ["by-dev"; "channelwatch"] +:+ "/")) (sorted_kvs (mk_map sample_cluster)) = false) as Hf
    by (vm_compute; reflexivity).
  rewrite Hf in Hs. clear Hf.
  destruct Hs as [_ (c' & Hr & _ & Hm & _)].
  - apply etcd_store_healthy.
  - is_path_dec.
  - clean_dec.
  - is_path_dec.
  - vm_compute. reflexivity.
  - each_path.
  - clean_dec.
  - exists c'. split; [exact Hr|]. rewrite Hm. clear Hm Hr. vm_compute. repeat split.
Defined.

Lemma RemoveCompactionTask_keeps_witness :
  ∃ c', RemoveCompactionTaskCommand "by-dev" (MkCompactionParam "7" "" "" "" 0 0) true sample_cluster
        = (c', Ok tt)
    ∧ mk_map c' !! "by-dev/datacoord-meta/compaction-task/7/4/5" = Some "task".
Proof.
  destruct (RemoveCompactionTask_keeps sample_cluster "by-dev" (MkCompactionParam "7" "" "" "" 0 0)
    [NewProtoWrapper sample_task "by-dev/datacoord-meta/compaction-task/7/4/5"]) as (c' & Hr & Hm & _).
  - apply etcd_store_healthy.
  - clean_dec.
  - vm_compute. reflexivity.
  - intros k task [v Hv] ->%list_elem_of_singleton. revert k v Hv.
    change (map_Forall (λ k (_ : string),
      HasPrefix k "by-dev/datacoord-meta/compaction-task/7/4/5/" = false) (mk_map sample_cluster)).
    clean_dec.
  - exists c'. split; [exact Hr|]. rewrite Hm. vm_compute. reflexivity.
Defined.

Lemma RemoveBinlog_roundtrip_witness :
  let p := MkRemoveBinlog "binlog" 1 2 7 100 3 false true true in
  let c := etcd_store [("by-dev/datacoord-meta/binlog/1/2/7/100", "logs")] in
  ∃ c1 c2, RemoveBinlogCommand "by-dev" p c = (c1, Ok tt)
    ∧ mk_map c1 !! "by-dev/datacoord-meta/binlog/1/2/7/100" = None
    ∧ RemoveBinlogCommand "by-dev" (with_action p true true true) c1 = (c2, Ok tt)
    ∧ mk_map c2 !! "by-dev/datacoord-meta/binlog/1/2/7/100" = Some "logs".
Proof.
  intros p c. destruct (RemoveBinlog_roundtrip c "by-dev" p "logs" sample_field_binlog "logs")
    with (removeAll := true) (run := true) as (c1 & c2 & Hr1 & Hm1 & Hr2 & Hm2).
  - apply etcd_store_healthy.
  - is_path_dec.
  - left.
  - vm_compute. reflexivity.
  - vm_compute. reflexivity.
  - vm_compute. reflexivity.
  - exists c1, c2. split; [exact Hr1|]. split; [rewrite Hm1; vm_compute; reflexivity|].
    split; [exact Hr2|]. rewrite Hm2. vm_compute. reflexivity.
Defined.

Lemma SegmentOrphan_spec_witness :
  let c := etcd_store [("by-dev/datacoord-meta/s/1/2/7", "seg7"); ("by-dev/datacoord-meta/statslog/1/2/7", "x");
                       ("by-dev/datacoord-meta/binlog/1/2/7/100", "logs")] in
  ∃ c', SegmentOrphanCommand "by-dev" 0 true c = (c', Ok tt)
    ∧ mk_map c' = {["by-dev/datacoord-meta/binlog/1/2/7/100" := "logs"]}.
Proof.
  intros c. destruct (SegmentOrphan_spec c "by-dev" 0) as (c' & c0 & Hr & _ & Hm & _).
  - apply etcd_store_healthy.
  - is_path_dec.
  - unfold keyed_segments.
    assert (segment_pairs c "by-dev" = [("by-dev/datacoord-meta/s/1/2/7", "seg7")]) as -> by (vm_compute; reflexivity).
    constructor; [|constructor]. exists (sample_segment 7 4). split; vm_compute; reflexivity.
  - intros id w. assert (ListCollections c "by-dev" [λ c, bool_decide (ci_ID (co_proto c) = id)] = Ok []) as Hl
      by (vm_compute; reflexivity).
    unfold GetCollectionByIDVersion. rewrite Hl. done.
  - exists c'. split; [exact Hr|]. rewrite Hm. vm_compute. reflexivity.
Defined.

Lemma DirtyImportingSegment_spec_witness :
  let c := etcd_store [("by-dev/datacoord-meta/s/1/2/7", "seg7")] in
  ∃ c', DirtyImportingSegmentCommand "by-dev" 0 5 true c = (c', Ok tt) ∧ mk_map c' = mk_map c.
Proof.
  intros c. destruct (DirtyImportingSegment_spec c "by-dev" 0 5 true) as (c' & Hr & _ & Hm).
  - apply etcd_store_healthy.
  - is_path_dec.
  - unfold keyed_segments.
    assert (segment_pairs c "by-dev" = [("by-dev/datacoord-meta/s/1/2/7", "seg7")]) as -> by (vm_compute; reflexivity).
    constructor; [|constructor]. exists (sample_segment 7 4). split; vm_compute; reflexivity.
  - exists c'. split; [exact Hr|]. rewrite Hm. vm_compute. reflexivity.
Defined.

Lemma RemoveIndex_spec_witness :
  ∃ c', RemoveIndexCommand "by-dev" 2 true sample_cluster = (c', Ok tt)
    ∧ mk_map c' !! "by-dev/field-index/1/2" = None ∧ mk_map c' !! "by-dev/field-index/1/1" = Some "ix1".
Proof.
  destruct (RemoveIndex_spec sample_cluster "by-dev" 2 true) as (c' & Hr & Hm).
  - apply etcd_store_healthy.
  - is_path_dec.
  - clean_dec.
  - clean_dec.
  - exists c'. split; [exact Hr|]. rewrite Hm. split; vm_compute; reflexivity.
Defined.

Lemma RemoveChannel_spec_witness :
  ∃ c', RemoveChannelCommand "by-dev" "" true false sample_cluster = (c', Ok tt)
    ∧ mk_map c' !! "by-dev/datacoord-meta/channel-cp/dml_0_9v0" = None
    ∧ mk_map c' !! "by-dev/datacoord-meta/channel-cp/dml_0_1v0" = Some "p1".
Proof.
  destruct (RemoveChannel_spec sample_cluster "by-dev" "" true false [sample_filled]) as (c' & Hr & Hm).
  - apply etcd_store_healthy.
  - is_path_dec.
  - clean_dec.
  - vm_compute. reflexivity.
  - clean_dec.
  - clean_dec.
  - exists c'. split; [exact Hr|]. rewrite Hm. split; vm_compute; reflexivity.
Defined.

(** A machine without files. *)
#[export] Instance no_files : OsFiles unit := {|
  os_Stat _ _ := false; os_MkdirAll f _ := (f, Err (Errorf "permission denied"));
  os_OpenFile f _ := (f, Err (Errorf "permission denied")); os_Write f _ _ := (f, Ok tt);
|}.

Lemma RemoveSegmentCommand_nothing_witness :
  let c := etcd_store [("by-dev/datacoord-meta/s/1/2/7", "seg7")] in
  RemoveSegmentCommand "by-dev" 5 (MkSegmentParam 7 0 "" 10 true) "dir" "now" c tt
  = Some (c, tt, 0, Ok tt).
Proof.
  intros c. apply (RemoveSegmentCommand_nothing c tt "by-dev" 5).
  - apply etcd_store_healthy.
  - is_path_dec.
  - clean_dec.
  - vm_compute. repeat constructor.
Defined.
