(* ===== verification/InstanceOps.v ===== *)
(** * Commands of an instance that change the store

    Models [states/force_release.go], the commands [force-release] and
    [release-dropped-collection], which take collections out of the query coordinator's
    part of the metadata store; and [states/kill.go], which removes the session of a
    component. *)

From S2P Require Export Remove.

(** [querypb.CollectionLoadInfo] and [querypb.PartitionLoadInfo]. *)
Record CollectionLoadInfo := MkCollectionLoad {
  cl_CollectionID : Z;
  cl_FieldIndexID : gmap Z Z;
  cl_rest : string;
}.
Record PartitionLoadInfo := MkPartitionLoad {
  pl_CollectionID : Z;
  pl_PartitionID : Z;
  pl_rest : string;
}.
#[export] Instance CollectionLoadInfo_eq_dec : EqDecision CollectionLoadInfo.
Proof. solve_decision. Defined.
#[export] Instance PartitionLoadInfo_eq_dec : EqDecision PartitionLoadInfo.
Proof. solve_decision. Defined.

Definition CollectionLoadPrefix := "queryCoord-collectionMeta".
Definition LTEVersion2_1 := "<= 2.1.4".

Section release.
Context {K : Type} `{MetaKV K} `{ProtoCodec CollectionLoadInfo} `{ProtoCodec PartitionLoadInfo}.
Context `{ProtoCodec CollectionInfo} `{ProtoCodec FieldSchema} `{ProtoCodec StructArrayFieldSchema}.
Context `{ProtoCodec FunctionSchema}.
Variable basePath : string.

(** Each removal is tried; a failure is printed. *)
Definition ForceReleaseCommand (CollectionID : Z) (All : bool) : cmd K unit :=
  if All then
    try_ (λ c, mk_RemoveWithPrefix c "queryCoord-");;
    try_ (λ c, mk_RemoveWithPrefix c "querycoord-")
  else
    collections ← reads (λ cli, ListCollectionLoadedInfo cli basePath
      [λ cl : ProtoWrapper CollectionLoadInfo, bool_decide (cl_CollectionID (GetProto cl) = CollectionID)]);
    partitions ← reads (λ cli, ListPartitionLoadedInfo cli basePath
      [λ pl : ProtoWrapper PartitionLoadInfo, bool_decide (CollectionID = pl_CollectionID (GetProto pl))]);
    if bool_decide (zlen collections = 0) && bool_decide (zlen partitions = 0) then mret tt
    else
      for_each (λ info : ProtoWrapper CollectionLoadInfo, try_ (λ c, mk_Remove c (Key info))) collections;;
      for_each (λ info : ProtoWrapper PartitionLoadInfo, try_ (λ c, mk_Remove c (Key info))) partitions.

Definition releaseQueryCoordLoadMeta (collectionID : Z) : cmd K unit :=
  λ c, mk_Remove c (path_Join [basePath; CollectionLoadPrefix; FormatInt collectionID]).

(** The loaded collections that cannot be read. *)
Definition missing_loaded (cli : K) (infos : list (ProtoWrapper CollectionLoadInfo)) : res (list Z) :=
  found ← mapR (λ info : ProtoWrapper CollectionLoadInfo,
    let id := cl_CollectionID (GetProto info) in
    match GetCollectionByIDVersion cli basePath id with
    | Ok _ => Ok []
    | Err _ => Ok [id]
    | Panic w => Panic w
    end) infos;
  Ok (concat found).

(** [release-dropped-collection]: [version] is the version that the shell was told. *)
Definition ReleaseDroppedCollectionCmd (version : string) (run : bool) : cmd K unit :=
  if bool_decide (version ≠ LTEVersion2_1) then mret tt
  else
    listed ← attempt (reads (λ cli, ListCollectionLoadedInfo cli basePath []));
    match listed with
    | Ok infos =>
        missing ← reads (λ cli, missing_loaded cli infos);
        if run then for_each (λ id, try_ (releaseQueryCoordLoadMeta id)) missing else mret tt
    | _ => mret tt
    end.
End release.

(** ** [kill.go] *)
Section kill.
Context {K : Type} `{MetaKV K} `{JsonSession}.
Variable basePath : string.

Definition coordinators : list string := ["QUERYCOORD"; "DATACOORD"; "INDEXCOORD"; "ROOTCOORD"; "MIXCOORD"].
Definition workers : list string := ["QUERYNODE"; "DATANODE"; "PROXY"].

(** The key of the session of a component. *)
Definition kill_key (Component : string) (NodeID : Z) : res string :=
  let name := strings_ToUpper Component in
  if bool_decide (name ∈ coordinators)
  then Ok (path_Join [basePath; "session"; strings_ToLower Component])
  else if bool_decide (name ∈ workers)
  then Ok (path_Join [basePath; "session"; strings_ToLower Component +:+ "-" +:+ FormatInt NodeID])
  else Err (Errorf "need to specify component type for killing").

Definition etcdKillComponent (key : string) (id : Z) : cmd K unit :=
  val ← reads (λ cli, mk_Load cli key false);
  match session_Unmarshal (bytes_of_string val) with
  | Err _ => stop (Errorf "faild to parse session for key")
  | Panic w => of_res (Panic w)
  | Ok session =>
      if bool_decide (ServerID session ≠ id) then stop (Errorf "session id no match")
      else λ c, mk_Remove c key
  end.

Definition KillCommand (Component : string) (NodeID : Z) (run : bool) : cmd K unit :=
  key ← of_res (kill_key Component NodeID);
  if run then etcdKillComponent key NodeID else mret tt.
End kill.

(** ** Properties *)
Section properties.
Context {K : Type} `{MetaKVLaws K} `{ProtoCodec CollectionLoadInfo} `{ProtoCodec PartitionLoadInfo}.
Context `{ProtoCodec CollectionInfo} `{ProtoCodec FieldSchema} `{ProtoCodec StructArrayFieldSchema}.
Context `{ProtoCodec FunctionSchema}.
Implicit Types (c : K) (m : gmap string string).

(** A listing whose prefix has no slash at its end. *)
Lemma listed_prefix {T} `{ProtoCodec T} c base q (P : T → bool) :
  healthy c → is_path base → is_path q → decodable (T:=T) (prefixed (mk_map c) (joined [base; q])) →
  ListObj2Models c (path_Join [base; q]) NewProtoWrapper [λ w, P (GetProto w)]
  = Ok (filter (λ w, P (GetProto w) = true)
          (own_models NewProtoWrapper (prefixed (mk_map c) (joined [base; q])))).
Proof.
  intros Hc Hb Hq Hd. assert (Forall is_path [base; q]) as Hf by each_path.
  assert (is_path (joined [base; q])) as Hp by (by apply joined_is_path).
  rewrite path_Join_joined by done.
  rewrite ListObj2Models_own; [|by apply healthy_up|]; unfold pairs_of; rewrite healthy_key by done; [|done].
  f_equal. apply list_filter_iff. intros w. unfold accepts. simpl. by rewrite andb_true_r.
Qed.

Lemma for_each_keys {T} (ws : list (ProtoWrapper T)) c :
  for_each (λ w : ProtoWrapper T, try_ (λ c, mk_Remove c (Key w))) ws c
  = for_each (λ k, try_ (λ c, mk_Remove c k)) (map Key ws) c.
Proof.
  revert c. induction ws as [|w ws IH]; intros c; [done|]. cbn [map for_each]. unfold mbind, cmd_bind.
  destruct (try_ _ c) as [c' [[]| |]]; [apply IH|done..].
Qed.

(** C26 (functional): on a store that answers, whose keys are clean paths and where every value below the
    two prefixes of load infos can be decoded, [force-release] of a collection deletes its load
    infos and those of its partitions, and nothing else. (With a value that cannot be decoded
    the listing gives the objects after it the keys of others, so that other keys would be
    deleted.) *)
Theorem ForceRelease_spec c base id :
  healthy c → is_path base → clean_keys (mk_map c) →
  let pc := joined [base; CollectionLoadPrefixV2] in
  let pp := joined [base; PartitionLoadedPrefix] in
  decodable (T:=CollectionLoadInfo) (prefixed (mk_map c) pc) →
  decodable (T:=PartitionLoadInfo) (prefixed (mk_map c) pp) →
  ∃ c', ForceReleaseCommand base id false c = (c', Ok tt)
    ∧ mk_map c' = filter (λ kv, holds (λ cl, bool_decide (cl_CollectionID cl = id)) pc kv
                                || holds (λ pl, bool_decide (id = pl_CollectionID pl)) pp kv = false) (mk_map c).
Proof.
  intros Hc Hb Hm pc pp Hdc Hdp. unfold ForceReleaseCommand.
  assert (is_path CollectionLoadPrefixV2 ∧ is_path PartitionLoadedPrefix) as [Hq1 Hq2] by (split; is_path_dec).
  pose proof (listed_prefix c base _ (λ cl, bool_decide (cl_CollectionID cl = id)) Hc Hb Hq1 Hdc) as Hlc.
  pose proof (listed_prefix c base _ (λ pl, bool_decide (id = pl_CollectionID pl)) Hc Hb Hq2 Hdp) as Hlp.
  cbn beta in Hlc, Hlp. fold pc in Hlc. fold pp in Hlp.
  unfold mbind at 1, cmd_bind at 1, reads at 1, ListCollectionLoadedInfo. rewrite Hlc.
  unfold mbind at 1, cmd_bind at 1, reads at 1, ListPartitionLoadedInfo. rewrite Hlp.
  clear Hlc Hlp. set (cs := filter _ (own_models _ (prefixed _ pc))).
  set (ps := filter _ (own_models _ (prefixed _ pp))).
  assert (∀ k, k ∈ map Key cs ++ map Key ps ↔ ∃ v, mk_map c !! k = Some v
    ∧ (holds (λ cl, bool_decide (cl_CollectionID cl = id)) pc (k, v)
       || holds (λ pl, bool_decide (id = pl_CollectionID pl)) pp (k, v)) = true) as Hkeys.
  { intros k. rewrite elem_of_app.
    pose proof (elem_of_listed (λ cl, bool_decide (cl_CollectionID cl = id)) c pc k) as He1.
    pose proof (elem_of_listed (λ pl, bool_decide (id = pl_CollectionID pl)) c pp k) as He2.
    cbn beta in He1, He2. unfold cs, ps. rewrite He1, He2. setoid_rewrite orb_true_iff. naive_solver. }
  rewrite <-(without_pairs _ _ _ Hkeys).
  case_match eqn:Hz.
  - apply andb_true_iff in Hz as [->%bool_decide_eq_true%zlen_0 ->%bool_decide_eq_true%zlen_0].
    exists c. split; [done|]. symmetry. apply without_nil.
  - destruct (try_Remove_all (K:=K) (λ _, True) (map Key cs ++ map Key ps)) with (c := c) as (c' & Hr & _ & Hm'); try done.
    { apply list.Forall_forall. intros k (v & Hv & _)%Hkeys. by eapply Hm. }
    exists c'. split; [|done]. rewrite for_each_app in Hr. rewrite <-Hr.
    unfold mbind, cmd_bind. rewrite for_each_keys. destruct (for_each _ (map Key cs) c) as [c1 [[]| |]]; [|done..].
    apply for_each_keys.
Qed.

(** Keys below a directory do not start with the name of another one. *)
Lemma HasPrefix_other base k q :
  Split "/" q = [q] → first_part base ≠ q → HasPrefix k (base +:+ "/") = true → HasPrefix k (q +:+ "/") = false.
Proof.
  intros Hq Hb Hk. apply not_true_iff_false. intros Hk'. apply Hb.
  rewrite <-(first_part_dir q k Hq Hk'). apply HasPrefix_dir_Split in Hk as (rest & Hk & _).
  unfold first_part. rewrite Hk. pose proof (Split_nonempty "/" base). by destruct (Split "/" base).
Qed.

(** [force-release --all] is meant to remove everything of the query coordinator.  It names
    its keys without the base path, and the store adds a slash: below a base path it
    removes nothing. *)
Theorem ForceRelease_all_nothing c base id :
  healthy c → first_part base ≠ "queryCoord-" → first_part base ≠ "querycoord-" →
  (∀ k, is_Some (mk_map c !! k) → HasPrefix k (base +:+ "/") = true) →
  ∃ c', ForceReleaseCommand base id true c = (c', Ok tt) ∧ mk_map c' = mk_map c.
Proof.
  intros Hc Hb1 Hb2 Hk. unfold ForceReleaseCommand.
  destruct (RemoveWithPrefix_all ["queryCoord-"; "querycoord-"] ["queryCoord-"; "querycoord-"])
    with (c := c) as (c' & Hr & _ & Hm); [each_path|repeat constructor; by left|done|done|].
  exists c'. split.
  - rewrite <-Hr. cbn [for_each]. unfold mbind, cmd_bind.
    destruct (try_ _ c) as [c1 [[]| |]]; [|done..]. by destruct (try_ _ c1) as [c2 [[]| |]].
  - rewrite Hm. apply map_filter_id. intros k v Hv. cbn [existsb fst].
    assert (HasPrefix k (base +:+ "/") = true) as Hp by eauto.
    by rewrite !(HasPrefix_other base k) by done.
Qed.

Lemma missing_loaded_up c base infos ids :
  missing_loaded base c infos = Ok ids → Forall (λ id, id ∈ map (cl_CollectionID ∘ GetProto) infos) ids.
Proof.
  unfold missing_loaded. intros (found & Hf & [= <-])%res_bind_Ok. revert found Hf.
  induction infos as [|w infos IH]; intros found; cbn [mapR].
  { intros [= <-]. constructor. }
  intros (x & Hx & (xs & Hxs & [= <-])%res_bind_Ok)%res_bind_Ok. cbn [concat map].
  apply Forall_app. split.
  - destruct (GetCollectionByIDVersion _ _ _); simplify_eq; repeat constructor.
  - eapply list.Forall_impl; [by apply IH|]. intros. by right.
Qed.

(** [release-dropped-collection] removes the keys of an older version: the load infos that
    it found, and everything outside of its directory, stay as they are. *)
Theorem ReleaseDropped_keeps c base version infos missing :
  healthy c → is_path base →
  ListCollectionLoadedInfo c base [] = Ok infos → missing_loaded base c infos = Ok missing →
  ∃ c', ReleaseDroppedCollectionCmd base version true c = (c', Ok tt)
    ∧ ∀ k, HasPrefix k (joined [base; CollectionLoadPrefix] +:+ "/") = false → mk_map c' !! k = mk_map c !! k.
Proof.
  intros Hc Hb Hl Hmiss. unfold ReleaseDroppedCollectionCmd.
  case_bool_decide; [by exists c|].
  set (keys := map (λ id, path_Join [base; CollectionLoadPrefix; FormatInt id]) missing).
  assert (∀ id, path_Join [base; CollectionLoadPrefix; FormatInt id] = joined [base; CollectionLoadPrefix; FormatInt id]
    ∧ is_path (joined [base; CollectionLoadPrefix; FormatInt id])) as Hid.
  { intros id. assert (Forall is_path [base; CollectionLoadPrefix; FormatInt id]) as Hf
      by (each_path; apply FormatInt_is_path).
    split; [by apply path_Join_joined|by apply joined_is_path]. }
  destruct (try_Remove_all (K:=K) (λ _, True) keys) with (c := c) as (c' & Hr & _ & Hm); try done.
  { apply list.Forall_forall. intros k (id & -> & _)%list_elem_of_fmap. rewrite (proj1 (Hid id)). apply Hid. }
  exists c'. split.
  - unfold mbind at 1, cmd_bind at 1, attempt, reads at 1. rewrite Hl.
    unfold mbind at 1, cmd_bind at 1, reads. rewrite Hmiss. rewrite <-Hr. clear. unfold keys.
    generalize c. induction missing as [|id ids IH]; intros c1; [done|]. cbn [map for_each].
    unfold mbind, cmd_bind. unfold releaseQueryCoordLoadMeta at 1.
    destruct (try_ _ c1) as [c2 [[]| |]]; [apply IH|done..].
  - intros k Hk. rewrite Hm, without_lookup, bool_decide_false; [done|].
    intros (id & -> & _)%list_elem_of_fmap. rewrite (proj1 (Hid id)) in Hk.
    cbn [joined Join] in Hk. unfold joined in Hk. cbn [Join] in Hk.
    apply not_true_iff_false in Hk. apply Hk. apply HasPrefix_spec. exists (FormatInt id).
    by rewrite !string_app_assoc.
Qed.
End properties.

(** ** Sessions *)
Section kill_properties.
Context {K : Type} `{MetaKVLaws K} `{JsonSession}.
Implicit Types (c : K).

Lemma kill_key_path base Component id key :
  is_path base → kill_key base Component id = Ok key → is_path key.
Proof.
  intros Hb. unfold kill_key. rewrite <-(ToLower_ToUpper Component).
  generalize (strings_ToUpper Component) as name. intros name.
  case_bool_decide as Hin; [|case_bool_decide as Hin'; [|done]]; intros [= <-].
  - assert (is_path (strings_ToLower name)) as Hn.
    { assert (Forall (λ n, is_path (strings_ToLower n)) coordinators) as Hf by clean_dec.
      by eapply list.Forall_forall in Hf. }
    assert (Forall is_path [base; "session"; strings_ToLower name]) as Hf by (each_path; done).
    rewrite path_Join_joined by done. by apply joined_is_path.
  - assert (is_path (strings_ToLower name +:+ "-" +:+ FormatInt id)) as Hn.
    { assert (Forall (λ n, Split "/" (strings_ToLower n +:+ "-") = [strings_ToLower n +:+ "-"]
        ∧ (2 < String.length (strings_ToLower n +:+ "-"))%nat) workers) as Hf by clean_dec.
      eapply list.Forall_forall in Hf as [? ?]; [|done]. rewrite <-string_app_assoc. by apply name_number_is_path. }
    assert (Forall is_path [base; "session"; strings_ToLower name +:+ "-" +:+ FormatInt id]) as Hf by (each_path; done).
    rewrite path_Join_joined by done. by apply joined_is_path.
Qed.

(** Whether the session with an identifier is stored at a key. *)
Definition session_there (m : gmap string string) (key : string) (id : Z) : bool :=
  match m !! key with
  | Some v => match session_Unmarshal (bytes_of_string v) with
              | Ok s => bool_decide (ServerID s = id)
              | _ => false
              end
  | None => false
  end.

(** [kill] removes the session of the component when its identifier is the one given, and
    nothing else; otherwise it fails and leaves the store as it is. *)
Theorem Kill_spec c base Component id key :
  healthy c → is_path base → kill_key base Component id = Ok key →
  KillCommand base Component id false c = (c, Ok tt)
  ∧ if session_there (mk_map c) key id
    then ∃ c', KillCommand base Component id true c = (c', Ok tt) ∧ mk_map c' = delete key (mk_map c)
    else ∃ r, KillCommand base Component id true c = (c, r) ∧ r ≠ Ok tt.
Proof.
  intros Hc Hb Hk. pose proof (kill_key_path base Component id key Hb Hk) as Hp.
  unfold KillCommand, mbind, cmd_bind, of_res. rewrite Hk. split; [done|].
  unfold etcdKillComponent, mbind, cmd_bind, reads, session_there.
  rewrite healthy_Load by done. destruct (mk_map c !! key) as [v|] eqn:Hv; [|by eexists].
  destruct (session_Unmarshal (bytes_of_string v)) as [s|e|w]; [|by eexists..].
  destruct (decide (ServerID s = id)) as [Hid|Hid].
  2: { rewrite bool_decide_false, bool_decide_true by done. by eexists. }
  rewrite bool_decide_true, bool_decide_false by tauto.
  destruct (healthy_Remove c key Hc Hp) as (c' & r & Hr & _ & Hm & _ & Hok).
  exists c'. by rewrite Hr, Hok.
Qed.
End kill_properties.

(** ** Witnesses *)
Definition sample_load (coll : Z) : CollectionLoadInfo := MkCollectionLoad coll ∅ "".
#[local] Instance sample_load_codec : ProtoCodec CollectionLoadInfo :=
  table_codec [("l1", sample_load 1); ("l2", sample_load 2)].
#[local] Instance sample_partition_load_codec : ProtoCodec PartitionLoadInfo :=
  table_codec [("q1", MkPartitionLoad 1 5 ""); ("q2", MkPartitionLoad 2 6 "")].
#[local] Instance one_session : JsonSession := {|
  session_Marshal _ := Ok (bytes_of_string "s7");
  session_Unmarshal bs :=
    if bool_decide (bs = bytes_of_string "s7") then Ok (MkSession 7 "querynode" "10.0.0.1:21123" false "" "" 0 "")
    else Err (Errorf "invalid character");
|}.
Definition loaded_store : etcdKV (gmap string string) :=
  etcd_store [("by-dev/querycoord-collection-loadinfo/1", "l1");
              ("by-dev/querycoord-collection-loadinfo/2", "l2");
              ("by-dev/querycoord-partition-loadinfo/1/5", "q1");
              ("by-dev/querycoord-partition-loadinfo/2/6", "q2");
              ("by-dev/queryCoord-collectionMeta/2", "old");
              ("by-dev/session/querynode-7", "s7")].

Lemma ForceRelease_spec_witness :
  ∃ c', ForceReleaseCommand "by-dev" 1 false loaded_store = (c', Ok tt)
    ∧ mk_map c' !! "by-dev/querycoord-collection-loadinfo/1" = None
    ∧ mk_map c' !! "by-dev/querycoord-partition-loadinfo/1/5" = None
    ∧ mk_map c' !! "by-dev/querycoord-partition-loadinfo/2/6" = Some "q2".
Proof.
  destruct (ForceRelease_spec loaded_store "by-dev" 1) as (c' & Hr & Hm).
  - apply etcd_store_healthy.
  - is_path_dec.
  - clean_dec.
  - clean_dec.
  - clean_dec.
  - exists c'. split; [exact Hr|]. rewrite Hm. split_and!; vm_compute; reflexivity.
Defined.

Lemma ForceRelease_all_nothing_witness :
  ∃ c', ForceReleaseCommand "by-dev" 0 true loaded_store = (c', Ok tt) ∧ mk_map c' = mk_map loaded_store.
Proof.
  apply (ForceRelease_all_nothing loaded_store "by-dev" 0).
  - apply etcd_store_healthy.
  - vm_compute. discriminate.
  - vm_compute. discriminate.
  - assert (map_Forall (λ k _, HasPrefix k "by-dev/" = true) (mk_map loaded_store)) as Hk by clean_dec.
    intros k [v Hv]. exact (Hk k v Hv).
Defined.

Lemma ReleaseDropped_keeps_witness :
  ∃ c', ReleaseDroppedCollectionCmd "by-dev" LTEVersion2_1 true loaded_store = (c', Ok tt)
    ∧ mk_map c' !! "by-dev/querycoord-collection-loadinfo/2" = Some "l2".
Proof.
  destruct (ReleaseDropped_keeps loaded_store "by-dev" LTEVersion2_1
    [NewProtoWrapper (sample_load 1) "by-dev/querycoord-collection-loadinfo/1";
     NewProtoWrapper (sample_load 2) "by-dev/querycoord-collection-loadinfo/2"] [1; 2]) as (c' & Hr & Hm).
  - apply etcd_store_healthy.
  - is_path_dec.
  - vm_compute. reflexivity.
  - vm_compute. reflexivity.
  - exists c'. split; [exact Hr|]. rewrite Hm; vm_compute; reflexivity.
Defined.

Lemma Kill_spec_witness :
  ∃ c', KillCommand "by-dev" "QueryNode" 7 true loaded_store = (c', Ok tt)
    ∧ mk_map c' !! "by-dev/session/querynode-7" = None.
Proof.
  destruct (Kill_spec loaded_store "by-dev" "QueryNode" 7 "by-dev/session/querynode-7") as [_ Hk].
  - apply etcd_store_healthy.
  - is_path_dec.
  - vm_compute. reflexivity.
  - assert (session_there (mk_map loaded_store) "by-dev/session/querynode-7" 7 = true) as Ht
      by (vm_compute; reflexivity).
    rewrite Ht in Hk. destruct Hk as (c' & Hr & Hm). exists c'. split; [exact Hr|]. rewrite Hm. apply lookup_delete_eq.
Defined.
