(* ===== verification/Repair.v ===== *)
(** * The repair commands

    Models [states/etcd/repair]: the commands that change what is wrong in the metadata
    store.  Those that ask a running coordinator ([channel.go], [manual_compaction.go],
    [check_qn_collection_leak.go]) are not modelled. *)

From S2P Require Export Remove.

(** ** The messages *)
Record DatabaseInfo := MkDatabaseInfo { di_Id : Z; di_Name : string }.
#[export] Instance DatabaseInfo_eq_dec : EqDecision DatabaseInfo.
Proof. solve_decision. Defined.

(** [etcdpb.PartitionState]. *)
Definition PartitionState_PartitionDropping : Z := 2.
Definition PartitionState_PartitionDropped : Z := 3.
Definition ConsistencyLevel_Bounded : Z := 2.

(** A line of the file of collection infos. *)
Record CollectionInfoModel := MkInfoModel {
  cm_CollectionID : Z;
  cm_DbName : string;
  cm_CollectionName : string;
  cm_ConsitencyLevel : Z;
}.
Record ListModel := MkListModel { lm_Infos : list (option CollectionInfoModel) }.

(** ** Helpers of the commands *)

(** [strings.LastIndex(vchannel, "_")]. *)
Definition ToPhysicalChannel (vchannel : string) : string :=
  match cut_last "_" vchannel with Some (p, _) => p | None => vchannel end.

(** [{prefix}_{entityID}v{version}]. *)
Definition ParseEntity (str : string) : res (string * Z * Z) :=
  match cut_last "_" str with
  | None => Err (Errorf "format error: missing underscore")
  | Some (prefix, suffix) =>
      match cut_last "v" suffix with
      | None => Err (Errorf "format error: missing 'v' separator")
      | Some (entityIDStr, versionStr) =>
          match Atoi entityIDStr with
          | None => Err (Errorf "invalid entityID")
          | Some entityID =>
              match Atoi versionStr with
              | None => Err (Errorf "invalid version")
              | Some version => Ok (prefix, entityID, version)
              end
          end
      end
  end.

(** The row counts of the fields; [segment.GetBinlogs()[0]] panics without a field. *)
Definition row_count (f : PbFieldBinlog) : Z :=
  foldl (λ n b, int64 (n + pb_EntriesNum b)) 0 (pfb_Binlogs f).
Definition integrityCheck (segment : SegmentInfo) : res bool :=
  match si_Binlogs segment with
  | [] => Panic "index out of range"
  | f :: fs => Ok (forallb (λ g, bool_decide (row_count g = row_count f)) fs)
  end.

(** Whether no log has a binlog. *)
Definition isEmptySegment (info : SegmentInfo) : bool :=
  no_binlogs (si_Binlogs info) && no_binlogs (si_Statslogs info) && no_binlogs (si_Deltalogs info).

(** The bytes to save: a message that does not marshal is printed, and saved as nothing. *)
Definition marshalled {T} `{ProtoCodec T} (x : T) : res string :=
  match encoded x with Ok bs => Ok bs | Err _ => Ok "" | Panic w => Panic w end.

(** The parameters of an index that the check of parameters knows. *)
Definition DISKANNParamsMap : list string :=
  ["max_degree"; "search_list_size"; "pq_code_budget_gb"; "build_dram_budget_gb"; "disk_pq_dims";
   "partition_limit"; "accelerate_build"; "search_cache_budget_gb"; "warm_up"; "use_bfs_cache";
   "beamwidth"; "min_k"; "max_k"; "search_list_and_k_ratio"; "filter_threshold";
   "pq_code_budget_gb_ratio"; "num_build_thread_ratio"; "search_cache_budget_gb_ratio";
   "num_load_thread_ratio"; "beamwidth_ratio"].
Definition shareParamsMap : list string :=
  ["index_type"; "metric_type"; "k"; "num_build_thread"; "retrieve_friendly"; "data_path";
   "index_prefix"; "build_quant_type"; "search_quant_type"; "radius"; "range_filter"; "trace_visit";
   "enable_mmap"; "for_tuning"].
Definition HNSWParamsMap : list string := ["M"; "efConstruction"; "ef"; "seed_ef"; "overview_levels"].

(** The index type, the last one that is given. *)
Definition index_type (params : list (string * string)) : string :=
  foldl (λ t pair, if bool_decide (pair.1 = "index_type") then pair.2 else t) "" params.

Definition has_param (key : string) (params : list (string * string)) : bool :=
  existsb (λ pair, bool_decide (pair.1 = key)) params.

(** The copy of an index that the repairs write, with other index parameters; fields that
    the copy does not name are not copied. *)
Definition copy_index (index : FieldIndex) (params : list (string * string)) : FieldIndex :=
  let i := default (MkIndexInfo 0 0 "" 0 [] [] 0 0 0 "" false [] "") (fi_IndexInfo index) in
  MkFieldIndex (Some (MkIndexInfo (ii_CollectionID i) (ii_FieldID i) (ii_IndexName i) (ii_IndexID i)
      (ii_TypeParams i) params (ii_IndexedRows i) (ii_TotalRows i) (ii_State i)
      (ii_IndexStateFailReason i) (ii_IsAutoIndex i) (ii_UserIndexParams i) ""))
    (fi_Deleted index) (fi_CreateTime index).

(** [proto.Clone] and one more parameter. *)
Definition append_param (index : FieldIndex) (i : IndexInfo) (pair : string * string) : FieldIndex :=
  MkFieldIndex (Some (MkIndexInfo (ii_CollectionID i) (ii_FieldID i) (ii_IndexName i) (ii_IndexID i)
      (ii_TypeParams i) (ii_IndexParams i ++ [pair]) (ii_IndexedRows i) (ii_TotalRows i) (ii_State i)
      (ii_IndexStateFailReason i) (ii_IsAutoIndex i) (ii_UserIndexParams i) (ii_rest i)))
    (fi_Deleted index) (fi_CreateTime index).

Section repair.
Context {K : Type} `{MetaKV K} `{MapOrder}.
Context `{ProtoCodec CollectionInfo} `{ProtoCodec FieldSchema} `{ProtoCodec StructArrayFieldSchema}.
Context `{ProtoCodec FunctionSchema} `{ProtoCodec SegmentInfo} `{ProtoCodec PbFieldBinlog}.
Context `{ProtoCodec ChannelWatchInfo} `{ProtoCodec MsgPosition} `{ProtoCodec FieldIndex}.
Context `{ProtoCodec PartitionInfo} `{ProtoCodec DatabaseInfo}.
Variable basePath : string.

(** *** [segment.go] and [segment_empty.go] *)
Definition writeRepairedSegment (segment : SegmentInfo) : cmd K unit :=
  bs ← of_res (marshalled segment);
  λ c, mk_Save c (path_Join [basePath; "datacoord-meta/s/" +:+ ids_path (segment_ids segment)]) bs.

(** What could not be filled in is not looked at. *)
Definition filled (c : K) (info : SegmentInfo) : res SegmentInfo :=
  let '(info, err) := FillFieldsIfV2 c basePath info in
  match err with Panic w => Panic w | _ => Ok info end.

Definition remove_segment (info : SegmentInfo) : cmd K unit := λ c, RemoveSegment c basePath info.

Definition checked_state (info : ModelSegment K) : bool :=
  bool_decide (si_State (sg_info info)
    ∈ [SegmentState_Flushed; SegmentState_Flushing; SegmentState_Sealed]).

Definition repair_empty (run : bool) (info : ModelSegment K) : cmd K unit :=
  segment ← reads (λ c, filled c (sg_info info));
  if isEmptySegment segment && run then try_ (remove_segment segment) else mret tt.

(** An error of the listing is printed. *)
Definition RepairEmptySegmentCommand (run : bool) : cmd K unit :=
  segments ← attempt (reads (λ c, ListSegments c basePath [checked_state]));
  match segments with
  | Ok segments => for_each (repair_empty run) segments
  | _ => mret tt
  end.

(** *** [segment_partition_drop.go] *)
Definition target_partitions (partition : Z) (partitions : list (ProtoWrapper PartitionInfo)) : list Z :=
  map (λ p, pi_PartitionID (GetProto p))
    (filter (λ p,
       (partition = 0 ∨ pi_PartitionID (GetProto p) = partition)
       ∧ pi_State (GetProto p) ∈ [PartitionState_PartitionDropping; PartitionState_PartitionDropped])
     partitions).

Definition in_partitions (targets : list Z) (s : SegmentInfo) : bool :=
  negb (bool_decide (si_State s = SegmentState_Dropped)) && bool_decide (si_PartitionID s ∈ targets).

Definition RepairSegmentPartDropCommand (collection partition : Z) (run : bool) : cmd K unit :=
  if bool_decide (collection = 0) then stop (Errorf "collection id not provided")
  else
    partitions ← reads (λ c, ListCollectionPartitions c basePath collection);
    let targets := target_partitions partition partitions in
    segments ← reads (λ c, ListSegments c basePath [λ s, in_partitions targets (sg_info s)]);
    let groups := GroupBy (λ s, si_PartitionID (sg_info s)) segments in
    for_each (λ '(_, segments),
      for_each (λ s, if run then try_ (remove_segment (sg_info s)) else mret tt) segments)
      (range groups).

(** *** [checkpoint.go] *)
Definition segment_position (s : SegmentInfo) : option MsgPosition :=
  match si_DmlPosition s with Some p => Some p | None => si_StartPosition s end.

(** One segment of the loop. *)
Definition latest_position (ret : gmap string MsgPosition) (s : SegmentInfo) : gmap string MsgPosition :=
  if bool_decide (si_State s ∈ [SegmentState_Flushed; SegmentState_Growing; SegmentState_Flushing]) then
    match segment_position s with
    | None => ret
    | Some segPos =>
        let pChannel := ToPhysicalChannel (si_InsertChannel s) in
        match ret !! pChannel with
        | Some pos => if bool_decide (mp_Timestamp pos < mp_Timestamp segPos)
                      then <[pChannel := segPos]> ret else ret
        | None => <[pChannel := segPos]> ret
        end
    end
  else ret.

Definition getLatestCheckpointFromPChannel (c : K) : res (gmap string MsgPosition) :=
  segments ← ListSegments c basePath [];
  Ok (foldl (λ ret s, latest_position ret (sg_info s)) ∅ segments).

Definition saveChannelCheckpoint (channelName : string) (pos : MsgPosition) : cmd K unit :=
  bs ← of_res (marshalled pos);
  λ c, mk_Save c (path_Join [basePath; "datacoord-meta"; "channel-cp"; channelName]) bs.

(** The first channel of that virtual name. *)
Definition setCheckPointWithLatestCheckPoint (coll : Collection) (vchannel : string) : cmd K unit :=
  latest ← reads getLatestCheckpointFromPChannel;
  channels ← of_res (Channels coll);
  match List.find (λ ch, bool_decide (ch_VirtualName ch = vchannel)) channels with
  | None => stop (Errorf "vchannel doesn't exists in collection")
  | Some ch =>
      match latest !! ch_PhysicalName ch with
      | None => stop (Errorf "the pchannel doesn't exists")
      | Some cp => saveChannelCheckpoint (ch_VirtualName ch) cp
      end
  end.

(** [getLatestFromPChannel], whose answer comes from the message queue. *)
Variable getLatestFromPChannel : string → res MsgPosition.

Definition setCheckPointWithLatestMsgID (coll : Collection) (vchannel : string) : cmd K unit :=
  channels ← of_res (Channels coll);
  match List.find (λ ch, bool_decide (ch_VirtualName ch = vchannel)) channels with
  | None => stop (Errorf "vchannel doesn't exists in collection")
  | Some ch => cp ← of_res (getLatestFromPChannel vchannel);
               saveChannelCheckpoint (ch_VirtualName ch) cp
  end.

Definition RepairCheckpointCommand (collection : Z) (vchannel setTo : string) : cmd K unit :=
  coll ← reads (λ c, GetCollectionByIDVersion c basePath collection);
  if bool_decide (setTo = "latest-cp") then setCheckPointWithLatestCheckPoint coll vchannel
  else if bool_decide (setTo = "latest-msgid") then setCheckPointWithLatestMsgID coll vchannel
  else mret tt.

(** *** [channel_watched.go] *)

(** [sort.Slice] by the field identifier; the identifiers of a schema are distinct. *)
#[export] Instance field_le_dec : RelDecision (λ f g, fs_FieldID f <= fs_FieldID g) :=
  λ f g, Z_le_dec _ _.
Definition sort_fields (s : CollectionSchema) : CollectionSchema :=
  with_Fields s (merge_sort (λ f g, fs_FieldID f <= fs_FieldID g) (cs_Fields s)) (cs_StructArrayFields s).

(** A collection that is not found leaves a nil pointer, which is then followed. *)
Definition repair_watch (run : bool) (info : ProtoWrapper ChannelWatchInfo) : cmd K unit :=
  vchan ← of_res (deref (cw_Vchan (GetProto info)));
  found ← attempt (reads (λ c, GetCollectionByIDVersion c basePath (vc_CollectionID vchan)));
  collection ← of_res (deref (match found with Ok coll => Some coll | _ => None end));
  schema ← of_res (deref (ci_Schema (co_proto collection)));
  let w := GetProto info in
  let info := NewProtoWrapper (MkChannelWatchInfo (cw_Vchan w) (Some (sort_fields schema)) (cw_rest w))
                (Key info) in
  if run then try_ (λ c, WriteChannelWatchInfo c basePath info) else mret tt.

Definition RepairChannelWatchedCommand (collectionID : Z) (channelName : string) (run : bool) : cmd K unit :=
  infos ← reads (λ c,
    infos ← ListChannelWatch c basePath [];
    filterR (λ w,
      let vchan := cw_Vchan (GetProto w) in
      same ← (if bool_decide (collectionID = 0) then Ok true
              else v ← deref vchan; Ok (bool_decide (vc_CollectionID v = collectionID)));
      if negb same then Ok false
      else if bool_decide (channelName = "") then Ok true
      else v ← deref vchan; Ok (bool_decide (vc_ChannelName v = channelName))) infos);
  for_each (repair_watch run) (filter (λ w, cw_Schema (GetProto w) = None) infos).

(** *** [collection_legacy.go] *)

(** The condition on a collection's schema; it is asked before the fields are loaded.  For
    a nil schema it panics, as loading the fields of the selected collection does. *)
Definition legacy_suspect (collectionID : Z) (info : Collection) : bool :=
  let coll := co_proto info in
  bool_decide (ci_DbId coll = 0)
  && match ci_Schema coll with
     | None => true
     | Some s => bool_decide (cs_Fields s = [])
                 && (bool_decide (collectionID = 0) || bool_decide (collectionID = ci_ID coll))
     end.

Definition remove_history_key (h : CollectionHistory) : cmd K unit :=
  key ← of_res (history_Key h); try_ (λ c, mk_Remove c key).

Definition remove_remnant (info : Collection) : cmd K unit :=
  removed ← attempt (λ c, mk_Remove c (co_key info));
  match removed with
  | Ok _ =>
      history ← attempt (reads (λ c, ListCollectionHistory c basePath (ci_DbId (co_proto info))
                                       (ci_ID (co_proto info))));
      match history with Ok hs => for_each remove_history_key hs | _ => mret tt end
  | _ => mret tt
  end.

Definition CollectionLegacyDroppedCommand (collectionID : Z) (run : bool) : cmd K unit :=
  collections ← reads (λ c, ListCollections c basePath [legacy_suspect collectionID]);
  match collections with
  | [] =>
      if bool_decide (collectionID ≠ 0) then
        hs ← reads (λ c, ListCollectionHistory c basePath 0 collectionID);
        for_each (λ h, if run then remove_history_key h
                       else _ ← of_res (history_Key h); mret tt) hs
      else mret tt
  | _ => for_each (λ info, if run then remove_remnant info else mret tt) collections
  end.

(** *** [index_metric.go], [index_parmas.go], [add_index_param_retrive_friendly.go] *)
Definition writeRepairedIndex (index : FieldIndex) : cmd K unit :=
  i ← of_res (deref (fi_IndexInfo index));
  bs ← of_res (marshalled index);
  λ c, mk_Save c (path_Join [basePath; "field-index/" +:+ ids_path [ii_CollectionID i; ii_IndexID i]]) bs.

(** The parameters without empty metric types, and whether a metric type is left.  A later
    empty one takes back what an earlier one said. *)
Definition metric_params (params : list (string * string)) : list (string * string) * bool :=
  foldl (λ '(ps, present) pair,
    if bool_decide (pair.1 = "metric_type") then
      if bool_decide (pair.2 = "") then (ps, false) else (ps ++ [pair], true)
    else (ps ++ [pair], present)) ([], false) params.

(** [true] when the index had to be repaired. *)
Definition repair_metric (index : FieldIndex) : cmd K bool :=
  i ← of_res (deref (fi_IndexInfo index));
  let '(params, present) := metric_params (ii_IndexParams i) in
  if present then mret false
  else
    match List.find (λ pair, bool_decide (pair.1 = "metric_type") && bool_decide (pair.2 ≠ ""))
            (ii_TypeParams i) with
    | None => stop (Errorf "no metric_type in IndexParams or TypeParams")
    | Some metric => writeRepairedIndex (copy_index index (params ++ [metric]));; mret true
    end.

(** All errors are printed. *)
Definition IndexMetricCommand (collID : Z) : cmd K unit :=
  try_ (
    indexes ← reads (λ c, ListIndex c basePath []);
    for_each (λ info,
      i ← of_res (deref (fi_IndexInfo (GetProto info)));
      if bool_decide (ii_CollectionID i ≠ collID) then mret tt
      else repair_metric (GetProto info);; mret tt) indexes;;
    reads (λ c, ListIndex c basePath []);; mret tt).

(** The parameters that belong to the index type, if it is one of the two. *)
Definition known_params (indexType : string) : option (list string) :=
  if bool_decide (indexType = "DISKANN") then Some (DISKANNParamsMap ++ shareParamsMap)
  else if bool_decide (indexType = "HNSW") then Some (HNSWParamsMap ++ shareParamsMap)
  else None.

(** The index to write, if it has parameters that do not belong to it. *)
Definition strip_params (index : FieldIndex) : res (option FieldIndex) :=
  i ← deref (fi_IndexInfo index);
  match known_params (index_type (ii_IndexParams i)) with
  | None => Ok None
  | Some known =>
      let params := filter (λ pair, pair.1 ∈ known) (ii_IndexParams i) in
      Ok (if bool_decide (length params = length (ii_IndexParams i)) then None
          else Some (copy_index index params))
  end.

Definition DiskAnnIndexParamsCommand (collID : Z) (run : bool) : cmd K unit :=
  try_ (
    indexes ← reads (λ c, ListIndex c basePath
      [λ w, bool_decide (collID = 0) || bool_decide (GetCollectionID (GetProto w) = collID)]);
    newIndexes ← of_res (mapR (λ w, strip_params (GetProto w)) indexes);
    if run then
      for_each writeRepairedIndex (omap id newIndexes);;
      reads (λ c, ListIndex c basePath []);; mret tt
    else mret tt).

(** The index with the parameter added, if it lacks it. *)
Definition added_param (key value : string) (index : FieldIndex) : option FieldIndex :=
  match fi_IndexInfo index with
  | None => None
  | Some i =>
      if bool_decide (index_type (ii_IndexParams i) ∈ ["DISKANN"; "HNSW"])
         && negb (has_param key (ii_IndexParams i))
      then Some (append_param index i (key, value)) else None
  end.

Definition AddIndexParamsCommand (collection : Z) (key value : string) (run : bool) : cmd K unit :=
  let listing := λ c, ListIndex c basePath
    [λ w, bool_decide (collection = 0) || bool_decide (collection = GetCollectionID (GetProto w))] in
  indexes ← reads listing;
  if run then
    for_each writeRepairedIndex (omap (λ w, added_param key value (GetProto w)) indexes);;
    reads listing;; mret tt
  else mret tt.

(** *** [mixed_binlogs.go] *)
Record field_sets := FieldSets {
  fv_v1 : gset Z;
  fv_v2 : gset Z;
  fv_v1binlogs : gmap Z ModelFieldBinlog;
  fv_v2binlogs : gmap Z ModelFieldBinlog;
}.

(** A log with child fields is one of version 2. *)
Definition add_binlog (st : field_sets) (binlog : ModelFieldBinlog) : field_sets :=
  match mfb_ChildFields binlog with
  | [] => FieldSets ({[mfb_FieldID binlog]} ∪ fv_v1 st) (fv_v2 st)
            (<[mfb_FieldID binlog := binlog]> (fv_v1binlogs st)) (fv_v2binlogs st)
  | children => FieldSets (fv_v1 st) (list_to_set children ∪ fv_v2 st) (fv_v1binlogs st)
                  (<[mfb_FieldID binlog := binlog]> (fv_v2binlogs st))
  end.

(** The fields whose logs are to be removed, if the segment has a field in both versions:
    those of the version that the other one makes superfluous. *)
Definition mixed_target (c : K) (s : ModelSegment K) : res (option (SegmentInfo * list Z)) :=
  let st := foldl add_binlog (FieldSets ∅ ∅ ∅ ∅) (GetBinlogs c s).2 in
  if bool_decide (fv_v1 st ∩ fv_v2 st = ∅) then Ok None
  else
    coll ← GetCollectionByIDVersion c basePath (si_CollectionID (sg_info s));
    schema ← deref (ci_Schema (co_proto coll));
    let fieldNumber := length (cs_Fields schema) in
    if bool_decide (fieldNumber = size (fv_v2 st))
    then Ok (Some (sg_info s, map (λ p, mfb_FieldID p.2) (range (fv_v1binlogs st))))
    else if bool_decide (fieldNumber = size (fv_v1 st))
    then Ok (Some (sg_info s, map (λ p, mfb_FieldID p.2) (range (fv_v2binlogs st))))
    else Err (Errorf "neither v1 or v2 binlog has all fields").

(** [fmt.Sprintf("%s/datacoord-meta/binlog/...")]. *)
Definition mixed_keys (t : SegmentInfo * list Z) : list string :=
  map (λ f, basePath +:+ "/datacoord-meta/binlog/" +:+ ids_path (segment_ids t.1 ++ [f])) t.2.

Definition backup_and_remove (key : string) : cmd K unit :=
  value ← reads (λ c, mk_Load c key false);
  (λ c, mk_Save c ("repair/" +:+ key) value);;
  λ c, mk_Remove c key.

Definition MixedBinlogsCommand (run : bool) : cmd K unit :=
  segments ← reads (λ c, ListSegments c basePath []);
  results ← reads (λ c, mapR (mixed_target c) segments);
  if run then for_each backup_and_remove (concat (map mixed_keys (omap id results))) else mret tt.

(** *** [collection_info.go] *)
Context `{JsonCodec ListModel}.

(** [lo.SliceToMap] by a key: the last one of a key counts. *)
Definition find_last {A} (P : A → bool) (l : list A) : option A := List.find P (rev l).

(** [channels[version] = channel], which panics out of range. *)
Definition go_set {A} (l : list A) (i : Z) (x : A) : res (list A) :=
  if bool_decide (0 <= i) && bool_decide (i < zlen l) then Ok (<[Z.to_nat i := x]> l)
  else Panic "index out of range".

(** The channels of the checkpoints, by their versions. *)
Fixpoint place_channels (channels : list (option Channel)) (checkpoints : list MsgPosition)
    : res (list (option Channel)) :=
  match checkpoints with
  | [] => Ok channels
  | cp :: checkpoints =>
      '(pchannel, _, version) ← ParseEntity (mp_ChannelName cp);
      channels ← go_set channels version (Some (MkChannel pchannel (mp_ChannelName cp) cp));
      place_channels channels checkpoints
  end.

(** What is known of the collection, from the file or from the parameters. *)
Record CollectionInfoParam := MkInfoParam {
  ip_Path : string;
  ip_DatabaseID : Z;
  ip_CollectionID : Z;
  ip_CollectionName : string;
  ip_EnableDynamic : bool;
  ip_Run : bool;
}.

Definition collection_source (ReadFile : string → res (list byte)) (databases : list DatabaseInfo)
    (p : CollectionInfoParam) : res (CollectionInfoModel * DatabaseInfo) :=
  if bool_decide (ip_Path p ≠ "") then
    data ← ReadFile (ip_Path p);
    config ← json_obj_Unmarshal data;
    infos ← mapR deref (lm_Infos config);
    match find_last (λ i, bool_decide (cm_CollectionID i = ip_CollectionID p)) infos with
    | None => Err (Errorf "collection ID not found in the collection info file")
    | Some info =>
        match find_last (λ d, bool_decide (di_Name d = cm_DbName info)) databases with
        | None => Err (Errorf "collection dbname not found current instance")
        | Some db => Ok (info, db)
        end
    end
  else if bool_decide (ip_DatabaseID p = 0) then
    Err (Errorf "database ID must be specified when collection info file is not provided")
  else if bool_decide (ip_CollectionName p = "") then
    Err (Errorf "collection name must be specified when collection info file is not provided")
  else
    match List.find (λ d, bool_decide (di_Id d = ip_DatabaseID p)) databases with
    | None => Err (Errorf "database ID not found current instance")
    | Some db => Ok (MkInfoModel (ip_CollectionID p) (di_Name db) (ip_CollectionName p)
                       ConsistencyLevel_Bounded, db)
    end.

(** The start positions follow the pointer of a channel that is missing. *)
Definition start_position (channel : option Channel) : res (string * list byte) :=
  ch ← deref channel; Ok (ch_VirtualName ch, mp_MsgID (ch_StartPosition ch)).

Definition repaired_info (p : CollectionInfoParam) (info : CollectionInfoModel) (db : DatabaseInfo)
    (dynamic : bool) (channels : list (option Channel)) : res CollectionInfo :=
  positions ← mapR start_position channels;
  let name f := map (λ ch, match ch with Some ch => f ch | None => "" end) channels in
  Ok (MkCollectionInfo (cm_CollectionID info)
        (Some (MkSchema (cm_CollectionName info) "" false [] (ip_EnableDynamic p || dynamic) (di_Name db)
                 [] [] []))
        CollectionState_CollectionCreated (name ch_VirtualName) (name ch_PhysicalName) positions
        (cm_ConsitencyLevel info) (di_Id db) (int32 (zlen channels)) []).

Definition CollectionInfoCommand (ReadFile : string → res (list byte)) (p : CollectionInfoParam)
    : cmd K unit :=
  databases ← reads (λ c, ListDatabase c basePath []);
  '(results, _) ← reads (λ c, ListProtoObjects c
                    (path_Join [basePath; "datacoord-meta"; "channel-cp"]) []);
  let checkpoints :=
    filter (λ cp, Contains (mp_ChannelName cp) (FormatInt (ip_CollectionID p)) = true) results in
  '(fields, _) ← reads (λ c, ListProtoObjects c
                   (path_Join [basePath; "root-coord/fields/" +:+ FormatInt (ip_CollectionID p)]) []);
  channels ← of_res (place_channels (replicate (length checkpoints) None) checkpoints);
  '(info, db) ← of_res (collection_source ReadFile (map GetProto databases) p);
  collPb ← of_res (repaired_info p info db (existsb fs_IsDynamic fields) channels);
  if ip_Run p then
    bs ← of_res (encoded collPb);
    λ c, mk_Save c (path_Join [basePath; "root-coord"; "database"; "collection-info";
                               FormatInt (ci_DbId collPb); FormatInt (ci_ID collPb)]) bs
  else mret tt.
End repair.

(** ** What the commands do *)
Section segment_repairs.
Context {K : Type} `{MetaKVLaws K} `{MapOrder}.
Context `{ProtoCodec CollectionInfo} `{ProtoCodec FieldSchema} `{ProtoCodec StructArrayFieldSchema}.
Context `{ProtoCodec FunctionSchema} `{ProtoCodec SegmentInfo} `{ProtoCodec PbFieldBinlog}.
Context `{ProtoCodec PartitionInfo}.
Implicit Types (c : K) (m : gmap string string) (s : SegmentInfo).

(** Whether no log of a segment, its own or stored, has a binlog that can be read. *)
Definition logless c (base : string) (s : SegmentInfo) : bool :=
  let none old kind := no_binlogs (if bool_decide (zlen old = 0)
                                   then stored_logs c base kind (segment_ids s) else old) in
  none (si_Binlogs s) "binlog" && none (si_Statslogs s) "statslog" && none (si_Deltalogs s) "deltalog".

Lemma filled_empty c base s :
  healthy c → is_path base →
  ∃ s', filled base c s = Ok s' ∧ segment_ids s' = segment_ids s ∧ isEmptySegment s' = logless c base s.
Proof.
  intros Hc Hb. destruct (FillFieldsIfV2_up c base s Hc Hb) as (s' & Hf & Hi & Hb1 & Hd & Hs).
  exists s'. unfold filled. rewrite Hf. split_and!; [done..|]. unfold isEmptySegment, logless, list_filled in *.
  repeat case_bool_decide; naive_solver congruence.
Qed.

(** The stored logs of a segment do not change when records of segments are removed, if
    none of them is at a key that ends in a segment's identifier. *)
Definition no_bare_logs c (base : string) : Prop :=
  Forall (λ s, Forall (λ kind, mk_map c !! seg_key base kind (segment_ids s) = None)
                 ["binlog"; "deltalog"; "statslog"]) (segment_infos c base).

Lemma stored_logs_agree c c' base kind s done :
  no_bare_logs c base → done ⊆ segment_infos c base → kind ∈ ["binlog"; "deltalog"; "statslog"] →
  mk_map c' = without (keys_of_segments base done) (mk_map c) →
  stored_logs c' base kind (segment_ids s) = stored_logs c base kind (segment_ids s).
Proof.
  intros Hno Hsub Hkind Hm. unfold stored_logs.
  rewrite (prefixed_agree _ (mk_map c') (mk_map c)); [done|]. intros k Hk.
  rewrite Hm, without_lookup. case_bool_decide as Hin; [|done].
  apply list_elem_of_In, in_concat in Hin as (ks & (s' & <- & Hs')%in_map_iff & Hks).
  apply list_elem_of_In in Hs', Hks. apply Hsub in Hs'.
  eapply list.Forall_forall in Hno; [|exact Hs'].
  unfold segment_keys in Hks. apply elem_of_cons in Hks as [-> |Hks].
  - exfalso. apply HasPrefix_spec in Hk as [r Hr]. unfold seg_key in Hr. cbn [joined Join] in Hr.
    rewrite !string_app_assoc in Hr. apply (inj (String.append base)) in Hr.
    repeat (apply elem_of_cons in Hkind as [-> |Hkind]; [discriminate Hr|]). by apply not_elem_of_nil in Hkind.
  - symmetry. repeat (apply elem_of_cons in Hks as [-> |Hks];
      [eapply list.Forall_forall in Hno; [exact Hno|set_solver]|]). by apply not_elem_of_nil in Hks.
Qed.

Lemma logless_agree c c' base s done :
  no_bare_logs c base → done ⊆ segment_infos c base →
  mk_map c' = without (keys_of_segments base done) (mk_map c) →
  logless c' base s = logless c base s.
Proof.
  intros Hno Hsub Hm. unfold logless.
  assert (∀ kind, kind ∈ ["binlog"; "deltalog"; "statslog"] →
    stored_logs c' base kind (segment_ids s) = stored_logs c base kind (segment_ids s)) as Hst
    by (intros; by eapply stored_logs_agree).
  rewrite !Hst by set_solver. done.
Qed.

Lemma repair_empty_loop c base segs done c1 :
  healthy c → is_path base → no_bare_logs c base → healthy c1 →
  done ++ map sg_info segs ⊆ segment_infos c base →
  NoDup (map (λ s, seg_key base "s" (segment_ids s)) (done ++ map sg_info segs)) →
  Forall (λ s, is_Some (mk_map c !! seg_key base "s" (segment_ids s))) (map sg_info segs) →
  mk_map c1 = without (keys_of_segments base (filter (λ s, logless c base s = true) done)) (mk_map c) →
  ∃ c', for_each (repair_empty (K:=K) base true) segs c1 = (c', Ok tt) ∧ healthy c'
    ∧ mk_map c' = without (keys_of_segments base
                    (filter (λ s, logless c base s = true) (done ++ map sg_info segs))) (mk_map c).
Proof.
  intros Hc Hb Hno. revert done c1. induction segs as [|s segs IH]; intros done c1 Hc1 Hsub Hnd Hin Hm1.
  { exists c1. cbn [map]. by rewrite app_nil_r. }
  cbn [map for_each] in *. apply list.Forall_cons in Hin as [Hs Hin].
  assert (filter (λ s, logless c base s = true) done ⊆ segment_infos c base) as Hsub'.
  { intros x [_ Hx]%list_elem_of_filter. apply Hsub. apply elem_of_app. by left. }
  destruct (filled_empty c1 base (sg_info s) Hc1 Hb) as (s' & Hf & Hi & He).
  rewrite (logless_agree c c1 base _ _ Hno Hsub' Hm1) in He.
  unfold mbind at 1, cmd_bind at 1. unfold repair_empty at 1, mbind at 1, cmd_bind at 1, reads at 1.
  rewrite Hf, He, andb_true_r.
  replace (done ++ sg_info s :: map sg_info segs) with ((done ++ [sg_info s]) ++ map sg_info segs) in *
    by (by rewrite <-(assoc_L (++))).
  destruct (logless c base (sg_info s)) eqn:Hl.
  - assert (is_Some (mk_map c1 !! seg_key base "s" (segment_ids (sg_info s)))) as Hs1.
    { rewrite Hm1, without_lookup, bool_decide_false; [done|].
      intros (ks & (x & <- & Hx)%in_map_iff & Hk)%list_elem_of_In%in_concat.
      apply list_elem_of_In, list_elem_of_filter in Hx as [_ Hx]. apply list_elem_of_In in Hk.
      apply elem_of_segment_keys in Hk; [|done..].
      rewrite !map_app in Hnd. apply list.NoDup_app in Hnd as (Hnd & _ & _).
      apply list.NoDup_app in Hnd as (_ & Hdis & _).
      apply (Hdis (seg_key base "s" (segment_ids x))); [apply list_elem_of_fmap; eauto|].
      cbn [map]. rewrite <-Hk. left. }
    unfold try_, remove_segment, RemoveSegment.
    destruct (RemoveSegmentByID_up c1 base (si_CollectionID s') (si_PartitionID s') (si_ID s') Hc1 Hb)
      as (c2 & r & -> & Hc2 & Hr & [Hm2|[_ Hn]]).
    2: { fold (segment_ids s') in Hn. rewrite Hi in Hn. destruct Hs1. congruence. }
    fold (segment_ids s') in Hm2. rewrite Hi, without_segment_keys in Hm2.
    destruct (IH (done ++ [sg_info s]) c2) as (c' & Hr' & Hc' & Hm'); [done..| |].
    + rewrite Hm2, Hm1, without_app, list.filter_app. unfold keys_of_segments.
      rewrite filter_cons, decide_True by done. rewrite map_app, concat_app. cbn [filter list_filter map concat].
      by rewrite app_nil_r.
    + exists c'. split_and!; [|done..]. by destruct Hr as [-> | ->].
  - destruct (IH (done ++ [sg_info s]) c1) as (c' & Hr' & Hc' & Hm'); [done..| |].
    + rewrite Hm1, list.filter_app, filter_cons, decide_False by (by rewrite Hl).
      cbn [filter list_filter]. by rewrite app_nil_r.
    + by exists c'.
Qed.

(** [repair empty-segment] removes the record of exactly those flushed,
    flushing or sealed segments of which no log can be read: a log that does not decode
    counts as none, so a segment whose logs are all damaged is removed, whatever its
    number of rows. *)
Theorem RepairEmptySegment_spec c base :
  healthy c → is_path base → keyed_segments c base → no_bare_logs c base →
  ∃ c', RepairEmptySegmentCommand base true c = (c', Ok tt) ∧ healthy c'
    ∧ mk_map c' = without (keys_of_segments base
        (filter (λ s, si_State s ∈ [SegmentState_Flushed; SegmentState_Flushing; SegmentState_Sealed]
                      ∧ logless c base s = true) (segment_infos c base))) (mk_map c).
Proof.
  intros Hc Hb Hk Hno.
  set (f := λ s, bool_decide (si_State s ∈ [SegmentState_Flushed; SegmentState_Flushing; SegmentState_Sealed])).
  destruct (ListSegments_up c base f Hc Hb Hk) as (segs & Hl & Hs).
  unfold RepairEmptySegmentCommand, mbind at 1, cmd_bind at 1, attempt, reads.
  change checked_state with (λ s : ModelSegment K, f (sg_info s)). rewrite Hl.
  destruct (repair_empty_loop c base segs [] c) as (c' & Hr & Hc' & Hm); try done; cbn [app].
  - rewrite Hs. intros x [_ Hx]%list_elem_of_filter. done.
  - rewrite Hs. apply NoDup_map_filter. rewrite keyed_segments_keys by done. apply NoDup_prefixed.
  - rewrite Hs. apply list.Forall_forall. intros s [_ Hin]%list_elem_of_filter.
    by apply keyed_segments_there.
  - by rewrite without_nil.
  - exists c'. split_and!; [done..|]. rewrite Hm. cbn [app]. rewrite Hs, list_filter_filter.
    f_equal. f_equal. apply list_filter_iff. intros s. unfold f. rewrite bool_decide_eq_true. tauto.
Qed.

(** [repair segment-part-dropping] removes the records of all segments, not
    yet dropped, of the partitions of the collection that are being dropped, whatever the
    order of the groups; without [run] it removes nothing. *)
Theorem RepairSegmentPartDrop_spec c base collection partition partitions run :
  healthy c → is_path base → keyed_segments c base → collection ≠ 0 →
  ListCollectionPartitions c base collection = Ok partitions →
  let targets := target_partitions partition partitions in
  ∃ c', RepairSegmentPartDropCommand base collection partition run c = (c', Ok tt) ∧ healthy c'
    ∧ mk_map c' = without (keys_of_segments base
        (filter (λ s, (in_partitions targets s && run) = true) (segment_infos c base))) (mk_map c).
Proof.
  intros Hc Hb Hk Hcoll Hp targets. unfold RepairSegmentPartDropCommand.
  rewrite bool_decide_false by done. unfold mbind at 1, cmd_bind at 1, reads at 1. rewrite Hp. fold targets.
  set (body := λ '((_, segs) : Z * list (ModelSegment K)), for_each (λ x,
    if run then try_ (remove_segment base (sg_info x)) else mret tt) segs).
  destruct (remove_listed c base (in_partitions targets) si_PartitionID (remove_segment base) body (λ _, run)
    Hc Hb Hk (λ _ _, eq_refl)) as (segs & c' & Hl & Hr & Hc' & Hm).
  - intros id segs c' _ _ _. unfold body.
    apply (for_each_filter sg_info (λ _, run) (λ s, try_ (remove_segment base s))).
  - exists c'. split_and!; [|done|by rewrite Hm].
    unfold mbind at 1, cmd_bind at 1, reads at 1. by rewrite Hl.
Qed.
End segment_repairs.

(** ** Names of channels *)

(** The parts of a channel's name are those it was made of, whatever
    underscores and letters there are in the prefix. *)
Theorem ParseEntity_roundtrip prefix entityID version :
  in_s 64 entityID → in_s 64 version →
  let name := prefix +:+ "_" +:+ FormatInt entityID +:+ "v" +:+ FormatInt version in
  ParseEntity name = Ok (prefix, entityID, version)
  ∧ ToPhysicalChannel name = prefix.
Proof.
  intros He Hv name.
  assert (cut_last "_" name = Some (prefix, FormatInt entityID +:+ "v" +:+ FormatInt version)) as Hc.
  { apply cut_last_spec. split; [done|].
    apply Split_none_app; [by apply FormatInt_Split|].
    apply (Split_none_app "_" "v"); [done|by apply FormatInt_Split]. }
  unfold ParseEntity, ToPhysicalChannel. rewrite Hc. split; [|done].
  assert (cut_last "v" (FormatInt entityID +:+ "v" +:+ FormatInt version)
    = Some (FormatInt entityID, FormatInt version)) as ->.
  { apply cut_last_spec. split; [done|]. by apply FormatInt_Split. }
  by rewrite !ParseInt_FormatInt by done.
Qed.

(** ** Checkpoints *)
Section checkpoint_repairs.
Context {K : Type} `{MetaKVLaws K} `{MapOrder}.
Context `{ProtoCodec SegmentInfo} `{ProtoCodec PbFieldBinlog} `{ProtoCodec MsgPosition}.
Implicit Types (c : K).

(** The position with which a segment counts for a physical channel. *)
Definition counts_for (p : string) (s : SegmentInfo) : option MsgPosition :=
  if bool_decide (si_State s ∈ [SegmentState_Flushed; SegmentState_Growing; SegmentState_Flushing])
     && bool_decide (ToPhysicalChannel (si_InsertChannel s) = p)
  then segment_position s else None.

(** A map that has the greatest position of each channel. *)
Definition greatest (ret : gmap string MsgPosition) (segs : list SegmentInfo) : Prop :=
  ∀ p, match ret !! p with
       | Some pos => (∃ s, s ∈ segs ∧ counts_for p s = Some pos)
           ∧ ∀ s q, s ∈ segs → counts_for p s = Some q → mp_Timestamp q <= mp_Timestamp pos
       | None => ∀ s, s ∈ segs → counts_for p s = None
       end.

Lemma latest_position_greatest ret segs s :
  greatest ret segs → greatest (latest_position ret s) (segs ++ [s]).
Proof.
  intros Hg p. specialize (Hg p).
  assert (∀ x, x ∈ segs ++ [s] ↔ x ∈ segs ∨ x = s) as Hin
    by (intros x; rewrite elem_of_app, list_elem_of_singleton; tauto).
  assert (latest_position ret s !! p = match counts_for p s with
    | None => ret !! p
    | Some q => match ret !! p with
                | Some pos => if bool_decide (mp_Timestamp pos < mp_Timestamp q) then Some q else Some pos
                | None => Some q end end) as ->.
  { unfold latest_position, counts_for.
    destruct (bool_decide (si_State s ∈ _)); cbn [andb]; [|done].
    destruct (segment_position s) as [q|]; [|by case_bool_decide].
    case_bool_decide as Hp; [subst p|].
    - destruct (ret !! ToPhysicalChannel (si_InsertChannel s)) as [pos|] eqn:E.
      + case_bool_decide; [by rewrite lookup_insert_eq|done].
      + by rewrite lookup_insert_eq.
    - destruct (ret !! ToPhysicalChannel (si_InsertChannel s)); [case_bool_decide|];
        by rewrite ?lookup_insert_ne. }
  destruct (counts_for p s) as [q|] eqn:Hs, (ret !! p) as [pos|] eqn:Hr.
  - destruct Hg as [(s0 & Hs0 & Hp0) Hmax]. case_bool_decide as Hlt.
    + split; [exists s; rewrite Hin; auto|]. intros s' q' [Hs'| ->]%Hin Hq'; [|by simplify_eq].
      specialize (Hmax s' q' Hs' Hq'). lia.
    + split; [exists s0; rewrite Hin; auto|]. intros s' q' [Hs'| ->]%Hin Hq'; [by eapply Hmax|].
      simplify_eq. lia.
  - split; [exists s; rewrite Hin; auto|]. intros s' q' [Hs'| ->]%Hin Hq'; [|by simplify_eq].
    by rewrite (Hg s' Hs') in Hq'.
  - destruct Hg as [(s0 & Hs0 & Hp0) Hmax]. split; [exists s0; rewrite Hin; auto|].
    intros s' q' [Hs'| ->]%Hin Hq'; [by eapply Hmax|congruence].
  - intros s' [Hs'| ->]%Hin; auto.
Qed.

(** The checkpoint that [repair checkpoint] takes for a physical channel is
    the position of a segment of this channel, and no flushed, growing or flushing segment
    of the channel has a later one; a channel without such a segment has none. *)
Theorem getLatestCheckpoint_spec c base segs :
  ListSegments c base [] = Ok segs →
  ∃ ret, getLatestCheckpointFromPChannel base c = Ok ret ∧ greatest ret (map sg_info segs).
Proof.
  intros Hl. unfold getLatestCheckpointFromPChannel. rewrite Hl. cbn [mbind res_bind].
  eexists. split; [done|]. clear Hl. induction segs as [|s segs IH] using rev_ind.
  - intros p. cbn [foldl map]. rewrite lookup_empty. intros s Hs. by apply not_elem_of_nil in Hs.
  - rewrite foldl_app, map_app. cbn [foldl map]. by apply latest_position_greatest.
Qed.
End checkpoint_repairs.

(** ** The channels of a collection *)
Lemma go_set_Ok {A} (l : list A) i x l' :
  go_set l i x = Ok l' → length l' = length l ∧ (∀ j, Z.of_nat j ≠ i → l' !! j = l !! j).
Proof.
  unfold go_set. destruct (bool_decide _ && bool_decide _) eqn:E; [|done]. intros [= <-].
  apply andb_true_iff in E as [H1'%bool_decide_eq_true _].
  split; [by rewrite length_insert|]. intros j Hj. apply list_lookup_insert_ne. lia.
Qed.

Lemma place_channels_other channels checkpoints chans i :
  place_channels channels checkpoints = Ok chans →
  Forall (λ cp, ∀ p id v, ParseEntity (mp_ChannelName cp) = Ok (p, id, v) → v ≠ Z.of_nat i) checkpoints →
  chans !! i = channels !! i.
Proof.
  revert channels. induction checkpoints as [|cp cps IH]; intros channels; simpl; [by intros [= ->]|].
  intros Hp [Hcp Hcps]%list.Forall_cons.
  destruct (ParseEntity (mp_ChannelName cp)) as [[[p id] v]| |]; [|done..]. simpl in Hp.
  destruct (go_set channels v _) as [ch'| |] eqn:Hs; [|done..]. simpl in Hp.
  rewrite (IH ch') by done. apply go_set_Ok in Hs as [_ Hs]. apply Hs. intros E.
  by destruct (Hcp p id v eq_refl).
Qed.

Lemma mapR_panic {A B} (f : A → res B) l i x w :
  l !! i = Some x → f x = Panic w → (∀ y e, y ∈ l → f y ≠ Err e) → ∃ w', mapR f l = Panic w'.
Proof.
  revert i. induction l as [|y l IH]; intros i Hi Hx He; [done|]. simpl.
  destruct (f y) as [b|e|w'] eqn:Hy; simpl.
  - destruct i as [|i]; simpl in Hi; [injection Hi as ->; congruence|].
    destruct (IH i Hi Hx) as [w' ->]; [intros; apply He; by right|]. by exists w'.
  - by destruct (He y e (list_elem_of_here _ _)).
  - by exists w'.
Qed.

(** Unless the versions of the checkpoints' names are the numbers from zero up,
    [repair collection-info] panics: there are as many places for channels as checkpoints,
    a version beyond them is out of range, and a place that stays empty is a nil pointer
    that the start positions follow, although the names take it into account. *)
Theorem CollectionInfo_versions checkpoints p info db dynamic (i : nat) :
  (i < length checkpoints)%nat →
  Forall (λ cp, ∃ q id v, ParseEntity (mp_ChannelName cp) = Ok (q, id, v) ∧ v ≠ Z.of_nat i) checkpoints →
  ∃ w, (channels ← place_channels (replicate (length checkpoints) None) checkpoints;
        repaired_info p info db dynamic channels) = Panic w.
Proof.
  intros Hi Hv.
  assert (∀ l, Forall (λ cp, ∃ q id v, ParseEntity (mp_ChannelName cp) = Ok (q, id, v) ∧ v ≠ Z.of_nat i) l →
    ∀ chs e, place_channels chs l ≠ Err e) as Hne.
  { intros l Hl. induction Hl as [|cp cps (q & id & v & Hp & _) Hl IH]; intros chs e; [done|]. simpl.
    rewrite Hp. simpl. unfold go_set. destruct (_ && _); [apply IH|done]. }
  destruct (place_channels _ checkpoints) as [chans|e|w] eqn:Hp;
    [|by destruct (Hne _ Hv _ _ Hp)|by exists w].
  pose proof (place_channels_other _ _ _ i Hp) as Hc. rewrite lookup_replicate_2 in Hc by done.
  destruct (mapR_panic start_position chans i None nil_dereference) as [w Hw].
  - apply Hc. eapply list.Forall_impl; [exact Hv|]. intros cp (q & id & v & E & Hne') q' id' v' E'.
    rewrite E in E'. by injection E' as _ _ <-.
  - done.
  - intros [ch|] e _; done.
  - exists w. cbn [mbind res_bind]. unfold repaired_info. by rewrite Hw.
Qed.

(** ** Remnants of collections *)
Section legacy_repairs.
Context {K : Type} `{MetaKVLaws K}.
Context `{ProtoCodec CollectionInfo} `{ProtoCodec FieldSchema} `{ProtoCodec StructArrayFieldSchema}.
Context `{ProtoCodec FunctionSchema}.
Implicit Types (c : K) (m : gmap string string).

Definition history_prefix (base : string) (id : Z) : string :=
  joined [base; "snapshots/root-coord/collection"; FormatInt id].

Lemma history_prefix_join base id :
  is_path base →
  path_Join [base; "snapshots/root-coord/collection"; FormatInt id] = history_prefix base id
  ∧ is_path (history_prefix base id).
Proof.
  intros Hb. assert (Forall is_path [base; "snapshots/root-coord/collection"; FormatInt id]).
  { each_path. apply FormatInt_is_path. }
  split; [by apply path_Join_joined|by apply joined_is_path].
Qed.

(** The listing of the history: the entries that decode, and the tombstones. *)
Lemma list_history l (d : list string) :
  list_adv (λ key value dropped, if bool_decide (value = CollectionTombstone) then (dropped ++ [key], false)
                                 else (dropped, true)) ([] : list (CollectionInfo → bool)) l d
  = (d ++ map fst (filter (λ kv, kv.2 = CollectionTombstone) l),
     omap decoded (map snd (filter (λ kv, kv.2 ≠ CollectionTombstone) l))).
Proof.
  revert d. induction l as [|[k v] l IH]; intros d; simpl; [by rewrite app_nil_r|].
  rewrite !filter_cons. cbn [snd]. case_bool_decide as Hv.
  - rewrite IH. rewrite decide_True by done. rewrite decide_False by naive_solver. simpl.
    by rewrite <-(assoc_L (++)).
  - rewrite IH. rewrite (decide_False (P := v = _)) by done. rewrite decide_True by done. simpl.
    by destruct (decoded v).
Qed.

Lemma ListCollectionHistory_up c base id :
  healthy c → is_path base →
  ∃ results, ListCollectionHistory c base 0 id
      = Ok (results ++ map (λ entry, MkHistory None (parseHistoryTs entry) true)
              (map fst (filter (λ kv, kv.2 = CollectionTombstone)
                          (prefixed (mk_map c) (history_prefix base id)))))
    ∧ Forall (λ h, ∃ key, history_Key h = Ok key ∧ is_Some (mk_map c !! key)) results
    ∧ (prefixed (mk_map c) (history_prefix base id) = [] → results = []).
Proof.
  intros Hc Hb. unfold ListCollectionHistory. rewrite bool_decide_true by done.
  destruct (history_prefix_join base id Hb) as [-> Hp]. unfold ListHistoryCollection, ListProtoObjectsAdv.
  rewrite law_LoadWithPrefix by (by apply healthy_up). rewrite healthy_key by done.
  set (l := prefixed _ _). cbv zeta. cbn [mbind res_bind].
  rewrite bool_decide_false by (rewrite !length_map; tauto).
  assert (zip (map fst l) (map snd l) = l) as -> by apply zip_fst_snd.
  rewrite list_history. cbn [mbind res_bind app].
  set (colls := omap decoded _).
  assert (length colls ≤ length (map fst l))%nat as Hlen.
  { etrans; [apply length_omap_le|]. rewrite !length_map. apply length_filter. }
  rewrite (obj2models_zip _ [] (map fst l) colls 0) by lia. cbn [mbind res_bind].
  eexists. split; [done|]. split.
  - apply list.Forall_forall. intros h [_ Hh]%list_elem_of_filter. rewrite drop_0 in Hh.
    apply elem_of_zip_with in Hh as (coll & k & -> & _ & Hk). exists k. split; [done|].
    apply list_elem_of_fmap in Hk as ([k' v] & -> & [Hv _]%elem_of_prefixed). by exists v.
  - intros E. unfold colls. rewrite E. done.
Qed.

(** When a dropped collection has been removed, and its history still says so
    with a tombstone, [repair legacy-collection-remnant] for this collection panics, in a
    dry run too: a tombstone's entry has no collection to take the key from. *)
Theorem CollectionLegacy_tombstone c base id run k :
  healthy c → is_path base → clean_keys (mk_map c) → id ≠ 0 →
  ListCollections c base [legacy_suspect id] = Ok [] →
  (k, CollectionTombstone) ∈ prefixed (mk_map c) (history_prefix base id) →
  ∃ c' w, CollectionLegacyDroppedCommand base id run c = (c', Panic w).
Proof.
  intros Hc Hb Hm Hid Hl Hk. unfold CollectionLegacyDroppedCommand.
  unfold mbind at 1, cmd_bind at 1, reads at 1. rewrite Hl. rewrite bool_decide_true by done.
  destruct (ListCollectionHistory_up c base id Hc Hb) as (results & Hh & Hr & _).
  unfold mbind at 1, cmd_bind at 1, reads at 1. rewrite Hh. clear Hh Hl.
  assert (∃ t ts, filter (λ kv : string * string, kv.2 = CollectionTombstone)
    (prefixed (mk_map c) (history_prefix base id)) = t :: ts) as (t & ts & ->).
  { destruct (filter _ _) as [|t ts] eqn:E; [|by eexists _, _].
    assert ((k, CollectionTombstone) ∈ filter (λ kv : string * string, kv.2 = CollectionTombstone)
      (prefixed (mk_map c) (history_prefix base id))) as Hin by (by apply list_elem_of_filter).
    rewrite E in Hin. by apply not_elem_of_nil in Hin. }
  assert (Forall (λ h, ∃ key, history_Key h = Ok key ∧ is_path key) results) as Hpaths.
  { eapply list.Forall_impl; [exact Hr|]. intros h (key & ? & v & Hv). exists key. split; [done|by eapply Hm]. }
  clear Hr Hk Hm. revert c Hc. induction results as [|h results IH]; intros c Hc.
  - exists c, nil_dereference. by destruct run.
  - apply list.Forall_cons in Hpaths as [(key & Hkey & Hp) Hpaths]. cbn [app for_each].
    unfold mbind at 1, cmd_bind at 1. destruct run.
    + unfold remove_history_key at 1, mbind at 1, cmd_bind at 1, of_res at 1. rewrite Hkey.
      destruct (try_Remove_effect (λ _, True) key Hp c Hc I) as (c1 & -> & Hc1 & _). by apply IH.
    + unfold mbind at 1, cmd_bind at 1, of_res at 1. rewrite Hkey. by apply IH.
Qed.

(** No entry of a history, of any collection. *)
Definition no_history (base : string) m : Prop :=
  map_Forall (λ k _, HasPrefix k (joined [base; "snapshots/root-coord/collection"]) = false) m.

Lemma no_history_listed c base id m :
  healthy c → is_path base → no_history base m → mk_map c ⊆ m → ListCollectionHistory c base 0 id = Ok [].
Proof.
  intros Hc Hb Hno Hsub. destruct (ListCollectionHistory_up c base id Hc Hb) as (results & Hl & _ & Hres).
  assert (prefixed (mk_map c) (history_prefix base id) = []) as Hempty.
  { unfold prefixed. apply filter_none, list.Forall_forall. intros [k v] Hk%elem_of_sorted_kvs Hp.
    cbn [fst] in Hp. specialize (Hno k v (lookup_weaken _ _ _ _ Hk Hsub)). cbn in Hno.
    rewrite (HasPrefix_trans k (history_prefix base id)) in Hno; [done|done|].
    unfold history_prefix. cbn [joined Join]. apply HasPrefix_spec. eexists.
    rewrite !string_app_assoc. reflexivity. }
  by rewrite Hl, (Hres Hempty), Hempty.
Qed.

Lemma remove_remnants_effect c base colls m :
  is_path base → no_history base m → healthy c → mk_map c ⊆ m →
  Forall (λ y, is_path (co_key y) ∧ ci_DbId (co_proto y) = 0) colls →
  ∃ c', for_each (remove_remnant base) colls c = (c', Ok tt) ∧ mk_map c' = without (map co_key colls) (mk_map c).
Proof.
  intros Hb Hno Hc Hsub Hkeys. revert c Hc Hsub. induction Hkeys as [|y colls [Hk Hdb] Hkeys IH]; intros c Hc Hsub.
  { exists c. by rewrite without_nil. }
  cbn [for_each map].
  unfold mbind at 1, cmd_bind at 1. unfold remove_remnant at 1, mbind at 1, cmd_bind at 1, attempt at 1.
  destruct (healthy_Remove c _ Hc Hk) as (c2 & r & -> & Hc2 & Hm2 & Hr & _).
  assert (mk_map c2 ⊆ m) as Hsub2 by (rewrite Hm2; etrans; [apply delete_subseteq|done]).
  destruct (IH c2 Hc2 Hsub2) as (c' & Hloop & Hm'). exists c'.
  rewrite Hm', Hm2, without_cons. split; [|done].
  destruct Hr as [-> | ->]; [|done]. unfold mbind at 1, cmd_bind at 1, attempt, reads. rewrite Hdb.
  by rewrite (no_history_listed c2 base _ m) by done.
Qed.

(** The collections that the filter keeps are stored at well-formed keys, in no database. *)
Lemma legacy_suspects c base cid :
  healthy c → is_path base → clean_keys (mk_map c) → collections_decode c base →
  (∀ x, x ∈ collections_at c base → is_Some (ci_Schema (co_proto x))) →
  ∃ colls, ListCollections c base [legacy_suspect cid] = Ok colls
    ∧ map co_key colls = map co_key (filter (λ x, legacy_suspect cid x = true) (collections_at c base))
    ∧ Forall (λ y, is_path (co_key y) ∧ ci_DbId (co_proto y) = 0) colls.
Proof.
  intros Hc Hb Hm Hd Hs.
  destruct (ListCollections_up c base [legacy_suspect cid] Hc Hb Hd Hs) as (colls & Hl & Hf).
  assert (∀ x, accepts [legacy_suspect cid] x = legacy_suspect cid x) as Hacc
    by (intros x; unfold accepts; cbn [forallb]; by rewrite andb_true_r).
  rewrite (list_filter_iff _ (λ x, legacy_suspect cid x = true)) in Hf by (intros x; by rewrite Hacc).
  exists colls. split; [done|]. split.
  - clear -Hf. induction Hf as [|x y xs ys [Hk _] _ IH]; [done|]. cbn [map]. by rewrite IH, Hk.
  - apply list.Forall_forall. intros y Hy. apply list_elem_of_lookup in Hy as [i Hi].
    destruct (Forall2_lookup_r _ _ _ _ _ Hf Hi) as (x & Hx%list_elem_of_lookup_2 & Hk & s & Hxs & Hp).
    apply list_elem_of_filter in Hx as [Ha Hx]. rewrite Hk, Hp. cbn [ci_DbId with_Schema].
    unfold legacy_suspect in Ha. apply andb_true_iff in Ha as [Ha%bool_decide_eq_true _]. split; [|done].
    unfold collections_at in Hx. apply elem_of_app in Hx as [Hx|Hx];
      apply elem_of_own_models in Hx as (k & v & x0 & [Hv _]%elem_of_prefixed & _ & ->); by eapply Hm.
Qed.

(** Without any history, [repair legacy-collection-remnant] removes the key
    of every collection of no database whose stored schema has no fields.  That the store
    has fields for a collection, as it has for each collection that keeps them apart from
    its schema, makes no difference. *)
Theorem CollectionLegacy_spec c base cid :
  healthy c → is_path base → clean_keys (mk_map c) → collections_decode c base →
  (∀ x, x ∈ collections_at c base → is_Some (ci_Schema (co_proto x))) → no_history base (mk_map c) →
  ∃ c', CollectionLegacyDroppedCommand base cid true c = (c', Ok tt)
    ∧ mk_map c' = without (map co_key (filter (λ x, legacy_suspect cid x = true) (collections_at c base)))
                    (mk_map c).
Proof.
  intros Hc Hb Hm Hd Hs Hno.
  destruct (legacy_suspects c base cid Hc Hb Hm Hd Hs) as (colls & Hl & <- & Hkeys).
  unfold CollectionLegacyDroppedCommand. unfold mbind at 1, cmd_bind at 1, reads at 1. rewrite Hl.
  destruct colls as [|y colls].
  - case_bool_decide; [|by exists c; rewrite without_nil].
    unfold mbind at 1, cmd_bind at 1, reads at 1.
    rewrite (no_history_listed c base cid (mk_map c)) by done. exists c. by rewrite without_nil.
  - by apply (remove_remnants_effect c base (y :: colls) (mk_map c)).
Qed.
End legacy_repairs.

(** ** Indexes *)
Section index_repairs.
Context {K : Type} `{MetaKVLaws K} `{ProtoCodec FieldIndex, !Listing.ProtoLaws FieldIndex}.
Implicit Types (c : K) (m : gmap string string) (l : list (string * string)).

Definition index_key (base : string) (i : IndexInfo) : string :=
  joined [base; "field-index/" +:+ ids_path [ii_CollectionID i; ii_IndexID i]].

Lemma index_key_join base i :
  is_path base →
  path_Join [base; "field-index/" +:+ ids_path [ii_CollectionID i; ii_IndexID i]] = index_key base i
  ∧ is_path (index_key base i).
Proof.
  intros Hb. assert (Forall is_path [base; "field-index/" +:+ ids_path [ii_CollectionID i; ii_IndexID i]]).
  { each_path. apply (is_path_app "field-index"); [is_path_dec|by apply ids_path_is_path]. }
  split; [by apply path_Join_joined|by apply joined_is_path].
Qed.

(** The indexes, each at the key that its identifiers make. *)
Definition index_dir (base : string) : string := joined [base; IndexPrefix] +:+ "/".
Definition keyed_index (base : string) (kv : string * string) : Prop :=
  ∃ x i, decoded kv.2 = Some x ∧ fi_IndexInfo x = Some i ∧ kv.1 = index_key base i.
Definition keyed_indexes c (base : string) : Prop :=
  Forall (keyed_index base) (prefixed (mk_map c) (index_dir base)).

(** A repair: what it writes for an index, if it does, at the index's own key. *)
Definition repairs (base : string) (f : FieldIndex → option FieldIndex) l : Prop :=
  Forall (λ kv, ∀ x y i, decoded kv.2 = Some x → f x = Some y → fi_IndexInfo x = Some i →
    ∃ j bs, fi_IndexInfo y = Some j ∧ index_key base j = index_key base i ∧ encoded y = Ok bs) l.

(** What is written for a pair. *)
Definition repaired_pair (f : FieldIndex → option FieldIndex) (kv : string * string) : option string :=
  x ← decoded kv.2; y ← f x; match encoded y with Ok bs => Some bs | _ => None end.

Definition written (f : FieldIndex → option FieldIndex) l : list (string * string) :=
  omap (λ kv, bs ← repaired_pair f kv; Some (kv.1, bs)) l.

Lemma write_indexes base f l c :
  is_path base → repairs base f l → Forall (keyed_index base) l → healthy c →
  ∃ c', for_each (writeRepairedIndex base) (omap f (omap decoded (map snd l))) c = (c', Ok tt)
    ∧ healthy c' ∧ mk_map c' = foldl (λ m kv, <[kv.1 := kv.2]> m) (mk_map c) (written f l).
Proof.
  intros Hb. revert c. induction l as [|[k v] l IH]; intros c Hf Hl Hc; [by exists c|].
  apply list.Forall_cons in Hl as [(x & i & Hx & Hi & Hk) Hl]. cbn [fst snd] in *.
  apply list.Forall_cons in Hf as [Hf Hfs]. cbn [snd] in Hf.
  unfold written. cbn [map omap list_omap snd]. unfold repaired_pair at 1. cbn [snd]. rewrite Hx.
  cbn [mbind option_bind omap list_omap]. destruct (f x) as [y|] eqn:Hy; [|by apply IH].
  destruct (Hf x y i Hx Hy Hi) as (j & bs & Hj & Hkey & Hbs). cbn [mbind option_bind].
  rewrite Hbs. cbn [mbind option_bind for_each foldl fst snd].
  destruct (index_key_join base j Hb) as [Hjoin Hp].
  destruct (healthy_Save c _ bs Hc Hp) as (c1 & Hs & Hc1 & Hm1).
  unfold mbind at 1, cmd_bind at 1. unfold writeRepairedIndex at 1, mbind at 1, cmd_bind at 1, of_res at 1.
  rewrite Hj. cbn [deref]. unfold mbind at 1, cmd_bind at 1, of_res at 1, marshalled. rewrite Hbs, Hjoin, Hs.
  destruct (IH c1 Hfs Hl Hc1) as (c' & Hr & Hc' & Hm'). exists c'. split_and!; [done..|].
  rewrite Hm', Hm1, Hkey, <-Hk. done.
Qed.

Lemma written_lookup f m p k :
  foldl (λ m kv, <[kv.1 := kv.2]> m) m (written f (prefixed m p)) !! k
  = match m !! k with
    | Some v => if HasPrefix k p then match repaired_pair f (k, v) with Some bs => Some bs | None => Some v end
                else Some v
    | None => None
    end.
Proof.
  assert (∀ l, NoDup (map fst l) → NoDup (map fst (written f l))) as Hnd.
  { intros l. induction l as [|[k' v'] l IH]; [done|]. cbn [map fst]. intros [Hn Hnd]%list.NoDup_cons.
    unfold written. cbn [omap list_omap]. destruct (repaired_pair f (k', v')) as [bs|]; [|by apply IH].
    cbn [mbind option_bind map fst]. apply list.NoDup_cons. split; [|by apply IH]. intros Hin. apply Hn.
    apply list_elem_of_fmap in Hin as ([k0 b0] & -> & Hin). apply list_elem_of_omap in Hin as ([k1 v1] & Hin & E).
    apply list_elem_of_fmap. exists (k1, v1). split; [|done].
    destruct (repaired_pair f (k1, v1)); [by injection E as <- _|done]. }
  rewrite foldl_insert_lookup by apply Hnd, NoDup_prefixed.
  assert (∀ bs, (k, bs) ∈ written f (prefixed m p)
    ↔ ∃ v, m !! k = Some v ∧ HasPrefix k p = true ∧ repaired_pair f (k, v) = Some bs) as Hin.
  { intros bs. unfold written. rewrite list_elem_of_omap. split.
    - intros ([k' v] & Hin & E). destruct (repaired_pair f (k', v)) as [b|] eqn:Hr; [|done].
      injection E as <- <-. apply elem_of_prefixed in Hin as [? ?]. by exists v.
    - intros (v & Hv & Hp & Hr). exists (k, v). rewrite Hr. split; [by apply elem_of_prefixed|done]. }
  destruct (list_to_map (written f (prefixed m p)) !! k) as [bs|] eqn:E.
  - apply elem_of_list_to_map in E; [|apply Hnd, NoDup_prefixed]. apply Hin in E as (v & -> & -> & ->). done.
  - destruct (m !! k) as [v|] eqn:Hv; [|done]. destruct (HasPrefix k p) eqn:Hp; [|done].
    destruct (repaired_pair f (k, v)) as [bs|] eqn:Hr; [|done]. exfalso.
    apply not_elem_of_list_to_map in E. apply E, list_elem_of_fmap. exists (k, bs).
    split; [done|]. apply Hin. by exists v.
Qed.

Lemma decoded_encoded (y : FieldIndex) bs : encoded y = Ok bs → decoded bs = Some y.
Proof.
  intros Hbs. unfold encoded in Hbs. apply res_bind_Ok in Hbs as (bb & Hm & [= <-]). unfold decoded.
  rewrite bytes_of_string_of_bytes. by rewrite (proto_Unmarshal_Marshal _ _ Hm).
Qed.

(** A repair that is satisfied with what it has written is done after one run. *)
Lemma repair_indexes_twice c base f (run : cmd K unit) :
  healthy c → is_path base → repairs base f (prefixed (mk_map c) (index_dir base)) → keyed_indexes c base →
  (∀ x y, f x = Some y → f y = None) →
  (∀ c c', healthy c → keyed_indexes c base → healthy c' →
     for_each (writeRepairedIndex base)
       (omap f (omap decoded (map snd (prefixed (mk_map c) (index_dir base))))) c = (c', Ok tt) →
     run c = (c', Ok tt)) →
  ∃ c' c'', run c = (c', Ok tt) ∧ run c' = (c'', Ok tt) ∧ healthy c' ∧ mk_map c'' = mk_map c'
    ∧ ∀ k, mk_map c' !! k = match mk_map c !! k with
        | Some v => if HasPrefix k (index_dir base)
                    then match repaired_pair f (k, v) with Some bs => Some bs | None => Some v end else Some v
        | None => None end.
Proof.
  intros Hc Hb Hf Hk Hff Hrun.
  destruct (write_indexes base f _ c Hb Hf Hk Hc) as (c' & Hr & Hc' & Hm).
  assert (∀ k, mk_map c' !! k = match mk_map c !! k with
        | Some v => if HasPrefix k (index_dir base)
                    then match repaired_pair f (k, v) with Some bs => Some bs | None => Some v end else Some v
        | None => None end) as Hlook by (intros k; rewrite Hm; apply written_lookup).
  assert (∀ k v, (k, v) ∈ prefixed (mk_map c') (index_dir base) →
    ∃ x, keyed_index base (k, v) ∧ decoded v = Some x ∧ f x = None) as Hdone.
  { intros k v [Hv Hp]%elem_of_prefixed. rewrite Hlook in Hv. rewrite Hp in Hv.
    destruct (mk_map c !! k) as [v0|] eqn:Hv0; [|done].
    assert (keyed_index base (k, v0)) as Hk0.
    { eapply list.Forall_forall in Hk; [exact Hk|]. by apply elem_of_prefixed. }
    pose proof Hk0 as (x & i & Hx & Hi & Hkey). cbn [fst snd] in *. unfold repaired_pair in Hv. cbn [snd] in Hv.
    rewrite Hx in Hv. cbn [mbind option_bind] in Hv. destruct (f x) as [y|] eqn:Hy.
    - eapply list.Forall_forall in Hf; [|apply elem_of_prefixed; split; [exact Hv0|exact Hp]].
      destruct (Hf x y i Hx Hy Hi) as (j & bs & Hj & Hkj & Hbs). cbn [mbind option_bind] in Hv.
      rewrite Hbs in Hv. injection Hv as <-. pose proof (decoded_encoded y bs Hbs) as Hd.
      exists y. split_and!; [|done|by eapply Hff]. exists y, j. by rewrite Hkj.
    - injection Hv as <-. exists x. done. }
  assert (keyed_indexes c' base) as Hk'.
  { apply list.Forall_forall. intros [k v] Hin. by destruct (Hdone k v Hin) as (x & ? & _). }
  exists c', c'. split_and!; [by apply Hrun| |done..]. apply Hrun; [done..|].
  assert (omap f (omap decoded (map snd (prefixed (mk_map c') (index_dir base)))) = []) as ->; [|done].
  revert Hdone. generalize (prefixed (mk_map c') (index_dir base)). intros l.
  induction l as [|[k v] l IH]; intros Hdone; [done|].
  destruct (Hdone k v (list_elem_of_here _ _)) as (x & _ & Hx & Hfx). cbn [map omap list_omap snd].
  rewrite Hx. cbn [omap list_omap]. rewrite Hfx. apply IH. intros k' v' Hin. apply Hdone. by right.
Qed.

(** The indexes that a repair selects. *)
Definition when (sel : FieldIndex → bool) (f : FieldIndex → option FieldIndex) (x : FieldIndex) : option FieldIndex :=
  if sel x then f x else None.

Lemma ListIndex_up c base (sel : FieldIndex → bool) :
  healthy c → is_path base → keyed_indexes c base →
  ∃ ws, ListIndex c base [λ w, sel (GetProto w)] = Ok ws
    ∧ ∀ {A} (g : FieldIndex → option A), omap (λ w, g (GetProto w)) ws
        = omap (λ x, if sel x then g x else None) (omap decoded (map snd (prefixed (mk_map c) (index_dir base)))).
Proof.
  intros Hc Hb Hk. unfold ListIndex.
  assert (is_path IndexPrefix) as Hq by is_path_dec.
  assert (decodable (T:=FieldIndex) (prefixed (mk_map c) (index_dir base))) as Hd.
  { eapply list.Forall_impl; [exact Hk|]. intros kv (x & i & Hx & _). by exists x. }
  rewrite (listed_dir c base IndexPrefix sel Hc Hb Hq Hd). eexists. split; [done|]. intros A g.
  fold (index_dir base). generalize (prefixed (mk_map c) (index_dir base)). intros l. clear.
  unfold own_models. induction l as [|[k v] l IH]; [done|]. cbn [map omap list_omap snd].
  destruct (decoded v) as [x|]; cbn [mbind option_bind]; [|exact IH].
  rewrite filter_cons. cbn [omap list_omap GetProto]. destruct (sel x).
  - rewrite decide_True by done. cbn [omap list_omap GetProto]. destruct (g x); by rewrite <-IH.
  - rewrite decide_False by done. exact IH.
Qed.

Lemma has_param_last key value params : has_param key (params ++ [(key, value)]) = true.
Proof. unfold has_param. rewrite existsb_app. cbn [existsb fst]. rewrite bool_decide_true by done. by rewrite orb_true_r. Qed.

Lemma index_type_last params :
  index_type params = List.last (map snd (filter (λ kv, kv.1 = "index_type") params)) "".
Proof.
  unfold index_type. induction params as [|[k v] params IH] using rev_ind; [done|].
  rewrite foldl_app, list.filter_app, map_app, IH. cbn [foldl fst snd]. rewrite filter_cons, filter_nil.
  case_bool_decide; [rewrite decide_True by done|rewrite decide_False by done].
  - cbn [map snd]. by rewrite List.last_last.
  - by rewrite app_nil_r.
Qed.

Definition with_IndexParams (i : IndexInfo) (params : list (string * string)) : IndexInfo :=
  MkIndexInfo (ii_CollectionID i) (ii_FieldID i) (ii_IndexName i) (ii_IndexID i) (ii_TypeParams i) params
    (ii_IndexedRows i) (ii_TotalRows i) (ii_State i) (ii_IndexStateFailReason i) (ii_IsAutoIndex i)
    (ii_UserIndexParams i) (ii_rest i).

(** Which indexes lack the parameter. *)
Definition lacks_param (collection : Z) (key : string) (i : IndexInfo) : Prop :=
  (collection = 0 ∨ collection = ii_CollectionID i)
  ∧ List.last (map snd (filter (λ kv, kv.1 = "index_type") (ii_IndexParams i))) "" ∈ ["DISKANN"; "HNSW"]
  ∧ key ∉ map fst (ii_IndexParams i).

Lemma has_param_elem key params : has_param key params = bool_decide (key ∈ map fst params).
Proof.
  apply eq_iff_eq_true. unfold has_param. rewrite bool_decide_eq_true, List.existsb_exists, list_elem_of_fmap.
  split.
  - intros (kv & Hin%list_elem_of_In & <-%bool_decide_eq_true). by exists kv.
  - intros (kv & -> & Hin). exists kv. split; [by apply list_elem_of_In|]. by apply bool_decide_eq_true.
Qed.

Lemma added_param_cases collection key value x i :
  fi_IndexInfo x = Some i →
  when (λ x, bool_decide (collection = 0) || bool_decide (collection = GetCollectionID x))
    (added_param key value) x
  = if decide (lacks_param collection key i)
    then Some (MkFieldIndex (Some (with_IndexParams i (ii_IndexParams i ++ [(key, value)])))
                 (fi_Deleted x) (fi_CreateTime x))
    else None.
Proof.
  intros Hi. unfold when, added_param, GetCollectionID, lacks_param. rewrite Hi, index_type_last, has_param_elem.
  destruct (bool_decide (collection = 0) || bool_decide (collection = ii_CollectionID i)) eqn:Hs.
  - rewrite orb_true_iff, !bool_decide_eq_true in Hs.
    destruct (bool_decide (_ ∈ ["DISKANN"; "HNSW"])) eqn:Ht; cbn [andb].
    + apply bool_decide_eq_true in Ht. case_bool_decide; [by rewrite decide_False by tauto|].
      by rewrite decide_True by done.
    + apply bool_decide_eq_false in Ht. by rewrite decide_False by tauto.
  - apply not_true_iff_false in Hs. rewrite orb_true_iff, !bool_decide_eq_true in Hs.
    by rewrite decide_False by tauto.
Qed.

(** C22 (invariant): [repair add_index_params] adds the parameter, as the last one, to every
    index of the collection, or of all, whose type is DISKANN or HNSW and that has no
    parameter of this key; the other parameters and attributes of these indexes, the other
    indexes and all other keys are as they were; a second run writes nothing. *)
Theorem AddIndexParams_spec c base collection key value :
  healthy c → is_path base → keyed_indexes c base →
  (∀ k v x i, (k, v) ∈ prefixed (mk_map c) (index_dir base) → decoded v = Some x → fi_IndexInfo x = Some i →
     ∃ bs, encoded (MkFieldIndex (Some (with_IndexParams i (ii_IndexParams i ++ [(key, value)])))
                      (fi_Deleted x) (fi_CreateTime x)) = Ok bs) →
  ∃ c' c'', AddIndexParamsCommand base collection key value true c = (c', Ok tt)
    ∧ AddIndexParamsCommand base collection key value true c' = (c'', Ok tt)
    ∧ mk_map c'' = mk_map c'
    ∧ (∀ k, mk_map c !! k = None → mk_map c' !! k = None)
    ∧ ∀ k v, mk_map c !! k = Some v →
        if HasPrefix k (index_dir base) then
          ∃ x i, decoded v = Some x ∧ fi_IndexInfo x = Some i
            ∧ (lacks_param collection key i → ∃ v', mk_map c' !! k = Some v'
                 ∧ decoded v' = Some (MkFieldIndex
                     (Some (with_IndexParams i (ii_IndexParams i ++ [(key, value)])))
                     (fi_Deleted x) (fi_CreateTime x)))
            ∧ (¬ lacks_param collection key i → mk_map c' !! k = Some v)
        else mk_map c' !! k = Some v.
Proof.
  intros Hc Hb Hk He.
  set (sel := λ x, bool_decide (collection = 0) || bool_decide (collection = GetCollectionID x)).
  set (f := when sel (added_param key value)).
  assert (∀ x y, f x = Some y → f y = None) as Hff.
  { intros x y Hx. destruct (fi_IndexInfo x) as [i|] eqn:Hi.
    - unfold f, sel in Hx. rewrite (added_param_cases _ _ _ _ _ Hi) in Hx.
      destruct (decide _); [|done]. injection Hx as <-. unfold f, sel.
      erewrite added_param_cases by done. rewrite decide_False; [done|]. intros (_ & _ & Hn). apply Hn.
      cbn [with_IndexParams ii_IndexParams]. rewrite map_app. apply elem_of_app. right. left.
    - unfold f, when, added_param in Hx. rewrite Hi in Hx. by destruct (sel x). }
  assert (repairs base f (prefixed (mk_map c) (index_dir base))) as Hf.
  { apply list.Forall_forall. intros [k v] Hin x y i Hx Hy Hi. cbn [snd] in Hx.
    destruct (He k v x i Hin Hx Hi) as [bs Hbs]. unfold f, sel in Hy.
    rewrite (added_param_cases _ _ _ _ _ Hi) in Hy. destruct (decide _); [|done]. injection Hy as <-.
    by eexists _, bs. }
  set (run := λ c1 : K, AddIndexParamsCommand base collection key value true c1).
  destruct (repair_indexes_twice c base f run Hc Hb Hf Hk Hff) as (c' & c'' & Hr1 & Hr2 & _ & Hm2 & Hm).
  { intros c1 c2 Hc1 Hk1 Hc2 Hr. unfold run, AddIndexParamsCommand.
    destruct (ListIndex_up c1 base sel Hc1 Hb Hk1) as (ws & Hl & Hg).
    unfold mbind at 1, cmd_bind at 1, reads at 1. unfold sel in Hl. rewrite Hl, Hg.
    change (λ x : FieldIndex, if sel x then added_param key value x else None) with f.
    unfold mbind at 1, cmd_bind at 1. rewrite Hr.
    unfold mbind at 1, cmd_bind at 1, reads at 1, ListIndex.
    by rewrite ListObj2Models_up by (by apply healthy_up). }
  exists c', c''. split_and!; [done..| |].
  { intros k Hn. by rewrite Hm, Hn. }
  intros k v Hv. rewrite !Hm, !Hv. destruct (HasPrefix k (index_dir base)) eqn:Hp; [|done].
  assert ((k, v) ∈ prefixed (mk_map c) (index_dir base)) as Hin by (by apply elem_of_prefixed).
  pose proof (proj1 (list.Forall_forall _ _) Hk _ Hin) as (x & i & Hx & Hi & _). cbn [snd] in Hx.
  exists x, i. split_and!; [done..| |]; intros Hl; unfold repaired_pair; cbn [snd]; rewrite Hx;
    cbn [mbind option_bind]; unfold f, sel; rewrite (added_param_cases _ _ _ _ _ Hi);
    [rewrite decide_True by done|by rewrite decide_False by done].
  destruct (He k v x i Hin Hx Hi) as [bs Hbs]. cbn [mbind option_bind]. rewrite Hbs.
  exists bs. split; [done|]. by apply decoded_encoded.
Qed.
End index_repairs.

Lemma index_type_filter (known : list string) params :
  "index_type" ∈ known → index_type (filter (λ kv, kv.1 ∈ known) params) = index_type params.
Proof.
  intros Hk. unfold index_type.
  match goal with |- foldl ?F _ _ = _ =>
    assert (∀ t, foldl F t (filter (λ kv, kv.1 ∈ known) params) = foldl F t params) as Hf; [|done] end.
  induction params as [|[k v] params IH]; intros t; [done|].
  rewrite filter_cons. cbn [foldl fst snd]. case_decide as Hin; [apply IH|]. rewrite IH.
  by rewrite (bool_decide_false (k = "index_type")) by (by intros ->).
Qed.

(** The copy that the check of parameters writes has the parameters of its
    type, in their order, and no other, and the check finds nothing wrong with it; but the
    copy lacks what the program does not name in an index. *)
Theorem strip_params_spec index i index' :
  fi_IndexInfo index = Some i → strip_params index = Ok (Some index') →
  ∃ j known, fi_IndexInfo index' = Some j
    ∧ known_params (index_type (ii_IndexParams i)) = Some known
    ∧ ii_IndexParams j = filter (λ kv, kv.1 ∈ known) (ii_IndexParams i)
    ∧ index_type (ii_IndexParams j) = index_type (ii_IndexParams i)
    ∧ ii_rest j = "" ∧ strip_params index' = Ok None.
Proof.
  intros Hi. unfold strip_params at 1. rewrite Hi. cbn [deref mbind res_bind].
  destruct (known_params (index_type (ii_IndexParams i))) as [known|] eqn:Hk; [|done].
  assert ("index_type" ∈ known) as Hin.
  { unfold known_params in Hk. repeat case_bool_decide; try done; injection Hk as <-;
      apply (bool_decide_unpack _); vm_compute; exact I. }
  case_bool_decide as Hlen; [done|]. intros [= <-]. eexists _, known.
  split; [done|]. cbn [ii_IndexParams ii_rest]. rewrite index_type_filter by done.
  split_and!; [done..|]. unfold strip_params. cbn [copy_index fi_IndexInfo deref mbind res_bind ii_IndexParams].
  rewrite index_type_filter, Hk by done. rewrite list_filter_filter.
  rewrite bool_decide_true; [done|]. f_equal. apply list_filter_iff. tauto.
Qed.

(** An index whose metric type was missing has one when
    [repair index_metric_type] has written it, and is not written again. *)
Theorem repair_metric_settles {K} `{MetaKVLaws K} `{ProtoCodec FieldIndex} (c : K) base index i bs :
  let metric := List.find (λ kv, bool_decide (kv.1 = "metric_type") && bool_decide (kv.2 ≠ "")) (ii_TypeParams i) in
  let fixed kv := copy_index index ((metric_params (ii_IndexParams i)).1 ++ [kv]) in
  healthy c → is_path base → fi_IndexInfo index = Some i → (metric_params (ii_IndexParams i)).2 = false →
  (∀ kv, metric = Some kv → encoded (fixed kv) = Ok bs) →
  match metric with
  | None => repair_metric base index c = (c, Err (Errorf "no metric_type in IndexParams or TypeParams"))
  | Some kv => ∃ c', repair_metric base index c = (c', Ok true)
      ∧ mk_map c' = <[index_key base i := bs]> (mk_map c) ∧ kv.2 ≠ ""
      ∧ repair_metric base (fixed kv) c' = (c', Ok false)
  end.
Proof.
  intros metric fixed Hc Hb Hi Hm Hbs.
  destruct metric as [kv|] eqn:Hf.
  - unfold metric in Hf. specialize (Hbs kv eq_refl). pose proof Hf as [_ Hkv]%find_some.
    apply andb_true_iff in Hkv as [Hk%bool_decide_eq_true Hv%bool_decide_eq_true].
    destruct (index_key_join base i Hb) as [Hj Hp].
    destruct (healthy_Save c _ bs Hc Hp) as (c' & Hs & _ & Hm').
    exists c'. split_and!; [|done..|].
    + unfold repair_metric, mbind, cmd_bind, of_res. rewrite Hi. cbn [deref].
      destruct (metric_params (ii_IndexParams i)) as [params present] eqn:Hmp. cbn [snd fst] in *. subst present.
      rewrite Hf. change (copy_index index (params ++ [kv])) with (fixed kv).
      unfold writeRepairedIndex, mbind, cmd_bind, of_res, marshalled. rewrite Hbs.
      unfold fixed, copy_index. rewrite Hi. cbn [fi_IndexInfo deref default ii_CollectionID ii_IndexID].
      change (id i) with i. rewrite Hj, Hs. done.
    + unfold repair_metric, mbind, cmd_bind, of_res. cbn [fixed copy_index fi_IndexInfo deref ii_IndexParams].
      unfold metric_params. rewrite foldl_app. fold (metric_params (ii_IndexParams i)).
      destruct (foldl _ ([], false) _) as [ps pr]. cbn [foldl]. rewrite bool_decide_true by done.
      by rewrite bool_decide_false by done.
  - unfold repair_metric, mbind, cmd_bind, of_res. rewrite Hi. cbn [deref].
    destruct (metric_params (ii_IndexParams i)) as [params present]. cbn [snd] in Hm. subst present.
    unfold metric in Hf. rewrite Hf. done.
Qed.

(** ** Mixed binlogs *)
Section mixed_repairs.
Context {K : Type} `{MetaKVLaws K} `{MapOrder}.
Context `{ProtoCodec CollectionInfo} `{ProtoCodec FieldSchema} `{ProtoCodec StructArrayFieldSchema}.
Context `{ProtoCodec FunctionSchema} `{ProtoCodec SegmentInfo} `{ProtoCodec PbFieldBinlog}.
Implicit Types (c : K) (m : gmap string string).

Lemma backup_and_remove_all keys c :
  healthy c → NoDup keys → Forall is_path keys →
  (∀ k k', k ∈ keys → k' ∈ keys → k' ≠ "repair/" +:+ k) →
  Forall (λ k, is_Some (mk_map c !! k)) keys →
  ∃ c', for_each backup_and_remove keys c = (c', Ok tt) ∧ healthy c'
    ∧ ∀ k, mk_map c' !! k = if bool_decide (k ∈ keys) then None
        else match TrimPrefix k "repair/" with
             | k0 => if bool_decide (k = "repair/" +:+ k0 ∧ k0 ∈ keys) then mk_map c !! k0 else mk_map c !! k
             end.
Proof.
  revert c. induction keys as [|k0 keys IH]; intros c Hc Hnd Hp Hno Hin.
  { exists c. split_and!; [done..|]. intros k. rewrite !bool_decide_false; [done|..]; set_solver. }
  apply list.NoDup_cons in Hnd as [Hn Hnd]. apply list.Forall_cons in Hp as [Hp Hps].
  apply list.Forall_cons in Hin as [[v Hv] Hin]. cbn [for_each].
  assert (is_path ("repair/" +:+ k0)) as Hpr by (apply (is_path_app "repair"); [is_path_dec|done]).
  destruct (healthy_Save c _ v Hc Hpr) as (c1 & Hs & Hc1 & Hm1).
  assert (k0 ≠ "repair/" +:+ k0) as Hne by (apply Hno; left).
  destruct (Remove_effect k0 Hp c1 Hc1) as (c2 & Hr & Hc2 & Hm2).
  { rewrite Hm1, lookup_insert_ne by done. by exists v. }
  destruct (IH c2) as (c' & Hloop & Hc' & Hm'); [done..| | |].
  - intros k k' Hk Hk'. apply Hno; by right.
  - apply list.Forall_forall. intros k Hk. rewrite Hm2, Hm1, lookup_delete_ne by (by intros ->).
    rewrite lookup_insert_ne by (apply not_eq_sym, Hno; [left|by right]).
    by eapply list.Forall_forall in Hin.
  - exists c'. split_and!; [|done|].
    + unfold mbind at 1, cmd_bind at 1. unfold backup_and_remove at 1, mbind at 1, cmd_bind at 1, reads at 1.
      rewrite healthy_Load, Hv by done. unfold mbind at 1, cmd_bind at 1. by rewrite Hs, Hr.
    + intros k. rewrite Hm'. cbv zeta. set (t := TrimPrefix k "repair/").
      assert (∀ k', k = "repair/" +:+ k' → t = k') as Ht by (intros k' ->; apply TrimPrefix_app).
        clearbody t.
      rewrite Hm2, Hm1. destruct (decide (k = k0)) as [->|Hk0].
      * rewrite (bool_decide_false (k0 ∈ keys)), (bool_decide_true (k0 ∈ k0 :: keys)) by (done || left).
        rewrite bool_decide_false; [by rewrite lookup_delete_eq|]. intros [E Hin'].
        eapply (Hno t k0); [by right|left|done].
      * rewrite (bool_decide_ext (k ∈ k0 :: keys) (k ∈ keys)) by (rewrite elem_of_cons; naive_solver).
        case_bool_decide; [done|]. rewrite (lookup_delete_ne _ k0 k) by done.
        destruct (decide (k = "repair/" +:+ k0)) as [->|Hk].
        -- rewrite (Ht k0 eq_refl). rewrite (bool_decide_false (_ ∧ k0 ∈ keys)) by naive_solver.
           rewrite bool_decide_true by (split; [done|left]). by rewrite lookup_insert_eq.
        -- rewrite lookup_insert_ne by done.
           assert (k = "repair/" +:+ t → t ≠ k0) as Htk by (intros -> ->; done).
           rewrite (bool_decide_ext (k = "repair/" +:+ t ∧ t ∈ k0 :: keys) (k = "repair/" +:+ t ∧ t ∈ keys))
             by (rewrite elem_of_cons; naive_solver).
           case_bool_decide as Hkt; [|done]. destruct Hkt as [-> Hin'].
           rewrite lookup_delete_ne by (intros <-; done).
           by rewrite lookup_insert_ne by (apply not_eq_sym, Hno; [left|by right]).
Qed.

(** [repair mixed-binlogs] moves the records of the superfluous logs: what was
    at the key of one is afterwards at the same key below [repair/], and nothing else
    changes; without [run], nothing changes at all. *)
Theorem MixedBinlogs_spec c base results :
  healthy c → is_path base →
  (segments ← ListSegments c base []; mapR (mixed_target base c) segments) = Ok results →
  let keys := concat (map (mixed_keys base) (omap id results)) in
  NoDup keys → Forall (λ k, is_Some (mk_map c !! k) ∧ HasPrefix k "repair/" = false) keys →
  MixedBinlogsCommand base false c = (c, Ok tt)
  ∧ ∃ c', MixedBinlogsCommand base true c = (c', Ok tt)
    ∧ ∀ k, (k ∈ keys → mk_map c' !! k = None ∧ mk_map c' !! ("repair/" +:+ k) = mk_map c !! k)
         ∧ (k ∉ keys → (∀ k0, k0 ∈ keys → k ≠ "repair/" +:+ k0) → mk_map c' !! k = mk_map c !! k).
Proof.
  intros Hc Hb Hr keys Hnd Hk. apply list.Forall_and in Hk as [Hin Hno].
  assert (∀ k k', k ∈ keys → k' ∈ keys → k' ≠ "repair/" +:+ k) as Hsep.
  { intros k k' _ Hk' ->. eapply list.Forall_forall in Hno; [|exact Hk']. by rewrite HasPrefix_app in Hno. }
  assert (Forall is_path keys) as Hp.
  { apply List.Forall_concat, List.Forall_map, list.Forall_forall. intros t _.
    apply List.Forall_map, list.Forall_forall. intros f _.
    change ("/datacoord-meta/binlog/" +:+ ids_path (segment_ids t.1 ++ [f]))
      with ("/" +:+ "datacoord-meta/binlog" +:+ "/" +:+ ids_path (segment_ids t.1 ++ [f])).
    apply is_path_app; [done|]. apply is_path_app; [is_path_dec|by apply ids_path_is_path]. }
  apply res_bind_Ok in Hr as (segments & Hl & Ht).
  unfold MixedBinlogsCommand, mbind, cmd_bind, reads. rewrite Hl, Ht. split; [done|].
  destruct (backup_and_remove_all keys c Hc Hnd Hp Hsep Hin) as (c' & Hloop & _ & Hm). fold keys.
  exists c'. split; [exact Hloop|]. intros k. split.
  - intros Hkin. rewrite !Hm, TrimPrefix_app. rewrite (bool_decide_true (k ∈ keys)) by done.
    rewrite (bool_decide_false ("repair/" +:+ k ∈ keys)) by (intros Hk'; by destruct (Hsep k _ Hkin Hk')).
    by rewrite bool_decide_true by done.
  - intros Hnk Hnr. rewrite Hm, bool_decide_false by done. case_bool_decide as E; [|done].
    destruct E as [E Hk']. by destruct (Hnr _ Hk').
Qed.
End mixed_repairs.

(** ** Examples *)
Definition mixed_field_binlog (id : Z) (children : list Z) : PbFieldBinlog :=
  MkPbFieldBinlog id [MkPbBinlog 100 1 9 "" 4096 5 id] children.
Definition typed_info (params : list (string * string)) : IndexInfo :=
  MkIndexInfo 1 101 "ix" 1 [("metric_type", "L2")] params 0 0 3 "" false [] "".
Definition typed_index (params : list (string * string)) : FieldIndex :=
  MkFieldIndex (Some (typed_info params)) false 9.
#[local] Instance mixed_binlog_codec : ProtoCodec PbFieldBinlog :=
  table_codec [("v1", mixed_field_binlog 100 []); ("v2", mixed_field_binlog 0 [100; 101])].
Definition repair_indexes : list (string * FieldIndex) :=
  [("bare", typed_index [("index_type", "HNSW")]);
   ("added", typed_index [("index_type", "HNSW"); ("M", "16")]);
   ("odd", typed_index [("index_type", "HNSW"); ("nlist", "9")]);
   ("metric", typed_index [("index_type", "HNSW"); ("metric_type", "L2")])].
#[local] Instance repair_index_codec : ProtoCodec FieldIndex := table_codec repair_indexes.
#[local] Instance repair_index_laws : Listing.ProtoLaws FieldIndex.
Proof. apply table_codec_laws. apply (bool_decide_unpack _). vm_compute. exact I. Qed.

Lemma RepairEmptySegment_spec_witness :
  let c := etcd_store [("by-dev/datacoord-meta/s/1/2/7", "seg7"); ("by-dev/datacoord-meta/s/1/2/8", "seg8");
                       ("by-dev/datacoord-meta/binlog/1/2/7/100", "damaged");
                       ("by-dev/datacoord-meta/binlog/1/2/8/100", "v1")] in
  ∃ c', RepairEmptySegmentCommand "by-dev" true c = (c', Ok tt)
    ∧ mk_map c' !! "by-dev/datacoord-meta/s/1/2/7" = None
    ∧ mk_map c' !! "by-dev/datacoord-meta/s/1/2/8" = Some "seg8".
Proof.
  intros c. destruct (RepairEmptySegment_spec c "by-dev") as (c' & Hr & _ & Hm).
  - apply etcd_store_healthy.
  - is_path_dec.
  - unfold keyed_segments.
    assert (segment_pairs c "by-dev" = [("by-dev/datacoord-meta/s/1/2/7", "seg7");
      ("by-dev/datacoord-meta/s/1/2/8", "seg8")]) as -> by (vm_compute; reflexivity).
    constructor; [exists (sample_segment 7 4)|constructor; [exists (sample_segment 8 3)|constructor]];
      split; vm_compute; reflexivity.
  - clean_dec.
  - exists c'. split; [exact Hr|]. rewrite Hm. split; vm_compute; reflexivity.
Defined.

Lemma getLatestCheckpoint_spec_witness :
  let c := etcd_store [("by-dev/datacoord-meta/s/1/2/7", "seg7")] in
  ∃ segs ret, ListSegments c "by-dev" [] = Ok segs
    ∧ getLatestCheckpointFromPChannel "by-dev" c = Ok ret ∧ greatest ret (map sg_info segs).
Proof.
  intros c.
  assert (match ListSegments c "by-dev" [] with Ok _ => true | _ => false end = true) as Hok
    by (vm_compute; reflexivity).
  destruct (ListSegments c "by-dev" []) as [segs|e|w] eqn:Hl; [|discriminate Hok..].
  destruct (getLatestCheckpoint_spec c "by-dev" segs Hl) as (ret & Hr & Hg).
  exists segs, ret. split; [reflexivity|]. split; [exact Hr|exact Hg].
Defined.

Lemma ParseEntity_roundtrip_witness :
  ParseEntity "by-dev-rootcoord-dml_0_445v1" = Ok ("by-dev-rootcoord-dml_0", 445, 1).
Proof.
  apply (ParseEntity_roundtrip "by-dev-rootcoord-dml_0" 445 1); vm_compute; split; congruence.
Defined.

Lemma CollectionInfo_versions_witness :
  ∃ w, (channels ← place_channels (replicate 1 None) [sample_position "dml_0_1v1"];
        repaired_info (MkInfoParam "" 1 1 "c" false true) (MkInfoModel 1 "default" "c" 0) (MkDatabaseInfo 1 "default") false channels)
       = Panic w.
Proof.
  apply (CollectionInfo_versions [sample_position "dml_0_1v1"] _ _ _ _ 0%nat); [simpl; lia|].
  constructor; [|constructor]. exists "dml_0", 1, 1. split; [vm_compute; reflexivity|done].
Defined.

(** A segment with the field 100 in a log of its own and in one of version 2. *)
Definition mixed_store : etcdKV (gmap string string) :=
  etcd_store [("by-dev/root-coord/collection/1", "c1");
              ("by-dev/root-coord/fields/1/100", "pk"); ("by-dev/root-coord/fields/1/101", "old");
              ("by-dev/datacoord-meta/s/1/2/7", "seg7");
              ("by-dev/datacoord-meta/binlog/1/2/7/0", "v2");
              ("by-dev/datacoord-meta/binlog/1/2/7/100", "v1")].

Lemma MixedBinlogs_spec_witness :
  ∃ c', MixedBinlogsCommand "by-dev" true mixed_store = (c', Ok tt)
    ∧ mk_map c' !! "by-dev/datacoord-meta/binlog/1/2/7/100" = None
    ∧ mk_map c' !! "repair/by-dev/datacoord-meta/binlog/1/2/7/100" = Some "v1"
    ∧ mk_map c' !! "by-dev/datacoord-meta/binlog/1/2/7/0" = Some "v2".
Proof.
  destruct (MixedBinlogs_spec mixed_store "by-dev" [Some (sample_segment 7 4, [100])]) as [_ (c' & Hr & Hm)].
  - apply etcd_store_healthy.
  - is_path_dec.
  - vm_compute. reflexivity.
  - clean_dec.
  - clean_dec.
  - exists c'. split; [exact Hr|].
    assert (concat (map (mixed_keys "by-dev") (omap id [Some (sample_segment 7 4, [100])]))
      = ["by-dev/datacoord-meta/binlog/1/2/7/100"]) as E by (vm_compute; reflexivity).
    rewrite E in Hm. destruct (Hm "by-dev/datacoord-meta/binlog/1/2/7/100") as [Hk _].
    destruct (Hk (list_elem_of_here _ _)) as [Hn Hb]. split; [exact Hn|]. split; [etrans; [exact Hb|vm_compute; reflexivity]|].
    destruct (Hm "by-dev/datacoord-meta/binlog/1/2/7/0") as [_ Hk'].
    etrans; [apply Hk'|vm_compute; reflexivity]; [clean_dec|].
    intros k0 Hk0. apply list_elem_of_singleton in Hk0 as ->. clean_dec.
Defined.

Lemma CollectionLegacy_tombstone_witness :
  let c := etcd_store [("by-dev/snapshots/root-coord/collection/5_ts3", CollectionTombstone)] in
  ∃ c' w, CollectionLegacyDroppedCommand "by-dev" 5 false c = (c', Panic w).
Proof.
  intros c.
  apply (CollectionLegacy_tombstone c "by-dev" 5 false "by-dev/snapshots/root-coord/collection/5_ts3").
  - apply etcd_store_healthy.
  - is_path_dec.
  - clean_dec.
  - done.
  - vm_compute. reflexivity.
  - assert (prefixed (mk_map c) (history_prefix "by-dev" 5)
      = [("by-dev/snapshots/root-coord/collection/5_ts3", CollectionTombstone)]) as -> by (vm_compute; reflexivity).
    left.
Defined.

#[local] Instance legacy_codec : ProtoCodec CollectionInfo :=
  table_codec [("old", MkCollectionInfo 3 (Some sample_schema) 0 ["dml_0_1v0"] ["dml_0"] [] 0 0 1 [])].

Lemma CollectionLegacy_spec_witness :
  let c := etcd_store [("by-dev/root-coord/collection/3", "old"); ("by-dev/root-coord/fields/3/100", "pk")] in
  ∃ c', CollectionLegacyDroppedCommand "by-dev" 0 true c = (c', Ok tt)
    ∧ mk_map c' = {["by-dev/root-coord/fields/3/100" := "pk"]}.
Proof.
  intros c. destruct (CollectionLegacy_spec c "by-dev" 0) as (c' & Hr & Hm).
  - apply etcd_store_healthy.
  - is_path_dec.
  - clean_dec.
  - split; vm_compute; repeat constructor; eexists; reflexivity.
  - assert (Forall (λ x, is_Some (ci_Schema (co_proto x))) (collections_at c "by-dev"))
      as Hs by (vm_compute; repeat constructor; eexists; reflexivity).
    intros x Hx. rewrite list.Forall_forall in Hs. by apply Hs.
  - clean_dec.
  - exists c'. split; [exact Hr|]. rewrite Hm. vm_compute. reflexivity.
Defined.

Definition index_store (v : string) : etcdKV (gmap string string) := etcd_store [("by-dev/field-index/1/1", v)].

Lemma index_store_keyed v :
  v ∈ ["bare"; "odd"] → keyed_indexes (index_store v) "by-dev".
Proof.
  intros Hv. unfold keyed_indexes.
  assert (prefixed (mk_map (index_store v)) (index_dir "by-dev") = [("by-dev/field-index/1/1", v)]) as ->
    by (repeat (apply elem_of_cons in Hv as [-> |Hv]; [vm_compute; reflexivity|]); by apply not_elem_of_nil in Hv).
  constructor; [|constructor].
  repeat (apply elem_of_cons in Hv as [-> |Hv]; [eexists _, _; split_and!; vm_compute; reflexivity|]).
  by apply not_elem_of_nil in Hv.
Qed.

Lemma AddIndexParams_spec_witness :
  ∃ c' v, AddIndexParamsCommand "by-dev" 0 "M" "16" true (index_store "bare") = (c', Ok tt)
    ∧ mk_map c' !! "by-dev/field-index/1/1" = Some v ∧ v ≠ "bare".
Proof.
  destruct (AddIndexParams_spec (index_store "bare") "by-dev" 0 "M" "16") as (c' & c'' & Hr & _ & _ & _ & Hm).
  - apply etcd_store_healthy.
  - is_path_dec.
  - apply index_store_keyed. left.
  - assert (prefixed (mk_map (index_store "bare")) (index_dir "by-dev") = [("by-dev/field-index/1/1", "bare")])
      as -> by (vm_compute; reflexivity).
    intros k v x i Hin%list_elem_of_singleton Hx Hi. injection Hin as -> ->.
    vm_compute in Hx. injection Hx as <-. vm_compute in Hi. injection Hi as <-.
    exists "added". vm_compute. reflexivity.
  - specialize (Hm "by-dev/field-index/1/1" "bare" eq_refl).
    change (HasPrefix "by-dev/field-index/1/1" (index_dir "by-dev")) with true in Hm.
    destruct Hm as (x & i & Hx & Hi & Hl & _).
    vm_compute in Hx. injection Hx as <-. vm_compute in Hi. injection Hi as <-.
    destruct Hl as (v' & Hv' & Hd).
    { split; [left; reflexivity|]. split; apply (bool_decide_unpack _); vm_compute; exact I. }
    exists c', v'. split; [exact Hr|]. split; [exact Hv'|]. intros ->. vm_compute in Hd. discriminate Hd.
Defined.

Lemma strip_params_spec_witness :
  ∃ index' j, strip_params (typed_index [("index_type", "HNSW"); ("nlist", "9")]) = Ok (Some index')
    ∧ fi_IndexInfo index' = Some j ∧ ii_IndexParams j = [("index_type", "HNSW")]
    ∧ strip_params index' = Ok None.
Proof.
  destruct (strip_params (typed_index [("index_type", "HNSW"); ("nlist", "9")])) as [[index'|]|e|w] eqn:Hs;
    try (vm_compute in Hs; discriminate Hs).
  destruct (strip_params_spec (typed_index [("index_type", "HNSW"); ("nlist", "9")]) _ index' eq_refl Hs)
    as (j & known & Hj & Hk & Hp & _ & _ & Hn).
  exists index', j. split; [reflexivity|]. split; [exact Hj|]. split; [|exact Hn].
  rewrite Hp. vm_compute in Hk. injection Hk as <-. vm_compute. reflexivity.
Defined.

Lemma repair_metric_settles_witness :
  let index := typed_index [("index_type", "HNSW")] in
  ∃ c', repair_metric "by-dev" index (index_store "bare") = (c', Ok true)
    ∧ mk_map c' !! "by-dev/field-index/1/1" = Some "metric".
Proof.
  intros index.
  destruct (repair_metric_settles (index_store "bare") "by-dev" index (typed_info [("index_type", "HNSW")]) "metric") as (c' & Hr & Hm & _).
  - apply etcd_store_healthy.
  - is_path_dec.
  - reflexivity.
  - vm_compute. reflexivity.
  - intros kv Hkv. vm_compute in Hkv. injection Hkv as <-. vm_compute. reflexivity.
  - exists c'. split; [exact Hr|]. rewrite Hm. vm_compute. reflexivity.
Defined.
