(* ===== verification/Alter.v ===== *)
(** * The set commands

    The commands of [states/etcd/set]: the attributes of a field ([collection_alter.go]), the
    consistency level of a collection ([collection_consistency_level.go]) and an item of the
    configuration ([etcd_config.go]).  The pairs of a field's type parameters are shared
    with a map of pointers while they are changed; a pointer is the place of its pair. *)
From S2P Require Export Commands.

(** ** The data types *)
Definition DataType_Bool : Z := 1.
Definition DataType_Int8 : Z := 2.
Definition DataType_Int16 : Z := 3.
Definition DataType_Int32 : Z := 4.
Definition DataType_Int64 : Z := 5.
Definition DataType_Float : Z := 10.
Definition DataType_Double : Z := 11.
Definition DataType_String : Z := 20.
Definition DataType_VarChar : Z := 21.
Definition DataType_JSON : Z := 23.

(** [strconv.ParseFloat] for 32 and for 64 bits, with the bits of the result. *)
Class FloatSyntax := {
  ParseFloat32 : string → option Z;
  ParseFloat64 : string → option Z;
}.

(** [commonpb.ConsistencyLevel_value]. *)
Class ConsistencyLevels := { ConsistencyLevel_value : string → option Z }.

(** The order in which [range] visits a map of strings. *)
Class StrMapOrder := {
  range_str : gmap string string → list (string * string);
  range_str_perm : ∀ m, range_str m ≡ₚ map_to_list m;
}.

(** ** [collection_alter.go] *)
Record FieldAttrParam := MkFieldAttr {
  fa_CollectionID : Z;
  fa_FieldID : Z;
  fa_IsClusteringKey : bool;
  fa_Nullable : bool;
  fa_DefaultValue : string;
  fa_TypeParams : list string;
  fa_DeleteTypeParams : list string;
  fa_Run : bool;
}.

Definition parse_type_param (result : gmap string string) (param : string) : res (gmap string string) :=
  if bool_decide (param = "") then Ok result
  else
    match Split2 "=" param with
    | [key; value] =>
        let key := TrimSpace key in
        if bool_decide (key = "") then Err (Errorf "type param key cannot be empty")
        else Ok (<[key := TrimSpace value]> result)
    | _ => Err (Errorf "invalid type param format")
    end.

Fixpoint parse_type_params (result : gmap string string) (params : list string) : res (gmap string string) :=
  match params with
  | [] => Ok result
  | param :: params => result ← parse_type_param result param; parse_type_params result params
  end.
Definition parseTypeParams (params : list string) : res (gmap string string) := parse_type_params ∅ params.

Definition parsed {A} (v : option A) (f : A → ValueField) : res ValueField :=
  match v with Some v => Ok (f v) | None => Err (Errorf "invalid syntax") end.

Definition GetDefaultValueForDataType `{FloatSyntax} (dataType : Z) (defaultValue : string) : res ValueField :=
  if bool_decide (dataType = DataType_Bool) then parsed (ParseBool defaultValue) BoolData
  else if bool_decide (dataType ∈ [DataType_VarChar; DataType_String]) then Ok (StringData defaultValue)
  else if bool_decide (dataType = DataType_Int64) then parsed (ParseInt_w 64 defaultValue) LongData
  else if bool_decide (dataType ∈ [DataType_Int8; DataType_Int16; DataType_Int32])
  then parsed (ParseInt_w 32 defaultValue) (λ v, IntData (int32 v))
  else if bool_decide (dataType = DataType_Float) then parsed (ParseFloat32 defaultValue) FloatData
  else if bool_decide (dataType = DataType_Double) then parsed (ParseFloat64 defaultValue) DoubleData
  else if bool_decide (dataType = DataType_JSON) then Ok (BytesData (bytes_of_string defaultValue))
  else Err (Errorf "setting default value for data type is not supported yet").

(** The places of the pairs, by key: a later pair hides an earlier one of the same key. *)
Definition existing_params (params : list (string * string)) : gmap string nat :=
  list_to_map (rev (imap (λ i kv, (kv.1, i)) params)).

(** One turn of the loop: the pair that the map points to gets the value, or the pair is
    appended. *)
Definition set_type_param (existing : gmap string nat) (params : list (string * string))
    (kv : string * string) : list (string * string) :=
  match existing !! kv.1 with
  | Some i => <[i := kv]> params
  | None => params ++ [kv]
  end.

Definition delete_type_params (keys : list string) (params : list (string * string)) : list (string * string) :=
  match keys with [] => params | _ => filter (λ kv, kv.1 ∉ keys) params end.

Definition set_type_params `{StrMapOrder} (toSet : gmap string string) (params : list (string * string))
    : list (string * string) :=
  foldl (set_type_param (existing_params params)) params (range_str toSet).

Definition with_attributes (field : FieldSchema) (clustering nullable : bool) (value : option ValueField)
    (params : list (string * string)) : FieldSchema :=
  MkFieldSchema (fs_FieldID field) (fs_Name field) (fs_DataType field) (fs_IsPrimaryKey field)
    (fs_AutoID field) (fs_IsDynamic field) clustering nullable value params (fs_rest field).

Definition alterField `{FloatSyntax, StrMapOrder} (p : FieldAttrParam) (toSet : gmap string string)
    (field : FieldSchema) : res FieldSchema :=
  if bool_decide (fs_FieldID field ≠ fa_FieldID p) then Ok field
  else
    value ← (if bool_decide (fa_DefaultValue p ≠ "")
             then v ← GetDefaultValueForDataType (fs_DataType field) (fa_DefaultValue p); Ok (Some v)
             else Ok (fs_DefaultValue field));
    Ok (with_attributes field (fa_IsClusteringKey p) (fa_Nullable p) value
          (set_type_params toSet (delete_type_params (fa_DeleteTypeParams p) (fs_TypeParams field)))).

Section set_commands.
Context {K : Type} `{MetaKV K} `{FloatSyntax} `{StrMapOrder} `{ConsistencyLevels}.
Context `{ProtoCodec CollectionInfo} `{ProtoCodec FieldSchema} `{ProtoCodec StructArrayFieldSchema}.
Context `{ProtoCodec FunctionSchema}.
Variable basePath : string.

Definition FieldAttrCommand (p : FieldAttrParam) : cmd K unit :=
  if bool_decide (fa_CollectionID p <= 0) then stop (Errorf "invalid collection id")
  else if bool_decide (fa_FieldID p < 0) then stop (Errorf "invalid field id")
  else
    toSet ← of_res (parseTypeParams (fa_TypeParams p));
    λ c, UpdateField c basePath (fa_CollectionID p) (fa_FieldID p) (alterField p toSet) (negb (fa_Run p)).

(** ** [collection_consistency_level.go] *)
Definition CollectionConsistencyLevelCommand (collectionID : Z) (consistencyLevel : string) (run : bool)
    : cmd K unit :=
  match ConsistencyLevel_value consistencyLevel with
  | None => stop (Errorf "consistency level string is not valid")
  | Some level =>
      collection ← reads (λ c, GetCollectionByIDVersion c basePath collectionID);
      if bool_decide (ci_ConsistencyLevel (co_proto collection) = level) then mret tt
      else λ c, UpdateCollection c (co_key collection) (λ coll, with_ConsistencyLevel coll level) run
  end.

(** ** [etcd_config.go] *)
Definition EtcdConfigCommand (key value : string) : cmd K unit :=
  if bool_decide (key = "") || bool_decide (value = "") then mret tt
  else try_ (λ c, SetEtcdConfig c basePath key value).
End set_commands.

(** ** Type parameters *)
Section type_params.
Implicit Types (l params : list (string * string)) (m : gmap string string).

Lemma KVListMap_snoc l kv : KVListMap (l ++ [kv]) = <[kv.1 := kv.2]> (KVListMap l).
Proof. unfold KVListMap. by rewrite foldl_app. Qed.

Lemma KVListMap_app l l' : KVListMap (l ++ l') = foldl (λ m kv, <[kv.1 := kv.2]> m) (KVListMap l) l'.
Proof. unfold KVListMap. by rewrite foldl_app. Qed.

Lemma existing_params_snoc l kv : existing_params (l ++ [kv]) = <[kv.1 := length l]> (existing_params l).
Proof. unfold existing_params. rewrite imap_app, rev_app_distr. simpl. by rewrite Nat.add_0_r. Qed.

(** The places depend on the keys only. *)
Lemma existing_params_keys l l' : map fst l = map fst l' → existing_params l = existing_params l'.
Proof.
  intros E. unfold existing_params. f_equal. f_equal.
  assert (∀ l : list (string * string), imap (λ i kv, (kv.1, i)) l = imap (λ i k, (k, i)) (map fst l)) as Hi
    by (intros l0; symmetry; apply imap_fmap).
  by rewrite !Hi, E.
Qed.

(** Setting the pair that is pointed to sets the value of the key. *)
Lemma existing_params_set l k i v :
  existing_params l !! k = Some i →
  (i < length l)%nat ∧ map fst (<[i := (k, v)]> l) = map fst l
  ∧ KVListMap (<[i := (k, v)]> l) = <[k := v]> (KVListMap l).
Proof.
  revert i. induction l as [|kv l IH] using rev_ind; intros i; [done|].
  rewrite existing_params_snoc, length_app. cbn [length].
  destruct (decide (kv.1 = k)) as [Hk|Hk].
  - rewrite Hk, lookup_insert_eq. intros [= <-].
    assert (<[length l := (k, v)]> (l ++ [kv]) = l ++ [(k, v)]) as ->.
    { replace (length l) with (length l + 0)%nat by lia. by rewrite insert_app_r. }
    rewrite !map_app, !KVListMap_snoc, Hk. split_and!; [lia|by simpl; rewrite Hk|].
    by rewrite insert_insert_eq.
  - rewrite lookup_insert_ne by done. intros Hi. destruct (IH i Hi) as (Hlen & Hm & HK).
    rewrite insert_app_l by done. rewrite !map_app, Hm, !KVListMap_snoc, HK.
    split_and!; [lia|done|]. by apply insert_insert_ne.
Qed.

Lemma set_type_params_fold existing params kvs :
  existing ⊆ existing_params params → NoDup (map fst kvs) →
  KVListMap (foldl (set_type_param existing) params kvs)
  = foldl (λ m kv, <[kv.1 := kv.2]> m) (KVListMap params) kvs.
Proof.
  revert params. induction kvs as [|[k v] kvs IH]; intros params Hsub; [done|].
  cbn [map fst]. intros [Hn Hnd]%list.NoDup_cons. cbn [foldl]. unfold set_type_param at 2. cbn [fst snd].
  destruct (existing !! k) as [i|] eqn:Hk.
  - pose proof (lookup_weaken _ _ _ _ Hk Hsub) as Hp.
    destruct (existing_params_set params k i v Hp) as (_ & Hm & HK).
    rewrite IH by (by rewrite ?(existing_params_keys _ _ Hm)). by rewrite HK.
  - rewrite IH; [by rewrite KVListMap_snoc|..|done]. rewrite existing_params_snoc. cbn [fst].
    by apply insert_subseteq_r.
Qed.

(** What is set does not depend on the order of the map. *)
Lemma set_type_params_map `{StrMapOrder} m params : KVListMap (set_type_params m params) = m ∪ KVListMap params.
Proof.
  unfold set_type_params.
  assert (NoDup (map fst (range_str m))) as Hnd by (rewrite range_str_perm; apply NoDup_fst_map_to_list).
  rewrite set_type_params_fold by done. apply map_eq. intros k. rewrite foldl_insert_lookup by done.
  rewrite (list_to_map_proper _ (map_to_list m)), list_to_map_to_list by (done || apply range_str_perm).
  rewrite lookup_union. destruct (m !! k); simpl; [by destruct (KVListMap params !! k)|].
  by rewrite (left_id_L None _).
Qed.

Lemma delete_type_params_map keys params :
  KVListMap (delete_type_params keys params) = filter (λ kv, kv.1 ∉ keys) (KVListMap params).
Proof.
  assert (KVListMap (filter (λ kv, kv.1 ∉ keys) params) = filter (λ kv, kv.1 ∉ keys) (KVListMap params)) as Hf.
  { induction params as [|kv params IH] using rev_ind; [symmetry; apply map_filter_empty|].
    rewrite list.filter_app, KVListMap_app, IH, KVListMap_snoc. rewrite filter_cons. cbn [filter list_filter].
    case_decide as Hk; cbn [foldl].
    - by rewrite map_filter_insert_True.
    - symmetry. apply map_filter_insert_not. intros y Hn. by apply Hn. }
  destruct keys as [|key keys]; [|done]. cbn [delete_type_params]. symmetry. apply map_filter_id.
  intros k v _. apply not_elem_of_nil.
Qed.
End type_params.

(** [set field-attr] changes the type parameters of the field as one would
    change a map: the keys to delete go, then the pairs to set are put, whatever the order
    in which the map of these is visited, and even when a key occurs more than once. *)
Theorem alterField_type_params `{FloatSyntax, StrMapOrder} p toSet field field' :
  fs_FieldID field = fa_FieldID p → alterField p toSet field = Ok field' →
  KVListMap (fs_TypeParams field')
  = toSet ∪ filter (λ kv, kv.1 ∉ fa_DeleteTypeParams p) (KVListMap (fs_TypeParams field)).
Proof.
  intros Hid. unfold alterField. rewrite bool_decide_false by tauto. intros Ha.
  apply res_bind_Ok in Ha as (value & _ & [= <-]). cbn [fs_TypeParams with_attributes].
  by rewrite set_type_params_map, delete_type_params_map.
Qed.

(** What is set reads as the pairs say, the last one of a key. *)
Definition trimmed (s : string) : Prop := TrimSpace s = s.
Definition type_param (kv : string * string) : string := kv.1 +:+ String "=" kv.2.

Lemma Split2_pair sep k v : Split sep k = [k] → Split2 sep (k +:+ String sep v) = [k; v].
Proof.
  induction k as [|c k IH]; intros Hk; autorewrite with go_string; simpl.
  - by rewrite decide_True.
  - simpl in Hk. destruct (decide (c = sep)).
    + injection Hk as Hk. pose proof (Split_nonempty sep k). by destruct (Split sep k).
    + destruct (Split sep k) as [|p ps] eqn:E; [by destruct (Split_nonempty sep k)|].
      injection Hk as -> ->. by rewrite IH.
Qed.

(** Type parameters that are written as [key=value] are read back, the last
    one of a key; a key holds no equals sign and no blanks around it, a value may hold
    both but the blanks around it. *)
Theorem parseTypeParams_roundtrip (l : list (string * string)) :
  Forall (λ kv, kv.1 ≠ "" ∧ trimmed kv.1 ∧ Split "=" kv.1 = [kv.1] ∧ trimmed kv.2) l →
  parseTypeParams (map type_param l) = Ok (KVListMap l).
Proof.
  intros Hl. unfold parseTypeParams, KVListMap. revert Hl. generalize (∅ : gmap string string).
  induction l as [|[k v] l IH]; intros m Hl; [done|].
  apply list.Forall_cons in Hl as [(Hne & Hk & Hs & Hv) Hl]. cbn [fst snd] in *.
  cbn [map parse_type_params foldl fst snd]. rewrite <-IH by done.
  unfold parse_type_param, type_param. cbn [fst snd]. rewrite Split2_pair by done.
  rewrite bool_decide_false by (by destruct k). rewrite Hk, Hv. by rewrite bool_decide_false.
Qed.

(** C40 (bounds): the default value of an integer field is the number that is given, if it
    fits into 32 bits, or into 64 for a long field; that an 8 or 16 bit field holds less
    makes no difference. *)
Theorem GetDefaultValue_ints `{FloatSyntax} t z :
  in_s 64 z →
  GetDefaultValueForDataType DataType_Int64 (FormatInt z) = Ok (LongData z)
  ∧ (t ∈ [DataType_Int8; DataType_Int16; DataType_Int32] →
     GetDefaultValueForDataType t (FormatInt z)
     = if decide (in_s 32 z) then Ok (IntData z) else Err (Errorf "invalid syntax")).
Proof.
  intros Hz. unfold GetDefaultValueForDataType, ParseInt_w. rewrite ParseInt_FormatInt by done.
  cbn [mbind option_bind]. split; [by rewrite decide_True|]. intros Ht.
  assert (t ≠ DataType_Bool ∧ t ∉ [DataType_VarChar; DataType_String] ∧ t ≠ DataType_Int64) as (? & ? & ?).
  { revert t Ht. apply list.Forall_forall. clean_dec. }
  rewrite !bool_decide_false, bool_decide_true by done. case_decide as Hr; [|done].
  cbn [parsed]. by rewrite wraps_id.
Qed.

(** ** The commands *)
Section set_properties.
Context {K : Type} `{MetaKVLaws K} `{FloatSyntax} `{StrMapOrder} `{ConsistencyLevels}.
Context `{ProtoCodec CollectionInfo} `{ProtoCodec FieldSchema} `{ProtoCodec StructArrayFieldSchema}.
Context `{ProtoCodec FunctionSchema}.
Implicit Types (c : K).

Lemma UpdateField_dry c base cid fid fn : (UpdateField c base cid fid fn true).1 = c.
Proof. unfold UpdateField. by repeat case_match. Qed.

(** Without [run], [set field-attr] leaves the store as it is, whatever is
    stored and whatever the attributes are. *)
Theorem FieldAttr_dry base p c : fa_Run p = false → (FieldAttrCommand base p c).1 = c.
Proof.
  intros Hr. unfold FieldAttrCommand. case_bool_decide; [done|]. case_bool_decide; [done|].
  unfold mbind, cmd_bind, of_res. destruct (parseTypeParams _); [|done..]. rewrite Hr. apply UpdateField_dry.
Qed.

(** [set field-attr] writes the altered field at the newest entry of the
    field's history, and at the cached field if there is one, and nothing else. *)
Theorem FieldAttr_spec c base p toSet k v t x y bs :
  healthy c → is_path base → clean_keys (mk_map c) →
  0 < fa_CollectionID p → 0 <= fa_FieldID p → fa_Run p = true →
  parseTypeParams (fa_TypeParams p) = Ok toSet →
  newest c base (fa_CollectionID p) (fa_FieldID p) k v t →
  decoded v = Some x → alterField p toSet x = Ok y → encoded y = Ok bs →
  let cache := field_cache_key base (fa_CollectionID p) (fa_FieldID p) in
  let m := <[k := bs]> (mk_map c) in
  ∃ c', FieldAttrCommand base p c = (c', Ok tt) ∧ healthy c'
    ∧ mk_map c' = match m !! cache with Some _ => <[cache := bs]> m | None => m end.
Proof.
  intros Hc Hb Hclean Hcid Hfid Hr Hts Hnew Hd Ha He. unfold FieldAttrCommand.
  rewrite !bool_decide_false by lia. unfold mbind, cmd_bind, of_res. rewrite Hts, Hr.
  by destruct (UpdateField_newest c base _ _ _ k v t x y bs Hc Hb Hclean Hnew Hd Ha He) as [_ ?].
Qed.

(** [set collection consistency-level] writes the level when it is run, and
    does nothing without [run] or when the collection has the level already. *)
Theorem CollectionConsistencyLevel_spec c base id name level coll val info bs :
  healthy c → is_path (co_key coll) →
  ConsistencyLevel_value name = Some level → GetCollectionByIDVersion c base id = Ok coll →
  mk_map c !! co_key coll = Some val → decoded val = Some info →
  encoded (with_ConsistencyLevel info level) = Ok bs →
  CollectionConsistencyLevelCommand base id name false c = (c, Ok tt)
  ∧ ∃ c', CollectionConsistencyLevelCommand base id name true c = (c', Ok tt)
    ∧ mk_map c' = if bool_decide (ci_ConsistencyLevel (co_proto coll) = level) then mk_map c
                  else <[co_key coll := bs]> (mk_map c).
Proof.
  intros Hc Hp Hl Hg Hv Hd He.
  unfold CollectionConsistencyLevelCommand, mbind, cmd_bind, reads. rewrite Hl, Hg.
  case_bool_decide; [split; [done|by exists c]|].
  destruct (UpdateCollection_inverted c (co_key coll) (λ coll, with_ConsistencyLevel coll level) val info bs)
    as (Hd1 & c' & Hr & _ & Hm); [done..|]. split; [done|by exists c'].
Qed.
End set_properties.

(** ** Examples *)
#[local] Instance no_floats : FloatSyntax := {| ParseFloat32 _ := None; ParseFloat64 _ := None |}.
#[local] Instance listed_strings : StrMapOrder := {|
  range_str m := map_to_list m; range_str_perm m := Permutation_refl (map_to_list m) |}.
#[local] Instance sample_levels : ConsistencyLevels := {|
  ConsistencyLevel_value s := if bool_decide (s = "Bounded") then Some 2 else None |}.

Definition sample_attr (run : bool) : FieldAttrParam :=
  MkFieldAttr 1 101 false true "" ["max_length=64"] [] run.

Lemma alterField_type_params_witness :
  ∃ field', alterField (MkFieldAttr 1 101 true true "7" [] ["dim"] true) {["max_length" := "64"]}
      (with_attributes (sample_field 101 "old") false false None [("dim", "8"); ("max_length", "9")]) = Ok field'
    ∧ KVListMap (fs_TypeParams field') = {["max_length" := "64"]}.
Proof.
  set (p := MkFieldAttr 1 101 true true "7" [] ["dim"] true). set (toSet := {["max_length" := "64"]}).
  set (field := with_attributes (sample_field 101 "old") false false None [("dim", "8"); ("max_length", "9")]).
  assert (∃ field', alterField p toSet field = Ok field') as [field' Ha] by (eexists; vm_compute; reflexivity).
  exists field'. split; [exact Ha|]. rewrite (alterField_type_params p toSet field field' eq_refl Ha).
  vm_compute. reflexivity.
Defined.

Lemma parseTypeParams_roundtrip_witness :
  parseTypeParams ["max_length=64"; "expr=a=b"] = Ok {["max_length" := "64"; "expr" := "a=b"]}.
Proof.
  etrans; [apply (parseTypeParams_roundtrip [("max_length", "64"); ("expr", "a=b")])|vm_compute; reflexivity].
  repeat (constructor; [split_and!; (discriminate || (vm_compute; reflexivity))|]). constructor.
Defined.

Lemma GetDefaultValue_ints_witness :
  GetDefaultValueForDataType DataType_Int8 "40000" = Ok (IntData 40000).
Proof.
  etrans; [apply (GetDefaultValue_ints DataType_Int8 40000)|vm_compute; reflexivity]; [in_range|left].
Defined.

Lemma FieldAttr_dry_witness :
  (FieldAttrCommand "by-dev" (sample_attr false) sample_collections).1 = sample_collections.
Proof. apply FieldAttr_dry. reflexivity. Defined.
Definition sample_field_history : etcdKV (gmap string string) :=
  etcd_store [("by-dev/snapshots/root-coord/fields/1/100_ts1", "pk");
              ("by-dev/snapshots/root-coord/fields/1/101_ts1", "pk");
              ("by-dev/snapshots/root-coord/fields/1/101_ts5", "old");
              ("by-dev/root-coord/fields/1/101", "old")].

Definition altered_field : FieldSchema :=
  with_attributes (sample_field 101 "old") false true None [("max_length", "64")].
#[local] Instance altered_codec : ProtoCodec FieldSchema :=
  table_codec [("pk", sample_field 100 "pk"); ("old", sample_field 101 "old"); ("altered", altered_field)].

Lemma sample_newest :
  newest sample_field_history "by-dev" 1 101 "by-dev/snapshots/root-coord/fields/1/101_ts5" "old" 5.
Proof.
  unfold newest.
  assert (prefixed (mk_map sample_field_history) (field_history_key "by-dev" 1)
    = [("by-dev/snapshots/root-coord/fields/1/100_ts1", "pk");
       ("by-dev/snapshots/root-coord/fields/1/101_ts1", "pk");
       ("by-dev/snapshots/root-coord/fields/1/101_ts5", "old")]) as -> by (vm_compute; reflexivity).
  split; [clean_dec|]. split; [clean_dec|]. split; [vm_compute; reflexivity|].
  split; [lia|]. split; [done|]. intros k' v' t' Hin Hk.
  apply elem_of_cons in Hin as [[= -> ->]|Hin]; [vm_compute in Hk; discriminate Hk|].
  apply elem_of_cons in Hin as [[= -> ->]|Hin]; [vm_compute in Hk; injection Hk as <-; lia|].
  apply list_elem_of_singleton in Hin as [= -> ->]. vm_compute in Hk. by injection Hk as <-.
Qed.

Lemma FieldAttr_spec_witness :
  ∃ c', FieldAttrCommand "by-dev" (sample_attr true) sample_field_history = (c', Ok tt)
    ∧ mk_map c' !! "by-dev/snapshots/root-coord/fields/1/101_ts5" = Some "altered"
    ∧ mk_map c' !! "by-dev/root-coord/fields/1/101" = Some "altered"
    ∧ mk_map c' !! "by-dev/snapshots/root-coord/fields/1/101_ts1" = Some "pk".
Proof.
  destruct (FieldAttr_spec sample_field_history "by-dev" (sample_attr true) {["max_length" := "64"]}
    "by-dev/snapshots/root-coord/fields/1/101_ts5" "old" 5 (sample_field 101 "old") altered_field "altered")
    as (c' & Hr & _ & Hm).
  - apply etcd_store_healthy.
  - is_path_dec.
  - clean_dec.
  - reflexivity.
  - discriminate.
  - reflexivity.
  - vm_compute. reflexivity.
  - apply sample_newest.
  - vm_compute. reflexivity.
  - vm_compute. reflexivity.
  - vm_compute. reflexivity.
  - exists c'. split; [exact Hr|]. rewrite Hm. vm_compute. repeat split.
Defined.

Lemma CollectionConsistencyLevel_spec_witness :
  ∃ c', CollectionConsistencyLevelCommand "by-dev" 1 "Bounded" true sample_collections = (c', Ok tt)
    ∧ mk_map c' !! "by-dev/root-coord/collection/1" = Some "c1-strong".
Proof.
  destruct (CollectionConsistencyLevel_spec sample_collections "by-dev" 1 "Bounded" 2
    (MkCollection (with_Schema (sample_info 1 0 0)
       (with_Fields sample_schema [sample_field 100 "pk"; sample_field 101 "old"] []))
       "by-dev/root-coord/collection/1" []) "c1" (sample_info 1 0 0) "c1-strong") as [_ (c' & Hr & Hm)].
  - apply etcd_store_healthy.
  - is_path_dec.
  - vm_compute. reflexivity.
  - vm_compute. reflexivity.
  - vm_compute. reflexivity.
  - vm_compute. reflexivity.
  - vm_compute. reflexivity.
  - exists c'. split; [exact Hr|]. rewrite Hm. vm_compute. reflexivity.
Defined.
