(* ===== verification/WalMeta.v ===== *)
(** * WAL metadata

    What the streaming service keeps in the metadata store: the channels, the tasks that are
    broadcast and what is to be recovered ([states/etcd/common/wal_distribution.go],
    [wal_broadcast.go], [wal_recovery_storage.go]), and the two commands that repair it
    ([states/etcd/repair/wal_broadcast_task.go], [wal_recovery_storage.go]).  The decoders of
    message identifiers and the header of a broadcast message are those of the message
    libraries, an interface; base64 is the one of Go. *)
From S2P Require Export Commands.
From S2P Require Import Remove.

(** ** Base64

    [base64.StdEncoding.DecodeString]: ends of lines are skipped, the padding is needed and
    nothing may follow it. *)
Definition b64_value (c : ascii) : option Z :=
  let n := Z.of_nat (nat_of_ascii c) in
  if decide (65 <= n <= 90) then Some (n - 65)
  else if decide (97 <= n <= 122) then Some (n - 71)
  else if decide (48 <= n <= 57) then Some (n + 4)
  else if decide (c = "+"%char) then Some 62
  else if decide (c = "/"%char) then Some 63
  else None.

Fixpoint b64_chunks (s : string) : option (list byte) :=
  match s with
  | "" => Some []
  | String a (String b (String c (String d rest))) =>
      va ← b64_value a;
      vb ← b64_value b;
      let b0 := byte_of_Z (Z.lor (Z.shiftl va 2) (Z.shiftr vb 4)) in
      if decide (c = "="%char) then
        if bool_decide (d = "="%char) && bool_decide (rest = "") then Some [b0] else None
      else
        vc ← b64_value c;
        let b1 := byte_of_Z (Z.land (Z.lor (Z.shiftl vb 4) (Z.shiftr vc 2)) 255) in
        if decide (d = "="%char) then if bool_decide (rest = "") then Some [b0; b1] else None
        else
          vd ← b64_value d;
          bs ← b64_chunks rest;
          Some (b0 :: b1 :: byte_of_Z (Z.land (Z.lor (Z.shiftl vc 6) vd) 255) :: bs)
  | _ => None
  end.

Fixpoint skip_newlines (s : string) : string :=
  match s with
  | "" => ""
  | String c s => if bool_decide (nat_of_ascii c ∈ [10; 13]%nat) then skip_newlines s
                  else String c (skip_newlines s)
  end.
Definition base64_DecodeString (s : string) : res (list byte) :=
  match b64_chunks (skip_newlines s) with
  | Some bs => Ok bs
  | None => Err (Errorf "illegal base64 data")
  end.

Example base64_ex : base64_DecodeString "TWFu" = Ok (bytes_of_string "Man").
Proof. vm_compute. reflexivity. Qed.
Example base64_pad_ex : base64_DecodeString "TQ==" = Ok (bytes_of_string "M").
Proof. vm_compute. reflexivity. Qed.
Example base64_bad_ex : base64_DecodeString "TQ=" = Err (Errorf "illegal base64 data").
Proof. vm_compute. reflexivity. Qed.

(** ** The messages *)
Record ReplicateCheckpoint := MkReplicateCheckpoint {
  rc_ClusterId : string;
  rc_MessageId : option string;
  rc_TimeTick : Z;
}.
Record WALCheckpoint := MkWALCheckpoint {
  wc_MessageId : option string;
  wc_TimeTick : Z;
  wc_ReplicateCheckpoint : option ReplicateCheckpoint;
}.
Record SegmentAssignmentMeta := MkSegmentAssignment {
  sa_SegmentId : Z;
  sa_Vchannel : string;
  sa_CheckpointTimeTick : Z;
  sa_Stat : option (Z * Z);
  sa_rest : string;
}.
Record CollectionSchemaOfVChannel := MkVSchema {
  vs_Schema : option CollectionSchema;
  vs_CheckpointTimeTick : Z;
  vs_State : Z;
}.
Record CollectionInfoOfVChannel := MkVCollection {
  vc_CollectionId : Z;
  vc_Schemas : list CollectionSchemaOfVChannel;
  vc_rest : string;
}.
Record VChannelMeta := MkVChannel {
  vm_Vchannel : string;
  vm_CollectionInfo : option CollectionInfoOfVChannel;
  vm_rest : string;
}.
Record PChannelMeta := MkPChannel { pm_Channel : option string; pm_rest : string }.
Record BroadcastTask := MkBroadcastTask {
  bt_Payload : list byte;
  bt_Properties : list (string * string);
  bt_AckedCheckpoints : list (option string);
  bt_AckedVchannelBitmap : list byte;
  bt_State : Z;
  bt_rest : string;
}.
#[export] Instance ReplicateCheckpoint_eq_dec : EqDecision ReplicateCheckpoint.
Proof. solve_decision. Defined.
#[export] Instance WALCheckpoint_eq_dec : EqDecision WALCheckpoint.
Proof. solve_decision. Defined.
#[export] Instance SegmentAssignmentMeta_eq_dec : EqDecision SegmentAssignmentMeta.
Proof. solve_decision. Defined.
#[export] Instance CollectionSchemaOfVChannel_eq_dec : EqDecision CollectionSchemaOfVChannel.
Proof. solve_decision. Defined.
#[export] Instance CollectionInfoOfVChannel_eq_dec : EqDecision CollectionInfoOfVChannel.
Proof. solve_decision. Defined.
#[export] Instance VChannelMeta_eq_dec : EqDecision VChannelMeta.
Proof. solve_decision. Defined.
#[export] Instance PChannelMeta_eq_dec : EqDecision PChannelMeta.
Proof. solve_decision. Defined.
#[export] Instance BroadcastTask_eq_dec : EqDecision BroadcastTask.
Proof. solve_decision. Defined.

(** The states of [streamingpb] that the program sets, the virtual channels in the header of a
    broadcast message, and [funcutil.ToPhysicalChannel]. *)
Class Streaming := {
  BROADCAST_TASK_STATE_PENDING : Z;
  VCHANNEL_SCHEMA_STATE_NORMAL : Z;
  BroadcastHeader_VChannels : list byte → list (string * string) → list string;
  funcutil_ToPhysicalChannel : string → string;
}.

(** ** Message identifiers *)

(** The decoders of the message libraries: [pulsar.DeserializeMessageID] with the parts that
    are printed, [message.DecodeUint64], [wp.UnmarshalMessageID] with [String]. *)
Class MessageIDs := {
  pulsar_Deserialize : list byte → res (Z * Z * Z);
  DecodeUint64 : string → res Z;
  wp_UnmarshalMessageID : list byte → res string;
}.

Section message_ids.
Context `{MessageIDs}.

(** An entry of the map; a name that is not in it gives a nil function. *)
Definition walNameUnmarshaler (walName b : string) : res string :=
  if bool_decide (walName = "pulsar") then
    bytes ← base64_DecodeString b;
    '(ledger, entry, batch) ← pulsar_Deserialize bytes;
    Ok (FormatInt ledger +:+ "/" +:+ FormatInt entry +:+ "/" +:+ FormatInt batch)
  else if bool_decide (walName ∈ ["kafka"; "rmq"]) then
    msgID ← DecodeUint64 b;
    Ok (FormatInt msgID)
  else if bool_decide (walName = "wp") then
    bytes ← base64_DecodeString b;
    wp_UnmarshalMessageID bytes
  else Panic nil_dereference.

Fixpoint guess_wal (names : list string) (id : string) : res (string * string) :=
  match names with
  | [] => Ok ("", id +:+ "[unknown]")
  | walName :: names =>
      match walNameUnmarshaler walName id with
      | Panic w => Panic w
      | Err _ => guess_wal names id
      | Ok messageIDString =>
          if bool_decide (walName = "kafka") then
            match ParseUint messageIDString with
            | None => Panic "invalid syntax"
            | Some n => if bool_decide (400000000000000000 < n) then guess_wal names id
                        else Ok (walName, messageIDString)
            end
          else Ok (walName, messageIDString)
      end
  end.
Definition GuessWALName (id : string) : res (string * string) :=
  guess_wal ["pulsar"; "kafka"; "rmq"; "wp"] id.

Definition GetMessageIDString (walName id : string) : res string :=
  if bool_decide (walName = "") then '(_, id) ← GuessWALName id; Ok id
  else
    match walNameUnmarshaler walName id with
    | Panic w => Panic w
    | Err _ => Ok (id +:+ "[unknown]")
    | Ok messageIDString => Ok messageIDString
    end.

(** ** How they are printed *)
Definition FormatSegmentAssignmentMeta (segment : SegmentAssignmentMeta) : res string :=
  '(rows, size) ← deref (sa_Stat segment);
  Ok (FormatInt (sa_SegmentId segment) +:+ "@" +:+ FormatInt (sa_CheckpointTimeTick segment)
      +:+ "[" +:+ FormatInt rows +:+ "," +:+ FormatInt size +:+ "]").

Definition FormatSchema (schema : CollectionSchemaOfVChannel) : string :=
  "schema@" +:+ FormatInt (vs_CheckpointTimeTick schema).

Definition FormatReplicateWALCheckpoint (walName : string) (checkpoint : ReplicateCheckpoint) : res string :=
  id ← (match rc_MessageId checkpoint with
        | None => Ok "none"
        | Some id => GetMessageIDString walName id
        end);
  Ok (id +:+ "@" +:+ FormatInt (rc_TimeTick checkpoint) +:+ ":" +:+ rc_ClusterId checkpoint).

Definition FormatWALCheckpoint (walName : string) (checkpoint : WALCheckpoint) : res string :=
  messageId ← deref (wc_MessageId checkpoint);
  id ← GetMessageIDString walName messageId;
  match wc_ReplicateCheckpoint checkpoint with
  | None => Ok (id +:+ "@" +:+ FormatInt (wc_TimeTick checkpoint))
  | Some replicate =>
      r ← FormatReplicateWALCheckpoint walName replicate;
      Ok (id +:+ "@" +:+ FormatInt (wc_TimeTick checkpoint) +:+ "," +:+ r)
  end.
End message_ids.

(** ** The store *)
Definition walRecoveryStoragePrefix := "streamingnode-meta/wal/".
Definition walRecoveryStorageDirectorySegmentAssign := "segment-assign".
Definition walRecoveryStorageDirectoryVChannel := "vchannel".
Definition walRecoveryStorageDirectorySchema := "schema".
Definition walRecoveryStorageConsumeCheckpoint := "consume-checkpoint".
Definition walBroadcastPrefix := "streamingcoord-meta/broadcast-task/".
Definition walDistributionPrefix := "streamingcoord-meta/pchannel/".
Definition ErrBroadcastTaskNotFound : goerr := Errorf "broadcast task not found".

Record RecoveryStorageMeta := MkRecovery {
  rs_Channel : PChannelMeta;
  rs_Checkpoints : option WALCheckpoint;
  rs_VChannels : list VChannelMeta;
  rs_Segments : gmap string (list SegmentAssignmentMeta);
  rs_RedundantSchemas : gmap string (list CollectionSchemaOfVChannel);
  rs_RedundantSegments : gmap string (list SegmentAssignmentMeta);
}.

(** The variables of the loop over the keys. *)
Record wal_entries := WalEntries {
  we_checkpoint : option WALCheckpoint;
  we_vchannels : list VChannelMeta;
  we_schemas : gmap string (list CollectionSchemaOfVChannel);
  we_segments : gmap string (list SegmentAssignmentMeta);
}.
Definition no_entries : wal_entries := WalEntries None [] ∅ ∅.

(** [m[k] = append(m[k], x)]. *)
Definition push_group {A} (m : gmap string (list A)) (k : string) (x : A) : gmap string (list A) :=
  <[k := default [] (m !! k) ++ [x]]> m.

Definition removePrefix (keys : list string) (prefix : string) : list string :=
  map (λ key, TrimPrefix key prefix) keys.

Definition with_Schemas (v : VChannelMeta) (schemas : list CollectionSchemaOfVChannel) : res VChannelMeta :=
  info ← deref (vm_CollectionInfo v);
  Ok (MkVChannel (vm_Vchannel v) (Some (MkVCollection (vc_CollectionId info) schemas (vc_rest info))) (vm_rest v)).

(** The loop over the virtual channels; the messages are shared with the result. *)
Fixpoint assign_vchannels (vchannels : list VChannelMeta) (schemas : gmap string (list CollectionSchemaOfVChannel))
    (segments groups : gmap string (list SegmentAssignmentMeta))
    : res (list VChannelMeta * gmap string (list CollectionSchemaOfVChannel)
           * gmap string (list SegmentAssignmentMeta) * gmap string (list SegmentAssignmentMeta)) :=
  match vchannels with
  | [] => Ok ([], schemas, segments, groups)
  | v :: vchannels =>
      let name := vm_Vchannel v in
      '(v, schemas) ← (match schemas !! name with
                       | Some l => v ← with_Schemas v l; Ok (v, delete name schemas)
                       | None => Ok (v, schemas)
                       end);
      let '(segments, groups) := match segments !! name with
                                 | Some l => (delete name segments, <[name := l]> groups)
                                 | None => (segments, groups)
                                 end in
      '(vs, schemas, segments, groups) ← assign_vchannels vchannels schemas segments groups;
      Ok (v :: vs, schemas, segments, groups)
  end.

Section wal_store.
Context {K : Type} `{MetaKV K} `{Streaming}.
Context `{ProtoCodec WALCheckpoint} `{ProtoCodec SegmentAssignmentMeta} `{ProtoCodec VChannelMeta}.
Context `{ProtoCodec CollectionSchemaOfVChannel} `{ProtoCodec PChannelMeta} `{ProtoCodec BroadcastTask}.
Context `{ProtoCodec CollectionInfo} `{ProtoCodec FieldSchema} `{ProtoCodec StructArrayFieldSchema}.
Context `{ProtoCodec FunctionSchema}.

(** One key without the prefix: a key that is not known is logged and skipped. *)
Definition wal_entry (st : wal_entries) (key val : string) : res wal_entries :=
  let bytes := bytes_of_string val in
  match Split "/" key with
  | [] => Panic "index out of range"
  | k0 :: ks =>
      if bool_decide (k0 = walRecoveryStorageConsumeCheckpoint) then
        cp ← proto_Unmarshal bytes;
        Ok (WalEntries (Some cp) (we_vchannels st) (we_schemas st) (we_segments st))
      else if bool_decide (k0 = walRecoveryStorageDirectorySegmentAssign) then
        segment ← proto_Unmarshal bytes;
        Ok (WalEntries (we_checkpoint st) (we_vchannels st) (we_schemas st)
              (push_group (we_segments st) (sa_Vchannel segment) segment))
      else if bool_decide (k0 = walRecoveryStorageDirectoryVChannel) then
        match ks with
        | [_] =>
            vchannel ← proto_Unmarshal bytes;
            Ok (WalEntries (we_checkpoint st) (we_vchannels st ++ [vchannel]) (we_schemas st) (we_segments st))
        | [vchannel; directory; tick] =>
            if bool_decide (directory = walRecoveryStorageDirectorySchema) then
              schema ← proto_Unmarshal bytes;
              Ok (WalEntries (we_checkpoint st) (we_vchannels st)
                    (push_group (<[tick := []]> (we_schemas st)) vchannel schema) (we_segments st))
            else Ok st
        | _ => Ok st
        end
      else Ok st
  end.

Fixpoint wal_loop (st : wal_entries) (kvs : list (string * string)) : res wal_entries :=
  match kvs with
  | [] => Ok st
  | (key, val) :: kvs => st ← wal_entry st key val; wal_loop st kvs
  end.

Definition ListWALDistribution (cli : K) (basePath pchannel : string) : res (list PChannelMeta) :=
  let prefix := if bool_decide (pchannel = "") then path_Join [basePath; walDistributionPrefix] +:+ "/"
                else path_Join [basePath; walDistributionPrefix; pchannel] in
  '(metas, _) ← ListProtoObjects cli prefix [];
  Ok metas.

Definition ListWALRecoveryStorage (cli : K) (basePath pchannel : string) : res RecoveryStorageMeta :=
  channels ← ListWALDistribution cli basePath pchannel;
  match channels with
  | [] => Err (Errorf "channel not found")
  | channel :: _ =>
      let prefix := path_Join [basePath; walRecoveryStoragePrefix; pchannel] +:+ "/" in
      '(keys, vals) ← mk_LoadWithPrefix cli prefix false;
      st ← wal_loop no_entries (zip (removePrefix keys prefix) vals);
      '(vchannels, schemas, segments, groups) ←
        assign_vchannels (we_vchannels st) (we_schemas st) (we_segments st) ∅;
      Ok (MkRecovery channel (we_checkpoint st) vchannels groups schemas segments)
  end.

Definition schema_directory (basePath : string) (vchannel : VChannelMeta) : list string :=
  [basePath; walRecoveryStoragePrefix; funcutil_ToPhysicalChannel (vm_Vchannel vchannel);
   walRecoveryStorageDirectoryVChannel; vm_Vchannel vchannel; walRecoveryStorageDirectorySchema].

Definition SaveSchemaForVChannel (basePath : string) (vchannel : VChannelMeta)
    (schema : CollectionSchemaOfVChannel) : cmd K unit :=
  '(keys, _) ← reads (λ c, mk_LoadWithPrefix c (path_Join (schema_directory basePath vchannel)) false);
  match keys with
  | _ :: _ => stop (Errorf "schema already exists for vchannel")
  | [] =>
      schemaBytes ← of_res (encoded schema);
      λ c, mk_Save c (path_Join (schema_directory basePath vchannel ++ [FormatInt (vs_CheckpointTimeTick schema)]))
             schemaBytes
  end.

(** *** [wal_broadcast.go] *)
Definition ListWalBroadcast (cli : K) (basePath : string) : res (list BroadcastTask) :=
  '(metas, _) ← ListProtoObjects cli (path_Join [basePath; walBroadcastPrefix] +:+ "/") [];
  Ok metas.

Definition broadcast_key (basePath : string) (broadcastID : Z) : string :=
  path_Join [basePath; walBroadcastPrefix; FormatInt broadcastID].

Definition ListWalBroadcastByID (cli : K) (basePath : string) (broadcastID : Z) : res BroadcastTask :=
  '(metas, _) ← ListProtoObjects cli (broadcast_key basePath broadcastID) [];
  match metas with
  | [] => Err ErrBroadcastTaskNotFound
  | meta :: _ => Ok meta
  end.

Definition SaveWalBroadcastTask (basePath : string) (broadcastID : Z) (broadcastTask : BroadcastTask)
    : cmd K unit :=
  bs ← of_res (encoded broadcastTask);
  λ c, mk_Save c (broadcast_key basePath broadcastID) bs.

Definition RemoveWalBroadcastTask (basePath : string) (broadcastID : Z) : cmd K unit :=
  λ c, mk_RemoveWithPrefix c (broadcast_key basePath broadcastID).

(** *** [repair/wal_broadcast_task.go]; the printing of the task as JSON is left out. *)
Definition repairBroadcastTaskModeReset := "reset".
Definition repairBroadcastTaskModeRemove := "remove".

Definition reset_task (meta : BroadcastTask) : BroadcastTask :=
  let n := length (BroadcastHeader_VChannels (bt_Payload meta) (bt_Properties meta)) in
  MkBroadcastTask (bt_Payload meta) (bt_Properties meta) (replicate n None)
    (replicate n (byte_of_Z 0)) BROADCAST_TASK_STATE_PENDING (bt_rest meta).

Definition WALBroadcastTaskCommand (basePath mode : string) (broadcastID : Z) (run : bool) : cmd K unit :=
  if bool_decide (mode ∉ [repairBroadcastTaskModeReset; repairBroadcastTaskModeRemove])
  then stop (Errorf "invalid mode")
  else
    found ← attempt (reads (λ c, ListWalBroadcastByID c basePath broadcastID));
    match found with
    | Err e => if bool_decide (e = ErrBroadcastTaskNotFound) then mret tt else stop e
    | Panic w => of_res (Panic w)
    | Ok meta =>
        if negb run then mret tt
        else if bool_decide (mode = repairBroadcastTaskModeReset)
        then SaveWalBroadcastTask basePath broadcastID (reset_task meta)
        else RemoveWalBroadcastTask basePath broadcastID
    end.

(** *** [repair/wal_recovery_storage.go] *)

(** The virtual channels of a physical channel that have lost their schemas. *)
Definition lost_schema (v : VChannelMeta) : res (option VChannelMeta) :=
  info ← deref (vm_CollectionInfo v);
  Ok (if bool_decide (vc_Schemas info = []) then Some v else None).
Definition lost_schemas (vchannels : list VChannelMeta) : res (list VChannelMeta) :=
  lost ← mapR lost_schema vchannels; Ok (omap (M:=list) id lost).

Fixpoint need_fix (c : K) (basePath : string) (metas : list PChannelMeta) : res (list VChannelMeta) :=
  match metas with
  | [] => Ok []
  | meta :: metas =>
      pchannel ← deref (pm_Channel meta);
      storage ← ListWALRecoveryStorage c basePath pchannel;
      lost ← lost_schemas (rs_VChannels storage);
      rest ← need_fix c basePath metas;
      Ok (lost ++ rest)
  end.

Definition vchannel_collection (v : VChannelMeta) : res Z :=
  info ← deref (vm_CollectionInfo v); Ok (vc_CollectionId info).

(** The last collection of an identifier counts. *)
Definition collection_of (collections : list Collection) (id : Z) : option Collection :=
  List.find (λ x, bool_decide (ci_ID (co_proto x) = id)) (rev collections).

Definition vchannel_schema (collection : Collection) : res CollectionSchemaOfVChannel :=
  schema ← deref (ci_Schema (co_proto collection));
  Ok (MkVSchema (Some (MkSchema (cs_Name schema) (cs_Description schema) (cs_AutoID schema) (cs_Fields schema)
                         (cs_EnableDynamicField schema) (cs_DbName schema) (cs_StructArrayFields schema)
                         (map GetProto (co_Functions collection)) (ci_Properties (co_proto collection))))
        0 VCHANNEL_SCHEMA_STATE_NORMAL).

Definition fix_vchannel (basePath : string) (run : bool) (collections : list Collection) (v : VChannelMeta)
    : cmd K unit :=
  id ← of_res (vchannel_collection v);
  match collection_of collections id with
  | None => of_res (Panic nil_dereference)
  | Some collection =>
      schema ← of_res (vchannel_schema collection);
      if run then SaveSchemaForVChannel basePath v schema else mret tt
  end.

Definition WALRecoveryStorageCommand (basePath : string) (run : bool) : cmd K unit :=
  metas ← reads (λ c, ListWALDistribution c basePath "");
  needFix ← reads (λ c, need_fix c basePath metas);
  match needFix with
  | [] => mret tt
  | _ =>
      ids ← of_res (mapR vchannel_collection needFix);
      collections ← reads (λ c, ListCollections c basePath [λ x, bool_decide (ci_ID (co_proto x) ∈ ids)]);
      if forallb (λ id, bool_decide (is_Some (collection_of collections id))) ids
      then for_each (fix_vchannel basePath run collections) needFix
      else stop (Errorf "collection not found")
  end.
End wal_store.

(** ** Message identifiers *)

(** An identifier that is no identifier of Pulsar and decodes as a 64-bit number
    is taken for one of Kafka up to 400000000000000000, and for one of RocksMQ above. *)
Theorem GuessWALName_number `{MessageIDs} id e n :
  walNameUnmarshaler "pulsar" id = Err e → DecodeUint64 id = Ok n → in_u 64 n →
  GuessWALName id = Ok (if bool_decide (n <= 400000000000000000) then "kafka" else "rmq", FormatInt n).
Proof.
  intros Hp Hd Hn. unfold GuessWALName. cbn [guess_wal]. rewrite Hp.
  assert (∀ w, w ∈ ["kafka"; "rmq"] → walNameUnmarshaler w id = Ok (FormatInt n)) as Hw.
  { intros w Hw. unfold walNameUnmarshaler. rewrite bool_decide_false by (intros ->; set_solver).
    by rewrite bool_decide_true, Hd by done. }
  rewrite !Hw by set_solver. rewrite bool_decide_true by done. rewrite ParseUint_FormatInt by done.
  rewrite (bool_decide_false ("rmq" = _)) by done.
  repeat case_bool_decide; (done || lia).
Qed.

(** ** Broadcast tasks *)
Section wal_properties.
Context {K : Type} `{MetaKVLaws K} `{Streaming}.
Context `{ProtoCodec WALCheckpoint} `{ProtoCodec SegmentAssignmentMeta} `{ProtoCodec VChannelMeta}.
Context `{ProtoCodec CollectionSchemaOfVChannel} `{ProtoCodec PChannelMeta} `{ProtoCodec BroadcastTask}.
Context `{ProtoCodec CollectionInfo} `{ProtoCodec FieldSchema} `{ProtoCodec StructArrayFieldSchema}.
Context `{ProtoCodec FunctionSchema}.
Implicit Types (c : K) (m : gmap string string).

Definition task_key (base : string) (id : Z) : string :=
  joined [base; "streamingcoord-meta/broadcast-task"; FormatInt id].

Lemma broadcast_key_joined base id :
  is_path base → broadcast_key base id = task_key base id ∧ is_path (task_key base id).
Proof.
  intros Hb. assert (Forall is_path [base; "streamingcoord-meta/broadcast-task"; FormatInt id]) as Hp.
  { each_path. apply FormatInt_is_path. }
  split; [|by apply joined_is_path]. unfold broadcast_key.
  change walBroadcastPrefix with ("streamingcoord-meta/broadcast-task" +:+ "/"). by apply path_Join_slash.
Qed.

(** The task that the command finds: the first one whose key starts with the digits. *)
Definition found_task c (base : string) (id : Z) : option BroadcastTask :=
  head (objects (T:=BroadcastTask) c (task_key base id)).

Lemma ListWalBroadcastByID_up c base id :
  healthy c → is_path base →
  ListWalBroadcastByID c base id
  = match found_task c base id with Some meta => Ok meta | None => Err ErrBroadcastTaskNotFound end.
Proof.
  intros Hc Hb. destruct (broadcast_key_joined base id Hb) as [Hk Hp]. unfold ListWalBroadcastByID, found_task.
  rewrite Hk, ListProtoObjects_healthy by done. cbn [mbind res_bind]. by destruct (objects _ _).
Qed.

(** [repair wal-broadcast-task] takes the first task whose identifier starts with
    the given digits, which may be another one's.  To reset it is to save it under the
    given identifier.  To remove it changes nothing, as nothing is stored below the key of
    a task; both report success. *)
Theorem WALBroadcastTask_spec c base id meta bs :
  healthy c → is_path base → found_task c base id = Some meta →
  map_Forall (λ k _, HasPrefix k (task_key base id +:+ "/") = false) (mk_map c) →
  encoded (reset_task meta) = Ok bs →
  (∃ c', WALBroadcastTaskCommand base "reset" id true c = (c', Ok tt)
     ∧ mk_map c' = <[task_key base id := bs]> (mk_map c))
  ∧ ∃ c', WALBroadcastTaskCommand base "remove" id true c = (c', Ok tt) ∧ mk_map c' = mk_map c.
Proof.
  intros Hc Hb Hf Hno He. destruct (broadcast_key_joined base id Hb) as [Hk Hp].
  assert (∀ (mode : string) k, mode ∈ ["reset"; "remove"] →
    WALBroadcastTaskCommand base mode id true c = k →
    (if bool_decide (mode = repairBroadcastTaskModeReset)
     then SaveWalBroadcastTask base id (reset_task meta)
     else RemoveWalBroadcastTask base id) c = k) as Hcmd.
  { intros mode k Hm. unfold WALBroadcastTaskCommand. rewrite bool_decide_false by (intros Hn; by apply Hn).
    unfold mbind at 1, cmd_bind at 1, attempt at 1, reads at 1.
    by rewrite ListWalBroadcastByID_up, Hf. }
  split.
  - destruct (healthy_Save c _ bs Hc Hp) as (c' & Hs & _ & Hm). exists c'. split; [|done].
    specialize (Hcmd "reset" _ ltac:(set_solver) eq_refl). rewrite <-Hcmd. rewrite bool_decide_true by done.
    unfold SaveWalBroadcastTask, mbind, cmd_bind, of_res. rewrite He, Hk. exact Hs.
  - destruct (healthy_RemoveWithPrefix c _ Hc Hp) as (c' & Hr & _ & Hm). exists c'. split.
    + specialize (Hcmd "remove" _ ltac:(set_solver) eq_refl). rewrite <-Hcmd. rewrite bool_decide_false by done.
      unfold RemoveWalBroadcastTask. rewrite Hk. exact Hr.
    + rewrite Hm. by apply map_filter_id.
Qed.

(** ** The recovery storage *)

(** The segments that are assigned to a virtual channel, in the order of their keys. *)
Definition assigned (entries : list (string * string)) (name : string) : list SegmentAssignmentMeta :=
  filter (λ s, sa_Vchannel s = name)
    (omap (λ kv, match Split "/" kv.1 with
                 | k0 :: _ => if bool_decide (k0 = walRecoveryStorageDirectorySegmentAssign)
                              then decoded kv.2 else None
                 | [] => None end) entries).

Definition some_group {A} (l : list A) : option (list A) := match l with [] => None | _ => Some l end.

Lemma push_group_lookup {A} (m : gmap string (list A)) k x n :
  push_group m k x !! n = if bool_decide (n = k) then Some (default [] (m !! k) ++ [x]) else m !! n.
Proof.
  unfold push_group. case_bool_decide as Hn; [subst; by rewrite lookup_insert_eq|by rewrite lookup_insert_ne].
Qed.

Lemma wal_entry_segments st k v st' n :
  wal_entry st k v = Ok st' →
  we_segments st' !! n = some_group (default [] (we_segments st !! n) ++ assigned [(k, v)] n)
  ∨ (assigned [(k, v)] n = [] ∧ we_segments st' !! n = we_segments st !! n).
Proof.
  unfold wal_entry, assigned. cbn [omap list_omap fst snd].
  destruct (Split "/" k) as [|k0 ks]; [done|].
  case_bool_decide as Hcp.
  { intros Hr. right. apply res_bind_Ok in Hr as (cp & _ & [= <-]). by rewrite bool_decide_false by (by subst k0). }
  case_bool_decide as Hsa.
  { intros Hr. apply res_bind_Ok in Hr as (s & Hd & [= <-]). cbn [we_segments]. unfold decoded. rewrite Hd.
    rewrite filter_cons. cbn [filter list_filter]. rewrite push_group_lookup.
    destruct (decide (sa_Vchannel s = n)) as [->|Hn].
    - left. rewrite bool_decide_true by done. by destruct (default [] _).
    - right. rewrite bool_decide_false by (by intros ->). done. }
  intros Hr. right. split; [done|]. case_bool_decide; [|by injection Hr as <-].
  destruct ks as [|k1 [|k2 [|k3 [|]]]]; try (by injection Hr as <-).
  - by apply res_bind_Ok in Hr as (v' & _ & [= <-]).
  - case_bool_decide; [|by injection Hr as <-]. by apply res_bind_Ok in Hr as (v' & _ & [= <-]).
Qed.

Lemma wal_loop_segments kvs st st' n :
  wal_loop st kvs = Ok st' → (∀ l, we_segments st !! n = Some l → l ≠ []) →
  we_segments st' !! n = some_group (default [] (we_segments st !! n) ++ assigned kvs n).
Proof.
  revert st. induction kvs as [|[k v] kvs IH]; intros st Hl Hne; cbn [wal_loop] in Hl.
  { injection Hl as <-. unfold assigned. cbn. rewrite app_nil_r.
    destruct (we_segments st !! n) as [l|] eqn:E; [|done]. cbn. specialize (Hne l eq_refl). by destruct l. }
  apply res_bind_Ok in Hl as (st1 & He & Hl).
  assert (assigned ((k, v) :: kvs) n = assigned [(k, v)] n ++ assigned kvs n) as ->.
  { unfold assigned. rewrite <-list.filter_app. f_equal. cbn [omap list_omap]. by case_match. }
  destruct (wal_entry_segments st k v st1 n He) as [E|[E1 E2]].
  - assert (default [] (we_segments st1 !! n) = default [] (we_segments st !! n) ++ assigned [(k, v)] n) as Hd.
    { rewrite E. by destruct (_ ++ _). }
    rewrite (IH st1 Hl), Hd, (assoc_L (++)); [done|]. intros l El. rewrite E in El.
    destruct (_ ++ _); [done|]. by injection El as <-.
  - rewrite E1, app_nil_l. rewrite <-E2. apply IH; [done|]. by rewrite E2.
Qed.

Lemma assign_vchannels_maps vs schemas segs groups vs' schemas' segs' groups' n :
  assign_vchannels vs schemas segs groups = Ok (vs', schemas', segs', groups') →
  map vm_Vchannel vs' = map vm_Vchannel vs
  ∧ schemas' !! n = (if bool_decide (n ∈ map vm_Vchannel vs) then None else schemas !! n)
  ∧ segs' !! n = (if bool_decide (n ∈ map vm_Vchannel vs) then None else segs !! n)
  ∧ groups' !! n = (if bool_decide (n ∈ map vm_Vchannel vs)
                    then match segs !! n with Some l => Some l | None => groups !! n end else groups !! n).
Proof.
  revert schemas segs groups vs'. induction vs as [|v vs IH]; intros schemas segs groups vs'; cbn [assign_vchannels].
  { intros [= <- <- <- <-]. by rewrite bool_decide_false by (apply not_elem_of_nil). }
  intros Ha. apply res_bind_Ok in Ha as ([v1 schemas1] & Hv & Ha).
  assert (vm_Vchannel v1 = vm_Vchannel v ∧ schemas1 !! n = if bool_decide (n = vm_Vchannel v) then None else schemas !! n)
    as [Hn1 Hs1].
  { clear IH. destruct (schemas !! vm_Vchannel v) as [l|] eqn:E.
    - apply res_bind_Ok in Hv as (v2 & Hw & [= <- <-]). apply res_bind_Ok in Hw as (info & _ & [= <-]).
      split; [done|]. case_bool_decide as Hn; [by rewrite Hn, lookup_delete_eq|by rewrite lookup_delete_ne].
    - injection Hv as <- <-. split; [done|]. case_bool_decide as Hn; [by rewrite Hn|done]. }
  destruct (match segs !! vm_Vchannel v with Some l => _ | None => _ end) as [segs1 groups1] eqn:Hg.
  assert (segs1 !! n = (if bool_decide (n = vm_Vchannel v) then None else segs !! n)
    ∧ groups1 !! n = (if bool_decide (n = vm_Vchannel v)
                      then match segs !! n with Some l => Some l | None => groups !! n end else groups !! n)) as [Hs2 Hg2].
  { clear IH. destruct (segs !! vm_Vchannel v) as [l|] eqn:E; injection Hg as <- <-; case_bool_decide as Hn; rewrite ?Hn.
    - by rewrite lookup_delete_eq, lookup_insert_eq, E.
    - by rewrite lookup_delete_ne, lookup_insert_ne.
    - by rewrite E.
    - done. }
  apply res_bind_Ok in Ha as ([[[vs1 schemas2] segs2] groups2] & Ha & [= <- <- <- <-]).
  destruct (IH _ _ _ _ Ha) as (Hnames & Hsch & Hseg & Hgr). cbn [map]. rewrite Hnames, Hn1.
  rewrite Hsch, Hseg, Hgr, Hs1, Hs2, Hg2. split; [done|].
  rewrite (bool_decide_ext (n ∈ vm_Vchannel v :: map vm_Vchannel vs) (n = vm_Vchannel v ∨ n ∈ map vm_Vchannel vs))
    by (by rewrite elem_of_cons).
  rewrite bool_decide_or. repeat case_bool_decide; simpl; repeat case_match; done.
Qed.

(** The keys below a channel's directory, without it. *)
Definition recovery_dir (base pchannel : string) : string :=
  joined [base; "streamingnode-meta/wal"; pchannel] +:+ "/".
Definition recovery_entries c (base pchannel : string) : list (string * string) :=
  map (λ kv, (TrimPrefix kv.1 (recovery_dir base pchannel), kv.2)) (prefixed (mk_map c) (recovery_dir base pchannel)).

Lemma ListWALRecoveryStorage_up c base pchannel rs :
  healthy c → is_path base → is_path pchannel → ListWALRecoveryStorage c base pchannel = Ok rs →
  ∃ st vs, wal_loop no_entries (recovery_entries c base pchannel) = Ok st
    ∧ assign_vchannels (we_vchannels st) (we_schemas st) (we_segments st) ∅
      = Ok (vs, rs_RedundantSchemas rs, rs_RedundantSegments rs, rs_Segments rs)
    ∧ rs_VChannels rs = vs ∧ rs_Checkpoints rs = we_checkpoint st.
Proof.
  intros Hc Hb Hp Hl. unfold ListWALRecoveryStorage in Hl.
  apply res_bind_Ok in Hl as (channels & _ & Hl). destruct channels as [|channel channels]; [done|].
  assert (Forall is_path [base; "streamingnode-meta/wal"; pchannel]) as Hps by each_path.
  assert (path_Join [base; walRecoveryStoragePrefix; pchannel] = joined [base; "streamingnode-meta/wal"; pchannel]) as Hj.
  { change walRecoveryStoragePrefix with ("streamingnode-meta/wal" +:+ "/"). by apply path_Join_slash. }
  rewrite Hj, law_LoadWithPrefix, healthy_key_dir in Hl by (try (by apply healthy_up); try done; by apply joined_is_path).
  cbv zeta in Hl. cbn [mbind res_bind] in Hl. fold (recovery_dir base pchannel) in Hl.
  assert (∀ l : list (string * string), zip (removePrefix (map fst l) (recovery_dir base pchannel)) (map snd l)
    = map (λ kv, (TrimPrefix kv.1 (recovery_dir base pchannel), kv.2)) l) as Hz
    by (intros l; induction l as [|[k v] l IH]; [done|]; cbn; by rewrite <-IH).
  rewrite Hz in Hl. fold (recovery_entries c base pchannel) in Hl.
  destruct (wal_loop no_entries (recovery_entries c base pchannel)) as [st| |] eqn:Hst; [|done..].
  cbn [mbind res_bind] in Hl.
  destruct (assign_vchannels _ _ _ _) as [[[[vs schemas] segs] groups]| |] eqn:Ha; [|done..].
  cbn [mbind res_bind] in Hl. injection Hl as <-. exists st, vs. done.
Qed.

(** Every segment that is assigned in the store is listed once: with its
    virtual channel if the store has that, and as redundant otherwise, in the order of
    the keys. *)
Theorem ListWALRecoveryStorage_segments c base pchannel rs name :
  healthy c → is_path base → is_path pchannel → ListWALRecoveryStorage c base pchannel = Ok rs →
  let l := some_group (assigned (recovery_entries c base pchannel) name) in
  let known := bool_decide (name ∈ map vm_Vchannel (rs_VChannels rs)) in
  rs_Segments rs !! name = (if known then l else None)
  ∧ rs_RedundantSegments rs !! name = (if known then None else l).
Proof.
  intros Hc Hb Hp Hl l known. destruct (ListWALRecoveryStorage_up c base pchannel rs Hc Hb Hp Hl)
    as (st & vs & Hloop & Ha & Hvs & _).
  destruct (assign_vchannels_maps _ _ _ _ _ _ _ _ name Ha) as (Hn & _ & Hseg & Hgr).
  unfold known. rewrite Hvs, Hn, Hseg, Hgr.
  rewrite (wal_loop_segments _ _ _ name Hloop) by (by intros ? [=]). change (default [] _) with ([] : list SegmentAssignmentMeta).
  rewrite app_nil_l. fold l. unfold some_group in l. split; case_bool_decide; try done. by destruct l.
Qed.

(** The ticks of the schemas that are stored. *)
Definition schema_tick (key : string) : option string :=
  match Split "/" key with
  | [k0; _; d; tick] => if bool_decide (k0 = walRecoveryStorageDirectoryVChannel)
                           && bool_decide (d = walRecoveryStorageDirectorySchema) then Some tick else None
  | _ => None
  end.

Lemma wal_loop_ticks kvs st st' t :
  wal_loop st kvs = Ok st' →
  is_Some (we_schemas st !! t) ∨ (∃ k v, (k, v) ∈ kvs ∧ schema_tick k = Some t) → is_Some (we_schemas st' !! t).
Proof.
  revert st. induction kvs as [|[k v] kvs IH]; intros st Hl Ht; cbn [wal_loop] in Hl.
  { injection Hl as <-. destruct Ht as [?|(k & v & Hin%elem_of_nil & _)]; done. }
  apply res_bind_Ok in Hl as (st1 & He & Hl). apply (IH st1 Hl).
  assert ((is_Some (we_schemas st !! t) ∨ schema_tick k = Some t) → is_Some (we_schemas st1 !! t)) as Hone.
  { clear -He. unfold wal_entry in He. unfold schema_tick. destruct (Split "/" k) as [|k0 ks]; [done|].
    case_bool_decide as Hcp.
    { apply res_bind_Ok in He as (cp & _ & [= <-]). intros [?|E]; [done|]. subst k0.
      by destruct ks as [|? [|? [|? []]]]. }
    case_bool_decide as Hsa.
    { apply res_bind_Ok in He as (cp & _ & [= <-]). intros [?|E]; [done|]. subst k0.
      by destruct ks as [|? [|? [|? []]]]. }
    case_bool_decide as Hv.
    2: { injection He as <-. intros [?|E]; [done|]. by destruct ks as [|? [|? [|? []]]]. }
    destruct ks as [|k1 [|k2 [|k3 [|]]]]; try (injection He as <-; by intros [?|?]).
    - apply res_bind_Ok in He as (x & _ & [= <-]). by intros [?|?].
    - case_bool_decide; [|injection He as <-; by intros [?|?]].
      apply res_bind_Ok in He as (x & _ & [= <-]). cbn [we_schemas]. intros Hx.
      rewrite push_group_lookup. case_bool_decide; [by eexists|].
      destruct (decide (k3 = t)) as [->|Hne]; [rewrite lookup_insert_eq; by eexists|].
      rewrite lookup_insert_ne by done. destruct Hx as [?|E]; [done|]. simpl in E. congruence. }
  destruct Ht as [Ht|(k' & v' & [[= -> ->]|Hin]%elem_of_cons & Ht)]; [left; auto..|].
  right. by exists k', v'.
Qed.

(** The tick of every schema that is stored is listed among the redundant
    schemas, as if it were the name of a virtual channel, although no schema is
    redundant. *)
Theorem ListWALRecoveryStorage_spurious c base pchannel rs k v t :
  healthy c → is_path base → is_path pchannel → ListWALRecoveryStorage c base pchannel = Ok rs →
  (k, v) ∈ recovery_entries c base pchannel → schema_tick k = Some t →
  t ∉ map vm_Vchannel (rs_VChannels rs) → is_Some (rs_RedundantSchemas rs !! t).
Proof.
  intros Hc Hb Hp Hl Hk Ht Hn. destruct (ListWALRecoveryStorage_up c base pchannel rs Hc Hb Hp Hl)
    as (st & vs & Hloop & Ha & Hvs & _).
  destruct (assign_vchannels_maps _ _ _ _ _ _ _ _ t Ha) as (Hnames & Hsch & _).
  rewrite Hvs, Hnames in Hn. rewrite Hsch, bool_decide_false by done.
  eapply wal_loop_ticks; [exact Hloop|]. right. by exists k, v.
Qed.
(** *** Repairing it *)
Definition schema_dir (base : string) (v : VChannelMeta) : string :=
  joined [base; "streamingnode-meta/wal"; funcutil_ToPhysicalChannel (vm_Vchannel v);
          walRecoveryStorageDirectoryVChannel; vm_Vchannel v; walRecoveryStorageDirectorySchema].
Definition channel_paths (v : VChannelMeta) : Prop :=
  is_path (vm_Vchannel v) ∧ is_path (funcutil_ToPhysicalChannel (vm_Vchannel v)).

Lemma schema_dir_joined base v t :
  is_path base → channel_paths v →
  path_Join (schema_directory base v) = schema_dir base v
  ∧ path_Join (schema_directory base v ++ [FormatInt t]) = schema_dir base v +:+ "/" +:+ FormatInt t
  ∧ is_path (schema_dir base v) ∧ is_path (schema_dir base v +:+ "/" +:+ FormatInt t).
Proof.
  intros Hb [Hv Hp]. unfold schema_directory.
  change walRecoveryStoragePrefix with ("streamingnode-meta/wal" +:+ "/").
  set (l := [funcutil_ToPhysicalChannel (vm_Vchannel v); walRecoveryStorageDirectoryVChannel; vm_Vchannel v;
             walRecoveryStorageDirectorySchema]).
  assert (Forall is_path (base :: "streamingnode-meta/wal" :: l)) as Hl by (unfold l; each_path).
  assert (is_path (schema_dir base v)) as Hd by (by apply joined_is_path).
  pose proof (FormatInt_is_path t) as Ht.
  split_and!; [by apply path_Join_slash| |done|by apply is_path_app].
  etrans; [apply (path_Join_slash base "streamingnode-meta/wal" (l ++ [FormatInt t]))|].
  - change (Forall is_path ((base :: "streamingnode-meta/wal" :: l) ++ [FormatInt t])).
    apply Forall_app. split; [done|by constructor].
  - unfold schema_dir, l, joined. cbn [app Join]. by rewrite !string_app_assoc.
Qed.

(** A schema is saved for a virtual channel only where the store has none, at
    a new key; then there is one, and no other can be saved. *)
Theorem SaveSchemaForVChannel_once c base v s s' bs :
  healthy c → is_path base → channel_paths v → prefixed (mk_map c) (schema_dir base v) = [] →
  encoded s = Ok bs →
  let key := schema_dir base v +:+ "/" +:+ FormatInt (vs_CheckpointTimeTick s) in
  ∃ c', SaveSchemaForVChannel base v s c = (c', Ok tt) ∧ healthy c'
    ∧ mk_map c !! key = None ∧ mk_map c' = <[key := bs]> (mk_map c)
    ∧ SaveSchemaForVChannel base v s' c' = (c', Err (Errorf "schema already exists for vchannel")).
Proof.
  intros Hc Hb Hv Hno He key.
  destruct (schema_dir_joined base v (vs_CheckpointTimeTick s) Hb Hv) as (Hj & Hk & Hd & Hp). fold key in Hk, Hp.
  assert (HasPrefix key (schema_dir base v) = true) as Hpre by apply HasPrefix_app.
  destruct (healthy_Save c key bs Hc Hp) as (c' & Hs & Hc' & Hm). exists c'.
  split; [|split; [done|split; [|split; [done|]]]].
  - unfold SaveSchemaForVChannel, mbind at 1, cmd_bind at 1, reads.
    rewrite Hj, Hk, law_LoadWithPrefix, healthy_key, Hno by (done || by apply healthy_up). cbn [map].
    unfold mbind, cmd_bind, of_res. rewrite He. exact Hs.
  - destruct (mk_map c !! key) as [w|] eqn:Hw; [|done].
    assert ((key, w) ∈ prefixed (mk_map c) (schema_dir base v)) as Hin by (by apply elem_of_prefixed).
    rewrite Hno in Hin. by apply not_elem_of_nil in Hin.
  - unfold SaveSchemaForVChannel, mbind at 1, cmd_bind at 1, reads.
    rewrite Hj, law_LoadWithPrefix, healthy_key by (done || by apply healthy_up). cbv zeta.
    assert ((key, bs) ∈ prefixed (mk_map c') (schema_dir base v)) as Hin
      by (apply elem_of_prefixed; by rewrite Hm, lookup_insert_eq).
    destruct (prefixed (mk_map c') (schema_dir base v)) as [|[k0 v0] l]; [by apply not_elem_of_nil in Hin|done].
Qed.
Lemma SaveSchemaForVChannel_extends c base v s :
  healthy c → is_path base → channel_paths v →
  ∃ c' r, SaveSchemaForVChannel base v s c = (c', r) ∧ healthy c' ∧ mk_map c ⊆ mk_map c'.
Proof.
  intros Hc Hb Hv. destruct (schema_dir_joined base v (vs_CheckpointTimeTick s) Hb Hv) as (Hj & Hk & Hd & Hp).
  unfold SaveSchemaForVChannel, mbind at 1, cmd_bind at 1, reads.
  rewrite Hj, Hk, law_LoadWithPrefix, healthy_key by (done || by apply healthy_up). cbv zeta.
  destruct (prefixed (mk_map c) (schema_dir base v)) as [|kv l] eqn:Hl; [|by eexists _, _]. cbn [map].
  unfold mbind, cmd_bind, of_res. destruct (encoded s) as [bs| |]; [|by eexists _, _..].
  destruct (healthy_Save c _ bs Hc Hp) as (c' & -> & Hc' & Hm). exists c', (Ok tt). split_and!; [done..|]. rewrite Hm.
  apply insert_subseteq. destruct (mk_map c !! _) as [w|] eqn:Hw; [|done].
  assert ((schema_dir base v +:+ "/" +:+ FormatInt (vs_CheckpointTimeTick s), w)
    ∈ prefixed (mk_map c) (schema_dir base v)) as Hin by (apply elem_of_prefixed; split; [done|apply HasPrefix_app]).
  rewrite Hl in Hin. by apply not_elem_of_nil in Hin.
Qed.

(** What a step does to the store, whatever its result. *)
Lemma for_each_extends {A} (f : A → cmd K unit) l c :
  healthy c →
  (∀ x c1, x ∈ l → healthy c1 → healthy (f x c1).1 ∧ mk_map c1 ⊆ mk_map (f x c1).1) →
  mk_map c ⊆ mk_map (for_each f l c).1.
Proof.
  revert c. induction l as [|x l IH]; intros c Hc Hf; [done|]. cbn [for_each].
  destruct (Hf x c (list_elem_of_here _ _) Hc) as [Hc1 Hm1]. unfold mbind, cmd_bind.
  destruct (f x c) as [c1 [[]|e|w]]; cbn [fst] in *; [|done..]. etrans; [exact Hm1|].
  apply IH; [done|]. intros y c2 Hy. apply Hf. by right.
Qed.

(** C28 (safety): [repair wal-recovery-storage] never changes or removes what is stored, and
    without [run] it leaves the store as it is. *)
Theorem WALRecoveryStorage_extends c base run vs :
  healthy c → is_path base →
  (metas ← ListWALDistribution c base ""; need_fix c base metas) = Ok vs → Forall channel_paths vs →
  mk_map c ⊆ mk_map (WALRecoveryStorageCommand base run c).1
  ∧ (run = false → (WALRecoveryStorageCommand base run c).1 = c).
Proof.
  intros Hc Hb Hn Hv. apply res_bind_Ok in Hn as (metas & Hd & Hn).
  assert (WALRecoveryStorageCommand base run c = (c, Ok tt) ∨ (∃ r, WALRecoveryStorageCommand base run c = (c, r))
    ∨ ∃ collections, WALRecoveryStorageCommand base run c = for_each (fix_vchannel base run collections) vs c)
    as [-> |[[r ->]|[collections ->]]]; [|done..|].
  { unfold WALRecoveryStorageCommand, mbind, cmd_bind, reads, of_res. rewrite Hd, Hn.
    destruct vs as [|v vs]; [by left|right]. destruct (mapR _ _) as [ids| |]; [|left; by eexists..].
    destruct (ListCollections _ _ _) as [collections| |]; [|left; by eexists..].
    destruct (forallb _ _); [right|left]; by eexists. }
  split.
  - apply for_each_extends; [done|]. intros x c1 Hx Hc1. unfold fix_vchannel, mbind, cmd_bind, of_res.
    destruct (vchannel_collection x) as [id| |]; [|done..].
    destruct (collection_of collections id) as [collection|]; [|done].
    destruct (vchannel_schema collection) as [schema| |]; [|done..]. destruct run; [|done].
    eapply list.Forall_forall in Hv; [|exact Hx].
    by destruct (SaveSchemaForVChannel_extends c1 base x schema Hc1 Hb Hv) as (c' & r & -> & ? & ?).
  - intros ->. clear. induction vs as [|x l IH]; [done|]. cbn [for_each]. unfold mbind at 1, cmd_bind at 1.
    assert ((fix_vchannel base false collections x c).1 = c) as Hx.
    { unfold fix_vchannel, mbind, cmd_bind, of_res. destruct (vchannel_collection x) as [id| |]; [|done..].
      destruct (collection_of collections id) as [collection|]; [|done]. by destruct (vchannel_schema collection). }
    destruct (fix_vchannel base false collections x c) as [c1 [[]|e|w]]; cbn [fst] in *; by subst.
Qed.
End wal_properties.

(** ** Examples *)

(** Identifiers of one decimal digit string; no Pulsar, no woodpecker. *)
#[local] Instance sample_ids : MessageIDs := {|
  pulsar_Deserialize _ := Err (Errorf "not an identifier");
  DecodeUint64 s := match ParseUint s with Some n => Ok n | None => Err (Errorf "invalid syntax") end;
  wp_UnmarshalMessageID _ := Err (Errorf "not an identifier");
|}.
#[local] Instance sample_streaming : Streaming := {|
  BROADCAST_TASK_STATE_PENDING := 1; VCHANNEL_SCHEMA_STATE_NORMAL := 1;
  BroadcastHeader_VChannels _ _ := ["dml_0_1v0"];
  funcutil_ToPhysicalChannel s := if bool_decide (s = "dml_0_1v0") then "dml_0" else s;
|}.

Lemma GuessWALName_number_witness : GuessWALName "450000000000000001" = Ok ("rmq", "450000000000000001").
Proof.
  etrans; [apply (GuessWALName_number "450000000000000001" (Errorf "illegal base64 data") 450000000000000001)
          |vm_compute; reflexivity]; [vm_compute; reflexivity..|in_range].
Defined.

Definition sample_broadcast (state : Z) : BroadcastTask := MkBroadcastTask [] [] [] [] state "".
Definition reset_broadcast : BroadcastTask := MkBroadcastTask [] [] [None] [byte_of_Z 0] 1 "".
Definition sample_vchannel : VChannelMeta := MkVChannel "dml_0_1v0" (Some (MkVCollection 1 [] "")) "".
Definition sample_vschema : CollectionSchemaOfVChannel := MkVSchema (Some sample_schema) 0 1.
#[local] Instance broadcast_codec : ProtoCodec BroadcastTask :=
  table_codec [("acked", sample_broadcast 2); ("reset", reset_broadcast)].
#[local] Instance checkpoint_codec : ProtoCodec WALCheckpoint := table_codec [].
#[local] Instance assignment_codec : ProtoCodec SegmentAssignmentMeta :=
  table_codec [("seg", MkSegmentAssignment 7 "dml_0_1v0" 5 None "")].
#[local] Instance vchannel_codec : ProtoCodec VChannelMeta := table_codec [("vch", sample_vchannel)].
#[local] Instance vschema_codec : ProtoCodec CollectionSchemaOfVChannel := table_codec [("schema", sample_vschema)].
#[local] Instance pchannel_codec : ProtoCodec PChannelMeta := table_codec [("pch", MkPChannel (Some "dml_0") "")].

Lemma WALBroadcastTask_spec_witness :
  let c := etcd_store [("by-dev/streamingcoord-meta/broadcast-task/12", "acked")] in
  (∃ c', WALBroadcastTaskCommand "by-dev" "reset" 1 true c = (c', Ok tt)
     ∧ mk_map c' !! "by-dev/streamingcoord-meta/broadcast-task/1" = Some "reset")
  ∧ ∃ c', WALBroadcastTaskCommand "by-dev" "remove" 1 true c = (c', Ok tt) ∧ mk_map c' = mk_map c.
Proof.
  intros c. destruct (WALBroadcastTask_spec c "by-dev" 1 (sample_broadcast 2) "reset") as [(c1 & Hr & Hm) Hrm].
  - apply etcd_store_healthy.
  - is_path_dec.
  - vm_compute. reflexivity.
  - clean_dec.
  - vm_compute. reflexivity.
  - split; [|exact Hrm]. exists c1. split; [exact Hr|]. rewrite Hm. vm_compute. reflexivity.
Defined.

(** A virtual channel with a schema, and a segment of it. *)
Definition sample_recovery : etcdKV (gmap string string) :=
  etcd_store [("by-dev/streamingcoord-meta/pchannel/dml_0", "pch");
              ("by-dev/streamingnode-meta/wal/dml_0/vchannel/dml_0_1v0", "vch");
              ("by-dev/streamingnode-meta/wal/dml_0/vchannel/dml_0_1v0/schema/9", "schema");
              ("by-dev/streamingnode-meta/wal/dml_0/segment-assign/7", "seg")].
Definition sample_storage : RecoveryStorageMeta :=
  MkRecovery (MkPChannel (Some "dml_0") "") None
    [MkVChannel "dml_0_1v0" (Some (MkVCollection 1 [sample_vschema] "")) ""]
    {["dml_0_1v0" := [MkSegmentAssignment 7 "dml_0_1v0" 5 None ""]]} {["9" := []]} ∅.

Lemma ListWALRecoveryStorage_segments_witness :
  rs_Segments sample_storage !! "dml_0_1v0" = Some [MkSegmentAssignment 7 "dml_0_1v0" 5 None ""].
Proof.
  destruct (ListWALRecoveryStorage_segments sample_recovery "by-dev" "dml_0" sample_storage "dml_0_1v0") as [Hs _].
  - apply etcd_store_healthy.
  - is_path_dec.
  - is_path_dec.
  - vm_compute. reflexivity.
  - etrans; [exact Hs|]. vm_compute. reflexivity.
Defined.

Lemma ListWALRecoveryStorage_spurious_witness : is_Some (rs_RedundantSchemas sample_storage !! "9").
Proof.
  apply (ListWALRecoveryStorage_spurious sample_recovery "by-dev" "dml_0" sample_storage
    "vchannel/dml_0_1v0/schema/9" "schema" "9").
  - apply etcd_store_healthy.
  - is_path_dec.
  - is_path_dec.
  - vm_compute. reflexivity.
  - clean_dec.
  - vm_compute. reflexivity.
  - clean_dec.
Defined.

Definition sample_lost : etcdKV (gmap string string) :=
  etcd_store [("by-dev/streamingcoord-meta/pchannel/dml_0", "pch");
              ("by-dev/streamingnode-meta/wal/dml_0/vchannel/dml_0_1v0", "vch");
              ("by-dev/root-coord/collection/1", "c1")].

Lemma SaveSchemaForVChannel_once_witness :
  ∃ c', SaveSchemaForVChannel "by-dev" sample_vchannel sample_vschema sample_lost = (c', Ok tt)
    ∧ mk_map c' !! "by-dev/streamingnode-meta/wal/dml_0/vchannel/dml_0_1v0/schema/0" = Some "schema".
Proof.
  destruct (SaveSchemaForVChannel_once sample_lost "by-dev" sample_vchannel sample_vschema sample_vschema "schema")
    as (c' & Hr & _ & _ & Hm & _).
  - apply etcd_store_healthy.
  - is_path_dec.
  - split; is_path_dec.
  - vm_compute. reflexivity.
  - vm_compute. reflexivity.
  - exists c'. split; [exact Hr|]. rewrite Hm. vm_compute. reflexivity.
Defined.

Lemma WALRecoveryStorage_extends_witness :
  mk_map sample_lost ⊆ mk_map (WALRecoveryStorageCommand "by-dev" true sample_lost).1.
Proof.
  apply (WALRecoveryStorage_extends sample_lost "by-dev" true [sample_vchannel]).
  - apply etcd_store_healthy.
  - is_path_dec.
  - vm_compute. reflexivity.
  - constructor; [|constructor]. split; is_path_dec.
Defined.
