(* ===== verification/Messages.v ===== *)
(** * Messages of the queues

    Models [src/mq]: the identifiers of messages ([kafka/kafka_id.go],
    [pulsar/pulsar_id.go]), field data by rows and columns ([utils.go]), the messages with
    their checks and conversions ([msg.go]), and how they are read from a payload
    ([unmarshal.go]).  The protobuf and Pulsar libraries are interfaces.  Contexts, which
    only carry traces, are left out. *)

From S2P Require Export Segments.
From S2P Require Import PrimaryKey.

(** ** Identifiers of messages *)
Record kafkaID := MkKafkaID { kid : Z }.

Definition SerializeKafkaID (messageID : Z) : list byte := le_put 8 (uint64 messageID).

(** [ifc.Endian.Uint64] reads the first eight bytes. *)
Definition DeserializeKafkaID (messageID : list byte) : res kafkaID :=
  if bool_decide (8 <= zlen messageID) then Ok (MkKafkaID (int64 (le_get (take 8 messageID))))
  else Panic "index out of range".

Definition kafka_AtEarliestPosition (k : kafkaID) : bool := bool_decide (kid k <= 0).
Definition kafka_Equal (k : kafkaID) (msgID : list byte) : res bool :=
  other ← DeserializeKafkaID msgID; Ok (bool_decide (kid k = kid other)).
Definition kafka_LessOrEqualThan (k : kafkaID) (msgID : list byte) : res bool :=
  other ← DeserializeKafkaID msgID; Ok (bool_decide (kid k <= kid other)).

Record PulsarID := MkPulsarID {
  pid_PartitionIdx : Z;
  pid_LedgerID : Z;
  pid_EntryID : Z;
  pid_BatchIdx : Z;
}.

(** The Pulsar client: an identifier that was serialized is read back. *)
Class PulsarClient := {
  pulsar_Serialize : PulsarID → list byte;
  pulsar_DeserializeMessageID : list byte → res PulsarID;
}.
Class PulsarLaws `{PulsarClient} := {
  pulsar_Deserialize_Serialize p : pulsar_DeserializeMessageID (pulsar_Serialize p) = Ok p;
}.

Section pulsar.
Context `{PulsarClient}.

Definition pulsar_AtEarliestPosition (p : PulsarID) : bool :=
  bool_decide (pid_PartitionIdx p <= 0) && bool_decide (pid_LedgerID p <= 0)
  && bool_decide (pid_EntryID p <= 0) && bool_decide (pid_BatchIdx p <= 0).

Definition pulsar_LessOrEqualThan (p : PulsarID) (msgID : list byte) : res bool :=
  q ← pulsar_DeserializeMessageID msgID;
  Ok (bool_decide (pid_LedgerID p <= pid_LedgerID q) && bool_decide (pid_EntryID p <= pid_EntryID q)
      && bool_decide (pid_BatchIdx p <= pid_BatchIdx q)).

Definition pulsar_Equal (p : PulsarID) (msgID : list byte) : res bool :=
  q ← pulsar_DeserializeMessageID msgID;
  Ok (bool_decide (pid_LedgerID p = pid_LedgerID q) && bool_decide (pid_EntryID p = pid_EntryID q)
      && bool_decide (pid_BatchIdx p = pid_BatchIdx q)).

(** [ParsePositionFromCheckpoint] of the usual build and of the one with Kafka. *)
Inductive AnyID := AnyPulsar (p : PulsarID) | AnyKafka (k : kafkaID).

Definition ParsePositionFromCheckpoint (mqType : string) (messageID : list byte) : res AnyID :=
  if bool_decide (mqType = "pulsar") then AnyPulsar <$> pulsar_DeserializeMessageID messageID
  else Err (Errorf "not supported mq type").

Definition ParsePositionFromCheckpoint_wkafka (mqType : string) (messageID : list byte) : res AnyID :=
  if bool_decide (mqType = "pulsar") then AnyPulsar <$> pulsar_DeserializeMessageID messageID
  else if bool_decide (mqType = "kafka") then AnyKafka <$> DeserializeKafkaID messageID
  else Err (Errorf "not supported mq type").

Definition ParseManualMessageID_wkafka (mqType : string) (manualID : Z) : res AnyID :=
  if bool_decide (mqType = "kafka") then AnyKafka <$> DeserializeKafkaID (SerializeKafkaID manualID)
  else Err (Errorf "not supported mq type").
End pulsar.

(** ** Field data

    The messages of [schemapb], as they are decoded: a pointer below a oneof is not nil.
    Floats are their bits.  [fd_Rest] has the fields that the code does not read. *)
Inductive ScalarData :=
  | ScalarField_Unset
  | ScalarField_BoolData (data : list bool)
  | ScalarField_IntData (data : list Z)
  | ScalarField_LongData (data : list Z)
  | ScalarField_FloatData (data : list Z)
  | ScalarField_DoubleData (data : list Z)
  | ScalarField_StringData (data : list string)
  | ScalarField_Other (raw : string).

Inductive VectorData :=
  | VectorField_Unset
  | VectorField_FloatVector (data : list Z)
  | VectorField_BinaryVector (data : list byte)
  | VectorField_Other (raw : string).

Inductive Field :=
  | FieldData_Unset
  | FieldData_Scalars (data : ScalarData)
  | FieldData_Vectors (dim : Z) (data : VectorData)
  | FieldData_Other (raw : string).

Record FieldData := MkFieldData {
  fd_Type : Z;
  fd_FieldName : string;
  fd_FieldId : Z;
  fd_Field : Field;
  fd_Rest : string;
}.

(** [l[a:b]] of a slice whose capacity is its length. *)
Definition go_slice {A} (l : list A) (a b : Z) : res (list A) :=
  if bool_decide (0 <= a <= b) && bool_decide (b <= zlen l)
  then Ok (take (Z.to_nat (b - a)) (drop (Z.to_nat a) l)) else Panic "slice bounds out of range".

(** One more row of a scalar field; data of another type is replaced. *)
Definition append_scalar (dst src : ScalarData) (idx : Z) : res ScalarData :=
  match src with
  | ScalarField_BoolData l =>
      x ← go_index l idx;
      Ok (ScalarField_BoolData (match dst with ScalarField_BoolData d => d ++ [x] | _ => [x] end))
  | ScalarField_IntData l =>
      x ← go_index l idx;
      Ok (ScalarField_IntData (match dst with ScalarField_IntData d => d ++ [x] | _ => [x] end))
  | ScalarField_LongData l =>
      x ← go_index l idx;
      Ok (ScalarField_LongData (match dst with ScalarField_LongData d => d ++ [x] | _ => [x] end))
  | ScalarField_FloatData l =>
      x ← go_index l idx;
      Ok (ScalarField_FloatData (match dst with ScalarField_FloatData d => d ++ [x] | _ => [x] end))
  | ScalarField_DoubleData l =>
      x ← go_index l idx;
      Ok (ScalarField_DoubleData (match dst with ScalarField_DoubleData d => d ++ [x] | _ => [x] end))
  | ScalarField_StringData l =>
      x ← go_index l idx;
      Ok (ScalarField_StringData (match dst with ScalarField_StringData d => d ++ [x] | _ => [x] end))
  | ScalarField_Unset | ScalarField_Other _ => Panic "Not supported field type"
  end.

Definition append_vector (dst src : VectorData) (dim idx : Z) : res VectorData :=
  match src with
  | VectorField_BinaryVector l =>
      let w := Z.quot dim 8 in
      x ← go_slice l (int64 (idx * w)) (int64 (int64 (idx + 1) * w));
      Ok (VectorField_BinaryVector (match dst with VectorField_BinaryVector d => d ++ x | _ => x end))
  | VectorField_FloatVector l =>
      x ← go_slice l (int64 (idx * dim)) (int64 (int64 (idx + 1) * dim));
      Ok (VectorField_FloatVector (match dst with VectorField_FloatVector d => d ++ x | _ => x end))
  | VectorField_Unset | VectorField_Other _ => Panic "Not supported field type"
  end.

(** One field; a field of the other kind is replaced by an empty one first. *)
Definition append_field (dst : option FieldData) (src : FieldData) (idx : Z) : res (option FieldData) :=
  let fresh f := MkFieldData (fd_Type src) (fd_FieldName src) (fd_FieldId src) f "" in
  let set d f := MkFieldData (fd_Type d) (fd_FieldName d) (fd_FieldId d) f (fd_Rest d) in
  match fd_Field src with
  | FieldData_Scalars s =>
      let d := match dst with
               | Some (MkFieldData _ _ _ (FieldData_Scalars _) _ as d) => d
               | _ => fresh (FieldData_Scalars ScalarField_Unset) end in
      match fd_Field d with
      | FieldData_Scalars sd => s' ← append_scalar sd s idx; Ok (Some (set d (FieldData_Scalars s')))
      | _ => Ok (Some d)
      end
  | FieldData_Vectors dim v =>
      let d := match dst with
               | Some (MkFieldData _ _ _ (FieldData_Vectors _ _) _ as d) => d
               | _ => fresh (FieldData_Vectors dim VectorField_Unset) end in
      match fd_Field d with
      | FieldData_Vectors dim' vd =>
          v' ← append_vector vd v dim idx; Ok (Some (set d (FieldData_Vectors dim' v')))
      | _ => Ok (Some d)
      end
  | FieldData_Unset | FieldData_Other _ => Ok dst
  end.

Definition touches (fd : FieldData) : bool :=
  match fd_Field fd with FieldData_Scalars _ | FieldData_Vectors _ _ => true | _ => false end.

(** The loop of [AppendFieldData] at field [i]; [dst[i]] may be out of range. *)
Fixpoint AppendFieldData (dst src : list (option FieldData)) (idx : Z) : res (list (option FieldData)) :=
  match src, dst with
  | [], _ => Ok dst
  | None :: _, _ => Panic "nil pointer dereference"
  | Some fd :: src, d :: dst =>
      d' ← append_field d fd idx;
      dst' ← AppendFieldData dst src idx;
      Ok (d' :: dst')
  | Some fd :: src, [] => if touches fd then Panic "index out of range" else AppendFieldData [] src idx
  end.

Definition getNumRowsOfScalarField {A} (l : list A) : Z := uint64 (zlen l).

Definition getNumRowsOfFloatVectorField (fDatas : list Z) (dim : Z) : res Z :=
  if bool_decide (dim <= 0) then Err (Errorf "dim should be greater than 0")
  else if bool_decide (Z.rem (zlen fDatas) dim <> 0) then Err (Errorf "the length of float data should divide the dim")
  else Ok (uint64 (Z.quot (zlen fDatas) dim)).

Definition getNumRowsOfBinaryVectorField (bDatas : list byte) (dim : Z) : res Z :=
  if bool_decide (dim <= 0) then Err (Errorf "dim should be greater than 0")
  else if bool_decide (Z.rem dim 8 <> 0) then Err (Errorf "dim should divide 8")
  else
    let bits := int64 (8 * zlen bDatas) in
    if bool_decide (Z.rem bits dim <> 0) then Err (Errorf "the num of all bits should divide the dim")
    else Ok (uint64 (Z.quot bits dim)).

Definition GetNumRowOfFieldData (fd : FieldData) : res Z :=
  match fd_Field fd with
  | FieldData_Scalars s =>
      match s with
      | ScalarField_BoolData l => Ok (getNumRowsOfScalarField l)
      | ScalarField_IntData l | ScalarField_LongData l | ScalarField_FloatData l
      | ScalarField_DoubleData l => Ok (getNumRowsOfScalarField l)
      | ScalarField_StringData l => Ok (getNumRowsOfScalarField l)
      | ScalarField_Unset | ScalarField_Other _ => Err (Errorf "not supported now")
      end
  | FieldData_Vectors dim v =>
      match v with
      | VectorField_FloatVector l => getNumRowsOfFloatVectorField l dim
      | VectorField_BinaryVector l => getNumRowsOfBinaryVectorField l dim
      | VectorField_Unset | VectorField_Other _ => Err (Errorf "not supported now")
      end
  | FieldData_Unset | FieldData_Other _ => Err (Errorf "not supported now")
  end.

Definition GetSizeOfIDs (data : option IDs) : res Z :=
  match data with
  | None => Panic "nil pointer dereference"
  | Some IDs_Unset => Ok 0
  | Some (IDs_IntId l) => Ok (zlen l)
  | Some (IDs_StrId l) => Ok (zlen l)
  end.

(** ** Messages *)
Inductive MsgType :=
  | MsgType_Undefined
  | MsgType_Insert
  | MsgType_Delete
  | MsgType_TimeTick
  | MsgType_CreateCollection
  | MsgType_DropCollection
  | MsgType_CreatePartition
  | MsgType_DropPartition
  | MsgType_DataNodeTt
  | MsgType_Other (n : Z).

Record MsgBase := MkMsgBase {
  mb_MsgType : MsgType;
  mb_MsgID : Z;
  mb_Timestamp : Z;
  mb_SourceID : Z;
  mb_Rest : string;
}.

(** [NewMsgBase] with its options. *)
Definition newMsgBaseDefault : MsgBase := MkMsgBase MsgType_Undefined 0 0 0 "".
Definition WithMsgType (t : MsgType) (b : MsgBase) : MsgBase :=
  MkMsgBase t (mb_MsgID b) (mb_Timestamp b) (mb_SourceID b) (mb_Rest b).
Definition WithMsgID (i : Z) (b : MsgBase) : MsgBase :=
  MkMsgBase (mb_MsgType b) i (mb_Timestamp b) (mb_SourceID b) (mb_Rest b).
Definition WithTimeStamp (t : Z) (b : MsgBase) : MsgBase :=
  MkMsgBase (mb_MsgType b) (mb_MsgID b) t (mb_SourceID b) (mb_Rest b).
Definition WithSourceID (i : Z) (b : MsgBase) : MsgBase :=
  MkMsgBase (mb_MsgType b) (mb_MsgID b) (mb_Timestamp b) i (mb_Rest b).
Definition NewMsgBase (options : list (MsgBase → MsgBase)) : MsgBase :=
  foldl (λ b op, op b) newMsgBaseDefault options.

Record BaseMsg := MkBaseMsg {
  bm_BeginTimestamp : Z;
  bm_EndTimestamp : Z;
  bm_HashValues : list Z;
  bm_MsgPosition : option MsgPosition;
}.
Definition no_base : BaseMsg := MkBaseMsg 0 0 [] None.

Inductive InsertDataVersion := RowBased | ColumnBased | VersionOther (n : Z).
#[export] Instance version_eq_dec : EqDecision InsertDataVersion.
Proof. solve_decision. Defined.

Record InsertRequest := MkInsertRequest {
  ir_Base : option MsgBase;
  ir_ShardName : string;
  ir_CollectionName : string;
  ir_PartitionName : string;
  ir_DbID : Z;
  ir_CollectionID : Z;
  ir_PartitionID : Z;
  ir_SegmentID : Z;
  ir_Timestamps : list Z;
  ir_RowIDs : list Z;
  ir_RowData : list (list byte);
  ir_FieldsData : list (option FieldData);
  ir_NumRows : Z;
  ir_Version : InsertDataVersion;
  ir_Rest : string;
}.

Record DeleteRequest := MkDeleteRequest {
  dr_Base : option MsgBase;
  dr_Int64PrimaryKeys : list Z;
  dr_Timestamps : list Z;
  dr_NumRows : Z;
  dr_PrimaryKeys : option IDs;
  dr_Rest : string;
}.

(** The other requests, of which the code only reads the base. *)
Record Request := MkRequest { rq_Base : option MsgBase; rq_Rest : string }.

Inductive TsMsg :=
  | InsertMsg (b : BaseMsg) (r : InsertRequest)
  | DeleteMsg (b : BaseMsg) (r : DeleteRequest)
  | TimeTickMsg (b : BaseMsg) (r : Request)
  | CreateCollectionMsg (b : BaseMsg) (r : Request)
  | DropCollectionMsg (b : BaseMsg) (r : Request)
  | CreatePartitionMsg (b : BaseMsg) (r : Request)
  | DropPartitionMsg (b : BaseMsg) (r : Request)
  | DataNodeTtMsg (b : BaseMsg) (r : Request).

Definition base_msg (m : TsMsg) : BaseMsg :=
  match m with
  | InsertMsg b _ | DeleteMsg b _ | TimeTickMsg b _ | CreateCollectionMsg b _
  | DropCollectionMsg b _ | CreatePartitionMsg b _ | DropPartitionMsg b _ | DataNodeTtMsg b _ => b
  end.
Definition request_base (m : TsMsg) : option MsgBase :=
  match m with
  | InsertMsg _ r => ir_Base r
  | DeleteMsg _ r => dr_Base r
  | TimeTickMsg _ r | CreateCollectionMsg _ r | DropCollectionMsg _ r | CreatePartitionMsg _ r
  | DropPartitionMsg _ r | DataNodeTtMsg _ r => rq_Base r
  end.

(** [m.Base.X]. *)
Definition of_base {A} (b : option MsgBase) (f : MsgBase → A) : res A :=
  match b with Some b => Ok (f b) | None => Panic "nil pointer dereference" end.

Definition BeginTs (m : TsMsg) : Z := bm_BeginTimestamp (base_msg m).
Definition EndTs (m : TsMsg) : Z := bm_EndTimestamp (base_msg m).
Definition HashKeys (m : TsMsg) : list Z := bm_HashValues (base_msg m).
Definition Position (m : TsMsg) : option MsgPosition := bm_MsgPosition (base_msg m).
Definition msg_ID (m : TsMsg) : res Z := of_base (request_base m) mb_MsgID.
Definition msg_Type (m : TsMsg) : res MsgType := of_base (request_base m) mb_MsgType.
Definition msg_SourceID (m : TsMsg) : res Z := of_base (request_base m) mb_SourceID.

(** What is marshalled has to have the type of the receiver, or the type assertion panics. *)
Inductive MarshalType := MBytes (bs : list byte) | MOther.
Definition convertToByteArray (input : MarshalType) : res (list byte) :=
  match input with
  | MBytes bs => Ok bs
  | MOther => Err (Errorf "Cannot convert interface{} to []byte")
  end.

(** The encodings of the requests. *)
Class QueueCodec := {
  insert_codec :: ProtoCodec InsertRequest;
  delete_codec :: ProtoCodec DeleteRequest;
  request_codec : MsgType → ProtoCodec Request;
  header_Unmarshal : list byte → res (option MsgBase);
}.
Definition request_Unmarshal `{QueueCodec} (t : MsgType) (bs : list byte) : res Request :=
  proto_Unmarshal (ProtoCodec:=request_codec t) bs.
Definition request_Marshal `{QueueCodec} (t : MsgType) (r : Request) : res (list byte) :=
  proto_Marshal (ProtoCodec:=request_codec t) r.

(** What is decoded has no value that a Go type cannot hold, the base of a message is the
    one of its header, and a nil pointer below a list is never decoded. *)
Class QueueLaws `{QueueCodec} := {
  insert_base bs r : proto_Unmarshal bs = Ok r → header_Unmarshal bs = Ok (ir_Base r);
  delete_base bs r : proto_Unmarshal bs = Ok r → header_Unmarshal bs = Ok (dr_Base r);
  request_base_header t bs r : request_Unmarshal t bs = Ok r → header_Unmarshal bs = Ok (rq_Base r);
  header_no_panic bs w : header_Unmarshal bs <> Panic w;
  insert_no_panic bs w : proto_Unmarshal (M:=InsertRequest) bs <> Panic w;
  delete_no_panic bs w : proto_Unmarshal (M:=DeleteRequest) bs <> Panic w;
  request_no_panic t bs w : request_Unmarshal t bs <> Panic w;
}.

(** The smallest and the largest timestamp of a request. *)
Definition begin_end (timestamps : list Z) : Z * Z :=
  match timestamps with
  | [] => (0, 0)
  | t :: _ =>
      foldl (λ '(b, e) t, (if bool_decide (t < b) then t else b, if bool_decide (t > e) then t else e))
        (t, t) timestamps
  end.

Section messages.
Context `{QueueCodec}.

(** *** Insertions *)
Definition InsertMsg_Unmarshal (input : MarshalType) : res TsMsg :=
  bs ← convertToByteArray input;
  r ← proto_Unmarshal bs;
  let '(b, e) := begin_end (ir_Timestamps r) in
  Ok (InsertMsg (MkBaseMsg b e [] None) r).

Definition InsertMsg_Marshal (input : TsMsg) : res (list byte) :=
  match input with InsertMsg _ r => proto_Marshal r | _ => Panic "interface conversion" end.

Definition IsRowBased (it : InsertRequest) : bool := bool_decide (ir_Version it = RowBased).
Definition IsColumnBased (it : InsertRequest) : bool := bool_decide (ir_Version it = ColumnBased).

Definition NRows (it : InsertRequest) : Z :=
  if IsRowBased it then uint64 (zlen (ir_RowData it)) else ir_NumRows it.

Definition check_field (rowNums : Z) (field : option FieldData) : res unit :=
  match field with
  | None => Panic "nil pointer dereference"
  | Some field =>
      n ← GetNumRowOfFieldData field;
      if bool_decide (n <> rowNums) then Err (Errorf "the num_rows of the field is not equal to passed NumRows")
      else Ok tt
  end.

Definition InsertMsg_CheckAligned (it : InsertRequest) : res unit :=
  let rowNums := NRows it in
  (if IsColumnBased it then foldM (λ f _, check_field rowNums f) (ir_FieldsData it) tt else Ok tt) ≫= λ _,
  if bool_decide (zlen (ir_RowIDs it) <> zlen (ir_Timestamps it))
  then Err (Errorf "the num_rows of rowIDs is not equal to the num_rows of timestamps")
  else if bool_decide (uint64 (zlen (ir_RowIDs it)) <> NRows it)
  then Err (Errorf "the num_rows of rowIDs is not equal to passed NumRows")
  else Ok tt.

(** The base of a request for one row. *)
Definition row_base (it : InsertRequest) (index : Z) : res (option MsgBase) :=
  id ← of_base (ir_Base it) mb_MsgID;
  ts ← go_index (ir_Timestamps it) index;
  source ← of_base (ir_Base it) mb_SourceID;
  Ok (Some (NewMsgBase [WithMsgType MsgType_Insert; WithMsgID id; WithTimeStamp ts; WithSourceID source])).

Definition rowBasedIndexRequest (it : InsertRequest) (index : Z) : res InsertRequest :=
  base ← row_base it index;
  ts ← go_index (ir_Timestamps it) index;
  row ← go_index (ir_RowIDs it) index;
  data ← go_index (ir_RowData it) index;
  Ok (MkInsertRequest base (ir_ShardName it) (ir_CollectionName it) (ir_PartitionName it) (ir_DbID it)
        (ir_CollectionID it) (ir_PartitionID it) (ir_SegmentID it) [ts] [row] [data] [] 0 RowBased "").

Definition columnBasedIndexRequest (it : InsertRequest) (index : Z) : res InsertRequest :=
  fieldsData ← AppendFieldData (replicate (length (ir_FieldsData it)) None) (ir_FieldsData it) index;
  base ← row_base it index;
  ts ← go_index (ir_Timestamps it) index;
  row ← go_index (ir_RowIDs it) index;
  Ok (MkInsertRequest base (ir_ShardName it) (ir_CollectionName it) (ir_PartitionName it) (ir_DbID it)
        (ir_CollectionID it) (ir_PartitionID it) (ir_SegmentID it) [ts] [row] [] fieldsData 1 ColumnBased "").

Definition IndexRequest (it : InsertRequest) (index : Z) : res InsertRequest :=
  if IsRowBased it then rowBasedIndexRequest it index else columnBasedIndexRequest it index.

Definition IndexMsg (b : BaseMsg) (it : InsertRequest) (index : Z) : res TsMsg :=
  r ← IndexRequest it index;
  Ok (InsertMsg (MkBaseMsg (bm_BeginTimestamp b) (bm_EndTimestamp b) (bm_HashValues b) (bm_MsgPosition b)) r).

(** *** Deletions *)
Definition compat_keys (r : DeleteRequest) : DeleteRequest :=
  match dr_PrimaryKeys r with
  | None =>
      MkDeleteRequest (dr_Base r) (dr_Int64PrimaryKeys r) (dr_Timestamps r) (zlen (dr_Int64PrimaryKeys r))
        (Some (IDs_IntId (dr_Int64PrimaryKeys r))) (dr_Rest r)
  | Some _ => r
  end.

Definition DeleteMsg_Unmarshal (input : MarshalType) : res TsMsg :=
  bs ← convertToByteArray input;
  r ← proto_Unmarshal bs;
  let r := compat_keys r in
  let '(b, e) := begin_end (dr_Timestamps r) in
  Ok (DeleteMsg (MkBaseMsg b e [] None) r).

Definition DeleteMsg_Marshal (input : TsMsg) : res (list byte) :=
  match input with DeleteMsg _ r => proto_Marshal r | _ => Panic "interface conversion" end.

Definition DeleteMsg_CheckAligned (dt : DeleteRequest) : res unit :=
  let numRows := dr_NumRows dt in
  if bool_decide (numRows <> zlen (dr_Timestamps dt))
  then Err (Errorf "the num_rows of pks is not equal to the num_rows of timestamps")
  else
    numPks ← GetSizeOfIDs (dr_PrimaryKeys dt);
    if bool_decide (numRows <> numPks) then Err (Errorf "the num_rows of pks is not equal to passed NumRows")
    else Ok tt.

(** *** Messages that only have a base *)
Definition unmarshal_ticked (t : MsgType) (make : BaseMsg → Request → TsMsg) (input : MarshalType) : res TsMsg :=
  bs ← convertToByteArray input;
  r ← request_Unmarshal t bs;
  ts ← of_base (rq_Base r) mb_Timestamp;
  Ok (make (MkBaseMsg ts ts [] None) r).

Definition TimeTickMsg_Unmarshal := unmarshal_ticked MsgType_TimeTick TimeTickMsg.
Definition CreateCollectionMsg_Unmarshal := unmarshal_ticked MsgType_CreateCollection CreateCollectionMsg.
Definition DropCollectionMsg_Unmarshal := unmarshal_ticked MsgType_DropCollection DropCollectionMsg.
Definition CreatePartitionMsg_Unmarshal := unmarshal_ticked MsgType_CreatePartition CreatePartitionMsg.
Definition DropPartitionMsg_Unmarshal := unmarshal_ticked MsgType_DropPartition DropPartitionMsg.

Definition DataNodeTtMsg_Unmarshal (input : MarshalType) : res TsMsg :=
  bs ← convertToByteArray input;
  r ← request_Unmarshal MsgType_DataNodeTt bs;
  Ok (DataNodeTtMsg no_base r).

Definition TimeTickMsg_Marshal (input : TsMsg) : res (list byte) :=
  match input with TimeTickMsg _ r => request_Marshal MsgType_TimeTick r | _ => Panic "interface conversion" end.
Definition CreateCollectionMsg_Marshal (input : TsMsg) : res (list byte) :=
  match input with CreateCollectionMsg _ r => request_Marshal MsgType_CreateCollection r
  | _ => Panic "interface conversion" end.
Definition DropCollectionMsg_Marshal (input : TsMsg) : res (list byte) :=
  match input with DropCollectionMsg _ r => request_Marshal MsgType_DropCollection r
  | _ => Panic "interface conversion" end.
Definition CreatePartitionMsg_Marshal (input : TsMsg) : res (list byte) :=
  match input with CreatePartitionMsg _ r => request_Marshal MsgType_CreatePartition r
  | _ => Panic "interface conversion" end.
Definition DropPartitionMsg_Marshal (input : TsMsg) : res (list byte) :=
  match input with DropPartitionMsg _ r => request_Marshal MsgType_DropPartition r
  | _ => Panic "interface conversion" end.
Definition DataNodeTtMsg_Marshal (input : TsMsg) : res (list byte) :=
  match input with DataNodeTtMsg _ r => request_Marshal MsgType_DataNodeTt r
  | _ => Panic "interface conversion" end.

(** *** [ProtoUnmarshalDispatcher] *)
Definition TempMap (t : MsgType) : option (MarshalType → res TsMsg) :=
  match t with
  | MsgType_Insert => Some InsertMsg_Unmarshal
  | MsgType_Delete => Some DeleteMsg_Unmarshal
  | MsgType_TimeTick => Some TimeTickMsg_Unmarshal
  | MsgType_CreateCollection => Some CreateCollectionMsg_Unmarshal
  | MsgType_DropCollection => Some DropCollectionMsg_Unmarshal
  | MsgType_CreatePartition => Some CreatePartitionMsg_Unmarshal
  | MsgType_DropPartition => Some DropPartitionMsg_Unmarshal
  | MsgType_DataNodeTt => Some DataNodeTtMsg_Unmarshal
  | MsgType_Undefined | MsgType_Other _ => None
  end.

Definition MessageUnmarshal (input : MarshalType) (msgType : MsgType) : res TsMsg :=
  match TempMap msgType with
  | Some unmarshalFunc => unmarshalFunc input
  | None => Err (Errorf "not set unmarshalFunc for this messageType")
  end.

(** [ifc.Message], with the serialized identifier. *)
Record Message := MkMessage { m_Topic : string; m_Payload : option (list byte); m_ID : list byte }.

Definition GetMsgPosition (msg : Message) : res MsgPosition :=
  match m_Payload msg with
  | None => Err (Errorf "failed to unmarshal message header, payload is empty")
  | Some payload =>
      match header_Unmarshal payload with
      | Ok (Some base) =>
          match MessageUnmarshal (MBytes payload) (mb_MsgType base) with
          | Ok tsMsg => Ok (MsgPos (path_Base (m_Topic msg)) (m_ID msg) (BeginTs tsMsg))
          | Err _ => Err (Errorf "failed to unmarshal tsMsg")
          | Panic w => Panic w
          end
      | Ok None => Err (Errorf "failed to unmarshal message, header is uncomplete")
      | Err _ => Err (Errorf "failed to unmarshal message header")
      | Panic w => Panic w
      end
  end.
End messages.

(** ** Rows of a field

    [some_rows a k fd] are the [k] rows from row [a] on of a field, as [AppendFieldData]
    builds them: a fresh field without the parts that the code does not copy. *)
Definition rows_of {A} (a k w : nat) (l : list A) : list A := take (k * w) (drop (a * w) l).
#[global] Arguments rows_of : simpl never.

Definition scalar_rows (a k : nat) (s : ScalarData) : ScalarData :=
  match s with
  | ScalarField_BoolData l => ScalarField_BoolData (rows_of a k 1 l)
  | ScalarField_IntData l => ScalarField_IntData (rows_of a k 1 l)
  | ScalarField_LongData l => ScalarField_LongData (rows_of a k 1 l)
  | ScalarField_FloatData l => ScalarField_FloatData (rows_of a k 1 l)
  | ScalarField_DoubleData l => ScalarField_DoubleData (rows_of a k 1 l)
  | ScalarField_StringData l => ScalarField_StringData (rows_of a k 1 l)
  | s => s
  end.
Definition vector_rows (a k : nat) (dim : Z) (v : VectorData) : VectorData :=
  match v with
  | VectorField_FloatVector l => VectorField_FloatVector (rows_of a k (Z.to_nat dim) l)
  | VectorField_BinaryVector l => VectorField_BinaryVector (rows_of a k (Z.to_nat (dim / 8)) l)
  | v => v
  end.
Definition field_rows (a k : nat) (f : Field) : Field :=
  match f with
  | FieldData_Scalars s => FieldData_Scalars (scalar_rows a k s)
  | FieldData_Vectors dim v => FieldData_Vectors dim (vector_rows a k dim v)
  | f => f
  end.
Definition some_rows (a k : nat) (fd : FieldData) : option FieldData :=
  match k with
  | O => None
  | _ => Some (MkFieldData (fd_Type fd) (fd_FieldName fd) (fd_FieldId fd) (field_rows a k (fd_Field fd)) "")
  end.

(** The data of a field fits in memory. *)
Definition allocated {A} (l : list A) : Prop := zlen l ≤ maxAlloc.
Definition field_allocated (fd : FieldData) : Prop :=
  match fd_Field fd with
  | FieldData_Scalars (ScalarField_BoolData l) => allocated l
  | FieldData_Scalars (ScalarField_IntData l) | FieldData_Scalars (ScalarField_LongData l)
  | FieldData_Scalars (ScalarField_FloatData l) | FieldData_Scalars (ScalarField_DoubleData l)
  | FieldData_Vectors _ (VectorField_FloatVector l) => allocated l
  | FieldData_Scalars (ScalarField_StringData l) => allocated l
  | FieldData_Vectors _ (VectorField_BinaryVector l) => allocated l
  | _ => True
  end.

Section rows.
Context {A : Type}.
Implicit Types l : list A.

Lemma rows_of_all k w l : length l = (k * w)%nat → rows_of 0 k w l = l.
Proof. intros Hl. unfold rows_of. simpl. apply take_ge. lia. Qed.

Lemma length_rows_of a k w l : ((a + k) * w ≤ length l)%nat → length (rows_of a k w l) = (k * w)%nat.
Proof. intros Hl. unfold rows_of. rewrite length_take, length_drop. lia. Qed.

Lemma rows_of_S a k w l :
  ((a + S k) * w ≤ length l)%nat → rows_of a (S k) w l = rows_of a k w l ++ rows_of (a + k) 1 w l.
Proof.
  intros Hl. unfold rows_of.
  replace (S k * w)%nat with (k * w + w)%nat by lia. replace ((a + k) * w)%nat with (a * w + k * w)%nat by lia.
  rewrite <-drop_drop, <-(take_take_drop (drop (a * w) l) (k * w) w). by rewrite Nat.mul_1_l.
Qed.

Lemma rows_of_index a l : (a < length l)%nat → ∃ x, go_index l (Z.of_nat a) = Ok x ∧ rows_of a 1 1 l = [x].
Proof.
  intros Ha. destruct (lookup_lt_is_Some_2 l a Ha) as [x Hx]. exists x. split.
  - apply go_index_Ok. rewrite Nat2Z.id. by split; [lia|].
  - unfold rows_of. rewrite !Nat.mul_1_r.
    by rewrite (drop_S _ _ _ Hx).
Qed.

Lemma rows_of_slice a w l :
  allocated l → (0 < w)%nat → ((a + 1) * w ≤ length l)%nat →
  go_slice l (int64 (Z.of_nat a * Z.of_nat w)) (int64 (int64 (Z.of_nat a + 1) * Z.of_nat w))
  = Ok (rows_of a 1 w l).
Proof.
  unfold allocated, zlen, maxAlloc. intros Hl Hw Ha.
  assert (Z.of_nat a * Z.of_nat w + Z.of_nat w ≤ Z.of_nat (length l)) by nia.
  assert (Z.of_nat a ≤ Z.of_nat a * Z.of_nat w) by nia.
  rewrite (wraps_id 64 (Z.of_nat a + 1)) by (unfold in_s; lia).
  rewrite !wraps_id by (unfold in_s; lia). unfold go_slice, zlen.
  rewrite !bool_decide_true by lia. simpl. unfold rows_of. do 2 f_equal; [|f_equal]; lia.
Qed.
End rows.

(** The number of rows as the length of the data. *)
Lemma num_rows_scalar {A} (l : list A) : allocated l → getNumRowsOfScalarField l = Z.of_nat (length l).
Proof.
  unfold allocated, getNumRowsOfScalarField, zlen, maxAlloc. intros. apply wrapu_id. unfold in_u. lia.
Qed.

Lemma num_rows_float l dim n :
  allocated l → getNumRowsOfFloatVectorField l dim = Ok n ↔
  0 < dim ∧ 0 ≤ n ∧ length l = (Z.to_nat n * Z.to_nat dim)%nat.
Proof.
  unfold allocated, getNumRowsOfFloatVectorField, zlen, maxAlloc. intros Hl.
  case_bool_decide as Hd. { split; [done|]. intros [? ?]. lia. }
  rewrite Z.rem_mod_nonneg, Z.quot_div_nonneg by lia.
  pose proof (Z.div_mod (Z.of_nat (length l)) dim ltac:(lia)) as Hdm.
  pose proof (Z.div_pos (Z.of_nat (length l)) dim ltac:(lia) ltac:(lia)).
  pose proof (Z.div_le_upper_bound (Z.of_nat (length l)) dim (Z.of_nat (length l)) ltac:(lia) ltac:(nia)).
  case_bool_decide as Hr.
  - split; [done|]. intros (_ & Hn & He). destruct Hr. rewrite He, Nat2Z.inj_mul, !Z2Nat.id by lia. apply Z.mod_mul. lia.
  - rewrite (wrapu_id 64) by (unfold in_u; lia). split.
    + intros [= <-]. split_and!; [lia|lia|]. rewrite <-Z2Nat.inj_mul by lia. lia.
    + intros (_ & Hn & He). f_equal. rewrite He, Nat2Z.inj_mul, !Z2Nat.id by lia. apply Z.div_mul. lia.
Qed.

Lemma num_rows_binary l dim n :
  allocated l → getNumRowsOfBinaryVectorField l dim = Ok n ↔
  0 < dim / 8 ∧ dim mod 8 = 0 ∧ 0 ≤ n ∧ length l = (Z.to_nat n * Z.to_nat (dim / 8))%nat.
Proof.
  unfold allocated, getNumRowsOfBinaryVectorField, zlen, maxAlloc. intros Hl.
  case_bool_decide as Hd. { split; [done|]. intros [? ?]. pose proof (Z.div_mod dim 8). lia. }
  rewrite (Z.rem_mod_nonneg dim 8) by lia. case_bool_decide as H8. { split; [done|]. tauto. }
  rewrite (wraps_id 64) by (unfold in_s; lia). rewrite Z.rem_mod_nonneg, Z.quot_div_nonneg by lia.
  assert (∃ w, dim = 8 * w ∧ 0 < w) as (w & -> & Hw). { exists (dim / 8). pose proof (Z.div_mod dim 8). lia. }
  replace (8 * w / 8) with w by (rewrite Z.mul_comm, Z.div_mul; lia).
  rewrite Z.mul_mod_distr_l, Z.div_mul_cancel_l by lia.
  pose proof (Z.div_mod (Z.of_nat (length l)) w ltac:(lia)) as Hdm.
  pose proof (Z.div_pos (Z.of_nat (length l)) w ltac:(lia) ltac:(lia)).
  pose proof (Z.div_le_upper_bound (Z.of_nat (length l)) w (Z.of_nat (length l)) ltac:(lia) ltac:(nia)).
  case_bool_decide as Hr.
  - split; [done|]. intros (_ & _ & Hn & He). destruct Hr. f_equal.
    rewrite He, Nat2Z.inj_mul, !Z2Nat.id by lia. rewrite Z.mod_mul; lia.
  - rewrite (wrapu_id 64) by (unfold in_u; lia). split.
    + intros [= <-]. split_and!; [lia..|]. rewrite <-Z2Nat.inj_mul by lia. lia.
    + intros (_ & _ & Hn & He). f_equal. rewrite He, Nat2Z.inj_mul, !Z2Nat.id by lia. apply Z.div_mul. lia.
Qed.

Lemma rows_of_next {A} a k (l : list A) :
  (a + k < length l)%nat →
  ∃ x, go_index l (Z.of_nat (a + k)) = Ok x ∧ rows_of a (S k) 1 l = rows_of a k 1 l ++ [x].
Proof.
  intros Ha. destruct (rows_of_index (a + k) l Ha) as (x & Hx & Hr). exists x. split; [done|].
  rewrite rows_of_S by lia. by rewrite Hr.
Qed.

Lemma rows_of_nil {A} a w (l : list A) : rows_of a 0 w l = [].
Proof. done. Qed.

(** The row after [k] rows is appended. *)
Lemma append_field_rows fd n a k :
  field_allocated fd → GetNumRowOfFieldData fd = Ok n → (a + k < Z.to_nat n)%nat →
  append_field (some_rows a k fd) fd (Z.of_nat (a + k)) = Ok (some_rows a (S k) fd).
Proof.
  destruct fd as [ty nm i [|s|dim v|?] rest]; cbn; [done| | |done].
  - destruct s as [|l|l|l|l|l|l|?]; cbn; try done; intros Hl Hn Hk; injection Hn as <-;
      rewrite num_rows_scalar in Hk by done; rewrite Nat2Z.id in Hk;
      destruct (rows_of_next a k l Hk) as (x & Hx & Hr); unfold append_field; cbn;
      destruct k; cbn; rewrite Hx; cbn; by rewrite Hr, ?rows_of_nil.
  - destruct v as [|l|l|?]; cbn; try done; intros Hl Hn Hk; unfold append_field; cbn.
    + apply num_rows_float in Hn as (Hd & Hn & Hlen); [|done].
      pose proof (rows_of_slice (a + k) (Z.to_nat dim) l Hl ltac:(lia) ltac:(nia)) as Hs.
      rewrite !Z2Nat.id in Hs by lia.
      pose proof (rows_of_S a k (Z.to_nat dim) l ltac:(nia)) as Hr.
      destruct k; cbn; rewrite Hs; cbn; by rewrite Hr, ?rows_of_nil.
    + apply num_rows_binary in Hn as (Hd & H8 & Hn & Hlen); [|done].
      rewrite Z.quot_div_nonneg by (pose proof (Z.div_mod dim 8); lia).
      pose proof (rows_of_slice (a + k) (Z.to_nat (dim / 8)) l Hl ltac:(lia) ltac:(nia)) as Hs.
      rewrite !Z2Nat.id in Hs by lia.
      pose proof (rows_of_S a k (Z.to_nat (dim / 8)) l ltac:(nia)) as Hr.
      destruct k; cbn; rewrite Hs; cbn; by rewrite Hr, ?rows_of_nil.
Qed.

Lemma allocated_rows {A} a k w (l : list A) : allocated l → allocated (rows_of a k w l).
Proof. unfold allocated, zlen, rows_of. rewrite length_take, length_drop. lia. Qed.

Definition rows_field (a k : nat) (fd : FieldData) : FieldData :=
  MkFieldData (fd_Type fd) (fd_FieldName fd) (fd_FieldId fd) (field_rows a k (fd_Field fd)) "".

Lemma num_rows_rows fd n a k :
  field_allocated fd → GetNumRowOfFieldData fd = Ok n → (a + k ≤ Z.to_nat n)%nat →
  field_allocated (rows_field a k fd) ∧ GetNumRowOfFieldData (rows_field a k fd) = Ok (Z.of_nat k).
Proof.
  destruct fd as [ty nm i [|s|dim v|?] rest]; cbn; [done| | |done].
  - destruct s as [|l|l|l|l|l|l|?]; cbn; try done; intros Hl Hn Hk; injection Hn as <-;
      rewrite num_rows_scalar in Hk by done; rewrite Nat2Z.id in Hk;
      pose proof (allocated_rows a k 1 l Hl) as Hal; (split; [done|]);
      rewrite (num_rows_scalar _ Hal), length_rows_of by lia; do 2 f_equal; lia.
  - destruct v as [|l|l|?]; cbn; try done; intros Hl Hn Hk; (split; [by apply allocated_rows|]).
    + apply num_rows_float in Hn as (Hd & Hn & Hlen); [|done].
      apply num_rows_float; [by apply allocated_rows|]. split_and!; [done|lia|].
      rewrite length_rows_of by nia. lia.
    + apply num_rows_binary in Hn as (Hd & H8 & Hn & Hlen); [|done].
      apply num_rows_binary; [by apply allocated_rows|]. split_and!; [done|done|lia|].
      rewrite length_rows_of by nia. lia.
Qed.

(** All the rows of a field are the field. *)
Lemma field_rows_all fd n :
  field_allocated fd → GetNumRowOfFieldData fd = Ok n → field_rows 0 (Z.to_nat n) (fd_Field fd) = fd_Field fd.
Proof.
  destruct fd as [ty nm i [|s|dim v|?] rest]; cbn; [done| | |done].
  - destruct s as [|l|l|l|l|l|l|?]; cbn; try done; intros Hl Hn; injection Hn as <-;
      rewrite num_rows_scalar by done; rewrite rows_of_all by (rewrite Nat2Z.id; lia); done.
  - destruct v as [|l|l|?]; cbn; try done; intros Hl Hn.
    + apply num_rows_float in Hn as (Hd & Hn & Hlen); [|done]. by rewrite rows_of_all.
    + apply num_rows_binary in Hn as (Hd & H8 & Hn & Hlen); [|done]. by rewrite rows_of_all.
Qed.

(** [AppendFieldData] on all fields. *)
Lemma AppendFieldData_rows fds n a k :
  Forall (λ fd, field_allocated fd ∧ GetNumRowOfFieldData fd = Ok n) fds → (a + k < Z.to_nat n)%nat →
  AppendFieldData (map (some_rows a k) fds) (map Some fds) (Z.of_nat (a + k))
  = Ok (map (some_rows a (S k)) fds).
Proof.
  intros Hf Hk. induction Hf as [|fd fds [Hal Hn] _ IH]; [done|]. cbn [map AppendFieldData].
  rewrite (append_field_rows fd n) by done. cbn [mbind res_bind]. by rewrite IH.
Qed.

Lemma check_field_Ok n field :
  check_field n field = Ok tt ↔ ∃ fd, field = Some fd ∧ GetNumRowOfFieldData fd = Ok n.
Proof.
  destruct field as [fd|]; cbn; [|naive_solver]. rewrite res_bind_Ok. split.
  - intros (m & Hm & Hr). case_bool_decide; [done|]. exists fd. split; [done|]. rewrite Hm. f_equal. lia.
  - intros (fd' & [= <-] & Hn). exists n. split; [done|]. by rewrite bool_decide_false by lia.
Qed.

Lemma check_fields_Ok n fields :
  foldM (λ f _, check_field n f) fields tt = Ok tt
  ↔ ∃ fds, fields = map Some fds ∧ Forall (λ fd, GetNumRowOfFieldData fd = Ok n) fds.
Proof.
  induction fields as [|f fields IH]; cbn.
  { split; [by exists []|done]. }
  rewrite res_bind_Ok. split.
  - intros ([] & (fd & -> & Hn)%check_field_Ok & (fds & -> & Hf)%IH).
    exists (fd :: fds). split; [done|by constructor].
  - intros ([|fd fds] & Heq & Hf); [done|]. injection Heq as -> ->.
    apply list.Forall_cons in Hf as [Hn Hf]. exists tt. split; [apply check_field_Ok; by exists fd|].
    apply IH. by exists fds.
Qed.

(** What [CheckAligned] of an insertion means. *)
Definition insert_aligned (it : InsertRequest) : Prop :=
  length (ir_RowIDs it) = length (ir_Timestamps it) ∧ NRows it = zlen (ir_RowIDs it)
  ∧ (ir_Version it = ColumnBased →
     ∃ fds, ir_FieldsData it = map Some fds ∧ Forall (λ fd, GetNumRowOfFieldData fd = Ok (NRows it)) fds).

Lemma InsertMsg_CheckAligned_Ok it :
  allocated (ir_RowIDs it) → InsertMsg_CheckAligned it = Ok tt ↔ insert_aligned it.
Proof.
  unfold allocated, InsertMsg_CheckAligned, insert_aligned, IsColumnBased. intros Hl.
  rewrite (wrapu_id 64 (zlen _)) by (unfold in_u, maxAlloc in *; pose proof (zlen_nonneg (ir_RowIDs it)); lia).
  rewrite res_bind_Ok. unfold zlen in *. split.
  - intros ([] & Hf & Hr). case_bool_decide; [done|]. case_bool_decide; [done|].
    split_and!; [lia|lia|]. intros Hv. rewrite bool_decide_true in Hf by done. by apply check_fields_Ok.
  - intros (Ht & Hn & Hf). exists tt. split; [|by rewrite !bool_decide_false by lia].
    case_bool_decide; [|done]. apply check_fields_Ok. auto.
Qed.

Definition request_allocated (it : InsertRequest) : Prop :=
  allocated (ir_RowIDs it) ∧ allocated (ir_RowData it)
  ∧ Forall (from_option field_allocated True) (ir_FieldsData it).

Lemma row_base_Ok it base i t :
  ir_Base it = Some base → go_index (ir_Timestamps it) i = Ok t →
  row_base it i = Ok (Some (MkMsgBase MsgType_Insert (mb_MsgID base) t (mb_SourceID base) "")).
Proof. intros Hb Ht. unfold row_base. rewrite Hb. cbn. by rewrite Ht. Qed.

Lemma rows_fields_aligned fds n i :
  Forall field_allocated fds → Forall (λ fd, GetNumRowOfFieldData fd = Ok n) fds →
  0 ≤ i < n →
  AppendFieldData (replicate (length fds) None) (map Some fds) i = Ok (map (some_rows (Z.to_nat i) 1) fds)
  ∧ ∃ fds', map (some_rows (Z.to_nat i) 1) fds = map Some fds'
      ∧ Forall (λ fd, GetNumRowOfFieldData fd = Ok 1) fds'.
Proof.
  intros Ha Hn Hi.
  assert (Hf : Forall (λ fd, field_allocated fd ∧ GetNumRowOfFieldData fd = Ok n) fds)
    by (apply list.Forall_and; done).
  split.
  - pose proof (AppendFieldData_rows fds n (Z.to_nat i) 0 Hf ltac:(lia)) as Hr.
    rewrite Nat.add_0_r, Z2Nat.id in Hr by lia. rewrite <-Hr. f_equal.
    clear. induction fds; simpl; congruence.
  - exists (map (rows_field (Z.to_nat i) 1) fds). split; [by rewrite map_map|].
    rewrite List.Forall_map. eapply list.Forall_impl; [exact Hf|]. intros fd [Hal Hnr].
    by apply (num_rows_rows fd n (Z.to_nat i) 1 Hal Hnr); lia.
Qed.

Lemma row_base_nil it i : ir_Base it = None → ∃ w, row_base it i = Panic w.
Proof. intros Hb. unfold row_base. rewrite Hb. by eexists. Qed.

Lemma row_based_data it :
  IsRowBased it = true → allocated (ir_RowData it) → NRows it = zlen (ir_RowData it).
Proof.
  intros Hv Hl. unfold NRows. rewrite Hv. apply wrapu_id.
  unfold allocated, in_u, maxAlloc in *. pose proof (zlen_nonneg (ir_RowData it)). lia.
Qed.

(** C15 (type): [CheckAligned] is a type of insertions. An insertion by rows or by columns that
    passes it and has a base is indexed at each of its rows without a panic, and the request
    of a row passes [CheckAligned] again: it has the timestamp, the identifier and the data of
    that row, and the base of the insertion with the timestamp of the row. [CheckAligned] does
    not look at the base: an insertion without one that passes it panics at each row. Nothing
    is said of a version that is neither by rows nor by columns, whose columns are indexed
    although [CheckAligned] has not looked at them. *)
Theorem IndexRequest_aligned it i :
  ir_Version it = RowBased ∨ ir_Version it = ColumnBased →
  request_allocated it → InsertMsg_CheckAligned it = Ok tt → 0 ≤ i < NRows it →
  match ir_Base it with
  | None => ∃ w, IndexRequest it i = Panic w
  | Some base =>
      ∃ r t row, IndexRequest it i = Ok r ∧ InsertMsg_CheckAligned r = Ok tt ∧ NRows r = 1
      ∧ ir_Version r = ir_Version it
      ∧ ir_Base r = Some (MkMsgBase MsgType_Insert (mb_MsgID base) t (mb_SourceID base) "")
      ∧ ir_Timestamps it !! Z.to_nat i = Some t ∧ ir_Timestamps r = [t]
      ∧ ir_RowIDs it !! Z.to_nat i = Some row ∧ ir_RowIDs r = [row]
      ∧ (ir_Version it = RowBased → ∃ d, ir_RowData it !! Z.to_nat i = Some d ∧ ir_RowData r = [d])
      ∧ (ir_Version it = ColumnBased →
         ir_FieldsData r = map (λ f, f ≫= some_rows (Z.to_nat i) 1) (ir_FieldsData it))
  end.
Proof.
  intros Hv (Hal & Hald & Hfs) (Hlen & Hn & Hcol)%InsertMsg_CheckAligned_Ok Hi; [|done].
  destruct (go_index_range (ir_Timestamps it) i) as [t Ht]; [unfold zlen in *; lia|].
  destruct (go_index_range (ir_RowIDs it) i) as [row Hrow]; [lia|].
  pose proof Ht as [_ Ht']%go_index_Ok. pose proof Hrow as [_ Hrow']%go_index_Ok.
  unfold IndexRequest. destruct (IsRowBased it) eqn:Hrb.
  - pose proof (row_based_data it Hrb Hald) as Hd.
    destruct (go_index_range (ir_RowData it) i) as [d Hdat]; [lia|]. pose proof Hdat as [_ Hdat']%go_index_Ok.
    unfold rowBasedIndexRequest. destruct (ir_Base it) as [base|] eqn:Hb;
      [|destruct (row_base_nil it i Hb) as [w ->]; by eexists].
    rewrite (row_base_Ok it base i t Hb Ht), Ht, Hrow, Hdat. cbn [mbind res_bind].
    unfold IsRowBased in Hrb. apply bool_decide_eq_true in Hrb.
    eexists _, t, row. split; [done|]. split_and!; try done; [intros _; by exists d|congruence].
  - unfold IsRowBased in Hrb. apply bool_decide_eq_false in Hrb.
    destruct Hv as [Hv|Hv]; [done|]. destruct (Hcol Hv) as (fds & Hfds & Hrows). rewrite Hfds in Hfs.
    assert (Ha : Forall field_allocated fds) by (rewrite List.Forall_map in Hfs; done).
    destruct (rows_fields_aligned fds (NRows it) i Ha Hrows Hi) as (Happ & fds' & Heq & Hf').
    unfold columnBasedIndexRequest. rewrite Hfds, length_map, Happ. cbn [mbind res_bind].
    destruct (ir_Base it) as [base|] eqn:Hb; [|destruct (row_base_nil it i Hb) as [w ->]; by eexists].
    rewrite (row_base_Ok it base i t Hb Ht), Ht, Hrow. cbn [mbind res_bind].
    eexists _, t, row. split; [done|]. split_and!; try done; [|by rewrite map_map].
    apply InsertMsg_CheckAligned_Ok; [done|]. split_and!; [done..|]. intros _. exists fds'. done.
Qed.

(** C21 (roundtrip): the rows of columns of [n] rows each, appended one after the other to
    empty fields by [AppendFieldData], give back of every column its type, its name, its
    identifier and all of its values, in order. What the function does not copy is lost: the
    attributes that the model keeps in [fd_Rest] (whether the field is dynamic, and which of
    its values are valid). *)
Theorem AppendFieldData_roundtrip fds n :
  Forall (λ fd, field_allocated fd ∧ GetNumRowOfFieldData fd = Ok n) fds → 0 < n →
  foldM (λ i dst, AppendFieldData dst (map Some fds) i) (seqZ 0 n) (replicate (length fds) None)
  = Ok (map (λ fd, Some (MkFieldData (fd_Type fd) (fd_FieldName fd) (fd_FieldId fd) (fd_Field fd) "")) fds).
Proof.
  intros Hf Hn. rewrite <-(Z2Nat.id n) by lia.
  replace (replicate (length fds) None) with (map (some_rows 0 0) fds)
    by (clear; induction fds; simpl; congruence).
  rewrite (foldM_seqZ _ (λ k, map (some_rows 0 k) fds))
    by (intros k Hk; apply (AppendFieldData_rows fds n 0 k Hf); lia).
  f_equal. apply List.map_ext_Forall. eapply list.Forall_impl; [exact Hf|]. intros fd [Ha Hr].
  unfold some_rows. destruct (Z.to_nat n) as [|k] eqn:Hk; [lia|]. rewrite <-Hk, (field_rows_all fd n) by done.
  done.
Qed.

Lemma begin_end_fold ts b e :
  b ≤ e →
  let r := foldl (λ '(b, e) t, (if bool_decide (t < b) then t else b, if bool_decide (t > e) then t else e))
             (b, e) ts in
  r.1 ≤ b ∧ e ≤ r.2 ∧ Forall (λ t, r.1 ≤ t ≤ r.2) ts
  ∧ (r.1 = b ∨ r.1 ∈ ts) ∧ (r.2 = e ∨ r.2 ∈ ts).
Proof.
  revert b e. induction ts as [|t ts IH]; intros b e Hbe; [cbn; split_and!; auto; lia|].
  cbn [foldl]. specialize (IH (if bool_decide (t < b) then t else b) (if bool_decide (t > e) then t else e)).
  destruct IH as (Hb & He & Hf & H1 & H2); [repeat case_bool_decide; lia|]. cbv zeta.
  revert Hb He Hf H1 H2. generalize (foldl (λ '(b, e) t, (if bool_decide (t < b) then t else b,
    if bool_decide (t > e) then t else e)) (if bool_decide (t < b) then t else b,
    if bool_decide (t > e) then t else e) ts).
  intros r Hb He Hf H1 H2. split_and!; [repeat case_bool_decide; lia..| | |].
  - constructor; [repeat case_bool_decide; lia|done].
  - destruct H1 as [->|H1]; [|right; by right]. clear. case_bool_decide; [right; by left|by left].
  - destruct H2 as [->|H2]; [|right; by right]. clear. case_bool_decide; [right; by left|by left].
Qed.

Lemma begin_end_spec ts b e :
  begin_end ts = (b, e) →
  match ts with [] => b = 0 ∧ e = 0 | _ => b ∈ ts ∧ e ∈ ts ∧ Forall (λ t, b ≤ t ≤ e) ts end.
Proof.
  destruct ts as [|t ts]; cbn [begin_end]; [by intros [= <- <-]|]. intros Heq.
  pose proof (begin_end_fold (t :: ts) t t ltac:(lia)) as Hr. cbv zeta in Hr. rewrite Heq in Hr. cbn [fst snd] in Hr.
  destruct Hr as (_ & _ & Hf & Hb & He). split_and!; [| |done].
  - destruct Hb as [->|]; [by left|done].
  - destruct He as [->|]; [by left|done].
Qed.

(** The time at which a message begins. *)
Definition first_of (ts : list Z) (b : Z) : Prop :=
  match ts with [] => b = 0 | _ => b ∈ ts ∧ Forall (λ t, b ≤ t) ts end.
Definition begins (base : MsgBase) (m : TsMsg) : Prop :=
  match m with
  | InsertMsg _ r => first_of (ir_Timestamps r) (BeginTs m)
  | DeleteMsg _ r => first_of (dr_Timestamps r) (BeginTs m)
  | DataNodeTtMsg _ _ => BeginTs m = 0
  | _ => BeginTs m = mb_Timestamp base
  end.

Lemma begin_first ts : first_of ts (begin_end ts).1.
Proof.
  destruct (begin_end ts) as [b e] eqn:Hbe. apply begin_end_spec in Hbe. destruct ts; [tauto|].
  destruct Hbe as (Hb & _ & Hf). split; [done|]. eapply list.Forall_impl; [exact Hf|]. simpl. lia.
Qed.

Section position.
Context `{Q : QueueCodec} `{L : !QueueLaws}.

(** [r] is a message that begins at the right time, or an error. *)
Definition total (base : MsgBase) (r : res TsMsg) : Prop :=
  (∃ m, r = Ok m ∧ begins base m) ∨ ∃ e, r = Err e.

Lemma unmarshal_ticked_total t make bs b :
  header_Unmarshal bs = Ok (Some b) → (∀ r, begins b (make (MkBaseMsg (mb_Timestamp b) (mb_Timestamp b) [] None) r)) →
  total b (unmarshal_ticked t make (MBytes bs)).
Proof.
  intros Hh Hm. unfold unmarshal_ticked, total. cbn.
  destruct (request_Unmarshal t bs) as [rq| |w] eqn:Hr; cbn; [|right; by eexists|by destruct (request_no_panic t bs w)].
  pose proof (request_base_header t bs rq Hr) as Hb. rewrite Hh in Hb. injection Hb as <-. cbn.
  left. eexists. split; [done|]. apply Hm.
Qed.

Lemma MessageUnmarshal_total payload base :
  header_Unmarshal payload = Ok (Some base) →
  total base (MessageUnmarshal (MBytes payload) (mb_MsgType base)).
Proof.
  intros Hh. unfold MessageUnmarshal. destruct (mb_MsgType base); cbn [TempMap];
    try (by right; eexists); try (by apply unmarshal_ticked_total).
  - unfold InsertMsg_Unmarshal, total. cbn.
    destruct (proto_Unmarshal payload) as [r| |w] eqn:Hr; cbn; [|right; by eexists|by destruct (insert_no_panic payload w)].
    left. pose proof (begin_first (ir_Timestamps r)). destruct (begin_end _). eexists. by split.
  - unfold DeleteMsg_Unmarshal, total. cbn.
    destruct (proto_Unmarshal payload) as [r| |w] eqn:Hr; cbn; [|right; by eexists|by destruct (delete_no_panic payload w)].
    left. pose proof (begin_first (dr_Timestamps (compat_keys r))). destruct (begin_end _). eexists. by split.
  - unfold DataNodeTtMsg_Unmarshal, total. cbn.
    destruct (request_Unmarshal _ payload) as [r| |w] eqn:Hr; cbn; [|right; by eexists|by destruct (request_no_panic MsgType_DataNodeTt payload w)].
    left. eexists. by split.
Qed.

(** Reading the position of a message never panics, although the messages without rows use
    the base of their request without a test: the header, which has the same base, is read
    first.  A position that is found has the last element of the topic, the identifier of the
    message and the time at which the message begins: the smallest timestamp of its rows or the
    one of its base, but 0 for the time tick of a data node. *)
Theorem GetMsgPosition_total msg :
  (∃ e, GetMsgPosition msg = Err e)
  ∨ ∃ payload base m, m_Payload msg = Some payload ∧ header_Unmarshal payload = Ok (Some base)
      ∧ MessageUnmarshal (MBytes payload) (mb_MsgType base) = Ok m ∧ begins base m
      ∧ GetMsgPosition msg = Ok (MsgPos (path_Base (m_Topic msg)) (m_ID msg) (BeginTs m)).
Proof.
  unfold GetMsgPosition. destruct (m_Payload msg) as [payload|]; [|left; by eexists].
  destruct (header_Unmarshal payload) as [[base|]| |w] eqn:Hh;
    [|left; by eexists|left; by eexists|by destruct (header_no_panic payload w)].
  destruct (MessageUnmarshal_total payload base Hh) as [(m & Hm & Hb)|(e & He)].
  - right. exists payload, base, m. by rewrite Hm.
  - left. rewrite He. by eexists.
Qed.
End position.

(** An old deletion without a list of keys gets its integer keys, and is aligned if it has
    a timestamp for each of them. *)
Lemma compat_keys_aligned r :
  dr_PrimaryKeys r = None → length (dr_Timestamps r) = length (dr_Int64PrimaryKeys r) →
  DeleteMsg_CheckAligned (compat_keys r) = Ok tt.
Proof.
  intros Hn Hl. unfold DeleteMsg_CheckAligned, compat_keys. rewrite Hn. cbn. unfold zlen. rewrite Hl.
  by rewrite !bool_decide_false by lia.
Qed.

(** ** Identifiers *)
Lemma DeserializeKafkaID_Serialize z : in_s 64 z → DeserializeKafkaID (SerializeKafkaID z) = Ok (MkKafkaID z).
Proof.
  intros Hz. unfold DeserializeKafkaID, SerializeKafkaID, zlen. rewrite length_le_put, bool_decide_true by lia.
  rewrite take_ge by (rewrite length_le_put; lia). rewrite le_get_put.
  change (8 * Z.of_nat 8) with 64. change (_ mod 2 ^ 64) with (wrapu 64 (uint64 z)).
  rewrite wrapu_wrapu, wraps_wrapu by lia. by rewrite wraps_id.
Qed.

(** Pulsar's order: first the ledger, then the entry, then the place in the batch. *)
Definition pulsar_le (p q : PulsarID) : Prop :=
  pid_LedgerID p < pid_LedgerID q
  ∨ pid_LedgerID p = pid_LedgerID q
    ∧ (pid_EntryID p < pid_EntryID q
       ∨ pid_EntryID p = pid_EntryID q ∧ pid_BatchIdx p ≤ pid_BatchIdx q).

Section order.
Context `{PC : PulsarClient} `{PL : !PulsarLaws}.

(** [LessOrEqualThan] compares each part of the identifiers.  What it calls less or equal is
    less or equal in Pulsar's order, but it denies pairs that are: it is not total, and an
    identifier of a later ledger with a smaller entry is not comparable. *)
Theorem pulsar_LessOrEqualThan_spec p q :
  ∃ b, pulsar_LessOrEqualThan p (pulsar_Serialize q) = Ok b
    ∧ (b = true → pulsar_le p q)
    ∧ (b = false ↔ pulsar_le p q ∧ (pid_EntryID q < pid_EntryID p ∨ pid_BatchIdx q < pid_BatchIdx p)
                   ∨ ¬ pulsar_le p q)
    ∧ (pid_LedgerID p < pid_LedgerID q → pid_EntryID q < pid_EntryID p →
       pulsar_le p q ∧ b = false ∧ pulsar_LessOrEqualThan q (pulsar_Serialize p) = Ok false).
Proof.
  unfold pulsar_LessOrEqualThan. rewrite !pulsar_Deserialize_Serialize. cbn. eexists. split; [done|].
  unfold pulsar_le. rewrite andb_false_iff, andb_false_iff, !bool_decide_eq_false, !andb_true_iff, !bool_decide_eq_true.
  split_and!; [lia|lia|]. intros Hl He. split_and!; [lia..|].
  rewrite (bool_decide_false (pid_LedgerID q ≤ _)) by lia. done.
Qed.
End order.

(** ** Examples *)
Definition sample_fields : list FieldData :=
  [MkFieldData 5 "id" 100 (FieldData_Scalars (ScalarField_LongData [11; 12; 13])) "";
   MkFieldData 101 "vec" 101 (FieldData_Vectors 2 (VectorField_FloatVector [1; 2; 3; 4; 5; 6])) "";
   MkFieldData 100 "bits" 102 (FieldData_Vectors 8 (VectorField_BinaryVector (map byte_of_Z [7; 8; 9]))) ""].

Definition sample_base : MsgBase := MkMsgBase MsgType_Insert 7 60 3 "".
Definition sample_insert : InsertRequest :=
  MkInsertRequest (Some sample_base) "ch" "c" "p" 1 2 3 4 [60; 50; 70] [1; 2; 3] [] (map Some sample_fields)
    3 ColumnBased "".

Lemma IndexRequest_aligned_witness :
  ∃ r, IndexRequest sample_insert 1 = Ok r ∧ InsertMsg_CheckAligned r = Ok tt
    ∧ ir_FieldsData r = map (some_rows 1 1) sample_fields.
Proof.
  destruct (IndexRequest_aligned sample_insert 1)
    as (r & t & row & Hr & Ha & _ & _ & _ & _ & _ & _ & _ & _ & Hf).
  - by right.
  - split_and!; [vm_compute; discriminate..|]. repeat constructor; vm_compute; discriminate.
  - vm_compute. reflexivity.
  - vm_compute. split; [discriminate|reflexivity].
  - exists r. split_and!; [exact Hr|exact Ha|]. by apply Hf.
Defined.

Lemma AppendFieldData_roundtrip_witness :
  foldM (λ i dst, AppendFieldData dst (map Some sample_fields) i) [0; 1; 2] [None; None; None]
  = Ok (map Some sample_fields).
Proof.
  apply (AppendFieldData_roundtrip sample_fields 3).
  - repeat (constructor; [split; [vm_compute; discriminate|reflexivity]|]). constructor.
  - reflexivity.
Defined.

(** A small encoding: one payload of each kind that is decoded. *)
Definition one_payload {A} (name : string) (x : A) (bs : list byte) : res A :=
  if bool_decide (bs = bytes_of_string name) then Ok x else Err (Errorf "cannot parse").
Definition tick_base : MsgBase := MkMsgBase MsgType_TimeTick 1 9 1 "".
#[local] Instance sample_queue : QueueCodec := {|
  insert_codec := {| proto_Marshal x := Err (Errorf ""); proto_Unmarshal := one_payload "insert" sample_insert |};
  delete_codec := {| proto_Marshal x := Err (Errorf ""); proto_Unmarshal bs := Err (Errorf "cannot parse") |};
  request_codec t := {| proto_Marshal x := Err (Errorf "");
                        proto_Unmarshal := one_payload "tick" (MkRequest (Some tick_base) "") |};
  header_Unmarshal bs :=
    if bool_decide (bs = bytes_of_string "insert") then Ok (Some sample_base)
    else one_payload "tick" (Some tick_base) bs;
|}.
#[local] Instance sample_queue_laws : QueueLaws.
Proof.
  constructor.
  - intros bs r. cbn. unfold one_payload. case_bool_decide as Hb; [|done].
    intros [= <-]. by rewrite bool_decide_true.
  - done.
  - intros t bs r. unfold request_Unmarshal. cbn. unfold one_payload.
    case_bool_decide as Hb; [|done]. intros [= <-]. subst bs. done.
  - intros bs w. cbn. unfold one_payload. by repeat case_bool_decide.
  - intros bs w. cbn. unfold one_payload. by case_bool_decide.
  - done.
  - intros t bs w. unfold request_Unmarshal. cbn. unfold one_payload. by case_bool_decide.
Qed.

Lemma GetMsgPosition_total_witness :
  GetMsgPosition (MkMessage "public/default/dml_0" (Some (bytes_of_string "insert")) []) = Ok (MsgPos "dml_0" [] 50).
Proof.
  destruct (GetMsgPosition_total (MkMessage "public/default/dml_0" (Some (bytes_of_string "insert")) []))
    as [[e He]|(payload & base & m & _ & _ & Hm & _ & Hp)].
  - vm_compute in He. discriminate He.
  - rewrite Hp. vm_compute in Hp. exact (eq_sym Hp).
Defined.

(** The bits of the number of an identifier. *)
Fixpoint pos_bytes (p : positive) : list byte :=
  match p with xH => [] | xO p => x00 :: pos_bytes p | xI p => x01 :: pos_bytes p end.
Definition bytes_pos (bs : list byte) : positive :=
  foldr (λ b p, if bool_decide (b = x00) then xO p else xI p) xH bs.
Lemma bytes_pos_bytes p : bytes_pos (pos_bytes p) = p.
Proof. induction p as [p IH|p IH|]; [| |done]; cbn; by f_equal. Qed.

#[local] Instance sample_pulsar : PulsarClient := {|
  pulsar_Serialize p :=
    pos_bytes (encode (pid_PartitionIdx p, pid_LedgerID p, pid_EntryID p, pid_BatchIdx p));
  pulsar_DeserializeMessageID bs :=
    match decode (A:=Z * Z * Z * Z) (bytes_pos bs) with
    | Some (a, b, c, d) => Ok (MkPulsarID a b c d)
    | None => Err (Errorf "invalid message id")
    end;
|}.
#[local] Instance sample_pulsar_laws : PulsarLaws.
Proof. constructor. intros [a b c d]. cbn. by rewrite bytes_pos_bytes, decode_encode. Qed.

Lemma pulsar_LessOrEqualThan_spec_witness :
  let p := MkPulsarID 0 4 9 0 in let q := MkPulsarID 0 5 1 0 in
  pulsar_le p q ∧ pulsar_LessOrEqualThan p (pulsar_Serialize q) = Ok false
  ∧ pulsar_LessOrEqualThan q (pulsar_Serialize p) = Ok false.
Proof.
  destruct (pulsar_LessOrEqualThan_spec (MkPulsarID 0 4 9 0) (MkPulsarID 0 5 1 0)) as (b & Hb & _ & _ & Hn).
  destruct Hn as (Hle & -> & Hq); [reflexivity|reflexivity|]. by split_and!.
Defined.
