(* ===== verification/Restore.v ===== *)
(** * Restoring backups

    Models [states/etcd_restore.go], [readBackupBytes] of [states/etcd_backup.go], and
    [readFixLengthHeader] of [states/backup_mock_connect.go], with the reading part of
    [LoadBackupCommand] ([states/load_backup.go]).  The store is any [MetaKV]. *)

From S2P Require Export Backup.

(** ** [bufio.Reader]

    What the reader still delivers, cut into the pieces in which it gets to its buffer:
    a single [Read] returns no more than what is left of the current piece.  The data
    ends with an error of the underlying reader, or with [EOF]. *)
Record bufio_Reader := MkRd { rd_pieces : list (list byte); rd_end : goerr }.

Fixpoint drop_bytes (n : nat) (pieces : list (list byte)) : list (list byte) :=
  match pieces with
  | [] => []
  | c :: cs => if bool_decide (n < length c)%nat then drop n c :: cs
               else drop_bytes (n - length c) cs
  end.

Definition rd_data (rd : bufio_Reader) : list byte := concat (rd_pieces rd).
Definition rd_skip (n : Z) (rd : bufio_Reader) : bufio_Reader :=
  MkRd (drop_bytes (Z.to_nat n) (rd_pieces rd)) (rd_end rd).

(** One [Read] of up to [n] bytes. *)
Definition bufio_Read (n : nat) (rd : bufio_Reader) : bufio_Reader * (list byte * option goerr) :=
  match rd_pieces rd with
  | [] => (rd, ([], Some (rd_end rd)))
  | c :: cs =>
      let rest := if bool_decide (n < length c)%nat then drop n c :: cs else cs in
      (MkRd rest (rd_end rd), (take n c, None))
  end.

(** [io.ReadFull]: when the data ends too early all of it is gone. *)
Definition rd_ReadFull (n : Z) (rd : bufio_Reader) : bufio_Reader * res (list byte) :=
  if bool_decide (n <= 0) then (rd, Ok [])
  else if bool_decide (zlen (rd_data rd) < n) then
    (MkRd [] (rd_end rd),
     Err (if bool_decide (rd_end rd = EOF) && bool_decide (rd_data rd ≠ [])
          then ErrUnexpectedEOF else rd_end rd))
  else (rd_skip n rd, Ok (take (Z.to_nat n) (rd_data rd))).

(** [make] and [io.ReadFull]. *)
Definition rd_make_ReadFull (n : Z) (rd : bufio_Reader) : bufio_Reader * res (list byte) :=
  if make_ok n then rd_ReadFull n rd else (rd, Panic "makeslice: len out of range").

(** The data and its length. *)
Definition readBackupBytes (rd : bufio_Reader) : bufio_Reader * res (list byte * Z) :=
  let '(rd, r) := rd_ReadFull 8 rd in
  match r with
  | Err e => (rd, Err e)
  | Panic w => (rd, Panic w)
  | Ok lb =>
      let nextBytes := le_get lb in
      let '(rd, r) := rd_make_ReadFull nextBytes rd in
      (rd, data ← r; Ok (data, nextBytes))
  end.

(** The length of the header is read with a single [Read]. *)
Definition readFixLengthHeader {T} `{ProtoCodec T} (rd : bufio_Reader) : bufio_Reader * res T :=
  let '(rd, (lb, err)) := bufio_Read 8 rd in
  if bool_decide (err = Some EOF) || bool_decide (length lb < 8)%nat then
    (rd, Err (Errorf "File does not contains valid header"))
  else
    let '(rd, r) := rd_make_ReadFull (le_get lb) rd in
    (rd, match r with
         | Ok headerBs =>
             match proto_Unmarshal headerBs with
             | Err _ => Err (Errorf "failed to unmarshal header")
             | r => r
             end
         | Err _ => Err (Errorf "failed to read header bytes")
         | Panic w => Panic w
         end).

Section restore.
Context {K : Type} `{MetaKV K} `{JsonSession} `{JsonStrings}.
Context `{ProtoCodec PartHeader} `{ProtoCodec KeyDataPair}.

(** ** Version 1: one pair after the other, for at most [fuel] pairs. *)
Fixpoint restoreFromV1File (fuel : nat) (cli : K) (rd : bufio_Reader) (header : BackupHeader)
    (i : Z) : option (K * bufio_Reader * res unit) :=
  match fuel with
  | O => None
  | S fuel =>
      let '(rd, r) := rd_ReadFull 8 rd in
      match r with
      | Err EOF => Some (cli, rd, Ok tt)
      | Err e => Some (cli, rd, Err e)
      | Panic w => Some (cli, rd, Panic w)
      | Ok lb =>
          let '(rd, r) := rd_make_ReadFull (le_get lb) rd in
          match r with
          | Err e => Some (cli, rd, Err e)
          | Panic w => Some (cli, rd, Panic w)
          | Ok bs =>
              match proto_Unmarshal bs with
              | Err _ => restoreFromV1File fuel cli rd header i
              | Panic w => Some (cli, rd, Panic w)
              | Ok entry =>
                  let '(cli, r) := mk_Save cli (kdp_Key entry) (string_of_bytes (kdp_Data entry)) in
                  match r with
                  | Ok _ =>
                      if bool_decide (bh_Entries header = 0)
                      then Some (cli, rd, Panic "integer divide by zero")
                      else restoreFromV1File fuel cli rd header (int64 (i + 1))
                  | r => Some (cli, rd, r)
                  end
              end
          end
      end
  end.

(** ** The etcd part of version 2 *)
Definition batchNum : nat := 10.

(** The goroutine that reads: the batches it sends, in order, and what it sends to
    [errCh].  The last batch is sent on every return, after the error. *)
Fixpoint read_batches (fuel : nat) (cnt : Z) (rd : bufio_Reader) (batch : list KeyDataPair)
    (i : Z) : option (list (list KeyDataPair) * bufio_Reader * res unit) :=
  match fuel with
  | O => None
  | S fuel =>
      let finish rd r := Some (match batch with [] => [] | _ => [batch] end, rd, r) in
      let '(rd, r) := rd_ReadFull 8 rd in
      match r with
      | Err EOF => finish rd (Ok tt)
      | Err e => finish rd (Err e)
      | Panic w => finish rd (Panic w)
      | Ok lb =>
          let nextBytes := le_get lb in
          if bool_decide (nextBytes = 0) then finish rd (Ok tt)
          else
            let '(rd, r) := rd_make_ReadFull nextBytes rd in
            match r with
            | Err e => finish rd (Err e)
            | Panic w => finish rd (Panic w)
            | Ok bs =>
                match proto_Unmarshal bs with
                | Err _ => read_batches fuel cnt rd batch i
                | Panic w => finish rd (Panic w)
                | Ok entry =>
                    let batch := batch ++ [entry] in
                    let '(sent, batch) :=
                      if bool_decide (batchNum <= length batch)%nat then ([batch], [])
                      else ([], batch) in
                    if bool_decide (cnt = 0)
                    then Some (sent, rd, Panic "integer divide by zero")
                    else match read_batches fuel cnt rd batch (int64 (i + 1)) with
                         | Some (bs, rd, r) => Some (sent ++ bs, rd, r)
                         | None => None
                         end
                end
            end
      end
  end.

(** How the three workers interleave: the order in which the batches reach the store,
    and how many are done when the result of the reader is received.  Every order of
    the batches is allowed. *)
Record Schedule := MkSchedule {
  sc_order : list (list KeyDataPair) → list (list KeyDataPair);
  sc_perm : ∀ l, sc_order l ≡ₚ l;
  sc_late : nat;
}.

Definition save_batch (cli : K) (batch : list KeyDataPair) : K * res unit :=
  mk_MultiSave cli (map kdp_Key batch) (map (λ e, string_of_bytes (kdp_Data e)) batch).

(** The store after all batches, and the results of the calls in their order. *)
Fixpoint run_workers (cli : K) (batches : list (list KeyDataPair)) : K * list (res unit) :=
  match batches with
  | [] => (cli, [])
  | b :: batches =>
      let '(cli, r) := save_batch cli b in
      let '(cli, rs) := run_workers cli batches in (cli, r :: rs)
  end.

(** A panic of a worker ends the process. *)
Fixpoint first_panic (rs : list (res unit)) : option string :=
  match rs with [] => None | Panic w :: _ => Some w | _ :: rs => first_panic rs end.

(** The variable [err] that the function and its workers share: the reader's result is
    stored after [late] results of the workers, and the last write counts. *)
Definition shared_err (late : nat) (reader : res unit) (rs : list (res unit)) : res unit :=
  List.last (drop late rs) reader.

Definition restoreEtcdFromBackV2 (fuel : nat) (sched : Schedule) (cli : K) (rd : bufio_Reader)
    (ph : PartHeader) : option (K * bufio_Reader * res string) :=
  match strings_Unmarshal (Extra ph) with
  | Err e => Some (cli, rd, Err e)
  | Panic w => Some (cli, rd, Panic w)
  | Ok meta =>
      match ParseInt (default "" (meta !! "cnt")) with
      | None => Some (cli, rd, Err (Errorf "strconv.ParseInt"))
      | Some cnt =>
          match read_batches fuel cnt rd [] 0 with
          | None => None
          | Some (batches, rd, r) =>
              let '(cli, rs) := run_workers cli (sc_order sched batches) in
              Some (cli, rd,
                    match r, first_panic rs with
                    | Panic w, _ | _, Some w => Panic w
                    | _, None => _ ← shared_err (sc_late sched) r rs; Ok (default "" (meta !! "instance"))
                    end)
          end
      end
  end.

(** ** The part of the metrics: [handler] keeps a state of type [T]. *)
Fixpoint restoreMetrics {T} (fuel : nat) (rd : bufio_Reader)
    (handler : Session → list byte → list byte → T → T) (t : T)
    : option (T * bufio_Reader * res unit) :=
  match fuel with
  | O => None
  | S fuel =>
      let '(rd, r) := readBackupBytes rd in
      match r with
      | Err e => Some (t, rd, if bool_decide (e = EOF) then Ok tt else Err e)
      | Panic w => Some (t, rd, Panic w)
      | Ok (bs, nb) =>
          if bool_decide (nb = 0) then Some (t, rd, Ok tt)
          else
            match session_Unmarshal bs with
            | Err e => Some (t, rd, Err e)
            | Panic w => Some (t, rd, Panic w)
            | Ok session =>
                let '(rd, r) := readBackupBytes rd in
                match r with
                | Err e => Some (t, rd, Err e)
                | Panic w => Some (t, rd, Panic w)
                | Ok (mbs, _) =>
                    let '(rd, r) := readBackupBytes rd in
                    match r with
                    | Err e => Some (t, rd, Err e)
                    | Panic w => Some (t, rd, Panic w)
                    | Ok (dmbs, _) => restoreMetrics fuel rd handler (handler session mbs dmbs t)
                    end
                end
            end
      end
  end.

(** ** The whole file *)
Record embedEtcdMockState := MockState {
  ms_client : K;
  ms_instanceName : string;
  ms_metrics : gmap string (list byte);
  ms_defaultMetrics : gmap string (list byte);
}.

Definition SetInstance (s : embedEtcdMockState) (instanceName : string) : embedEtcdMockState :=
  MockState (ms_client s) instanceName (ms_metrics s) (ms_defaultMetrics s).

Definition session_name (session : Session) : string :=
  ServerName session +:+ "-" +:+ FormatInt (ServerID session).

Definition store_metrics (session : Session) (metrics defaultMetrics : list byte)
    (s : embedEtcdMockState) : embedEtcdMockState :=
  MockState (ms_client s) (ms_instanceName s)
    (<[session_name session := metrics]> (ms_metrics s))
    (<[session_name session := defaultMetrics]> (ms_defaultMetrics s)).

(** [sched n] is the schedule of the part read when [n] rounds are left. *)
Fixpoint restoreV2File (fuel : nat) (sched : nat → Schedule) (rd : bufio_Reader)
    (state : embedEtcdMockState) : option (embedEtcdMockState * bufio_Reader * res unit) :=
  match fuel with
  | O => None
  | S fuel =>
      let '(rd, r) := readFixLengthHeader rd in
      match r with
      | Err _ => Some (state, rd, Ok tt)
      | Panic w => Some (state, rd, Panic w)
      | Ok ph =>
          if bool_decide (PartType ph = PartType_EtcdBackup) then
            match restoreEtcdFromBackV2 fuel (sched fuel) (ms_client state) rd ph with
            | None => None
            | Some (cli, rd, r) =>
                let state := MockState cli (ms_instanceName state) (ms_metrics state)
                               (ms_defaultMetrics state) in
                match r with
                | Ok instance => restoreV2File fuel sched rd (SetInstance state instance)
                | Err e => Some (state, rd, Err e)
                | Panic w => Some (state, rd, Panic w)
                end
            end
          else if bool_decide (PartType ph = PartType_MetricsBackup) then
            match restoreMetrics fuel rd store_metrics state with
            | None => None
            | Some (state, rd, Panic w) => Some (state, rd, Panic w)
            | Some (state, rd, _) => restoreV2File fuel sched rd state
            end
          else restoreV2File fuel sched rd state
      end
  end.

(** The reading part of [LoadBackupCommand], into a fresh store. *)
Definition load_backup `{ProtoCodec BackupHeader} (fuel : nat) (sched : nat → Schedule)
    (cli : K) (rd : bufio_Reader) : option (embedEtcdMockState * bufio_Reader * res unit) :=
  let state := MockState cli "" ∅ ∅ in
  let '(rd, r) := readFixLengthHeader rd in
  match r with
  | Err e => Some (state, rd, Err e)
  | Panic w => Some (state, rd, Panic w)
  | Ok header =>
      if bool_decide (bh_Version header = 1) then
        match restoreFromV1File fuel cli rd header 0 with
        | None => None
        | Some (cli, rd, r) =>
            let state := MockState cli "" ∅ ∅ in
            Some (match r with Ok _ => SetInstance state (bh_Instance header) | _ => state end, rd, r)
        end
      else if bool_decide (bh_Version header = 2) then restoreV2File fuel sched rd state
      else Some (state, rd, Ok tt)
  end.
End restore.
Arguments embedEtcdMockState : clear implicits.

(** ** Reading *)
Lemma concat_drop_bytes n pieces : concat (drop_bytes n pieces) = drop n (concat pieces).
Proof.
  revert n. induction pieces as [|c cs IH]; intros n; simpl; [by rewrite drop_nil|].
  case_bool_decide as Hn.
  - simpl. by rewrite drop_app_le by lia.
  - rewrite IH, drop_app_ge by lia. done.
Qed.

Definition one_piece (rd : bufio_Reader) : Prop := (length (rd_pieces rd) ≤ 1)%nat.

Lemma drop_bytes_length n pieces : (length (drop_bytes n pieces) ≤ length pieces)%nat.
Proof.
  revert n. induction pieces as [|c cs IH]; intros n; simpl; [done|].
  case_bool_decide; simpl; [lia|]. specialize (IH (n - length c)%nat). lia.
Qed.

(** [rd'] is [rd] after reading [bs]. *)
Definition has_read (rd rd' : bufio_Reader) (bs : list byte) : Prop :=
  rd_data rd = bs ++ rd_data rd' ∧ rd_end rd' = rd_end rd ∧ (one_piece rd → one_piece rd').

Lemma rd_ReadFull_app rd n bs rest :
  rd_data rd = bs ++ rest → n = zlen bs →
  ∃ rd', rd_ReadFull n rd = (rd', Ok bs) ∧ has_read rd rd' bs ∧ rd_data rd' = rest.
Proof.
  intros Hd ->. unfold rd_ReadFull. rewrite Hd. case_bool_decide as Hn.
  { destruct bs; [|unfold zlen in Hn; simpl in Hn; lia]. exists rd. by split_and!. }
  rewrite bool_decide_false by (rewrite zlen_app; pose proof (zlen_nonneg rest); lia).
  assert (take (Z.to_nat (zlen bs)) (bs ++ rest) = bs) as ->
    by (unfold zlen; by rewrite Nat2Z.id, take_length_app).
  assert (rd_data (rd_skip (zlen bs) rd) = rest) as Hr.
  { unfold rd_data, rd_skip. cbn [rd_pieces]. rewrite concat_drop_bytes. fold (rd_data rd).
    rewrite Hd. unfold zlen. by rewrite Nat2Z.id, drop_length_app. }
  eexists. split; [done|]. split; [|done]. split_and!; [by rewrite Hr|done|].
  unfold one_piece, rd_skip. cbn [rd_pieces]. intros Ho.
  pose proof (drop_bytes_length (Z.to_nat (zlen bs)) (rd_pieces rd)). lia.
Qed.

Lemma has_read_trans rd rd1 rd2 b1 b2 :
  has_read rd rd1 b1 → has_read rd1 rd2 b2 → has_read rd rd2 (b1 ++ b2).
Proof.
  intros (H1 & H2 & H3) (H4 & H5 & H6). split_and!; [|congruence|auto].
  by rewrite H1, H4, <-app_assoc.
Qed.

(** What a frame holds can be allocated. *)
Definition framable (bs : list byte) : Prop := zlen bs ≤ maxAlloc.

Lemma frame_eq bs : frame bs = le_put 8 (zlen bs) ++ bs.
Proof. unfold frame. case_bool_decide as Hb; [done|]. by destruct bs. Qed.

Lemma le_get_length bs : framable bs → le_get (le_put 8 (zlen bs)) = zlen bs.
Proof.
  unfold framable, maxAlloc. intros Hb. rewrite le_get_put. pose proof (zlen_nonneg bs).
  apply Z.mod_small. change (8 * Z.of_nat 8) with 64. lia.
Qed.

Lemma rd_make_ReadFull_app rd bs rest :
  rd_data rd = bs ++ rest → framable bs →
  ∃ rd', rd_make_ReadFull (zlen bs) rd = (rd', Ok bs) ∧ has_read rd rd' bs ∧ rd_data rd' = rest.
Proof.
  intros Hd Hb. unfold rd_make_ReadFull, make_ok. pose proof (zlen_nonneg bs).
  rewrite bool_decide_true by (unfold framable in Hb; lia). by apply rd_ReadFull_app.
Qed.

(** The length field of the next frame. *)
Lemma read_length rd bs rest :
  rd_data rd = frame bs ++ rest → framable bs →
  ∃ rd', rd_ReadFull 8 rd = (rd', Ok (le_put 8 (zlen bs)))
    ∧ has_read rd rd' (le_put 8 (zlen bs)) ∧ rd_data rd' = bs ++ rest.
Proof.
  rewrite frame_eq, <-app_assoc. intros Hd Hb. apply rd_ReadFull_app; [done|].
  unfold zlen. by rewrite length_le_put.
Qed.

Lemma readBackupBytes_app rd bs rest :
  rd_data rd = frame bs ++ rest → framable bs →
  ∃ rd', readBackupBytes rd = (rd', Ok (bs, zlen bs)) ∧ has_read rd rd' (frame bs)
    ∧ rd_data rd' = rest.
Proof.
  intros Hd Hb. destruct (read_length rd bs rest Hd Hb) as (rd1 & H1 & Hr1 & Hd1).
  unfold readBackupBytes. rewrite H1, le_get_length by done.
  destruct (rd_make_ReadFull_app rd1 bs rest Hd1 Hb) as (rd2 & -> & Hr2 & Hd2).
  exists rd2. split_and!; [done| |done]. rewrite frame_eq. by eapply has_read_trans.
Qed.

(** The header is read when its length field lies in one piece. *)
Lemma readFixLengthHeader_app {T} `{ProtoCodec T} rd c cs bs rest :
  rd_pieces rd = c :: cs → (8 ≤ length c)%nat →
  rd_data rd = frame bs ++ rest → framable bs →
  ∃ rd', readFixLengthHeader (T:=T) rd
    = (rd', match proto_Unmarshal bs with
            | Err _ => Err (Errorf "failed to unmarshal header") | r => r end)
    ∧ has_read rd rd' (frame bs) ∧ rd_data rd' = rest.
Proof.
  intros Hp Hc Hd Hb. unfold readFixLengthHeader, bufio_Read. rewrite Hp.
  rewrite bool_decide_false by done. rewrite bool_decide_false by (rewrite length_take; lia).
  rewrite frame_eq, <-app_assoc in Hd.
  assert (c ++ concat cs = le_put 8 (zlen bs) ++ bs ++ rest) as Hd'
    by (rewrite <-Hd; unfold rd_data; by rewrite Hp).
  assert (length (le_put 8 (zlen bs)) = 8%nat) as Hl by apply length_le_put.
  assert (take 8 c = le_put 8 (zlen bs) ∧ drop 8 c ++ concat cs = bs ++ rest) as [-> Hrest].
  { apply app_inj_1; [rewrite length_take; lia|]. by rewrite app_assoc, take_drop. }
  rewrite orb_false_l. set (rd1 := MkRd _ _).
  assert (rd_data rd1 = bs ++ rest) as Hd1.
  { unfold rd_data, rd1. cbn [rd_pieces]. rewrite <-Hrest. case_bool_decide; [done|].
    by rewrite drop_ge by lia. }
  rewrite le_get_length by done.
  destruct (rd_make_ReadFull_app rd1 bs rest Hd1 Hb) as (rd2 & -> & Hr2 & Hd2).
  exists rd2. split_and!; [done| |done]. rewrite frame_eq.
  apply (has_read_trans rd rd1); [|done]. split_and!; [by rewrite Hd, Hd1|done|].
  unfold one_piece, rd1. rewrite Hp. cbn [rd_pieces length]. case_bool_decide; simpl; lia.
Qed.

(** ** The reader goroutine *)
Section restore_properties.
Context {K : Type} `{MetaKVBatch K} `{JsonStrings} `{ProtoCodec PartHeader}.
Context `{ProtoLaws KeyDataPair (KDP "" [])}.

(** An entry that its encoding brings back, in a frame that is not the stopper. *)
Definition entry_ok (e : KeyDataPair) : Prop :=
  encodable e ∧ framable (marshalled e) ∧ kdp_Key e ≠ "".

Lemma entry_decodes e : entry_ok e →
  proto_Unmarshal (marshalled e) = Ok e ∧ zlen (marshalled e) ≠ 0.
Proof.
  intros ([bs Hb] & _ & Hk). unfold marshalled. rewrite Hb.
  assert (proto_Unmarshal bs = Ok e) as Hu by by apply proto_roundtrip. split; [done|].
  intros Hz. assert (bs = []) as -> by (destruct bs; [done|unfold zlen in Hz; simpl in Hz; lia]).
  rewrite proto_empty in Hu. injection Hu as <-. done.
Qed.

Lemma read_batches_all fuel cnt rd batch i entries rest :
  cnt ≠ 0 → Forall entry_ok entries → (length batch < batchNum)%nat →
  rd_data rd = frames (map marshalled entries) ++ frame [] ++ rest →
  (length entries < fuel)%nat →
  ∃ batches rd', read_batches fuel cnt rd batch i = Some (batches, rd', Ok tt)
    ∧ concat batches = batch ++ entries
    ∧ has_read rd rd' (frames (map marshalled entries) ++ frame []) ∧ rd_data rd' = rest.
Proof.
  intros Hcnt. revert fuel rd batch i.
  induction entries as [|e entries IH]; intros [|fuel] rd batch i He Hb Hd Hf; simpl in Hf; try lia;
    cbn [read_batches].
  - destruct (read_length rd [] rest Hd ltac:(done)) as (rd1 & -> & Hr1 & Hd1).
    rewrite le_get_length by done. rewrite bool_decide_true by done.
    eexists _, rd1. split_and!; [done| |done..]. destruct batch; simpl; by rewrite ?app_nil_r.
  - apply list.Forall_cons in He as [He Hes]. destruct (entry_decodes e He) as [Hu Hz].
    unfold frames in Hd. cbn [map concat] in Hd. rewrite <-app_assoc in Hd.
    destruct (read_length rd _ _ Hd ltac:(apply He)) as (rd1 & -> & Hr1 & Hd1).
    rewrite le_get_length by apply He. rewrite bool_decide_false by done.
    destruct (rd_make_ReadFull_app rd1 _ _ Hd1 ltac:(apply He)) as (rd2 & -> & Hr2 & Hd2).
    rewrite Hu.
    assert (has_read rd rd2 (frame (marshalled e))) as Hr
      by (rewrite frame_eq; by eapply has_read_trans).
    case_bool_decide as Hfull; rewrite bool_decide_false by done.
    + destruct (IH fuel rd2 [] (int64 (i + 1)) Hes) as (bs & rd3 & -> & Hc & Hr3 & Hd3);
        [unfold batchNum; simpl; lia|done|lia|].
      eexists _, rd3. split_and!; [done| | |done].
      * cbn [app concat]. by rewrite Hc, <-app_assoc.
      * unfold frames. cbn [map concat]. rewrite <-app_assoc. by eapply has_read_trans.
    + destruct (IH fuel rd2 (batch ++ [e]) (int64 (i + 1)) Hes) as (bs & rd3 & -> & Hc & Hr3 & Hd3);
        [lia|done|lia|].
      eexists _, rd3. split_and!; [done| | |done].
      * cbn [app]. by rewrite Hc, <-app_assoc.
      * unfold frames. cbn [map concat]. rewrite <-app_assoc. by eapply has_read_trans.
Qed.

(** ** The workers *)
Definition entry_pair (e : KeyDataPair) : string * string :=
  (kdp_Key e, string_of_bytes (kdp_Data e)).

Lemma zip_entries b :
  zip (map kdp_Key b) (map (λ e, string_of_bytes (kdp_Data e)) b) = map entry_pair b.
Proof. induction b as [|e b IH]; simpl; [done|by rewrite IH]. Qed.

Definition keys_ok (l : list KeyDataPair) : Prop :=
  NoDup (map kdp_Key l) ∧ "" ∉ map kdp_Key l.

Lemma keys_ok_app l1 l2 : keys_ok (l1 ++ l2) → keys_ok l1 ∧ keys_ok l2.
Proof.
  unfold keys_ok. rewrite map_app. intros [(Hl1 & _ & Hl2)%list.NoDup_app Hn].
  rewrite elem_of_app in Hn. naive_solver.
Qed.

Lemma entries_map_app l1 l2 :
  keys_ok (l1 ++ l2) →
  list_to_map (map entry_pair (l1 ++ l2))
  =@{gmap string string} list_to_map (map entry_pair l2) ∪ list_to_map (map entry_pair l1).
Proof.
  intros [Hnd _]. rewrite <-list_to_map_app, <-map_app. apply list_to_map_proper.
  - change (NoDup (map fst (map entry_pair (l1 ++ l2)))). by rewrite map_map.
  - by rewrite Permutation_app_comm.
Qed.

Lemma run_workers_all cli batches :
  mk_up cli → keys_ok (concat batches) →
  ∃ cli' rs, run_workers cli batches = (cli', rs) ∧ mk_up cli' ∧ Forall (λ r, r = Ok tt) rs
    ∧ mk_map cli' = list_to_map (map entry_pair (concat batches)) ∪ mk_map cli.
Proof.
  revert cli. induction batches as [|b batches IH]; intros cli Hup Hk.
  - exists cli, []. split_and!; [done..|constructor|]. simpl. by rewrite (left_id_L ∅ (∪)).
  - simpl in Hk. destruct (keys_ok_app _ _ Hk) as [[Hnd Hne] Hk2].
    destruct (law_MultiSave cli (map kdp_Key b) (map (λ e, string_of_bytes (kdp_Data e)) b))
      as (cli1 & Hms & Hup1 & _ & Hm1); [done|by rewrite !length_map|done..|].
    destruct (IH cli1 Hup1 Hk2) as (cli' & rs & Hrun & Hup' & Hrs & Hm').
    simpl. unfold save_batch. rewrite Hms, Hrun. exists cli', (Ok tt :: rs).
    split_and!; [done..|by constructor|]. rewrite Hm', Hm1, zip_entries.
    by rewrite (assoc_L (∪)), <-entries_map_app.
Qed.

Lemma all_ok_results late rs :
  Forall (λ r, r = Ok tt) rs → first_panic rs = None ∧ shared_err late (Ok tt) rs = Ok tt.
Proof.
  intros Hrs. split.
  - induction Hrs as [|r rs -> _ IH]; [done|exact IH].
  - unfold shared_err. apply (Forall_drop _ late) in Hrs.
    induction Hrs as [|r l -> _ IH]; [done|]. by destruct l.
Qed.

(** The entries are stored whatever the interleaving of the workers. *)
Lemma restoreEtcd_all fuel sched cli rd ph meta cnt entries rest :
  strings_Unmarshal (Extra ph) = Ok meta → ParseInt (default "" (meta !! "cnt")) = Some cnt →
  cnt ≠ 0 → Forall entry_ok entries → NoDup (map kdp_Key entries) → mk_up cli →
  rd_data rd = frames (map marshalled entries) ++ frame [] ++ rest →
  (length entries < fuel)%nat →
  ∃ cli' rd', restoreEtcdFromBackV2 fuel sched cli rd ph
    = Some (cli', rd', Ok (default "" (meta !! "instance")))
    ∧ mk_up cli' ∧ mk_map cli' = list_to_map (map entry_pair entries) ∪ mk_map cli
    ∧ has_read rd rd' (frames (map marshalled entries) ++ frame []) ∧ rd_data rd' = rest.
Proof.
  intros Hmeta Hp Hcnt He Hnd Hup Hd Hf. unfold restoreEtcdFromBackV2. rewrite Hmeta, Hp.
  destruct (read_batches_all fuel cnt rd [] 0 entries rest) as (bs & rd' & -> & Hc & Hr & Hd');
    try done; [unfold batchNum; simpl; lia|].
  assert (concat (sc_order sched bs) ≡ₚ entries) as Hperm.
  { rewrite (sc_perm sched bs). by rewrite Hc. }
  assert (NoDup (map kdp_Key (concat (sc_order sched bs)))) as Hnd' by by rewrite Hperm.
  destruct (run_workers_all cli (sc_order sched bs)) as (cli' & rs & -> & Hup' & Hrs & Hm); [done| |].
  { split; [done|]. intros Hin. rewrite Hperm in Hin. apply list_elem_of_fmap in Hin as (e & Hek & Hin).
    eapply list.Forall_forall in He as (_ & _ & Hne); [|done]. by rewrite <-Hek in Hne. }
  destruct (all_ok_results (sc_late sched) rs Hrs) as [-> ->].
  eexists cli', rd'. split_and!; [done..| |done|done]. rewrite Hm. f_equal.
  apply list_to_map_proper; [|by rewrite Hperm].
  change (NoDup (map fst (map entry_pair (concat (sc_order sched bs))))). by rewrite map_map.
Qed.
End restore_properties.

(** ** Backup and restore of the etcd part *)
Lemma prefixed_nodup (m : gmap string string) p : NoDup (prefixed m p).*1.
Proof.
  assert (StronglySorted kv_lt (prefixed m p)) as Hs by apply StronglySorted_filter, sorted_kvs_sorted.
  induction Hs as [|x l _ IH Hx]; [constructor|]. cbn. constructor; [|done].
  intros (y & Hxy & Hy)%list_elem_of_fmap. eapply list.Forall_forall in Hx; [|done].
  exact (klt_ne _ _ Hx Hxy).
Qed.

Lemma prefixed_map (m : gmap string string) p :
  list_to_map (prefixed m p) = filter (λ x, HasPrefix x.1 p = true) m.
Proof.
  apply map_eq. intros k. apply option_eq. intros v.
  rewrite <-elem_of_list_to_map by apply prefixed_nodup. unfold prefixed.
  rewrite list_elem_of_filter, elem_of_sorted_kvs, map_lookup_filter_Some. tauto.
Qed.

Lemma pair_entries l : map entry_pair (map pair_entry l) = l.
Proof.
  rewrite map_map. rewrite <-(map_id l) at 2. apply map_ext. intros [k v]. unfold entry_pair. simpl.
  by rewrite string_of_bytes_of_string.
Qed.

Lemma backup_meta_cnt base cnt rev :
  in_s 64 cnt → ParseInt (default "" (backup_meta base cnt rev !! "cnt")) = Some cnt.
Proof.
  intros Hc. unfold backup_meta. rewrite !lookup_insert_ne by done. rewrite lookup_singleton_eq.
  by apply ParseInt_FormatInt.
Qed.

Lemma backup_meta_instance base cnt rev :
  default "" (backup_meta base cnt rev !! "instance") = (split_base base).1.
Proof. unfold backup_meta. by rewrite lookup_insert_ne, lookup_insert_eq by done. Qed.

Section backup_restore.
Context {St K : Type} `{EtcdLaws St} `{MetaKVBatch K} `{JsonStrings}.
Context `{ProtoCodec PartHeader} `{ProtoLaws KeyDataPair (KDP "" [])}.

(** A message that can be written to a frame and read back. *)
Definition storable {M} `{ProtoCodec M} (m : M) : Prop :=
  encodable m ∧ framable (marshalled m).

(** What a backup under [base] needs: pairs to back up, none beyond them, and encodings
    of the header and the pairs. *)
Definition backup_ok (kv : etcdKV St) (base prefix : string) : Prop :=
  let key := joinPath [base; prefix] in
  let pairs := prefixed (kv_map kv) key in
  let meta := backup_meta base (zlen pairs) (etcd_rev (client kv)) in
  kv_up kv ∧ ¬ beyond kv key key ∧ pairs ≠ [] ∧ zlen pairs < 2 ^ 63
  ∧ storable (etcd_header base (zlen pairs) (etcd_rev (client kv)))
  ∧ strings_Unmarshal (strings_Marshal meta) = Ok meta
  ∧ Forall entry_ok (map pair_entry pairs).

(** The frames of the etcd part after its header, without the stopper. *)
Definition etcd_frames (kv : etcdKV St) (key : string) : list (list byte) :=
  map marshalled (map pair_entry (prefixed (kv_map kv) key)).

Lemma backup_ok_writes fuel (kv : etcdKV St) base prefix w ignoreRevision batchSize :
  let key := joinPath [base; prefix] in
  let pairs := prefixed (kv_map kv) key in
  backup_ok kv base prefix → (length pairs < fuel)%nat →
  BackupKV fuel kv base prefix w ignoreRevision batchSize
  = Some (MkWr (wr_data w ++ frames (marshalled (etcd_header base (zlen pairs) (etcd_rev (client kv)))
                                       :: etcd_frames kv key ++ [[]])) [], Ok tt).
Proof.
  intros key pairs (Hup & Hb & Hne & Hlen & Hh & Hmeta & He) Hf. unfold etcd_frames.
  rewrite map_map. apply BackupKV_written; try done; [apply Hh|].
  apply list.Forall_forall. intros x Hx. eapply list.Forall_forall in He; [apply He|].
  apply list_elem_of_fmap. eauto.
Qed.

Lemma restore_ok_reads fuel sched (kv : etcdKV St) (cli : K) base prefix rd rest :
  let key := joinPath [base; prefix] in
  let pairs := prefixed (kv_map kv) key in
  let header := etcd_header base (zlen pairs) (etcd_rev (client kv)) in
  backup_ok kv base prefix → mk_up cli → (length pairs < fuel)%nat →
  rd_data rd = frames (etcd_frames kv key) ++ frame [] ++ rest →
  ∃ cli' rd', restoreEtcdFromBackV2 fuel sched cli rd header
    = Some (cli', rd', Ok (split_base base).1)
    ∧ mk_up cli' ∧ mk_map cli' = filter (λ x, HasPrefix x.1 key = true) (kv_map kv) ∪ mk_map cli
    ∧ has_read rd rd' (frames (etcd_frames kv key) ++ frame []) ∧ rd_data rd' = rest.
Proof.
  intros key pairs header (_ & _ & Hne & Hlen & _ & Hmeta & He) Hup Hf Hd.
  destruct (restoreEtcd_all fuel sched cli rd header
    (backup_meta base (zlen pairs) (etcd_rev (client kv))) (zlen pairs) (map pair_entry pairs) rest)
    as (cli' & rd' & Hr & Hup' & Hm & Hread & Hrest);
    [exact Hmeta| | |done| |done|exact Hd|by rewrite length_map|].
  - apply backup_meta_cnt. pose proof (zlen_nonneg pairs). fold key pairs in Hlen. unfold in_s. lia.
  - fold key pairs in Hne. unfold zlen. destruct pairs; simpl; [done|lia].
  - rewrite map_map. apply prefixed_nodup.
  - exists cli', rd'. rewrite Hr, backup_meta_instance. split_and!; try done.
    rewrite Hm, pair_entries. unfold pairs. by rewrite prefixed_map.
Qed.

(** C2 (roundtrip): what [BackupKV] writes after the part header, restored into any
    store that can save batches, adds exactly the pairs below the prefix to it, over the
    values it has, and gives back the instance name; whatever the page size of the
    backup, the pieces in which the reader gets the data, and the interleaving of the
    three workers; reading ends right after the part. *)
Theorem backup_restore fuel (kv : etcdKV St) base prefix ignoreRevision batchSize :
  let key := joinPath [base; prefix] in
  let pairs := prefixed (kv_map kv) key in
  let header := etcd_header base (zlen pairs) (etcd_rev (client kv)) in
  backup_ok kv base prefix → (length pairs < fuel)%nat →
  ∃ body, BackupKV fuel kv base prefix bufio_NewWriter ignoreRevision batchSize
          = Some (MkWr (frame (marshalled header) ++ body) [], Ok tt)
    ∧ ∀ sched (cli : K) rd rest, mk_up cli → rd_data rd = body ++ rest →
      ∃ cli' rd', restoreEtcdFromBackV2 fuel sched cli rd header
                  = Some (cli', rd', Ok (split_base base).1)
        ∧ mk_up cli' ∧ rd_data rd' = rest
        ∧ mk_map cli' = filter (λ x, HasPrefix x.1 key = true) (kv_map kv) ∪ mk_map cli.
Proof.
  intros key pairs header Hok Hf.
  exists (frames (etcd_frames kv key) ++ frame []). split.
  - rewrite backup_ok_writes by done. cbn [wr_data bufio_NewWriter wr_out wr_buf app]. do 3 f_equal.
    change (frames (?a :: ?l)) with (frame a ++ frames l).
    rewrite frames_app. unfold frames at 2. cbn [map concat]. by rewrite app_nil_r.
  - intros sched cli rd rest Hup Hd. rewrite <-app_assoc in Hd.
    destruct (restore_ok_reads fuel sched kv cli base prefix rd rest) as (cli' & rd' & ? & ? & ? & ? & ?);
      [done..|]. by exists cli', rd'.
Qed.
End backup_restore.

(** ** A whole file *)

(** A reader whose data comes in one piece and ends with the file. *)
Definition whole (rd : bufio_Reader) (data : list byte) : Prop :=
  one_piece rd ∧ rd_end rd = EOF ∧ rd_data rd = data.

Lemma has_read_whole rd rd' bs rest :
  whole rd (bs ++ rest) → has_read rd rd' bs → whole rd' rest.
Proof.
  intros (Ho & He & Hd) (Hr & He' & Ho'). split_and!; [auto|congruence|].
  rewrite Hr in Hd. by apply app_inv_head in Hd.
Qed.

Lemma header_whole {T} `{ProtoCodec T} rd bs rest :
  whole rd (frame bs ++ rest) → framable bs →
  ∃ rd', readFixLengthHeader (T:=T) rd
    = (rd', match proto_Unmarshal bs with
            | Err _ => Err (Errorf "failed to unmarshal header") | r => r end)
    ∧ whole rd' rest.
Proof.
  intros Hw Hb. pose proof Hw as (Ho & _ & Hd).
  destruct (rd_pieces rd) as [|c [|c' cs]] eqn:Hp; unfold one_piece in Ho; rewrite Hp in Ho.
  - unfold rd_data in Hd. rewrite Hp, frame_eq in Hd. done.
  - assert (8 ≤ length c)%nat as Hc.
    { unfold rd_data in Hd. rewrite Hp in Hd. cbn [concat] in Hd. rewrite app_nil_r in Hd.
      rewrite Hd, frame_eq, !length_app, length_le_put. lia. }
    destruct (readFixLengthHeader_app (T:=T) rd c [] bs rest Hp Hc Hd Hb) as (rd' & -> & Hr & _).
    exists rd'. split; [done|]. by eapply has_read_whole.
  - simpl in Ho. lia.
Qed.

(** A truncated file: it ends inside the frame [f] or has all of it. *)
Lemma cut_frame (data lost f rest : list byte) :
  data ++ lost = f ++ rest →
  (∃ data', data = f ++ data' ∧ data' ++ lost = rest)
  ∨ ∃ lost', data ++ lost' = f ∧ lost' ≠ [].
Proof.
  intros (l & [[-> ->]|[-> ->]])%app_eq_app; [left; by exists l|].
  destruct l as [|b l]; [|right; by exists (b :: l)]. left. exists []. by rewrite !app_nil_r.
Qed.

Lemma rd_make_ReadFull_cut rd data lost bs :
  whole rd data → data ++ lost = bs → lost ≠ [] → framable bs →
  ∃ e, rd_make_ReadFull (zlen bs) rd = (MkRd [] EOF, Err e).
Proof.
  intros (_ & He & Hd) <- Hl Hb. unfold rd_make_ReadFull, make_ok, rd_ReadFull.
  rewrite Hd, He. unfold framable in Hb. rewrite zlen_app in *.
  assert (0 < zlen lost) by (unfold zlen; destruct lost; [done|simpl; lia]).
  pose proof (zlen_nonneg data). rewrite bool_decide_true, bool_decide_false, bool_decide_true by lia.
  by eexists.
Qed.

Lemma whole_nil : whole (MkRd [] EOF) [].
Proof. split_and!; [apply Nat.le_0_l|done..]. Qed.

Lemma readBackupBytes_cut rd data lost bs :
  whole rd data → data ++ lost = frame bs → lost ≠ [] → framable bs →
  ∃ e, readBackupBytes rd = (MkRd [] EOF, Err e).
Proof.
  rewrite frame_eq. intros Hw Hd Hl Hb. unfold readBackupBytes.
  destruct (cut_frame _ _ _ _ Hd) as [(data' & -> & Hd')|(lost' & Hd' & Hl')].
  - pose proof Hw as (_ & _ & Hdata).
    destruct (rd_ReadFull_app rd 8 (le_put 8 (zlen bs)) data') as (rd1 & -> & Hr & _);
      [done|unfold zlen; by rewrite length_le_put|].
    rewrite le_get_length by done.
    destruct (rd_make_ReadFull_cut rd1 data' lost bs) as [e ->]; [|done..|by exists e].
    by eapply has_read_whole.
  - destruct Hw as (_ & He & Hdata). unfold rd_ReadFull. rewrite Hdata, He.
    assert (zlen data < 8).
    { pose proof (length_le_put 8 (zlen bs)) as Hp. rewrite <-Hd', length_app in Hp.
      unfold zlen. destruct lost'; [done|]. simpl in Hp. lia. }
    rewrite bool_decide_false, bool_decide_true by lia. by eexists.
Qed.

Lemma header_cut {T} `{ProtoCodec T} rd data lost bs :
  whole rd data → data ++ lost = frame bs → lost ≠ [] → framable bs →
  ∃ rd' e, readFixLengthHeader (T:=T) rd = (rd', Err e).
Proof.
  rewrite frame_eq. intros (Ho & He & Hw) Hd Hl Hb. unfold readFixLengthHeader, bufio_Read.
  destruct (rd_pieces rd) as [|c [|c' cs]] eqn:Hp; unfold one_piece in Ho; rewrite Hp in Ho.
  - rewrite He. eexists _, _. done.
  - unfold rd_data in Hw. rewrite Hp in Hw. cbn [concat] in Hw. rewrite app_nil_r in Hw. subst c.
    rewrite bool_decide_false by done. rewrite orb_false_l. case_bool_decide as H8; [by eexists _, _|].
    rewrite length_take in H8. pose proof (length_le_put 8 (zlen bs)) as Hlen.
    destruct (cut_frame _ _ _ _ Hd) as [(data' & -> & Hd')|(lost' & Hd' & Hl')].
    + rewrite take_app_length', drop_app_length', le_get_length by done.
      assert (whole (MkRd (if bool_decide (8 < length (le_put 8 (zlen bs) ++ data'))%nat
                           then [data'] else []) (rd_end rd)) data') as Hw'.
      { split_and!; [|done|]; case_bool_decide as Hlt; unfold one_piece, rd_data;
          cbn [rd_pieces length concat]; rewrite ?app_nil_r; try lia; [done|].
        rewrite length_app in Hlt. destruct data'; [done|simpl in Hlt; lia]. }
      destruct (rd_make_ReadFull_cut _ data' lost bs Hw') as [e ->]; [done..|]. by eexists _, _.
    + rewrite <-Hd', length_app in Hlen. destruct lost'; [done|simpl in Hlen; lia].
  - simpl in Ho. lia.
Qed.

Class JsonSessionLaws `{JsonSession} := {
  (* the key is not encoded, and no object is encoded as nothing *)
  session_roundtrip b s k bs : session_Unmarshal b = Ok s → session_Marshal (SetKey s k) = Ok bs →
    session_Unmarshal bs = Ok (SetKey s "") ∧ bs ≠ [];
}.

Section whole_file.
Context {St K : Type} `{EtcdLaws St} `{MetaKVBatch K} `{JsonStrings} `{JsonSessionLaws}.
Context `{ProtoLaws PartHeader (PH 0 0 [])} `{ProtoLaws KeyDataPair (KDP "" [])}.
Context `{ProtoLaws BackupHeader (BackupHdr 0 "" "" 0 "" [])}.

(** A frame that the restore does not take for a part it reads. *)
Definition harmless (f : list byte) : Prop :=
  framable f ∧ match proto_Unmarshal (M:=PartHeader) f with
               | Ok ph => PartType ph ≠ PartType_EtcdBackup ∧ PartType ph ≠ PartType_MetricsBackup
               | Err _ => True
               | Panic _ => False
               end.

Lemma restoreV2_harmless fuel sched rd (state : embedEtcdMockState K) l data lost :
  Forall harmless l → whole rd data → data ++ lost = frames l → (length l < fuel)%nat →
  ∃ rd', restoreV2File fuel sched rd state = Some (state, rd', Ok tt).
Proof.
  intros Hl. revert fuel rd data.
  induction Hl as [|f l [Hf Hp] _ IH]; intros [|fuel] rd data Hw Hd Hlen;
    simpl in Hlen; try lia; cbn [restoreV2File].
  - apply app_eq_nil in Hd as [-> _]. destruct Hw as (Ho & He & Hd).
    unfold readFixLengthHeader, bufio_Read. destruct (rd_pieces rd) as [|c cs] eqn:E.
    + rewrite He. eexists. done.
    + unfold rd_data in Hd. rewrite E in Hd. cbn [concat] in Hd.
      apply app_eq_nil in Hd as [-> _]. eexists. done.
  - rewrite frames_cons in Hd.
    destruct (cut_frame _ _ _ _ Hd) as [(data' & -> & Hd')|(lost' & Hd' & Hl')].
    + destruct (header_whole (T:=PartHeader) rd f data') as (rd' & -> & Hw'); [done..|].
      destruct (proto_Unmarshal f) as [ph| |] eqn:E; [|by eexists|done].
      destruct Hp as [H1' H2']. rewrite !bool_decide_false by done. eapply IH; [done..|lia].
    + destruct (header_cut (T:=PartHeader) rd data lost' f) as (rd' & e & ->); [done..|]. by eexists.
Qed.

(** What the restore keeps of a session's report. *)
Definition keep_report (fetch : Session → res (list byte * list byte))
    (state : embedEtcdMockState K) (s : Session) : embedEtcdMockState K :=
  match fetch s, session_Marshal s with
  | Ok (mbs, dmbs), Ok _ => store_metrics s mbs dmbs state
  | _, _ => state
  end.

Definition decoded (s : Session) : Prop := ∃ b s0 k, session_Unmarshal b = Ok s0 ∧ s = SetKey s0 k.

Lemma metrics_frames_cases fetch s :
  (metrics_frames fetch s = [] ∧ ∀ st, keep_report fetch st s = st)
  ∨ ∃ bs mbs dmbs, metrics_frames fetch s = [bs; mbs; dmbs] ∧ session_Marshal s = Ok bs
      ∧ ∀ st, keep_report fetch st s = store_metrics s mbs dmbs st.
Proof.
  unfold metrics_frames, keep_report. destruct (fetch s) as [[mbs dmbs]| |]; [|by left..].
  destruct (session_Marshal s) as [bs| |]; [|by left..]. right. by exists bs, mbs, dmbs.
Qed.

(** The sessions whose reports lie wholly in the first [n] bytes of the frames: the
    longest such beginning of the list. *)
Fixpoint whole_reports (fetch : Session → res (list byte * list byte)) (n : Z)
    (sessions : list Session) : list Session :=
  match sessions with
  | [] => []
  | s :: sessions =>
      let k := zlen (frames (metrics_frames fetch s)) in
      if bool_decide (k <= n) then s :: whole_reports fetch (n - k) sessions else []
  end.

Lemma zlen_cut (data lost f : list byte) : data ++ lost = f → lost ≠ [] → zlen data < zlen f.
Proof. intros <- Hl. rewrite zlen_app. destruct lost; [done|]. unfold zlen. simpl. lia. Qed.

Lemma restoreMetrics_cut fuel fetch sessions rd (state : embedEtcdMockState K) data lost rest :
  let fs := concat (map (metrics_frames fetch) sessions) in
  Forall decoded sessions → Forall framable fs →
  whole rd data → data ++ lost = frames fs ++ frame [] ++ rest → (length sessions < fuel)%nat →
  ∃ rd' r data', restoreMetrics fuel rd store_metrics state
         = Some (foldl (keep_report fetch) state (whole_reports fetch (zlen data) sessions), rd', r)
    ∧ (∀ w, r ≠ Panic w) ∧ whole rd' data' ∧ (data' = [] ∨ data' ++ lost = rest).
Proof.
  cbv zeta. intros Hdec. revert fuel rd state data.
  induction Hdec as [|s sessions (b & s0 & k & Hs0 & Hs) _ IH];
    intros [|fuel] rd state data Hfr Hw Hd Hf; simpl in Hf; try lia.
  - cbn [restoreMetrics whole_reports foldl map concat] in *. rewrite frames_nil, app_nil_l in Hd.
    destruct (cut_frame _ _ _ _ Hd) as [(data' & -> & Hd')|(lost' & Hd' & Hl')].
    + destruct (readBackupBytes_app rd [] data' ltac:(apply Hw) ltac:(done)) as (rd' & -> & Hr & _).
      eexists rd', (Ok tt), data'. split_and!; [done..|by eapply has_read_whole|by right].
    + destruct (readBackupBytes_cut rd data lost' []) as [e ->]; [done..|].
      eexists _, _, []. split_and!; [done|by case_bool_decide|apply whole_nil|by left].
  - cbn [map concat foldl whole_reports] in *.
    destruct (metrics_frames_cases fetch s) as [[Hmf Hk]|(bs & mbs & dmbs & Hmf & Hm & Hk)];
      rewrite Hmf in Hfr, Hd |- *.
    { pose proof (zlen_nonneg data). rewrite bool_decide_true, Z.sub_0_r by done.
      cbn [foldl]. rewrite Hk. apply IH; [done..|lia]. }
    cbn [app] in Hfr, Hd |- *. set (fs := concat _) in *. rewrite !list.Forall_cons in Hfr.
    destruct Hfr as (Hb1 & Hb2 & Hb3 & Hfr).
    rewrite !frames_cons, <-!app_assoc in Hd. rewrite !frames_cons, frames_nil, app_nil_r.
    rewrite Hs in Hm. destruct (session_roundtrip b s0 k bs Hs0 Hm) as [Hu Hne].
    rewrite !zlen_app. pose proof (zlen_nonneg (frame mbs)). pose proof (zlen_nonneg (frame dmbs)).
    cbn [restoreMetrics].
    destruct (cut_frame _ _ _ _ Hd) as [(data1 & -> & Hd1)|(lost' & Hd' & Hl')].
    2: { destruct (readBackupBytes_cut rd data lost' bs) as [e ->]; [done..|].
         pose proof (zlen_cut _ _ _ Hd' Hl'). rewrite (bool_decide_false (_ <= _)) by lia.
         eexists _, _, []. split_and!; [done|by case_bool_decide|apply whole_nil|by left]. }
    destruct (readBackupBytes_app rd bs data1 ltac:(apply Hw) Hb1) as (rd1 & -> & Hr1 & _).
    pose proof (has_read_whole _ _ _ _ Hw Hr1) as Hw1.
    rewrite (bool_decide_false (zlen bs = 0)) by (unfold zlen; destruct bs; simpl; [done|lia]).
    rewrite Hu, zlen_app.
    destruct (cut_frame _ _ _ _ Hd1) as [(data2 & -> & Hd2)|(lost' & Hd' & Hl')].
    2: { destruct (readBackupBytes_cut rd1 data1 lost' mbs) as [e ->]; [done..|].
         pose proof (zlen_cut _ _ _ Hd' Hl'). rewrite (bool_decide_false (_ <= _)) by lia.
         eexists _, _, []. split_and!; [done|done|apply whole_nil|by left]. }
    destruct (readBackupBytes_app rd1 mbs data2 ltac:(apply Hw1) Hb2) as (rd2 & -> & Hr2 & _).
    pose proof (has_read_whole _ _ _ _ Hw1 Hr2) as Hw2. rewrite zlen_app.
    destruct (cut_frame _ _ _ _ Hd2) as [(data3 & -> & Hd3)|(lost' & Hd' & Hl')].
    2: { destruct (readBackupBytes_cut rd2 data2 lost' dmbs) as [e ->]; [done..|].
         pose proof (zlen_cut _ _ _ Hd' Hl'). rewrite (bool_decide_false (_ <= _)) by lia.
         eexists _, _, []. split_and!; [done|done|apply whole_nil|by left]. }
    destruct (readBackupBytes_app rd2 dmbs data3 ltac:(apply Hw2) Hb3) as (rd3 & -> & Hr3 & _).
    pose proof (has_read_whole _ _ _ _ Hw2 Hr3) as Hw3. rewrite zlen_app.
    pose proof (zlen_nonneg data3). rewrite (bool_decide_true (_ <= _)) by lia.
    replace (_ + _ - _) with (zlen data3) by lia. cbn [foldl]. rewrite Hk.
    destruct (IH fuel rd3 (store_metrics s mbs dmbs state) data3) as (rd' & r & data' & Hrest & ?);
      [done..|lia|].
    exists rd', r, data'. rewrite Hs in Hrest |- *. by split.
Qed.

(** ** The command and the loading *)
Lemma backup_part_frames (cli : etcdKV St) base t session_frames sessions w :
  ListSessions cli base = Ok sessions → storable (PH t (-1) []) →
  backup_part cli base t session_frames w
  = (write_frames w (marshalled (PH t (-1) []) :: concat (map session_frames sessions) ++ [[]]), Ok tt).
Proof.
  intros Hs [Ht _]. unfold backup_part. rewrite Hs, (marshalled_Ok _ Ht).
  assert (∀ l w, foldl (λ w s, write_frames w (session_frames s)) w l
                 = write_frames w (concat (map session_frames l))) as ->.
  { induction l as [|s l IH]; intros w'; cbn [foldl map concat]; [done|].
    by rewrite IH, write_frames_app. }
  change (write_frames w (?a :: ?l)) with (write_frames (writeBackupBytes w a) l).
  by rewrite write_frames_app.
Qed.

(** The frames of the configurations and of the applications' metrics, with the
    headers of their parts and the stoppers. *)
Definition tail_frames (rp : Reports) (sessions : list Session) : list (list byte) :=
  (marshalled (PH PartType_Configurations (-1) [])
     :: concat (map (client_frames (rp_configuration rp)) sessions) ++ [[]])
  ++ (marshalled (PH PartType_AppMetrics (-1) [])
        :: concat (map (client_frames (rp_appMetrics rp)) sessions) ++ [[]]).

Definition file_header : BackupHeader := BackupHdr 2 "" "" 0 "" [].

(** What the whole file needs beyond its etcd part. *)
Definition file_ok (rp : Reports) (sessions : list Session) : Prop :=
  storable file_header
  ∧ (∀ t, t ∈ [PartType_MetricsBackup; PartType_Configurations; PartType_AppMetrics] →
       storable (PH t (-1) []))
  ∧ Forall decoded sessions
  ∧ Forall framable (concat (map (metrics_frames (rp_metrics rp)) sessions))
  ∧ Forall harmless (concat (map (client_frames (rp_configuration rp)) sessions))
  ∧ Forall harmless (concat (map (client_frames (rp_appMetrics rp)) sessions)).

(** The header and the etcd part of the file, and the other parts. *)
Definition front_frames (kv : etcdKV St) (base : string) : list (list byte) :=
  let key := joinPath [base; ""] in
  let cnt := zlen (prefixed (kv_map kv) key) in
  [marshalled file_header]
  ++ [marshalled (etcd_header base cnt (etcd_rev (client kv)))] ++ etcd_frames kv key ++ [[]].

Definition metrics_header : list byte := marshalled (PH PartType_MetricsBackup (-1) []).

Definition back_frames (rp : Reports) (sessions : list Session) : list (list byte) :=
  ([metrics_header] ++ concat (map (metrics_frames (rp_metrics rp)) sessions) ++ [[]])
  ++ tail_frames rp sessions.

Definition file_frames (kv : etcdKV St) (base : string) (rp : Reports) (sessions : list Session)
    : list (list byte) := front_frames kv base ++ back_frames rp sessions.

Lemma BackupCommand_frames fuel (kv : etcdKV St) base rp p sessions :
  bp_component p = compAll → backup_ok kv base "" → file_ok rp sessions →
  ListSessions kv base = Ok sessions →
  (length (prefixed (kv_map kv) (joinPath [base; ""])) < fuel)%nat →
  BackupCommand fuel kv base rp p
  = Some (wr_out (write_frames (MkWr (frames (front_frames kv base)) []) (back_frames rp sessions)),
          Ok tt).
Proof.
  intros Hc Hok (Hh & Hparts & _) Hs Hf. unfold BackupCommand, writeBackupHeader. rewrite Hc.
  fold file_header. rewrite (marshalled_Ok file_header) by apply Hh. unfold backupEtcdV2.
  rewrite backup_ok_writes by done. cbn iota beta.
  unfold backupMetrics, backupConfiguration, backupAppMetrics, ignoring_err.
  rewrite !(backup_part_frames _ _ _ _ sessions) by (done || (apply Hparts; set_solver)).
  unfold file_contents. cbn [fst snd]. rewrite <-!write_frames_app.
  assert (wr_data (bufio_Write (bufio_Write bufio_NewWriter (le_put 8 (zlen (marshalled file_header))))
    (marshalled file_header)) = frame (marshalled file_header)) as ->.
  { rewrite !wr_data_Write. cbn [bufio_NewWriter wr_data wr_out wr_buf app]. by rewrite frame_eq. }
  rewrite <-frames_cons. unfold back_frames, metrics_header, tail_frames. reflexivity.
Qed.

Lemma back_frames_stopper rp sessions : ∃ l, back_frames rp sessions = l ++ [[]].
Proof.
  unfold back_frames, tail_frames. rewrite (app_comm_cons (concat (map (client_frames (rp_appMetrics rp)) _))).
  rewrite !app_assoc. by eexists.
Qed.

(** What does not reach the file: some bytes, at most a buffer of them, and everything
    after the etcd part if it fits the buffer. *)
Lemma file_lost front rp sessions :
  let W := write_frames (MkWr front []) (back_frames rp sessions) in
  wr_out W ++ wr_buf W = front ++ frames (back_frames rp sessions)
  ∧ wr_buf W ≠ [] ∧ zlen (wr_buf W) <= bufio_size
  ∧ (∃ back, wr_out W = front ++ back)
  ∧ (zlen (frames (back_frames rp sessions)) <= bufio_size → wr_out W = front).
Proof.
  intros W. assert (wr_ok (MkWr front [])) as Hok by (unfold wr_ok; by cbn).
  assert (wr_data W = front ++ frames (back_frames rp sessions)) as Hd.
  { unfold W. rewrite wr_data_frames. unfold wr_data. simpl. by rewrite app_nil_r. }
  split_and!; [done| |by apply wr_ok_frames| |].
  - destruct (back_frames_stopper rp sessions) as [l Hl]. unfold W. rewrite Hl, write_frames_app.
    apply stopper_buffered. by apply wr_ok_frames.
  - unfold W. clear. generalize (back_frames rp sessions). intros l.
    assert (∀ w, ∃ back, wr_out (write_frames w l) = wr_out w ++ back) as Hl.
    { induction l as [|d l IH]; intros w; [exists []; by rewrite app_nil_r|]. cbn.
      destruct (IH (writeBackupBytes w d)) as [b1 Hb1]. destruct (wr_out_frame w d) as [b2 Hb2].
      exists (b2 ++ b1). unfold write_frames in Hb1. by rewrite Hb1, Hb2, app_assoc. }
    apply (Hl (MkWr front [])).
  - intros Hz. unfold W. by rewrite frames_fit.
Qed.

Lemma storable_decodes {M} `{ProtoLaws M d} (m : M) :
  storable m → proto_Unmarshal (marshalled m) = Ok m.
Proof. intros [[bs Hb] _]. unfold marshalled. rewrite Hb. by apply proto_roundtrip. Qed.

Lemma header_storable {T} `{ProtoLaws T d} rd (m : T) rest :
  whole rd (frame (marshalled m) ++ rest) → storable m →
  ∃ rd', readFixLengthHeader rd = (rd', Ok m) ∧ whole rd' rest.
Proof.
  intros Hw Hm. destruct (header_whole (T:=T) rd _ rest Hw (proj2 Hm)) as (rd' & Hr & Hw').
  exists rd'. split; [|done]. by rewrite Hr, storable_decodes.
Qed.

Lemma part_harmless t :
  t ≠ PartType_EtcdBackup → t ≠ PartType_MetricsBackup → storable (PH t (-1) []) →
  harmless (marshalled (PH t (-1) [])).
Proof. intros H1' H2' Hs. split; [apply Hs|]. by rewrite (storable_decodes _ Hs). Qed.

Lemma stopper_harmless : harmless [].
Proof. split; [done|]. by rewrite proto_empty. Qed.

Lemma tail_harmless rp sessions : file_ok rp sessions → Forall harmless (tail_frames rp sessions).
Proof.
  intros (_ & Hp & _ & _ & Hc & Ha). unfold tail_frames.
  repeat first [apply list.Forall_app; split | apply list.Forall_cons; split];
    try done; try apply stopper_harmless; apply part_harmless; try done; apply Hp; set_solver.
Qed.

(** The parts of version 2, one after the other, of a file that lacks its end: [back]
    is what is there after the etcd part. *)
Lemma restoreV2_file fuel sched (kv : etcdKV St) base rp sessions (cli : K) rd back lost :
  let n := zlen back - zlen (frame metrics_header) in
  backup_ok kv base "" → file_ok rp sessions → mk_up cli →
  whole rd (frames (drop 1 (front_frames kv base)) ++ back) →
  back ++ lost = frames (back_frames rp sessions) →
  (length (file_frames kv base rp sessions) + length sessions < fuel)%nat →
  ∃ cli' rd', restoreV2File fuel sched rd (MockState cli "" ∅ ∅)
    = Some (foldl (keep_report (rp_metrics rp)) (MockState cli' (split_base base).1 ∅ ∅)
              (whole_reports (rp_metrics rp) n sessions), rd', Ok tt)
    ∧ mk_up cli' ∧ mk_map cli'
      = filter (λ x, HasPrefix x.1 (joinPath [base; ""]) = true) (kv_map kv) ∪ mk_map cli.
Proof.
  intros n Hok Hfile Hup Hw Hback Hf. unfold file_frames, front_frames, back_frames in Hw, Hf.
  cbn [app drop length] in Hw, Hf. repeat (rewrite length_app in Hf; cbn [length] in Hf).
  assert (length (etcd_frames kv (joinPath [base; ""]))
          = length (prefixed (kv_map kv) (joinPath [base; ""]))) as Hlen
    by (unfold etcd_frames; by rewrite !length_map).
  autorewrite with go_frames in Hw. destruct fuel as [|[|fuel]]; [lia..|].
  destruct (header_storable (T:=PartHeader) rd _ _ Hw) as (rd1 & Hx1 & Hw1); [apply Hok|].
  edestruct (restore_ok_reads (S fuel) (sched (S fuel)) kv cli base "" rd1)
    as (cli' & rd2 & Hx2 & Hup' & Hm & Hr2 & Hd2); [exact Hok|exact Hup|lia|apply Hw1|].
  rewrite app_assoc in Hw1. pose proof (has_read_whole _ _ _ _ Hw1 Hr2) as Hw2.
  exists cli'. cbn [restoreV2File ms_client]. rewrite Hx1.
  rewrite bool_decide_true by done. rewrite Hx2. unfold SetInstance.
  cbn [ms_client ms_metrics ms_defaultMetrics ms_instanceName restoreV2File].
  enough (∃ rd', restoreV2File (S fuel) sched rd2 (MockState cli' (split_base base).1 ∅ ∅)
    = Some (foldl (keep_report (rp_metrics rp)) (MockState cli' (split_base base).1 ∅ ∅)
              (whole_reports (rp_metrics rp) n sessions), rd', Ok tt)) as [rd' He]
    by (exists rd'; split_and!; done).
  clear Hx1 Hx2. pose proof Hfile as (_ & Hparts & Hdec & Hfr & _).
  assert (storable (PH PartType_MetricsBackup (-1) [])) as Hmh by (apply Hparts; set_solver).
  unfold back_frames in Hback. rewrite <-!app_assoc in Hback. cbn [app] in Hback.
  rewrite frames_cons in Hback. cbn [restoreV2File].
  destruct (cut_frame _ _ _ _ Hback) as [(back' & -> & Hback')|(lost' & Hd' & Hl')].
  2: { destruct (header_cut (T:=PartHeader) rd2 back lost' metrics_header) as (rd' & e & ->);
         [done..|apply Hmh|].
       exists rd'. pose proof (zlen_cut _ _ _ Hd' Hl'). destruct sessions as [|s l]; [done|].
       cbn [whole_reports]. pose proof (zlen_nonneg (frames (metrics_frames (rp_metrics rp) s))).
       by rewrite bool_decide_false by lia. }
  destruct (header_storable (T:=PartHeader) rd2 _ back' Hw2 Hmh) as (rd3 & -> & Hw3).
  rewrite bool_decide_false, bool_decide_true by done.
  assert (n = zlen back') as -> by (unfold n; rewrite zlen_app; lia).
  rewrite frames_app in Hback'.
  destruct (restoreMetrics_cut fuel (rp_metrics rp) sessions rd3
    (MockState cli' (split_base base).1 ∅ ∅) back' lost (frames (tail_frames rp sessions)))
    as (rd4 & r & back2 & -> & Hr & Hw4 & Hback2); [done..|lia|].
  assert (∃ lost2, back2 ++ lost2 = frames (tail_frames rp sessions)) as [lost2 Hl2].
  { destruct Hback2 as [->|]; eauto. }
  destruct (restoreV2_harmless fuel sched rd4 (foldl (keep_report (rp_metrics rp))
     (MockState cli' (split_base base).1 ∅ ∅) (whole_reports (rp_metrics rp) (zlen back') sessions))
    (tail_frames rp sessions) back2 lost2) as (rd5 & Hx5); [by apply tail_harmless|done..|lia|].
  exists rd5. destruct r as [[]|e|why]; [exact Hx5..|]. by destruct (Hr why).
Qed.


Lemma header_in_piece {T} `{ProtoCodec T} bs c cs e :
  framable bs → (0 < length c)%nat →
  readFixLengthHeader (T:=T) (MkRd ((frame bs ++ c) :: cs) e)
  = (MkRd (c :: cs) e, match proto_Unmarshal bs with
                       | Err _ => Err (Errorf "failed to unmarshal header") | r => r end).
Proof.
  intros Hb Hc. assert (length (le_put 8 (zlen bs)) = 8%nat) as Hl by apply length_le_put.
  unfold readFixLengthHeader, bufio_Read. cbn [rd_pieces rd_end].
  rewrite frame_eq, <-app_assoc.
  rewrite (bool_decide_true (8 < length (le_put 8 (zlen bs) ++ bs ++ c))%nat)
    by (rewrite !length_app; lia).
  rewrite take_app_length', drop_app_length' by done.
  rewrite (bool_decide_false (length (le_put 8 (zlen bs)) < 8)%nat) by lia.
  rewrite bool_decide_false by done. cbn [orb].
  rewrite le_get_length by done. unfold rd_make_ReadFull, make_ok, rd_ReadFull.
  pose proof (zlen_nonneg bs). rewrite (bool_decide_true (0 ≤ _ ≤ _)) by (unfold framable in Hb; lia).
  case_bool_decide as Hz.
  { destruct bs; [done|]. unfold zlen in Hz. simpl in Hz. lia. }
  rewrite bool_decide_false
    by (unfold rd_data; cbn [rd_pieces concat]; unfold zlen; rewrite !length_app; lia).
  unfold rd_skip, rd_data, zlen. cbn [rd_pieces rd_end concat drop_bytes]. rewrite Nat2Z.id.
  rewrite bool_decide_true by (rewrite length_app; lia).
  by rewrite <-app_assoc, take_length_app, drop_length_app.
Qed.

(** C39 (error): when the piece with the version header ends one to seven bytes after it,
    the single [Read] of the length of the first part is short; then [load_backup]
    restores nothing of whatever follows and reports no error. *)
Theorem load_backup_split fuel sched (cli : K) c cs :
  storable file_header → (0 < length c < 8)%nat →
  load_backup (S fuel) sched cli (MkRd ((frame (marshalled file_header) ++ c) :: cs) EOF)
  = Some (MockState cli "" ∅ ∅, MkRd cs EOF, Ok tt).
Proof.
  intros Hh Hc. unfold load_backup.
  rewrite (header_in_piece (T:=BackupHeader)) by (apply Hh || lia).
  rewrite (storable_decodes _ Hh). rewrite bool_decide_false, bool_decide_true by done.
  cbn [restoreV2File]. unfold readFixLengthHeader, bufio_Read. cbn [rd_pieces rd_end].
  rewrite (bool_decide_false (8 < _)%nat) by lia.
  rewrite (bool_decide_true (length (take 8 c) < 8)%nat) by (rewrite length_take; lia).
  by rewrite orb_true_r.
Qed.
End whole_file.

(** ** Concrete encodings and an example *)
Lemma take_app_len {A} n (l1 l2 : list A) : length l1 = n → take n (l1 ++ l2) = l1.
Proof. intros <-. apply take_length_app. Qed.
Lemma drop_app_len {A} n (l1 l2 : list A) : length l1 = n → drop n (l1 ++ l2) = l2.
Proof. intros <-. apply drop_length_app. Qed.

Lemma le_get_put_u n z : in_u (8 * Z.of_nat n) z → le_get (le_put n z) = z.
Proof. intros Hz. rewrite le_get_put. by apply Z.mod_small. Qed.

(** A field of [n] bytes at the head of an encoding. *)
Lemma field_head n z rest :
  in_u (8 * Z.of_nat n) z →
  le_get (take n (le_put n z ++ rest)) = z ∧ drop n (le_put n z ++ rest) = rest.
Proof.
  intros Hz. pose proof (length_le_put n z) as Hl.
  rewrite take_app_len, drop_app_len by done. by rewrite le_get_put_u.
Qed.

#[export] Instance sample_part_laws : ProtoLaws PartHeader (PH 0 0 []).
Proof.
  split; [|done]. intros [t n x] bs. unfold proto_Marshal, proto_Unmarshal, sample_part_codec.
  cbn [PartType PartLen Extra]. case_bool_decide as Hb; [|done]. destruct Hb as [Ht Hn].
  intros Hbs%(inj Ok).
  assert (length bs = (12 + length x)%nat) as Hl
    by (rewrite <-Hbs, !length_app, !length_le_put; lia).
  assert (le_get (take 4 bs) = t ∧ drop 4 bs = le_put 8 n ++ x) as [-> H4]
    by (rewrite <-Hbs; by apply (field_head 4)).
  assert (int64 (le_get (take 8 (drop 4 bs))) = n ∧ drop 12 bs = x) as [-> ->].
  { change 12%nat with (4 + 8)%nat. rewrite <-drop_drop, H4. pose proof (length_le_put 8 n) as Hp.
    rewrite take_app_len, drop_app_len by done. split; [|done]. rewrite le_get_put.
    by apply (wraps_wrapu_id 64). }
  destruct bs; [simpl in Hl; lia|]. by rewrite bool_decide_false by lia.
Qed.

#[export] Instance sample_pair_laws : ProtoLaws KeyDataPair (KDP "" []).
Proof.
  split; [|done]. intros [k d] bs. unfold proto_Marshal, proto_Unmarshal, sample_pair_codec.
  cbn [kdp_Key kdp_Data]. case_bool_decide as Hk; [|done]. intros Hbs%(inj Ok).
  pose proof (zlen_nonneg (bytes_of_string k)). set (key := bytes_of_string k) in *.
  assert (length bs = (4 + length key + length d)%nat) as Hl
    by (rewrite <-Hbs, !length_app, !length_le_put; lia).
  assert (le_get (take 4 bs) = zlen key ∧ drop 4 bs = key ++ d) as [-> H4].
  { rewrite <-Hbs. apply (field_head 4). unfold in_u. change (8 * Z.of_nat 4) with 32. lia. }
  assert (Z.to_nat (zlen key) = length key) as -> by (unfold zlen; apply Nat2Z.id).
  destruct bs as [|b bs'] eqn:E; [simpl in Hl; lia|]. rewrite <-E in *.
  rewrite bool_decide_false by lia. rewrite <-drop_drop, H4, take_length_app, drop_length_app.
  unfold key. by rewrite string_of_bytes_of_string.
Qed.

(** Headers with a version alone. *)
#[export] Instance sample_backup_codec : ProtoCodec BackupHeader := {
  proto_Marshal h :=
    if bool_decide (in_u 32 (bh_Version h)) && bool_decide (bh_Instance h = "")
       && bool_decide (bh_MetaPath h = "") && bool_decide (bh_Entries h = 0)
       && bool_decide (bh_Component h = "") && bool_decide (bh_Extra h = [])
    then Ok (le_put 4 (bh_Version h)) else Err (Errorf "proto");
  proto_Unmarshal bs := Ok (BackupHdr (le_get bs) "" "" 0 "" []);
}.

#[export] Instance sample_backup_laws : ProtoLaws BackupHeader (BackupHdr 0 "" "" 0 "" []).
Proof.
  split; [|done]. intros [v i m e c x] bs. unfold proto_Marshal, proto_Unmarshal, sample_backup_codec.
  cbn [bh_Version bh_Instance bh_MetaPath bh_Entries bh_Component bh_Extra].
  repeat case_bool_decide; try done. intros <-%(inj Ok). subst. by rewrite (le_get_put_u 4).
Qed.

(** Sessions with an identifier, a name and an address. *)
#[export] Instance sample_session_codec : JsonSession := {
  session_Marshal s :=
    if bool_decide (zlen (bytes_of_string (ServerName s)) < 2 ^ 32)
    then Ok (le_put 8 (ServerID s) ++ le_put 4 (zlen (bytes_of_string (ServerName s)))
             ++ bytes_of_string (ServerName s) ++ bytes_of_string (Address s))
    else Err (Errorf "json");
  session_Unmarshal bs :=
    let n := Z.to_nat (le_get (take 4 (drop 8 bs))) in
    if bool_decide (length bs < 12 + n)%nat then Err (Errorf "json")
    else Ok (MkSession (int64 (le_get (take 8 bs))) (string_of_bytes (take n (drop 12 bs)))
               (string_of_bytes (drop (12 + n) bs)) false "" "" 0 "");
}.

#[export] Instance sample_session_laws : JsonSessionLaws.
Proof.
  constructor. intros b s k bs. unfold session_Unmarshal, session_Marshal, sample_session_codec.
  cbn zeta. case_bool_decide; [done|]. intros [= <-]. unfold SetKey. cbn [ServerName ServerID Address
    Exclusive Version HostName LeaseID].
  set (id := int64 _). set (name := string_of_bytes (take _ _)). set (addr := string_of_bytes (drop _ _)).
  assert (in_s 64 id) as Hid by (apply wraps_range; lia). clearbody id name addr.
  case_bool_decide as Hn; [|done]. intros Hbs%(inj Ok). set (nm := bytes_of_string name) in *.
  pose proof (zlen_nonneg nm). pose proof (length_le_put 8 id) as L8.
  assert (length bs = (12 + length nm + length (bytes_of_string addr))%nat) as Hl
    by (rewrite <-Hbs, !length_app, !length_le_put; lia).
  assert (int64 (le_get (take 8 bs)) = id ∧ drop 8 bs = le_put 4 (zlen nm) ++ nm ++ bytes_of_string addr)
    as [-> H8].
  { rewrite <-Hbs, take_app_len, drop_app_len by done. split; [|done]. rewrite le_get_put.
    by apply (wraps_wrapu_id 64). }
  assert (le_get (take 4 (drop 8 bs)) = zlen nm ∧ drop 4 (drop 8 bs) = nm ++ bytes_of_string addr)
    as [-> H12].
  { rewrite H8. apply (field_head 4). unfold in_u. change (8 * Z.of_nat 4) with 32. lia. }
  assert (Z.to_nat (zlen nm) = length nm) as -> by (unfold zlen; apply Nat2Z.id).
  rewrite bool_decide_false by lia. rewrite drop_drop in H12. change (8 + 4)%nat with 12%nat in H12.
  rewrite <-drop_drop, H12, take_length_app, drop_length_app. unfold nm.
  rewrite !string_of_bytes_of_string. split; [done|]. intros ->. simpl in Hl. lia.
Qed.

(** A store with a session, its reports, and a schedule that turns the batches round. *)
Definition sample_session : Session := MkSession 7 "QueryNode" "10.0.0.1:21123" false "" "" 0 "".

Definition sample_session_bytes : list byte :=
  match session_Marshal sample_session with Ok bs => bs | _ => [] end.

Definition sample_source : etcdKV (gmap string string) :=
  EtcdKV {["by-dev/meta/a" := "1"; "by-dev/meta/session/qn" := string_of_bytes sample_session_bytes;
           "aa/x" := "3"]} "".

Definition sample_reports : Reports := MkReports
  (λ s, Ok (bytes_of_string "metrics", bytes_of_string "default"))
  (λ s, Ok (bytes_of_string "c")) (λ s, Err (Errorf "no answer")).

Lemma rev_perm {A} (l : list A) : rev l ≡ₚ l.
Proof. symmetry. apply Permutation_rev. Qed.

Definition sample_schedule : Schedule := MkSchedule (@rev _) rev_perm 1.

Definition sample_target : etcdKV (gmap string string) := EtcdKV {["old" := "o"]} "".

Definition decide_harmless (f : list byte) : bool :=
  bool_decide (zlen f ≤ maxAlloc) &&
  match proto_Unmarshal (M:=PartHeader) f with
  | Ok ph => bool_decide (PartType ph ≠ PartType_EtcdBackup)
             && bool_decide (PartType ph ≠ PartType_MetricsBackup)
  | Err _ => true
  | Panic _ => false
  end.

Lemma storable_intro {M} `{ProtoCodec M} (m : M) bs :
  proto_Marshal m = Ok bs → bool_decide (zlen bs ≤ maxAlloc) = true → storable m.
Proof.
  intros Hm Hb%bool_decide_eq_true. split; [by eexists|]. unfold framable, marshalled. by rewrite Hm.
Qed.

Lemma sample_backup_ok : backup_ok sample_source "by-dev/meta" "".
Proof.
  unfold backup_ok. cbv zeta. split_and!.
  - exact I.
  - intros (k & v & Hin & _ & Hn). revert Hin.
    assert (from_key sample_source (joinPath ["by-dev/meta"; ""])
            = prefixed (kv_map sample_source) (joinPath ["by-dev/meta"; ""])) as ->
      by (vm_compute; reflexivity).
    intros [Hp _]%list_elem_of_filter. cbn [fst] in Hp. congruence.
  - vm_compute. discriminate.
  - vm_compute. reflexivity.
  - eapply storable_intro; [vm_compute; reflexivity|vm_compute; reflexivity].
  - vm_compute. reflexivity.
  - assert (map pair_entry (prefixed (kv_map sample_source) (joinPath ["by-dev/meta"; ""]))
            = [KDP "by-dev/meta/a" (bytes_of_string "1");
               KDP "by-dev/meta/session/qn" sample_session_bytes]) as -> by (vm_compute; reflexivity).
    repeat (apply list.Forall_cons; split); [..|constructor];
      (split; [eexists; vm_compute; reflexivity|split; vm_compute; [discriminate|discriminate]]).
Qed.

Lemma backup_restore_witness :
  ∃ body cli' rd', BackupKV 3 sample_source "by-dev/meta" "" bufio_NewWriter false 1
      = Some (MkWr (frame (marshalled (etcd_header "by-dev/meta" 2 1)) ++ body) [], Ok tt)
    ∧ restoreEtcdFromBackV2 3 sample_schedule sample_target
        (MkRd (map (λ b, [b]) body) EOF) (etcd_header "by-dev/meta" 2 1)
      = Some (cli', rd', Ok "by-dev")
    ∧ kv_map cli' !! "by-dev/meta/a" = Some "1" ∧ kv_map cli' !! "aa/x" = None
    ∧ kv_map cli' !! "old" = Some "o".
Proof.
  destruct (backup_restore (K:=etcdKV (gmap string string)) 3 sample_source "by-dev/meta" "" false 1
              sample_backup_ok) as (body & Hb & Hr); [vm_compute; repeat constructor|].
  destruct (Hr sample_schedule sample_target (MkRd (map (λ b, [b]) body) EOF) [] I)
    as (cli' & rd' & He & _ & _ & Hm).
  { unfold rd_data. cbn [rd_pieces]. rewrite app_nil_r. clear.
    induction body as [|b body IH]; [reflexivity|]. cbn [map concat app]. by rewrite IH. }
  exists body, cli', rd'. split; [exact Hb|]. split; [exact He|].
  change (mk_map cli') with (kv_map cli') in Hm. rewrite Hm.
  repeat split; vm_compute; reflexivity.
Defined.

Lemma sample_ListSessions :
  ListSessions sample_source "by-dev/meta" = Ok [SetKey sample_session "by-dev/meta/session/qn"].
Proof. vm_compute. reflexivity. Qed.

Lemma harmless_all l : forallb decide_harmless l = true → Forall harmless l.
Proof.
  intros Hl. apply list.Forall_forall. intros f Hf. rewrite forallb_forall in Hl.
  assert (decide_harmless f = true) as [Hb%bool_decide_eq_true Hp]%andb_true_iff
    by (apply Hl; by apply list_elem_of_In).
  split; [done|]. destruct (proto_Unmarshal f); [|done..].
  by apply andb_true_iff in Hp as [?%bool_decide_eq_true ?%bool_decide_eq_true].
Qed.

Lemma framable_all l : forallb (λ f, bool_decide (zlen f ≤ maxAlloc)) l = true → Forall framable l.
Proof.
  intros Hl. apply list.Forall_forall. intros f Hf. rewrite forallb_forall in Hl.
  apply list_elem_of_In in Hf. by apply Hl, bool_decide_eq_true in Hf.
Qed.

(** The same with configurations that fill the buffer. *)
Definition sample_long_reports : Reports := MkReports
  (λ s, Ok (bytes_of_string "metrics", bytes_of_string "default"))
  (λ s, Ok (replicate 5000 Byte.x63)) (λ s, Err (Errorf "no answer")).

Lemma sample_files_ok rp :
  rp = sample_reports ∨ rp = sample_long_reports →
  file_ok rp [SetKey sample_session "by-dev/meta/session/qn"].
Proof.
  intros Hrp. unfold file_ok. split_and!.
  - eapply storable_intro; [vm_compute; reflexivity|vm_compute; reflexivity].
  - intros t Ht. repeat (apply elem_of_cons in Ht as [->|Ht];
      [eapply storable_intro; [vm_compute; reflexivity|vm_compute; reflexivity]|]).
    by apply not_elem_of_nil in Ht.
  - constructor; [|constructor]. exists sample_session_bytes, sample_session, "by-dev/meta/session/qn".
    split; [vm_compute; reflexivity|done].
  - apply framable_all. destruct Hrp as [-> | ->]; vm_compute; reflexivity.
  - apply harmless_all. destruct Hrp as [-> | ->]; vm_compute; reflexivity.
  - apply harmless_all. destruct Hrp as [-> | ->]; vm_compute; reflexivity.
Qed.


Lemma load_backup_split_witness :
  ∃ c cs, concat (c :: cs) = frames (front_frames sample_source "by-dev/meta")
    ∧ load_backup 20 (λ _, sample_schedule) sample_target (MkRd (c :: cs) EOF)
      = Some (MockState sample_target "" ∅ ∅, MkRd cs EOF, Ok tt).
Proof.
  set (fs := frames (drop 1 (front_frames sample_source "by-dev/meta"))).
  exists (frame (marshalled file_header) ++ take 3 fs), [drop 3 fs]. split.
  - cbn [concat]. rewrite app_nil_r, <-app_assoc, take_drop. reflexivity.
  - apply load_backup_split.
    + apply (sample_files_ok _ (or_introl eq_refl)).
    + vm_compute. repeat constructor.
Defined.
