(* ===== verification/WalHeap.v ===== *)
(** * The heap of messages of the WAL scanner

    Models [wal/utility/message_heap.go] and the functions of [container/heap] that
    run on it.  [typeutil.Heap], the third-party wrapper through which the reorder
    buffer uses the heap, is the interface [MessageHeap]; the functions of
    [container/heap] over [immutableMessageHeap] implement it. *)

From S2P Require Export Prelude.

(** ** Messages

    [message.ImmutableMessage]: what the scanner asks of a message. *)
Inductive MessageType := MessageTypeTimeTick | MessageTypeBeginTxn | MessageTypeCommitTxn
  | MessageTypeRollbackTxn | MessageTypeTxn | MessageTypeOther (code : Z).

#[export] Instance MessageType_eq_dec : EqDecision MessageType.
Proof. solve_decision. Defined.

Record ImmutableMessage := Msg {
  MessageID : string;           (* [MessageID().Marshal()] *)
  TimeTick : Z;                 (* [uint64] *)
  EstimateSize : Z;
  msg_Type : MessageType;
  TxnContext : option Z;        (* the identifier of the transaction *)
  IsPersisted : bool;
  VChannel : string;
  Body : list (string * list byte);    (* the messages of a transaction *)
}.

(** ** [immutableMessageHeap] *)
Abbreviation immutableMessageHeap := (list ImmutableMessage).
Implicit Types (h : immutableMessageHeap) (i j n : nat).

(** [h[i]]. *)
Definition heap_at h i : res ImmutableMessage :=
  match h !! i with Some m => Ok m | None => Panic "index out of range" end.

Definition heap_Len h : nat := length h.
Definition heap_Less h i j : res bool :=
  a ← heap_at h i; b ← heap_at h j; Ok (bool_decide (TimeTick a < TimeTick b)).
Definition heap_Swap h i j : res immutableMessageHeap :=
  a ← heap_at h i; b ← heap_at h j; Ok (<[j := a]> (<[i := b]> h)).
Definition heap_Push h (x : ImmutableMessage) : immutableMessageHeap := h ++ [x].
Definition heap_Pop h : res (ImmutableMessage * immutableMessageHeap) :=
  match list.last h with
  | Some x => Ok (x, removelast h)
  | None => Panic "index out of range"
  end.
Definition heap_Peek h : res ImmutableMessage := heap_at h 0.

(** ** [container/heap] *)
Fixpoint heap_up (fuel : nat) h j : option (res immutableMessageHeap) :=
  match fuel with
  | O => None
  | S fuel =>
      let i := ((j - 1) / 2)%nat in
      if bool_decide (i = j) then Some (Ok h)
      else match heap_Less h j i with
           | Ok false => Some (Ok h)
           | Ok true =>
               match heap_Swap h i j with
               | Ok h => heap_up fuel h i
               | r => Some r
               end
           | Err e => Some (Err e)
           | Panic w => Some (Panic w)
           end
  end.

Fixpoint heap_down (fuel : nat) h i n : option (res immutableMessageHeap) :=
  match fuel with
  | O => None
  | S fuel =>
      let j1 := (2 * i + 1)%nat in
      if bool_decide (n ≤ j1)%nat then Some (Ok h)
      else
        match (right ← (if bool_decide (j1 + 1 < n)%nat then heap_Less h (j1 + 1) j1 else Ok false);
               let j := if right : bool then (j1 + 1)%nat else j1 in
               less ← heap_Less h j i;
               if less : bool then h ← heap_Swap h i j; Ok (Some (h, j)) else Ok None) with
        | Ok None => Some (Ok h)
        | Ok (Some (h, j)) => heap_down fuel h j n
        | Err e => Some (Err e)
        | Panic w => Some (Panic w)
        end
  end.

(** As many rounds as there are positions are enough. *)
Definition container_Push h (x : ImmutableMessage) : option (res immutableMessageHeap) :=
  let h := heap_Push h x in heap_up (S (heap_Len h)) h (heap_Len h - 1).

Definition container_Pop h : option (res (ImmutableMessage * immutableMessageHeap)) :=
  let n := (heap_Len h - 1)%nat in
  match heap_Swap h 0 n with
  | Ok h =>
      match heap_down (S n) h 0 n with
      | Some (Ok h) => Some (heap_Pop h)
      | Some (Err e) => Some (Err e)
      | Some (Panic w) => Some (Panic w)
      | None => None
      end
  | Err e => Some (Err e)
  | Panic w => Some (Panic w)
  end.

(** ** The heap order *)

(** The time tick at a position. *)
Definition tick_at h i : Z := from_option TimeTick 0 (h !! i).

Definition parent_of (p k : nat) : Prop := k = (2 * p + 1)%nat ∨ k = (2 * p + 2)%nat.

(** The first [n] positions are a heap; except at [j], seen from above and below. *)
Definition heap_ordered (v : nat → Z) n : Prop :=
  ∀ p k, parent_of p k → (k < n)%nat → v p ≤ v k.
Definition up_ordered (v : nat → Z) n j : Prop :=
  (∀ p k, parent_of p k → (k < n)%nat → k ≠ j → v p ≤ v k)
  ∧ (∀ p k, parent_of p j → parent_of j k → (k < n)%nat → v p ≤ v k).
Definition down_ordered (v : nat → Z) n i : Prop :=
  (∀ p k, parent_of p k → (k < n)%nat → p ≠ i → v p ≤ v k)
  ∧ (∀ p k, parent_of p i → parent_of i k → (k < n)%nat → v p ≤ v k).

Definition swapped (v v' : nat → Z) i j : Prop :=
  v' i = v j ∧ v' j = v i ∧ ∀ k, k ≠ i → k ≠ j → v' k = v k.

Lemma up_step v v' n p j :
  up_ordered v n j → (j < n)%nat → parent_of p j → v j < v p → swapped v v' p j →
  up_ordered v' n p.
Proof.
  intros [Ha Hb] Hj Hp Hlt (Hvp & Hvj & Hv). split.
  - intros p' k Hk Hn Hne. destruct (decide (k = j)) as [->|Hkj].
    + assert (p' = p) as -> by (unfold parent_of in *; lia). lia.
    + rewrite (Hv k) by done. destruct (decide (p' = p)) as [->|Hpp].
      * specialize (Ha p k Hk Hn Hkj). lia.
      * destruct (decide (p' = j)) as [->|Hpj]; [rewrite Hvj; by apply (Hb p k)|].
        rewrite (Hv p') by done. by apply Ha.
  - intros p' k Hk1 Hk2 Hn. assert (p' ≠ p ∧ p' ≠ j) as [Hp1 Hp2] by (unfold parent_of in *; lia).
    rewrite (Hv p') by done. assert (v p' ≤ v p) by (apply Ha; [done| |]; unfold parent_of in *; lia).
    destruct (decide (k = j)) as [->|Hkj]; [lia|].
    assert (k ≠ p) by (unfold parent_of in *; lia). rewrite (Hv k) by done.
    assert (v p ≤ v k) by (by apply Ha). lia.
Qed.

Lemma up_end v n j :
  up_ordered v n j → (∀ p, parent_of p j → v p ≤ v j) → heap_ordered v n.
Proof.
  intros [Ha Hb] Hp p k Hk Hn. destruct (decide (k = j)) as [->|]; [auto|]. by apply Ha.
Qed.

Lemma down_step v v' n i j :
  down_ordered v n i → parent_of i j → (j < n)%nat → v j < v i →
  (∀ k, parent_of i k → (k < n)%nat → v j ≤ v k) → swapped v v' i j →
  down_ordered v' n j.
Proof.
  intros [Ha Hb] Hij Hj Hlt Hmin (Hvi & Hvj & Hv). split.
  - intros p k Hk Hn Hne. destruct (decide (p = i)) as [->|Hpi].
    + rewrite Hvi. destruct (decide (k = j)) as [->|Hkj]; [lia|].
      assert (k ≠ i) by (unfold parent_of in *; lia). rewrite (Hv k) by done. by apply Hmin.
    + rewrite (Hv p) by done. destruct (decide (k = i)) as [->|Hki].
      * rewrite Hvi. by apply (Hb p j).
      * assert (k ≠ j) by (unfold parent_of in *; lia). rewrite (Hv k) by done. by apply Ha.
  - intros p k Hpj Hjk Hn. assert (p = i) as -> by (unfold parent_of in *; lia).
    assert (k ≠ i ∧ k ≠ j) as [Hk1 Hk2] by (unfold parent_of in *; lia).
    rewrite Hvi, (Hv k) by done. apply Ha; [done..|]. unfold parent_of in *; lia.
Qed.

Lemma down_end v n i :
  down_ordered v n i → (∀ k, parent_of i k → (k < n)%nat → v i ≤ v k) → heap_ordered v n.
Proof.
  intros [Ha Hb] Hp p k Hk Hn. destruct (decide (p = i)) as [->|]; [auto|]. by apply Ha.
Qed.

Lemma heap_root v n k : heap_ordered v n → (k < n)%nat → v 0%nat ≤ v k.
Proof.
  intros Hh. induction (lt_wf k) as [k _ IH]. intros Hk. destruct k as [|k]; [lia|].
  assert (parent_of (k / 2)%nat (S k)) as Hp.
  { unfold parent_of. pose proof (Nat.div_mod k 2). pose proof (Nat.mod_upper_bound k 2). lia. }
  transitivity (v (k / 2)%nat).
  - apply IH; unfold parent_of in Hp; lia.
  - by apply Hh.
Qed.

(** ** The functions of [container/heap] *)
Lemma heap_Less_ok h i j :
  (i < length h)%nat → (j < length h)%nat →
  heap_Less h i j = Ok (bool_decide (tick_at h i < tick_at h j)).
Proof.
  intros [a Ha]%lookup_lt_is_Some_2 [b Hb]%lookup_lt_is_Some_2.
  unfold heap_Less, heap_at, tick_at. by rewrite Ha, Hb.
Qed.

Lemma heap_Swap_ok h i j :
  (i < length h)%nat → (j < length h)%nat →
  ∃ h', heap_Swap h i j = Ok h' ∧ h' ≡ₚ h ∧ h' !! i = h !! j ∧ h' !! j = h !! i
    ∧ ∀ k, k ≠ i → k ≠ j → h' !! k = h !! k.
Proof.
  intros Hi Hj. destruct (lookup_lt_is_Some_2 h i Hi) as [a Ha].
  destruct (lookup_lt_is_Some_2 h j Hj) as [b Hb].
  exists (<[j:=a]> (<[i:=b]> h)). unfold heap_Swap, heap_at. rewrite Ha, Hb. split_and!.
  - done.
  - by apply Permutation_insert_swap.
  - destruct (decide (i = j)) as [->|Hne].
    + rewrite list_lookup_insert_eq by (by rewrite length_insert). congruence.
    + by rewrite list_lookup_insert_ne, list_lookup_insert_eq by done.
  - rewrite list_lookup_insert_eq by (by rewrite length_insert). done.
  - intros k H1 H2. by rewrite !list_lookup_insert_ne by done.
Qed.

Lemma swapped_ticks h h' i j :
  h' !! i = h !! j → h' !! j = h !! i → (∀ k, k ≠ i → k ≠ j → h' !! k = h !! k) →
  swapped (tick_at h) (tick_at h') i j.
Proof.
  intros Hi Hj Hk. unfold swapped, tick_at. rewrite Hi, Hj. split_and!; try done.
  intros k H1 H2. by rewrite Hk.
Qed.

Lemma heap_up_ok fuel h j :
  up_ordered (tick_at h) (length h) j → (j < length h)%nat → (j < fuel)%nat →
  ∃ h', heap_up fuel h j = Some (Ok h') ∧ h' ≡ₚ h ∧ heap_ordered (tick_at h') (length h').
Proof.
  revert h j. induction fuel as [|fuel IH]; intros h j Ho Hj Hf; [lia|]. cbn [heap_up].
  set (i := ((j - 1) / 2)%nat). pose proof (Nat.div_mod (j - 1) 2) as Hdm.
  pose proof (Nat.mod_upper_bound (j - 1) 2) as Hm. fold i in Hdm.
  case_bool_decide as Hij.
  - exists h. split_and!; [done..|]. apply (up_end _ _ j Ho). intros p Hp. unfold parent_of in Hp. lia.
  - assert (parent_of i j) as Hp by (unfold parent_of; lia).
    assert (i < length h)%nat as Hi by lia. rewrite heap_Less_ok by done.
    case_bool_decide as Hlt.
    + destruct (heap_Swap_ok h i j Hi Hj) as (h' & -> & Hperm & Hl & Hr & Hk).
      pose proof (Permutation_length Hperm) as Hlen.
      destruct (IH h' i) as (h'' & -> & Hperm' & Ho').
      * rewrite Hlen. eapply up_step; [exact Ho|done..|]. by apply swapped_ticks.
      * lia.
      * lia.
      * exists h''. split_and!; [done| |done]. by rewrite Hperm'.
    + exists h. split_and!; [done..|]. apply (up_end _ _ j Ho). intros p Hp'.
      assert (p = i) as -> by (unfold parent_of in *; lia). lia.
Qed.

Lemma heap_down_ok fuel h i n :
  down_ordered (tick_at h) n i → (n ≤ length h)%nat → (n < fuel + i)%nat → (i ≤ n)%nat →
  ∃ h', heap_down fuel h i n = Some (Ok h') ∧ h' ≡ₚ h ∧ heap_ordered (tick_at h') n
    ∧ ∀ k, (n ≤ k)%nat → h' !! k = h !! k.
Proof.
  revert h i. induction fuel as [|fuel IH]; intros h i Ho Hn Hf Hi; [lia|]. cbn [heap_down].
  set (j1 := (2 * i + 1)%nat). case_bool_decide as Hj1.
  { exists h. split_and!; try done. apply (down_end _ _ i Ho). intros k Hk. unfold parent_of in Hk. lia. }
  assert (∃ b, (if bool_decide (j1 + 1 < n)%nat then heap_Less h (j1 + 1) j1 else Ok false) = Ok b
    ∧ let j := if b : bool then (j1 + 1)%nat else j1 in
      (j < n)%nat ∧ parent_of i j
      ∧ ∀ k, parent_of i k → (k < n)%nat → tick_at h j ≤ tick_at h k) as (b & -> & Hj & Hp & Hmin).
  { case_bool_decide as Hj2.
    - rewrite heap_Less_ok by lia. eexists. split; [done|]. case_bool_decide; cbv zeta;
        (split; [lia|]); (split; [unfold parent_of; lia|]); intros k [->| ->] Hk;
        subst j1; replace (2 * i + 1 + 1)%nat with (2 * i + 2)%nat in *; lia.
    - eexists. split; [done|]. split; [lia|]. split; [unfold parent_of; lia|].
      intros k [->| ->] Hk; subst j1; lia. }
  cbn [mbind res_bind]. set (j := if b then _ else _) in *. rewrite heap_Less_ok by lia.
  cbn [mbind res_bind]. case_bool_decide as Hlt.
  - destruct (heap_Swap_ok h i j) as (h' & -> & Hperm & Hl & Hr & Hk); [lia..|].
    cbn [mbind res_bind]. pose proof (Permutation_length Hperm) as Hlen.
    destruct (IH h' j) as (h'' & -> & Hperm' & Ho' & Hk').
    + eapply down_step; [exact Ho|done..|]. by apply swapped_ticks.
    + lia.
    + unfold parent_of in Hp. lia.
    + lia.
    + exists h''. split_and!; [done|by rewrite Hperm'|done|]. intros k Hge. rewrite Hk' by done.
      apply Hk; unfold parent_of in Hp; lia.
  - exists h. split_and!; try done. apply (down_end _ _ i Ho). intros k Hpk Hkn.
    specialize (Hmin k Hpk Hkn). lia.
Qed.

Definition is_heap h : Prop := heap_ordered (tick_at h) (length h).

Lemma container_Push_ok h x :
  is_heap h → ∃ h', container_Push h x = Some (Ok h') ∧ is_heap h' ∧ h' ≡ₚ x :: h.
Proof.
  intros Hh. unfold container_Push, heap_Push, heap_Len. rewrite length_app. cbn [length].
  destruct (heap_up_ok (S (length h + 1)) (h ++ [x]) (length h + 1 - 1)) as (h' & -> & Hp & Ho).
  - replace (length h + 1 - 1)%nat with (length h) by lia. rewrite length_app. cbn [length].
    assert (∀ k, (k < length h)%nat → tick_at (h ++ [x]) k = tick_at h k) as Ht.
    { intros k Hk. unfold tick_at. by rewrite lookup_app_l. }
    split.
    + intros p k Hpk Hk Hne. rewrite !Ht by (unfold parent_of in *; lia). apply Hh; [done|lia].
    + intros p k Hp1 Hp2 Hk. unfold parent_of in *. lia.
  - rewrite length_app. cbn [length]. lia.
  - lia.
  - exists h'. split_and!; [done..|]. rewrite Hp. by rewrite Permutation_app_comm.
Qed.

Lemma container_Pop_ok h :
  is_heap h → h ≠ [] →
  ∃ x h', container_Pop h = Some (Ok (x, h')) ∧ heap_Peek h = Ok x ∧ is_heap h' ∧ h ≡ₚ x :: h'
    ∧ ∀ y, y ∈ h → TimeTick x ≤ TimeTick y.
Proof.
  intros Hh Hne. assert (0 < length h)%nat as Hlen by (destruct h; simpl; [done|lia]).
  destruct (lookup_lt_is_Some_2 h 0 Hlen) as [x Hx]. unfold container_Pop, heap_Len.
  set (n := (length h - 1)%nat).
  destruct (heap_Swap_ok h 0 n) as (h1 & -> & Hp1 & Hl & Hr & Hk); [lia..|].
  pose proof (Permutation_length Hp1) as Hlen1.
  destruct (heap_down_ok (S n) h1 0 n) as (h2 & -> & Hp2 & Ho & Hk2); [|lia..|].
  { pose proof (swapped_ticks h h1 0 n Hl Hr Hk) as (_ & _ & Hv). split.
    - intros p k Hpk Hkn Hp. rewrite !Hv by (unfold parent_of in *; lia). apply Hh; [done|lia].
    - intros p k Hpk. unfold parent_of in Hpk. lia. }
  pose proof (Permutation_length Hp2) as Hlen2.
  assert (h2 !! n = Some x) as Hn by (by rewrite Hk2, Hr by done).
  assert (∃ h', h2 = h' ++ [x] ∧ length h' = n) as (h' & -> & Hlen').
  { exists (take n h2). rewrite <-(take_drop n h2) at 1. split; [|rewrite length_take; lia]. f_equal.
    rewrite (drop_S _ x) by done. by rewrite drop_ge by lia. }
  exists x, h'. split_and!.
  - unfold heap_Pop. rewrite last_snoc. by rewrite removelast_last.
  - unfold heap_Peek, heap_at. by rewrite Hx.
  - unfold is_heap. rewrite Hlen'. intros p k Hpk Hkn. specialize (Ho p k Hpk Hkn).
    unfold tick_at in *. rewrite !lookup_app_l in Ho by (unfold parent_of in Hpk; lia). done.
  - rewrite <-Hp1, <-Hp2. by rewrite Permutation_app_comm.
  - intros y [k Hy]%list_elem_of_lookup. pose proof (heap_root _ _ k Hh (lookup_lt_Some _ _ _ Hy)) as Hr'.
    unfold tick_at in Hr'. by rewrite Hx, Hy in Hr'.
Qed.

(** ** [typeutil.Heap] *)
Class MessageHeap (H : Type) := {
  NewHeap : H;
  mh_Len : H → nat;
  mh_Peek : H → res ImmutableMessage;
  mh_Push : H → ImmutableMessage → H;
  mh_Pop : H → res (ImmutableMessage * H);
}.

(** A heap holds a multiset of messages and gives out the least by [Less]. *)
Class MessageHeapLaws (H : Type) `{MessageHeap H} := {
  mh_elems : H → list ImmutableMessage;
  mh_ok : H → Prop;
  mh_New_law : mh_ok NewHeap ∧ mh_elems NewHeap = [];
  mh_Len_law q : mh_Len q = length (mh_elems q);
  mh_Push_law q m : mh_ok q → mh_ok (mh_Push q m) ∧ mh_elems (mh_Push q m) ≡ₚ m :: mh_elems q;
  mh_Pop_law q : mh_ok q → mh_elems q ≠ [] →
    ∃ x q', mh_Peek q = Ok x ∧ mh_Pop q = Ok (x, q') ∧ mh_ok q' ∧ mh_elems q ≡ₚ x :: mh_elems q'
      ∧ ∀ y, y ∈ mh_elems q → TimeTick x ≤ TimeTick y;
}.

(** The heap of [container/heap] over [immutableMessageHeap]. *)
#[export] Instance container_heap : MessageHeap immutableMessageHeap := {
  NewHeap := [];
  mh_Len := heap_Len;
  mh_Peek := heap_Peek;
  mh_Push h m := match container_Push h m with Some (Ok h') => h' | _ => h end;
  mh_Pop h := match container_Pop h with Some r => r | None => Panic "no result" end;
}.

#[export] Instance container_heap_laws : MessageHeapLaws immutableMessageHeap.
Proof.
  refine {| mh_elems q := q; mh_ok := is_heap |}.
  - split; [|done]. intros p k _ Hk. simpl in Hk. lia.
  - done.
  - intros q m Hq. simpl. by destruct (container_Push_ok q m Hq) as (h' & -> & ? & ?).
  - intros q Hq Hne. simpl. destruct (container_Pop_ok q Hq Hne) as (x & h' & -> & ? & ? & ? & ?).
    by exists x, h'.
Defined.

(** C29 (refinement): the functions of [container/heap] over [immutableMessageHeap]
    always return, and keep the heap order; [Push] adds its message; [Pop] of a heap
    that is not empty removes the message [Peek] shows, one with a least time tick. *)
Theorem message_heap_spec h :
  is_heap h →
  (∀ x, ∃ h', container_Push h x = Some (Ok h') ∧ is_heap h' ∧ h' ≡ₚ x :: h)
  ∧ (h ≠ [] → ∃ x h', container_Pop h = Some (Ok (x, h')) ∧ heap_Peek h = Ok x ∧ is_heap h'
       ∧ h ≡ₚ x :: h' ∧ ∀ y, y ∈ h → TimeTick x ≤ TimeTick y).
Proof.
  intros Hh. split; [intros x; by apply container_Push_ok|intros Hne; by apply container_Pop_ok].
Qed.

Definition sample_msg (id : string) (tick : Z) : ImmutableMessage :=
  Msg id tick 10 (MessageTypeOther 2) None true "" [].

Lemma message_heap_spec_witness :
  let h := [sample_msg "a" 1; sample_msg "b" 4; sample_msg "c" 2; sample_msg "d" 5] in
  ∃ x h', container_Pop h = Some (Ok (x, h')) ∧ x = sample_msg "a" 1 ∧ is_heap h'.
Proof.
  intros h. destruct (message_heap_spec h) as [_ Hp].
  - intros p k Hpk Hk. simpl in Hk. unfold parent_of in Hpk.
    assert (k = 1 ∧ p = 0 ∨ k = 2 ∧ p = 0 ∨ k = 3 ∧ p = 1)%nat as Hc by lia.
    destruct Hc as [[-> ->]|[[-> ->]|[-> ->]]]; vm_compute; discriminate.
  - destruct (Hp ltac:(discriminate)) as (x & h' & Hx & Hpk & Hh & _). exists x, h'.
    split; [exact Hx|]. split; [|exact Hh]. unfold h, heap_Peek, heap_at in Hpk. simpl in Hpk. congruence.
Defined.
