(* ===== verification/WalBuffers.v ===== *)
(** * The buffers of the WAL scanner

    Models [wal/utility/pending_queue.go], [wal/utility/reorder_buffer.go] and
    [wal/utility/txn_buffer.go].  The queue, the set and the builder of transaction
    messages come from the Milvus package and are interfaces here. *)

From S2P Require Export WalHeap.

(** ** The third-party containers *)
Class MultipartQueue (Q : Type) := {
  NewMultipartQueue : Q;
  mq_Len : Q → Z;
  mq_Add : Q → list ImmutableMessage → Q;
  mq_AddOne : Q → ImmutableMessage → Q;
  mq_Next : Q → option ImmutableMessage;        (* nil for an empty queue *)
  mq_UnsafeAdvance : Q → Q;
}.
Class MultipartQueueLaws (Q : Type) `{MultipartQueue Q} := {
  mq_list : Q → list ImmutableMessage;
  mq_New_law : mq_list NewMultipartQueue = [];
  mq_Len_law q : mq_Len q = zlen (mq_list q);
  mq_Add_law q l : mq_list (mq_Add q l) = mq_list q ++ l;
  mq_AddOne_law q m : mq_list (mq_AddOne q m) = mq_list q ++ [m];
  mq_Next_law q : mq_Next q = head (mq_list q);
  mq_Advance_law q m l : mq_list q = m :: l → mq_list (mq_UnsafeAdvance q) = l;
}.

Class StringSet (S : Type) := {
  NewSet : S;
  set_Contain : S → string → bool;
  set_Insert : S → string → S;
  set_Remove : S → string → S;
}.
Class StringSetLaws (S : Type) `{StringSet S} := {
  set_elems : S → gset string;
  set_New_law : set_elems NewSet = ∅;
  set_Contain_law s x : set_Contain s x = bool_decide (x ∈ set_elems s);
  set_Insert_law s x : set_elems (set_Insert s x) = {[x]} ∪ set_elems s;
  set_Remove_law s x : set_elems (set_Remove s x) = set_elems s ∖ {[x]};
}.

(** ** [PendingQueue] *)
Section pending.
Context {Q : Type} `{MultipartQueue Q}.

Record PendingQueue := PQ { pq_queue : Q; pq_bytes : Z }.

Definition NewPendingQueue : PendingQueue := PQ NewMultipartQueue 0.

Definition pq_Add (q : PendingQueue) (msg : list ImmutableMessage) : PendingQueue :=
  PQ (mq_Add (pq_queue q) msg) (foldl (λ b m, int64 (b + EstimateSize m)) (pq_bytes q) msg).

Definition pq_AddOne (q : PendingQueue) (msg : ImmutableMessage) : PendingQueue :=
  PQ (mq_AddOne (pq_queue q) msg) (int64 (pq_bytes q + EstimateSize msg)).

Definition pq_UnsafeAdvance (q : PendingQueue) : res PendingQueue :=
  match mq_Next (pq_queue q) with
  | None => Panic "invalid memory address or nil pointer dereference"
  | Some m => Ok (PQ (mq_UnsafeAdvance (pq_queue q)) (int64 (pq_bytes q - EstimateSize m)))
  end.
End pending.
Arguments PendingQueue : clear implicits.

(** ** [ReOrderByTimeTickBuffer] *)
Section reorder.
Context {H S : Type} `{MessageHeap H} `{StringSet S}.

Record ReOrderByTimeTickBuffer := RB {
  messageIDs : S;
  messageHeap : H;
  lastPopTimeTick : Z;
  rb_bytes : Z;
}.

Definition NewReOrderBuffer : ReOrderByTimeTickBuffer := RB NewSet NewHeap 0 0.

Definition rb_Push (r : ReOrderByTimeTickBuffer) (msg : ImmutableMessage)
    : ReOrderByTimeTickBuffer * res unit :=
  if bool_decide (TimeTick msg < lastPopTimeTick r) then (r, Err ErrTimeTickViolation)
  else if set_Contain (messageIDs r) (MessageID msg) then
    (r, Err (Errorf "message is duplicated"))
  else (RB (set_Insert (messageIDs r) (MessageID msg)) (mh_Push (messageHeap r) msg)
          (lastPopTimeTick r) (int64 (rb_bytes r + EstimateSize msg)), Ok tt).

(** The loop of [PopUtilTimeTick], for at most [fuel] messages. *)
Fixpoint pop_loop (fuel : nat) (r : ReOrderByTimeTickBuffer) (timetick : Z)
    : option (res (ReOrderByTimeTickBuffer * list ImmutableMessage)) :=
  match fuel with
  | O => None
  | Datatypes.S fuel =>
      if bool_decide (0 < mh_Len (messageHeap r))%nat then
        match mh_Peek (messageHeap r) with
        | Ok top =>
            if bool_decide (TimeTick top <= timetick) then
              match mh_Pop (messageHeap r) with
              | Ok (m, h) =>
                  let r := RB (set_Remove (messageIDs r) (MessageID top)) h (lastPopTimeTick r)
                             (int64 (rb_bytes r - EstimateSize top)) in
                  match pop_loop fuel r timetick with
                  | Some (Ok (r, res)) => Some (Ok (r, m :: res))
                  | x => x
                  end
              | Err e => Some (Err e)
              | Panic w => Some (Panic w)
              end
            else Some (Ok (r, []))
        | Err e => Some (Err e)
        | Panic w => Some (Panic w)
        end
      else Some (Ok (r, []))
  end.

Definition PopUtilTimeTick (fuel : nat) (r : ReOrderByTimeTickBuffer) (timetick : Z)
    : option (res (ReOrderByTimeTickBuffer * list ImmutableMessage)) :=
  match pop_loop fuel r timetick with
  | Some (Ok (r, res)) =>
      Some (Ok (RB (messageIDs r) (messageHeap r) timetick (rb_bytes r), res))
  | x => x
  end.

Definition rb_Len (r : ReOrderByTimeTickBuffer) : nat := mh_Len (messageHeap r).
End reorder.
Arguments ReOrderByTimeTickBuffer : clear implicits.

(** ** [TxnBuffer] *)

(** [message.ImmutableTxnMessageBuilder], and the conversions of messages to those of a
    transaction, which return nil with an error. *)
Class TxnBuilder (B : Type) := {
  NewImmutableTxnMessageBuilder : ImmutableMessage → B;
  tb_Add : B → ImmutableMessage → B;
  tb_Build : B → ImmutableMessage → res ImmutableMessage;
  tb_EstimateSize : B → Z;
  ExpiredTimeTick : B → Z;
  AsImmutableBeginTxnMessageV2 : ImmutableMessage → res ImmutableMessage;
  AsImmutableCommitTxnMessageV2 : ImmutableMessage → res ImmutableMessage;
  AsImmutableRollbackTxnMessageV2 : ImmutableMessage → res ImmutableMessage;
}.

Section txn.
Context {B : Type} `{TxnBuilder B} `{MapOrder}.

Record TxnBuffer := TB { builders : gmap Z B; tb_bytes : Z }.

Definition NewTxnBuffer : TxnBuffer := TB ∅ 0.

(** [m.TxnContext().TxnID]. *)
Definition TxnID (m : ImmutableMessage) : res Z :=
  match TxnContext m with
  | Some id => Ok id
  | None => Panic "invalid memory address or nil pointer dereference"
  end.

(** A failed conversion is logged with methods of the nil message. *)
Definition converted (r : res ImmutableMessage) : res ImmutableMessage :=
  match r with Err _ => Panic "invalid memory address or nil pointer dereference" | r => r end.

Definition handleBeginTxn (b : TxnBuffer) (msg : ImmutableMessage) : res TxnBuffer :=
  beginMsg ← converted (AsImmutableBeginTxnMessageV2 msg);
  id ← TxnID beginMsg;
  match builders b !! id with
  | Some _ => Ok b
  | None => Ok (TB (<[id := NewImmutableTxnMessageBuilder beginMsg]> (builders b))
                  (int64 (tb_bytes b + EstimateSize beginMsg)))
  end.

Definition handleCommitTxn (b : TxnBuffer) (msg : ImmutableMessage)
    : res (TxnBuffer * option ImmutableMessage) :=
  commitMsg ← converted (AsImmutableCommitTxnMessageV2 msg);
  id ← TxnID commitMsg;
  match builders b !! id with
  | None => Ok (b, None)
  | Some builder =>
      let bytes := int64 (tb_bytes b - tb_EstimateSize builder) in
      let b := TB (delete id (builders b)) bytes in
      match tb_Build builder commitMsg with
      | Ok txnMsg => Ok (b, Some txnMsg)
      | Err _ => Ok (b, None)
      | Panic w => Panic w
      end
  end.

Definition handleRollbackTxn (b : TxnBuffer) (msg : ImmutableMessage) : res TxnBuffer :=
  rollbackMsg ← converted (AsImmutableRollbackTxnMessageV2 msg);
  id ← TxnID rollbackMsg;
  match builders b !! id with
  | Some builder => Ok (TB (delete id (builders b)) (int64 (tb_bytes b - tb_EstimateSize builder)))
  | None => Ok b
  end.

Definition handleTxnBodyMessage (b : TxnBuffer) (msg : ImmutableMessage) : res TxnBuffer :=
  id ← TxnID msg;
  match builders b !! id with
  | None => Ok b
  | Some builder =>
      Ok (TB (<[id := tb_Add builder msg]> (builders b)) (int64 (tb_bytes b + EstimateSize msg)))
  end.

Definition clearExpiredTxn (b : TxnBuffer) (ts : Z) : TxnBuffer :=
  foldl (λ b x,
    if bool_decide (ExpiredTimeTick x.2 <= ts)
    then TB (delete x.1 (builders b)) (int64 (tb_bytes b - tb_EstimateSize x.2)) else b)
    b (range (builders b)).

(** One message of the loop, with the results so far. *)
Definition handle_message (msg : ImmutableMessage) (st : TxnBuffer * list ImmutableMessage)
    : res (TxnBuffer * list ImmutableMessage) :=
  let '(b, result) := st in
  if bool_decide (TxnContext msg = None) then Ok (b, result ++ [msg])
  else
    match msg_Type msg with
    | MessageTypeBeginTxn => b ← handleBeginTxn b msg; Ok (b, result)
    | MessageTypeCommitTxn =>
        '(b, newTxnMsg) ← handleCommitTxn b msg;
        Ok (b, match newTxnMsg with Some m => result ++ [m] | None => result end)
    | MessageTypeRollbackTxn => b ← handleRollbackTxn b msg; Ok (b, result)
    | _ => b ← handleTxnBodyMessage b msg; Ok (b, result)
    end.

Definition HandleImmutableMessages (b : TxnBuffer) (msgs : list ImmutableMessage) (ts : Z)
    : res (TxnBuffer * list ImmutableMessage) :=
  '(b, result) ← foldM handle_message msgs (b, []);
  Ok (clearExpiredTxn b ts, result).
End txn.
Arguments TxnBuffer : clear implicits.

(** ** The reorder buffer in order of time ticks *)
Definition tick_le (a b : ImmutableMessage) : Prop := TimeTick a ≤ TimeTick b.

Section reorder_properties.
Context {H S : Type} `{MessageHeapLaws H} `{StringSetLaws S}.
Implicit Types (r : ReOrderByTimeTickBuffer H S) (m : ImmutableMessage).

(** The messages held. *)
Definition rb_msgs r : list ImmutableMessage := mh_elems (messageHeap r).

Definition rb_ok r : Prop :=
  mh_ok (messageHeap r) ∧ NoDup (map MessageID (rb_msgs r))
  ∧ set_elems (messageIDs r) = list_to_set (map MessageID (rb_msgs r))
  ∧ rb_bytes r = int64 (sum_Z EstimateSize (rb_msgs r)).

Lemma NewReOrderBuffer_ok : rb_ok (NewReOrderBuffer (H:=H) (S:=S)) ∧ rb_msgs NewReOrderBuffer = [].
Proof.
  destruct mh_New_law as [Hok Hnil]. unfold rb_ok, rb_msgs, NewReOrderBuffer. cbn [messageHeap messageIDs rb_bytes].
  rewrite Hnil, set_New_law. split_and!; try done. constructor.
Qed.

Lemma rb_Push_ok r m :
  rb_ok r →
  let '(r', e) := rb_Push r m in
  if bool_decide (TimeTick m < lastPopTimeTick r) then r' = r ∧ e = Err ErrTimeTickViolation
  else if bool_decide (MessageID m ∈ map MessageID (rb_msgs r)) then r' = r ∧ ∃ w, e = Err (Errorf w)
  else e = Ok tt ∧ rb_ok r' ∧ rb_msgs r' ≡ₚ m :: rb_msgs r ∧ lastPopTimeTick r' = lastPopTimeTick r.
Proof.
  intros (Hh & Hnd & Hs & Hb). unfold rb_Push. case_bool_decide as Ht; [done|].
  rewrite set_Contain_law, Hs.
  rewrite (bool_decide_ext _ (MessageID m ∈ map MessageID (rb_msgs r))) by apply elem_of_list_to_set.
  case_bool_decide as Hin; [eauto|].
  destruct (mh_Push_law (messageHeap r) m Hh) as [Hh' Hp].
  unfold rb_ok, rb_msgs in *. cbn [messageHeap messageIDs rb_bytes lastPopTimeTick].
  split_and!; try done.
  - rewrite Hp. cbn [map]. by apply list.NoDup_cons.
  - rewrite set_Insert_law, Hs. apply set_eq. intros x. rewrite elem_of_union, !elem_of_list_to_set.
    rewrite Hp. cbn [map]. set_solver.
  - rewrite Hb, (sum_Z_perm _ _ _ Hp), sum_Z_cons, wraps_add_l by lia. f_equal. lia.
Qed.

Lemma pop_loop_ok fuel r t :
  rb_ok r → (length (rb_msgs r) < fuel)%nat →
  ∃ r' out, pop_loop fuel r t = Some (Ok (r', out)) ∧ rb_ok r' ∧ rb_msgs r ≡ₚ out ++ rb_msgs r'
    ∧ StronglySorted tick_le out ∧ Forall (λ m, TimeTick m ≤ t) out
    ∧ Forall (λ m, t < TimeTick m) (rb_msgs r') ∧ lastPopTimeTick r' = lastPopTimeTick r.
Proof.
  revert r. induction fuel as [|fuel IH]; intros r Hok Hf; [lia|]. cbn [pop_loop].
  pose proof Hok as (Hh & Hnd & Hs & Hb). rewrite mh_Len_law. fold (rb_msgs r).
  case_bool_decide as Hlen.
  2: { exists r, []. destruct (rb_msgs r); [|simpl in Hlen; lia]. split_and!; try done; constructor. }
  destruct (mh_Pop_law (messageHeap r) Hh) as (x & h' & Hpk & Hpop & Hh' & Hp & Hmin).
  { intros E. unfold rb_msgs in Hlen. rewrite E in Hlen. simpl in Hlen. lia. }
  fold (rb_msgs r) in Hp, Hmin. rewrite Hpk, Hpop. case_bool_decide as Ht.
  2: { exists r, []. split_and!; try done; [constructor..|]. apply list.Forall_forall.
       intros y Hy. specialize (Hmin y Hy). lia. }
  set (r1 := RB _ h' _ _).
  assert (rb_ok r1) as Hok1.
  { rewrite Hp in Hnd. cbn [map] in Hnd. apply list.NoDup_cons in Hnd as [Hnin Hnd].
    unfold rb_ok, rb_msgs, r1. cbn [messageHeap messageIDs rb_bytes]. split_and!; [done..| |].
    - rewrite set_Remove_law, Hs. apply set_eq. intros y.
      rewrite elem_of_difference, !elem_of_list_to_set, Hp. cbn [map]. set_solver.
    - rewrite Hb, (sum_Z_perm _ _ _ Hp), sum_Z_cons. unfold Z.sub. rewrite wraps_add_l by lia.
      f_equal. lia. }
  destruct (IH r1 Hok1) as (r' & out & -> & Hok' & Hp' & Hsort & Hle & Hgt & Hlast).
  { pose proof (Permutation_length Hp) as Hl. unfold r1, rb_msgs in *. cbn [messageHeap length] in *. lia. }
  unfold r1, rb_msgs in Hp'. cbn [messageHeap] in Hp'. fold (rb_msgs r') in Hp'.
  exists r', (x :: out). split_and!; try done.
  - rewrite Hp, Hp'. done.
  - constructor; [done|]. apply list.Forall_forall. intros y Hy. apply Hmin. rewrite Hp, Hp'.
    right. apply elem_of_app. by left.
  - by constructor.
Qed.

Lemma PopUtil_ok fuel r t :
  rb_ok r → (length (rb_msgs r) < fuel)%nat →
  ∃ r' out, PopUtilTimeTick fuel r t = Some (Ok (r', out)) ∧ rb_ok r' ∧ lastPopTimeTick r' = t
    ∧ StronglySorted tick_le out ∧ rb_msgs r ≡ₚ out ++ rb_msgs r'
    ∧ Forall (λ m, TimeTick m ≤ t) out ∧ Forall (λ m, t < TimeTick m) (rb_msgs r').
Proof.
  intros Hok Hf.
  destruct (pop_loop_ok fuel r t Hok Hf) as (r' & out & Hpop & Hok' & Hp & Hsort & Hle & Hgt & _).
  unfold PopUtilTimeTick. rewrite Hpop. eexists _, out. by split_and!.
Qed.

(** C12 (refinement): the reorder buffer is a bag of messages with distinct identifiers.
    [Push] refuses a message below the last popped time tick or with an identifier that
    is held, and changes nothing then; else it adds it.  [PopUtilTimeTick] always
    returns: the messages up to the time tick, each once and in order of time ticks;
    the later ones stay.  The size stays that of the messages held. *)
Theorem ReOrderBuffer_spec r :
  rb_ok r →
  (∀ m, let '(r', e) := rb_Push r m in
     if bool_decide (TimeTick m < lastPopTimeTick r) then r' = r ∧ e = Err ErrTimeTickViolation
     else if bool_decide (MessageID m ∈ map MessageID (rb_msgs r)) then r' = r ∧ ∃ w, e = Err (Errorf w)
     else e = Ok tt ∧ rb_ok r' ∧ rb_msgs r' ≡ₚ m :: rb_msgs r ∧ lastPopTimeTick r' = lastPopTimeTick r)
  ∧ (∀ t fuel, (length (rb_msgs r) < fuel)%nat →
       ∃ r' out, PopUtilTimeTick fuel r t = Some (Ok (r', out)) ∧ rb_ok r' ∧ lastPopTimeTick r' = t
         ∧ StronglySorted tick_le out ∧ rb_msgs r ≡ₚ out ++ rb_msgs r'
         ∧ Forall (λ m, TimeTick m ≤ t) out ∧ Forall (λ m, t < TimeTick m) (rb_msgs r')).
Proof.
  intros Hok. split; [intros m; by apply rb_Push_ok|]. intros t fuel Hf. by apply PopUtil_ok.
Qed.
End reorder_properties.

(** ** Transactions *)

(** What the program relies on: a conversion that succeeds gives the message itself, sizes
    add up, and the message of a transaction has its own type and the time tick of its
    commit.  Conversions may fail, and [Build] may return an error. *)
Class TxnBuilderLaws (B : Type) `{TxnBuilder B} := {
  as_begin_law m x : AsImmutableBeginTxnMessageV2 m = Ok x → x = m;
  as_commit_law m x : AsImmutableCommitTxnMessageV2 m = Ok x → x = m;
  as_rollback_law m x : AsImmutableRollbackTxnMessageV2 m = Ok x → x = m;
  size_New_law m : tb_EstimateSize (NewImmutableTxnMessageBuilder m) = EstimateSize m;
  size_Add_law b m : tb_EstimateSize (tb_Add b m) = tb_EstimateSize b + EstimateSize m;
  Build_tick_law b m x : tb_Build b m = Ok x → TimeTick x = TimeTick m;
  Build_type_law b m x : tb_Build b m = Ok x → msg_Type x = MessageTypeTxn;
  Build_total_law b m w : tb_Build b m ≠ Panic w;
}.

Section txn_properties.
Context {B : Type} `{TxnBuilderLaws B} `{MapOrder}.
Implicit Types (b : TxnBuffer B) (m : ImmutableMessage).

(** A message whose conversion to that of its kind, if it needs one, succeeds. *)
Definition is_Ok {A} (r : res A) : bool := match r with Ok _ => true | _ => false end.
Definition converts m : bool :=
  match TxnContext m, msg_Type m with
  | None, _ => true
  | _, MessageTypeBeginTxn => is_Ok (AsImmutableBeginTxnMessageV2 m)
  | _, MessageTypeCommitTxn => is_Ok (AsImmutableCommitTxnMessageV2 m)
  | _, MessageTypeRollbackTxn => is_Ok (AsImmutableRollbackTxnMessageV2 m)
  | _, _ => true
  end.

(** One transaction on its own: its builder after a message of it, and what a message
    gives out. *)
Definition txn_step (s : option B) m : option B :=
  match msg_Type m, s with
  | MessageTypeBeginTxn, None => Some (NewImmutableTxnMessageBuilder m)
  | MessageTypeBeginTxn, Some _ => s
  | (MessageTypeCommitTxn | MessageTypeRollbackTxn), _ => None
  | _, Some builder => Some (tb_Add builder m)
  | _, None => None
  end.

Definition txn_output (s : option B) m : list ImmutableMessage :=
  match msg_Type m, s with
  | MessageTypeCommitTxn, Some builder => match tb_Build builder m with Ok x => [x] | _ => [] end
  | _, _ => []
  end.

Definition of_txn (id : Z) (l : list ImmutableMessage) : list ImmutableMessage :=
  filter (λ m, TxnContext m = Some id) l.

(** The builder of a transaction after [l], from the messages of this transaction. *)
Definition txn_state (bs : gmap Z B) (l : list ImmutableMessage) (id : Z) : option B :=
  foldl txn_step (bs !! id) (of_txn id l).

Definition outputs_of (bs : gmap Z B) (before : list ImmutableMessage) m : list ImmutableMessage :=
  match TxnContext m with
  | None => [m]
  | Some id => txn_output (txn_state bs before id) m
  end.

Fixpoint txn_outputs (bs : gmap Z B) (before l : list ImmutableMessage) : list ImmutableMessage :=
  match l with
  | [] => []
  | m :: l => outputs_of bs before m ++ txn_outputs bs (before ++ [m]) l
  end.

Definition builders_size (bs : gmap Z B) : Z := sum_Z (λ x, tb_EstimateSize x.2) (map_to_list bs).
Definition tb_ok b : Prop := tb_bytes b = int64 (builders_size (builders b)).

Lemma builders_size_insert bs id builder :
  bs !! id = None → builders_size (<[id := builder]> bs) = builders_size bs + tb_EstimateSize builder.
Proof.
  intros Hn. unfold builders_size. rewrite (sum_Z_perm _ _ _ (map_to_list_insert bs id builder Hn)).
  rewrite sum_Z_cons. simpl. lia.
Qed.

Lemma builders_size_delete bs id builder :
  bs !! id = Some builder → builders_size (delete id bs) = builders_size bs - tb_EstimateSize builder.
Proof.
  intros Hs. rewrite <-(insert_delete_id bs id builder Hs) at 2.
  rewrite builders_size_insert by apply lookup_delete_eq. lia.
Qed.

Lemma builders_size_update bs id old new :
  bs !! id = Some old →
  builders_size (<[id := new]> bs) = builders_size bs + tb_EstimateSize new - tb_EstimateSize old.
Proof.
  intros Hs. rewrite <-insert_delete_eq. rewrite builders_size_insert by apply lookup_delete_eq.
  rewrite (builders_size_delete bs id old) by done. lia.
Qed.

(** The builders after a message. *)
Definition builders_after (bs : gmap Z B) m : gmap Z B :=
  match TxnContext m with
  | None => bs
  | Some id => partial_alter (λ s, txn_step s m) id bs
  end.

Definition output_now (bs : gmap Z B) m : list ImmutableMessage :=
  match TxnContext m with None => [m] | Some id => txn_output (bs !! id) m end.

Lemma partial_alter_to (f : option B → option B) (bs : gmap Z B) id :
  partial_alter f id bs = match f (bs !! id) with Some x => <[id := x]> bs | None => delete id bs end.
Proof.
  apply map_eq. intros i. destruct (decide (i = id)) as [->|Hne].
  - rewrite lookup_partial_alter_eq. destruct (f (bs !! id)); by rewrite ?lookup_insert_eq, ?lookup_delete_eq.
  - rewrite lookup_partial_alter_ne by done.
    destruct (f (bs !! id)); by rewrite ?lookup_insert_ne, ?lookup_delete_ne by done.
Qed.

Lemma handle_message_ok m b result :
  tb_ok b → converts m = true →
  ∃ b', handle_message m (b, result) = Ok (b', result ++ output_now (builders b) m)
    ∧ builders b' = builders_after (builders b) m ∧ tb_ok b'.
Proof.
  intros Hb Hc. unfold converts in Hc. unfold handle_message, output_now, builders_after.
  destruct (TxnContext m) as [id|] eqn:Hid; [|rewrite bool_decide_true by done; eauto].
  rewrite bool_decide_false by done. rewrite partial_alter_to.
  unfold handleBeginTxn, handleCommitTxn, handleRollbackTxn, handleTxnBodyMessage, txn_step, txn_output,
    tb_ok in *.
  destruct (msg_Type m) eqn:Hty;
    try (destruct (AsImmutableBeginTxnMessageV2 m) as [x0| |] eqn:Ha; [apply as_begin_law in Ha as ->|done..]);
    try (destruct (AsImmutableCommitTxnMessageV2 m) as [x0| |] eqn:Ha; [apply as_commit_law in Ha as ->|done..]);
    try (destruct (AsImmutableRollbackTxnMessageV2 m) as [x0| |] eqn:Ha; [apply as_rollback_law in Ha as ->|done..]);
    unfold TxnID; cbn [converted mbind res_bind]; rewrite Hid; cbn [mbind res_bind];
    destruct (builders b !! id) as [builder|] eqn:Hs; cbn [mbind res_bind]; rewrite ?app_nil_r;
    try (match goal with |- context [tb_Build builder m] =>
           destruct (tb_Build builder m) as [x|e|w] eqn:Hbuild; [| |by apply Build_total_law in Hbuild] end);
    cbn [mbind res_bind]; rewrite ?app_nil_r; (eexists; split; [reflexivity|]); cbn [builders tb_bytes];
    rewrite ?insert_id, ?delete_id by done; (split; [done|]); try done;
    rewrite Hb; unfold Z.sub; rewrite wraps_add_l by lia; f_equal;
    rewrite ?(builders_size_delete _ _ builder), ?builders_size_insert,
      ?(builders_size_update _ _ builder), ?size_New_law, ?size_Add_law by done; lia.
Qed.

(** The nil message of a failed conversion is used for the log. *)
Lemma handle_message_panics m b result :
  converts m = false → ∃ w, handle_message m (b, result) = Panic w.
Proof.
  unfold converts, handle_message, handleBeginTxn, handleCommitTxn, handleRollbackTxn.
  destruct (TxnContext m) as [id|] eqn:Hid; [|done]. rewrite bool_decide_false by done.
  destruct (msg_Type m); try done; match goal with |- context [converted ?r] => destruct r as [?|?|w] end; try done; intros _;
    cbn [converted mbind res_bind]; by eexists.
Qed.

Lemma txn_state_snoc bs before m id :
  txn_state bs (before ++ [m]) id
  = if bool_decide (TxnContext m = Some id) then txn_step (txn_state bs before id) m
    else txn_state bs before id.
Proof.
  unfold txn_state, of_txn. rewrite list.filter_app, foldl_app. case_bool_decide as Hm.
  - by rewrite filter_cons_True.
  - by rewrite filter_cons_False.
Qed.

(** The loop, after [before] has been handled. *)
Lemma handle_messages_ok bs before l b result :
  tb_ok b → (∀ id, builders b !! id = txn_state bs before id) → forallb converts l = true →
  ∃ b', foldM handle_message l (b, result) = Ok (b', result ++ txn_outputs bs before l) ∧ tb_ok b'
    ∧ ∀ id, builders b' !! id = txn_state bs (before ++ l) id.
Proof.
  revert before b result. induction l as [|m l IH]; intros before b result Hb Hs Hc.
  - exists b. rewrite !app_nil_r. by split_and!.
  - cbn [forallb] in Hc. apply andb_true_iff in Hc as [Hc1 Hc].
    destruct (handle_message_ok m b result Hb Hc1) as (b1 & Hm & Hb1 & Hok1).
    assert (output_now (builders b) m = outputs_of bs before m) as Hout.
    { unfold output_now, outputs_of. destruct (TxnContext m); [by rewrite Hs|done]. }
    destruct (IH (before ++ [m]) b1 (result ++ outputs_of bs before m) Hok1) as (b' & Hl & Hok' & Hs').
    + intros id. rewrite Hb1, txn_state_snoc. unfold builders_after.
      destruct (TxnContext m) as [id'|]; [|rewrite bool_decide_false by done; apply Hs].
      case_bool_decide as Hid.
      * simplify_eq. by rewrite lookup_partial_alter_eq, Hs.
      * rewrite lookup_partial_alter_ne by congruence. apply Hs.
    + done.
    + exists b'. cbn [foldM txn_outputs]. rewrite Hm, Hout. cbn [mbind res_bind]. rewrite Hl.
      rewrite <-!app_assoc. split_and!; [done..|]. intros id. rewrite Hs'. by rewrite <-app_assoc.
Qed.

Lemma handle_messages_panic l b result :
  tb_ok b → forallb converts l = false → ∃ w, foldM handle_message l (b, result) = Panic w.
Proof.
  revert b result. induction l as [|m l IH]; intros b result Hb Hc; [done|]. cbn [forallb foldM] in *.
  destruct (converts m) eqn:Hm.
  - destruct (handle_message_ok m b result Hb Hm) as (b1 & -> & _ & Hok1). by apply IH.
  - destruct (handle_message_panics m b result Hm) as [w ->]. by exists w.
Qed.

Lemma clear_loop_ok ts l b :
  tb_ok b → NoDup l.*1 → (∀ x, x ∈ l → builders b !! x.1 = Some x.2) →
  let b' := foldl (λ b x,
    if bool_decide (ExpiredTimeTick x.2 <= ts)
    then TB (delete x.1 (builders b)) (int64 (tb_bytes b - tb_EstimateSize x.2)) else b) b l in
  tb_ok b' ∧ ∀ id s, builders b' !! id = Some s
    ↔ builders b !! id = Some s ∧ ((id, s) ∈ l → ts < ExpiredTimeTick s).
Proof.
  revert b. induction l as [|[i x] l IH]; intros b Hb Hnd Hl.
  { split; [done|]. intros id s. split; [|tauto]. intros Hs. split; [done|].
    intros Hin. by apply not_elem_of_nil in Hin. }
  cbn [foldl fst snd]. cbn in Hnd. apply list.NoDup_cons in Hnd as [Hi Hnd].
  pose proof (Hl (i, x) (list_elem_of_here _ _)) as Hx. cbn in Hx.
  assert (∀ s, (i, s) ∉ l) as Hil.
  { intros s Hin. apply Hi. apply list_elem_of_fmap. by exists (i, s). }
  case_bool_decide as He.
  - destruct (IH (TB (delete i (builders b)) (int64 (tb_bytes b - tb_EstimateSize x)))) as [Hok Hs].
    + unfold tb_ok in *. cbn [builders tb_bytes]. rewrite (builders_size_delete _ _ x) by done.
      rewrite Hb. unfold Z.sub. rewrite wraps_add_l by lia. done.
    + done.
    + intros [j y] Hin. cbn [builders fst snd]. rewrite lookup_delete_ne; [by apply (Hl (j, y)); right|].
      intros ->. by apply (Hil y).
    + split; [done|]. intros id s. rewrite Hs. cbn [builders]. rewrite lookup_delete_Some, elem_of_cons.
      split; [|intros [? Hc]; split; [split; [|done]|auto]].
      * intros [[Hne ?] Hc]. split; [done|]. intros [[= -> ->]|?]; [done|auto].
      * intros ->. assert (s = x) as -> by congruence. assert (ts < ExpiredTimeTick x) by auto. lia.
  - destruct (IH b Hb Hnd) as [Hok Hs]; [intros y Hy; apply Hl; by right|]. split; [done|].
    intros id s. rewrite Hs, elem_of_cons. split; [|tauto]. intros [Hb' Hc]. split; [done|].
    intros [[= -> ->]|?]; [lia|auto].
Qed.

Lemma HandleImmutable_panic b msgs ts :
  tb_ok b → forallb converts msgs = false → ∃ w, HandleImmutableMessages b msgs ts = Panic w.
Proof.
  intros Hb Hc. destruct (handle_messages_panic msgs b [] Hb Hc) as [w Hw]. exists w.
  unfold HandleImmutableMessages. by rewrite Hw.
Qed.

Lemma HandleImmutable_ok b msgs ts :
  tb_ok b → forallb converts msgs = true →
  ∃ b', HandleImmutableMessages b msgs ts = Ok (b', txn_outputs (builders b) [] msgs)
    ∧ tb_ok b'
    ∧ ∀ id, builders b' !! id
      = match txn_state (builders b) msgs id with
        | Some s => if bool_decide (ExpiredTimeTick s <= ts) then None else Some s
        | None => None
        end.
Proof.
  intros Hb Hcv. destruct (handle_messages_ok (builders b) [] msgs b [] Hb) as (b1 & Hl & Hok1 & Hs1);
    [done..|].
  unfold HandleImmutableMessages. rewrite Hl. cbn [mbind res_bind].
  destruct (clear_loop_ok ts (range (builders b1)) b1 Hok1) as [Hok' Hs'].
  - rewrite range_perm. apply NoDup_fst_map_to_list.
  - intros [i x] Hin. rewrite range_perm in Hin. by apply elem_of_map_to_list in Hin.
  - eexists. split; [done|]. split; [exact Hok'|]. intros id. apply option_eq. intros s.
    unfold clearExpiredTxn. rewrite Hs'. rewrite range_perm, elem_of_map_to_list, Hs1.
    rewrite app_nil_l. destruct (txn_state (builders b) msgs id) as [s'|]; [|naive_solver].
    case_bool_decide; split; [intros [[= ->] Hc]; specialize (Hc eq_refl); lia|done
      |intros [[= ->] _]; done|intros [= ->]; split; [done|intros; lia]].
Qed.

(** C11 (functional): the buffer handles every transaction on its own, however the
    messages of others are mixed in: the messages outside of transactions come through
    in place; a commit gives out what [Build] makes of the begin message, the bodies
    since then and the commit, all of this transaction, and nothing when there was no
    begin; a roll back gives nothing.  Afterwards exactly the builders of the open
    transactions that expire after [ts] are left, and the size is theirs.  That is when
    every begin, commit and roll back of a transaction can be converted; when one cannot,
    the call panics. *)
Theorem HandleImmutableMessages_spec b msgs ts :
  tb_ok b →
  (forallb converts msgs = true →
   ∃ b', HandleImmutableMessages b msgs ts = Ok (b', txn_outputs (builders b) [] msgs)
    ∧ tb_ok b'
    ∧ ∀ id, builders b' !! id
      = match txn_state (builders b) msgs id with
        | Some s => if bool_decide (ExpiredTimeTick s <= ts) then None else Some s
        | None => None
        end)
  ∧ (forallb converts msgs = false → ∃ w, HandleImmutableMessages b msgs ts = Panic w).
Proof. intros Hb. split; [by apply HandleImmutable_ok|by apply HandleImmutable_panic]. Qed.

(** What comes out for a message has its time tick. *)
Lemma outputs_of_tick bs before m x : x ∈ outputs_of bs before m → TimeTick x = TimeTick m.
Proof.
  unfold outputs_of, txn_output. destruct (TxnContext m) as [id|].
  - destruct (msg_Type m), (txn_state bs before id) as [s|]; try (intros Hx; by apply not_elem_of_nil in Hx).
    destruct (tb_Build s m) eqn:Hbuild; [|intros Hx; by apply not_elem_of_nil in Hx..].
    intros ->%list_elem_of_singleton. by eapply Build_tick_law.
  - by intros ->%list_elem_of_singleton.
Qed.

Lemma txn_outputs_tick bs before l x :
  x ∈ txn_outputs bs before l → ∃ m, m ∈ l ∧ TimeTick x = TimeTick m.
Proof.
  revert before. induction l as [|m l IH]; intros before; cbn [txn_outputs].
  - intros Hx. by apply not_elem_of_nil in Hx.
  - intros [Hx|Hx]%elem_of_app.
    + exists m. split; [left|by eapply outputs_of_tick].
    + destruct (IH _ Hx) as (m' & ? & ?). exists m'. split; [by right|done].
Qed.

Lemma outputs_of_length bs before m : (length (outputs_of bs before m) ≤ 1)%nat.
Proof.
  unfold outputs_of, txn_output. destruct (TxnContext m) as [id|]; [|done].
  destruct (msg_Type m), (txn_state bs before id) as [s|]; simpl; try lia.
  destruct (tb_Build s m); simpl; lia.
Qed.

(** The order of time ticks is kept. *)
Lemma txn_outputs_sorted bs before l :
  StronglySorted tick_le l → StronglySorted tick_le (txn_outputs bs before l).
Proof.
  intros Hl. revert before. induction Hl as [|m l _ IH Hm]; intros before; cbn [txn_outputs]; [constructor|].
  pose proof (outputs_of_length bs before m) as Hlen.
  destruct (outputs_of bs before m) as [|x [|y ys]] eqn:E; simpl in Hlen; [apply IH| |lia].
  cbn [app]. constructor; [apply IH|]. apply list.Forall_forall. intros z Hz.
  destruct (txn_outputs_tick _ _ _ _ Hz) as (m' & Hm' & Ht). unfold tick_le. rewrite Ht.
  rewrite (outputs_of_tick bs before m x) by (rewrite E; left).
  by eapply list.Forall_forall in Hm.
Qed.
End txn_properties.

(** ** Concrete containers *)
#[export] Instance list_queue : MultipartQueue (list ImmutableMessage) := {
  NewMultipartQueue := [];
  mq_Len := zlen;
  mq_Add q l := q ++ l;
  mq_AddOne q m := q ++ [m];
  mq_Next := head;
  mq_UnsafeAdvance := tail;
}.
#[export] Instance list_queue_laws : MultipartQueueLaws (list ImmutableMessage).
Proof. refine {| mq_list q := q |}; try done. by intros q m l ->. Defined.

#[export] Instance gset_set : StringSet (gset string) := {
  NewSet := ∅;
  set_Contain s x := bool_decide (x ∈ s);
  set_Insert s x := {[x]} ∪ s;
  set_Remove s x := s ∖ {[x]};
}.
#[export] Instance gset_set_laws : StringSetLaws (gset string).
Proof. by refine {| set_elems s := s |}. Defined.

(** A message of a type converts unless its contents have an empty key. *)
Definition as_type (ty : MessageType) (m : ImmutableMessage) : res ImmutableMessage :=
  if bool_decide (msg_Type m = ty) && bool_decide ("" ∉ map fst (Body m)) then Ok m
  else Err (Errorf "message type not match").

Lemma as_type_same ty m x : as_type ty m = Ok x → x = m.
Proof. unfold as_type. destruct (_ && _); [by intros [= <-]|done]. Qed.

(** A builder that keeps its messages, and expires a hundred ticks after the begin. *)
Definition sample_builder : Type := ImmutableMessage * list ImmutableMessage.
#[export] Instance list_builder : TxnBuilder sample_builder := {
  NewImmutableTxnMessageBuilder m := (m, []);
  tb_Add b m := (b.1, b.2 ++ [m]);
  tb_Build b m := Ok (Msg (MessageID m) (TimeTick m) (EstimateSize m) MessageTypeTxn (TxnContext m)
                        (IsPersisted m) (VChannel m) (concat (map Body b.2)));
  tb_EstimateSize b := EstimateSize b.1 + sum_Z EstimateSize b.2;
  ExpiredTimeTick b := TimeTick b.1 + 100;
  AsImmutableBeginTxnMessageV2 m := as_type MessageTypeBeginTxn m;
  AsImmutableCommitTxnMessageV2 m := as_type MessageTypeCommitTxn m;
  AsImmutableRollbackTxnMessageV2 m := as_type MessageTypeRollbackTxn m;
}.
#[export] Instance list_builder_laws : TxnBuilderLaws sample_builder.
Proof.
  split; try done; try (intros m x; apply as_type_same).
  - intros m. simpl. unfold sum_Z. simpl. lia.
  - intros b m. simpl. rewrite sum_Z_app. unfold sum_Z at 2. simpl. lia.
  - by intros b m x [= <-].
  - by intros b m x [= <-].
Defined.

Definition sample_buffer : ReOrderByTimeTickBuffer immutableMessageHeap (gset string) :=
  NewReOrderBuffer.

Lemma ReOrderBuffer_spec_witness :
  ∃ r', rb_Push sample_buffer (sample_msg "a" 3) = (r', Ok tt) ∧ rb_ok r'.
Proof.
  destruct (ReOrderBuffer_spec sample_buffer) as [Hp _].
  { apply NewReOrderBuffer_ok. }
  specialize (Hp (sample_msg "a" 3)).
  destruct (rb_Push sample_buffer (sample_msg "a" 3)) as [r' e].
  change (bool_decide (TimeTick (sample_msg "a" 3) < lastPopTimeTick sample_buffer)) with false in Hp.
  change (bool_decide (MessageID (sample_msg "a" 3) ∈ map MessageID (rb_msgs sample_buffer)))
    with false in Hp.
  destruct Hp as (-> & Hok & _). exists r'. split; [reflexivity|exact Hok].
Defined.

(** Two transactions mixed, and a message of none. *)
Definition txn_msg (id : string) (tick : Z) (ty : MessageType) (txn : Z) : ImmutableMessage :=
  Msg id tick 10 ty (Some txn) true "" [(id, [])].
Definition sample_txns : list ImmutableMessage :=
  [txn_msg "b1" 1 MessageTypeBeginTxn 1; txn_msg "b2" 2 MessageTypeBeginTxn 2;
   txn_msg "x1" 3 (MessageTypeOther 2) 1; txn_msg "x2" 4 (MessageTypeOther 2) 2;
   sample_msg "p" 5; txn_msg "c1" 6 MessageTypeCommitTxn 1; txn_msg "c9" 7 MessageTypeCommitTxn 9].

Lemma HandleImmutableMessages_spec_witness :
  ∃ b', HandleImmutableMessages (NewTxnBuffer (B:=sample_builder)) sample_txns 8
        = Ok (b', [sample_msg "p" 5; Msg "c1" 6 10 MessageTypeTxn (Some 1) true "" [("x1", [])]])
    ∧ tb_bytes b' = 20
    ∧ ∃ w, HandleImmutableMessages (NewTxnBuffer (B:=sample_builder))
             [txn_msg "" 1 MessageTypeBeginTxn 1] 8 = Panic w.
Proof.
  destruct (HandleImmutableMessages_spec (NewTxnBuffer (B:=sample_builder)) sample_txns 8)
    as [(b' & Hh & Hok & Hs) _]; [reflexivity|vm_compute; reflexivity|].
  exists b'. split; [exact Hh|]. split; cycle 1.
  { apply (HandleImmutableMessages_spec (NewTxnBuffer (B:=sample_builder))
             [txn_msg "" 1 MessageTypeBeginTxn 1] 8); vm_compute; reflexivity. }
  assert (b' = clearExpiredTxn (TB {[2 := (txn_msg "b2" 2 MessageTypeBeginTxn 2,
    [txn_msg "x2" 4 (MessageTypeOther 2) 2])]} 20) 8) as ->; [|vm_compute; reflexivity].
  vm_compute in Hh. injection Hh as <-. vm_compute. reflexivity.
Defined.
