(* ===== verification/WalScanner.v ===== *)
(** * The WAL scanner

    Models the consuming loop of [wal/adaptor/scanner_adaptor.go].  The messages of the log arrive in the order
    of the log; the consuming loop either takes the next one or hands the head of the
    pending queue to the consumer, as the [select] of [ChanMessageHandler.Handle]
    decides.  Cancellation only stops the loop, and is not
    a step here: it is one of [CatchUp], which has the goroutine that reads the log too. *)

From S2P Require Export WalBuffers.

Section scanner.
Context {H S Q B : Type} `{MessageHeap H} `{StringSet S} `{MultipartQueue Q} `{TxnBuilder B}.
Context `{MapOrder}.

(** The function of the message filters, if any, and the [VChannel] of [ReadOption]. *)
Context (filterFunc : option (ImmutableMessage → bool)) (ro_VChannel : string).

Record scannerAdaptorImpl := Scanner {
  reorderBuffer : ReOrderByTimeTickBuffer H S;
  pendingQueue : PendingQueue Q;
  txnBuffer : TxnBuffer B;
}.

Definition newScannerAdaptor : scannerAdaptorImpl :=
  Scanner NewReOrderBuffer NewPendingQueue NewTxnBuffer.

(** The buffer is popped with as much fuel as it has messages. *)
Definition handle_tick (s : scannerAdaptorImpl) (msg : ImmutableMessage)
    : option (res scannerAdaptorImpl) :=
  match PopUtilTimeTick (Datatypes.S (rb_Len (reorderBuffer s))) (reorderBuffer s) (TimeTick msg) with
  | None => None
  | Some (Err e) => Some (Err e)
  | Some (Panic w) => Some (Panic w)
  | Some (Ok (reorder, messages)) =>
      Some (
        '(txn, msgs) ← HandleImmutableMessages (txnBuffer s) messages (TimeTick msg);
        let pending := if bool_decide (0 < zlen msgs) then pq_Add (pendingQueue s) msgs
                       else pendingQueue s in
        let pending := if IsPersisted msg || bool_decide (mq_Len (pq_queue pending) = 0)
                       then pq_Add pending [msg] else pending in
        Ok (Scanner reorder pending txn))
  end.

Definition other_vchannel (msg : ImmutableMessage) : bool :=
  bool_decide (VChannel msg ≠ "") && bool_decide (ro_VChannel ≠ "")
  && bool_decide (ro_VChannel ≠ VChannel msg).

Definition handleUpstream (s : scannerAdaptorImpl) (msg : ImmutableMessage)
    : option (res scannerAdaptorImpl) :=
  if match filterFunc with Some f => negb (f msg) | None => false end then Some (Ok s)
  else if bool_decide (msg_Type msg = MessageTypeTimeTick) then handle_tick s msg
  else if other_vchannel msg then Some (Ok s)
  else Some (Ok (Scanner (rb_Push (reorderBuffer s) msg).1 (pendingQueue s) (txnBuffer s))).

(** The scanner, the messages to come and those handed to the consumer. *)
Record config := Cfg {
  cfg_scanner : scannerAdaptorImpl;
  cfg_upstream : list ImmutableMessage;
  cfg_delivered : list ImmutableMessage;
}.

(** One round of [consumeEventLoop]; no message is taken while more than 16 wait. *)
Inductive step : config → config → Prop :=
  | step_incoming s s' msg up out :
      mq_Len (pq_queue (pendingQueue s)) <= 16 →
      handleUpstream s msg = Some (Ok s') →
      step (Cfg s (msg :: up) out) (Cfg s' up out)
  | step_handled s q msg up out :
      mq_Next (pq_queue (pendingQueue s)) = Some msg →
      pq_UnsafeAdvance (pendingQueue s) = Ok q →
      step (Cfg s up out) (Cfg (Scanner (reorderBuffer s) q (txnBuffer s)) up (out ++ [msg])).

Definition initial (log : list ImmutableMessage) : config := Cfg newScannerAdaptor log [].
End scanner.
Arguments scannerAdaptorImpl : clear implicits.
Arguments config : clear implicits.

(** ** What the consumer gets *)
Section scanner_properties.
Context {H S Q B : Type} `{MessageHeapLaws H} `{StringSetLaws S} `{MultipartQueueLaws Q}.
Context `{TxnBuilderLaws B} `{MapOrder}.
Context (filterFunc : option (ImmutableMessage → bool)) (ro_VChannel : string).
Implicit Types (s : scannerAdaptorImpl H S Q B) (c : config H S Q B) (m : ImmutableMessage).

Definition passes m : bool :=
  match filterFunc with Some f => f m | None => true end.

(** A message outside of transactions that goes to the consumer. *)
Definition plain m : bool :=
  bool_decide (TxnContext m = None) && bool_decide (msg_Type m ≠ MessageTypeTimeTick)
  && bool_decide (msg_Type m ≠ MessageTypeTxn).
Definition wanted m : bool := plain m && passes m && negb (other_vchannel ro_VChannel m).

Definition is_tick m : bool := bool_decide (msg_Type m = MessageTypeTimeTick) && passes m.

(** The last time tick of a log. *)
Definition last_tick (log : list ImmutableMessage) : Z :=
  foldl (λ t m, if is_tick m then TimeTick m else t) 0 log.

(** A log as the streaming service writes it: the identifiers differ, no message is
    below a time tick before it, and [MessageTypeTxn] is not used. *)
Definition well_formed (log : list ImmutableMessage) : Prop :=
  NoDup (map MessageID log) ∧ Forall (λ m, 0 ≤ TimeTick m ∧ msg_Type m ≠ MessageTypeTxn) log
  ∧ ∀ l1 m l2, log = l1 ++ m :: l2 → last_tick l1 ≤ TimeTick m.

(** Everything that is on its way out. *)
Definition pending_list s : list ImmutableMessage := mq_list (pq_queue (pendingQueue s)).
Definition outgoing c : list ImmutableMessage := cfg_delivered c ++ pending_list (cfg_scanner c).

(** After [done_] has been taken from the log: *)
Definition scanner_inv (done_ : list ImmutableMessage) c : Prop :=
  let r := reorderBuffer (cfg_scanner c) in
  rb_ok r ∧ tb_ok (txnBuffer (cfg_scanner c))
  ∧ lastPopTimeTick r = last_tick done_
  ∧ StronglySorted tick_le (outgoing c) ∧ Forall (λ m, TimeTick m ≤ last_tick done_) (outgoing c)
  ∧ Forall (λ m, last_tick done_ ≤ TimeTick m) (rb_msgs r)
  ∧ (∀ m, m ∈ rb_msgs r → m ∈ done_ ∧ msg_Type m ≠ MessageTypeTimeTick)
  ∧ filter (λ m, plain m = true) (outgoing c) ++ filter (λ m, plain m = true) (rb_msgs r)
    ≡ₚ filter (λ m, wanted m = true) done_.

Lemma last_tick_snoc log m :
  last_tick (log ++ [m]) = if is_tick m then TimeTick m else last_tick log.
Proof. unfold last_tick. by rewrite foldl_app. Qed.

(** The messages a commit gives out are not plain; the others come through. *)
Lemma txn_outputs_plain bs before l :
  Forall (λ m, msg_Type m ≠ MessageTypeTxn) l →
  filter (λ m, plain m = true) (txn_outputs (B:=B) bs before l) = filter (λ m, plain m = true) l.
Proof.
  intros Hl. revert before. induction Hl as [|m l Hm _ IH]; intros before; [done|].
  cbn [txn_outputs]. rewrite list.filter_app, IH, filter_cons. unfold outputs_of, txn_output.
  destruct (TxnContext m) as [id|] eqn:Hid.
  - assert (plain m = false) as Hp by (unfold plain; by rewrite Hid). rewrite Hp, decide_False by done.
    destruct (msg_Type m), (txn_state bs before id) as [b|]; try done.
    destruct (tb_Build b m) as [x| |] eqn:Hbuild; try done.
    apply Build_type_law in Hbuild. rewrite filter_cons_False; [done|]. unfold plain.
    rewrite Hbuild. by rewrite !andb_false_r.
  - rewrite filter_cons. by destruct (decide (plain m = true)).
Qed.

Lemma pq_Add_list (q : PendingQueue Q) l :
  mq_list (pq_queue (pq_Add q l)) = mq_list (pq_queue q) ++ l.
Proof. unfold pq_Add. cbn. apply mq_Add_law. Qed.

(** A time tick: what leaves the reorder buffer and what reaches the queue. *)
Lemma handle_tick_ok s m :
  rb_ok (reorderBuffer s) → tb_ok (txnBuffer s) →
  (∃ s' out, handle_tick s m = Some (Ok s')
    ∧ rb_ok (reorderBuffer s') ∧ tb_ok (txnBuffer s') ∧ lastPopTimeTick (reorderBuffer s') = TimeTick m
    ∧ StronglySorted tick_le out ∧ rb_msgs (reorderBuffer s) ≡ₚ out ++ rb_msgs (reorderBuffer s')
    ∧ Forall (λ x, TimeTick x ≤ TimeTick m) out
    ∧ Forall (λ x, TimeTick m < TimeTick x) (rb_msgs (reorderBuffer s'))
    ∧ (pending_list s' = pending_list s ++ txn_outputs (builders (txnBuffer s)) [] out ++ [m]
       ∨ pending_list s' = pending_list s ++ txn_outputs (builders (txnBuffer s)) [] out))
  ∨ ∃ x w, handle_tick s m = Some (Panic w) ∧ x ∈ rb_msgs (reorderBuffer s)
      ∧ TimeTick x ≤ TimeTick m ∧ converts (B:=B) x = false.
Proof.
  intros Hr Ht. unfold handle_tick.
  destruct (PopUtil_ok (Datatypes.S (rb_Len (reorderBuffer s))) (reorderBuffer s) (TimeTick m) Hr)
    as (r' & out & -> & Hr' & Hlast & Hsort & Hp & Hle & Hgt).
  { unfold rb_Len. rewrite mh_Len_law. unfold rb_msgs. lia. }
  destruct (forallb (converts (B:=B)) out) eqn:Hcv; [left|right].
  2: { destruct (HandleImmutable_panic (txnBuffer s) out (TimeTick m) Ht Hcv) as [w ->].
       apply not_true_iff_false in Hcv. rewrite forallb_forall in Hcv.
       destruct (decide (Exists (λ x, converts (B:=B) x = false) out)) as [Hx|Hx].
       - apply list.Exists_exists in Hx as (x & Hx & Hc). exists x, w. split_and!; [done| | |done].
         + rewrite Hp. apply elem_of_app. by left.
         + by eapply list.Forall_forall in Hle.
       - exfalso. apply Hcv. intros x Hin%list_elem_of_In. apply not_false_iff_true. intros Hc.
         apply Hx. apply list.Exists_exists. eauto. }
  destruct (HandleImmutable_ok (txnBuffer s) out (TimeTick m) Ht Hcv) as (t' & -> & Ht' & _).
  cbn [mbind res_bind]. set (outs := txn_outputs _ _ _).
  set (q := if bool_decide (0 < zlen outs) then _ else _).
  assert (mq_list (pq_queue q) = pending_list s ++ outs) as Hq.
  { unfold q, pending_list. case_bool_decide as Hz; [apply pq_Add_list|].
    destruct outs; [by rewrite app_nil_r|]. rewrite zlen_cons in Hz. pose proof (zlen_nonneg outs). lia. }
  eexists _, out. split_and!; [reflexivity|done..|]. unfold pending_list at 1 3. cbn [pendingQueue].
  destruct (IsPersisted m || _); [left; by rewrite pq_Add_list, Hq, <-app_assoc|by right].
Qed.

Lemma sorted_glue T l1 l2 :
  StronglySorted tick_le l1 → StronglySorted tick_le l2 →
  Forall (λ m, TimeTick m ≤ T) l1 → Forall (λ m, T ≤ TimeTick m) l2 →
  StronglySorted tick_le (l1 ++ l2).
Proof.
  intros H1' H2' Hl Hr. apply StronglySorted_app. split_and!; [|done..]. intros x y Hx Hy.
  eapply list.Forall_forall in Hl, Hr; [|done..]. unfold tick_le. lia.
Qed.

Lemma not_wanted_tick m : msg_Type m = MessageTypeTimeTick → plain m = false.
Proof. intros Ht. unfold plain. rewrite Ht. by rewrite andb_false_r. Qed.

(** A time tick that passes the filter. *)
Lemma inv_tick done_ s s' up out m :
  scanner_inv done_ (Cfg s (m :: up) out) → is_tick m = true → last_tick done_ ≤ TimeTick m →
  Forall (λ x, msg_Type x ≠ MessageTypeTxn) done_ →
  handle_tick s m = Some (Ok s') → scanner_inv (done_ ++ [m]) (Cfg s' up out).
Proof.
  intros (Hr & Ht & Hlast & Hsort & Hle & Hge & Hfrom & Hcount) Htick Hm Hty Hh. cbn in *.
  destruct (handle_tick_ok s m Hr Ht)
    as [(s1 & popped & Hh' & Hr' & Ht' & Hlast' & Hps & Hp & Hple & Hpgt & Hpend)
       |(x & w & Hw & _)]; [|by rewrite Hw in Hh].
  assert (s1 = s') as -> by congruence. clear Hh Hh'.
  assert (msg_Type m = MessageTypeTimeTick) as Hmty.
  { unfold is_tick in Htick. by apply andb_true_iff in Htick as [?%bool_decide_eq_true _]. }
  set (outs := txn_outputs _ [] popped) in *. unfold outgoing in *. cbn [cfg_delivered cfg_scanner] in *.
  assert (Forall (λ x, last_tick done_ ≤ TimeTick x) popped) as Hpge.
  { rewrite Hp in Hge. by apply list.Forall_app in Hge as [? _]. }
  assert (∀ x, x ∈ outs → last_tick done_ ≤ TimeTick x ≤ TimeTick m) as Hoi.
  { intros x Hx. destruct (txn_outputs_tick _ _ _ _ Hx) as (y & Hy & ->).
    eapply list.Forall_forall in Hple, Hpge; [|done..]. lia. }
  assert (StronglySorted tick_le ((out ++ pending_list s) ++ outs)
          ∧ Forall (λ x, TimeTick x ≤ TimeTick m) ((out ++ pending_list s) ++ outs)) as [Hs1 Hl1].
  { split.
    - apply (sorted_glue (last_tick done_)); [done|by apply txn_outputs_sorted|done|].
      apply list.Forall_forall. intros x Hx. by apply Hoi.
    - apply list.Forall_app. split; [eapply list.Forall_impl; [exact Hle|]; simpl; lia|].
      apply list.Forall_forall. intros x Hx. by apply Hoi. }
  assert (∀ x, x ∈ popped → x ∈ done_ ∧ msg_Type x ≠ MessageTypeTimeTick) as Hpf.
  { intros x Hx. apply Hfrom. rewrite Hp. apply elem_of_app. by left. }
  assert (filter (λ x, plain x = true) outs = filter (λ x, plain x = true) popped) as Hplain.
  { apply txn_outputs_plain. apply list.Forall_forall. intros x Hx.
    eapply list.Forall_forall in Hty; [done|]. by apply Hpf. }
  assert (filter (λ x, plain x = true) ((out ++ pending_list s) ++ outs)
          ++ filter (λ x, plain x = true) (rb_msgs (reorderBuffer s'))
          ≡ₚ filter (λ x, wanted x = true) (done_ ++ [m])) as Hc1.
  { rewrite (list.filter_app _ done_), (filter_cons_False _ m), filter_nil, app_nil_r
      by (unfold wanted; by rewrite not_wanted_tick).
    rewrite <-Hcount, Hp, !list.filter_app, Hplain. by rewrite <-!app_assoc. }
  unfold scanner_inv, outgoing. cbn [cfg_scanner cfg_delivered]. rewrite last_tick_snoc, Htick.
  assert (∀ x, x ∈ rb_msgs (reorderBuffer s') → x ∈ done_ ++ [m] ∧ msg_Type x ≠ MessageTypeTimeTick) as Hfrom'.
  { intros x Hx. destruct (Hfrom x) as [? ?]; [rewrite Hp; apply elem_of_app; by right|].
    split; [apply elem_of_app; by left|done]. }
  assert (Forall (λ x, TimeTick m ≤ TimeTick x) (rb_msgs (reorderBuffer s'))) as Hge'
    by (eapply list.Forall_impl; [exact Hpgt|]; simpl; lia).
  destruct Hpend as [-> | ->]; rewrite app_assoc; [|by split_and!].
  rewrite (app_assoc (out ++ _)). split_and!; try done.
  - apply (sorted_glue (TimeTick m)); [done|repeat constructor|done|by repeat constructor].
  - apply list.Forall_app. split; [done|]. by repeat constructor.
  - rewrite list.filter_app, (filter_cons_False _ m), filter_nil, app_nil_r; [done|].
    by rewrite not_wanted_tick.
Qed.

(** A message that the filters drop changes nothing. *)
Lemma inv_dropped done_ s up out m :
  scanner_inv done_ (Cfg s (m :: up) out) → is_tick m = false → wanted m = false →
  scanner_inv (done_ ++ [m]) (Cfg s up out).
Proof.
  intros (Hr & Ht & Hlast & Hsort & Hle & Hge & Hfrom & Hcount) Htick Hw.
  unfold scanner_inv. rewrite last_tick_snoc, Htick. split_and!; try done.
  - intros x Hx. destruct (Hfrom x Hx). split; [apply elem_of_app; by left|done].
  - rewrite list.filter_app, (filter_cons_False _ m), filter_nil, app_nil_r by (by rewrite Hw). done.
Qed.

(** A message that goes to the reorder buffer. *)
Lemma inv_push done_ s up out m :
  scanner_inv done_ (Cfg s (m :: up) out) → msg_Type m ≠ MessageTypeTimeTick →
  passes m = true → other_vchannel ro_VChannel m = false →
  last_tick done_ ≤ TimeTick m → MessageID m ∉ map MessageID done_ →
  scanner_inv (done_ ++ [m])
    (Cfg (Scanner (rb_Push (reorderBuffer s) m).1 (pendingQueue s) (txnBuffer s)) up out).
Proof.
  intros (Hr & Ht & Hlast & Hsort & Hle & Hge & Hfrom & Hcount) Hty Hpass Hv Hm Hid.
  cbn [cfg_scanner] in *. pose proof (rb_Push_ok (reorderBuffer s) m Hr) as Hpush.
  destruct (rb_Push (reorderBuffer s) m) as [r' e]. rewrite bool_decide_false in Hpush by lia.
  rewrite bool_decide_false in Hpush.
  2: { intros (x & Hx & Hin)%list_elem_of_fmap. apply Hid. rewrite Hx. apply list_elem_of_fmap.
       exists x. split; [done|]. by apply Hfrom. }
  destruct Hpush as (-> & Hr' & Hp & Hlast'). unfold scanner_inv, outgoing, pending_list in *.
  cbn [cfg_scanner cfg_delivered reorderBuffer pendingQueue txnBuffer fst] in *.
  rewrite last_tick_snoc. assert (is_tick m = false) as -> by (unfold is_tick; by rewrite bool_decide_false).
  split_and!; try done; [congruence| | |].
  - rewrite Hp. by constructor.
  - intros x. rewrite Hp. intros [->|Hx]%elem_of_cons; [split; [apply elem_of_app; right; left|done]|].
    destruct (Hfrom x Hx). split; [apply elem_of_app; by left|done].
  - assert (wanted m = plain m) as Hw by (unfold wanted; by rewrite Hpass, Hv, !andb_true_r).
    rewrite Hp, (list.filter_app _ done_), <-Hcount, !filter_cons, Hw, filter_nil.
    destruct (decide (plain m = true)); [|by rewrite app_nil_r].
    by rewrite <-Permutation_middle, (Permutation_app_comm _ [m]).
Qed.

(** One step takes at most one message of the log. *)
Lemma step_inv log done_ c c' :
  well_formed log → log = done_ ++ cfg_upstream c → scanner_inv done_ c →
  step filterFunc ro_VChannel c c' →
  ∃ done', log = done' ++ cfg_upstream c' ∧ scanner_inv done' c'.
Proof.
  intros (Hid & Hty & Hwf) Hlog Hinv Hstep. destruct Hstep as [s s' m up out _ Hh|s q m up out Hn Hq].
  - cbn [cfg_upstream] in *. exists (done_ ++ [m]). split; [by rewrite <-app_assoc|].
    pose proof (Hwf done_ m up Hlog) as Hm. rewrite Hlog, map_app in Hid. cbn [map] in Hid.
    apply list.NoDup_app in Hid as (_ & Hid & _). rewrite Hlog in Hty.
    apply list.Forall_app in Hty as [Hty Hty2]. apply list.Forall_cons in Hty2 as [[_ Hmty] _].
    assert (MessageID m ∉ map MessageID done_) as Hnin by (intros Hc; apply (Hid _ Hc); left).
    unfold handleUpstream in Hh. fold (passes m) in Hh.
    assert ((match filterFunc with Some f => negb (f m) | None => false end) = negb (passes m)) as Hf
      by (unfold passes; by destruct filterFunc).
    rewrite Hf in Hh. destruct (passes m) eqn:Hpass; cbn [negb] in Hh.
    + case_bool_decide as Htick.
      * apply (inv_tick done_ s); [done| |done| |done].
        -- unfold is_tick. by rewrite bool_decide_true, Hpass.
        -- eapply list.Forall_impl; [exact Hty|]. by intros x [_ ?].
      * destruct (other_vchannel ro_VChannel m) eqn:Hv; injection Hh as <-.
        -- apply (inv_dropped done_); [done| |].
           ++ unfold is_tick. by rewrite bool_decide_false.
           ++ unfold wanted. by rewrite Hv, andb_false_r.
        -- by apply inv_push.
    + injection Hh as <-. apply (inv_dropped done_); [done| |].
      * unfold is_tick. by rewrite Hpass, andb_false_r.
      * unfold wanted. by rewrite Hpass, andb_false_r.
  - exists done_. split; [done|]. destruct Hinv as (Hr & Ht & Hlast & Hsort & Hle & Hge & Hfrom & Hcount).
    rewrite mq_Next_law in Hn. destruct (mq_list (pq_queue (pendingQueue s))) as [|x l] eqn:E; [done|].
    injection Hn as ->. unfold pq_UnsafeAdvance in Hq. rewrite mq_Next_law, E in Hq. injection Hq as <-.
    assert (outgoing (Cfg (Scanner (reorderBuffer s)
        (PQ (mq_UnsafeAdvance (pq_queue (pendingQueue s))) (int64 (pq_bytes (pendingQueue s) - EstimateSize m)))
        (txnBuffer s)) up (out ++ [m])) = outgoing (Cfg s up out)) as Hout.
    { unfold outgoing, pending_list. cbn [cfg_delivered cfg_scanner pendingQueue pq_queue].
      rewrite E, (mq_Advance_law _ m l E). by rewrite <-app_assoc. }
    unfold scanner_inv. rewrite Hout. by split_and!.
Qed.

Definition reachable (log : list ImmutableMessage) c : Prop :=
  rtc (step filterFunc ro_VChannel) (initial log) c.

Lemma initial_inv log : scanner_inv [] (initial log).
Proof.
  unfold scanner_inv, initial, outgoing, pending_list, newScannerAdaptor, NewPendingQueue.
  cbn [cfg_scanner cfg_delivered reorderBuffer pendingQueue txnBuffer pq_queue].
  destruct (NewReOrderBuffer_ok (H:=H) (S:=S)) as [Hok Hnil]. rewrite Hnil, mq_New_law.
  split_and!; try done; [constructor..|]. intros m Hm. by apply not_elem_of_nil in Hm.
Qed.

Lemma reachable_inv log c :
  well_formed log → reachable log c →
  ∃ done_, log = done_ ++ cfg_upstream c ∧ scanner_inv done_ c.
Proof.
  intros Hwf Hr. unfold reachable in Hr.
  assert (∃ done_, log = done_ ++ cfg_upstream (initial (H:=H) (S:=S) (Q:=Q) (B:=B) log)
            ∧ scanner_inv done_ (initial log)) as Hi by (exists []; split; [done|apply initial_inv]).
  revert Hi. induction Hr as [c|c1 c2 c3 Hs _ IH]; intros (done_ & Hl & Hi); [by exists done_|].
  apply IH. by apply (step_inv log done_ c1 c2).
Qed.

(** C3 (safety): at any point of any run over a well-formed log, what the consumer has
    and what waits for it is in order of time ticks and not beyond the last time tick
    taken; and it has every message outside of transactions that passed the filters,
    exactly once, but for those still held, none of which is below that time tick. *)
Theorem scanner_safety log c :
  well_formed log → reachable log c →
  ∃ done_ held, log = done_ ++ cfg_upstream c
    ∧ StronglySorted tick_le (outgoing c)
    ∧ Forall (λ m, TimeTick m ≤ last_tick done_) (outgoing c)
    ∧ filter (λ m, plain m = true) (outgoing c) ++ held ≡ₚ filter (λ m, wanted m = true) done_
    ∧ Forall (λ m, last_tick done_ ≤ TimeTick m) held.
Proof.
  intros Hwf Hr. destruct (reachable_inv log c Hwf Hr) as (done_ & Hl & Hi).
  destruct Hi as (_ & _ & _ & Hsort & Hle & Hge & _ & Hcount).
  exists done_, (filter (λ m, plain m = true) (rb_msgs (reorderBuffer (cfg_scanner c)))).
  split_and!; try done. apply list.Forall_forall. intros x [_ Hx]%list_elem_of_filter.
  by eapply list.Forall_forall in Hge.
Qed.

(** ** The run ends *)
Definition live (log : list ImmutableMessage) s : Prop :=
  rb_ok (reorderBuffer s) ∧ tb_ok (txnBuffer s) ∧ ∀ x, x ∈ rb_msgs (reorderBuffer s) → x ∈ log.

(** A time tick that releases a message whose conversion fails. *)
Definition tick_panics (log : list ImmutableMessage) s m : Prop :=
  (∃ x, x ∈ log ∧ x ∈ rb_msgs (reorderBuffer s) ∧ TimeTick x ≤ TimeTick m
     ∧ converts (B:=B) x = false)
  ∧ ∃ w, handleUpstream filterFunc ro_VChannel s m = Some (Panic w).

(** A message not yet taken may pass through both buffers; one in the reorder buffer
    has the queue before it. *)
Definition work c : nat :=
  3 * length (cfg_upstream c) + 2 * length (rb_msgs (reorderBuffer (cfg_scanner c)))
  + length (pending_list (cfg_scanner c)).

Lemma txn_outputs_length bs before l : (length (txn_outputs (B:=B) bs before l) ≤ length l)%nat.
Proof.
  revert before. induction l as [|m l IH]; intros before; [done|]. cbn [txn_outputs length].
  rewrite length_app. pose proof (outputs_of_length bs before m). specialize (IH (before ++ [m])). lia.
Qed.

(** Taking a message succeeds but for such a time tick, and is less work than was there. *)
Lemma handleUpstream_ok log s m :
  live log s → m ∈ log →
  (∃ s', handleUpstream filterFunc ro_VChannel s m = Some (Ok s') ∧ live log s'
    ∧ (2 * length (rb_msgs (reorderBuffer s')) + length (pending_list s')
       ≤ 2 * length (rb_msgs (reorderBuffer s)) + length (pending_list s) + 2)%nat)
  ∨ tick_panics log s m.
Proof.
  intros (Hr & Ht & Hin) Hm. unfold tick_panics, handleUpstream.
  destruct (match filterFunc with Some f => negb (f m) | None => false end).
  { left. exists s. split_and!; [done..|lia]. }
  case_bool_decide.
  - destruct (handle_tick_ok s m Hr Ht)
      as [(s' & popped & Hh & Hr' & Ht' & _ & _ & Hp & _ & _ & Hpend)|(x & w & Hw & Hx & Hle & Hc)].
    2: { right. split; [|by exists w]. exists x. split_and!; auto. }
    left. exists s'. split_and!; [done..| |].
    { split_and!; [done..|]. intros x Hx. apply Hin. rewrite Hp. apply elem_of_app. by right. }
    apply Permutation_length in Hp. rewrite length_app in Hp.
    pose proof (txn_outputs_length (builders (txnBuffer s)) [] popped).
    destruct Hpend as [-> | ->]; rewrite !length_app; simpl; lia.
  - left. destruct (other_vchannel ro_VChannel m); [exists s; split_and!; [done..|lia]|].
    eexists. split; [done|]. unfold live, pending_list. cbn [reorderBuffer pendingQueue txnBuffer].
    pose proof (rb_Push_ok (reorderBuffer s) m Hr) as Hpush.
    destruct (rb_Push (reorderBuffer s) m) as [r' e]. cbn [fst].
    repeat case_bool_decide.
    + destruct Hpush as [-> _]. split_and!; [done..|lia].
    + destruct Hpush as [-> _]. split_and!; [done..|lia].
    + destruct Hpush as (_ & Hr' & Hp & _). split_and!; [done..| |].
      * intros x. rewrite Hp. intros [->|Hx]%elem_of_cons; auto.
      * apply Permutation_length in Hp. simpl in Hp. lia.
Qed.

Definition running (log : list ImmutableMessage) c : Prop :=
  live log (cfg_scanner c) ∧ ∀ m, m ∈ cfg_upstream c → m ∈ log.

Lemma step_work log c c' :
  running log c → step filterFunc ro_VChannel c c' → running log c' ∧ (work c' < work c)%nat.
Proof.
  intros [Hlive Hup] Hstep. unfold work, running.
  destruct Hstep as [s s' m up out _ Hh|s q m up out Hn Hq]; cbn in *.
  - destruct (handleUpstream_ok log s m Hlive) as [(s1 & Hh' & Hlive' & Hw)|[_ [w Hw]]];
      [apply Hup; left| |by rewrite Hw in Hh].
    assert (s1 = s') as -> by congruence. split; [|lia]. split; [done|]. intros x Hx. apply Hup. by right.
  - split; [done|]. rewrite mq_Next_law in Hn. unfold pq_UnsafeAdvance in Hq. rewrite mq_Next_law in Hq.
    unfold pending_list. cbn [pendingQueue pq_queue].
    destruct (mq_list (pq_queue (pendingQueue s))) as [|x l] eqn:E; [done|].
    injection Hn as ->. cbn [head] in Hq. injection Hq as <-. cbn [pq_queue].
    rewrite (mq_Advance_law _ m l E). simpl. lia.
Qed.

Lemma nsteps_work log n c c' :
  running log c → nsteps (step filterFunc ro_VChannel) n c c' →
  running log c' ∧ (n + work c' ≤ work c)%nat.
Proof.
  intros Hlive Hn. induction Hn as [c|n c1 c2 c3 Hs _ IH]; [split; [done|lia]|].
  destruct (step_work log c1 c2 Hlive Hs) as [Hl2 Hw]. destruct (IH Hl2). split; [done|lia].
Qed.

(** C4 (liveness): over any log, well-formed or not, no run of the scanner has more than
    three steps per message of the log.  The next message of the log is always taken
    without a panic, but for a time tick that releases a held message of a transaction
    whose conversion fails: this one panics.  And the scanner is never stuck: a step is
    possible until the log is read and the queue is empty, or until the queue is empty
    and such a time tick is next. *)
Theorem scanner_liveness log n c :
  nsteps (step filterFunc ro_VChannel) n (initial log) c →
  (n ≤ 3 * length log)%nat
  ∧ (∀ m up, cfg_upstream c = m :: up →
       (∃ s', handleUpstream filterFunc ro_VChannel (cfg_scanner c) m = Some (Ok s'))
       ∨ tick_panics log (cfg_scanner c) m)
  ∧ ((∃ c', step filterFunc ro_VChannel c c')
     ∨ pending_list (cfg_scanner c) = []
       ∧ (cfg_upstream c = [] ∨ ∃ m up, cfg_upstream c = m :: up ∧ tick_panics log (cfg_scanner c) m)).
Proof.
  intros Hn. destruct (NewReOrderBuffer_ok (H:=H) (S:=S)) as [Hok Hnil].
  destruct (nsteps_work log n (initial log) c) as [[Hlive Hup] Hw]; [|done|].
  { split; [|done]. split_and!; [done..|]. cbn. rewrite Hnil. intros x Hx. by apply not_elem_of_nil in Hx. }
  assert (∀ m up, cfg_upstream c = m :: up →
       (∃ s', handleUpstream filterFunc ro_VChannel (cfg_scanner c) m = Some (Ok s'))
       ∨ tick_panics log (cfg_scanner c) m) as Hnext.
  { intros m up Hm. destruct (handleUpstream_ok log (cfg_scanner c) m Hlive) as [(s' & ? & _)|];
      [apply Hup; rewrite Hm; left|left; by exists s'|by right]. }
  split; [|split; [exact Hnext|]].
  - unfold work, initial, pending_list, newScannerAdaptor, NewPendingQueue in Hw.
    cbn [cfg_upstream cfg_scanner reorderBuffer pendingQueue pq_queue] in Hw.
    rewrite Hnil, mq_New_law in Hw. simpl in Hw. lia.
  - destruct c as [s up out]. cbn in *. destruct (pending_list s) as [|x l] eqn:E.
    + destruct up as [|m up]; [right; split; [done|by left]|].
      destruct (Hnext m up eq_refl) as [[s' Hh]|Hp]; [left|right; split; [done|right; by exists m, up]].
      eexists. apply step_incoming; [|exact Hh].
      rewrite mq_Len_law. unfold pending_list in E. rewrite E. done.
    + left. unfold pending_list in E. eexists. eapply step_handled.
      * rewrite mq_Next_law, E. done.
      * unfold pq_UnsafeAdvance. by rewrite mq_Next_law, E.
Qed.
End scanner_properties.

(** ** A run over a log with messages out of order *)
Abbreviation sample_config :=
  (config immutableMessageHeap (gset string) (list ImmutableMessage) sample_builder).
Abbreviation sample_step :=
  (step (H:=immutableMessageHeap) (S:=gset string) (Q:=list ImmutableMessage) (B:=sample_builder) None "").

Definition sample_log : list ImmutableMessage :=
  [sample_msg "b" 2; sample_msg "a" 1; Msg "t" 3 10 MessageTypeTimeTick None false "" []].

Lemma sample_log_well_formed : well_formed None sample_log.
Proof.
  split_and!.
  - apply (bool_decide_unpack _). vm_compute. exact I.
  - repeat constructor; simpl; discriminate.
  - intros l1 m l2 Hl. destruct l1 as [|x1 [|x2 [|x3 l1]]]; [injection Hl as <- _; discriminate
      |injection Hl as <- <- _; discriminate|injection Hl as <- <- <- _; discriminate|].
    injection Hl as <- <- <- Hl. by destruct l1.
Qed.

(** The configuration after taking a message. *)
Definition take_msg (c : sample_config) : sample_config :=
  match cfg_upstream c with
  | [] => c
  | m :: up =>
      match handleUpstream None "" (cfg_scanner c) m with
      | Some (Ok s) => Cfg s up (cfg_delivered c)
      | _ => c
      end
  end.

Definition sample_run (n : nat) : sample_config := Nat.iter n take_msg (initial sample_log).

Lemma sample_nsteps : nsteps sample_step 3 (initial sample_log) (sample_run 3).
Proof.
  apply (nsteps_l _ 2 _ (sample_run 1)); [|apply (nsteps_l _ 1 _ (sample_run 2));
    [|apply (nsteps_l _ 0 _ (sample_run 3)); [|apply nsteps_O]]];
    (apply step_incoming; [vm_compute; discriminate|vm_compute; reflexivity]).
Qed.

Lemma scanner_safety_witness :
  pending_list (cfg_scanner (sample_run 3))
  = [sample_msg "a" 1; sample_msg "b" 2]
    ∧ StronglySorted tick_le (outgoing (sample_run 3)).
Proof.
  split; [vm_compute; reflexivity|].
  destruct (scanner_safety None "" sample_log (sample_run 3)) as (done_ & held & _ & Hs & _).
  - exact sample_log_well_formed.
  - unfold reachable. apply rtc_nsteps. exists 3%nat. exact sample_nsteps.
  - exact Hs.
Defined.

Lemma scanner_liveness_witness : ∃ c', sample_step (sample_run 3) c'.
Proof.
  destruct (scanner_liveness None "" sample_log 3 (sample_run 3) sample_nsteps)
    as (_ & _ & [Hs|[Hn _]]).
  - exact Hs.
  - vm_compute in Hn. discriminate Hn.
Defined.
