(* ===== verification/CatchUp.v ===== *)
(** * The goroutines of the WAL scanner

    Models [wal/adaptor/scanner_switchable.go], the catch-up scanner that reads the log, and
    how [execute] of [wal/adaptor/scanner_adaptor.go] runs it beside the consuming loop: two
    goroutines, the unbuffered channel between them and the context that stops both.  The run
    of [WalScanner] is what the two do together. *)

From S2P Require Export WalScanner.

(** ** [createReaderWithBackoff]: the outcomes of the attempts to open the log, each with
    whether the context is done after it and whether it ends the wait.  [None]: the attempts
    given are used up. *)
Fixpoint createReaderWithBackoff {R} (attempts : list (res R * bool * bool)) : option (res R) :=
  match attempts with
  | [] => None
  | (Ok innerScanner, _, _) :: _ => Some (Ok innerScanner)
  | (_, closing, stopped) :: attempts =>
      if closing : bool then Some (Err Canceled)
      else if stopped : bool then Some (Err Canceled)
      else createReaderWithBackoff attempts
  end.

(** ** [ChanMessageHandler.Handle]: the cases of its [select] *)
Inductive HandleResult :=
  | HandleError (e : goerr)
  | Incoming (msg : ImmutableMessage)
  | MessageHandled.
Inductive Handle (cancelled : bool) (upstream message : option ImmutableMessage) : HandleResult → Prop :=
  | select_done : cancelled = true → Handle cancelled upstream message (HandleError Canceled)
  | select_upstream msg : upstream = Some msg → Handle cancelled upstream message (Incoming msg)
  | select_send msg : message = Some msg → Handle cancelled upstream message MessageHandled.

(** ** The producing goroutine: before the log is open, reading, holding a message that it
    wants to send, or at its end, with the error of the inner scanner.  The messages are
    those of the log that are not handed on. *)
Inductive producer :=
  | Creating (log : list ImmutableMessage)
  | Consuming (rest : list ImmutableMessage)
  | Sending (msg : ImmutableMessage) (rest : list ImmutableMessage)
  | Returned (e : option goerr) (rest : list ImmutableMessage).

(** What the channel offers, and the producer once it is taken. *)
Definition offered (p : producer) : option ImmutableMessage :=
  match p with Sending msg _ => Some msg | _ => None end.
Definition taken (p : producer) : producer :=
  match p with Sending _ rest => Consuming rest | _ => p end.
Definition unread (p : producer) : list ImmutableMessage :=
  match p with
  | Creating log => log
  | Consuming rest => rest
  | Sending msg rest => msg :: rest
  | Returned _ rest => rest
  end.

(** One step of [catchupScanner.Do] by itself.  The log is opened when the attempts end in a
    reader; the channel of the inner scanner may close at any time. *)
Inductive produce (cancelled : bool) : producer → producer → Prop :=
  | do_cancelled log : cancelled = true → produce cancelled (Creating log) (Returned (Some Canceled) log)
  | create_reader log attempts :
      createReaderWithBackoff attempts = Some (Ok tt) → produce cancelled (Creating log) (Consuming log)
  | create_failed log attempts e :
      createReaderWithBackoff (R:=unit) attempts = Some (Err e) → cancelled = true →
      produce cancelled (Creating log) (Returned (Some e) log)
  | receive msg rest : produce cancelled (Consuming (msg :: rest)) (Sending msg rest)
  | inner_closed e rest : produce cancelled (Consuming rest) (Returned e rest)
  | consume_cancelled rest : cancelled = true → produce cancelled (Consuming rest) (Returned (Some Canceled) rest)
  | send_cancelled msg rest :
      cancelled = true → produce cancelled (Sending msg rest) (Returned (Some Canceled) (msg :: rest)).

(** [execute]: the consuming loop runs, has ended and waits for the other goroutine, or the
    scanner is finished and its channel closed. *)
Inductive phase := Running | Waiting (e : goerr) | Finished.

Section system.
Context {H S Q B : Type} `{MessageHeap H} `{StringSet S} `{MultipartQueue Q} `{TxnBuilder B}.
Context `{MapOrder}.
Context (filterFunc : option (ImmutableMessage → bool)) (ro_VChannel : string).

Record system := Sys {
  sys_cancelled : bool;
  sys_producer : producer;
  sys_scanner : scannerAdaptorImpl H S Q B;
  sys_delivered : list ImmutableMessage;
  sys_phase : phase;
}.

Definition upstream_of (s : system) : option ImmutableMessage :=
  if bool_decide (16 < mq_Len (pq_queue (pendingQueue (sys_scanner s)))) then None else offered (sys_producer s).
Definition next_of (s : system) : option ImmutableMessage := mq_Next (pq_queue (pendingQueue (sys_scanner s))).

Inductive sys_step : system → system → Prop :=
  | close c p s out ph : sys_step (Sys c p s out ph) (Sys true p s out ph)
  | producing c p p' s out ph : produce c p p' → sys_step (Sys c p s out ph) (Sys c p' s out ph)
  | consume_incoming c p s s' out msg :
      Handle c (upstream_of (Sys c p s out Running)) (next_of (Sys c p s out Running)) (Incoming msg) →
      handleUpstream filterFunc ro_VChannel s msg = Some (Ok s') →
      sys_step (Sys c p s out Running) (Sys c (taken p) s' out Running)
  | consume_handled c p s q out msg :
      Handle c (upstream_of (Sys c p s out Running)) (next_of (Sys c p s out Running)) MessageHandled →
      next_of (Sys c p s out Running) = Some msg →
      pq_UnsafeAdvance (pendingQueue s) = Ok q →
      sys_step (Sys c p s out Running) (Sys c p (Scanner (reorderBuffer s) q (txnBuffer s)) (out ++ [msg]) Running)
  | consume_stopped c p s out e :
      Handle c (upstream_of (Sys c p s out Running)) (next_of (Sys c p s out Running)) (HandleError e) →
      sys_step (Sys c p s out Running) (Sys c p s out (Waiting e))
  | finish c e rest s out e' :
      sys_step (Sys c (Returned e rest) s out (Waiting e')) (Sys c (Returned e rest) s out Finished).

(** A scanner that was just made; the log is what reading from its position gives. *)
Definition started (log : list ImmutableMessage) : system := Sys false (Creating log) newScannerAdaptor [] Running.
Definition sys_reachable (log : list ImmutableMessage) : system → Prop := rtc sys_step (started log).

(** The run of the scanner that a system stands for. *)
Definition run_of (s : system) : config H S Q B := Cfg (sys_scanner s) (unread (sys_producer s)) (sys_delivered s).
End system.
Arguments system : clear implicits.

(** ** Properties *)
Lemma createReaderWithBackoff_Ok {R} (attempts : list (res R * bool * bool)) (r : res R) :
  createReaderWithBackoff attempts = Some r →
  match r with
  | Ok x => ∃ failed c s later, attempts = failed ++ (Ok x, c, s) :: later
              ∧ Forall (λ a, a.1.2 = false ∧ a.2 = false ∧ ∀ y, a.1.1 ≠ Ok y) failed
  | Err e => e = Canceled
  | Panic _ => False
  end.
Proof.
  induction attempts as [|[[o c] s] attempts IH]; [done|]. cbn [createReaderWithBackoff].
  destruct o as [x|e|w].
  - intros [= <-]. by exists [], c, s, attempts.
  - destruct c; [by intros [= <-]|]. destruct s; [by intros [= <-]|]. intros Hr. specialize (IH Hr).
    destruct r; [|done|done]. destruct IH as (f & c & s & later & -> & Hf).
    exists ((Err e, false, false) :: f), c, s, later. split; [done|]. by constructor.
  - destruct c; [by intros [= <-]|]. destruct s; [by intros [= <-]|]. intros Hr. specialize (IH Hr).
    destruct r; [|done|done]. destruct IH as (f & c & s & later & -> & Hf).
    exists ((Panic w, false, false) :: f), c, s, later. split; [done|]. by constructor.
Qed.

Section system_properties.
Context {H S Q B : Type} `{MessageHeapLaws H} `{StringSetLaws S} `{MultipartQueueLaws Q} `{TxnBuilderLaws B}.
Context `{MapOrder}.
Context (filterFunc : option (ImmutableMessage → bool)) (ro_VChannel : string).
Implicit Types (s : system H S Q B) (log : list ImmutableMessage).

Lemma sys_step_run s s' :
  sys_step filterFunc ro_VChannel s s' →
  run_of s' = run_of s ∨ step filterFunc ro_VChannel (run_of s) (run_of s').
Proof.
  destruct 1 as [c p s out ph|c p p' s out ph Hp|c p s s' out msg Hh Hu|c p s q out msg Hh Hn Hq|c p s out e Hh|c e rest s out e'];
    unfold run_of; cbn [sys_scanner sys_producer sys_delivered]; try (by left).
  - left. assert (unread p' = unread p) as -> by (by destruct Hp). done.
  - inversion Hh as [|m Hm|]; subst. unfold upstream_of in Hm. cbn [sys_scanner sys_producer] in Hm.
    case_bool_decide as Hl; [done|]. destruct p as [l|l|m rest|e l]; try discriminate. injection Hm as ->.
    right. apply step_incoming; [lia|done].
  - right. by apply (step_handled filterFunc ro_VChannel s q msg).
Qed.

(** C8 (refinement): however the goroutines are scheduled, what they do together is a run of the scanner over
    the log: nothing is lost, doubled or changed in order between them. *)
Theorem scanner_goroutines_refine log s :
  sys_reachable filterFunc ro_VChannel log s → reachable filterFunc ro_VChannel log (run_of s).
Proof.
  unfold sys_reachable, reachable. intros Hr.
  assert (∀ s0, rtc (sys_step filterFunc ro_VChannel) s0 s → rtc (step filterFunc ro_VChannel) (run_of s0) (run_of s)) as Hg.
  { clear Hr. intros s0 Hr. induction Hr as [s0|s0 s1 s2 Hs _ IH]; [done|]. etrans; [|exact IH].
    apply sys_step_run in Hs as [->|Hs]; [done|by apply rtc_once]. }
  exact (Hg (started log) Hr).
Qed.

(** The scanner only ends after its context, that is after [Close]. *)
Definition ends_ok s : Prop := sys_phase s ≠ Running → sys_cancelled s = true.
Lemma sys_step_ends s s' : sys_step filterFunc ro_VChannel s s' → ends_ok s → ends_ok s'.
Proof.
  unfold ends_ok. destruct 1 as [c p s out ph|c p p' s out ph Hp|c p s s' out msg Hh Hu|c p s q out msg Hh Hn Hq|c p s out e Hh|c e rest s out e'];
    cbn [sys_phase sys_cancelled]; try done.
  - intros _ _. by inversion Hh.
  - intros He _. by apply He.
Qed.

Lemma sys_cancelled_kept s s' : sys_step filterFunc ro_VChannel s s' → sys_cancelled s = true → sys_cancelled s' = true.
Proof. by destruct 1. Qed.

(** Once [Close] is called the scanner can finish, from wherever it is. *)
Theorem Close_finishes log s :
  sys_reachable filterFunc ro_VChannel log s →
  (sys_phase s ≠ Running → sys_cancelled s = true)
  ∧ ∃ s', rtc (sys_step filterFunc ro_VChannel) (Sys true (sys_producer s) (sys_scanner s) (sys_delivered s) (sys_phase s)) s'
      ∧ sys_phase s' = Finished ∧ sys_delivered s' = sys_delivered s.
Proof.
  intros Hr. split.
  { assert (ends_ok (started (H:=H) (S:=S) (Q:=Q) (B:=B) log)) as Hi by (by intros ?).
    change (ends_ok s). revert Hi. unfold sys_reachable in Hr. induction Hr as [s|s0 s1 s2 Hs _ IH]; [done|].
    intros Hi. apply IH. by eapply sys_step_ends. }
  destruct s as [c p sc out ph]. cbn [sys_producer sys_scanner sys_delivered sys_phase]. clear Hr.
  assert (∃ e rest, rtc (sys_step filterFunc ro_VChannel) (Sys true p sc out ph) (Sys true (Returned e rest) sc out ph)) as (e & rest & Hp).
  { destruct p as [l|l|m l|e l]; [..|by exists e, l].
    - exists (Some Canceled), l. by apply rtc_once, producing, do_cancelled.
    - exists (Some Canceled), l. by apply rtc_once, producing, consume_cancelled.
    - exists (Some Canceled), (m :: l). by apply rtc_once, producing, send_cancelled. }
  exists (Sys true (Returned e rest) sc out Finished). split; [|done]. etrans; [exact Hp|].
  destruct ph as [|e'|]; [|by apply rtc_once, finish|done].
  eapply rtc_l; [apply consume_stopped, select_done; done|]. apply rtc_once, finish.
Qed.

(** When the inner scanner ends, the catch-up scanner returns and is not started again,
    whatever it logs about a backoff: until [Close] the reader waits without an error, and
    gets nothing but the messages that were pending already. *)
Theorem interrupted_hangs e rest sc out s :
  rtc (sys_step filterFunc ro_VChannel) (Sys false (Returned e rest) sc out Running) s → sys_cancelled s = false →
  sys_phase s = Running ∧ sys_producer s = Returned e rest
  ∧ outgoing (run_of s) = outgoing (run_of (Sys false (Returned e rest) sc out Running)).
Proof.
  intros Hr Hc. remember (Sys false (Returned e rest) sc out Running) as s0 eqn:Hs0.
  assert (sys_cancelled s0 = false ∧ sys_phase s0 = Running ∧ sys_producer s0 = Returned e rest) as Hi by (by rewrite Hs0).
  clear Hs0 sc out. induction Hr as [s0|s0 s1 s2 Hs Hr IH]; [by destruct Hi as (_ & ? & ?)|].
  assert (sys_cancelled s1 = false) as Hc1.
  { destruct (sys_cancelled s1) eqn:E; [|done]. assert (sys_cancelled s2 = true) as Ht; [|congruence].
    clear IH Hs Hc. induction Hr as [|? ? ? Hstep _ IH]; [done|]. apply IH. by eapply sys_cancelled_kept. }
  specialize (IH Hc). destruct Hi as (Hc0 & Hph & Hp).
  assert (sys_phase s1 = Running ∧ sys_producer s1 = Returned e rest ∧ outgoing (run_of s1) = outgoing (run_of s0)) as (Hph1 & Hp1 & Ho).
  { destruct Hs as [c p s out ph|c p p' s out ph Hpr|c p s s' out msg Hh Hu|c p s q out msg Hh Hn Hq|c p s out e0 Hh|c e0 l s out e'];
      cbn [sys_cancelled sys_phase sys_producer] in *; subst; try discriminate.
    - inversion Hpr.
    - inversion Hh as [|m Hm|]; subst. unfold upstream_of in Hm. cbn [sys_scanner sys_producer offered] in Hm.
      by case_bool_decide.
    - split_and!; [done..|]. unfold run_of, outgoing, pending_list.
      cbn [sys_scanner sys_producer sys_delivered cfg_delivered cfg_scanner pendingQueue pq_queue].
      unfold next_of in Hn. cbn [sys_scanner] in Hn. rewrite mq_Next_law in Hn. 
      unfold pq_UnsafeAdvance in Hq. rewrite mq_Next_law in Hq.
      destruct (mq_list (pq_queue (pendingQueue s))) as [|m l] eqn:E; [discriminate|]. injection Hn as ->. injection Hq as <-.
      cbn [pq_queue]. by rewrite (mq_Advance_law _ msg l E), <-(assoc_L (++)).
    - by inversion Hh. }
  destruct IH as (? & ? & Ho2); [done|]. split_and!; [done..|]. by rewrite Ho2.
Qed.
End system_properties.

(** ** Runs over the log of [WalScanner] *)
Abbreviation sample_system := (system immutableMessageHeap (gset string) (list ImmutableMessage) sample_builder).
Abbreviation sample_sys_step :=
  (sys_step (H:=immutableMessageHeap) (S:=gset string) (Q:=list ImmutableMessage) (B:=sample_builder) None "").
Definition holding : sample_system :=
  Sys false (Sending (sample_msg "b" 2) (drop 1 sample_log)) newScannerAdaptor [] Running.

(** The log is opened at the second attempt, and its first message offered. *)
Lemma holding_reached : rtc sample_sys_step (started sample_log) holding.
Proof.
  eapply rtc_l; [apply producing, (create_reader _ _ [(Err (Errorf "no broker"), false, false); (Ok tt, false, false)]); reflexivity|].
  apply rtc_once, producing. exact (receive false (sample_msg "b" 2) (drop 1 sample_log)).
Qed.

Lemma scanner_goroutines_refine_witness : reachable None "" sample_log (run_of holding).
Proof. apply (scanner_goroutines_refine None "" sample_log holding). exact holding_reached. Defined.

Lemma Close_finishes_witness :
  ∃ s', rtc sample_sys_step (Sys true (sys_producer holding) (sys_scanner holding) [] Running) s' ∧ sys_phase s' = Finished.
Proof.
  destruct (Close_finishes None "" sample_log holding holding_reached) as (_ & s' & Hr & Hf & _).
  exists s'. split; [exact Hr|exact Hf].
Defined.

Definition broken : sample_system := Sys false (Returned None []) (cfg_scanner (sample_run 3)) [] Running.
Definition broken_next : sample_system :=
  match pq_UnsafeAdvance (pendingQueue (sys_scanner broken)) with
  | Ok q => Sys false (Returned None []) (Scanner (reorderBuffer (sys_scanner broken)) q (txnBuffer (sys_scanner broken)))
              [sample_msg "a" 1] Running
  | _ => broken
  end.
Lemma interrupted_hangs_witness :
  sys_phase broken_next = Running ∧ outgoing (run_of broken_next) = [sample_msg "a" 1; sample_msg "b" 2].
Proof.
  destruct (interrupted_hangs None "" None [] (cfg_scanner (sample_run 3)) [] broken_next) as (Hp & _ & Ho).
  - apply rtc_once. refine (consume_handled None "" false (Returned None []) (cfg_scanner (sample_run 3)) _ [] (sample_msg "a" 1) _ _ _).
    + apply (select_send _ _ _ (sample_msg "a" 1)). vm_compute. reflexivity.
    + vm_compute. reflexivity.
    + vm_compute. reflexivity.
  - vm_compute. reflexivity.
  - split; [exact Hp|]. rewrite Ho. vm_compute. reflexivity.
Defined.
