(* ===== verification/Compare.v ===== *)
(** * Comparison of physical channels

    Models [states/consumev2_cmp.go] and the choice of the queue's address in
    [states/wal_common.go].  The command reads the messages of several channels, which its
    scanners deliver at their own speed, and compares them one by one.  The scanners'
    channels are streams; which of them have a message at hand when the loop looks is not
    determined, and an argument of the loop. *)

From S2P Require Export GoStrings.

(** ** The address of the queue *)

(** [net.SplitHostPort]: the host and the port around the last colon, without the brackets
    around the host; an error when there is no colon, or more than one outside of them. *)
Definition find_char (c : ascii) (s : list ascii) : option nat := fst <$> list_find (c =.) s.

Definition SplitHostPort (hostport : string) : res (string * string) :=
  let l := String.list_ascii_of_string hostport in
  let str := String.string_of_list_ascii in
  match find_char ":" (rev l) with
  | None => Err (Errorf "missing port in address")
  | Some k =>
      let i := (length l - 1 - k)%nat in
      let port := drop (S i) l in
      if bool_decide (head l = Some "["%char) then
        match find_char "]" l with
        | None => Err (Errorf "missing ']' in address")
        | Some e =>
            if bool_decide (S e = length l) then Err (Errorf "missing port in address")
            else if bool_decide (S e = i) then
              let host := take (e - 1) (drop 1 l) in
              if bool_decide ("["%char ∈ drop 1 l) then Err (Errorf "unexpected '[' in address")
              else if bool_decide ("]"%char ∈ drop (S e) l) then
                Err (Errorf "unexpected ']' in address")
              else Ok (str host, str port)
            else if bool_decide (l !! S e = Some ":"%char) then
              Err (Errorf "too many colons in address")
            else Err (Errorf "missing port in address")
        end
      else
        let host := take i l in
        if bool_decide (":"%char ∈ host) then Err (Errorf "too many colons in address")
        else if bool_decide ("["%char ∈ l) then Err (Errorf "unexpected '[' in address")
        else if bool_decide ("]"%char ∈ l) then Err (Errorf "unexpected ']' in address")
        else Ok (str host, str port)
  end.

Inductive WALName := WALNamePulsar | WALNameKafka.
(** The keys [PulsarCfg.Address.Key], [PulsarCfg.Port.Key] and [KafkaCfg.Address.Key]. *)
Inductive ParamKey := PulsarCfg_Address | PulsarCfg_Port | KafkaCfg_Address.

(** The part of [NewWALScanner] before the log is opened: the log's kind, and the values
    saved in the parameter table, by their keys. *)
Definition NewWALScanner (walName mqAddr : string) : res (WALName * list (ParamKey * string)) :=
  let '(mqIP, mqPort) :=
    match SplitHostPort mqAddr with Ok hp => hp | _ => (mqAddr, "") end in
  if bool_decide (walName ∈ ["Pulsar"; "pulsar"]) then
    Ok (WALNamePulsar,
        (if bool_decide (mqIP ≠ "") then [(PulsarCfg_Address, mqIP)] else []) ++
        (if bool_decide (mqPort ≠ "") then [(PulsarCfg_Port, mqPort)] else []))
  else if bool_decide (walName ∈ ["Kafka"; "kafka"]) then
    Ok (WALNameKafka,
        (if bool_decide (mqAddr ≠ "" ∧ mqPort = "") then
           [(KafkaCfg_Address, mqAddr +:+ ":" +:+ FormatInt 9092)] else []) ++
        (if bool_decide (mqAddr ≠ "" ∧ mqPort ≠ "") then [(KafkaCfg_Address, mqAddr)] else []))
  else if bool_decide (walName ∈ ["RocksMQ"; "rocksmq"]) then
    Err (Errorf "rocksmq is not supported yet")
  else if bool_decide (walName ∈ ["WoodPecker"; "woodpecker"]) then
    Err (Errorf "woodpecker is not supported yet")
  else Err (Errorf "invalid wal name").

(** ** Messages

    [message.ImmutableMessage]: what the comparison asks of a message; the replicate header
    has the identifier and the time tick of the message in the cluster it comes from. *)
Record CmpMessage := MkCmpMessage {
  cm_MessageType : Z;
  cm_MessageID : string;
  cm_TimeTick : Z;
  cm_ReplicateHeader : option (string * Z);
}.
#[export] Instance CmpMessage_eq_dec : EqDecision CmpMessage.
Proof. solve_decision. Defined.

Class MessageTypes := {
  IsSelfControlled : Z → bool;
  MessageTypeAlterReplicateConfig : Z;
  MessageType_String : Z → string;
}.

Record Display := MkDisplay {
  dp_Type : string;
  dp_MessageIDs : list string;
  dp_TimeTicks : list string;
  dp_PChannels : list string;
  dp_Counts : list Z;
}.

Definition nil_message {A} : res A := Panic "invalid memory address or nil pointer dereference".

Section compare.
Context `{MT : MessageTypes}.
Implicit Types (names : list string) (m : CmpMessage) (cur : gmap string CmpMessage).

(** ** [compareCurrentMessages] *)
Definition getMessageID m : string :=
  match cm_ReplicateHeader m with Some (id, _) => id | None => cm_MessageID m end.

(** The two messages of a round are the same to the command. *)
Definition same_message (r m : CmpMessage) : bool :=
  if bool_decide (cm_MessageType r = MessageTypeAlterReplicateConfig) then
    bool_decide (cm_MessageType m = MessageTypeAlterReplicateConfig)
  else bool_decide (cm_MessageType r = cm_MessageType m ∧ getMessageID r = getMessageID m).

(** A method of a message that the map does not have panics. *)
Definition current cur (name : string) : res CmpMessage :=
  match cur !! name with Some m => Ok m | None => nil_message end.

Fixpoint compare_others (r : CmpMessage) cur names : res bool :=
  match names with
  | [] => Ok true
  | n :: names =>
      m ← current cur n; if same_message r m then compare_others r cur names else Ok false
  end.

Definition compareCurrentMessages cur names : res bool :=
  n ← go_index names 0; r ← current cur n; compare_others r cur (drop 1 names).

(** ** [displayComparedCurrentMessages] *)
Definition message_info (counters : gmap string Z) cur (n : string) : res (string * string * Z) :=
  m ← current cur n;
  let c := default 0 (counters !! n) in
  Ok match cm_ReplicateHeader m with
     | Some (id, tick) =>
         (cm_MessageID m +:+ "(r:" +:+ id +:+ ")",
          FormatInt (cm_TimeTick m) +:+ "(r:" +:+ FormatInt tick +:+ ")", c)
     | None => (cm_MessageID m, FormatInt (cm_TimeTick m), c)
     end.

Definition displayComparedCurrentMessages cur names (counters : gmap string Z)
    : res (option Display) :=
  match names with
  | n :: _ =>
      match cur !! n with
      | Some m =>
          infos ← mapM (message_info counters cur) names;
          Ok (Some (MkDisplay (MessageType_String (cm_MessageType m)) (map (fst ∘ fst) infos)
                      (map (snd ∘ fst) infos) names (map snd infos)))
      | None => Ok None
      end
  | [] => Ok None
  end.

(** ** [comparePChannelsMessage]

    The maps are keyed by the names of the channels. *)
Record Tracks := MkTracks {
  tk_current : gmap string CmpMessage;
  tk_counters : gmap string Z;
  tk_ready : gmap string bool;
}.

Definition ready (t : Tracks) (n : string) : bool := default false (tk_ready t !! n).

Definition init_tracks names : Tracks :=
  MkTracks ∅ (foldl (λ c n, <[n := 0]> c) ∅ names) (foldl (λ r n, <[n := false]> r) ∅ names).

Definition store_message (t : Tracks) (n : string) m : Tracks :=
  MkTracks (<[n := m]> (tk_current t))
    (<[n := int64 (default 0 (tk_counters t !! n) + 1)]> (tk_counters t))
    (<[n := true]> (tk_ready t)).

(** One look at a channel: [avail] tells whether the [select] finds its next message (or
    its end, after the last one), or takes the default branch.  The result has the rest of
    the stream and whether the default branch was left out. *)
Definition read_channel (n : string) (avail : bool) (s : list CmpMessage) (t : Tracks)
    : list CmpMessage * Tracks * bool :=
  if ready t n then (s, t, true)
  else if avail then
    match s with
    | [] => ([], t, true)
    | m :: s =>
        if IsSelfControlled (cm_MessageType m) then (s, t, true)
        else (s, store_message t n m, true)
    end
  else (s, t, false).

Fixpoint read_pass names (avail : list bool) (ss : list (list CmpMessage)) (t : Tracks)
    : list (list CmpMessage) * Tracks * bool :=
  match names, ss with
  | n :: names, s :: ss =>
      let '(s, t, b) := read_channel n (default false (head avail)) s t in
      let '(ss, t, b') := read_pass names (tail avail) ss t in
      (s :: ss, t, b && b')
  | _, _ => (ss, t, true)
  end.

Definition reset_round names (t : Tracks) : Tracks :=
  foldl (λ t n, MkTracks (delete n (tk_current t)) (tk_counters t) (<[n := false]> (tk_ready t)))
    t names.

Definition inconsistent {A} : res A :=
  Err (Errorf "message inconsistency detected between pchannels").

(** The body of the loop, without the cancellation: the streams, the maps and the lines
    displayed so far. *)
Definition CmpState : Type := list (list CmpMessage) * Tracks * list Display.

Definition compare_round names (avail : list bool) (st : CmpState) : res CmpState :=
  let '(ss, t, out) := st in
  let '(ss, t, allReady) := read_pass names avail ss t in
  if allReady && forallb (ready t) names then
    same ← compareCurrentMessages (tk_current t) names;
    if same : bool then
      d ← displayComparedCurrentMessages (tk_current t) names (tk_counters t);
      Ok (ss, reset_round names t, out ++ option_list d)
    else inconsistent
  else Ok (ss, t, out).

Definition comparePChannelsMessage names (ss : list (list CmpMessage))
    (schedule : list (list bool)) : res CmpState :=
  foldM (compare_round names) schedule (ss, init_tracks names, []).

(** [CmpPChannelsCommand]: [open] makes the scanner of a channel with its address. *)
Definition CmpPChannelsCommand (open : string → string → res (list CmpMessage))
    (PChannels MQAddrs : list string) (schedule : list (list bool)) : res CmpState :=
  if bool_decide (zlen PChannels < 2) then
    Err (Errorf "at least 2 pchannels are required for comparison")
  else
    ss ← mapM (λ '(i, n), open n (default "" (MQAddrs !! i))) (imap pair PChannels);
    comparePChannelsMessage PChannels ss schedule.

(** ** What a comparison should do

    The messages that count, the [k]-th of each channel, and whether those agree with the
    one of the first channel. *)
Definition real (s : list CmpMessage) : list CmpMessage :=
  filter (λ m, IsSelfControlled (cm_MessageType m) = false) s.
Definition slice (ss : list (list CmpMessage)) (k : nat) : option (list CmpMessage) :=
  mapM (λ s, real s !! k) ss.
Definition agree (ms : list CmpMessage) : bool :=
  match ms with r :: ms => forallb (same_message r) ms | [] => true end.

Definition shown_id m : string :=
  match cm_ReplicateHeader m with
  | Some (id, _) => cm_MessageID m +:+ "(r:" +:+ id +:+ ")" | None => cm_MessageID m end.
Definition shown_tick m : string :=
  match cm_ReplicateHeader m with
  | Some (_, t) => FormatInt (cm_TimeTick m) +:+ "(r:" +:+ FormatInt t +:+ ")"
  | None => FormatInt (cm_TimeTick m) end.
Definition display_of names (k : nat) (ms : list CmpMessage) : Display :=
  MkDisplay (from_option (MessageType_String ∘ cm_MessageType) "" (head ms)) (map shown_id ms)
    (map shown_tick ms) names (map (λ _, int64 (Z.of_nat (S k))) ms).

(** The [k]-th line displayed is that of the [k]-th messages, which agree. *)
Definition round_shown names ss0 (k : nat) (d : Display) : Prop :=
  ∃ ms, slice ss0 k = Some ms ∧ agree ms = true ∧ d = display_of names k ms.
Definition rounds_shown names ss0 (out : list Display) : Prop :=
  ∀ k d, out !! k = Some d → round_shown names ss0 k d.
(** The [k]-th messages are the first that do not agree. *)
Definition first_disagreement ss0 (k : nat) : Prop :=
  (∃ ms, slice ss0 k = Some ms ∧ agree ms = false)
  ∧ ∀ j, (j < k)%nat → ∃ ms, slice ss0 j = Some ms ∧ agree ms = true.

(** *** The comparison of one round *)
Lemma compare_others_agree r cur names ms :
  Forall2 (λ n m, cur !! n = Some m) names ms →
  compare_others r cur names = Ok (forallb (same_message r) ms).
Proof.
  induction 1 as [|n m names ms Hn _ IH]; [done|]. simpl. unfold current. rewrite Hn. simpl.
  by destruct (same_message r m).
Qed.

Lemma compareCurrentMessages_agree cur names ms :
  names ≠ [] → Forall2 (λ n m, cur !! n = Some m) names ms →
  compareCurrentMessages cur names = Ok (agree ms).
Proof.
  intros Hne Hms. destruct Hms as [|n m names ms Hn Hms]; [done|].
  unfold compareCurrentMessages, current, agree; simpl. rewrite Hn; simpl.
  by apply compare_others_agree.
Qed.

Lemma display_current cur counters names ms k :
  names ≠ [] →
  Forall2 (λ n m, cur !! n = Some m ∧ default 0 (counters !! n) = int64 (Z.of_nat (S k))) names ms →
  displayComparedCurrentMessages cur names counters = Ok (Some (display_of names k ms)).
Proof.
  intros Hne Hms.
  assert (mapM (message_info counters cur) names
          = Ok (map (λ m, (shown_id m, shown_tick m, int64 (Z.of_nat (S k)))) ms)) as Hinfo.
  { clear Hne. induction Hms as [|n m names ms [Hn Hc] _ IH]; [done|].
    cbn [mapM map]. rewrite IH. unfold message_info, current. rewrite Hn, Hc. simpl.
    unfold shown_id, shown_tick. by destruct (cm_ReplicateHeader m) as [[]|]. }
  destruct Hms as [|n m names ms [Hn _] _]; [done|].
  unfold displayComparedCurrentMessages. rewrite Hn, Hinfo. simpl.
  unfold display_of. simpl. by rewrite !map_map.
Qed.

(** *** The invariant of a channel

    In round [k] a channel waits for its [k]-th message, or holds it. *)
Definition chan_inv (k : nat) (t : Tracks) (n : string) (s0 s : list CmpMessage) : Prop :=
  if ready t n then
    real s = drop (S k) (real s0)
    ∧ default 0 (tk_counters t !! n) = int64 (Z.of_nat (S k))
    ∧ ∃ m, real s0 !! k = Some m ∧ tk_current t !! n = Some m
  else real s = drop k (real s0) ∧ default 0 (tk_counters t !! n) = int64 (Z.of_nat k).

(** The maps agree at a name. *)
Definition same_at (t t' : Tracks) (n : string) : Prop :=
  tk_current t !! n = tk_current t' !! n ∧ tk_counters t !! n = tk_counters t' !! n
  ∧ tk_ready t !! n = tk_ready t' !! n.

Lemma chan_inv_same k t t' n s0 s :
  same_at t t' n → chan_inv k t n s0 s → chan_inv k t' n s0 s.
Proof. intros (Hc & Hn & Hr). unfold chan_inv, ready. by rewrite Hc, Hn, Hr. Qed.

Lemma read_channel_other n avail s t s' t' b x :
  read_channel n avail s t = (s', t', b) → x ≠ n → same_at t t' x.
Proof.
  unfold read_channel, same_at. intros Hr Hx. repeat case_match; simplify_eq/=; try done.
  by rewrite !lookup_insert_ne by done.
Qed.

Lemma drop_cons_real k (s0 : list CmpMessage) m l :
  m :: l = drop k (real s0) → real s0 !! k = Some m ∧ l = drop (S k) (real s0).
Proof.
  intros Hd. split.
  - rewrite <-(Nat.add_0_r k) at 1. by rewrite <-lookup_drop, <-Hd.
  - rewrite <-Nat.add_1_r, <-drop_drop, <-Hd. done.
Qed.

Lemma int64_succ k : int64 (int64 (Z.of_nat k) + 1) = int64 (Z.of_nat (S k)).
Proof. rewrite wraps_add_l by lia. by rewrite Nat2Z.inj_succ. Qed.

Lemma read_channel_inv k n avail s0 s t s' t' b :
  chan_inv k t n s0 s → read_channel n avail s t = (s', t', b) → chan_inv k t' n s0 s'.
Proof.
  unfold read_channel. intros Hinv Hr.
  destruct (ready t n) eqn:Hready; [by simplify_eq|].
  destruct avail; [|by simplify_eq]. destruct s as [|m s]; [by simplify_eq|].
  unfold chan_inv in Hinv. rewrite Hready in Hinv. destruct Hinv as [Hs Hc].
  unfold real in Hs at 1. rewrite filter_cons in Hs.
  destruct (IsSelfControlled (cm_MessageType m)) eqn:Hself; simplify_eq/=.
  - unfold chan_inv. rewrite Hready. done.
  - destruct (drop_cons_real _ _ _ _ Hs) as [Hm Hrest].
    unfold chan_inv, ready, store_message; cbn [tk_ready tk_current tk_counters].
    rewrite !lookup_insert_eq; cbn [default]. rewrite Hc. split_and!; [done| |by eauto].
    apply int64_succ.
Qed.

Lemma read_pass_other names avail ss t ss' t' b x :
  read_pass names avail ss t = (ss', t', b) → x ∉ names → same_at t t' x.
Proof.
  revert avail ss t ss' t' b. induction names as [|n names IH]; intros avail ss t ss' t' b Hp Hx.
  { simpl in Hp. by simplify_eq. }
  apply not_elem_of_cons in Hx as [Hxn Hx]. destruct ss as [|s ss]; [by simpl in Hp; simplify_eq|].
  simpl in Hp. destruct (read_channel n _ s t) as [[s1 t1] b1] eqn:H1.
  destruct (read_pass names _ ss t1) as [[ss2 t2] b2] eqn:H2. simplify_eq.
  pose proof (read_channel_other _ _ _ _ _ _ _ _ H1 Hxn) as (? & ? & ?).
  pose proof (IH _ _ _ _ _ _ H2 Hx) as (? & ? & ?). unfold same_at. split_and!; congruence.
Qed.

Lemma read_pass_inv k names avail ss0 ss t ss' t' b :
  NoDup names → Forall3 (chan_inv k t) names ss0 ss →
  read_pass names avail ss t = (ss', t', b) → Forall3 (chan_inv k t') names ss0 ss'.
Proof.
  revert avail ss0 ss t ss' t' b.
  induction names as [|n names IH]; intros avail ss0 ss t ss' t' b Hnd Hinv Hp.
  { inversion Hinv; subst. simpl in Hp. simplify_eq. constructor. }
  apply list.NoDup_cons in Hnd as [Hn Hnd].
  inversion Hinv as [|? s0 s ? ss0' ss1 Hs Hss]; subst. simpl in Hp.
  destruct (read_channel n _ s t) as [[s1 t1] b1] eqn:H1.
  destruct (read_pass names _ ss1 t1) as [[ss2 t2] b2] eqn:H2. simplify_eq. constructor.
  - eapply chan_inv_same; [by eapply read_pass_other|]. by eapply read_channel_inv.
  - eapply IH; [done| |done].
    assert (∀ x, x ∈ names → same_at t t1 x) as Hsame.
    { intros x Hx. eapply read_channel_other; [done|]. by intros ->. }
    clear -Hss Hsame. induction Hss as [|x y z xs ys zs Hx _ IHs]; constructor.
    + eapply chan_inv_same; [|done]. apply Hsame. by left.
    + apply IHs. intros. apply Hsame. by right.
Qed.

(** All channels ready: the maps hold the slice of the round. *)
Lemma ready_slice k t names ss0 ss :
  Forall3 (chan_inv k t) names ss0 ss → forallb (ready t) names = true →
  ∃ ms, slice ss0 k = Some ms
    ∧ Forall2 (λ n m, tk_current t !! n = Some m
        ∧ default 0 (tk_counters t !! n) = int64 (Z.of_nat (S k))) names ms.
Proof.
  induction 1 as [|n s0 s names ss0 ss Hn _ IH]; simpl; [by exists []|].
  intros [Hr Hall]%andb_true_iff. destruct (IH Hall) as (ms & Hms & Hf).
  unfold chan_inv in Hn. rewrite Hr in Hn. destruct Hn as (_ & Hc & m & Hm & Hcur).
  exists (m :: ms). split; [|by constructor].
  unfold slice in *. simpl. by rewrite Hm, Hms.
Qed.

(** *** The invariant of the loop *)
Definition loop_inv names ss0 (k : nat) (st : CmpState) : Prop :=
  let '(ss, t, out) := st in
  Forall3 (chan_inv k t) names ss0 ss ∧ length out = k ∧ rounds_shown names ss0 out.

Lemma reset_counters names t : tk_counters (reset_round names t) = tk_counters t.
Proof. revert t. induction names as [|n names IH]; intros t; [done|]. simpl. by rewrite IH. Qed.

Lemma reset_ready names t n : n ∈ names ∨ ready t n = false → ready (reset_round names t) n = false.
Proof.
  revert t. induction names as [|x names IH]; intros t Hn; [by destruct Hn as [?%elem_of_nil|]|].
  simpl. apply IH. unfold ready; simpl. destruct (decide (x = n)) as [->|Hx].
  - right. by rewrite lookup_insert_eq.
  - rewrite lookup_insert_ne by done. destruct Hn as [[->|?]%elem_of_cons|?]; [done|by left|by right].
Qed.

Lemma reset_inv k names ss0 ss t :
  Forall3 (chan_inv k t) names ss0 ss → forallb (ready t) names = true →
  Forall3 (chan_inv (S k) (reset_round names t)) names ss0 ss.
Proof.
  intros Hinv Hall.
  assert (∀ n, n ∈ names → ready t n = true ∧ ready (reset_round names t) n = false) as Hin.
  { intros n Hn. split; [|by apply reset_ready; left].
    by eapply forallb_forall; [|apply list_elem_of_In]. }
  pose proof (reset_counters names t) as Hcnt. revert Hin Hcnt. clear Hall.
  generalize (reset_round names t) as t'. intros t' Hin Hcnt.
  induction Hinv as [|n s0 s names ss0 ss Hn _ IH]; constructor.
  - destruct (Hin n) as [Hr Hr']; [by left|]. unfold chan_inv in *. rewrite Hr in Hn.
    rewrite Hr', Hcnt. by destruct Hn as (? & ? & _).
  - apply IH. intros x Hx. apply Hin. by right.
Qed.

Lemma rounds_shown_snoc names ss0 out d :
  rounds_shown names ss0 out → round_shown names ss0 (length out) d →
  rounds_shown names ss0 (out ++ [d]).
Proof.
  intros Hout Hd k d' [Hk|[Hk Hl]]%lookup_app_Some; [by apply Hout|].
  apply list_lookup_singleton_Some in Hl as [Hz <-].
  by replace k with (length out) by lia.
Qed.

Lemma rounds_shown_agree names ss0 out j :
  rounds_shown names ss0 out → (j < length out)%nat →
  ∃ ms, slice ss0 j = Some ms ∧ agree ms = true.
Proof.
  intros Hout [d Hd]%lookup_lt_is_Some. destruct (Hout _ _ Hd) as (ms & ? & ? & _). by exists ms.
Qed.

(** What a round, and a run, may give. *)
Definition loop_result names ss0 (r : res CmpState) : Prop :=
  match r with
  | Ok st => ∃ k, loop_inv names ss0 k st
  | Err e => e = Errorf "message inconsistency detected between pchannels"
             ∧ ∃ k, first_disagreement ss0 k
  | Panic _ => False
  end.

Lemma compare_round_result names ss0 k avail st :
  names ≠ [] → NoDup names → loop_inv names ss0 k st →
  loop_result names ss0 (compare_round names avail st).
Proof.
  intros Hne Hnd. destruct st as [[ss t] out]. intros (Hinv & Hlen & Hout).
  unfold compare_round. destruct (read_pass names avail ss t) as [[ss1 t1] b] eqn:Hp.
  pose proof (read_pass_inv _ _ _ _ _ _ _ _ _ Hnd Hinv Hp) as Hinv1.
  destruct (b && forallb (ready t1) names) eqn:Hall; [|by exists k].
  apply andb_true_iff in Hall as [_ Hall].
  destruct (ready_slice _ _ _ _ _ Hinv1 Hall) as (ms & Hms & Hf).
  assert (Forall2 (λ n m, tk_current t1 !! n = Some m) names ms) as Hcur
    by (eapply list.Forall2_impl; [done|]; by intros ?? []).
  rewrite (compareCurrentMessages_agree _ _ ms) by done. cbn [mbind res_bind].
  destruct (agree ms) eqn:Hag.
  - rewrite (display_current _ _ _ ms k) by done. cbn [mbind res_bind option_list].
    exists (S k). unfold loop_inv. split_and!.
    + by apply reset_inv.
    + rewrite length_app, Hlen. simpl. lia.
    + apply rounds_shown_snoc; [done|]. exists ms. by rewrite Hlen.
  - unfold inconsistent, loop_result. split; [done|]. exists k. split; [by exists ms|].
    rewrite <-Hlen. intros j Hj. by eapply rounds_shown_agree.
Qed.

Lemma init_counter names n (c : gmap string Z) :
  default 0 (c !! n) = 0 → default 0 (foldl (λ c n, <[n := 0]> c) c names !! n) = (0 : Z).
Proof.
  revert c. induction names as [|x names IH]; intros c Hc; [done|]. simpl. apply IH.
  destruct (decide (x = n)) as [->|?]; [by rewrite lookup_insert_eq|by rewrite lookup_insert_ne].
Qed.
Lemma init_ready names n (r : gmap string bool) :
  default false (r !! n) = false →
  default false (foldl (λ r n, <[n := false]> r) r names !! n) = false.
Proof.
  revert r. induction names as [|x names IH]; intros c Hc; [done|]. simpl. apply IH.
  destruct (decide (x = n)) as [->|?]; [by rewrite lookup_insert_eq|by rewrite lookup_insert_ne].
Qed.

Lemma init_loop_inv names ss :
  length ss = length names → loop_inv names ss 0 (ss, init_tracks names, []).
Proof.
  intros Hlen. split_and!; [|done|intros k d; by rewrite lookup_nil].
  assert (∀ n s, chan_inv 0 (init_tracks names) n s s) as Hch.
  { intros n s. unfold chan_inv, ready, init_tracks; cbn [tk_ready tk_counters].
    by rewrite init_ready, init_counter. }
  revert Hch Hlen. generalize (init_tracks names) as t. intros t Hch. revert ss.
  induction names as [|n names IH]; intros [|s ss] ?; simplify_eq/=; constructor; auto.
Qed.

Lemma run_result names ss0 schedule k st :
  names ≠ [] → NoDup names → loop_inv names ss0 k st →
  loop_result names ss0 (foldM (compare_round names) schedule st).
Proof.
  intros Hne Hnd. revert k st. induction schedule as [|a schedule IH]; intros k st Hst; [by exists k|].
  simpl. pose proof (compare_round_result _ _ _ a _ Hne Hnd Hst) as Hr.
  destruct (compare_round names a st) as [st'|e|w]; [|done..].
  destruct Hr as [k' Hk']. by eapply IH.
Qed.

(** *** Progress *)

(** A channel that the loop waits for has ended. *)
Definition stuck names (st : CmpState) : Prop :=
  let '(ss, t, _) := st in ∃ i n, names !! i = Some n ∧ ss !! i = Some [] ∧ ready t n = false.

Definition remaining (st : CmpState) : nat := sum_list (map length st.1.1).

Lemma read_channel_full n s t s' t' b :
  read_channel n true s t = (s', t', b) →
  b = true ∧ ((length s' < length s)%nat ∨ (s' = s ∧ t' = t ∧ (ready t n = false → s = []))).
Proof. unfold read_channel. intros Hr. repeat case_match; simplify_eq/=; naive_solver lia. Qed.

Lemma read_pass_full names ss t ss' t' b :
  read_pass names (replicate (length names) true) ss t = (ss', t', b) →
  b = true ∧ ((sum_list (map length ss') < sum_list (map length ss))%nat
    ∨ (ss' = ss ∧ t' = t ∧ ∀ i n s, names !! i = Some n → ss !! i = Some s → ready t n = false → s = [])).
Proof.
  revert ss t ss' t' b. induction names as [|n names IH]; intros ss t ss' t' b Hp.
  { simpl in Hp. simplify_eq. split; [done|]. right. split_and!; [done..|]. intros []; naive_solver. }
  destruct ss as [|s ss]; [simpl in Hp; simplify_eq; naive_solver|].
  simpl in Hp. destruct (read_channel n true s t) as [[s1 t1] b1] eqn:H1.
  destruct (read_pass names _ ss t1) as [[ss2 t2] b2] eqn:H2. simplify_eq. simpl.
  destruct (read_channel_full _ _ _ _ _ _ H1) as [-> Hs].
  destruct (IH _ _ _ _ _ H2) as [-> Hss]. split; [done|].
  destruct Hs as [?|(-> & -> & Hn)], Hss as [?|(-> & -> & Hi)]; [left; lia..|].
  right. split_and!; [done..|]. intros [|i] x s' Hx Hs' Hr; simplify_eq/=; eauto.
Qed.

Lemma same_at_ready t t' n : same_at t t' n → ready t' n = ready t n.
Proof. unfold ready. by intros (_ & _ & ->). Qed.

(** A stuck channel stays so, and no round is compared. *)
Lemma read_pass_stuck names avail ss t ss' t' b i n :
  NoDup names → read_pass names avail ss t = (ss', t', b) →
  names !! i = Some n → ss !! i = Some [] → ready t n = false →
  ss' !! i = Some [] ∧ ready t' n = false.
Proof.
  revert avail ss t ss' t' b i. induction names as [|x names IH]; intros avail ss t ss' t' b i Hnd Hp Hi Hs Hr.
  { done. }
  apply list.NoDup_cons in Hnd as [Hx Hnd]. destruct ss as [|s ss]; [done|].
  simpl in Hp. destruct (read_channel x _ s t) as [[s1 t1] b1] eqn:H1.
  destruct (read_pass names _ ss t1) as [[ss2 t2] b2] eqn:H2. simplify_eq.
  destruct i as [|i]; simplify_eq/=.
  - pose proof (same_at_ready _ _ _ (read_pass_other _ _ _ _ _ _ _ _ H2 Hx)) as ->.
    unfold read_channel in H1. rewrite Hr in H1. by destruct (default false (head avail)); simplify_eq.
  - eapply IH; [done..|]. erewrite same_at_ready; [done|]. eapply read_channel_other; [done|].
    intros ->. apply Hx. by eapply list_elem_of_lookup_2.
Qed.

Lemma compare_round_stuck names avail st :
  NoDup names → stuck names st → ∃ st', compare_round names avail st = Ok st' ∧ stuck names st'.
Proof.
  destruct st as [[ss t] out]. intros Hnd (i & n & Hi & Hs & Hr). unfold compare_round.
  destruct (read_pass names avail ss t) as [[ss1 t1] b] eqn:Hp.
  destruct (read_pass_stuck _ _ _ _ _ _ _ _ _ Hnd Hp Hi Hs Hr) as [Hs1 Hr1].
  destruct (forallb (ready t1) names) eqn:Hall.
  - rewrite forallb_forall in Hall. rewrite Hall in Hr1; [done|].
    apply list_elem_of_In. by eapply list_elem_of_lookup_2.
  - rewrite andb_false_r. exists (ss1, t1, out). split; [done|]. by exists i, n.
Qed.

Lemma stuck_slice names ss0 k st :
  loop_inv names ss0 k st → stuck names st → slice ss0 k = None.
Proof.
  destruct st as [[ss t] out]. intros (Hinv & _ & _) (i & n & Hi & Hs & Hr).
  apply mapM_None.
  destruct (Forall3_lookup_l _ _ _ _ _ _ Hinv Hi) as (s0 & s' & Hs0 & Hs' & Hch). simplify_eq.
  apply list.Exists_exists. exists s0. split; [by eapply list_elem_of_lookup_2|].
  unfold chan_inv in Hch. rewrite Hr in Hch. destruct Hch as [Hd _].
  apply lookup_ge_None_2. apply (f_equal length) in Hd. rewrite length_drop in Hd. simpl in Hd. lia.
Qed.

Definition waiting names (st : CmpState) : Prop := forallb (ready st.1.2) names = false.

Lemma not_forallb {A} (f : A → bool) l :
  forallb f l = false → ∃ i x, l !! i = Some x ∧ f x = false.
Proof.
  induction l as [|x l IH]; [done|]. simpl. intros [Hx|Hl]%andb_false_iff; [by exists 0%nat, x|].
  destruct (IH Hl) as (i & y & ? & ?). by exists (S i), y.
Qed.

Lemma reset_waiting names ss t out : names ≠ [] → waiting names (ss, reset_round names t, out).
Proof.
  intros Hne. destruct names as [|n names]; [done|]. unfold waiting.
  cbn [fst snd forallb]. by rewrite reset_ready by (by left; left).
Qed.

(** A round in which every channel is at hand gets on, or nothing can. *)
Lemma compare_round_full names ss0 k st st' :
  NoDup names → names ≠ [] → waiting names st → loop_inv names ss0 k st →
  compare_round names (replicate (length names) true) st = Ok st' →
  waiting names st' ∧ (stuck names st' ∨ (remaining st' < remaining st)%nat).
Proof.
  intros Hnd Hne Hwait Hinv Hround. pose proof Hround as Hround0.
  destruct st as [[ss t] out]. destruct Hinv as (Hinv & _ & _).
  unfold compare_round in Hround. destruct (read_pass names _ ss t) as [[ss1 t1] b] eqn:Hp.
  destruct (read_pass_full _ _ _ _ _ _ Hp) as [-> Hprog].
  assert (waiting names st' ∧ remaining st' = sum_list (map length ss1)) as [Hw Hrem].
  { simpl in Hround. destruct (forallb (ready t1) names) eqn:Hall.
    - apply res_bind_Ok in Hround as (same & _ & Hround).
      destruct same; [|done]. apply res_bind_Ok in Hround as (d & _ & [= <-]).
      split; [by apply reset_waiting|done].
    - simplify_eq. done. }
  split; [done|]. destruct Hprog as [Hlt|(-> & -> & Hempty)]; [right; by rewrite Hrem|left].
  apply not_forallb in Hwait as (i & n & Hi & Hr). simpl in Hr.
  destruct (Forall3_lookup_l _ _ _ _ _ _ Hinv Hi) as (s0 & s & _ & Hs & _).
  rewrite (Hempty _ _ _ Hi Hs Hr) in Hs.
  destruct (compare_round_stuck names (replicate (length names) true) (ss, t, out) Hnd) as (st2 & Hst & ?).
  - by exists i, n.
  - rewrite Hround0 in Hst. by injection Hst as ->.
Qed.

Lemma run_stuck names schedule st :
  NoDup names → stuck names st → ∃ st', foldM (compare_round names) schedule st = Ok st' ∧ stuck names st'.
Proof.
  intros Hnd. revert st. induction schedule as [|a schedule IH]; intros st Hst; [by exists st|].
  simpl. by destruct (compare_round_stuck _ a _ Hnd Hst) as (st' & -> & Hst'); apply IH.
Qed.

Lemma run_full names ss0 F k st st' :
  NoDup names → names ≠ [] → waiting names st → loop_inv names ss0 k st →
  (remaining st < F)%nat →
  foldM (compare_round names) (replicate F (replicate (length names) true)) st = Ok st' →
  stuck names st'.
Proof.
  intros Hnd Hne. revert k st. induction F as [|F IH]; intros k st Hw Hinv HF; [lia|]. simpl.
  intros (st1 & Hst1 & Hrun)%res_bind_Ok.
  pose proof (compare_round_result _ _ _ (replicate (length names) true) _ Hne Hnd Hinv) as Hr.
  rewrite Hst1 in Hr. destruct Hr as [k1 Hinv1].
  destruct (compare_round_full _ _ _ _ _ Hnd Hne Hw Hinv Hst1) as [Hw1 [Hstuck|Hlt]].
  - destruct (run_stuck _ (replicate F (replicate (length names) true)) _ Hnd Hstuck)
      as (st2 & Hst2 & ?). rewrite Hrun in Hst2. by injection Hst2 as ->.
  - eapply IH; [done..| |done]. lia.
Qed.
End compare.

(** ** The comparison is right *)
Section results.
Context `{MT : MessageTypes}.

(** C10 (safety): safety, for channels of different names: whatever the scanners' speed, each line
    displayed is for the next messages of all channels, self-controlled ones left out, and
    those agree; an inconsistency is reported only for the first ones that do not agree;
    and the loop never panics. *)
Theorem comparePChannels_safe names ss schedule :
  names ≠ [] → NoDup names → length ss = length names →
  match comparePChannelsMessage names ss schedule with
  | Ok (_, _, out) => ∀ k d, out !! k = Some d →
      ∃ ms, slice ss k = Some ms ∧ agree ms = true ∧ d = display_of names k ms
  | Err e => e = Errorf "message inconsistency detected between pchannels"
             ∧ ∃ k, first_disagreement ss k
  | Panic _ => False
  end.
Proof.
  intros Hne Hnd Hlen.
  pose proof (run_result names ss schedule _ _ Hne Hnd (init_loop_inv names ss Hlen)) as Hr.
  unfold comparePChannelsMessage. destruct (foldM _ _ _) as [[[ss' t] out]|e|w]; [|done..].
  destruct Hr as (k & _ & _ & Hout). done.
Qed.

(** C18 (liveness): for channels of distinct names: when the scanners have their messages at
    hand for as many rounds as there are messages and one more, the loop reports the
    inconsistency if there is one, and has compared the messages of the shortest channel if
    there is none. Between channels of one name, at several addresses, no inconsistency is
    ever reported ([comparePChannels_same_name]). *)
Theorem comparePChannels_live names ss F :
  names ≠ [] → NoDup names → length ss = length names →
  (sum_list (map length ss) < F)%nat →
  match comparePChannelsMessage names ss (replicate F (replicate (length names) true)) with
  | Ok (_, _, out) =>
      slice ss (length out) = None
      ∧ ∀ k, (k < length out)%nat → ∃ ms, slice ss k = Some ms ∧ agree ms = true
  | Err _ => ∃ k, first_disagreement ss k
  | Panic _ => False
  end.
Proof.
  intros Hne Hnd Hlen HF. pose proof (init_loop_inv names ss Hlen) as Hinit.
  pose proof (run_result names ss (replicate F (replicate (length names) true)) _ _ Hne Hnd Hinit) as Hr.
  unfold comparePChannelsMessage.
  destruct (foldM _ _ _) as [[[ss' t] out]|e|w] eqn:Hrun; [|by destruct Hr|done].
  destruct Hr as (k & Hinv). pose proof Hinv as (_ & Hk & Hout). subst k. split.
  - eapply stuck_slice; [done|]. eapply run_full; [done|done| |exact Hinit|exact HF|done].
    destruct names as [|n names]; [done|]. unfold waiting; simpl. unfold ready, init_tracks; simpl.
    rewrite init_ready; [done|]. by rewrite lookup_insert_eq.
  - intros j Hj. by eapply rounds_shown_agree.
Qed.

(** Two channels of the same name, at different addresses, are never found different: the
    maps have one entry for both, so that the message of one is compared with itself. *)
Lemma same_message_refl (m : CmpMessage) : same_message m m = true.
Proof. unfold same_message. by repeat case_bool_decide; naive_solver. Qed.

Lemma compare_others_same n k cur (m : CmpMessage) :
  cur !! n = Some m → compare_others m cur (replicate k n) = Ok true.
Proof.
  intros Hm. induction k as [|k IH]; [done|]. simpl. unfold current. rewrite Hm. simpl.
  by rewrite same_message_refl.
Qed.

Definition no_error {A} (r : res A) : Prop := match r with Err _ => False | _ => True end.

Lemma no_error_bind {A B} (m : res A) (f : A → res B) :
  no_error m → (∀ a, m = Ok a → no_error (f a)) → no_error (m ≫= f).
Proof. destruct m; simpl; auto. Qed.

Lemma compareCurrentMessages_same n k cur :
  no_error (compareCurrentMessages cur (replicate k n))
  ∧ compareCurrentMessages cur (replicate k n) ≠ Ok false.
Proof.
  destruct k as [|k]; [done|]. unfold compareCurrentMessages.
  change (go_index (replicate (S k) n) 0) with (Ok n). change (drop 1 (replicate (S k) n)) with (replicate k n).
  cbn [mbind res_bind]. unfold current. destruct (cur !! n) as [m|] eqn:Hm; [|done].
  cbn [mbind res_bind]. by rewrite (compare_others_same _ _ _ _ Hm).
Qed.

Lemma display_no_error cur names counters :
  no_error (displayComparedCurrentMessages cur names counters).
Proof.
  unfold displayComparedCurrentMessages. destruct names as [|n names]; [done|].
  destruct (cur !! n); [|done]. apply no_error_bind; [|done].
  generalize (n :: names) as l. induction l as [|x l IH]; [done|]. cbn [mapM].
  apply no_error_bind; [|intros; apply no_error_bind; done].
  unfold message_info, current. by destruct (cur !! x).
Qed.

Theorem comparePChannels_same_name n k ss schedule e :
  comparePChannelsMessage (replicate k n) ss schedule ≠ Err e.
Proof.
  unfold comparePChannelsMessage. generalize (ss, init_tracks (replicate k n), @nil Display).
  induction schedule as [|a schedule IH]; intros st; [done|]. simpl.
  assert (no_error (compare_round (replicate k n) a st)) as Hr.
  { destruct st as [[ss1 t] out]. unfold compare_round.
    destruct (read_pass _ a ss1 t) as [[ss2 t2] b]. destruct (b && _); [|done].
    destruct (compareCurrentMessages_same n k (tk_current t2)) as [Hc Hf].
    apply no_error_bind; [done|]. intros [] Hsame; [|done].
    apply no_error_bind; [apply display_no_error|done]. }
  by destruct (compare_round (replicate k n) a st); [apply IH| |].
Qed.
End results.

(** ** Witnesses *)
#[local] Instance example_types : MessageTypes := {|
  IsSelfControlled c := bool_decide (c = 1); MessageTypeAlterReplicateConfig := 40;
  MessageType_String c := FormatInt c
|}.

Definition insert_msg (id : string) (tick : Z) : CmpMessage := MkCmpMessage 2 id tick None.
Definition replica_msg (id : string) (tick : Z) : CmpMessage :=
  MkCmpMessage 2 ("s" +:+ id) (tick + 5) (Some (id, tick)).
Definition example_streams : list (list CmpMessage) :=
  [[insert_msg "a" 10; MkCmpMessage 1 "tt" 11 None; insert_msg "b" 12; insert_msg "c" 13];
   [replica_msg "a" 10; replica_msg "b" 12; replica_msg "x" 13]].

(** The first channel has nothing at hand in the first round. *)
Definition example_schedule : list (list bool) :=
  [[false; true]; [true; true]; [true; true]; [true; true]; [true; true]].

Lemma example_names_NoDup : NoDup ["p"; "q"].
Proof. clean_dec. Qed.

Lemma comparePChannels_safe_witness :
  ∃ k, first_disagreement example_streams k.
Proof.
  assert (comparePChannelsMessage ["p"; "q"] example_streams example_schedule = inconsistent) as Hrun
    by (vm_compute; reflexivity).
  pose proof (comparePChannels_safe ["p"; "q"] example_streams example_schedule
                ltac:(done) example_names_NoDup eq_refl) as Hsafe.
  rewrite Hrun in Hsafe. by apply Hsafe.
Defined.

(** The second channel has no third message: two are compared. *)
Lemma comparePChannels_live_witness :
  slice (drop 1 example_streams ++ [[insert_msg "a" 10; insert_msg "b" 12]]) 2 = None.
Proof.
  pose proof (comparePChannels_live ["q"; "p"]
                (drop 1 example_streams ++ [[insert_msg "a" 10; insert_msg "b" 12]]) 6
                ltac:(done) ltac:(clean_dec) eq_refl ltac:(vm_compute; lia)) as Hlive.
  set (run := comparePChannelsMessage _ _ _) in Hlive.
  assert (match run with Ok (_, _, out) => length out = 2%nat | _ => False end) as Hrun
    by (vm_compute; reflexivity).
  destruct run as [[[? ?] out]|e|w]; [|done..]. destruct Hlive as [Hs _]. by rewrite Hrun in Hs.
Defined.
