(* ===== verification/ParquetWriter.v ===== *)
(** * Writing parquet files

    Models [storage/binlog/v1/parquet_writer.go] and the functions of [states/binlog.go]
    that put the rows of a collection into it: a builder per field, by name.  The builders
    of the arrow library are the interface [ArrowBuilders]. *)

From S2P Require Import Serde.
From S2P Require Export Collections.

(** ** The builders *)
(** [AppendValues] of one value panics when a fixed-size builder gets one of another
    length, unless it is empty. *)
Class ArrowBuilders (B : Type) := {
  NewBuilder : arrow_type → B;
  bd_kind : B → arrow_kind;
  bd_AppendValue : B → any → res B;
  bd_Len : B → Z;
}.

Class ArrowBuildersLaws (B : Type) `{ArrowBuilders B} := {
  bd_type : B → arrow_type;
  bd_items : B → list any;
  bd_New_law t : bd_type (NewBuilder t) = t ∧ bd_items (NewBuilder t) = [];
  bd_kind_law b : bd_kind b = kind_of (bd_type b);
  bd_Append_law b v : kind_value (bd_kind b) v = true → fits (bd_type b) v →
    ∃ b', bd_AppendValue b v = Ok b' ∧ bd_type b' = bd_type b ∧ bd_items b' = bd_items b ++ [v];
  bd_Append_short b w bs : bd_type b = FixedSizeBinaryType w → bs ≠ [] → zlen bs ≠ w →
    ∃ why, bd_AppendValue b (VBytes bs) = Panic why;
  bd_Len_law b : bd_Len b = zlen (bd_items b);
}.

(** ** [parquet_writer.go] *)

(** A nil type for the data types that have no case. *)
Definition ToArrowDataType (dataType dim : Z) : option arrow_type :=
  match dataType with
  | 1 => Some (Primitive KBoolean)
  | 2 => Some (Primitive KInt8)
  | 3 => Some (Primitive KInt16)
  | 4 => Some (Primitive KInt32)
  | 5 => Some (Primitive KInt64)
  | 10 => Some (Primitive KFloat32)
  | 11 => Some (Primitive KFloat64)
  | 20 | 21 => Some (Primitive KString)
  | 22 | 23 => Some (Primitive KBinary)
  | 100 => Some (FixedSizeBinaryType (Z.quot dim 8))
  | 101 => Some (FixedSizeBinaryType (int64 (dim * 4)))
  | _ => None
  end.

Section writer.
Context {B : Type} `{ArrowBuilders B}.
Context (description : FieldSchema → string).

Record ParquetWriter := MkParquetWriter {
  pw_schema : list (string * option arrow_type);
  pw_builders : gmap string B;
  pw_fields : gmap string (option arrow_type);
}.

Definition with_builders (w : ParquetWriter) (m : gmap string B) : ParquetWriter :=
  MkParquetWriter (pw_schema w) m (pw_fields w).

Definition arrow_field (field : FieldSchema) : string * option arrow_type :=
  let fs := NewFieldSchemaFromBase field (description field) in
  let dim := match GetDim fs with Ok dim => dim | _ => 0 end in
  (fs_Name field, ToArrowDataType (mf_DataType fs) dim).

(** [array.NewBuilder] panics on a nil type. *)
Fixpoint new_builders (fields : list (string * option arrow_type)) (m : gmap string B)
    : res (gmap string B) :=
  match fields with
  | [] => Ok m
  | (name, Some t) :: fields => new_builders fields (<[name := NewBuilder t]> m)
  | (_, None) :: _ => Panic nil_dereference
  end.

Definition NewParquetWriter (collection : Collection) : res ParquetWriter :=
  match ci_Schema (co_proto collection) with
  | None => Panic nil_dereference
  | Some s =>
      let fields := map arrow_field (cs_Fields s) in
      builders ← new_builders fields ∅;
      Ok (MkParquetWriter fields builders
            (foldl (λ m '(name, t), <[name := t]> m) ∅ fields))
  end.

(** A builder of another type, or none, is an error and changes nothing. *)
Definition AppendBuilder (k : arrow_kind) (field : string) (v : any) (w : ParquetWriter)
    : ParquetWriter * res unit :=
  match pw_builders w !! field with
  | None => (w, Err (Errorf "builder not found"))
  | Some b =>
      if bool_decide (bd_kind b = k) then
        match bd_AppendValue b v with
        | Ok b => (with_builders w (<[field := b]> (pw_builders w)), Ok tt)
        | Err e => (w, Err e)
        | Panic why => (w, Panic why)
        end
      else (w, Err (Errorf "builder type not match"))
  end.

Definition AppendBool field v := AppendBuilder KBoolean field (VBool v).
Definition AppendInt8 field v := AppendBuilder KInt8 field (VInt8 v).
Definition AppendInt16 field v := AppendBuilder KInt16 field (VInt16 v).
Definition AppendInt32 field v := AppendBuilder KInt32 field (VInt32 v).
Definition AppendInt64 field v := AppendBuilder KInt64 field (VInt64 v).
Definition AppendFloat32 field v := AppendBuilder KFloat32 field (VFloat32 v).
Definition AppendFloat64 field v := AppendBuilder KFloat64 field (VFloat64 v).
Definition AppendString field v := AppendBuilder KString field (VString v).
Definition AppendBytes field v := AppendBuilder KBinary field (VBytes v).
Definition float_bytes (vec : list Z) : list byte := concat (map (le_put 4) vec).
Definition AppendFloatVector field vec := AppendBuilder KFixedSizeBinary field (VBytes (float_bytes vec)).
Definition AppendBinaryVector field vec := AppendBuilder KFixedSizeBinary field (VBytes vec).

(** [Flush] up to the arrow table: the loop over the builders, in the order of a map
    iteration, with the columns it makes. *)
Fixpoint flush_columns (order : list (string * B)) (rows : Z)
    (columns : list (string * B)) : res (list (string * B) * Z) :=
  match order with
  | [] => Ok (columns, rows)
  | (field, b) :: order =>
      let rowCount := bd_Len b in
      if bool_decide (rows ≠ 0) && bool_decide (rows ≠ rowCount)
      then Err (Errorf "columns row count differs")
      else flush_columns order rowCount (columns ++ [(field, b)])
  end.
Definition Flush (order : list (string * B)) : res (list (string * B) * Z) :=
  flush_columns order 0 [].

(** ** [states/binlog.go]: writing a row *)
Definition not_a (k : string) {A} : res A := Panic ("interface conversion: interface {} is not " +:+ k).

(** The errors of the appends are dropped. *)
Definition dropped (r : ParquetWriter * res unit) : ParquetWriter * res unit :=
  match r with (w, Err _) => (w, Ok tt) | r => r end.

Definition writeParquetField (w : ParquetWriter) (dataType : Z) (name : string) (v : any)
    : ParquetWriter * res unit :=
  match dataType with
  | 1 => match v with VBool b => dropped (AppendBool name b w) | _ => (w, not_a "bool") end
  | 2 => match v with VInt8 z => dropped (AppendInt8 name z w) | _ => (w, not_a "int8") end
  | 3 => match v with VInt16 z => dropped (AppendInt16 name z w) | _ => (w, not_a "int16") end
  | 4 => match v with VInt32 z => dropped (AppendInt32 name z w) | _ => (w, not_a "int32") end
  | 5 => match v with VInt64 z => dropped (AppendInt64 name z w) | _ => (w, not_a "int64") end
  | 10 => match v with VFloat32 z => dropped (AppendFloat32 name z w) | _ => (w, not_a "float32") end
  | 11 => match v with VFloat64 z => dropped (AppendFloat64 name z w) | _ => (w, not_a "float64") end
  | 20 | 21 => match v with VString s => dropped (AppendString name s w) | _ => (w, not_a "string") end
  | 23 => match v with VBytes bs => dropped (AppendBytes name bs w) | _ => (w, not_a "[]uint8") end
  | 101 => match v with VFloat32s l => dropped (AppendFloatVector name l w) | _ => (w, not_a "[]float32") end
  | 100 => match v with VBytes bs => dropped (AppendBinaryVector name bs w) | _ => (w, not_a "[]uint8") end
  | _ => (w, Err (Errorf "data type not supported"))
  end.

(** One field of [writeParquetData]. *)
Definition write_field (pkField : ModelFieldSchema) (rowID ts : Z) (pk : any)
    (output : gmap string any) (field : FieldSchema) (w : ParquetWriter) : ParquetWriter * res unit :=
  if bool_decide (fs_FieldID field = 0) then AppendInt64 "RowID" rowID w
  else if bool_decide (fs_FieldID field = 1) then AppendInt64 "Timestamp" ts w
  else if bool_decide (fs_FieldID field = mf_FieldID pkField) then
    if bool_decide (mf_DataType pkField = DataType_Int64) then
      match pk with VInt64 z => AppendInt64 (mf_Name pkField) z w | _ => (w, not_a "int64") end
    else if bool_decide (mf_DataType pkField = DataType_VarChar) then
      match pk with VString s => AppendString (mf_Name pkField) s w | _ => (w, not_a "string") end
    else (w, Ok tt)
  else writeParquetField w (fs_DataType field) (fs_Name field)
         (default VNil (output !! fs_Name field)).

Fixpoint write_fields (pkField : ModelFieldSchema) (rowID ts : Z) (pk : any)
    (output : gmap string any) (fields : list FieldSchema) (w : ParquetWriter)
    : ParquetWriter * res unit :=
  match fields with
  | [] => (w, Ok tt)
  | field :: fields =>
      let '(w, e) := write_field pkField rowID ts pk output field w in
      match e with
      | Ok _ => write_fields pkField rowID ts pk output fields w
      | e => (w, e)
      end
  end.

Definition writeParquetData (collection : Collection) (w : ParquetWriter) (rowID ts : Z) (pk : any)
    (output : gmap string any) : ParquetWriter * res unit :=
  match GetPKField description collection, ci_Schema (co_proto collection) with
  | Ok (pkField, _), Some s => write_fields pkField rowID ts pk output (cs_Fields s) w
  | _, _ => (w, Panic nil_dereference)
  end.
End writer.
Arguments ParquetWriter : clear implicits.

(** ** Properties *)
Section writer_properties.
Context {B : Type} `{ArrowBuildersLaws B}.
Context (description : FieldSchema → string).

(** The data types with a column of single values. *)
Definition scalar_types : list Z := [1; 2; 3; 4; 5; 10; 11; 20; 21; 23].

(** The columns of the system fields have fixed names; the primary key is the field that
    [GetPKField] finds. *)
Definition field_ok (pkField : ModelFieldSchema) (f : FieldSchema) : Prop :=
  if bool_decide (fs_FieldID f = 0) then fs_Name f = "RowID" ∧ fs_DataType f = 5
  else if bool_decide (fs_FieldID f = 1) then fs_Name f = "Timestamp" ∧ fs_DataType f = 5
  else if bool_decide (fs_FieldID f = mf_FieldID pkField) then
    fs_Name f = mf_Name pkField ∧ fs_DataType f = mf_DataType pkField ∧ fs_DataType f ∈ [5; 21]
  else fs_DataType f ∈ scalar_types.

#[global] Instance field_ok_dec pkField f : Decision (field_ok pkField f).
Proof.
  unfold field_ok.
  repeat match goal with |- Decision (if ?b then _ else _) => destruct b end; apply _.
Defined.

Record Row := MkRow { row_id : Z; row_ts : Z; row_pk : any; row_output : gmap string any }.

(** What a row has for a field. *)
Definition cell (pkField : ModelFieldSchema) (r : Row) (f : FieldSchema) : any :=
  if bool_decide (fs_FieldID f = 0) then VInt64 (row_id r)
  else if bool_decide (fs_FieldID f = 1) then VInt64 (row_ts r)
  else if bool_decide (fs_FieldID f = mf_FieldID pkField) then row_pk r
  else default VNil (row_output r !! fs_Name f).

Definition type_of (f : FieldSchema) : arrow_type :=
  default (Primitive KBoolean) (ToArrowDataType (fs_DataType f) 0).

Definition value_ok (pkField : ModelFieldSchema) (r : Row) (f : FieldSchema) : Prop :=
  kind_value (kind_of (type_of f)) (cell pkField r f) = true.

(** The builder of a field has the values of the rows so far. *)
Definition column_holds (w : ParquetWriter B) (f : FieldSchema) (vs : list any) : Prop :=
  ∃ b, pw_builders w !! fs_Name f = Some b ∧ bd_type b = type_of f ∧ bd_items b = vs.

Lemma AppendBuilder_ok (w : ParquetWriter B) k f v vs :
  column_holds w f vs → kind_of (type_of f) = k → kind_value k v = true → fits (type_of f) v →
  ∃ w', AppendBuilder k (fs_Name f) v w = (w', Ok tt) ∧ column_holds w' f (vs ++ [v])
    ∧ ∀ f' vs', fs_Name f' ≠ fs_Name f → column_holds w f' vs' → column_holds w' f' vs'.
Proof.
  intros (b & Hb & Ht & Hi) Hk Hv Hfit. unfold AppendBuilder. rewrite Hb.
  rewrite bd_kind_law, Ht, Hk, bool_decide_true by done.
  destruct (bd_Append_law b v) as (b' & -> & Ht' & Hi'); [by rewrite bd_kind_law, Ht, Hk|by rewrite Ht|].
  eexists. split; [done|]. unfold column_holds, with_builders; cbn [pw_builders]. split.
  - exists b'. rewrite lookup_insert_eq, Ht', Hi', Ht, Hi. done.
  - intros f' vs' Hne (b2 & ? & ? & ?). exists b2. by rewrite lookup_insert_ne.
Qed.

Lemma scalar_fits f v : fs_DataType f ∈ scalar_types → fits (type_of f) v.
Proof.
  unfold scalar_types, type_of. rewrite !elem_of_cons, elem_of_nil.
  intros Hf. by destruct_or!; rewrite ?Hf.
Qed.

(** The scalar cases of [writeParquetField]. *)
Lemma writeParquetField_ok (w : ParquetWriter B) f v vs :
  fs_DataType f ∈ scalar_types → column_holds w f vs → kind_value (kind_of (type_of f)) v = true →
  ∃ w', writeParquetField w (fs_DataType f) (fs_Name f) v = (w', Ok tt)
    ∧ column_holds w' f (vs ++ [v])
    ∧ ∀ f' vs', fs_Name f' ≠ fs_Name f → column_holds w f' vs' → column_holds w' f' vs'.
Proof.
  intros Hty Hc Hv. pose proof (scalar_fits f v Hty) as Hfit.
  destruct (AppendBuilder_ok w _ f v vs Hc eq_refl Hv Hfit) as (w' & Happ & Hw'). exists w'.
  split; [|done]. clear Hw' Hc Hfit.
  unfold scalar_types in Hty. rewrite !elem_of_cons, elem_of_nil in Hty.
  unfold type_of in *. destruct_or!; try done; rewrite Hty in *; cbn in Hv, Happ |- *;
    destruct v; try done; unfold dropped; cbn;
    unfold AppendBool, AppendInt8, AppendInt16, AppendInt32, AppendInt64, AppendFloat32,
      AppendFloat64, AppendString, AppendBytes; by rewrite Happ.
Qed.

Lemma write_field_ok pkField r f (w : ParquetWriter B) vs :
  field_ok pkField f → column_holds w f vs → value_ok pkField r f →
  ∃ w', write_field pkField (row_id r) (row_ts r) (row_pk r) (row_output r) f w = (w', Ok tt)
    ∧ column_holds w' f (vs ++ [cell pkField r f])
    ∧ ∀ f' vs', fs_Name f' ≠ fs_Name f → column_holds w f' vs' → column_holds w' f' vs'.
Proof.
  intros Hok Hc Hv. unfold value_ok in Hv.
  assert (fs_DataType f ∈ scalar_types) as Hty.
  { unfold field_ok in Hok. repeat case_bool_decide; [destruct Hok as [_ ->]..| |done].
    1,2: clean_dec. destruct Hok as (_ & _ & Hty). unfold scalar_types. revert Hty.
    rewrite !elem_of_cons, elem_of_nil. tauto. }
  unfold write_field, cell, field_ok in *.
  case_bool_decide as E0; [|case_bool_decide as E1; [|case_bool_decide as E2]].
  - destruct Hok as [<- Ht]. apply AppendBuilder_ok; [done|by unfold type_of; rewrite Ht|done|by apply scalar_fits].
  - destruct Hok as [<- Ht]. apply AppendBuilder_ok; [done|by unfold type_of; rewrite Ht|done|by apply scalar_fits].
  - destruct Hok as (Hn & Ht & Hpkt). rewrite <-Hn, <-Ht.
    rewrite !elem_of_cons, elem_of_nil in Hpkt. unfold type_of in Hv.
    destruct_or!; try done; rewrite Hpkt in *; cbn in Hv.
    + rewrite bool_decide_true by done. destruct (row_pk r); try done.
      apply AppendBuilder_ok; [done|by unfold type_of; rewrite Hpkt|done|].
      apply scalar_fits. by rewrite Hpkt.
    + rewrite bool_decide_false, bool_decide_true by done. destruct (row_pk r); try done.
      apply AppendBuilder_ok; [done|by unfold type_of; rewrite Hpkt|done|].
      apply scalar_fits. by rewrite Hpkt.
  - by apply writeParquetField_ok.
Qed.

Lemma write_fields_ok pkField r fields (w : ParquetWriter B) (col : FieldSchema → list any) :
  NoDup (map fs_Name fields) → Forall (field_ok pkField) fields →
  Forall (value_ok pkField r) fields → Forall (λ f, column_holds w f (col f)) fields →
  ∃ w', write_fields pkField (row_id r) (row_ts r) (row_pk r) (row_output r) fields w = (w', Ok tt)
    ∧ Forall (λ f, column_holds w' f (col f ++ [cell pkField r f])) fields
    ∧ ∀ f' vs', fs_Name f' ∉ map fs_Name fields → column_holds w f' vs' → column_holds w' f' vs'.
Proof.
  revert w. induction fields as [|f fields IH]; intros w Hnd Hok Hv Hc; [by exists w|].
  simpl in Hnd. apply list.NoDup_cons in Hnd as [Hn Hnd].
  apply list.Forall_cons in Hok as [Hf Hok], Hv as [Hvf Hv], Hc as [Hcf Hc].
  destruct (write_field_ok pkField r f w _ Hf Hcf Hvf) as (w1 & Hw1 & Hf1 & Hother).
  destruct (IH w1 Hnd Hok Hv) as (w2 & Hw2 & Hall & Hother2).
  { apply list.Forall_forall. intros f' Hin. rewrite list.Forall_forall in Hc.
    apply Hother; [|by apply Hc]. intros Heq. apply Hn. rewrite <-Heq.
    by apply list_elem_of_fmap_2. }
  exists w2. simpl. rewrite Hw1. split; [done|]. split.
  - constructor; [|done]. by apply Hother2.
  - intros f' vs' Hf' Hc'. apply not_elem_of_cons in Hf' as [? ?]. apply Hother2; [done|]. by apply Hother.
Qed.

Lemma field_ok_type pkField f : field_ok pkField f → fs_DataType f ∈ scalar_types.
Proof.
  unfold field_ok. repeat case_bool_decide; [intros [_ ->]; clean_dec..| |done].
  intros (_ & _ & Hty). unfold scalar_types. revert Hty. rewrite !elem_of_cons, elem_of_nil. tauto.
Qed.

Lemma arrow_field_scalar f :
  fs_DataType f ∈ scalar_types → arrow_field description f = (fs_Name f, Some (type_of f)).
Proof.
  intros Hf. unfold arrow_field, type_of. cbn [mf_DataType NewFieldSchemaFromBase].
  unfold scalar_types in Hf. rewrite !elem_of_cons, elem_of_nil in Hf.
  by destruct_or!; rewrite ?Hf.
Qed.

Lemma new_builders_ok fields (m : gmap string B) :
  Forall (λ f, fs_DataType f ∈ scalar_types) fields → NoDup (map fs_Name fields) →
  ∃ m', new_builders (map (arrow_field description) fields) m = Ok m'
    ∧ (∀ f, f ∈ fields → m' !! fs_Name f = Some (NewBuilder (type_of f)))
    ∧ (∀ n, n ∉ map fs_Name fields → m' !! n = m !! n).
Proof.
  revert m. induction fields as [|f fields IH]; intros m Hs Hnd.
  { exists m. split; [done|]. split; [by intros ? ?%elem_of_nil|done]. }
  apply list.Forall_cons in Hs as [Hf Hs]. simpl in Hnd. apply list.NoDup_cons in Hnd as [Hn Hnd].
  cbn [map]. rewrite arrow_field_scalar by done. cbn [new_builders].
  destruct (IH (<[fs_Name f := NewBuilder (type_of f)]> m) Hs Hnd) as (m' & Hm' & Hin & Hout).
  exists m'. split; [done|]. split.
  - intros f' [->|Hf']%elem_of_cons; [|by apply Hin]. rewrite Hout by done. by rewrite lookup_insert_eq.
  - intros n [Hne Hnin]%not_elem_of_cons. rewrite Hout by done. by rewrite lookup_insert_ne.
Qed.

(** The rows are written one after the other. *)
Fixpoint write_rows (collection : Collection) (rows : list Row) (w : ParquetWriter B)
    : ParquetWriter B * res unit :=
  match rows with
  | [] => (w, Ok tt)
  | r :: rows =>
      let '(w, e) := writeParquetData description collection w (row_id r) (row_ts r) (row_pk r)
                       (row_output r) in
      match e with Ok _ => write_rows collection rows w | e => (w, e) end
  end.

Lemma write_rows_ok collection s pkField has rows (w : ParquetWriter B) (col : FieldSchema → list any) :
  ci_Schema (co_proto collection) = Some s → GetPKField description collection = Ok (pkField, has) →
  NoDup (map fs_Name (cs_Fields s)) → Forall (field_ok pkField) (cs_Fields s) →
  Forall (λ r, Forall (value_ok pkField r) (cs_Fields s)) rows →
  Forall (λ f, column_holds w f (col f)) (cs_Fields s) →
  ∃ w', write_rows collection rows w = (w', Ok tt)
    ∧ Forall (λ f, column_holds w' f (col f ++ map (λ r, cell pkField r f) rows)) (cs_Fields s).
Proof.
  intros Hs Hpk Hnd Hok. revert w col. induction rows as [|r rows IH]; intros w col Hrows Hc.
  { exists w. split; [done|]. eapply list.Forall_impl; [exact Hc|]. intros f. by rewrite app_nil_r. }
  apply list.Forall_cons in Hrows as [Hr Hrows].
  destruct (write_fields_ok pkField r _ w col Hnd Hok Hr Hc) as (w1 & Hw1 & Hc1 & _).
  destruct (IH w1 (λ f, col f ++ [cell pkField r f]) Hrows Hc1) as (w2 & Hw2 & Hc2).
  exists w2. simpl. unfold writeParquetData. rewrite Hpk, Hs, Hw1. split; [done|].
  eapply list.Forall_impl; [exact Hc2|]. intros f. cbn [map]. by rewrite <-app_assoc.
Qed.

(** A writer for a collection of scalar fields, given rows with values of the fields' types,
    fails nowhere and ends with the column of each field: the values of the rows for it, in
    their order. *)
Theorem ParquetWriter_columns collection s pkField has rows :
  ci_Schema (co_proto collection) = Some s → GetPKField description collection = Ok (pkField, has) →
  NoDup (map fs_Name (cs_Fields s)) → Forall (field_ok pkField) (cs_Fields s) →
  Forall (λ r, Forall (value_ok pkField r) (cs_Fields s)) rows →
  ∃ w w', NewParquetWriter description collection = Ok w
    ∧ write_rows collection rows w = (w', Ok tt)
    ∧ ∀ f, f ∈ cs_Fields s → ∃ b, pw_builders w' !! fs_Name f = Some b
        ∧ bd_type b = type_of f ∧ bd_items b = map (λ r, cell pkField r f) rows.
Proof.
  intros Hs Hpk Hnd Hok Hrows.
  destruct (new_builders_ok (cs_Fields s) ∅) as (m & Hm & Hin & _); [|done|].
  { eapply list.Forall_impl; [exact Hok|]. apply field_ok_type. }
  unfold NewParquetWriter. rewrite Hs, Hm. simpl.
  eexists. destruct (write_rows_ok collection s pkField has rows
    (MkParquetWriter (map (arrow_field description) (cs_Fields s)) m
       (foldl (λ m '(name, t), <[name := t]> m) ∅ (map (arrow_field description) (cs_Fields s))))
    (λ _, []) Hs Hpk Hnd Hok Hrows) as (w' & Hw' & Hcols).
  { apply list.Forall_forall. intros f Hf. exists (NewBuilder (type_of f)). cbn [pw_builders].
    destruct (bd_New_law (type_of f)) as [Ht Hi]. rewrite Ht, Hi. split; [by apply Hin|done]. }
  exists w'. split; [done|]. split; [done|]. rewrite list.Forall_forall in Hcols. exact Hcols.
Qed.

(** The fields of a collection's schema have no type parameters here, so the width of a
    vector column is computed as 0, and the first vector written panics. *)
Theorem ParquetWriter_vector_panics f x xs (w : ParquetWriter B) m :
  fs_DataType f = 101 → new_builders [arrow_field description f] ∅ = Ok m → pw_builders w = m →
  ∃ why, (writeParquetField w (fs_DataType f) (fs_Name f) (VFloat32s (x :: xs))).2 = Panic why.
Proof.
  intros Ht Hm Hw. unfold arrow_field in Hm. cbn [mf_DataType NewFieldSchemaFromBase] in Hm.
  assert (GetDim (NewFieldSchemaFromBase f (description f)) = Err (Errorf "field not has dim property")) as Hd.
  { unfold GetDim. cbn [mf_DataType mf_Properties NewFieldSchemaFromBase]. by rewrite Ht. }
  rewrite Hd, Ht in Hm. change (ToArrowDataType 101 0) with (Some (FixedSizeBinaryType 0)) in Hm.
  cbn in Hm. injection Hm as <-.
  rewrite Ht. cbn. unfold AppendFloatVector, AppendBuilder. rewrite Hw, lookup_insert_eq.
  destruct (bd_New_law (FixedSizeBinaryType 0)) as [Htype _].
  rewrite bd_kind_law, Htype, bool_decide_true by done.
  destruct (bd_Append_short _ 0 (float_bytes (x :: xs)) Htype) as [why ->]; [done| |].
  - unfold float_bytes. simpl. rewrite zlen_cons. pose proof (zlen_nonneg (le_put 3 (x / 256) ++ concat (map (le_put 4) xs))) as Hz.
    simpl in Hz. lia.
  - simpl. by exists why.
Qed.

(** [Flush] notices columns of different lengths unless the shorter ones are empty and come
    first; columns of one length are all taken. *)
Lemma flush_columns_same (order : list (string * B)) n rows cols :
  Forall (λ c, bd_Len c.2 = n) order → rows = 0 ∨ rows = n →
  flush_columns order rows cols
  = Ok (cols ++ order, if bool_decide (order = []) then rows else n).
Proof.
  revert rows cols. induction order as [|[f b] order IH]; intros rows cols Hall Hr.
  { simpl. by rewrite app_nil_r. }
  apply list.Forall_cons in Hall as [Hb Hall]. simpl in Hb.
  rewrite (bool_decide_false ((f, b) :: order = [])) by done.
  cbn [flush_columns]. rewrite Hb.
  assert (bool_decide (rows ≠ 0) && bool_decide (rows ≠ n) = false) as ->.
  { destruct Hr as [->| ->]; [done|]. by rewrite (bool_decide_false (n ≠ n)), andb_false_r by tauto. }
  rewrite IH by auto. rewrite <-app_assoc. by case_bool_decide.
Qed.

Theorem Flush_takes_columns (order : list (string * B)) n :
  order ≠ [] → Forall (λ c, bd_Len c.2 = n) order → Flush order = Ok (order, n).
Proof.
  intros Hne Hall. unfold Flush. rewrite (flush_columns_same _ n) by auto.
  by rewrite bool_decide_false.
Qed.
End writer_properties.

(** ** Builders that keep their items *)
Definition typed_append (b : arrow_type * list any) (v : any) : res (arrow_type * list any) :=
  match b.1, v with
  | FixedSizeBinaryType w, VBytes [] => Ok (b.1, b.2 ++ [VBytes (replicate (Z.to_nat w) x00)])
  | FixedSizeBinaryType w, VBytes bs =>
      if bool_decide (zlen bs = w) then Ok (b.1, b.2 ++ [v]) else Panic "array: invalid binary length"
  | _, _ => Ok (b.1, b.2 ++ [v])
  end.

#[export] Instance list_builders : ArrowBuilders (arrow_type * list any) := {|
  NewBuilder t := (t, []);
  bd_kind b := kind_of b.1;
  bd_AppendValue := typed_append;
  bd_Len b := zlen b.2;
|}.

#[export] Program Instance list_builders_laws : ArrowBuildersLaws (arrow_type * list any) := {|
  bd_type := fst; bd_items := snd
|}.
Next Obligation. done. Qed.
Next Obligation. done. Qed.
Next Obligation.
  intros [t vs] v Hk Hfit. simpl in *. unfold typed_append; simpl. destruct t as [k|w]; [by eauto|].
  destruct v as [| | | | | | | | | |[|b bs]| | | |]; try done; simpl in *.
  - exists (FixedSizeBinaryType w, vs ++ [VBytes []]). by subst w.
  - rewrite bool_decide_true by done. by eauto.
Qed.
Next Obligation.
  intros [t vs] w [|b bs] Ht Hne Hl; simpl in *; [done|]. subst t. unfold typed_append; simpl.
  rewrite bool_decide_false by done. by eauto.
Qed.
Next Obligation. done. Qed.

Definition pq_field (id : Z) (name : string) (t : Z) (pk : bool) : FieldSchema :=
  MkFieldSchema id name t pk false false false false None [] "".
Definition pq_fields : list FieldSchema :=
  [pq_field 0 "RowID" 5 false; pq_field 1 "Timestamp" 5 false; pq_field 100 "id" 5 true;
   pq_field 101 "city" 21 false].
Definition pq_collection : Collection :=
  NewCollection (with_Schema (sample_info 1 0 0)
    (with_Fields sample_schema pq_fields [])) "key".
Definition pq_rows : list Row :=
  [MkRow 1 10 (VInt64 7) {["city" := VString "x"]}; MkRow 2 11 (VInt64 8) {["city" := VString "y"]}].

Lemma ParquetWriter_columns_witness :
  ∃ w w', NewParquetWriter fs_rest pq_collection = Ok w
    ∧ write_rows fs_rest pq_collection pq_rows w = (w', Ok tt)
    ∧ (pw_builders w' !! "city" : option (arrow_type * list any))
      = Some (Primitive KString, [VString "x"; VString "y"]).
Proof.
  destruct (ParquetWriter_columns (B:=arrow_type * list any) fs_rest pq_collection
    (with_Fields sample_schema pq_fields []) (MkModelField 100 "id" true false 5 "" ∅) true pq_rows)
    as (w & w' & Hw & Hrows & Hcols).
  1-2: reflexivity.
  - clean_dec.
  - clean_dec.
  - repeat (constructor; [repeat (constructor; [reflexivity|]); constructor|]). constructor.
  - exists w, w'. split; [exact Hw|]. split; [exact Hrows|].
    destruct (Hcols (pq_field 101 "city" 21 false)) as ([t vs] & Hb & Ht & Hi); [clean_dec|].
    simpl in Hb, Ht, Hi. subst. exact Hb.
Defined.

Lemma ParquetWriter_vector_panics_witness :
  ∃ why, (writeParquetField (MkParquetWriter [] {["v" := (FixedSizeBinaryType 0, @nil any)]} ∅)
            101 "v" (VFloat32s [1; 2])).2 = Panic why.
Proof.
  apply (ParquetWriter_vector_panics fs_rest (pq_field 102 "v" 101 false) 1 [2]
           (MkParquetWriter [] {["v" := (FixedSizeBinaryType 0, @nil any)]} ∅)
           {["v" := (FixedSizeBinaryType 0, @nil any)]}); reflexivity.
Defined.

Lemma Flush_takes_columns_witness :
  Flush [("a", (Primitive KInt8, [VInt8 1])); ("b", (Primitive KBoolean, [VBool true]))]
  = Ok ([("a", (Primitive KInt8, [VInt8 1])); ("b", (Primitive KBoolean, [VBool true]))], 1).
Proof. apply Flush_takes_columns; [discriminate|]. repeat constructor. Defined.

(** An empty column that comes first goes unnoticed. *)
Example Flush_misses_empty :
  Flush [("a", (Primitive KInt8, [])); ("b", (Primitive KBoolean, [VBool true]))]
  = Ok ([("a", (Primitive KInt8, [])); ("b", (Primitive KBoolean, [VBool true]))], 1)
  ∧ Flush [("b", (Primitive KBoolean, [VBool true])); ("a", (Primitive KInt8, []))]
    = Err (Errorf "columns row count differs").
Proof. split; reflexivity. Qed.
