(* ===== verification/PartitionKey.v ===== *)
(** * Checking partition keys

    Models [states/check_partition_key.go], [states/hash.go] and the reading of binlogs in
    [states/binlog.go].  A row of a collection with a partition key belongs to the partition
    whose index is the hash of its key; the command reads the rows of the segments and
    reports those that are elsewhere and not deleted.  The murmur hash and the encoding of
    JSON are interfaces, and so is the object store. *)

From S2P Require Import DeltaData Serde.
From S2P Require Export ParquetWriter.

(** ** [hash.go] *)

(** [murmur3.New32]: the sum of the bytes written. *)
Class Murmur3 := { murmur3_Sum32 : list byte → Z }.

(** [crc32.ChecksumIEEE], bit by bit. *)
Definition crc_bit (c : Z) : Z :=
  if Z.testbit c 0 then Z.lxor (Z.shiftr c 1) 0xedb88320 else Z.shiftr c 1.
Definition crc_byte (c : Z) (b : byte) : Z := Nat.iter 8 crc_bit (Z.lxor c (Z_of_byte b)).
Definition ChecksumIEEE (bs : list byte) : Z := Z.lxor (foldl crc_byte 0xffffffff bs) 0xffffffff.

Example ChecksumIEEE_check : ChecksumIEEE (bytes_of_string "123456789") = 0xcbf43926.
Proof. reflexivity. Qed.

Definition substringLengthForCRC : nat := 100.

Section hash.
Context `{Murmur3}.

(** The writes of a hash do not fail. *)
Definition Hash32Bytes (b : list byte) : Z := Z.land (murmur3_Sum32 b) 0x7fffffff.
Definition Hash32Uint64 (v : Z) : Z := Hash32Bytes (le_put 8 v).
Definition Hash32Int64 (v : Z) : Z := Hash32Uint64 (uint64 v).
Definition Hash32String (s : string) : Z := Hash32Bytes (bytes_of_string s).
Definition HashString2Uint32 (v : string) : Z :=
  ChecksumIEEE (take substringLengthForCRC (bytes_of_string v)).
End hash.

(** ** [binlog.go]: the rows of a batch of binlogs *)

(** [strings.ReplaceAll]. *)
Definition ReplaceAll (s old new : string) : string := Join new (SplitStr s old).

Record BinlogIterator := MkBinlogIterator {
  it_rowIDs : list Z;
  it_timestamps : list Z;
  it_pks : option PrimaryKeys;       (* nil for other types of primary keys *)
  it_data : gmap Z (list any);
  it_rows : Z;
}.

Section iterator.
Context {F C J : Type} `{Parquet F C} `{JsonMap J} `{MapOrder}.
Context (description : FieldSchema → string).

(** The methods of a missing reader panic. *)
Definition read_from {A} (readers : gmap Z (BinlogReader J)) (id : Z) (next : reader A) : res A :=
  match readers !! id with
  | None => Panic nil_dereference
  | Some r => '(a, _) ← next (blr_reader r); Ok a
  end.

Definition readerToSlice (readers : gmap Z (BinlogReader J)) (id dataType : Z) : res (list any) :=
  match dataType with
  | 1 => map VBool <$> read_from readers id NextBoolEventReader
  | 2 => map VInt8 <$> read_from readers id NextInt8EventReader
  | 3 => map VInt16 <$> read_from readers id NextInt16EventReader
  | 4 => map VInt32 <$> read_from readers id NextInt32EventReader
  | 5 => map VInt64 <$> read_from readers id NextInt64EventReader
  | 10 => map VFloat32 <$> read_from readers id NextFloat32EventReader
  | 11 => map VFloat64 <$> read_from readers id NextFloat64EventReader
  | 20 | 21 => map VString <$> read_from readers id NextVarcharEventReader
  | 23 => map VBytes <$> read_from readers id NextByteSliceEventReader
  | 101 => map VFloat32s <$> read_from readers id NextFloatVectorEventReader
  | 100 => map VBytes <$> read_from readers id NextBinaryVectorEventReader
  | _ => Err (Errorf "data type not supported yet")
  end.

(** [idField]: the last field with an identifier; a missing one has the zero type. *)
Definition fields_by_id (fields : list FieldSchema) : gmap Z FieldSchema :=
  foldl (λ m f, <[fs_FieldID f := f]> m) ∅ fields.

Definition read_columns (readers : gmap Z (BinlogReader J)) (idField : gmap Z FieldSchema)
    (pkID : Z) : list (Z * BinlogReader J) → gmap Z (list any) → res (gmap Z (list any)) :=
  foldM (λ '(fieldID, _) data,
    if bool_decide (fieldID < 100) || bool_decide (fieldID = pkID) then Ok data
    else
      column ← readerToSlice readers fieldID (from_option fs_DataType 0 (idField !! fieldID));
      Ok (<[fieldID := column]> data)).

Definition read_pks (readers : gmap Z (BinlogReader J)) (pkField : ModelFieldSchema)
    : res (option PrimaryKeys) :=
  if bool_decide (mf_DataType pkField = DataType_Int64) then
    intPks ← read_from readers (mf_FieldID pkField) NextInt64EventReader;
    Ok (Some (Int64_AppendRaw [] intPks))
  else if bool_decide (mf_DataType pkField = DataType_VarChar) then
    strPks ← read_from readers (mf_FieldID pkField) NextVarcharEventReader;
    Ok (Some (Varchar_AppendRaw [] 0 strPks))
  else Ok None.

Definition NewBinlogIterator (collection : Collection) (readers : gmap Z (BinlogReader J))
    : res BinlogIterator :=
  rowIDs ← read_from readers 0 NextInt64EventReader;
  timestamps ← read_from readers 1 NextInt64EventReader;
  '(pkField, _) ← GetPKField description collection;
  pks ← read_pks readers pkField;
  match ci_Schema (co_proto collection) with
  | None => Panic nil_dereference
  | Some s =>
      data ← read_columns readers (fields_by_id (cs_Fields s)) (mf_FieldID pkField) (range readers) ∅;
      Ok (MkBinlogIterator rowIDs timestamps pks data (zlen rowIDs))
  end.

(** One row of [Range]. *)
Definition iter_row (iter : BinlogIterator) (i : Z) : res (Z * Z * PrimaryKey * gmap Z any) :=
  row ← foldM (λ '(field, columns) row, v ← go_index columns i; Ok (<[field := v]> row))
          (range (it_data iter)) (∅ : gmap Z any);
  rowID ← go_index (it_rowIDs iter) i;
  ts ← go_index (it_timestamps iter) i;
  match it_pks iter with
  | None => Panic nil_dereference
  | Some pks => pk ← PKs_Get pks i; Ok (rowID, ts, pk, row)
  end.

(** [fn] threads a state of its own; the first error ends the loop. *)
Fixpoint range_rows {St} (n : nat) (iter : BinlogIterator) (i : Z)
    (fn : Z * Z * PrimaryKey * gmap Z any → St → St * res unit) (st : St) : St * res unit :=
  match n with
  | O => (st, Ok tt)
  | S n =>
      match iter_row iter i with
      | Ok row =>
          let '(st, e) := fn row st in
          match e with Ok _ => range_rows n iter (i + 1) fn st | e => (st, e) end
      | Err e => (st, Err e)
      | Panic w => (st, Panic w)
      end
  end.
Definition iterator_Range {St} (iter : BinlogIterator)
    (fn : Z * Z * PrimaryKey * gmap Z any → St → St * res unit) (st : St) : St * res unit :=
  range_rows (Z.to_nat (it_rows iter)) iter 0 fn st.

(** ** [ScanBinlogs] *)

(** The readers of the [idx]-th binlogs of the fields that are asked for. *)
Definition open_readers (getObject : string → res (list byte)) (rootPath : string) (pkID : Z)
    (selectField : Z → bool) (binlogs : list ModelFieldBinlog) (idx : Z)
    : res (gmap Z (BinlogReader J)) :=
  foldM (λ fieldBinlog (m : gmap Z (BinlogReader J)),
    let id := mfb_FieldID fieldBinlog in
    if bool_decide (id ≠ 0) && bool_decide (id ≠ 1) && bool_decide (id ≠ pkID) && negb (selectField id)
    then Ok m
    else
      binlog ← go_index (mfb_Binlogs fieldBinlog) idx;
      object ← getObject (ReplaceAll (bl_LogPath binlog) "ROOT_PATH" rootPath);
      reader ← NewBinlogReader object;
      Ok (<[id := reader]> m)) binlogs ∅.

(** The loop over the binlogs of the primary key: an error is printed and ends it. *)
Fixpoint scan_batches {St} (open : Z → res (gmap Z (BinlogReader J)))
    (fn : gmap Z (BinlogReader J) → St → St * res unit) (n : nat) (idx : Z) (st : St)
    : St * res unit :=
  match n with
  | O => (st, Ok tt)
  | S n =>
      match open idx with
      | Ok readers =>
          let '(st, e) := fn readers st in
          match e with Ok _ => scan_batches open fn n (idx + 1) st | e => (st, e) end
      | Err _ => (st, Ok tt)
      | Panic w => (st, Panic w)
      end
  end.

(** [fn] has no result in the program: here it is [Ok] or a panic. *)
Definition ScanBinlogs {St} (getObject : string → res (list byte)) (rootPath : string)
    (collection : Collection) (binlogs : list ModelFieldBinlog) (selectField : Z → bool)
    (fn : gmap Z (BinlogReader J) → St → St * res unit) (st : St) : St * res unit :=
  match ci_Schema (co_proto collection) with
  | None => (st, Panic nil_dereference)
  | Some s =>
      match List.find fs_IsPrimaryKey (cs_Fields s) with
      | None => (st, Ok tt)
      | Some pkField =>
          match List.find (λ b, bool_decide (mfb_FieldID b = fs_FieldID pkField)) binlogs with
          | None => (st, Ok tt)
          | Some pkFieldData =>
              scan_batches
                (open_readers getObject rootPath (fs_FieldID pkField) selectField binlogs)
                fn (length (mfb_Binlogs pkFieldData)) 0 st
          end
      end
  end.
End iterator.

(** ** [check_partition_key.go] *)

(** [json.Marshal] of the fields of a row. *)
Class RowJson := { row_Marshal : gmap string any → res (list byte) }.

Record CheckParam := MkCheckParam {
  cp_StopIfErr : bool;
  cp_OutputPrimaryKey : bool;
  cp_OutputFormat : string;
}.

(** What is written: a line on the terminal, or one of the segment's file. *)
Inductive Reported :=
  | Printed (pk value : any)
  | Written (line : list byte).

Definition errQuickExit : goerr := Errorf "quick exit".

Section check.
Context {F C J R B : Type} `{Parquet F C} `{JsonMap J} `{JsonDoc R} `{MapOrder} `{Murmur3}.
Context `{RowJson} `{ArrowBuilders B}.
Context (description : FieldSchema → string) (IsPartitionKey : FieldSchema → bool).

(** The outputs, the parquet writer (nil for the other formats), and the counters. *)
Record CheckState := MkCheckState {
  ck_outputs : list Reported;
  ck_writer : option (ParquetWriter B);
  ck_errCnt : Z;
  ck_found : bool;
}.
Definition report (st : CheckState) (l : list Reported) : CheckState :=
  MkCheckState (ck_outputs st ++ l) (ck_writer st) (ck_errCnt st) (ck_found st).

(** *** The deletes of a segment *)

(** The events of a delta log; as many rounds as there are bytes are enough. *)
Fixpoint read_deltas (fuel : nat) (dataType : Z) (rest : list byte) (data : DeltaData)
    : option (res DeltaData) :=
  match fuel with
  | O => None
  | S fuel =>
      match Deltalog_NextEventReader (F:=F) dataType rest with
      | Ok (deltaData, rest) =>
          match DeltaData_Merge data deltaData with
          | Ok data => read_deltas fuel dataType rest data
          | r => Some r
          end
      | Err EOF => Some (Ok data)
      | Err e => Some (Err e)
      | Panic w => Some (Panic w)
      end
  end.

Definition read_delta_file (dataType : Z) (rest : list byte) (data : DeltaData) : res DeltaData :=
  default (Panic "out of fuel") (read_deltas (S (length rest)) dataType rest data).

(** A log that cannot be opened is left out. *)
Definition add_delta_log (getObject : string → res (list byte)) (rootPath : string) (dataType : Z)
    (binlog : Binlog) (data : DeltaData) : res DeltaData :=
  match (result ← getObject (ReplaceAll (bl_LogPath binlog) "ROOT_PATH" rootPath);
         NewDeltalogReader (J:=J) result) with
  | Ok (_, rest) => read_delta_file dataType rest data
  | Err _ => Ok data
  | Panic w => Panic w
  end.

Definition DownloadDeltalogs (getObject : string → res (list byte)) (rootPath : string)
    (collection : Collection) (deltalogs : list ModelFieldBinlog) : res DeltaData :=
  match ci_Schema (co_proto collection) with
  | None => Panic nil_dereference
  | Some s =>
      match List.find fs_IsPrimaryKey (cs_Fields s) with
      | None => Err (Errorf "pk not found")
      | Some pkField =>
          foldM (add_delta_log getObject rootPath (fs_DataType pkField))
            (concat (map mfb_Binlogs deltalogs)) (NewDeltaData (fs_DataType pkField))
      end
  end.

(** *** The partitions of a collection *)

(** The index at the end of a partition's name; the others are entered as [-1]. *)
Definition partition_entry (n : Z) (p : PartitionInfo) : Z * Z :=
  match list.last (Split "_" (pi_PartitionName p)), Split "_" (pi_PartitionName p) with
  | Some last, _ :: _ :: _ =>
      match ParseInt last with
      | Some index =>
          if bool_decide (index >= n) || bool_decide (index < 0) then (-1, 0)
          else (pi_PartitionID p, uint32 index)
      | None => (-1, 0)
      end
  | _, _ => (-1, 0)
  end.
Definition partIdx (partitions : list PartitionInfo) : gmap Z Z :=
  foldl (λ m p, let '(id, idx) := partition_entry (zlen partitions) p in <[id := idx]> m) ∅ partitions.

(** *** A row *)
Definition deleted (deltalog : DeltaData) (pk : PrimaryKey) (ts : Z) : res bool :=
  DeltaData_Range deltalog (λ delPk delTs d,
    if PK_EQ delPk pk && bool_decide (ts < int64 delTs) then (true, false) else (d, true)) false.

Definition key_hash (partKeyField : FieldSchema) (v : any) : res Z :=
  let t := fs_DataType partKeyField in
  if bool_decide (t = DataType_Int64) then
    match v with VInt64 z => Ok (Hash32Int64 z) | _ => not_a "int64" end
  else if bool_decide (t = DataType_VarChar) || bool_decide (t = DataType_String) then
    match v with VString s => Ok (HashString2Uint32 s) | _ => not_a "string" end
  else Err (Errorf "unexpected partition key field type").

(** The data by the names of the fields. *)
Definition named_row (idField : gmap Z FieldSchema) (data : gmap Z any) : res (gmap string any) :=
  foldM (λ '(k, v) m,
    match idField !! k with
    | Some f => Ok (<[fs_Name f := v]> m)
    | None => Panic nil_dereference
    end) (range data) ∅.

(** A row that does not follow the rule. *)
Definition report_row (p : CheckParam) (collection : Collection) (partKeyField : FieldSchema)
    (value : any) (row : Z * Z * PrimaryKey * gmap Z any) (output : gmap string any)
    (st : CheckState) : CheckState * res unit :=
  let '(rowID, ts, pk, _) := row in
  if bool_decide (cp_OutputFormat p = "stdout") then
    (report st (if cp_OutputPrimaryKey p then [Printed (PK_GetValue pk) value] else []),
     if cp_StopIfErr p then Err errQuickExit else Ok tt)
  else if bool_decide (cp_OutputFormat p ∈ ["json"; "json-pk"]) then
    match row_Marshal output with
    | Ok bs => (report st [Written bs], Ok tt)
    | Err e => (st, Err e)
    | Panic w => (st, Panic w)
    end
  else if bool_decide (cp_OutputFormat p = "parquet") then
    match ck_writer st with
    | None => (st, Panic nil_dereference)
    | Some w =>
        let '(w, e) := writeParquetData description collection w rowID ts (PK_GetValue pk) output in
        (MkCheckState (ck_outputs st) (Some w) (ck_errCnt st) (ck_found st),
         match e with Panic why => Panic why | _ => Ok tt end)
    end
  else (st, Ok tt).

(** Is the row not deleted, and in another partition than its key's? *)
Definition misplaced (deltalog : DeltaData) (partKeyField : FieldSchema) (n targetIndex : Z)
    (row : Z * Z * PrimaryKey * gmap Z any) : res bool :=
  let '(rowID, ts, pk, data) := row in
  d ← deleted deltalog pk ts;
  if d : bool then Ok false
  else
    hashVal ← key_hash partKeyField (default VNil (data !! fs_FieldID partKeyField));
    if bool_decide (uint32 n = 0) then Panic "integer divide by zero"
    else Ok (bool_decide (hashVal mod uint32 n ≠ targetIndex)).

Definition check_row (p : CheckParam) (collection : Collection) (partKeyField : FieldSchema)
    (pkName : string) (idField : gmap Z FieldSchema) (deltalog : DeltaData) (n targetIndex : Z)
    (row : Z * Z * PrimaryKey * gmap Z any) (st : CheckState) : CheckState * res unit :=
  match misplaced deltalog partKeyField n targetIndex row with
  | Ok false => (st, Ok tt)
  | Ok true =>
      let st := MkCheckState (ck_outputs st) (ck_writer st) (int64 (ck_errCnt st + 1)) true in
      match named_row idField row.2 with
      | Ok output =>
          report_row p collection partKeyField (default VNil (row.2 !! fs_FieldID partKeyField)) row
            (<[pkName := PK_GetValue row.1.2]> output) st
      | Err e => (st, Err e)
      | Panic w => (st, Panic w)
      end
  | Err e => (st, Err e)
  | Panic w => (st, Panic w)
  end.

(** *** A segment *)

(** The callback of [ScanBinlogs]: errors are printed, a panic goes on. *)
Definition check_batch (p : CheckParam) (collection : Collection) (partKeyField : FieldSchema)
    (pkName : string) (idField : gmap Z FieldSchema) (deltalog : DeltaData) (n targetIndex : Z)
    (readers : gmap Z (BinlogReader J)) (st : CheckState) : CheckState * res unit :=
  match NewBinlogIterator (F:=F) description collection readers with
  | Ok iter =>
      let '(st, e) := iterator_Range iter
        (check_row p collection partKeyField pkName idField deltalog n targetIndex) st in
      (st, match e with Panic w => Panic w | _ => Ok tt end)
  | Err _ => (st, Ok tt)
  | Panic w => (st, Panic w)
  end.

Definition field_selector (p : CheckParam) (partKeyField : FieldSchema) (field : Z) : bool :=
  if bool_decide (cp_OutputFormat p ∈ ["stdout"; "json-pk"])
  then bool_decide (field = fs_FieldID partKeyField) else true.

(** The closure over a segment; [create] is the outcome of [os.Create]. *)
Definition check_segment (p : CheckParam) (create : res unit) (getObject : string → res (list byte))
    (rootPath : string) (collection : Collection) (partKeyField : FieldSchema) (pkName : string)
    (idField : gmap Z FieldSchema) (n targetIndex : Z) (binlogs deltalogs : list ModelFieldBinlog)
    (st : CheckState) : CheckState * res unit :=
  let opened : res (option (ParquetWriter B)) :=
    if bool_decide (cp_OutputFormat p ∈ ["json"; "json-pk"]) then _ ← create; Ok None
    else if bool_decide (cp_OutputFormat p = "parquet") then
      _ ← create; w ← NewParquetWriter description collection; Ok (Some w)
    else Ok None in
  match (w ← opened;
         deltalog ← DownloadDeltalogs getObject rootPath collection deltalogs;
         Ok (w, deltalog)) with
  | Ok (w, deltalog) =>
      ScanBinlogs getObject rootPath collection binlogs (field_selector p partKeyField)
        (check_batch p collection partKeyField pkName idField deltalog n targetIndex)
        (MkCheckState (ck_outputs st) w 0 (ck_found st))
  | Err e => (st, Err e)
  | Panic w => (st, Panic w)
  end.

(** *** The command *)
Context {K : Type} `{MetaKV K} `{ProtoCodec CollectionInfo} `{ProtoCodec FieldSchema}.
Context `{ProtoCodec StructArrayFieldSchema} `{ProtoCodec FunctionSchema}.
Context `{ProtoCodec PartitionInfo} `{ProtoCodec SegmentInfo} `{ProtoCodec PbFieldBinlog}.

Definition SegmentState_NotExist : Z := 1.

(** The loop over the segments, with the errors counted so far. *)
Fixpoint check_segments (p : CheckParam) (create : Z → res unit)
    (getObject : string → res (list byte)) (rootPath : string) (cli : K) (collection : Collection)
    (partKeyField : FieldSchema) (pkName : string) (idField : gmap Z FieldSchema) (n : Z)
    (index : gmap Z Z) (segments : list (ModelSegment K)) (st : CheckState) (collectionErrs : Z)
    : CheckState * Z * res unit :=
  match segments with
  | [] => (st, collectionErrs, Ok tt)
  | segment :: segments =>
      let info := sg_info segment in
      if bool_decide (si_State info ∈ [SegmentState_Dropped; SegmentState_NotExist]) then
        check_segments p create getObject rootPath cli collection partKeyField pkName idField n
          index segments st collectionErrs
      else
        let '(segment, deltalogs) := GetDeltalogs cli segment in
        let '(_, binlogs) := GetBinlogs cli segment in
        let '(st, e) := check_segment p (create (si_ID info)) getObject rootPath collection
          partKeyField pkName idField n (default 0 (index !! si_PartitionID info)) binlogs deltalogs st in
        match e with
        | Ok _ =>
            if cp_StopIfErr p && ck_found st then (st, collectionErrs, Ok tt)
            else check_segments p create getObject rootPath cli collection partKeyField pkName
                   idField n index segments st (int64 (collectionErrs + ck_errCnt st))
        | e => (st, collectionErrs, e)
        end
  end.

(** A collection with a partition key, with its partitions. *)
Record SuspectCollection := MkSuspect {
  su_collection : Collection;
  su_partitions : list PartitionInfo;
  su_partKeyField : FieldSchema;
}.

(** A collection whose partitions cannot be listed is left out. *)
Definition suspect (cli : K) (basePath : string) (info : Collection) : res (list SuspectCollection) :=
  match ci_Schema (co_proto info) with
  | None => Panic nil_dereference
  | Some s =>
      match List.find IsPartitionKey (cs_Fields s) with
      | None => Ok []
      | Some partKeyField =>
          match ListCollectionPartitions (T:=PartitionInfo) cli basePath (ci_ID (co_proto info)) with
          | Ok partitions => Ok [MkSuspect info (map GetProto partitions) partKeyField]
          | Err _ => Ok []
          | Panic w => Panic w
          end
      end
  end.

(** What is printed at the end of a collection: its name, whether an error was found, and
    how many were counted. *)
Definition check_collection (p : CheckParam) (create : Z → Z → res unit)
    (getObject : string → res (list byte)) (rootPath : string) (cli : K) (basePath : string)
    (su : SuspectCollection) (outputs : list Reported)
    : list Reported * res (string * bool * Z) :=
  let info := co_proto (su_collection su) in
  match GetPKField description (su_collection su), ci_Schema info with
  | Ok (pkField, _), Some s =>
      match ListSegments cli basePath [λ seg, bool_decide (si_CollectionID (sg_info seg) = ci_ID info)] with
      | Ok segments =>
          let '(st, errs, e) := check_segments p (create (ci_ID info)) getObject rootPath cli
            (su_collection su) (su_partKeyField su) (mf_Name pkField) (fields_by_id (cs_Fields s))
            (zlen (su_partitions su)) (partIdx (su_partitions su)) segments
            (MkCheckState outputs None 0 false) 0 in
          (ck_outputs st, _ ← e; Ok (cs_Name s, ck_found st, errs))
      | Err e => (outputs, Err e)
      | Panic w => (outputs, Panic w)
      end
  | _, _ => (outputs, Panic nil_dereference)
  end.

Fixpoint check_collections (p : CheckParam) (create : Z → Z → res unit)
    (getObject : string → res (list byte)) (rootPath : string) (cli : K) (basePath : string)
    (sus : list SuspectCollection) (outputs : list Reported) (lines : list (string * bool * Z))
    : list Reported * list (string * bool * Z) * res unit :=
  match sus with
  | [] => (outputs, lines, Ok tt)
  | su :: sus =>
      let '(outputs, r) := check_collection p create getObject rootPath cli basePath su outputs in
      match r with
      | Ok line => check_collections p create getObject rootPath cli basePath sus outputs (lines ++ [line])
      | Err e => (outputs, lines, Err e)
      | Panic w => (outputs, lines, Panic w)
      end
  end.

(** [minio] is the outcome of [GetMinioClientFromCfg]: how to get objects, and the root path. *)
Definition CheckPartitionKeyCommand (p : CheckParam) (CollectionID : Z)
    (minio : res ((string → res (list byte)) * string)) (create : Z → Z → res unit)
    (cli : K) (basePath : string) : list Reported * list (string * bool * Z) * res unit :=
  match (collections ← ListCollections cli basePath
           [λ c, bool_decide (CollectionID = 0) || bool_decide (ci_ID (co_proto c) = CollectionID)];
         m ← minio;
         sus ← mapR (suspect cli basePath) collections;
         Ok (m, concat sus)) with
  | Ok ((getObject, rootPath), sus) =>
      check_collections p create getObject rootPath cli basePath sus [] []
  | Err e => ([], [], Err e)
  | Panic w => ([], [], Panic w)
  end.
End check.
Arguments CheckState : clear implicits.

(** ** Properties *)

(** *** The hash of strings *)

Lemma lxor_range w a b : 0 < w → in_u w a → in_u w b → in_u w (Z.lxor a b).
Proof.
  unfold in_u. intros Hw [Ha Ha'] [Hb Hb']. split; [by apply Z.lxor_nonneg|].
  destruct (decide (Z.lxor a b = 0)) as [->|Hne]; [by apply Z.pow_pos_nonneg; lia|].
  apply Z.log2_lt_pow2; [pose proof (Z.lxor_nonneg a b); lia|].
  assert (∀ c, 0 ≤ c → c < 2 ^ w → Z.log2 c < w) as Hlog.
  { intros c Hc0 Hc. destruct (decide (c = 0)) as [->|]; [done|apply Z.log2_lt_pow2; lia]. }
  eapply Z.le_lt_trans; [by apply Z.log2_lxor|]. apply Z.max_lub_lt; auto.
Qed.

Lemma crc_bit_range c : in_u 32 c → in_u 32 (crc_bit c).
Proof.
  intros Hc. assert (in_u 32 (Z.shiftr c 1)) as Hs.
  { unfold in_u in *. rewrite Z.shiftr_div_pow2 by lia. split; [apply Z.div_pos; lia|].
    apply Z.div_lt_upper_bound; lia. }
  unfold crc_bit. case_match; [|done]. apply lxor_range; [lia|done|in_range].
Qed.

Lemma crc_byte_range c b : in_u 32 c → in_u 32 (crc_byte c b).
Proof.
  intros Hc. unfold crc_byte.
  assert (in_u 32 (Z.lxor c (Z_of_byte b))) as Hx.
  { apply lxor_range; [lia|done|]. pose proof (Z_of_byte_range b). unfold in_u. lia. }
  revert Hx. generalize (Z.lxor c (Z_of_byte b)) as x. intros x Hx.
  do 8 (apply crc_bit_range in Hx). exact Hx.
Qed.

(** The hash of a string is a [uint32], whatever the string; of two strings with the same
    first 100 bytes it is the same. *)
Theorem HashString2Uint32_bounds v :
  in_u 32 (HashString2Uint32 v)
  ∧ ∀ u, take 100 (bytes_of_string u) = take 100 (bytes_of_string v) →
      HashString2Uint32 u = HashString2Uint32 v.
Proof.
  split; [|by unfold HashString2Uint32, substringLengthForCRC; intros u ->].
  unfold HashString2Uint32, ChecksumIEEE. apply lxor_range; [lia| |in_range].
  assert (in_u 32 0xffffffff) as H0 by in_range. revert H0.
  generalize 0xffffffff as c, (take substringLengthForCRC (bytes_of_string v)) as bs.
  intros c bs. revert c. induction bs as [|b bs IH]; intros c Hc; [done|]. simpl. apply IH.
  by apply crc_byte_range.
Qed.

(** *** The indices of the partitions *)
Lemma partition_entry_suffix n base i p :
  pi_PartitionName p = base +:+ "_" +:+ FormatInt i → 0 ≤ i < n → n < 2 ^ 32 →
  partition_entry n p = (pi_PartitionID p, i).
Proof.
  intros Hname Hi Hn. unfold partition_entry. rewrite Hname.
  change ("_" +:+ FormatInt i) with (String "_" (FormatInt i)). rewrite Split_app.
  rewrite FormatInt_Split by done. rewrite last_snoc.
  destruct (Split "_" base) as [|s0 ss] eqn:E; [by destruct (Split_nonempty "_" base)|].
  assert (∃ x y l, (s0 :: ss) ++ [FormatInt i] = x :: y :: l) as (x & y & l & ->).
  { destruct ss as [|s1 ss]; simpl; eauto. }
  rewrite ParseInt_FormatInt by (unfold in_s; lia). rewrite !bool_decide_false by lia. simpl.
  by rewrite wrapu_id by (unfold in_u; lia).
Qed.

Lemma partIdx_foldl n (ps : list PartitionInfo) (m : gmap Z Z) id :
  (∀ p, p ∈ ps → (partition_entry n p).1 ≠ id) →
  foldl (λ m p, let '(id, idx) := partition_entry n p in <[id := idx]> m) m ps !! id = m !! id.
Proof.
  revert m. induction ps as [|p ps IH]; intros m Hps; [done|]. simpl.
  rewrite IH by (intros; apply Hps; by right).
  specialize (Hps p (list_elem_of_here _ _)). destruct (partition_entry n p) as [id' idx].
  by rewrite lookup_insert_ne.
Qed.

(** The partitions that Milvus makes for a partition key, whose names end in their index,
    get that index; one whose name has no suffix gets the index of the first, so that its
    rows are held against that. *)
Theorem partIdx_spec ps :
  zlen ps < 2 ^ 32 →
  (∀ base, NoDup (map pi_PartitionID ps) →
     (∀ i p, ps !! i = Some p → pi_PartitionName p = base +:+ "_" +:+ FormatInt (Z.of_nat i)) →
     ∀ i p, ps !! i = Some p → partIdx ps !! pi_PartitionID p = Some (Z.of_nat i))
  ∧ ∀ id, id ≠ -1 →
      (∀ p, p ∈ ps → pi_PartitionID p = id → Split "_" (pi_PartitionName p) = [pi_PartitionName p]) →
      default 0 (partIdx ps !! id) = 0.
Proof.
  intros Hlen. unfold partIdx. split.
  - intros base Hnd Hnames.
    assert (∀ i p, ps !! i = Some p → partition_entry (zlen ps) p = (pi_PartitionID p, Z.of_nat i)) as He.
    { intros i p Hp. eapply partition_entry_suffix; [by apply Hnames| |done].
      apply lookup_lt_Some in Hp. unfold zlen. lia. }
    intros i p Hp. revert He. generalize (zlen ps) as n. intros n He.
    rewrite <-(take_drop (S i) ps). rewrite foldl_app.
    rewrite (take_S_r _ _ _ Hp), foldl_app. simpl. rewrite He with (i := i) by done.
    rewrite partIdx_foldl; [by rewrite lookup_insert_eq|].
    intros q Hq Heq. apply list_elem_of_lookup in Hq as [j Hj]. rewrite lookup_drop in Hj.
    rewrite (He _ _ Hj) in Heq. simpl in Heq.
    assert (S i + j = i)%nat; [|lia].
    eapply (NoDup_lookup (map pi_PartitionID ps)); [done| |].
    + rewrite list_lookup_fmap, Hj. simpl. by rewrite Heq.
    + by rewrite list_lookup_fmap, Hp.
  - intros id Hid Hps. rewrite partIdx_foldl; [done|]. intros p Hp Heq.
    destruct (decide (pi_PartitionID p = id)) as [Hp'|Hp'].
    + unfold partition_entry in Heq. rewrite (Hps _ Hp Hp') in Heq. simpl in Heq. congruence.
    + unfold partition_entry in Heq. repeat case_match; simpl in Heq; congruence.
Qed.

(** ** The rows of an iterator *)
Abbreviation BinlogRow := (Z * Z * PrimaryKey * gmap Z any)%type.

Section iterator_properties.
Context `{MapOrder}.

Definition iter_holds (iter : BinlogIterator) (rows : list BinlogRow) : Prop :=
  it_rows iter = zlen rows ∧ ∀ i row, rows !! i = Some row → iter_row iter (Z.of_nat i) = Ok row.

(** What [Range] promises. *)
Fixpoint visit_rows {St} (fn : BinlogRow → St → St * res unit) (rows : list BinlogRow) (st : St)
    : St * res unit :=
  match rows with
  | [] => (st, Ok tt)
  | row :: rows =>
      let '(st, e) := fn row st in
      match e with Ok _ => visit_rows fn rows st | e => (st, e) end
  end.

Lemma range_rows_visit {St} iter (fn : BinlogRow → St → St * res unit) rows n i st :
  (∀ k row, rows !! k = Some row → iter_row iter (Z.of_nat (i + k)) = Ok row) → n = length rows →
  range_rows n iter (Z.of_nat i) fn st = visit_rows fn rows st.
Proof.
  revert n i st. induction rows as [|row rows IH]; intros n i st Hrows ->; [done|].
  simpl. pose proof (Hrows 0%nat row eq_refl) as H0. rewrite Nat.add_0_r in H0. rewrite H0.
  destruct (fn row st) as [st' [u|e|w]]; [|done..].
  replace (Z.of_nat i + 1) with (Z.of_nat (S i)) by lia. apply IH; [|done].
  intros k row' Hk. replace (S i + k)%nat with (i + S k)%nat by lia. by apply Hrows.
Qed.

Lemma iterator_Range_visit {St} iter (fn : BinlogRow → St → St * res unit) rows st :
  iter_holds iter rows → iterator_Range iter fn st = visit_rows fn rows st.
Proof.
  intros [Hn Hrows]. unfold iterator_Range. rewrite Hn. unfold zlen. rewrite Nat2Z.id.
  by apply (range_rows_visit iter fn rows _ 0%nat).
Qed.
End iterator_properties.

(** *** Making an iterator *)
Section new_iterator.
Context `{MapOrder}.

Lemma range_fields_NoDup {A} (m : gmap Z A) : NoDup (range m).*1.
Proof. rewrite range_perm. apply NoDup_fst_map_to_list. Qed.
Lemma elem_of_range {A} (m : gmap Z A) k v : (k, v) ∈ range m ↔ m !! k = Some v.
Proof. rewrite range_perm. apply elem_of_map_to_list. Qed.

(** A loop over a map that enters something for each key. *)
Lemma foldM_insert {A B} (f : Z * A → gmap Z B → res (gmap Z B)) (g : Z * A → option B) l m :
  NoDup l.*1 →
  (∀ kv m, kv ∈ l → f kv m = Ok (match g kv with Some v => <[kv.1 := v]> m | None => m end)) →
  ∃ m', foldM f l m = Ok m'
    ∧ (∀ kv, kv ∈ l → m' !! kv.1 = match g kv with Some v => Some v | None => m !! kv.1 end)
    ∧ ∀ k, k ∉ l.*1 → m' !! k = m !! k.
Proof.
  revert m. induction l as [|[k a] l IH]; intros m Hnd Hf.
  { exists m. split; [done|]. split; [by intros ? ?%elem_of_nil|done]. }
  apply list.NoDup_cons in Hnd as [Hk Hnd]. cbn [foldM]. rewrite Hf by (by left). cbn [mbind res_bind].
  destruct (IH (match g (k, a) with Some v => <[k := v]> m | None => m end) Hnd) as (m' & Hm' & Hin & Hout).
  { intros kv m1 Hkv. apply Hf. by right. }
  exists m'. split; [done|]. split.
  - intros kv [->|Hkv]%elem_of_cons.
    + simpl. rewrite Hout by done. destruct (g (k, a)); [by rewrite lookup_insert_eq|done].
    + rewrite Hin by done. destruct (g kv); [done|]. destruct (g (k, a)); [|done].
      apply lookup_insert_ne. intros Heq. apply Hk. rewrite Heq. exact (list_elem_of_fmap_2 fst _ _ Hkv).
  - intros k' [Hne Hk']%not_elem_of_cons. rewrite Hout by done. simpl in Hne.
    destruct (g (k, a)); [by rewrite lookup_insert_ne|done].
Qed.

Lemma go_index_lookup {A} (l : list A) i a : l !! i = Some a → go_index l (Z.of_nat i) = Ok a.
Proof. intros Hi. apply go_index_Ok. rewrite Nat2Z.id. split; [lia|done]. Qed.

(** The [i]-th values of columns that are long enough. *)
Lemma iter_row_columns (iter : BinlogIterator) i rowID ts pk pks :
  it_rowIDs iter !! i = Some rowID → it_timestamps iter !! i = Some ts →
  it_pks iter = Some pks → PKs_elems pks !! i = Some pk →
  (∀ k col, it_data iter !! k = Some col → is_Some (col !! i)) →
  ∃ row, iter_row iter (Z.of_nat i) = Ok (rowID, ts, pk, row)
    ∧ ∀ k, row !! k = it_data iter !! k ≫= λ col, col !! i.
Proof.
  intros Hid Hts Hpks Hpk Hcols. unfold iter_row.
  destruct (foldM_insert (λ '(field, columns) row, v ← go_index columns (Z.of_nat i); Ok (<[field:=v]> row))
    (λ kv, kv.2 !! i) (range (it_data iter)) ∅ (range_fields_NoDup _)) as (row & -> & Hin & Hout).
  { intros [k col] m Hk%elem_of_range. destruct (Hcols k col Hk) as [v Hv].
    rewrite (go_index_lookup _ _ _ Hv). simpl. by rewrite Hv. }
  exists row. simpl. rewrite (go_index_lookup _ _ _ Hid), (go_index_lookup _ _ _ Hts). simpl.
  rewrite Hpks, PKs_Get_spec, (go_index_lookup _ _ _ Hpk). split; [done|].
  intros k. destruct (it_data iter !! k) as [col|] eqn:Hk.
  - pose proof (Hin (k, col) (proj2 (elem_of_range _ _ _) Hk)) as Hr. simpl in Hr. rewrite Hr.
    simpl. by destruct (Hcols k col Hk) as [v ->].
  - simpl. rewrite Hout; [done|]. intros ([k' col] & -> & Hkc%elem_of_range)%list_elem_of_fmap.
    simpl in Hk. congruence.
Qed.

Context {F C J : Type} `{Parquet F C} `{JsonMap J} (description : FieldSchema → string).

(** The columns that are read, beside the row identifiers, time stamps and keys. *)
Definition is_column (readers : gmap Z (BinlogReader J)) (pkID k : Z) : bool :=
  bool_decide (is_Some (readers !! k)) && bool_decide (100 ≤ k) && bool_decide (k ≠ pkID).

Lemma is_column_present (readers : gmap Z (BinlogReader J)) pkID k r :
  readers !! k = Some r →
  is_column readers pkID k = negb (bool_decide (k < 100) || bool_decide (k = pkID)).
Proof.
  intros Hr. unfold is_column. rewrite Hr, (bool_decide_true (is_Some _)) by (by eexists).
  rewrite bool_decide_not, negb_orb. simpl. f_equal. rewrite <-bool_decide_not.
  apply bool_decide_ext. lia.
Qed.

Lemma list_choice {A} n (P : nat → A → Prop) :
  (∀ i, (i < n)%nat → ∃ a, P i a) → ∃ l, length l = n ∧ ∀ i a, l !! i = Some a → P i a.
Proof.
  induction n as [|n IH]; intros Hn; [by exists []|].
  destruct IH as (l & Hl & HP); [intros; apply Hn; lia|]. destruct (Hn n) as [a Ha]; [lia|].
  exists (l ++ [a]). split; [rewrite length_app; simpl; lia|].
  intros i b [Hi|[Hi Hb]]%lookup_app_Some; [by apply HP|].
  apply list_lookup_singleton_Some in Hb as [Hz <-]. by replace i with n by lia.
Qed.

(** When the readers deliver columns of one length, the iterator has that many rows, each
    with the values of the columns at its index. *)
Theorem NewBinlogIterator_rows collection (readers : gmap Z (BinlogReader J)) s pkField has
    rowIDs tss pks (col : Z → list any) :
  ci_Schema (co_proto collection) = Some s → GetPKField description collection = Ok (pkField, has) →
  read_from readers 0 (NextInt64EventReader (F:=F)) = Ok rowIDs →
  read_from readers 1 (NextInt64EventReader (F:=F)) = Ok tss →
  read_pks (F:=F) readers pkField = Ok (Some pks) →
  (∀ k, is_column readers (mf_FieldID pkField) k = true →
     readerToSlice (F:=F) readers k (from_option fs_DataType 0 (fields_by_id (cs_Fields s) !! k)) = Ok (col k)
     ∧ length (col k) = length rowIDs) →
  length tss = length rowIDs → length (PKs_elems pks) = length rowIDs →
  ∃ iter rows, NewBinlogIterator (F:=F) description collection readers = Ok iter
    ∧ iter_holds iter rows
    ∧ length rows = length rowIDs
    ∧ ∀ i rowID ts pk data, rows !! i = Some (rowID, ts, pk, data) →
        rowIDs !! i = Some rowID ∧ tss !! i = Some ts ∧ PKs_elems pks !! i = Some pk
        ∧ ∀ k, data !! k = if is_column readers (mf_FieldID pkField) k then col k !! i else None.
Proof.
  intros Hs Hpk Hids Htss Hpks Hcols Hl1 Hl2.
  unfold NewBinlogIterator. rewrite Hids, Htss. cbn [mbind res_bind]. rewrite Hpk. cbn [mbind res_bind].
  rewrite Hpks. cbn [mbind res_bind]. rewrite Hs. unfold read_columns.
  edestruct (foldM_insert (λ '(fieldID, _) data,
    if bool_decide (fieldID < 100) || bool_decide (fieldID = mf_FieldID pkField) then Ok data
    else column ← readerToSlice (F:=F) readers fieldID
           (from_option fs_DataType 0 (fields_by_id (cs_Fields s) !! fieldID));
         Ok (<[fieldID:=column]> data))
    (λ kv, if bool_decide (kv.1 < 100) || bool_decide (kv.1 = mf_FieldID pkField) then None else Some (col kv.1))
    (range readers) (∅ : gmap Z (list any)) (range_fields_NoDup _)) as (data & Hdata & Hin & Hout).
  { intros [k r] m Hk%elem_of_range. simpl.
    pose proof (is_column_present readers (mf_FieldID pkField) k r Hk) as Hc.
    destruct (bool_decide (k < 100) || bool_decide (k = mf_FieldID pkField)); [done|].
    by destruct (Hcols k Hc) as [-> _]. }
  assert (∀ k, data !! k = if is_column readers (mf_FieldID pkField) k then Some (col k) else None) as Hlook.
  { intros k. destruct (readers !! k) as [r|] eqn:Hr.
    - pose proof (Hin (k, r) (proj2 (elem_of_range _ _ _) Hr)) as Hk. simpl in Hk. rewrite Hk.
      rewrite (is_column_present _ _ _ _ Hr). by destruct (bool_decide (k < 100) || _).
    - rewrite Hout; [by unfold is_column; rewrite Hr|].
      intros ([k' r] & -> & Hkr%elem_of_range)%list_elem_of_fmap; simpl in Hr; congruence. }
  rewrite Hdata. cbn [mbind res_bind].
  set (iter := MkBinlogIterator rowIDs tss (Some pks) data (zlen rowIDs)).
  destruct (list_choice (length rowIDs) (λ i (row : BinlogRow), iter_row iter (Z.of_nat i) = Ok row
    ∧ rowIDs !! i = Some row.1.1.1 ∧ tss !! i = Some row.1.1.2 ∧ PKs_elems pks !! i = Some row.1.2
    ∧ ∀ k, row.2 !! k = data !! k ≫= λ c, c !! i)) as (rows & Hrows & Hrow).
  { intros i Hi. destruct (lookup_lt_is_Some_2 rowIDs i) as [rowID Hid]; [done|].
    destruct (lookup_lt_is_Some_2 tss i) as [ts Hts]; [lia|].
    destruct (lookup_lt_is_Some_2 (PKs_elems pks) i) as [pk Hpki]; [lia|].
    destruct (iter_row_columns iter i rowID ts pk pks) as (row & Hrow & Hdat); try done.
    { intros k c Hk. simpl in Hk. rewrite Hlook in Hk. destruct (is_column _ _ k) eqn:Hc; [|done].
      simplify_eq. apply lookup_lt_is_Some_2. destruct (Hcols k Hc) as [_ ->]. done. }
    by exists (rowID, ts, pk, row). }
  exists iter, rows. split; [done|]. split; [|split; [done|]].
  - split; [simpl; unfold zlen; by rewrite Hrows|]. intros i row Hi. by apply Hrow.
  - intros i rowID ts pk d Hi. destruct (Hrow _ _ Hi) as (_ & ? & ? & ? & Hd). simpl in *.
    split_and!; [done..|]. intros k. rewrite Hd, Hlook. by destruct (is_column _ _ k).
Qed.
End new_iterator.

(** *** The deletes *)
Definition is_deleted (dels : list (PrimaryKey * Z)) (pk : PrimaryKey) (ts : Z) : bool :=
  existsb (λ d, PK_EQ d.1 pk && bool_decide (ts < int64 d.2)) dels.

Lemma deleted_spec dd pk ts :
  dd_inv dd → is_Some (dd_pks dd) → deleted dd pk ts = Ok (is_deleted (dd_elems dd) pk ts).
Proof.
  intros Hinv Hpks. unfold deleted. rewrite DeltaData_Range_visit by done. f_equal.
  unfold is_deleted. induction (dd_elems dd) as [|[delPk delTs] dels IH]; [done|].
  simpl. by destruct (PK_EQ delPk pk && bool_decide (ts < int64 delTs)).
Qed.

Section check_properties.
Context {F C J R B : Type} `{Parquet F C} `{JsonMap J} `{JsonDoc R} `{MapOrder} `{Murmur3}.
Context `{RowJson} `{ArrowBuilders B}.
Context (description : FieldSchema → string).

(** The row does not follow the rule: it is not deleted, and its key's hash selects another
    partition. *)
Definition bad_row (dels : list (PrimaryKey * Z)) (partKeyField : FieldSchema) (n target : Z)
    (row : BinlogRow) : bool :=
  let '(_, ts, pk, data) := row in
  negb (is_deleted dels pk ts)
  && match key_hash partKeyField (default VNil (data !! fs_FieldID partKeyField)) with
     | Ok h => bool_decide (h mod n ≠ target)
     | _ => false
     end.

(** The key of the row has the type of the field, and its columns are fields. *)
Definition row_ok (partKeyField : FieldSchema) (idField : gmap Z FieldSchema) (row : BinlogRow) : Prop :=
  (∃ h, key_hash partKeyField (default VNil (row.2 !! fs_FieldID partKeyField)) = Ok h)
  ∧ ∀ k, is_Some (row.2 !! k) → is_Some (idField !! k).

Lemma misplaced_spec dd partKeyField idField n target row :
  dd_inv dd → is_Some (dd_pks dd) → row_ok partKeyField idField row → 0 < n < 2 ^ 32 →
  misplaced dd partKeyField n target row = Ok (bad_row (dd_elems dd) partKeyField n target row).
Proof.
  intros Hinv Hpks [[h Hh] _] Hn. destruct row as [[[rowID ts] pk] data]. unfold misplaced, bad_row.
  rewrite deleted_spec by done. simpl in Hh |- *.
  destruct (is_deleted _ pk ts); simpl; [done|]. rewrite Hh. simpl.
  rewrite (wrapu_id 32 n) by (unfold in_u; lia). by rewrite bool_decide_false by lia.
Qed.

Lemma named_row_ok partKeyField idField row :
  row_ok partKeyField idField row → ∃ m, named_row idField row.2 = Ok m.
Proof.
  intros [_ Hk]. unfold named_row.
  assert (Forall (λ kv : Z * any, is_Some (idField !! kv.1)) (range row.2)) as Hall.
  { rewrite range_perm. apply list.Forall_forall. intros [k v] Hkv%elem_of_map_to_list. apply Hk. by exists v. }
  revert Hall. generalize (range row.2) as l, (∅ : gmap string any) as m.
  induction l as [|[k v] l IH]; intros m Hall; [by exists m|].
  apply list.Forall_cons in Hall as [[f Hf] Hall]. simpl in *. rewrite Hf. simpl. by apply IH.
Qed.

(** *** What the command prints *)

(** The rows of a batch that are reported: all bad rows, or the first. *)
Definition reported (p : CheckParam) (bad : BinlogRow → bool) (rows : list BinlogRow) : list BinlogRow :=
  let l := List.filter bad rows in if cp_StopIfErr p then take 1 l else l.

Definition printed (partKeyField : FieldSchema) (row : BinlogRow) : Reported :=
  Printed (PK_GetValue row.1.2) (default VNil (row.2 !! fs_FieldID partKeyField)).

(** The lines of the rows: none, when the primary keys are not asked for. *)
Definition lines (p : CheckParam) (partKeyField : FieldSchema) (rows : list BinlogRow)
    : list Reported :=
  if cp_OutputPrimaryKey p then map (printed partKeyField) rows else [].

Lemma lines_app p partKeyField l1 l2 :
  lines p partKeyField (l1 ++ l2) = lines p partKeyField l1 ++ lines p partKeyField l2.
Proof. unfold lines. destruct (cp_OutputPrimaryKey p); [apply map_app|done]. Qed.

Definition after_rows (p : CheckParam) (partKeyField : FieldSchema) (rows : list BinlogRow)
    (st : CheckState B) : CheckState B :=
  MkCheckState (ck_outputs st ++ lines p partKeyField rows) (ck_writer st)
    (int64 (ck_errCnt st + zlen rows)) (ck_found st || bool_decide (rows ≠ [])).

Definition in_count (st : CheckState B) : Prop := in_s 64 (ck_errCnt st).

Lemma after_rows_nil p partKeyField st : in_count st → after_rows p partKeyField [] st = st.
Proof.
  intros Hc. destruct st as [out w c f]. unfold after_rows, lines; simpl.
  replace (if cp_OutputPrimaryKey p then [] else []) with ([] : list Reported) by by case_match.
  rewrite app_nil_r, Z.add_0_r, orb_false_r. by rewrite wraps_id.
Qed.

Lemma after_rows_count p partKeyField rows st : in_count (after_rows p partKeyField rows st).
Proof. by apply wraps_range. Qed.

Lemma after_rows_app p partKeyField l1 l2 st :
  after_rows p partKeyField l2 (after_rows p partKeyField l1 st)
  = after_rows p partKeyField (l1 ++ l2) st.
Proof.
  unfold after_rows; simpl. rewrite lines_app, <-app_assoc, zlen_app, wraps_add_l by lia.
  rewrite Z.add_assoc, <-orb_assoc. f_equal. f_equal.
  destruct l1, l2; done.
Qed.

(** The parameters of a run on the terminal, and its segment. *)
Context (p : CheckParam) (collection : Collection) (partKeyField : FieldSchema) (pkName : string).
Context (idField : gmap Z FieldSchema) (deltalog : DeltaData) (n target : Z).
Hypothesis Hformat : cp_OutputFormat p = "stdout".
Hypothesis Hdeltas : dd_inv deltalog.
Hypothesis Hpks : is_Some (dd_pks deltalog).
Hypothesis Hn : 0 < n < 2 ^ 32.

#[local] Abbreviation bad := (bad_row (dd_elems deltalog) partKeyField n target).
#[local] Abbreviation row_check :=
  (check_row description p collection partKeyField pkName idField deltalog n target).

Lemma check_row_spec row st :
  row_ok partKeyField idField row → in_count st →
  row_check row st
  = if bad row then (after_rows p partKeyField [row] st, if cp_StopIfErr p then Err errQuickExit else Ok tt)
    else (st, Ok tt).
Proof.
  intros Hrow Hc. unfold check_row. rewrite (misplaced_spec _ _ idField) by done.
  destruct (bad row); [|done]. destruct (named_row_ok _ _ _ Hrow) as [m ->].
  destruct row as [[[rowID ts] pk] data]. unfold report_row. rewrite Hformat.
  rewrite bool_decide_true by done. unfold after_rows, lines, report, printed.
  destruct (cp_OutputPrimaryKey p); simpl; by rewrite ?app_nil_r, orb_true_r.
Qed.

Lemma visit_rows_spec rows st :
  Forall (row_ok partKeyField idField) rows → in_count st →
  visit_rows row_check rows st
  = (after_rows p partKeyField (reported p bad rows) st,
     if cp_StopIfErr p && existsb bad rows then Err errQuickExit else Ok tt).
Proof.
  revert st. unfold reported. induction rows as [|row rows IH]; intros st Hall Hc.
  { simpl. rewrite andb_false_r. destruct (cp_StopIfErr p); simpl; by rewrite after_rows_nil. }
  apply list.Forall_cons in Hall as [Hrow Hall]. cbn [visit_rows]. rewrite check_row_spec by done.
  cbn [List.filter existsb]. destruct (bad row); [|by rewrite IH].
  destruct (cp_StopIfErr p); [done|]. rewrite IH by (try done; apply after_rows_count).
  by rewrite after_rows_app.
Qed.

Context (batches : list (list BinlogRow)).
Hypothesis Hrows : Forall (Forall (row_ok partKeyField idField)) batches.

(** The [i]-th batch of binlogs can be read, and has the [i]-th rows. *)
Context (open : Z → res (gmap Z (BinlogReader J))).
Hypothesis Hopen : ∀ i rows, batches !! i = Some rows →
  ∃ readers iter, open (Z.of_nat i) = Ok readers
    ∧ NewBinlogIterator (F:=F) description collection readers = Ok iter ∧ iter_holds iter rows.

Lemma scan_batches_spec (k : nat) st :
  (k ≤ length batches)%nat → in_count st →
  scan_batches open
    (check_batch (F:=F) description p collection partKeyField pkName idField deltalog n target)
    (length batches - k) (Z.of_nat k) st
  = (after_rows p partKeyField (concat (map (reported p bad) (drop k batches))) st, Ok tt).
Proof.
  remember (length batches - k)%nat as m eqn:Hm. revert k st Hm.
  induction m as [|m IH]; intros k st Hm Hk Hc.
  { rewrite drop_ge by lia. simpl. by rewrite after_rows_nil. }
  destruct (lookup_lt_is_Some_2 batches k) as [rows Hrows_k]; [lia|].
  destruct (Hopen _ _ Hrows_k) as (readers & iter & Ho & Hi & Hholds).
  cbn [scan_batches]. rewrite Ho. unfold check_batch at 1. rewrite Hi.
  rewrite (iterator_Range_visit _ _ rows) by done.
  rewrite visit_rows_spec by (try done; by eapply Forall_lookup_1).
  assert (∀ b : bool, match (if b then Err errQuickExit else Ok tt) with
    | Panic w => Panic w | _ => Ok tt end = Ok tt) as -> by by intros [].
  replace (Z.of_nat k + 1) with (Z.of_nat (S k)) by lia.
  rewrite IH by (try lia; apply after_rows_count). rewrite after_rows_app.
  by rewrite (drop_S _ _ _ Hrows_k).
Qed.
End check_properties.

Lemma reported_found p (bad : BinlogRow → bool) batches :
  bool_decide (concat (map (reported p bad) batches) ≠ []) = existsb bad (concat batches).
Proof.
  assert (∀ rows, bool_decide (reported p bad rows ≠ []) = existsb bad rows) as Hone.
  { intros rows. unfold reported. induction rows as [|row rows IH]; [by destruct (cp_StopIfErr p)|].
    simpl. destruct (bad row); [by destruct (cp_StopIfErr p)|done]. }
  induction batches as [|rows batches IH]; [done|]. simpl. rewrite existsb_app, <-IH, <-Hone.
  by destruct (reported p bad rows).
Qed.

Section segment_check.
Context {F C J R B : Type} `{Parquet F C} `{JsonMap J} `{JsonDoc R} `{MapOrder} `{Murmur3}.
Context `{RowJson} `{ArrowBuilders B}.
Context (description : FieldSchema → string).

(** What the check of a segment needs: its collection has a primary key, whose binlogs are
    the batches; each batch can be read; its deletes can be; and the rows have keys of the
    field's type. *)
Record checkable (p : CheckParam) (getObject : string → res (list byte)) (rootPath : string)
    (collection : Collection) (partKeyField : FieldSchema) (idField : gmap Z FieldSchema)
    (binlogs deltalogs : list ModelFieldBinlog) (deltalog : DeltaData)
    (batches : list (list BinlogRow)) : Prop := {
  ck_pk : ∃ s pkField pkBinlogs, ci_Schema (co_proto collection) = Some s
    ∧ List.find fs_IsPrimaryKey (cs_Fields s) = Some pkField
    ∧ List.find (λ b, bool_decide (mfb_FieldID b = fs_FieldID pkField)) binlogs = Some pkBinlogs
    ∧ length (mfb_Binlogs pkBinlogs) = length batches
    ∧ ∀ i rows, batches !! i = Some rows → ∃ readers iter,
        open_readers getObject rootPath (fs_FieldID pkField) (field_selector p partKeyField)
          binlogs (Z.of_nat i) = Ok readers
        ∧ NewBinlogIterator (F:=F) (J:=J) description collection readers = Ok iter
        ∧ iter_holds iter rows;
  ck_deltas : DownloadDeltalogs (F:=F) (J:=J) getObject rootPath collection deltalogs = Ok deltalog;
  ck_deltas_inv : dd_inv deltalog;
  ck_deltas_pks : is_Some (dd_pks deltalog);
  ck_rows : Forall (Forall (row_ok partKeyField idField)) batches;
}.

(** C14 (functional): on the terminal, the check of a segment whose deletes and batches of
    binlogs can all be read, and whose partition keys have the type of the field, reports, batch
    after batch, exactly the rows that are not deleted and whose key's hash does not select
    their partition — the first of each batch, when it stops at errors. With the flag for
    primary keys it prints a line for each of them, in this order, and without it none; in both
    cases it counts them, and remembers that there was one. *)
Theorem check_segment_reports p create getObject rootPath collection partKeyField pkName idField
    n target binlogs deltalogs deltalog batches (st : CheckState B) :
  cp_OutputFormat p = "stdout" → 0 < n < 2 ^ 32 →
  checkable p getObject rootPath collection partKeyField idField binlogs deltalogs deltalog batches →
  let bad := bad_row (dd_elems deltalog) partKeyField n target in
  let rows := concat (map (reported p bad) batches) in
  ∃ st', check_segment (F:=F) (J:=J) description p create getObject rootPath collection partKeyField
      pkName idField n target binlogs deltalogs st = (st', Ok tt)
    ∧ ck_outputs st' = ck_outputs st ++ lines p partKeyField rows
    ∧ ck_errCnt st' = int64 (zlen rows)
    ∧ ck_found st' = ck_found st || existsb bad (concat batches).
Proof.
  intros Hformat Hn [(s & pkField & pkBinlogs & Hs & Hfind & Hbl & Hlen & Hopen) Hdl Hinv Hpks Hrows]
    bad rows.
  assert (in_count (MkCheckState (ck_outputs st) None 0 (ck_found st) : CheckState B)) as Hc by in_range.
  pose proof (scan_batches_spec (F:=F) (J:=J) description p collection partKeyField pkName idField deltalog
    n target Hformat Hinv Hpks Hn batches Hrows _ Hopen 0 _ ltac:(lia) Hc) as Hscan.
  rewrite Nat.sub_0_r, drop_0 in Hscan. change (Z.of_nat 0) with 0 in Hscan.
  eexists. split; [|split; [|split]].
  - unfold check_segment. rewrite Hformat. cbn [bool_decide].
    rewrite bool_decide_false, bool_decide_false by clean_dec. cbn [mbind res_bind].
    rewrite Hdl. cbn [mbind res_bind]. unfold ScanBinlogs. rewrite Hs, Hfind, Hbl, Hlen. exact Hscan.
  - done.
  - done.
  - cbn [after_rows ck_found]. f_equal. apply reported_found.
Qed.
End segment_check.

(** ** The loop over a delta log ends *)
Section deltas.
Context {F C R : Type} `{Parquet F C} `{JsonDoc R}.

Lemma Deltalog_NextEventReader_consumes dataType s d s' :
  Deltalog_NextEventReader (F:=F) dataType s = Ok (d, s') → (length s' + 17 ≤ length s)%nat.
Proof.
  unfold Deltalog_NextEventReader, EventReader_ReadHeader, readEventHeader, ReadIndexFileEventData.
  intros Hr. rd_inv.
  repeat match goal with
  | Hb : binary_Read _ _ = Ok _ |- _ => apply binary_Read_inv in Hb as [-> _]
  | Hb : make_ReadFull _ _ = Ok _ |- _ =>
      unfold make_ReadFull in Hb; case_match; [apply io_ReadFull_inv in Hb as [-> _]|discriminate Hb]
  end.
  rewrite !length_app. unfold binary_Write at 1. rewrite fx_length.
  change (fx_size fx_baseEventHeader) with 17%nat. lia.
Qed.

(** Each round reads an event of 17 bytes at least, so that as many rounds as there are
    bytes, and one more, are enough: the loop over a delta log ends. *)
Theorem read_deltas_total fuel dataType rest data :
  (length rest < fuel)%nat → is_Some (read_deltas (F:=F) fuel dataType rest data).
Proof.
  revert rest data. induction fuel as [|fuel IH]; intros rest data Hf; [lia|]. cbn [read_deltas].
  destruct (Deltalog_NextEventReader dataType rest) as [[d rest']|e|w] eqn:Hr; [|by destruct e|done].
  apply Deltalog_NextEventReader_consumes in Hr.
  destruct (DeltaData_Merge data d); [|done..]. apply IH. lia.
Qed.
End deltas.

(** ** A segment of three rows

    The payload of a binlog is one byte per value. *)
#[local] Instance int64_column : Parquet (list Z) (list Z) := {
  NewParquetReader bs := Ok (map Z_of_byte bs);
  NumRowGroups _ := 1;
  NumRows r _ := zlen r;
  Column r _ _ := Ok r;
  ChunkType _ := PInt64;
  ReadBatch p c n dst :=
    match p return list (phys_val p) → res (list (phys_val p) * Z * Z) with
    | PInt64 => λ dst, Ok (c ++ drop (length c) dst, zlen c, zlen c)
    | _ => λ _, Err (Errorf "type")
    end dst;
}.
#[local] Instance sum_murmur : Murmur3 := {| murmur3_Sum32 := le_get |}.
#[local] Instance no_json : RowJson := {| row_Marshal _ := Ok [] |}.

Definition binlog_of (vs : list Z) : list byte :=
  sample_file ++ event_bytes (BaseEventHeader 0 InsertEventType (33 + zlen vs) (-1))
                   (EventData 1 2 : insertEventData) (map byte_of_Z vs).
Definition pk_objects (path : string) : res (list byte) :=
  if bool_decide (path = "files/r") then Ok (binlog_of [1; 2; 3])
  else if bool_decide (path = "files/t") then Ok (binlog_of [10; 11; 12])
  else if bool_decide (path = "files/p") then Ok (binlog_of [21; 22; 23])
  else if bool_decide (path = "files/k") then Ok (binlog_of [4; 5; 7])
  else Err (Errorf "not found").

Definition key_field : FieldSchema := pq_field 102 "key" 5 false.
Definition key_fields : list FieldSchema :=
  [pq_field 0 "RowID" 5 false; pq_field 1 "Timestamp" 5 false; pq_field 100 "id" 5 true; key_field].
Definition key_collection : Collection :=
  NewCollection (with_Schema (sample_info 1 0 0) (with_Fields sample_schema key_fields [])) "c".
Definition key_binlogs : list ModelFieldBinlog :=
  map (λ '(id, path), MkFieldBinlog id [MkBinlog 3 0 0 ("ROOT_PATH/" +:+ path) 0 1 0] [])
    [(0, "r"); (1, "t"); (100, "p"); (102, "k")].
Definition key_rows : list BinlogRow :=
  [(1, 10, Int64PrimaryKey 21, {[102 := VInt64 4]}); (2, 11, Int64PrimaryKey 22, {[102 := VInt64 5]});
   (3, 12, Int64PrimaryKey 23, {[102 := VInt64 7]})].
Definition terminal (stop : bool) : CheckParam := MkCheckParam stop true "stdout".

Definition key_readers : gmap Z (BinlogReader string) :=
  match open_readers pk_objects "files" 100 (field_selector (terminal false) key_field) key_binlogs 0 with
  | Ok m => m | _ => ∅ end.

Lemma key_rows_held :
  ∃ iter, NewBinlogIterator (F:=list Z) fs_rest key_collection key_readers = Ok iter ∧ iter_holds iter key_rows.
Proof.
  eexists. split; [vm_compute; reflexivity|]. split; [reflexivity|].
  intros i row Hi. do 3 (destruct i as [|i]; [simplify_eq/=; vm_compute; reflexivity|]). done.
Qed.

Lemma key_checkable :
  checkable (F:=list Z) (J:=string) (R:=Z) fs_rest (terminal false) pk_objects "files" key_collection
    key_field (fields_by_id key_fields) key_binlogs [] (NewDeltaData 5) [key_rows].
Proof.
  split.
  - eexists _, (pq_field 100 "id" 5 true), _. split; [reflexivity|]. split; [reflexivity|].
    split; [reflexivity|]. split; [reflexivity|]. intros [|i] rows Hi; [|done]. injection Hi as <-.
    destruct key_rows_held as (iter & Hiter & Hholds). exists key_readers, iter.
    split; [vm_compute; reflexivity|]. split; [exact Hiter|exact Hholds].
  - reflexivity.
  - apply NewDeltaData_inv.
  - by eexists.
  - repeat constructor; simpl; eauto.
    all: intros k [v Hv]; apply lookup_singleton_Some in Hv as [<- _]; vm_compute; by eexists.
Qed.

Lemma check_segment_reports_witness :
  ∃ st' : CheckState (arrow_type * list any),
    check_segment (F:=list Z) (J:=string) (R:=Z) fs_rest (terminal false) (Ok tt) pk_objects "files"
      key_collection key_field "id" (fields_by_id key_fields) 2 0 key_binlogs []
      (MkCheckState [] None 0 false) = (st', Ok tt)
    ∧ ck_outputs st' = [Printed (VInt64 22) (VInt64 5); Printed (VInt64 23) (VInt64 7)]
    ∧ ck_errCnt st' = 2 ∧ ck_found st' = true.
Proof.
  destruct (check_segment_reports (F:=list Z) (J:=string) (R:=Z) fs_rest (terminal false) (Ok tt)
    pk_objects "files" key_collection key_field "id" (fields_by_id key_fields) 2 0 key_binlogs []
    (NewDeltaData 5) [key_rows]
    (MkCheckState [] None 0 false : CheckState (arrow_type * list any)))
    as (st' & Hst & Ho & Hc & Hf).
  - reflexivity.
  - lia.
  - exact key_checkable.
  - exists st'. split; [exact Hst|]. split; [rewrite Ho; vm_compute; reflexivity|].
    split; [rewrite Hc; vm_compute; reflexivity|rewrite Hf; vm_compute; reflexivity].
Defined.

Lemma partIdx_spec_witness :
  partIdx [MkPartitionInfo 7 1 "_default_0" 0 ""; MkPartitionInfo 9 1 "_default_1" 0 ""] !! 9 = Some 1.
Proof.
  destruct (partIdx_spec [MkPartitionInfo 7 1 "_default_0" 0 ""; MkPartitionInfo 9 1 "_default_1" 0 ""])
    as [Hidx _]; [reflexivity|].
  apply (Hidx "_default") with (i := 1%nat) (p := MkPartitionInfo 9 1 "_default_1" 0 "").
  - clean_dec.
  - intros [|[|i]] p Hp; simplify_eq/=; reflexivity.
  - reflexivity.
Defined.

Lemma NewBinlogIterator_rows_witness :
  ∃ iter rows, NewBinlogIterator (F:=list Z) fs_rest key_collection key_readers = Ok iter
    ∧ iter_holds iter rows ∧ length rows = 3%nat.
Proof.
  destruct (NewBinlogIterator_rows (F:=list Z) fs_rest key_collection key_readers
    (with_Fields sample_schema key_fields []) (MkModelField 100 "id" true false 5 "" ∅) true
    [1; 2; 3] [10; 11; 12] (Int64PrimaryKeys [21; 22; 23]) (λ _, [VInt64 4; VInt64 5; VInt64 7]))
    as (iter & rows & Hiter & Hholds & Hlen & _).
  1-5: vm_compute; reflexivity.
  - intros k Hk. assert (k = 102) as ->.
    { unfold is_column in Hk. cbn [mf_FieldID] in Hk. rewrite !andb_true_iff, !bool_decide_eq_true in Hk.
      destruct Hk as [[Hr ?] ?]. assert (k ∈ (map_to_list key_readers).*1) as Hin.
      { destruct Hr as [r Hr]. apply (list_elem_of_fmap_2' fst _ (k, r)); [by apply elem_of_map_to_list|done]. }
      assert ((map_to_list key_readers).*1 = [102; 100; 1; 0]) as Hkeys by (vm_compute; reflexivity).
      rewrite Hkeys, !elem_of_cons, elem_of_nil in Hin. lia. }
    split; [vm_compute; reflexivity|reflexivity].
  - reflexivity.
  - reflexivity.
  - exists iter, rows. by split_and!.
Defined.

Lemma read_deltas_total_witness :
  is_Some (read_deltas (F:=list Z) (R:=Z) 4 5 [x01; x02; x03] (NewDeltaData 5)).
Proof. apply (read_deltas_total (F:=list Z) (R:=Z)). simpl. lia. Defined.

Lemma HashString2Uint32_bounds_witness :
  HashString2Uint32 "b" = HashString2Uint32 "b" ∧ in_u 32 (HashString2Uint32 "b").
Proof. destruct (HashString2Uint32_bounds "b") as [Hr Hu]. split; [by apply Hu|exact Hr]. Defined.
