(* ===== verification/StateUtil.v ===== *)
(** * Helpers of the shell's states

    Models [states/util.go] and [utils/util.go]: hybrid timestamps, the listing of sessions,
    the repair of old channel descriptions, the printing of messages by collection, and the
    parts of a path. *)

From S2P Require Export Collections.

(** ** Hybrid timestamps

    A [uint64] of milliseconds and 18 logical bits.  A [time.Time] is its seconds and
    nanoseconds. *)
Definition logicalBits : Z := 18.
Definition logicalBitsMask : Z := Z.shiftl 1 logicalBits - 1.

Definition ParseTS (ts : Z) : (Z * Z) * Z :=
  let logical := Z.land ts logicalBitsMask in
  let physical := Z.shiftr ts logicalBits in
  ((int64 (physical / 1000), int64 (Z.rem (int64 physical) 1000 * 1000000)), logical).

Definition ComposeTS (physical logical : Z) : Z :=
  uint64 (int64 (int64 (Z.shiftl physical logicalBits) + logical)).

(** [ParseTSCommand]: the time of each argument, or nothing for one that is no number. *)
Definition ParseTSCommand (args : list string) : list (option (Z * Z)) :=
  map (λ arg, match ParseUint arg with Some ts => Some (ParseTS ts).1 | None => None end) args.

(** ** [listSessionsByPrefix]: sessions that do not parse are left out. *)
Definition listSessionsByPrefix {K S} `{MetaKV K} `{JsonCodec S} (cli : K) (prefix : string)
    : res (list S) :=
  '(_, vals) ← mk_LoadWithPrefix cli prefix false;
  foldM (λ val sessions,
    match json_obj_Unmarshal (bytes_of_string val) with
    | Ok s => Ok (sessions ++ [s])
    | Err _ => Ok sessions
    | Panic w => Panic w
    end) vals [].

(** ** [reviseVChannelInfo]

    [datapb.VchannelInfo]: the lists of segments, by their identifiers, and of identifiers. *)
Record VchannelInfo := MkVchannelInfo {
  vc_FlushedSegments : list Z;
  vc_FlushedSegmentIds : list Z;
  vc_UnflushedSegments : list Z;
  vc_UnflushedSegmentIds : list Z;
  vc_DroppedSegments : list Z;
  vc_DroppedSegmentIds : list Z;
}.

(** [removeDuplicateSegmentIDFn]: the loop with its [existDict]. *)
Fixpoint removeDuplicateSegmentIDFn (ids : list Z) (existDict : gset Z) : list Z :=
  match ids with
  | [] => []
  | id :: ids =>
      if bool_decide (id ∈ existDict) then removeDuplicateSegmentIDFn ids existDict
      else id :: removeDuplicateSegmentIDFn ids ({[id]} ∪ existDict)
  end.

(** One of the three blocks: the segments and the identifiers afterwards. *)
Definition revise_ids (segments ids : list Z) : list Z * list Z :=
  let '(segments, ids) :=
    if bool_decide (0 < zlen segments) then ([], foldl (λ ids id, ids ++ [id]) ids segments)
    else (segments, ids) in
  (segments, removeDuplicateSegmentIDFn ids ∅).

Definition reviseVChannelInfo (vChannel : option VchannelInfo) : option VchannelInfo :=
  match vChannel with
  | None => None
  | Some v =>
      let '(fs, fids) := revise_ids (vc_FlushedSegments v) (vc_FlushedSegmentIds v) in
      let '(us, uids) := revise_ids (vc_UnflushedSegments v) (vc_UnflushedSegmentIds v) in
      let '(ds, dids) := revise_ids (vc_DroppedSegments v) (vc_DroppedSegmentIds v) in
      Some (MkVchannelInfo fs fids us uids ds dids)
  end.

(** ** [printInfoWithCollectionID]

    An info is its collection and its text. *)
Definition collection_map (infos : list (Z * string)) : gmap Z (list string) :=
  foldl (λ m '(c, s), <[c := default [] (m !! c) ++ [s]]> m) ∅ infos.

Definition printInfoWithCollectionID (infos : list (Z * string)) : list string :=
  let collectionIDs := merge_sort Z.le (map fst infos) in
  concat (map (λ colID, default [] (collection_map infos !! colID)) collectionIDs).

(** ** Parts of a path *)
Definition getKVPair (pairs : list (string * string)) (key : string) : string :=
  from_option snd "" (List.find (λ kv, bool_decide (kv.1 = key)) pairs).

(** The test for a bad index needs it to be below 0 and above the end at once. *)
Definition pathPart (p : string) (idx : Z) : res string :=
  let parts := Split "/" p in
  let idx := if bool_decide (idx < 0) then zlen parts + idx else idx in
  if bool_decide (idx < 0) && bool_decide (idx >= zlen parts) then Err (Errorf "out of index")
  else go_index parts idx.

Definition pathPartInt64 (p : string) (idx : Z) : res Z :=
  part ← pathPart p idx;
  match ParseInt part with Some v => Ok v | None => Err (Errorf "invalid syntax") end.

(** ** Properties *)

Lemma land_mask ts : Z.land ts logicalBitsMask = ts mod 2 ^ 18.
Proof. apply (Z.land_ones ts 18). lia. Qed.

(** A timestamp composed of a time in milliseconds and a logical part parses back to both;
    the time's seconds and nanoseconds are those of the milliseconds. *)
Theorem ParseTS_ComposeTS physical logical :
  0 ≤ physical < 2 ^ 46 → 0 ≤ logical < 2 ^ 18 →
  ParseTS (ComposeTS physical logical)
  = ((physical / 1000, physical mod 1000 * 1000000), logical).
Proof.
  intros Hp Hl. unfold ComposeTS, ParseTS.
  rewrite wraps_add_l, wrapu_wraps, Z.shiftl_mul_pow2 by (unfold logicalBits; lia).
  unfold logicalBits. rewrite (wrapu_id 64) by (unfold in_u; lia).
  rewrite land_mask, Z.shiftr_div_pow2 by lia.
  assert ((physical * 2 ^ 18 + logical) / 2 ^ 18 = physical) as ->.
  { rewrite Z.add_comm, Z.div_add by lia. rewrite Z.div_small by lia. lia. }
  assert ((physical * 2 ^ 18 + logical) mod 2 ^ 18 = logical) as ->.
  { rewrite Z.add_comm, Z.mod_add by lia. by apply Z.mod_small. }
  rewrite (wraps_id 64 physical) by (unfold in_s; lia).
  rewrite Z.rem_mod_nonneg by lia.
  pose proof (Z.mod_pos_bound physical 1000). pose proof (Z.div_le_upper_bound physical 1000 (2 ^ 46)).
  pose proof (Z.div_pos physical 1000).
  rewrite !wraps_id by (unfold in_s; lia). done.
Qed.

(** A list of identifiers without its later duplicates. *)
Lemma removeDuplicate_spec ids seen :
  NoDup (removeDuplicateSegmentIDFn ids seen)
  ∧ ∀ x, x ∈ removeDuplicateSegmentIDFn ids seen ↔ x ∈ ids ∧ x ∉ seen.
Proof.
  revert seen. induction ids as [|id ids IH]; intros seen; simpl.
  { split; [constructor|]. intros x. rewrite elem_of_nil. tauto. }
  case_bool_decide as Hin.
  - destruct (IH seen) as [Hnd Hel]. split; [done|]. intros x. rewrite Hel, elem_of_cons.
    naive_solver.
  - destruct (IH ({[id]} ∪ seen)) as [Hnd Hel]. split.
    + constructor; [|done]. rewrite Hel. set_solver.
    + intros x. rewrite elem_of_cons, Hel, elem_of_cons. destruct (decide (x = id)); set_solver.
Qed.

Lemma foldl_snoc (l ids : list Z) : foldl (λ ids id, ids ++ [id]) ids l = ids ++ l.
Proof. revert ids. induction l as [|x l IH]; intros ids; simpl; [by rewrite app_nil_r|]. by rewrite IH, <-app_assoc. Qed.

Lemma revise_ids_spec segments ids :
  (revise_ids segments ids).1 = [] ∧ NoDup (revise_ids segments ids).2
  ∧ ∀ x, x ∈ (revise_ids segments ids).2 ↔ x ∈ segments ∨ x ∈ ids.
Proof.
  assert (revise_ids segments ids = ([], removeDuplicateSegmentIDFn (ids ++ segments) ∅)) as ->.
  { unfold revise_ids. destruct segments as [|s segments]; [by rewrite app_nil_r|].
    rewrite bool_decide_true by (rewrite zlen_cons; pose proof (zlen_nonneg segments); lia).
    by rewrite foldl_snoc. }
  destruct (removeDuplicate_spec (ids ++ segments) ∅) as [Hnd Hel]. simpl.
  split_and!; [done|done|]. intros x. rewrite Hel, elem_of_app. set_solver.
Qed.

Definition revised (v : VchannelInfo) : Prop :=
  vc_FlushedSegments v = [] ∧ vc_UnflushedSegments v = [] ∧ vc_DroppedSegments v = []
  ∧ NoDup (vc_FlushedSegmentIds v) ∧ NoDup (vc_UnflushedSegmentIds v) ∧ NoDup (vc_DroppedSegmentIds v).

Lemma removeDuplicate_id ids seen :
  NoDup ids → (∀ x, x ∈ ids → x ∉ seen) → removeDuplicateSegmentIDFn ids seen = ids.
Proof.
  revert seen. induction ids as [|id ids IH]; intros seen; [done|].
  intros [Hn Hnd]%list.NoDup_cons Hseen. simpl.
  rewrite bool_decide_false by (apply Hseen; by left). f_equal. apply IH; [done|].
  intros x Hx. pose proof (Hseen x ltac:(by right)). rewrite elem_of_union, elem_of_singleton.
  naive_solver.
Qed.

(** A revised description has no segments left, the identifiers of those it had among its
    identifiers, each once; and revising it again changes nothing. *)
Theorem reviseVChannelInfo_spec v :
  ∃ v', reviseVChannelInfo (Some v) = Some v' ∧ revised v'
    ∧ (∀ x, x ∈ vc_FlushedSegmentIds v' ↔ x ∈ vc_FlushedSegments v ∨ x ∈ vc_FlushedSegmentIds v)
    ∧ (∀ x, x ∈ vc_UnflushedSegmentIds v' ↔ x ∈ vc_UnflushedSegments v ∨ x ∈ vc_UnflushedSegmentIds v)
    ∧ (∀ x, x ∈ vc_DroppedSegmentIds v' ↔ x ∈ vc_DroppedSegments v ∨ x ∈ vc_DroppedSegmentIds v)
    ∧ reviseVChannelInfo (Some v') = Some v'.
Proof.
  unfold reviseVChannelInfo.
  destruct (revise_ids_spec (vc_FlushedSegments v) (vc_FlushedSegmentIds v)) as (F1 & F2 & F3).
  destruct (revise_ids_spec (vc_UnflushedSegments v) (vc_UnflushedSegmentIds v)) as (U1 & U2 & U3).
  destruct (revise_ids_spec (vc_DroppedSegments v) (vc_DroppedSegmentIds v)) as (D1 & D2 & D3).
  destruct (revise_ids (vc_FlushedSegments v) _) as [fs fids].
  destruct (revise_ids (vc_UnflushedSegments v) _) as [us uids].
  destruct (revise_ids (vc_DroppedSegments v) _) as [ds dids]. simpl in *. subst.
  eexists. split; [done|]. split; [done|]. split_and!; [done..|]. simpl.
  unfold revise_ids; simpl. by rewrite !removeDuplicate_id by set_solver.
Qed.

(** The infos of a collection are printed once for each of them: for a list of infos of one
    collection the whole list is printed as often as it is long. *)
Lemma merge_sort_replicate (c : Z) n : merge_sort Z.le (replicate n c) = replicate n c.
Proof.
  symmetry. apply replicate_Permutation. symmetry. apply merge_sort_Permutation.
Qed.

Lemma collection_map_one c (l acc : list string) (m : gmap Z (list string)) :
  default [] (m !! c) = acc →
  default [] (foldl (λ m '(c, s), <[c := default [] (m !! c) ++ [s]]> m) m (map (pair c) l) !! c) = acc ++ l.
Proof.
  revert acc m. induction l as [|s l IH]; intros acc m Hm; simpl; [by rewrite app_nil_r|].
  rewrite (IH (acc ++ [s])); [by rewrite <-app_assoc|]. rewrite lookup_insert_eq. simpl. by rewrite Hm.
Qed.

Theorem printInfo_repeats c (infos : list string) :
  printInfoWithCollectionID (map (pair c) infos) = concat (replicate (length infos) infos).
Proof.
  unfold printInfoWithCollectionID. rewrite map_map. simpl.
  assert (map (λ _ : string, c) infos = replicate (length infos) c) as ->.
  { induction infos as [|x l IH]; simpl; [done|]. by rewrite IH. }
  rewrite merge_sort_replicate. rewrite (fmap_replicate (λ colID, default [] (collection_map (map (pair c) infos) !! colID))
    (length infos) c : map _ _ = _). unfold collection_map.
  by rewrite (collection_map_one c infos []).
Qed.

(** An index beyond the parts of a path is not an error but a panic. *)
Theorem pathPart_out_of_range p idx :
  zlen (Split "/" p) ≤ idx → pathPart p idx = Panic "index out of range".
Proof.
  intros Hi. pose proof (zlen_nonneg (Split "/" p)). unfold pathPart.
  rewrite (bool_decide_false (idx < 0)) by lia. rewrite bool_decide_false by lia. simpl.
  unfold go_index. rewrite bool_decide_true by lia.
  by rewrite lookup_ge_None_2 by (unfold zlen in *; lia).
Qed.

(** ** Witnesses *)
Lemma ParseTS_ComposeTS_witness :
  ParseTS (ComposeTS 1700000000123 5) = ((1700000000, 123000000), 5).
Proof. rewrite (ParseTS_ComposeTS 1700000000123 5) by lia. reflexivity. Defined.

Lemma pathPart_out_of_range_witness : pathPart "a/b" 2 = Panic "index out of range".
Proof. apply pathPart_out_of_range. vm_compute. discriminate. Defined.
