(* ===== verification/SegmentFiles.v ===== *)
(** * Segments and their files

    Models the commands that hold the segments of the metadata store against the files of
    the object store: [states/garbage_collect.go], [states/verify_segment.go],
    [states/scan_deltalog.go], [states/download_pk.go], [states/download_segment.go] and
    [states/segment_anaylsis.go].  The object store is an argument: what it lists, the
    outcome of a test for an object, and the contents of one. *)

From S2P Require Import DeltaData.
From S2P Require Export PartitionKey.

(** ** [garbage_collect.go] *)
Definition insertLogPrefix := "insert_log".
Definition statsLogPrefix := "stats_log".
Definition deltaLogPrefix := "delta_log".

Definition SegmentState_None : Z := 0.
Definition isSegmentHealthy (s : SegmentInfo) : bool :=
  negb (bool_decide (si_State s ∈ [SegmentState_None; SegmentState_NotExist; SegmentState_Dropped])).

Fixpoint trim_leading (p : string) : string :=
  match p with String "/" p' => trim_leading p' | _ => p end.

Definition ParseSegmentIDByBinlog (rootPath path : string) : res Z :=
  if negb (HasPrefix path rootPath) then Err (Errorf "path does not contains rootPath")
  else
    let keyStr := Split "/" (trim_leading (String.substring (String.length rootPath) (String.length path) path)) in
    if bool_decide (zlen keyStr ≠ 6) then Err (Errorf "not a valid binlog path")
    else
      part ← go_index keyStr (zlen keyStr - 3);
      match ParseInt part with Some id => Ok id | None => Err (Errorf "invalid syntax") end.

(** The paths of the logs, of the three kinds, and the segments by identifier. *)
Record GcMeta := MkGcMeta {
  gc_binlog : gset string;
  gc_statslog : gset string;
  gc_deltalog : gset string;
  gc_idSegments : gmap Z SegmentInfo;
}.

Definition log_paths (logs : list PbFieldBinlog) : gset string :=
  list_to_set (map pb_LogPath (concat (map pfb_Binlogs logs))).

Inductive Verdict :=
  | ValidKey
  | NoSegmentID
  | WaitingForGC (segmentID : Z)
  | MaybeGarbage.

Section gc.
Context {K : Type} `{MetaKV K} `{ProtoCodec SegmentInfo} `{ProtoCodec PbFieldBinlog}.

(** A failed fill leaves what was filled; a panic goes on. *)
Definition add_segment (cli : K) (basePath : string) (info : ModelSegment K) (g : GcMeta) : res GcMeta :=
  let '(segment, e) := FillFieldsIfV2 cli basePath (sg_info info) in
  match e with
  | Panic w => Panic w
  | _ =>
      let ids := <[si_ID segment := segment]> (gc_idSegments g) in
      if isSegmentHealthy segment then
        Ok (MkGcMeta (log_paths (si_Binlogs segment) ∪ gc_binlog g)
              (log_paths (si_Statslogs segment) ∪ gc_statslog g)
              (log_paths (si_Deltalogs segment) ∪ gc_deltalog g) ids)
      else Ok (MkGcMeta (gc_binlog g) (gc_statslog g) (gc_deltalog g) ids)
  end.

(** What the report says of a key of the object store. *)
Definition verdict (minioRootPath : string) (logsMap : gset string)
    (idSegments : gmap Z SegmentInfo) (key : string) : Verdict :=
  if bool_decide (key ∈ logsMap) then ValidKey
  else
    match ParseSegmentIDByBinlog minioRootPath key with
    | Ok segmentID =>
        match idSegments !! segmentID with
        | Some segment =>
            if bool_decide (si_State segment = SegmentState_Dropped) then WaitingForGC segmentID
            else MaybeGarbage
        | None => MaybeGarbage
        end
    | _ => NoSegmentID
    end.

(** [garbageCollect]: the report, a line per object. *)
Definition garbageCollect (cli : K) (basePath : string) (ListObjects : string → list string)
    (minioRootPath : string) : res (list (string * Verdict)) :=
  segments ← ListSegments cli basePath [λ _, true];
  g ← foldM (add_segment cli basePath) segments (MkGcMeta ∅ ∅ ∅ ∅);
  let walk prefix logsMap :=
    map (λ key, (key, verdict minioRootPath logsMap (gc_idSegments g) key))
      (ListObjects (path_Join [minioRootPath; prefix])) in
  Ok (walk insertLogPrefix (gc_binlog g) ++ walk statsLogPrefix (gc_statslog g)
      ++ walk deltaLogPrefix (gc_deltalog g)).
End gc.

(** ** [verify_segment.go] *)

(** [strings.Replace(s, old, new, 1)]. *)
Definition Replace1 (s old new : string) : string :=
  match SplitStr s old with
  | p :: q :: r => p +:+ new +:+ Join old (q :: r)
  | _ => s
  end.

(** The value of [strconv.ParseInt] whose error is only printed, and whether it parsed. *)
Definition ParseInt_value (s : string) : Z * bool :=
  match ParseInt s with
  | Some z => (z, true)
  | None =>
      (match s with
       | String "-" t => match parse_nat10 t with Some _ => - 2 ^ 63 | None => 0 end
       | String "+" t => match parse_nat10 t with Some _ => 2 ^ 63 - 1 | None => 0 end
       | _ => match parse_nat10 s with Some _ => 2 ^ 63 - 1 | None => 0 end
       end, false)
  end.

Inductive LogTag := TagBinlog | TagStatslog | TagDeltalog.

Section verify.
Context {K : Type} `{MetaKV K} `{ProtoCodec SegmentInfo} `{ProtoCodec PbFieldBinlog}.

(** The [n]-th part of the path from the end. *)
Definition part_from_end (splits : list string) (n : Z) : res (Z * bool) :=
  p ← go_index splits (zlen splits - n); Ok (ParseInt_value p).

(** The removal for a missing file, with the numbers at the end of its path.  Only the error
    of the last number parsed, the collection's, is tested; the removal's is printed. *)
Definition fix_missing (cli : K) (basePath : string) (fix_ : bool) (tag : LogTag) (logPath : string)
    : K * res unit :=
  let splits := Split "/" logPath in
  let printed (r : K * res unit) : K * res unit :=
    match r with (cli, Panic w) => (cli, Panic w) | (cli, _) => (cli, Ok tt) end in
  match tag with
  | TagDeltalog =>
      match ('(logID, _) ← part_from_end splits 1; '(segmentID, _) ← part_from_end splits 2;
             '(partitionID, _) ← part_from_end splits 3; '(collectionID, ok) ← part_from_end splits 4;
             Ok (logID, segmentID, partitionID, collectionID, ok)) with
      | Ok (logID, segmentID, partitionID, collectionID, ok) =>
          if fix_ && ok then
            printed (RemoveSegmentDeltaLogPath cli basePath collectionID partitionID segmentID logID)
          else (cli, Ok tt)
      | Err e => (cli, Err e)
      | Panic w => (cli, Panic w)
      end
  | _ =>
      match ('(logID, _) ← part_from_end splits 1; '(fieldID, _) ← part_from_end splits 2;
             '(segmentID, _) ← part_from_end splits 3; '(partitionID, _) ← part_from_end splits 4;
             '(collectionID, ok) ← part_from_end splits 5;
             Ok (logID, fieldID, segmentID, partitionID, collectionID, ok)) with
      | Ok (logID, fieldID, segmentID, partitionID, collectionID, ok) =>
          if fix_ && ok then
            printed (match tag with TagBinlog => RemoveSegmentInsertLogPath | _ => RemoveSegmentStatLogPath end
              cli basePath collectionID partitionID segmentID fieldID logID)
          else (cli, Ok tt)
      | Err e => (cli, Err e)
      | Panic w => (cli, Panic w)
      end
  end.

(** [stat]: nothing for an object that is there, or the code of the error. *)
Definition verify_log (stat : string → option string) (basePath RootPath : string) (fix_ : bool)
    (tag : LogTag) (logPath : string) (cli : K) : K * res unit :=
  let logPath := Replace1 logPath "ROOT_PATH" RootPath in
  match stat logPath with
  | Some code => if bool_decide (code = "NoSuchKey") then fix_missing cli basePath fix_ tag logPath
                 else (cli, Ok tt)
  | None => (cli, Ok tt)
  end.

Fixpoint verify_logs (stat : string → option string) (basePath RootPath : string) (fix_ : bool)
    (logs : list (LogTag * string)) (cli : K) : K * res unit :=
  match logs with
  | [] => (cli, Ok tt)
  | (tag, l) :: logs =>
      let '(cli, e) := verify_log stat basePath RootPath fix_ tag l cli in
      match e with Ok _ => verify_logs stat basePath RootPath fix_ logs cli | e => (cli, e) end
  end.

Definition tagged (tag : LogTag) (logs : list ModelFieldBinlog) : list (LogTag * string) :=
  map (λ b, (tag, bl_LogPath b)) (concat (map mfb_Binlogs logs)).

(** The logs of a segment, loaded from the store as it is when its turn comes. *)
Definition segment_logs (cli : K) (segment : ModelSegment K) : list (LogTag * string) :=
  let s := load_once cli segment in
  tagged TagBinlog (sg_binlogs s) ++ tagged TagStatslog (sg_statslogs s)
  ++ tagged TagDeltalog (sg_deltalogs s).

Fixpoint verify_segments (stat : string → option string) (basePath RootPath : string) (fix_ : bool)
    (segments : list (ModelSegment K)) (cli : K) : K * res unit :=
  match segments with
  | [] => (cli, Ok tt)
  | segment :: segments =>
      let '(cli, e) := verify_logs stat basePath RootPath fix_ (segment_logs cli segment) cli in
      match e with Ok _ => verify_segments stat basePath RootPath fix_ segments cli | e => (cli, e) end
  end.

Definition VerifySegmentCommnad (cli : K) (basePath : string) (CollectionID : Z) (RootPath : string)
    (fix_ : bool) (access : res (string → option string)) : K * res unit :=
  match (segments ← ListSegments cli basePath
           [λ seg, bool_decide (si_CollectionID (sg_info seg) = CollectionID)
                   && bool_decide (si_State (sg_info seg) = SegmentState_Flushed)];
         stat ← access; Ok (segments, stat)) with
  | Ok (segments, stat) => verify_segments stat basePath RootPath fix_ segments cli
  | Err e => (cli, Err e)
  | Panic w => (cli, Panic w)
  end.
End verify.

(** ** [scan_deltalog.go] *)
Record ScanDeltalogParams := MkScanDeltalog {
  sd_CollectionID : Z;
  sd_SegmentID : Z;
  sd_Expr : string;
  sd_Action : string;
  sd_Limit : Z;
  sd_IncludeUnhealthy : bool;
}.

(** A line of the "locate" action: segment, log, offset, key and time stamp. *)
Record FoundEntry := MkFound {
  fe_segment : Z; fe_log : string; fe_offset : Z; fe_pk : any; fe_ts : Z
}.
Record ScanCount := MkScanCount { sc_count : Z; sc_found : list FoundEntry }.

Section scan_deltalog.
Context {F C J R P K : Type} `{Parquet F C} `{JsonMap J} `{JsonDoc R} `{ExprLang P} `{MetaKV K}.
Context `{ProtoCodec CollectionInfo} `{ProtoCodec Collections.FieldSchema}.
Context `{ProtoCodec StructArrayFieldSchema} `{ProtoCodec FunctionSchema}.
Context `{ProtoCodec SegmentInfo} `{ProtoCodec PbFieldBinlog}.
Context (description : Collections.FieldSchema → string).

(** [process]; its result tells whether to go on.  It is nil for other actions. *)
Definition process (p : ScanDeltalogParams) (segment : Z) (logPath : string) (pk : PrimaryKey)
    (ts offset : Z) (st : ScanCount) : res (ScanCount * bool) :=
  if bool_decide (sd_Action p = "count") then
    Ok (MkScanCount (int64 (sc_count st + 1)) (sc_found st), true)
  else if bool_decide (sd_Action p = "locate") then
    let count := int64 (sc_count st + 1) in
    Ok (MkScanCount count (sc_found st ++ [MkFound segment logPath offset (PK_GetValue pk) ts]),
        bool_decide (sd_Limit p <= 0) || bool_decide (count < sd_Limit p))
  else Panic nil_dereference.

(** The filter: [None] ends the loop over the entries. *)
Definition expr_match (p : ScanDeltalogParams) (pk : PrimaryKey) (ts : Z) : res (option bool) :=
  if bool_decide (sd_Expr p = "") then Ok (Some true)
  else
    match expr_Compile (P:=P) (sd_Expr p) with
    | Ok program =>
        match expr_Run program {["$pk" := PK_GetValue pk; "$timestamp" := VUint64 ts]} with
        | Ok (VBool b) => Ok (Some b)
        | Ok _ | Err _ => Ok None
        | Panic w => Panic w
        end
    | Err _ => Ok None
    | Panic w => Panic w
    end.

(** The callback of [Range]; [process]'s own result is dropped. *)
Definition scan_entry (p : ScanDeltalogParams) (segment : Z) (logPath : string) (pk : PrimaryKey)
    (ts : Z) (st : res ScanCount * Z) : (res ScanCount * Z) * bool :=
  let '(acc, offset) := st in
  match acc with
  | Ok acc =>
      match expr_match p pk ts with
      | Ok None => ((Ok acc, int64 (offset + 1)), false)
      | Ok (Some false) => ((Ok acc, int64 (offset + 1)), true)
      | Ok (Some true) =>
          match process p segment logPath pk ts offset acc with
          | Ok (acc, _) => ((Ok acc, int64 (offset + 1)), true)
          | Err e => ((Err e, offset), false)
          | Panic w => ((Panic w, offset), false)
          end
      | Err e => ((Err e, offset), false)
      | Panic w => ((Panic w, offset), false)
      end
  | _ => (st, false)
  end.

(** One delta log: its first event. *)
Definition scan_log (p : ScanDeltalogParams) (getObject : string → res (list byte)) (pkType segment : Z)
    (logPath : string) (st : ScanCount) : res ScanCount :=
  deltaObj ← getObject logPath;
  '(_, rest) ← NewDeltalogReader (J:=J) deltaObj;
  '(deltaData, _) ← Deltalog_NextEventReader (F:=F) pkType rest;
  r ← DeltaData_Range deltaData (scan_entry p segment logPath) (Ok st, 0);
  r.1.

Definition scan_segment (p : ScanDeltalogParams) (getObject : string → res (list byte)) (pkType : Z)
    (cli : K) (segment : ModelSegment K) (st : ScanCount) : res ScanCount :=
  foldM (λ b st, scan_log p getObject pkType (si_ID (sg_info segment)) (bl_LogPath b) st)
    (concat (map mfb_Binlogs (GetDeltalogs cli segment).2)) st.

(** What is printed: the entries found, and the total for the "count" action. *)
Definition ScanDeltalogCommand (p : ScanDeltalogParams) (cli : K) (basePath : string)
    (minio : res ((string → res (list byte)) * string)) : res (list FoundEntry * option Z) :=
  collection ← GetCollectionByIDVersion cli basePath (sd_CollectionID p);
  '(pkField, ok) ← GetPKField description collection;
  if negb ok then Err (Errorf "pk field not found")
  else
    segments ← ListSegments cli basePath [λ s,
      (bool_decide (sd_SegmentID p = 0) || bool_decide (sd_SegmentID p = si_ID (sg_info s)))
      && bool_decide (sd_CollectionID p = si_CollectionID (sg_info s))
      && (sd_IncludeUnhealthy p || negb (bool_decide (si_State (sg_info s) = SegmentState_Dropped)))];
    '(get, rootPath) ← minio;
    let getObject path := get (ReplaceAll path "ROOT_PATH" rootPath) in
    st ← foldM (scan_segment p getObject (mf_DataType pkField) cli) segments (MkScanCount 0 []);
    Ok (sc_found st, if bool_decide (strings_ToLower (sd_Action p) = "count") then Some (sc_count st) else None).
End scan_deltalog.

(** ** Downloads

    Which object is written to which file; the contents are copied as they are.  A failure
    leaves the rest. *)
Definition Download : Type := string * string.

Fixpoint download_logs (exists_ : string → bool) (target : string → string) (paths : list string)
    : list Download * bool :=
  match paths with
  | [] => ([], true)
  | p :: paths =>
      if exists_ p then
        let '(l, ok) := download_logs exists_ target paths in ((p, target p) :: l, ok)
      else ([], false)
  end.

(** [downloadPKs]: the logs of the primary key, by segment. *)
Fixpoint downloadPKs {K} (exists_ : string → bool) (rootPath folder : string) (pkID : Z) (cli : K)
    (segments : list (ModelSegment K)) : list Download * bool :=
  match segments with
  | [] => ([], true)
  | s :: segments =>
      let targetFolder := folder +:+ "/" +:+ FormatInt (si_ID (sg_info s)) in
      let logs := concat (map mfb_Binlogs
        (List.filter (λ fb, bool_decide (mfb_FieldID fb = pkID)) (GetBinlogs cli s).2)) in
      let paths := map (λ b, ReplaceAll (bl_LogPath b) "ROOT_PATH" rootPath) logs in
      let '(l, ok) := download_logs exists_ (λ p, path_Join [targetFolder; path_Base p]) paths in
      if ok : bool then
        let '(l', ok) := downloadPKs exists_ rootPath folder pkID cli segments in (l ++ l', ok)
      else (l, false)
  end.

(** [downloadSegment]: all logs, by field; the paths are used as they are. *)
Fixpoint download_fields (exists_ : string → bool) (p : string) (binlogs : list ModelFieldBinlog)
    : list Download * bool :=
  match binlogs with
  | [] => ([], true)
  | fb :: binlogs =>
      let folder := p +:+ "/" +:+ FormatInt (mfb_FieldID fb) in
      let '(l, ok) := download_logs exists_ (λ q, path_Join [folder; path_Base q])
                        (map bl_LogPath (mfb_Binlogs fb)) in
      if ok : bool then let '(l', ok) := download_fields exists_ p binlogs in (l ++ l', ok)
      else (l, false)
  end.
Definition downloadSegment {K} (exists_ : string → bool) (cli : K) (s : ModelSegment K)
    (folderPath : string) : list Download * bool :=
  download_fields exists_ (path_Join [folderPath; FormatInt (si_ID (sg_info s))]) (GetBinlogs cli s).2.

(** ** [segment_anaylsis.go]: the sizes of the logs of each field, those that are there *)
Definition StorageAnalysis {K} (stat : string → option Z) (cli : K) (segments : list (ModelSegment K))
    : list (Z * list (Z * Z)) :=
  map (λ s, (si_ID (sg_info s),
    map (λ fb, (mfb_FieldID fb,
      foldl (λ size b, int64 (size + default 0 (stat (bl_LogPath b)))) 0 (mfb_Binlogs fb)))
      (GetBinlogs cli s).2)) segments.

(** ** Properties *)

(** *** The identifiers in the paths *)
Lemma trim_leading_path c s : c ≠ "/"%char → trim_leading (String c s) = String c s.
Proof. intros Hc. simpl. destruct (ascii_dec c "/") as [->|?]; [done|]. by repeat case_match; subst. Qed.

Lemma Split_head_char sep c s : Split sep (String c s) = [String c s] → c ≠ sep.
Proof. intros Hs ->. simpl in Hs. rewrite decide_True in Hs by done. by destruct (Split sep s). Qed.

Lemma trimmed_path root kind ids :
  kind ≠ "" → Split "/" kind = [kind] →
  HasPrefix (root +:+ "/" +:+ kind +:+ "/" +:+ ids_path ids) root = true
  ∧ trim_leading (String.substring (String.length root)
      (String.length (root +:+ "/" +:+ kind +:+ "/" +:+ ids_path ids))
      (root +:+ "/" +:+ kind +:+ "/" +:+ ids_path ids))
    = kind +:+ "/" +:+ ids_path ids.
Proof.
  intros Hne Hk. split; [apply HasPrefix_app|].
  rewrite substring_app by (rewrite (string_length_app root); lia).
  destruct kind as [|c kind]; [done|]. change ("/" +:+ String c kind +:+ "/" +:+ ids_path ids)
    with (String "/" (String c (kind +:+ "/" +:+ ids_path ids))).
  change (trim_leading (String "/" ?s)) with (trim_leading s).
  apply trim_leading_path. by eapply Split_head_char.
Qed.

Lemma Split_kind_path kind ids :
  Split "/" kind = [kind] → ids ≠ [] →
  Split "/" (kind +:+ "/" +:+ ids_path ids) = kind :: map FormatInt ids.
Proof. intros Hk Hi. rewrite Split_slash, Hk. by rewrite Split_ids_path. Qed.

Lemma ParseSegmentID_field_log root kind coll part seg field log :
  kind ≠ "" → Split "/" kind = [kind] → in_s 64 seg →
  ParseSegmentIDByBinlog root (root +:+ "/" +:+ kind +:+ "/" +:+ ids_path [coll; part; seg; field; log])
  = Ok seg.
Proof.
  intros Hne Hk Hseg. unfold ParseSegmentIDByBinlog.
  destruct (trimmed_path root kind [coll; part; seg; field; log] Hne Hk) as [-> ->].
  rewrite Split_kind_path by done. cbn [negb map]. rewrite bool_decide_false by (vm_compute; tauto).
  change (zlen (kind :: _) - 3) with 3. unfold go_index. simpl. by rewrite ParseInt_FormatInt.
Qed.

(** The segment's identifier is found in the path of an insert or stats log, and never in
    that of a delta log, which has no field: of those the report can say nothing. *)
Theorem ParseSegmentIDByBinlog_spec root kind :
  kind ≠ "" → Split "/" kind = [kind] →
  (∀ coll part seg field log, in_s 64 seg →
     ParseSegmentIDByBinlog root (root +:+ "/" +:+ kind +:+ "/" +:+ ids_path [coll; part; seg; field; log])
     = Ok seg)
  ∧ ∀ coll part seg log,
     ParseSegmentIDByBinlog root (root +:+ "/" +:+ kind +:+ "/" +:+ ids_path [coll; part; seg; log])
     = Err (Errorf "not a valid binlog path").
Proof.
  intros Hne Hk. split; intros; [by apply ParseSegmentID_field_log|].
  unfold ParseSegmentIDByBinlog.
  destruct (trimmed_path root kind [coll; part; seg; log] Hne Hk) as [-> ->].
  rewrite Split_kind_path by done. cbn [negb map]. by rewrite bool_decide_true by (vm_compute; done).
Qed.

(** *** The garbage report *)
Section gc_properties.
Context {K : Type} `{MetaKV K} `{ProtoCodec SegmentInfo} `{ProtoCodec PbFieldBinlog}.
Implicit Types (cli : K).

(** A listed segment with its logs filled in, and the logs of the healthy ones. *)
Definition filled_info cli (basePath : string) (info : ModelSegment K) : SegmentInfo :=
  (FillFieldsIfV2 cli basePath (sg_info info)).1.
Definition live_logs (logs : SegmentInfo → list PbFieldBinlog) (segments : list SegmentInfo) : gset string :=
  ⋃ (map (λ s, log_paths (logs s)) (List.filter isSegmentHealthy segments)).
Definition by_id (segments : list SegmentInfo) : gmap Z SegmentInfo :=
  foldl (λ m s, <[si_ID s := s]> m) ∅ segments.

Lemma union_swap (X Y Z : gset string) : X ∪ (Y ∪ Z) = (Y ∪ X) ∪ Z.
Proof. by rewrite (assoc_L (∪)), (comm_L (∪) X). Qed.

Lemma add_segment_Ok cli basePath info g g' :
  add_segment cli basePath info g = Ok g' →
  let s := filled_info cli basePath info in
  let logs f := if isSegmentHealthy s then log_paths (f s) else ∅ in
  g' = MkGcMeta (logs si_Binlogs ∪ gc_binlog g) (logs si_Statslogs ∪ gc_statslog g)
         (logs si_Deltalogs ∪ gc_deltalog g) (<[si_ID s := s]> (gc_idSegments g)).
Proof.
  unfold add_segment, filled_info. destruct (FillFieldsIfV2 cli basePath (sg_info info)) as [s e].
  cbn [fst]. destruct (isSegmentHealthy s); rewrite ?(left_id_L ∅ (∪)); destruct e; try done; by intros [= <-].
Qed.

Lemma live_logs_cons logs s segments :
  live_logs logs (s :: segments)
  = (if isSegmentHealthy s then log_paths (logs s) else ∅) ∪ live_logs logs segments.
Proof. unfold live_logs; simpl. destruct (isSegmentHealthy s); [done|]. by rewrite (left_id_L ∅ (∪)). Qed.

Lemma add_segments_spec cli basePath segments g g' :
  foldM (add_segment cli basePath) segments g = Ok g' →
  let fs := map (filled_info cli basePath) segments in
  gc_binlog g' = live_logs si_Binlogs fs ∪ gc_binlog g
  ∧ gc_statslog g' = live_logs si_Statslogs fs ∪ gc_statslog g
  ∧ gc_deltalog g' = live_logs si_Deltalogs fs ∪ gc_deltalog g
  ∧ gc_idSegments g' = foldl (λ m s, <[si_ID s := s]> m) (gc_idSegments g) fs.
Proof.
  revert g. induction segments as [|info segments IH]; intros g Hf; cbn [map foldl].
  { injection Hf as <-. unfold live_logs; simpl. by rewrite !(left_id_L ∅ (∪)). }
  cbn [foldM] in Hf. apply res_bind_Ok in Hf as (g1 & Hg1%add_segment_Ok & Hf).
  destruct (IH _ Hf) as (-> & -> & -> & ->). rewrite !live_logs_cons, Hg1. simpl.
  split_and!; done || apply union_swap.
Qed.

(** What the report is made of: each listed object, once per prefix it is listed under, held
    against the logs of the healthy segments — those of the prefix's kind only. *)
Theorem garbageCollect_report cli basePath ListObjects root report :
  garbageCollect cli basePath ListObjects root = Ok report →
  ∃ segments, ListSegments cli basePath [λ _, true] = Ok segments
    ∧ let fs := map (filled_info cli basePath) segments in
      ∀ key v, (key, v) ∈ report ↔
        ∃ prefix logs, (prefix, logs) ∈ [(insertLogPrefix, si_Binlogs); (statsLogPrefix, si_Statslogs);
                                         (deltaLogPrefix, si_Deltalogs)]
          ∧ key ∈ ListObjects (path_Join [root; prefix])
          ∧ v = verdict root (live_logs logs fs) (by_id fs) key.
Proof.
  unfold garbageCollect. intros (segments & Hsegs & Hr)%res_bind_Ok.
  apply res_bind_Ok in Hr as (g & Hg & Hr). exists segments. split; [done|].
  destruct (add_segments_spec _ _ _ _ _ Hg) as (Hb & Hs & Hd & Hi).
  simpl in Hb, Hs, Hd, Hi. rewrite (right_id_L ∅ (∪)) in Hb, Hs, Hd.
  cbv zeta in Hr. injection Hr as Hr. subst report.
  intros key v. rewrite Hb, Hs, Hd, Hi, !elem_of_app. fold (by_id (map (filled_info cli basePath) segments)).
  assert (∀ l (f : string → Verdict), (key, v) ∈ map (λ k, (k, f k)) l ↔ key ∈ l ∧ v = f key) as Hmap.
  { intros l f. rewrite list_elem_of_fmap. naive_solver. }
  rewrite !Hmap. split.
  - intros [[Hk Hv]|[[Hk Hv]|[Hk Hv]]]; eexists _, _; (split; [|split; [exact Hk|exact Hv]]);
      rewrite !elem_of_cons; tauto.
  - intros (prefix & logs & Hin & Hk & ->). rewrite !elem_of_cons, elem_of_nil in Hin.
    destruct_or!; simplify_eq; tauto.
Qed.

(** The log paths that are filled in for stats logs start with [files/statslog], and the
    objects are looked for under [stats_log]: with the root path [files], every stats log of
    a segment whose paths were filled in is reported as garbage. *)
Theorem garbage_stats_misjudged (stats : gset string) (idSegments : gmap Z SegmentInfo)
    coll part seg field log :
  in_s 64 seg →
  (∀ p, p ∈ stats → HasPrefix p "files/statslog/" = true) →
  (∀ s, idSegments !! seg = Some s → si_State s ≠ SegmentState_Dropped) →
  verdict "files" stats idSegments
    ("files/stats_log/" +:+ ids_path [coll; part; seg; field; log]) = MaybeGarbage.
Proof.
  intros Hseg Hstats Hid. unfold verdict.
  rewrite bool_decide_false.
  2: { intros Hin%Hstats. cbn in Hin. done. }
  change ("files/stats_log/" +:+ ids_path [coll; part; seg; field; log])
    with ("files" +:+ "/" +:+ "stats_log" +:+ "/" +:+ ids_path [coll; part; seg; field; log]).
  rewrite ParseSegmentID_field_log by done.
  destruct (idSegments !! seg) as [s|] eqn:E; [|done]. by rewrite bool_decide_false by (by apply Hid).
Qed.

(** The paths that [FillFieldsIfV2] makes for the stats logs of a segment that stores none. *)
Lemma filled_stats_prefix cli basePath s s' :
  fill_if_empty cli basePath "statslog"
    (λ fieldID logID, "files/statslog/" +:+ ids_path (segment_ids s ++ [fieldID; logID]))
    si_Statslogs with_Statslogs s = (s', Ok tt) →
  si_Statslogs s = [] →
  (∀ fields keys, ListProtoObjects (T:=PbFieldBinlog) cli
      (path_Join [basePath; "datacoord-meta"; "statslog" +:+ "/" +:+ ids_path (segment_ids s)]) []
      = Ok (fields, keys) →
     Forall (λ f, Forall (λ b, pb_LogPath b = "") (pfb_Binlogs f)) fields) →
  ∀ p, p ∈ log_paths (si_Statslogs s') → HasPrefix p "files/statslog/" = true.
Proof.
  intros Hfill Hnone Hstored p Hp. unfold fill_if_empty in Hfill. rewrite Hnone in Hfill.
  rewrite bool_decide_true in Hfill by done.
  destruct (fill_logs _ _ _) as [l|e|w] eqn:Hl; simplify_eq.
  unfold fill_logs in Hl. apply res_bind_Ok in Hl as ([fields keys] & Hlist & Hl).
  injection Hl as <-. pose proof (Hstored _ _ Hlist) as Hall. clear Hlist Hstored.
  unfold log_paths in Hp. cbn [si_Statslogs with_Statslogs] in Hp.
  apply elem_of_list_to_set, list_elem_of_fmap in Hp as (b & -> & Hb).
  apply list_elem_of_In, in_concat in Hb as (bs & Hbs & Hb).
  apply in_map_iff in Hbs as (f & <- & Hf). apply in_map_iff in Hf as (f0 & <- & Hf0).
  cbn [pfb_Binlogs] in Hb. apply in_map_iff in Hb as (b0 & <- & Hb0). cbn [pb_LogPath].
  rewrite list.Forall_forall in Hall. specialize (Hall f0 ltac:(by apply list_elem_of_In)).
  rewrite list.Forall_forall in Hall. specialize (Hall b0 ltac:(by apply list_elem_of_In)).
  rewrite bool_decide_true by done. apply HasPrefix_app.
Qed.
End gc_properties.

(** *** The verification of segments *)
Section verify_properties.
Context {K : Type} `{MetaKVLaws K} `{ProtoCodec SegmentInfo} `{ProtoCodec PbFieldBinlog}.
Implicit Types (c : K).

(** The directories that the removals of [verify-segment] are in. *)
Definition fix_kinds : list string := ["insert_log"; "delta_log"; "stats_log"].
Definition fix_dir (base kind : string) : string := joined [base; "datacoord-meta"; kind].

Definition kept (base : string) (fix_ : bool) c c' : Prop :=
  healthy c' ∧ (fix_ = false → c' = c)
  ∧ ∀ k, (∀ kind, kind ∈ fix_kinds → HasPrefix k (fix_dir base kind +:+ "/") = false) →
      mk_map c' !! k = mk_map c !! k.

Lemma kept_refl base fix_ c : healthy c → kept base fix_ c c.
Proof. intros Hc. split; [exact Hc|]. split; [done|]. by intros. Qed.
Lemma kept_trans base fix_ c1 c2 c3 : kept base fix_ c1 c2 → kept base fix_ c2 c3 → kept base fix_ c1 c3.
Proof.
  intros (_ & H12 & Hk12) (Hh & H23 & Hk23). split; [exact Hh|]. split.
  - intros Hf. by rewrite H23, H12.
  - intros k Hk. by rewrite Hk23, Hk12.
Qed.

Lemma remove_log_kept base kind ids c :
  healthy c → is_path base → kind ∈ fix_kinds → ids ≠ [] →
  ∃ c' r, mk_Remove c (path_Join [base; "datacoord-meta"; kind; ids_path ids]) = (c', r)
    ∧ kept base true c c' ∧ ∀ w, r ≠ Panic w.
Proof.
  intros Hc Hb Hk Hi.
  assert (Forall is_path [base; "datacoord-meta"; kind; ids_path ids]) as Hall.
  { unfold fix_kinds in Hk. rewrite !elem_of_cons, elem_of_nil in Hk.
    destruct_or!; try done; subst kind; each_path; by apply ids_path_is_path. }
  rewrite path_Join_joined by done.
  destruct (healthy_Remove c (joined [base; "datacoord-meta"; kind; ids_path ids]) Hc)
    as (c' & r & Hr & Hc' & Hm & Hor & _); [by apply joined_is_path|].
  exists c', r. split; [done|]. split; [|by intros w; destruct Hor as [->| ->]].
  split; [exact Hc'|]. split; [done|]. intros k Hkk. rewrite Hm. apply lookup_delete_ne. intros Heq.
  specialize (Hkk kind Hk).
  assert (HasPrefix (joined [base; "datacoord-meta"; kind; ids_path ids])
            (fix_dir base kind +:+ "/") = true) as Hpre.
  { unfold fix_dir. rewrite !joined_cons by done. unfold joined; cbn [Join].
    rewrite <-!string_app_assoc. apply HasPrefix_app. }
  rewrite <-Heq, Hpre in Hkk. done.
Qed.

Lemma fix_missing_kept base fix_ tag logPath c :
  healthy c → is_path base → kept base fix_ c (fix_missing c base fix_ tag logPath).1.
Proof.
  intros Hc Hb. unfold fix_missing.
  assert (∀ kind ids, kind ∈ fix_kinds → ids ≠ [] → kept base true c
    (match mk_Remove c (path_Join [base; "datacoord-meta"; kind; ids_path ids]) with
     | (cli, Panic w) => (cli, Panic w) | (cli, _) => (cli, Ok tt) end : K * res unit).1) as Hrm.
  { intros kind ids Hk Hi. destruct (remove_log_kept base kind ids c Hc Hb Hk Hi) as (c' & r & -> & Hkept & _).
    by destruct r. }
  destruct fix_; [|cbn [andb]; repeat case_match; simplify_eq/=; by apply kept_refl].
  destruct tag;
    (destruct (_ ≫= _) as [r|e|w]; [|by apply kept_refl..]);
    repeat match goal with x : (_ * _)%type |- _ => destruct x end; cbn [andb];
    match goal with |- context [if ?b then _ else _] => destruct b end; try (by apply kept_refl);
    apply Hrm; done || clean_dec.
Qed.

Lemma verify_logs_kept stat base RootPath fix_ logs c :
  healthy c → is_path base → kept base fix_ c (verify_logs stat base RootPath fix_ logs c).1.
Proof.
  intros Hc Hb. revert c Hc. induction logs as [|[tag l] logs IH]; intros c Hc; [by apply kept_refl|].
  simpl. unfold verify_log.
  assert (∀ r : K * res unit, kept base fix_ c r.1 → kept base fix_ c
    (let '(cli, e) := r in match e with Ok _ => verify_logs stat base RootPath fix_ logs cli | e => (cli, e) end).1) as Hgo.
  { intros [c1 e] Hk. simpl in Hk. destruct e; [|done..]. eapply kept_trans; [done|]. apply IH, Hk. }
  destruct (stat _) as [code|]; [|by apply IH].
  case_bool_decide; [|by apply IH]. apply (Hgo (fix_missing c base fix_ tag _)). by apply fix_missing_kept.
Qed.

Lemma verify_segments_kept stat base RootPath fix_ segments c :
  healthy c → is_path base → kept base fix_ c (verify_segments stat base RootPath fix_ segments c).1.
Proof.
  intros Hc Hb. revert c Hc. induction segments as [|s segments IH]; intros c Hc; [by apply kept_refl|].
  simpl. pose proof (verify_logs_kept stat base RootPath fix_ (segment_logs c s) c Hc Hb) as Hk.
  destruct (verify_logs _ _ _ _ _ _) as [c1 e]. simpl in Hk. destruct e; [|done..].
  eapply kept_trans; [done|]. apply IH, Hk.
Qed.

(** The command changes nothing without the flag to fix; with it, nothing outside of three
    directories.  These are not the ones that the segments and their logs are stored in: those
    records are all as before. *)
Theorem VerifySegment_keeps_segments c base CollectionID RootPath fix_ access :
  healthy c → is_path base →
  let c' := (VerifySegmentCommnad c base CollectionID RootPath fix_ access).1 in
  healthy c' ∧ (fix_ = false → c' = c)
  ∧ ∀ kind k, seg_kind kind → HasPrefix k (joined [base; "datacoord-meta/" +:+ kind] +:+ "/") = true →
      mk_map c' !! k = mk_map c !! k.
Proof.
  intros Hc Hb. cbv zeta.
  assert (kept base fix_ c (VerifySegmentCommnad c base CollectionID RootPath fix_ access).1) as (Hh & Hf & Hk).
  { unfold VerifySegmentCommnad. destruct (_ ≫= _) as [[segments stat]|e|w]; [|by apply kept_refl..].
    by apply verify_segments_kept. }
  split; [done|]. split; [done|]. intros kind k Hkind Hpre. apply Hk. intros kind' Hkind'.
  destruct (HasPrefix k (fix_dir base kind' +:+ "/")) eqn:E; [|done]. exfalso.
  apply HasPrefix_dir_Split in Hpre as (r & Hr & _), E as (r' & Hr' & _). rewrite Hr in Hr'.
  unfold fix_dir in Hr'. rewrite !Split_joined in Hr' by done. cbn [map concat] in Hr'.
  rewrite <-!app_assoc in Hr'. apply app_inv_head in Hr'.
  unfold seg_kind in Hkind. unfold fix_kinds in Hkind'.
  rewrite !elem_of_cons, elem_of_nil in Hkind. rewrite !elem_of_cons, elem_of_nil in Hkind'.
  destruct_or!; try done; subst kind kind'; discriminate Hr'.
Qed.
End verify_properties.

(** *** The scan of delta logs *)
Section scan_properties.
Context {F C J R P : Type} `{Parquet F C} `{JsonMap J} `{JsonDoc R} `{ExprLang P}.

(** The lines for the entries of a log, from an offset on. *)
Definition found_lines (segment : Z) (logPath : string) (offset : nat) (entries : list (PrimaryKey * Z))
    : list FoundEntry :=
  imap (λ i e, MkFound segment logPath (Z.of_nat (offset + i)) (PK_GetValue e.1) e.2) entries.

Lemma visit_locate p segment logPath entries offset st :
  sd_Action p = "locate" → sd_Expr p = "" → Z.of_nat (offset + length entries) < 2 ^ 63 →
  visit (scan_entry (P:=P) p segment logPath) entries (Ok st, Z.of_nat offset)
  = (Ok (MkScanCount (foldl (λ c _, int64 (c + 1)) (sc_count st) entries)
           (sc_found st ++ found_lines segment logPath offset entries)),
     Z.of_nat (offset + length entries)).
Proof.
  intros Ha He. revert offset st. induction entries as [|[pk ts] entries IH]; intros offset st Hb.
  { simpl. rewrite app_nil_r, Nat.add_0_r. by destruct st. }
  cbn [visit]. unfold scan_entry at 1, expr_match at 1. rewrite He, bool_decide_true by done.
  unfold process. rewrite Ha. rewrite bool_decide_false by (vm_compute; discriminate).
  rewrite bool_decide_true by done. simpl in Hb.
  rewrite (wraps_id 64 (Z.of_nat offset + 1)) by (unfold in_s; lia).
  replace (Z.of_nat offset + 1) with (Z.of_nat (S offset)) by lia.
  rewrite IH by lia. simpl. rewrite <-app_assoc. unfold found_lines. simpl. rewrite Nat.add_0_r.
  rewrite Nat.add_succ_r. do 5 f_equal. apply imap_ext. intros i x _. unfold compose. simpl. by rewrite Nat.add_succ_r.
Qed.

(** With the "locate" action and no expression, a delta log contributes a line for every
    entry of its first event, with its offset — the limit does not bound them, since the
    result of the action is dropped — and nothing for the events after it. *)
Theorem scan_log_locates p getObject pkType segment logPath st obj de rest dd rest' :
  sd_Action p = "locate" → sd_Expr p = "" →
  getObject logPath = Ok obj → NewDeltalogReader (J:=J) obj = Ok (de, rest) →
  Deltalog_NextEventReader (F:=F) pkType rest = Ok (dd, rest') →
  dd_inv dd → is_Some (dd_pks dd) → zlen (dd_elems dd) < 2 ^ 63 →
  ∃ count, scan_log (F:=F) (J:=J) (P:=P) p getObject pkType segment logPath st
  = Ok (MkScanCount count (sc_found st ++ found_lines segment logPath 0 (dd_elems dd)))
    ∧ count = foldl (λ c _, int64 (c + 1)) (sc_count st) (dd_elems dd).
Proof.
  intros Ha He Hget Hreader Hevent Hinv Hpks Hlen. eexists. split; [|done].
  unfold scan_log. rewrite Hget. cbn [mbind res_bind]. rewrite Hreader. cbn [mbind res_bind].
  rewrite Hevent. cbn [mbind res_bind].
  rewrite DeltaData_Range_visit by done. cbn [mbind res_bind].
  change 0 with (Z.of_nat 0). rewrite (visit_locate _ _ _ _ _ _ Ha He) by (unfold zlen in Hlen; lia). done.
Qed.
End scan_properties.

(** ** Witnesses *)
Lemma ParseSegmentIDByBinlog_spec_witness :
  ParseSegmentIDByBinlog "files" "files/insert_log/1/2/3/100/5" = Ok 3
  ∧ ParseSegmentIDByBinlog "files" "files/insert_log/1/2/3/5" = Err (Errorf "not a valid binlog path").
Proof.
  destruct (ParseSegmentIDByBinlog_spec "files" "insert_log") as [Hf Hd]; [discriminate|reflexivity|].
  split; [apply (Hf 1 2 3 100 5); vm_compute; intuition congruence|apply (Hd 1 2 3 5)].
Defined.

Lemma garbage_stats_misjudged_witness :
  verdict "files" {["files/statslog/1/2/3/100/5"]} {[3 := sample_segment 3 4]}
    "files/stats_log/1/2/3/100/5" = MaybeGarbage.
Proof.
  apply (garbage_stats_misjudged {["files/statslog/1/2/3/100/5"]} {[3 := sample_segment 3 4]} 1 2 3 100 5).
  - vm_compute. intuition congruence.
  - intros p ->%elem_of_singleton. reflexivity.
  - intros s [_ <-]%lookup_singleton_Some. vm_compute. discriminate.
Defined.

Lemma VerifySegment_keeps_segments_witness :
  (VerifySegmentCommnad sample_segments "by-dev/meta" 1 "files" false (Ok (λ _, Some "NoSuchKey"))).1
  = sample_segments.
Proof.
  destruct (VerifySegment_keeps_segments sample_segments "by-dev/meta" 1 "files" false
    (Ok (λ _, Some "NoSuchKey"))) as (_ & Hf & _); [apply etcd_store_healthy|is_path_dec|by apply Hf].
Defined.

Lemma scan_log_locates_witness :
  let _ := documents_parquet in
  let obj := sample_file ++ event_bytes (BaseEventHeader 0 IndexFileEventType 39 (-1))
    (EventData 1 2 : indexFileEventData) [x05; x07; x01; x05; x08; x02] in
  scan_log (F:=list (list byte)) (J:=string) (R:=Z) (P:=any)
    (MkScanDeltalog 1 0 "" "locate" 1 false) (λ _, Ok obj) DataType_Int64 3 "d" (MkScanCount 0 [])
  = Ok (MkScanCount 2 [MkFound 3 "d" 0 (VInt64 7) 1; MkFound 3 "d" 1 (VInt64 8) 2]).
Proof.
  intros P obj.
  destruct (NewDeltalogReader (J:=string) obj) as [[de rest]| |] eqn:Hr;
    [|vm_compute in Hr; discriminate Hr..].
  destruct (Deltalog_NextEventReader (F:=list (list byte)) (R:=Z) DataType_Int64 rest) as [[dd rest']| |] eqn:He;
    [|vm_compute in Hr; injection Hr as <- <-; vm_compute in He; discriminate He..].
  assert (dd_elems dd = [(Int64PrimaryKey 7, 1); (Int64PrimaryKey 8, 2)] ∧ dd_inv dd ∧ is_Some (dd_pks dd))
    as (Hel & Hinv & Hpks).
  { vm_compute in Hr. injection Hr as <- <-. vm_compute in He. injection He as <- <-.
    split; [reflexivity|]. split; [vm_compute; intuition congruence|by eexists]. }
  destruct (scan_log_locates (F:=list (list byte)) (J:=string) (R:=Z) (P:=any)
    (MkScanDeltalog 1 0 "" "locate" 1 false) (λ _, Ok obj) DataType_Int64 3 "d" (MkScanCount 0 [])
    obj de rest dd rest' eq_refl eq_refl eq_refl Hr He Hinv Hpks) as (count & Hs & Hc).
  - rewrite Hel. reflexivity.
  - rewrite Hs, Hc, Hel. reflexivity.
Defined.

Lemma garbageCollect_report_witness :
  ∃ segments, ListSegments sample_segments "by-dev/meta" [λ _, true] = Ok segments.
Proof.
  destruct (garbageCollect sample_segments "by-dev/meta" (λ _, ["files/insert_log/1/2/3/100/5"]) "files")
    as [report| |] eqn:Hg; [|vm_compute in Hg; discriminate Hg..].
  destruct (garbageCollect_report _ _ _ _ _ Hg) as (segments & Hs & _). by exists segments.
Defined.
