(* ===== verification/IndexFiles.v ===== *)
(** * Index files

    Models [states/parse_file.go] and the tests of paths in [states/load_backup.go]: index
    files are read, their parameters printed, the slices of a large one put together.  The
    file system is an argument; [encoding/json] for the descriptions of slices is an
    interface. *)

From S2P Require Export BinlogPayload Paths.

(** ** Files

    What is at a path: nothing, a directory ([None]), or the bytes of a file. *)
Section files.
Context (fs : string → option (option (list byte))) (homedir_Expand : string → res string).

Definition testFile (file : string) : res unit :=
  match fs file with
  | None => Err (Errorf "no such file or directory")
  | Some None => Err (Errorf "path is directory")
  | Some (Some _) => Ok tt
  end.
Definition testFolder (folder : string) : res unit :=
  match fs folder with
  | None => Err (Errorf "no such file or directory")
  | Some None => Ok tt
  | Some (Some _) => Err (Errorf "path is not dir")
  end.

Definition openBackupFile (arg : string) : res (list byte) :=
  arg ← (if Contains arg "~" then homedir_Expand arg else Ok arg);
  _ ← testFile arg;
  match fs arg with Some (Some bs) => Ok bs | _ => Err (Errorf "failed to open") end.

(** [bytes.Trim(data, x00)], of zero bytes at both ends. *)
Fixpoint trim_left0 (bs : list byte) : list byte :=
  match bs with x00 :: bs => trim_left0 bs | _ => bs end.
Definition Trim0 (bs : list byte) : list byte := rev (trim_left0 (rev (trim_left0 bs))).

(** [json.Unmarshal] into [SliceMeta]: the name, the number of slices and the total length
    of each item; and into a map of strings. *)
Record SliceMetaItem := MkSliceMeta { sm_Name : string; sm_SliceNum : Z; sm_TotalLength : Z }.
Class SliceJson := {
  slice_Unmarshal : list byte → res (list SliceMetaItem);
  params_Unmarshal : list byte → gmap string string;
}.

Context {F C J : Type} `{Parquet F C} `{JsonMap J} `{SliceJson}.

(** The head of an index file: its key, the type of its payload and the rest.  The key must
    be a string. *)
Definition index_head (f : list byte) : res (string * Z * list byte) :=
  '(evt, rest) ← NewIndexReader (J:=J) f;
  let extra := match json_Unmarshal (ExtraBytes (de_data evt)) with Ok m => m | _ => ∅ end in
  match extra !! "key" ≫= json_as_string with
  | Some key => Ok (key, PayloadDataType (FixPartOf (de_data evt)), rest)
  | None => Panic "interface conversion: interface {} is not string"
  end.

Definition readIndexFile (file : string) (validKey : string → bool) : res (list byte) :=
  _ ← testFile file;
  f ← openBackupFile file;
  '(key, dataType, rest) ← index_head f;
  if negb (validKey key) then Err (Errorf "file meta key not valid")
  else
    '(data, _) ← IndexReader_NextEventReader (F:=F) dataType rest;
    match data with
    | [d] => Ok d
    | _ => Err (Errorf "index file suppose to contain only one block")
    end.

(** ** [parse-indexparam] *)
Inductive Parsed :=
  | DataFile
  | NotOne
  | IndexParams (params : gmap string string)
  | SliceMetaText (text : list byte).

Definition ParseIndexParam_ParseArgs (args : list string) : res string :=
  match args with [a] => Ok a | _ => Err (Errorf "should provide only one file path") end.

Definition ParseIndexParamCommand (filePath : string) : res Parsed :=
  f ← openBackupFile filePath;
  '(key, dataType, rest) ← index_head f;
  if bool_decide (key ≠ "indexParams") && bool_decide (key ≠ "SLICE_META") then Ok DataFile
  else
    '(data, _) ← IndexReader_NextEventReader (F:=F) dataType rest;
    match data with
    | [d] => Ok (if bool_decide (key = "indexParams") then IndexParams (params_Unmarshal d)
                 else SliceMetaText d)
    | _ => Ok NotOne
    end.

(** ** [validate-indexfiles] *)

(** What a file of an index adds: the index size, the data size, or a size printed. *)
Record IndexSizes := MkSizes { iz_index : Z; iz_data : Z; iz_printed : list (string * Z) }.

(** [binary.LittleEndian.Uint64] panics on less than 8 bytes. *)
Definition LittleEndian_Uint64 (bs : list byte) : res Z :=
  if bool_decide (zlen bs < 8) then Panic "index out of range" else Ok (le_get (take 8 bs)).

Definition read_named (file name : string) : res (option (list byte)) :=
  match readIndexFile file (λ key, bool_decide (key = name)) with
  | Ok bs => Ok (Some bs)
  | Err _ => Ok None
  | Panic w => Panic w
  end.

(** A file of the walk, by its path and its name. *)
Definition validate_file (indexType : string) (file : string * string) (st : IndexSizes) : res IndexSizes :=
  let '(path, name) := file in
  if bool_decide (indexType ∈ [""; "STL_SORT"]) then
    if bool_decide (name = "index_length") then
      bs ← read_named path "index_length";
      match bs with
      | Some bs => n ← LittleEndian_Uint64 bs; Ok (MkSizes (int64 n) (iz_data st) (iz_printed st))
      | None => Ok st
      end
    else if bool_decide (name = "index_data") then
      bs ← read_named path "index_data";
      match bs with
      | Some bs => Ok (MkSizes (iz_index st) (zlen bs) (iz_printed st))
      | None => Ok st
      end
    else Ok st
  else if bool_decide (indexType = "Trie") then
    if bool_decide (name ∈ ["marisa_trie_index"; "marisa_trie_str_ids"]) then
      bs ← read_named path name;
      match bs with
      | Some bs => Ok (MkSizes (iz_index st) (iz_data st) (iz_printed st ++ [(name, zlen bs)]))
      | None => Ok st
      end
    else Ok st
  else Ok st.

Definition validateIndexFolder (walk : list (string * string)) (params : gmap string string)
    : res IndexSizes :=
  foldM (validate_file (default "" (params !! "index_type"))) walk (MkSizes 0 0 []).

(** ** [assemble-indexfiles] *)
Definition tryParseSliceMeta (file : string) : res (string * Z) :=
  data ← readIndexFile file (λ key, bool_decide (key = "SLICE_META"));
  meta ← slice_Unmarshal (Trim0 data);
  match meta with
  | [item] => Ok (sm_Name item, sm_SliceNum item)
  | _ => Err (Errorf "slice_meta item is not 1")
  end.

(** The indices of the slices that a walk over the folder meets; the names are those of the
    paths. *)
Definition slice_index (prefix file : string) : option Z :=
  let file := path_Base file in
  if HasPrefix file (prefix +:+ "_") then
    ParseInt (String.substring (String.length prefix + 1) (String.length file) file)
  else None.
Definition slice_indices (prefix : string) (walk : list string) : gset Z :=
  list_to_set (omap (slice_index prefix) walk).

Definition slice_key (prefix : string) (i : Z) : string := prefix +:+ "_" +:+ FormatInt i.

(** The loop over the slices, with what was written before. *)
Fixpoint write_slices (folder prefix : string) (idxs : list Z) (output : list byte)
    : list byte * res unit :=
  match idxs with
  | [] => (output, Ok tt)
  | i :: idxs =>
      let key := slice_key prefix i in
      match readIndexFile (path_Join [folder; key]) (λ metaKey, bool_decide (metaKey = key)) with
      | Ok data => write_slices folder prefix idxs (output ++ data)
      | Err e => (output, Err e)
      | Panic w => (output, Panic w)
      end
  end.

(** [None] when no file is made. *)
Definition AssembleIndexFilesCommand (folder : string) (walk : list string)
    : option (list byte) * res unit :=
  match (_ ← testFolder folder; tryParseSliceMeta (path_Join [folder; "SLICE_META"])) with
  | Ok (prefix, num) =>
      if bool_decide (Z.of_nat (size (slice_indices prefix walk)) ≠ num) then (None, Ok tt)
      else
        let '(output, e) := write_slices folder prefix (seqZ 0 num) [] in (Some output, e)
  | Err e => (None, Err e)
  | Panic w => (None, Panic w)
  end.

(** ** Properties *)

Lemma readIndexFile_Ok file (validKey : string → bool) f key dataType rest d rest' :
  fs file = Some (Some f) → Contains file "~" = false →
  index_head f = Ok (key, dataType, rest) → validKey key = true →
  IndexReader_NextEventReader (F:=F) dataType rest = Ok ([d], rest') →
  readIndexFile file validKey = Ok d.
Proof.
  intros Hf Ht Hhead Hkey Hdata. unfold readIndexFile, openBackupFile, testFile.
  rewrite Hf, Ht. cbn [mbind res_bind]. rewrite Hf. cbn [mbind res_bind]. rewrite Hhead.
  cbn [mbind res_bind]. rewrite Hkey. cbn [negb]. rewrite Hdata. done.
Qed.

(** A slice of the folder can be read: it is an index file whose key is its name. *)
Definition has_slice (folder prefix : string) (i : Z) (d : list byte) : Prop :=
  readIndexFile (path_Join [folder; slice_key prefix i])
    (λ key, bool_decide (key = slice_key prefix i)) = Ok d.

Lemma write_slices_spec folder prefix (datas : list (list byte)) (k : nat) output :
  (∀ i d, datas !! i = Some d → has_slice folder prefix (Z.of_nat (k + i)) d) →
  write_slices folder prefix (map Z.of_nat (seq k (length datas))) output
  = (output ++ concat datas, Ok tt).
Proof.
  revert k output. induction datas as [|d datas IH]; intros k output Hd; simpl; [by rewrite app_nil_r|].
  pose proof (Hd 0%nat d eq_refl) as Hfirst. unfold has_slice in Hfirst. rewrite Nat.add_0_r in Hfirst.
  rewrite Hfirst, IH; [by rewrite <-app_assoc|]. intros i d' Hi.
  replace (S k + i)%nat with (k + S i)%nat by lia. by apply Hd.
Qed.

Lemma seqZ_map n : map Z.of_nat (seq 0 n) = seqZ 0 (Z.of_nat n).
Proof.
  unfold seqZ. rewrite Nat2Z.id. apply List.map_ext. intros. lia.
Qed.

(** When the slices met are those that the description counts and each can be read, the
    output is the slices in the order of their numbers, in whatever order the walk met them;
    when their number is another, nothing is written. *)
Theorem AssembleIndexFiles_spec folder walk prefix num (datas : list (list byte)) :
  testFolder folder = Ok tt →
  tryParseSliceMeta (path_Join [folder; "SLICE_META"]) = Ok (prefix, num) →
  (Z.of_nat (size (slice_indices prefix walk)) ≠ num →
     AssembleIndexFilesCommand folder walk = (None, Ok tt))
  ∧ (Z.of_nat (size (slice_indices prefix walk)) = num → zlen datas = num →
     (∀ i d, datas !! i = Some d → has_slice folder prefix (Z.of_nat i) d) →
     AssembleIndexFilesCommand folder walk = (Some (concat datas), Ok tt)).
Proof.
  intros Hfolder Hmeta. unfold AssembleIndexFilesCommand. rewrite Hfolder. cbn [mbind res_bind].
  rewrite Hmeta. split.
  - intros Hn. by rewrite bool_decide_true.
  - intros Hn Hl Hd. rewrite bool_decide_false by tauto.
    rewrite <-Hl. unfold zlen. rewrite <-seqZ_map.
    by rewrite (write_slices_spec folder prefix datas 0 []).
Qed.

(** The names of the slices give their numbers; other names give none. *)
Theorem slice_index_spec prefix file :
  (∀ i, in_s 64 i → path_Base file = slice_key prefix i → slice_index prefix file = Some i)
  ∧ (HasPrefix (path_Base file) (prefix +:+ "_") = false → slice_index prefix file = None).
Proof.
  unfold slice_index. split; [|by intros ->]. intros i Hi ->. unfold slice_key.
  rewrite <-string_app_assoc, HasPrefix_app.
  replace (String.length prefix + 1)%nat with (String.length (prefix +:+ "_"))
    by (by rewrite string_length_app).
  rewrite substring_app by (rewrite (string_length_app (prefix +:+ "_")); lia).
  by apply ParseInt_FormatInt.
Qed.
End files.

(** ** A folder with two slices

    The payload of an index file is a byte per value. *)
#[local] Instance byte_column : Parquet (list byte) (list byte) := {
  NewParquetReader bs := Ok bs;
  NumRowGroups _ := 1;
  NumRows r _ := zlen r;
  Column r _ _ := Ok r;
  ChunkType _ := PInt32;
  ReadBatch p c n dst :=
    match p return list (phys_val p) → res (list (phys_val p) * Z * Z) with
    | PInt32 => λ dst, Ok (map Z_of_byte c ++ drop (length c) dst, zlen c, zlen c)
    | _ => λ _, Err (Errorf "type")
    end dst;
}.
#[local] Instance one_item : SliceJson := {|
  slice_Unmarshal bs :=
    match bs with n :: _ => Ok [MkSliceMeta "idx" (Z_of_byte n) 0] | [] => Err (Errorf "end of JSON") end;
  params_Unmarshal _ := ∅
|}.
Definition index_file (key : string) (payload : list byte) : list byte :=
  let d := {| FixPartOf := FixPart 1 2 3 4 0 0 DataType_Int8; ExtraLength := Z.of_nat (length (bytes_of_string ("key=" +:+ key)));
              ExtraBytes := bytes_of_string ("key=" +:+ key); Extras := {["key" := key]};
              PostHeaderLengths := PostHeaderLengths (newDescriptorEventData (J:=string)) |} in
  binary_Write fx_int32 MagicNumberV1 ++ baseEventHeader_Write newDescriptorEventHeader
  ++ descriptor_Write d
  ++ event_bytes (BaseEventHeader 0 IndexFileEventType (33 + zlen payload) (-1))
       (EventData 1 2 : indexFileEventData) payload.
Definition index_folder (p : string) : option (option (list byte)) :=
  if bool_decide (p = "d") then Some None
  else if bool_decide (p = "d/SLICE_META") then Some (Some (index_file "SLICE_META" [x02; x00]))
  else if bool_decide (p = "d/idx_0") then Some (Some (index_file "idx_0" [x61; x62]))
  else if bool_decide (p = "d/idx_1") then Some (Some (index_file "idx_1" [x63]))
  else None.

Lemma AssembleIndexFiles_spec_witness :
  AssembleIndexFilesCommand (F:=list byte) (J:=string) index_folder Ok "d"
    ["d"; "d/idx_1"; "d/SLICE_META"; "d/idx_0"] = (Some [x61; x62; x63], Ok tt).
Proof.
  destruct (AssembleIndexFiles_spec (F:=list byte) (J:=string) index_folder Ok "d"
    ["d"; "d/idx_1"; "d/SLICE_META"; "d/idx_0"] "idx" 2 [[x61; x62]; [x63]]) as [_ Hd].
  - reflexivity.
  - vm_compute. reflexivity.
  - apply Hd; [vm_compute; reflexivity|reflexivity|].
    intros [|[|i]] d Hi; [injection Hi as <-; vm_compute; reflexivity..|discriminate Hi].
Defined.

Lemma slice_index_spec_witness : slice_index "idx" "d/idx_12" = Some 12.
Proof.
  destruct (slice_index_spec "idx" "d/idx_12") as [Hi _].
  apply Hi; [vm_compute; intuition congruence|reflexivity].
Defined.
