(* ===== verification/Healthz.v ===== *)
(** * Health checks

    Models [states/healthz] and [states/healthz.go]: the check items, each a function of
    the metadata store and, for some, of what running nodes answer, and the command that
    runs them.  What a node answers is an argument of the check. *)

From S2P Require Export Repair StateUtil.

(** ** What nodes answer

    [querypb.GetDataDistributionResponse] as far as it is read. *)
Record SegmentVersionInfo := MkSegmentVersion {
  sv_ID : Z;
  sv_Collection : Z;
  sv_IndexInfo : list string;
  sv_Channel : string;
  sv_Partition : Z;
  sv_Level : Z;
  sv_JsonStatsInfo : gmap Z string;
}.
Record LeaderView := MkLeaderView {
  lv_Channel : string;
  lv_Collection : Z;
  lv_GrowingSegmentIDs : list Z;
  lv_GrowingSegments : gmap Z MsgPosition;
}.
Record DataDistribution := MkDistribution {
  ds_NodeID : Z;
  ds_Channels : list (string * Z * Z);       (* name, collection, version *)
  ds_Segments : list SegmentVersionInfo;
  ds_LeaderViews : list LeaderView;
}.

(** [indexpb.SegmentIndex]. *)
Record SegmentIndex := MkSegmentIndex {
  sx_CollectionID : Z;
  sx_SegmentID : Z;
  sx_IndexID : Z;
  sx_BuildID : Z;
  sx_State : Z;
  sx_SerializeSize : Z;
  sx_rest : string;
}.
#[export] Instance SegmentIndex_eq_dec : EqDecision SegmentIndex.
Proof. solve_decision. Defined.

(** ** Reports *)
Inductive ExtraValue :=
  | EInt (z : Z)
  | EInts (l : list Z)
  | EString (s : string)
  | EStrings (l : list string).

Record HealthzCheckReport := MkReport {
  hr_Item : string;
  hr_Msg : string;
  hr_Extra : gmap string ExtraValue;
}.

(** [PrintAs] in the JSON format: the item and the message are entered into the extras. *)
Definition json_output (r : HealthzCheckReport) : gmap string ExtraValue :=
  <["msg" := EString (hr_Msg r)]> (<["item" := EString (hr_Item r)]> (hr_Extra r)).

(** [lo.Uniq], the first of equal elements. *)
Definition lo_Uniq (l : list Z) : list Z := removeDuplicateSegmentIDFn l ∅.
(** [Collect] of a set, in the order of a range. *)
Definition Collect `{MapOrder} (s : gset Z) : list Z := map fst (range (gset_to_gmap tt s)).

Section healthz.
Context {K : Type} `{MetaKV K} `{MapOrder}.
Context `{ProtoCodec CollectionInfo} `{ProtoCodec FieldSchema} `{ProtoCodec StructArrayFieldSchema}.
Context `{ProtoCodec FunctionSchema} `{ProtoCodec SegmentInfo} `{ProtoCodec PbFieldBinlog}.
Context `{ProtoCodec PartitionInfo} `{ProtoCodec DatabaseInfo} `{ProtoCodec SegmentIndex}.
Context `{JsonSession}.

(** The interface [HealthzCheckItem]. *)
Record HealthzCheckItem := MkCheckItem {
  it_Name : string;
  it_Check : K → string → res (list HealthzCheckReport);
}.

(** *** [mixed_binlogs.go] *)
Definition add_version (sets : gset Z * gset Z) (binlog : ModelFieldBinlog) : gset Z * gset Z :=
  match mfb_ChildFields binlog with
  | [] => ({[mfb_FieldID binlog]} ∪ sets.1, sets.2)
  | children => (sets.1, list_to_set children ∪ sets.2)
  end.

Definition mixed_report (cli : K) (s : ModelSegment K) : option HealthzCheckReport :=
  let '(v1, v2) := foldl add_version (∅, ∅) (GetBinlogs cli s).2 in
  let result := v1 ∩ v2 in
  if bool_decide (0 < Z.of_nat (size result)) then
    let id := si_ID (sg_info s) in
    Some (MkReport "MIXED_BINLOGS"
      ("Segment " +:+ FormatInt id +:+ " has both v1 & v2 binlog records")
      (<["segment_id" := EInt id]> {["duplicated_fields" := EInts (Collect result)]}))
  else None.

Definition MixedBinlogs_Check (cli : K) (basePath : string) : res (list HealthzCheckReport) :=
  segments ← ListSegments cli basePath [];
  Ok (omap (M:=list) (mixed_report cli) segments).

(** *** [dynamic_attr_mismatch.go]; [break] after the first dynamic field *)
Definition dynamic_report (c : Collection) : option HealthzCheckReport :=
  let collFlag := from_option cs_EnableDynamicField false (ci_Schema (co_proto c)) in
  let fields := from_option cs_Fields [] (ci_Schema (co_proto c)) in
  option_map (λ f, MkReport "DYNAMIC_ATTR_MISMATCH" "Dynamic attribute mismatch"
    (<["collection" := EInt (ci_ID (co_proto c))]>
      (<["dynamic_field" := EString (fs_Name f)]> {["dynamic_field_id" := EInt (fs_FieldID f)]})))
    (List.find (λ f, fs_IsDynamic f && negb collFlag) fields).

Definition dynamicAttrMismatch_Check (cli : K) (basePath : string) : res (list HealthzCheckReport) :=
  collections ← ListCollections cli basePath [];
  Ok (omap (M:=list) dynamic_report collections).

(** *** [issue_43407.go] *)
Definition collection_ids (collections : list Collection) : gset Z :=
  list_to_set (map (λ c, ci_ID (co_proto c)) collections).

(** The collections that the coordinator names in a database: identifiers and names. *)
Definition RootCoord : Type := string → res (list Z * list string).

Definition missing_reports (inMeta : gset Z) (db : DatabaseInfo) (ids : list Z) (names : list string)
    : res (list HealthzCheckReport) :=
  rs ← mapR (λ '(idx, id),
    if bool_decide (id ∈ inMeta) then Ok None
    else
      name ← go_index names (Z.of_nat idx);
      Ok (Some (MkReport "ISS43407"
        ("Collection " +:+ FormatInt id +:+ " not found in meta but returned from rootcoord")
        (<["collection_id" := EInt id]> (<["collection_name" := EString name]>
          (<["database_id" := EInt (di_Id db)]> {["database_name" := EString (di_Name db)]})))))
    ) (imap pair ids);
  Ok (omap (M:=list) id rs).

Definition iss43407_Check (ConnectRootCoord : K → string → res RootCoord) (cli : K) (basePath : string)
    : res (list HealthzCheckReport) :=
  collections ← ListCollectionWithoutFields cli basePath [];
  ShowCollections ← ConnectRootCoord cli basePath;
  let inMeta := collection_ids collections in
  dbs ← ListDatabase cli basePath [];
  reports ← mapR (λ db : ProtoWrapper DatabaseInfo,
    '(ids, names) ← ShowCollections (di_Name (GetProto db));
    missing_reports inMeta (GetProto db) ids names) dbs;
  Ok (concat reports).

Definition orphan_report (collectionID : Z) : HealthzCheckReport :=
  MkReport "ISS43407PostRestart"
    ("Collection " +:+ FormatInt collectionID +:+ " not found in meta but referenced by partition")
    {["collection_id" := EInt collectionID]}.

Definition issue43407PostRestart_Check (cli : K) (basePath : string) : res (list HealthzCheckReport) :=
  collections ← ListCollectionWithoutFields cli basePath [];
  partitions ← ListPartitions cli basePath [];
  let collectionIDs := collection_ids collections in
  let groups := GroupBy (λ p : ProtoWrapper PartitionInfo, pi_CollectionId (GetProto p)) partitions in
  Ok (map orphan_report
        (List.filter (λ i, negb (bool_decide (i ∈ collectionIDs))) (map fst (range groups)))).

(** *** [queryview_lag.go] *)
Definition lag_report (state : string) (segmentID : Z) : HealthzCheckReport :=
  MkReport "QUERYVIEW_LAG"
    ("Sealed segment " +:+ FormatInt segmentID +:+ " still loaded while meta gc-ed")
    (<["segment_id" := EInt segmentID]> {["segment_state" := EString state]}).

Definition growings (lv : LeaderView) : list Z :=
  lo_Uniq (lo_Uniq (lv_GrowingSegmentIDs lv ++ map fst (range (lv_GrowingSegments lv)))).

Definition lag_reports (validIDs : gset Z) (resp : DataDistribution) : list HealthzCheckReport :=
  let absent := List.filter (λ i, negb (bool_decide (i ∈ validIDs))) in
  map (lag_report "sealed") (absent (map sv_ID (ds_Segments resp)))
  ++ map (lag_report "growing") (absent (concat (map growings (ds_LeaderViews resp)))).

(** A node that cannot be asked for its distribution is left out. *)
Definition QueryViewLag_Check (ConnectQueryNodes : K → string → res (list (res DataDistribution)))
    (cli : K) (basePath : string) : res (list HealthzCheckReport) :=
  segments ← ListSegments cli basePath [];
  let validIDs : gset Z := list_to_set (map (λ s, si_ID (sg_info s)) segments) in
  answers ← ConnectQueryNodes cli basePath;
  Ok (concat (map (λ a, match a with Ok resp => lag_reports validIDs resp | _ => [] end) answers)).

(** *** [loaded_index_missing.go]

    The nodes are asked concurrently.  [answer] is what becomes of one: no connection, or
    its response; [arrive] is the order in which the responses are taken from the
    channel. *)
Definition id_to_segment (segments : list (ModelSegment K)) : gmap Z (ModelSegment K) :=
  foldl (λ m s, <[si_ID (sg_info s) := s]> m) ∅ segments.

Definition index_report (id2Segment : gmap Z (ModelSegment K))
    (seg2Idx : gmap Z (list (ProtoWrapper SegmentIndex))) (nodeID : Z) (info : SegmentVersionInfo)
    : option HealthzCheckReport :=
  match id2Segment !! sv_ID info with
  | None => None
  | Some segment =>
      if bool_decide (si_NumOfRows (sg_info segment) < 2048) then None
      else
        let idxes := default [] (seg2Idx !! sv_ID info) in
        if bool_decide (zlen idxes ≠ zlen (sv_IndexInfo info)) then
          Some (MkReport "LOADED_INDEX_MISSING"
            ("segment " +:+ FormatInt (sv_ID info) +:+ " has " +:+ FormatInt (zlen idxes)
             +:+ " index, but querynode(" +:+ FormatInt nodeID +:+ ") reports "
             +:+ FormatInt (zlen (sv_IndexInfo info)))
            (<["segment_id" := EInt (sv_ID info)]> (<["loaded_indexes" := EStrings (sv_IndexInfo info)]>
              {["expected_indexes" := EInts (map (λ w, sx_IndexID (GetProto w)) idxes)]})))
        else None
  end.

Definition LoadedIndexMissing_Check (answer : Session → option (res DataDistribution))
    (arrive : list (Z * res DataDistribution) → list (Z * res DataDistribution))
    (cli : K) (basePath : string) : res (list HealthzCheckReport) :=
  segments ← ListSegments cli basePath [];
  let id2Segment := id_to_segment segments in
  segmentIndexes ← ListSegmentIndex cli basePath [];
  let seg2Idx := GroupBy (λ w : ProtoWrapper SegmentIndex, sx_SegmentID (GetProto w)) segmentIndexes in
  sessions ← ListSessions cli basePath;
  let qnSessions := List.filter (λ s, bool_decide (ServerName s = "querynode")) sessions in
  let responses := omap (M:=list) (λ s, option_map (pair (ServerID s)) (answer s)) qnSessions in
  Ok (concat (map (λ '(nodeID, r),
        match r with
        | Ok resp => omap (M:=list) (index_report id2Segment seg2Idx nodeID) (ds_Segments resp)
        | _ => []
        end) (arrive responses))).

(** *** The registry and the command

    The nodes of the cluster, as the checks reach them. *)
Record Cluster := MkCluster {
  cl_RootCoord : K → string → res RootCoord;
  cl_QueryNodes : K → string → res (list (res DataDistribution));
  cl_answer : Session → option (res DataDistribution);
  cl_arrive : list (Z * res DataDistribution) → list (Z * res DataDistribution);
}.

Definition allCheckItems (cl : Cluster) : gmap string HealthzCheckItem :=
  foldl (λ m it, <[it_Name it := it]> m) ∅
    [MkCheckItem "ISS43407" (iss43407_Check (cl_RootCoord cl));
     MkCheckItem "ISS43407PostRestart" issue43407PostRestart_Check;
     MkCheckItem "QUERYVIEW_LAG" (QueryViewLag_Check (cl_QueryNodes cl));
     MkCheckItem "DYNAMIC_ATTR_MISMATCH" dynamicAttrMismatch_Check;
     MkCheckItem "LOADED_INDEX_MISSING" (LoadedIndexMissing_Check (cl_answer cl) (cl_arrive cl));
     MkCheckItem "MIXED_BINLOGS" MixedBinlogs_Check].
Definition defaultList : list string := ["ISS43407"; "ISS43407PostRestart"].
Definition DefaultCheckItems (cl : Cluster) : list HealthzCheckItem :=
  omap (λ name, allCheckItems cl !! name) defaultList.
Definition GetHealthzCheckItem (cl : Cluster) (name : string) : option HealthzCheckItem :=
  allCheckItems cl !! name.

(** The reports as they are printed. *)
Definition HealthzCheckCommand (cl : Cluster) (Items : list string) (cli : K) (basePath : string)
    : res (list (gmap string ExtraValue)) :=
  items ← (match Items with
           | [] => Ok (DefaultCheckItems cl)
           | _ => mapR (λ name, match GetHealthzCheckItem cl name with
                                | Some item => Ok item
                                | None => Err (Errorf "unknown healthz check item")
                                end) Items
           end);
  results ← mapR (λ item, it_Check item cli basePath) items;
  Ok (map json_output (concat results)).
End healthz.

(** ** Properties *)
Section properties.
Context {K : Type} `{MetaKV K} `{MapOrder}.
Context `{ProtoCodec CollectionInfo} `{ProtoCodec FieldSchema} `{ProtoCodec StructArrayFieldSchema}.
Context `{ProtoCodec FunctionSchema} `{ProtoCodec SegmentInfo} `{ProtoCodec PbFieldBinlog}.
Context `{ProtoCodec PartitionInfo} `{ProtoCodec SegmentIndex} `{JsonSession}.

Lemma version_sets_mixed binlogs st :
  foldl add_version (fv_v1 st, fv_v2 st) binlogs
  = (fv_v1 (foldl add_binlog st binlogs), fv_v2 (foldl add_binlog st binlogs)).
Proof.
  revert st. induction binlogs as [|b l IH]; intros st; [done|]. cbn [foldl]. rewrite <-IH. f_equal.
  unfold add_version, add_binlog. by destruct (mfb_ChildFields b).
Qed.

Lemma mixed_report_target (cli : K) base s r :
  mixed_target base cli s = Ok r →
  option_map (λ r, hr_Extra r !! "segment_id") (mixed_report cli s)
  = option_map (λ t : SegmentInfo * list Z, Some (EInt (si_ID t.1))) r.
Proof.
  pose proof (version_sets_mixed (GetBinlogs cli s).2 (FieldSets ∅ ∅ ∅ ∅)) as Hv.
  cbn [fv_v1 fv_v2] in Hv. unfold mixed_target, mixed_report. rewrite Hv. cbv zeta.
  set (st := foldl add_binlog _ _). intros Hr.
  case_bool_decide as He.
  - injection Hr as <-. by rewrite He, size_empty.
  - rewrite bool_decide_true.
    2: { destruct (decide (size (fv_v1 st ∩ fv_v2 st) = 0%nat)) as [Hz|]; [|lia].
         apply size_empty_inv in Hz. by destruct He; apply leibniz_equiv. }
    res_inv. case_bool_decide; [by simplify_eq/=|]. case_bool_decide; by simplify_eq/=.
Qed.

(** C34 (equivalence): the check reports, in the order of the listing, exactly the segments that
    [repair mixed-binlogs] takes up, when the repair can decide what to remove. *)
Theorem MixedBinlogs_check_agrees (cli : K) base segments results :
  ListSegments cli base [] = Ok segments → mapR (mixed_target base cli) segments = Ok results →
  ∃ reports, MixedBinlogs_Check cli base = Ok reports
    ∧ map (λ r, hr_Extra r !! "segment_id") reports
      = map (λ t, Some (EInt (si_ID t.1))) (omap id results).
Proof.
  intros Hl Ht. unfold MixedBinlogs_Check. rewrite Hl. eexists. split; [done|]. clear Hl.
  revert results Ht. induction segments as [|s l IH]; intros results Ht; simpl in Ht; res_inv; [by subst|].
  match goal with
  | Hs : mixed_target _ _ _ = Ok _, Hl : mapR _ _ = Ok _ |- _ =>
      apply mixed_report_target in Hs; specialize (IH _ Hl)
  end.
  subst. cbn [omap list_omap]. destruct (mixed_report cli s), x; cbn in *; congruence.
Qed.

Lemma elem_of_collection_ids id collections :
  id ∈ collection_ids collections ↔ ∃ c, c ∈ collections ∧ ci_ID (co_proto c) = id.
Proof.
  unfold collection_ids. rewrite elem_of_list_to_set, list_elem_of_fmap. naive_solver.
Qed.

Lemma range_keys {A} (m : gmap Z A) : NoDup (map fst (range m)) ∧ ∀ i, i ∈ map fst (range m) ↔ is_Some (m !! i).
Proof.
  assert (map fst (range m) ≡ₚ map fst (map_to_list m)) as Hp by (by apply Permutation_map, range_perm).
  split; [rewrite Hp; apply NoDup_fst_map_to_list|]. intros i. rewrite Hp, list_elem_of_fmap. split.
  - intros ((k & v) & -> & Hin%elem_of_map_to_list). by exists v.
  - intros [v Hv]. exists (i, v). by rewrite elem_of_map_to_list.
Qed.

Lemma GroupBy_keys {A} (f : A → Z) l i : is_Some (GroupBy f l !! i) ↔ ∃ x, x ∈ l ∧ f x = i.
Proof.
  rewrite GroupBy_lookup. cbv zeta. case_decide as Hn.
  - split; [by intros []|]. intros (x & Hx & Hi). exfalso.
    assert (x ∈ filter (λ x, f x = i) l) as Hin by (by apply list_elem_of_filter).
    rewrite Hn in Hin. by apply not_elem_of_nil in Hin.
  - split; [|by eexists]. intros _. destruct (filter _ l) as [|x g] eqn:Hg; [done|].
    exists x. assert (x ∈ filter (λ x, f x = i) l) as Hx by (rewrite Hg; left).
    apply list_elem_of_filter in Hx. tauto.
Qed.

(** The check after a restart reports, once each and whatever the order of the map, the
    collections that a partition refers to and that no record is listed for. *)
Theorem PostRestart_check_spec (cli : K) base collections partitions :
  ListCollectionWithoutFields cli base [] = Ok collections →
  ListPartitions cli base [] = Ok partitions →
  ∃ ids, issue43407PostRestart_Check cli base = Ok (map orphan_report ids) ∧ NoDup ids
    ∧ ∀ id, id ∈ ids ↔ (∃ p, p ∈ partitions ∧ pi_CollectionId (GetProto p) = id)
                      ∧ ∀ c, c ∈ collections → ci_ID (co_proto c) ≠ id.
Proof.
  intros Hc Hp. unfold issue43407PostRestart_Check. rewrite Hc, Hp. cbn [mbind res_bind].
  eexists. split; [reflexivity|].
  destruct (range_keys (GroupBy (λ p : ProtoWrapper PartitionInfo, pi_CollectionId (GetProto p)) partitions)) as [Hn Hk].
  split.
  - apply NoDup_ListNoDup, List.NoDup_filter, NoDup_ListNoDup, Hn.
  - intros id. rewrite list_elem_of_In, filter_In, <-list_elem_of_In, Hk, GroupBy_keys.
    rewrite negb_true_iff, bool_decide_eq_false, elem_of_collection_ids. naive_solver.
Qed.

(** The segments that a node has loaded, sealed or growing. *)
Definition loaded_segments (resp : DataDistribution) (i : Z) : Prop :=
  i ∈ map sv_ID (ds_Segments resp)
  ∨ ∃ lv, lv ∈ ds_LeaderViews resp ∧ (i ∈ lv_GrowingSegmentIDs lv ∨ is_Some (lv_GrowingSegments lv !! i)).

Lemma elem_of_growings lv i :
  i ∈ growings lv ↔ i ∈ lv_GrowingSegmentIDs lv ∨ is_Some (lv_GrowingSegments lv !! i).
Proof.
  unfold growings, lo_Uniq. destruct (range_keys (lv_GrowingSegments lv)) as [_ Hk].
  rewrite !(proj2 (removeDuplicate_spec _ _)), elem_of_app, Hk. set_solver.
Qed.

Lemma elem_of_absent (valid : gset Z) l i :
  i ∈ List.filter (λ i, negb (bool_decide (i ∈ valid))) l ↔ i ∈ l ∧ i ∉ valid.
Proof.
  rewrite list_elem_of_In, filter_In, <-list_elem_of_In. by rewrite negb_true_iff, bool_decide_eq_false.
Qed.

Lemma lag_reports_spec valid resp i :
  (∃ r, r ∈ lag_reports valid resp ∧ hr_Extra r !! "segment_id" = Some (EInt i))
  ↔ loaded_segments resp i ∧ i ∉ valid.
Proof.
  assert (∀ state l, (∃ r, r ∈ map (lag_report state) l ∧ hr_Extra r !! "segment_id" = Some (EInt i)) ↔ i ∈ l)
    as Hm.
  { intros state l. split.
    - intros (r & (j & -> & Hj)%list_elem_of_fmap & Hs). cbn in Hs. rewrite lookup_insert_eq in Hs.
      by injection Hs as ->.
    - intros Hi. exists (lag_report state i). split; [apply list_elem_of_fmap; by exists i|].
      cbn. by rewrite lookup_insert_eq. }
  assert (i ∈ concat (map growings (ds_LeaderViews resp))
          ↔ ∃ lv, lv ∈ ds_LeaderViews resp ∧ i ∈ growings lv) as Hg.
  { rewrite list_elem_of_In, in_concat. setoid_rewrite in_map_iff. setoid_rewrite <-list_elem_of_In. naive_solver. }
  setoid_rewrite elem_of_growings in Hg.
  unfold lag_reports, loaded_segments. rewrite <-Hg. setoid_rewrite elem_of_app.
  pose proof (Hm "sealed" (List.filter (λ i, negb (bool_decide (i ∈ valid))) (map sv_ID (ds_Segments resp)))) as H1'.
  pose proof (Hm "growing" (List.filter (λ i, negb (bool_decide (i ∈ valid)))
    (concat (map growings (ds_LeaderViews resp))))) as H2'.
  rewrite elem_of_absent in H1', H2'. naive_solver.
Qed.

(** The check of the query views reports a segment exactly when a node that answers has it
    loaded, sealed or growing, and it is not listed any more. *)
Theorem QueryViewLag_check_spec connect (cli : K) base segments answers :
  ListSegments cli base [] = Ok segments → connect cli base = Ok answers →
  ∃ reports, QueryViewLag_Check connect cli base = Ok reports
    ∧ ∀ i, (∃ r, r ∈ reports ∧ hr_Extra r !! "segment_id" = Some (EInt i))
           ↔ (∃ resp, Ok resp ∈ answers ∧ loaded_segments resp i)
             ∧ ∀ s, s ∈ segments → si_ID (sg_info s) ≠ i.
Proof.
  intros Hl Ha. unfold QueryViewLag_Check. rewrite Hl, Ha. cbn [mbind res_bind]. eexists. split; [reflexivity|].
  intros i. set (valid := list_to_set _).
  assert (i ∉ valid ↔ ∀ s, s ∈ segments → si_ID (sg_info s) ≠ i) as <-.
  { unfold valid. rewrite elem_of_list_to_set, list_elem_of_fmap. naive_solver. }
  setoid_rewrite (list_elem_of_In (concat _)). setoid_rewrite in_concat. setoid_rewrite in_map_iff.
  setoid_rewrite <-list_elem_of_In. split.
  - intros (r & (l & (a & <- & Ha') & Hr) & Hs). destruct a as [resp| |]; [|by apply not_elem_of_nil in Hr..].
    destruct (proj1 (lag_reports_spec valid resp i)) as [? ?]; [by exists r|]. split; [by exists resp|done].
  - intros ((resp & Hresp & Hload) & Hv). destruct (proj2 (lag_reports_spec valid resp i)) as (r & Hr & Hs); [done|].
    exists r. split; [|done]. exists (lag_reports valid resp). split; [|done]. by exists (Ok resp).
Qed.

Lemma id_to_segment_lookup (segments : list (ModelSegment K)) i s :
  NoDup (map (λ s, si_ID (sg_info s)) segments) →
  id_to_segment segments !! i = Some s ↔ s ∈ segments ∧ si_ID (sg_info s) = i.
Proof.
  unfold id_to_segment. induction segments as [|x l IH] using rev_ind; intros Hnd.
  - simpl. rewrite lookup_empty. split; [done|]. intros [Hs _]. by apply not_elem_of_nil in Hs.
  - rewrite map_app in Hnd. apply list.NoDup_app in Hnd as (Hnd & Hx & _).
    rewrite foldl_app, elem_of_app, list_elem_of_singleton. simpl.
    destruct (decide (si_ID (sg_info x) = i)) as [Hi|Hne].
    + rewrite Hi, lookup_insert_eq. split; [intros [= <-]; tauto|]. intros [[Hs| ->] Hsi]; [|done].
      destruct (Hx i); [|rewrite <-Hi; apply list_elem_of_here]. apply list_elem_of_fmap. by exists s.
    + rewrite lookup_insert_ne, IH by done. naive_solver.
Qed.

Lemma index_report_spec (id2Segment : gmap Z (ModelSegment K)) seg2Idx nodeID info i :
  (∃ r, index_report id2Segment seg2Idx nodeID info = Some r ∧ hr_Extra r !! "segment_id" = Some (EInt i))
  ↔ sv_ID info = i ∧ ∃ s, id2Segment !! i = Some s ∧ 2048 <= si_NumOfRows (sg_info s)
    ∧ length (default [] (seg2Idx !! i)) ≠ length (sv_IndexInfo info).
Proof.
  unfold index_report. split.
  - intros (r & Hr & Hs). case_match; [|done]. case_bool_decide; [done|]. case_bool_decide; [|done].
    injection Hr as <-. cbn [hr_Extra] in Hs. rewrite lookup_insert_eq in Hs. injection Hs as <-.
    split; [done|]. eexists. split; [done|]. split; [lia|]. unfold zlen in *. lia.
  - intros (<- & s & -> & Hrows & Hlen). rewrite bool_decide_false by lia.
    rewrite bool_decide_true by (unfold zlen; lia). eexists. split; [done|]. cbn. by rewrite lookup_insert_eq.
Qed.

(** Whatever the order in which the query nodes answer, the check of their indexes reports
    a segment exactly when one of them has it loaded with another number of indexes than
    are stored for it, if it has 2048 rows or more. *)
Theorem LoadedIndexMissing_check_spec answer arrive (cli : K) base segments indexes sessions :
  (∀ l, arrive l ≡ₚ l) → ListSegments cli base [] = Ok segments →
  NoDup (map (λ s, si_ID (sg_info s)) segments) → ListSegmentIndex cli base [] = Ok indexes →
  ListSessions cli base = Ok sessions →
  ∃ reports, LoadedIndexMissing_Check answer arrive cli base = Ok reports
    ∧ ∀ i, (∃ r, r ∈ reports ∧ hr_Extra r !! "segment_id" = Some (EInt i))
      ↔ ∃ node resp info s, node ∈ sessions ∧ ServerName node = "querynode"
        ∧ answer node = Some (Ok resp) ∧ info ∈ ds_Segments resp ∧ sv_ID info = i
        ∧ s ∈ segments ∧ si_ID (sg_info s) = i ∧ 2048 <= si_NumOfRows (sg_info s)
        ∧ length (filter (λ w, sx_SegmentID (GetProto w) = i) indexes) ≠ length (sv_IndexInfo info).
Proof.
  intros Harr Hl Hnd Hx Hs. unfold LoadedIndexMissing_Check. rewrite Hl, Hx, Hs. cbn [mbind res_bind].
  eexists. split; [reflexivity|]. intros i.
  setoid_rewrite Harr. setoid_rewrite list_elem_of_In at 1. setoid_rewrite in_concat.
  setoid_rewrite in_map_iff. setoid_rewrite <-list_elem_of_In.
  assert (Hg : length (default [] (GroupBy (λ w : ProtoWrapper SegmentIndex, sx_SegmentID (GetProto w)) indexes !! i))
          = length (filter (λ w, sx_SegmentID (GetProto w) = i) indexes)).
  { rewrite GroupBy_lookup. cbv zeta. case_decide as Hn; [by rewrite Hn|done]. }
  rewrite <-Hg. set (groups := GroupBy _ _) in *. split.
  - intros (r & (l & ((nodeID & a) & <- & Ha) & Hr) & Hsi).
    apply list_elem_of_omap in Ha as (node & Hnode & Ha). apply list_elem_of_In, filter_In in Hnode as [Hnode Hq].
    destruct (answer node) as [a'|] eqn:Hans; [|done]. injection Ha as <- <-.
    destruct a' as [resp| |]; [|by apply not_elem_of_nil in Hr..].
    apply list_elem_of_omap in Hr as (info & Hinfo & Hr).
    destruct (proj1 (index_report_spec (id_to_segment segments) groups (ServerID node) info i)) as (Hid & s & Hlook & Hrows & Hlen);
      [by eexists|].
    apply id_to_segment_lookup in Hlook as [Hin Hsid]; [|done]. apply bool_decide_eq_true in Hq.
    exists node, resp, info, s. rewrite list_elem_of_In. by split_and!.
  - intros (node & resp & info & s & Hnode & Hq & Hans & Hinfo & Hid & Hin & Hsid & Hrows & Hlen).
    destruct (proj2 (index_report_spec (id_to_segment segments) groups (ServerID node) info i))
      as (r & Hr & Hsi).
    { split; [done|]. exists s. split; [by apply id_to_segment_lookup|done]. }
    exists r. split; [|done].
    exists (omap (index_report (id_to_segment segments) groups (ServerID node)) (ds_Segments resp)).
    split; [|apply list_elem_of_omap; by exists info].
    exists (ServerID node, Ok resp). split; [done|]. apply list_elem_of_omap. exists node.
    rewrite Hans. split; [|done]. apply list_elem_of_In, filter_In. rewrite <-list_elem_of_In.
    by rewrite bool_decide_true.
Qed.
End properties.

(** ** Witnesses *)
#[local] Instance mixed_log_codec : ProtoCodec PbFieldBinlog :=
  table_codec [("v1", mixed_field_binlog 100 []); ("v2", mixed_field_binlog 0 [100; 101])].

Lemma MixedBinlogs_check_agrees_witness :
  ∃ reports, MixedBinlogs_Check mixed_store "by-dev" = Ok reports
    ∧ map (λ r, hr_Extra r !! "segment_id") reports = [Some (EInt 7)].
Proof.
  assert ((segments ← ListSegments mixed_store "by-dev" []; mapR (mixed_target "by-dev" mixed_store) segments)
    = Ok [Some (sample_segment 7 4, [100])]) as Hall by (vm_compute; reflexivity).
  apply res_bind_Ok in Hall as (segments & Hl & Ht).
  exact (MixedBinlogs_check_agrees mixed_store "by-dev" segments _ Hl Ht).
Defined.

#[local] Instance partition_codec : ProtoCodec PartitionInfo :=
  table_codec [("p1", MkPartitionInfo 2 1 "_default" 0 ""); ("p5", MkPartitionInfo 3 5 "_default" 0 "")].
Definition health_store : etcdKV (gmap string string) :=
  etcd_store [("by-dev/root-coord/collection/1", "c1");
              ("by-dev/root-coord/partitions/1/2", "p1"); ("by-dev/root-coord/partitions/5/3", "p5")].

Lemma PostRestart_check_spec_witness :
  ∃ ids, issue43407PostRestart_Check health_store "by-dev" = Ok (map orphan_report ids) ∧ 5 ∈ ids.
Proof.
  destruct (ListCollectionWithoutFields health_store "by-dev" []) as [colls| |] eqn:Hc; [|vm_compute in Hc; discriminate Hc..].
  destruct (ListPartitions health_store "by-dev" []) as [parts| |] eqn:Hp; [|vm_compute in Hp; discriminate Hp..].
  destruct (PostRestart_check_spec health_store "by-dev" colls parts Hc Hp) as (ids & Hr & _ & Hids).
  exists ids. split; [exact Hr|]. apply Hids. vm_compute in Hc, Hp. injection Hc as <-. injection Hp as <-. split.
  - eexists. split; [right; left|reflexivity].
  - intros c ->%list_elem_of_singleton. vm_compute. discriminate.
Defined.

Lemma QueryViewLag_check_spec_witness :
  let answer := MkDistribution 4 [] [MkSegmentVersion 7 1 [] "" 0 0 ∅] [MkLeaderView "" 1 [9] ∅] in
  ∃ reports, QueryViewLag_Check (λ _ _, Ok [Ok answer]) mixed_store "by-dev" = Ok reports
    ∧ ∃ r, r ∈ reports ∧ hr_Extra r !! "segment_id" = Some (EInt 9).
Proof.
  intros answer.
  assert ((segments ← ListSegments mixed_store "by-dev" []; Ok (map (λ s, si_ID (sg_info s)) segments)) = Ok [7])
    as Hall by (vm_compute; reflexivity).
  apply res_bind_Ok in Hall as (segments & Hl & Hids). injection Hids as Hids.
  destruct (QueryViewLag_check_spec (λ _ _, Ok [Ok answer]) mixed_store "by-dev" segments _ Hl eq_refl)
    as (reports & Hr & Hspec).
  exists reports. split; [exact Hr|]. apply Hspec. split.
  - exists answer. split; [left|]. right. eexists. split; [left|]. left. left.
  - intros s Hs Hi. assert (9 ∈ map (λ s, si_ID (sg_info s)) segments) as Hin.
    { apply list_elem_of_fmap. exists s. split; [symmetry; exact Hi|exact Hs]. }
    rewrite Hids in Hin. apply list_elem_of_singleton in Hin. discriminate.
Defined.

#[local] Instance large_segment_codec : ProtoCodec SegmentInfo :=
  table_codec [("seg9", MkSegmentInfo 9 1 2 "by-dev-rootcoord-dml_0_1v0" 5000 4 None None [] [] [] "")].
#[local] Instance segment_index_codec : ProtoCodec SegmentIndex :=
  table_codec [("ix", MkSegmentIndex 1 9 3 4 3 100 "")].
Definition node_session : Session := MkSession 4 "querynode" "" false "" "" 0 "".
#[local] Instance node_session_codec : JsonSession :=
  {| session_Marshal _ := Ok []; session_Unmarshal _ := Ok node_session |}.
Definition index_store : etcdKV (gmap string string) :=
  etcd_store [("by-dev/datacoord-meta/s/1/2/9", "seg9"); ("by-dev/segment-index/1/2/9/4", "ix");
              ("by-dev/session/querynode-4", "{}")].

Lemma LoadedIndexMissing_check_spec_witness :
  let answer := MkDistribution 4 [] [MkSegmentVersion 9 1 [] "" 0 0 ∅] [] in
  ∃ reports, LoadedIndexMissing_Check (λ _, Some (Ok answer)) (@rev _) index_store "by-dev" = Ok reports
    ∧ ∃ r, r ∈ reports ∧ hr_Extra r !! "segment_id" = Some (EInt 9).
Proof.
  intros answer.
  assert ((segments ← ListSegments index_store "by-dev" []; Ok (map sg_info segments))
    = Ok [MkSegmentInfo 9 1 2 "by-dev-rootcoord-dml_0_1v0" 5000 4 None None [] [] [] ""])
    as Hall by (vm_compute; reflexivity).
  apply res_bind_Ok in Hall as (segments & Hl & Hinfos). injection Hinfos as Hinfos.
  destruct segments as [|s [|]]; [discriminate Hinfos| |discriminate Hinfos]. injection Hinfos as Hinfo.
  destruct (ListSegmentIndex index_store "by-dev" []) as [indexes| |] eqn:Hx; [|vm_compute in Hx; discriminate Hx..].
  destruct (ListSessions index_store "by-dev") as [sessions| |] eqn:Hs; [|vm_compute in Hs; discriminate Hs..].
  destruct (LoadedIndexMissing_check_spec (λ _, Some (Ok answer)) (@rev _) index_store "by-dev" [s] indexes sessions)
    as (reports & Hr & Hspec).
  - intros l. symmetry. apply Permutation_rev.
  - exact Hl.
  - constructor; [by intros ?%not_elem_of_nil|constructor].
  - exact Hx.
  - exact Hs.
  - exists reports. split; [exact Hr|]. apply Hspec.
    vm_compute in Hx, Hs. injection Hx as <-. injection Hs as <-.
    eexists _, answer, (MkSegmentVersion 9 1 [] "" 0 0 ∅), s. rewrite Hinfo.
    split; [left|]. do 2 (split; [reflexivity|]). split; [left|]. split; [reflexivity|]. split; [left|].
    split; [reflexivity|]. split; [vm_compute; discriminate|]. vm_compute. discriminate.
Defined.
