(* ===== verification/GoSort.v ===== *)
(** * Sorting and floating-point numbers of Go

    [sort.Slice] and the arithmetic of [float64], as far as the commands that print
    statistics use them. *)

From S2P Require Export GoStrings.
From Stdlib Require Export SpecFloat.

(** ** [sort.Slice]

    The sort is not stable: of what it does with equal elements only that the result is a
    permutation is known.  [less] compares the keys of the elements; [<=] in place of [<]
    sorts too. *)
Class SortSlice := {
  sort_Slice : ∀ {A}, (A → A → bool) → list A → list A;
  sort_perm : ∀ {A} (less : A → A → bool) l, sort_Slice less l ≡ₚ l;
  sort_sorted : ∀ {A} (key : A → Z) (less : A → A → bool) l,
    (∀ x y, less x y = bool_decide (key x < key y)) ∨ (∀ x y, less x y = bool_decide (key x <= key y)) →
    StronglySorted (λ x y, key x <= key y) (sort_Slice less l);
}.

(** An instance: insertion, which moves an element before those that it is less than. *)
Fixpoint insert_less {A} (less : A → A → bool) (x : A) (l : list A) : list A :=
  match l with
  | [] => [x]
  | y :: l => if less x y then x :: y :: l else y :: insert_less less x l
  end.
Definition insertion_sort {A} (less : A → A → bool) (l : list A) : list A :=
  foldl (λ l x, insert_less less x l) [] l.

Section insertion.
Context {A : Type} (less : A → A → bool).

Lemma insert_less_perm x l : insert_less less x l ≡ₚ x :: l.
Proof. induction l as [|y l IH]; simpl; [done|]. case_match; [done|]. rewrite IH. constructor. Qed.

Lemma insertion_sort_perm l : insertion_sort less l ≡ₚ l.
Proof.
  unfold insertion_sort. enough (∀ acc, foldl (λ l x, insert_less less x l) acc l ≡ₚ acc ++ l) as H by apply (H []).
  induction l as [|x l IH]; intros acc; simpl; [by rewrite app_nil_r|].
  rewrite IH, insert_less_perm. simpl. by apply Permutation_middle.
Qed.

Context (key : A → Z).
Hypothesis Hless :
  (∀ x y, less x y = bool_decide (key x < key y)) ∨ (∀ x y, less x y = bool_decide (key x <= key y)).

Lemma insert_less_sorted x l :
  StronglySorted (λ x y, key x <= key y) l → StronglySorted (λ x y, key x <= key y) (insert_less less x l).
Proof.
  induction l as [|y l IH]; intros Hs; simpl; [by repeat constructor|].
  apply StronglySorted_inv in Hs as [Hs Hy]. rewrite list.Forall_forall in Hy.
  destruct (less x y) eqn:Hxy.
  - assert (key x <= key y) as Hle
      by (destruct Hless as [Hl|Hl]; rewrite Hl in Hxy; apply bool_decide_eq_true in Hxy; lia).
    constructor; [constructor; [done|by apply list.Forall_forall]|].
    apply list.Forall_forall. intros z [->|Hz]%elem_of_cons; [done|]. specialize (Hy z Hz). lia.
  - assert (key y <= key x) as Hle
      by (destruct Hless as [Hl|Hl]; rewrite Hl in Hxy; apply bool_decide_eq_false in Hxy; lia).
    constructor; [by apply IH|]. apply list.Forall_forall. intros z Hz.
    rewrite insert_less_perm in Hz. apply elem_of_cons in Hz as [->|Hz]; [done|by apply Hy].
Qed.

Lemma insertion_sort_sorted l : StronglySorted (λ x y, key x <= key y) (insertion_sort less l).
Proof.
  unfold insertion_sort.
  enough (∀ acc, StronglySorted (λ x y, key x <= key y) acc →
    StronglySorted (λ x y, key x <= key y) (foldl (λ l x, insert_less less x l) acc l)) as H
    by (apply H; constructor).
  induction l as [|x l IH]; intros acc Ha; simpl; [done|]. by apply IH, insert_less_sorted.
Qed.
End insertion.

#[export] Instance insertion_SortSlice : SortSlice := {|
  sort_Slice A := insertion_sort;
  sort_perm A := insertion_sort_perm;
  sort_sorted A key less l H := insertion_sort_sorted less key H l;
|}.

(** In a sorted list the first element has a least key and the last one a greatest. *)
Lemma sorted_head_last {A} (key : A → Z) x l y :
  StronglySorted (λ x y, key x <= key y) (x :: l) → list.last (x :: l) = Some y →
  ∀ z, z ∈ x :: l → key x <= key z <= key y.
Proof.
  revert x. induction l as [|a l IH]; intros x Hs Hl z Hz.
  - injection Hl as <-. apply list_elem_of_singleton in Hz as ->. lia.
  - apply StronglySorted_inv in Hs as [Hs Hx]. rewrite list.Forall_forall in Hx.
    assert (list.last (a :: l) = Some y) as Hl' by exact Hl.
    pose proof (IH a Hs Hl' a (list_elem_of_here _ _)) as Hay.
    pose proof (Hx a (list_elem_of_here _ _)) as Hxa.
    apply elem_of_cons in Hz as [->|Hz]; [lia|]. pose proof (IH a Hs Hl' z Hz). lia.
Qed.

(** ** Ranges over maps with string keys *)
Class StringMapOrder := {
  string_range : ∀ {A}, gmap string A → list (string * A);
  string_range_perm : ∀ {A} (m : gmap string A), string_range m ≡ₚ map_to_list m;
}.
#[export] Instance string_list_order : StringMapOrder := {|
  string_range A m := map_to_list m; string_range_perm A m := Permutation_refl (map_to_list m)
|}.

(** ** [float64]

    The numbers of the IEEE 754 format with 53 bits of precision, rounded to nearest. *)
Definition float64 : Type := spec_float.
Definition float64_of (z : Z) : float64 := binary_normalize 53 1024 z 0 false.
Definition f_mul : float64 → float64 → float64 := SFmul 53 1024.
Definition f_div : float64 → float64 → float64 := SFdiv 53 1024.
Definition f_lt : float64 → float64 → bool := SFltb.
Definition f_gt (a b : float64) : bool := SFltb b a.

(** The constant [n/d] of the source, which is the nearest number. *)
Definition f_const (n d : Z) : float64 := f_div (float64_of n) (float64_of d).

(** [int64(f)]: truncation.  Out of the range the result depends on the machine; this is
    the one of amd64. *)
Definition f_trunc (f : float64) : option Z :=
  match f with
  | S754_zero _ => Some 0
  | S754_finite s m e =>
      let v := if bool_decide (0 <= e) then Z.pos m * 2 ^ e else Z.pos m / 2 ^ (- e) in
      Some (if s then - v else v)
  | _ => None
  end.
Definition int64_of (f : float64) : Z :=
  match f_trunc f with
  | Some z => if bool_decide (- 2 ^ 63 <= z) && bool_decide (z < 2 ^ 63) then z else - 2 ^ 63
  | None => - 2 ^ 63
  end.

Example f_const_ex : f_const 1 5 = S754_finite false 7205759403792794 (-55).
Proof. reflexivity. Qed.
Example int64_of_ex : int64_of (f_mul (f_const 1 10) (float64_of 12345)) = 1234.
Proof. vm_compute. reflexivity. Qed.
