(* ===== verification/KvTree.v ===== *)
(** * The tree of keys

    Models [states/etcd/show/etcd_kv_tree.go]: how many keys of the store lie below each
    prefix, level by level, and the prefixes with the most keys. *)

From S2P Require Export GoSort AuditKV.

(** [strings.TrimRight] and [strings.Trim] of one character. *)
Fixpoint strings_TrimRight (c : ascii) (s : string) : string :=
  match s with
  | "" => ""
  | String a s =>
      let r := strings_TrimRight c s in
      if bool_decide (r = "") && bool_decide (a = c) then "" else String a r
  end.
Definition strings_Trim (c : ascii) (s : string) : string := strings_TrimRight c (strings_TrimLeft c s).

(** The loop that writes the parts, leaving out empty ones. *)
Definition write_parts (start : string) (parts : list string) : string :=
  foldl (λ b p, let part := strings_Trim "/" p in if bool_decide (part = "") then b else b +:+ "/" +:+ part)
    start parts.

Definition getNthLevelPrefix (key basePrefix : string) (level : Z) : string :=
  if bool_decide (level <= 0) || negb (HasPrefix key basePrefix) then ""
  else
    let parts := Split "/" (TrimPrefix key basePrefix) in
    if bool_decide (zlen parts < level) then ""
    else write_parts (strings_Trim "/" basePrefix) (take (Z.to_nat level) parts).

(** The loop over the levels of one key, which ends at the first one without a prefix; [n]
    is the number of levels left. *)
Fixpoint count_levels (key basePrefix : string) (n : nat) (level : Z)
    (levelStats : gmap Z (gmap string Z)) : gmap Z (gmap string Z) :=
  match n with
  | O => levelStats
  | S n =>
      let prefix := getNthLevelPrefix key basePrefix level in
      if bool_decide (prefix = "") then levelStats
      else
        let stats := default ∅ (levelStats !! level) in
        count_levels key basePrefix n (level + 1)
          (<[level := <[prefix := int64 (default 0 (stats !! prefix) + 1)]> stats]> levelStats)
  end.

Definition countKeysAtEachLevel (keys : list string) (basePrefix : string) (maxLevel : Z)
    : gmap Z (gmap string Z) :=
  foldl (λ levelStats key,
    if HasPrefix key basePrefix then count_levels key basePrefix (Z.to_nat maxLevel) 1 levelStats
    else levelStats) ∅ keys.

Section print.
Context `{SortSlice} `{StringMapOrder}.

Definition printTopKPrefixes (prefixes : gmap string Z) (topK : Z) : res (list (string * Z)) :=
  let sortedPrefixes := sort_Slice (λ x y : string * Z, bool_decide (y.2 < x.2)) (string_range prefixes) in
  kept ← (if bool_decide (topK < zlen sortedPrefixes) then
            if bool_decide (topK < 0) then Panic "slice bounds out of range"
            else Ok (take (Z.to_nat topK) sortedPrefixes)
          else Ok sortedPrefixes);
  Ok (map (λ p, (TrimPrefix p.1 "/", p.2)) kept).

(** As many levels as there are are printed, from the first on. *)
Fixpoint print_levels (result : gmap Z (gmap string Z)) (topK : Z) (n : nat) (level : Z)
    : res (list (Z * list (string * Z))) :=
  match n with
  | O => Ok []
  | S n =>
      match result !! level with
      | Some prefixes =>
          l ← printTopKPrefixes prefixes topK;
          rest ← print_levels result topK n (level + 1); Ok ((level, l) :: rest)
      | None => print_levels result topK n (level + 1)
      end
  end.
Definition printLevelsInOrder (result : gmap Z (gmap string Z)) (topK : Z) :=
  print_levels result topK (size result) 1.

Definition EtcdKVTreeCommand {K} `{MetaKV K} (client : K) (Prefix : string) (Level TopK : Z)
    : res (list (Z * list (string * Z))) :=
  '(keys, _) ← mk_LoadWithPrefix client Prefix true;
  printLevelsInOrder (countKeysAtEachLevel keys Prefix Level) TopK.
End print.

Example kv_tree_ex :
  map_to_list <$> (countKeysAtEachLevel ["by-dev/meta/s/1"; "by-dev/meta/s/2"; "by-dev/kv/x"; "other"] "by-dev" 3 !! 2)
  = Some [("by-dev/kv", 1); ("by-dev/meta", 2)].
Proof. vm_compute. reflexivity. Qed.

(** ** What is counted *)

(** Is there a prefix of the key at each level from [level] to [l]? *)
Definition prefixed_levels (basePrefix key : string) (level l : Z) : bool :=
  forallb (λ j, negb (bool_decide (getNthLevelPrefix key basePrefix j = ""))) (seqZ level (l - level + 1)).
Definition counted (basePrefix : string) (level : Z) (prefix key : string) : bool :=
  HasPrefix key basePrefix && prefixed_levels basePrefix key 1 level
  && bool_decide (getNthLevelPrefix key basePrefix level = prefix).
(** The number of keys below a prefix of a level. *)
Definition keys_below (keys : list string) (basePrefix : string) (level : Z) (prefix : string) : Z :=
  zlen (List.filter (counted basePrefix level prefix) keys).

Definition look (st : gmap Z (gmap string Z)) (l : Z) (p : string) : Z := default 0 (st !! l ≫= λ m, m !! p).

Section counting.
Context (basePrefix : string).

Lemma prefixed_levels_cons key level l :
  level <= l →
  prefixed_levels basePrefix key level l
  = negb (bool_decide (getNthLevelPrefix key basePrefix level = "")) && prefixed_levels basePrefix key (level + 1) l.
Proof.
  intros Hl. unfold prefixed_levels. rewrite seqZ_cons by lia. cbn [forallb].
  by replace (Z.pred (l - level + 1)) with (l - (level + 1) + 1) by lia.
Qed.

Lemma look_insert st level (p q : string) n l :
  look (<[level := <[p := n]> (default ∅ (st !! level))]> st) l q
  = if bool_decide (l = level) && bool_decide (p = q) then n else look st l q.
Proof.
  unfold look. destruct (decide (l = level)) as [->|Hl].
  - rewrite lookup_insert_eq, (bool_decide_true (level = level)) by done. simpl. case_bool_decide as Hq.
    + by rewrite Hq, lookup_insert_eq.
    + rewrite lookup_insert_ne by done. by destruct (st !! level).
  - by rewrite lookup_insert_ne, bool_decide_false by naive_solver.
Qed.

Lemma count_levels_look key n level st l p :
  look (count_levels key basePrefix n level st) l p
  = if bool_decide (level <= l < level + Z.of_nat n) && prefixed_levels basePrefix key level l
       && bool_decide (getNthLevelPrefix key basePrefix l = p)
    then int64 (look st l p + 1) else look st l p.
Proof.
  revert level st. induction n as [|n IH]; intros level st; cbn [count_levels].
  { by rewrite bool_decide_false by lia. }
  set (prefix := getNthLevelPrefix key basePrefix level).
  destruct (decide (level <= l)) as [Hl|Hl].
  2: { rewrite (bool_decide_false (level <= l < _)) by lia. cbn [andb].
       destruct (bool_decide (prefix = "")); [done|].
       rewrite IH, (bool_decide_false (level + 1 <= l < _)), look_insert by lia.
       cbn [andb]. by rewrite (bool_decide_false (l = level)) by lia. }
  rewrite prefixed_levels_cons by done. fold prefix.
  destruct (bool_decide (prefix = "")); cbn [negb andb]; [by rewrite andb_false_r|].
  rewrite IH, look_insert.
  destruct (decide (l = level)) as [->|Hne].
  - rewrite (bool_decide_false (level + 1 <= level < _)), !(bool_decide_true (level = level)) by lia.
    rewrite (bool_decide_true (level <= level < _)) by lia. fold prefix.
    unfold prefixed_levels. replace (level - (level + 1) + 1) with 0 by lia.
    change (seqZ (level + 1) 0) with (@nil Z). cbn [andb forallb].
    destruct (bool_decide (prefix = p)) eqn:Hq; [|done]. apply bool_decide_eq_true in Hq as <-.
    unfold look. by destruct (st !! level).
  - rewrite (bool_decide_false (l = level)) by done. cbn [andb].
    by rewrite (bool_decide_ext (level + 1 <= l < level + 1 + Z.of_nat n) (level <= l < level + Z.of_nat (S n))) by lia.
Qed.

(** The levels with an entry are the first [k]. *)
Definition levels_to (k : Z) (st : gmap Z (gmap string Z)) : Prop :=
  0 <= k ∧ ∀ l, is_Some (st !! l) ↔ 1 <= l <= k.

Lemma count_levels_to key n level st k :
  levels_to k st → 1 <= level <= k + 1 → ∃ k', k <= k' ∧ levels_to k' (count_levels key basePrefix n level st).
Proof.
  revert level st k. induction n as [|n IH]; intros level st k Hk Hl; cbn [count_levels]; [by exists k|].
  destruct (bool_decide (getNthLevelPrefix key basePrefix level = "")); [by exists k|].
  destruct (IH (level + 1) (<[level := <[getNthLevelPrefix key basePrefix level :=
      int64 (default 0 (default ∅ (st !! level) !! getNthLevelPrefix key basePrefix level) + 1)]>
      (default ∅ (st !! level))]> st) (k `max` level)) as (k' & Hle & Hk').
  - destruct Hk as [H0 Hk]. split; [lia|]. intros l. destruct (decide (l = level)) as [->|Hne].
    + rewrite lookup_insert_eq. split; [lia|by eexists].
    + rewrite lookup_insert_ne by done. rewrite Hk. lia.
  - lia.
  - exists k'. split; [lia|done].
Qed.

Lemma countKeys_to keys maxLevel : ∃ k, levels_to k (countKeysAtEachLevel keys basePrefix maxLevel).
Proof.
  unfold countKeysAtEachLevel.
  enough (∀ st k, levels_to k st → ∃ k', levels_to k' (foldl (λ levelStats key,
    if HasPrefix key basePrefix then count_levels key basePrefix (Z.to_nat maxLevel) 1 levelStats
    else levelStats) st keys)) as Hall.
  { apply (Hall ∅ 0). split; [done|]. intros l. rewrite lookup_empty. split; [by intros []|lia]. }
  induction keys as [|key keys IH]; intros st k Hk; simpl; [by exists k|].
  case_match; [|by apply (IH st k)].
  destruct (count_levels_to key (Z.to_nat maxLevel) 1 st k Hk) as (k' & _ & Hk'); [destruct Hk; lia|].
  by apply (IH _ k').
Qed.

Lemma countKeys_look keys maxLevel l p :
  1 <= l <= maxLevel → zlen keys < 2 ^ 63 →
  look (countKeysAtEachLevel keys basePrefix maxLevel) l p = keys_below keys basePrefix l p.
Proof.
  intros Hl. unfold countKeysAtEachLevel, keys_below.
  induction keys as [|key keys IH] using rev_ind; intros Hlen; [done|].
  rewrite zlen_app in Hlen. unfold zlen in Hlen at 2. simpl in Hlen.
  assert (zlen (List.filter (counted basePrefix l p) keys) <= zlen keys) as Hle
    by (unfold zlen; apply inj_le, filter_length_le).
  pose proof (zlen_nonneg (List.filter (counted basePrefix l p) keys)) as H0.
  specialize (IH ltac:(lia)). revert IH Hle H0.
  rewrite foldl_app, List.filter_app, zlen_app. cbn [foldl List.filter].
  generalize (foldl (λ levelStats key,
    if HasPrefix key basePrefix then count_levels key basePrefix (Z.to_nat maxLevel) 1 levelStats
    else levelStats) ∅ keys) as st.
  generalize (zlen (List.filter (counted basePrefix l p) keys)) as cnt. intros cnt st IH Hle H0.
  unfold counted. destruct (HasPrefix key basePrefix); cbn [andb]; [|unfold zlen; simpl; lia].
  rewrite count_levels_look, (bool_decide_true (1 <= l < _)), IH by lia. cbn [andb].
  destruct (_ && _); unfold zlen at 1; simpl; [|lia].
  rewrite wraps_id by (unfold in_s; lia). lia.
Qed.
End counting.

(** ** What is printed *)
Section printing.
Context `{SortSlice} `{StringMapOrder}.

(** The first [topK] prefixes of a level: none of the others has more keys. *)
Definition top_prefixes (m : gmap string Z) (topK : Z) (ps : list (string * Z)) : Prop :=
  zlen ps = topK `min` Z.of_nat (size m)
  ∧ ∃ shown, ps = map (λ p, (TrimPrefix p.1 "/", p.2)) shown ∧ NoDup shown
    ∧ (∀ q n, (q, n) ∈ shown → m !! q = Some n)
    ∧ ∀ q n, m !! q = Some n →
        (q, n) ∈ shown ∨ zlen shown = topK ∧ ∀ q' n', (q', n') ∈ shown → n <= n'.

Lemma printTopK_spec m topK : 0 <= topK → ∃ ps, printTopKPrefixes m topK = Ok ps ∧ top_prefixes m topK ps.
Proof.
  intros Hk. unfold printTopKPrefixes. set (sorted := sort_Slice _ _).
  assert (sorted ≡ₚ map_to_list m) as Hp by (unfold sorted; by rewrite sort_perm, string_range_perm).
  assert (StronglySorted (λ x y : string * Z, - x.2 <= - y.2) sorted) as Hs.
  { apply sort_sorted with (key := λ x : string * Z, - x.2). left. intros x y. apply bool_decide_ext. lia. }
  assert (∀ q n, (q, n) ∈ sorted ↔ m !! q = Some n) as Hin by (intros q n; by rewrite Hp, elem_of_map_to_list).
  assert (NoDup sorted) as Hnd by (rewrite Hp; apply NoDup_map_to_list).
  assert (zlen sorted = Z.of_nat (size m)) as Hlen by (unfold zlen; by rewrite Hp, length_map_to_list).
  assert ((if bool_decide (topK < zlen sorted) then
             if bool_decide (topK < 0) then Panic "slice bounds out of range" else Ok (take (Z.to_nat topK) sorted)
           else Ok sorted) = Ok (take (Z.to_nat topK) sorted)) as ->.
  { rewrite (bool_decide_false (topK < 0)) by lia. case_bool_decide as Hl; [done|].
    rewrite take_ge; [done|]. unfold zlen in Hl. lia. }
  cbn [mbind res_bind]. eexists. split; [done|]. split.
  - unfold zlen in *. rewrite length_map, length_take. lia.
  - eexists. split; [done|]. rewrite <-(take_drop (Z.to_nat topK) sorted) in Hs, Hnd, Hin.
    apply list.NoDup_app in Hnd as (Hnd & _ & _). split; [done|]. split.
    + intros q n Hq. apply Hin, elem_of_app. by left.
    + intros q n [Hq|Hq]%Hin%elem_of_app; [by left|right]. split.
      * assert (0 < length (drop (Z.to_nat topK) sorted))%nat as Hd
          by (destruct (drop _ _); [by apply not_elem_of_nil in Hq|simpl; lia]).
        rewrite length_drop in Hd. unfold zlen. rewrite length_take. lia.
      * intros q' n' Hq'. pose proof (StronglySorted_app_1_elem_of _ _ _ _ _ Hs Hq' Hq). simpl in *. lia.
Qed.

Lemma print_levels_spec st topK k n level :
  0 <= topK → levels_to k st → 1 <= level → level + Z.of_nat n = k + 1 →
  ∃ out, print_levels st topK n level = Ok out ∧ map fst out = seqZ level (Z.of_nat n)
    ∧ ∀ l ps, (l, ps) ∈ out → ∃ m, st !! l = Some m ∧ top_prefixes m topK ps.
Proof.
  intros Ht [Hk Hlev]. revert level. induction n as [|n IH]; intros level H1 Hn; cbn [print_levels].
  { exists []. split; [done|]. split; [done|]. by intros l ps Hin%not_elem_of_nil. }
  destruct (proj2 (Hlev level)) as [m Hm]; [lia|]. rewrite Hm.
  destruct (printTopK_spec m topK Ht) as (ps & Hps & Htop). rewrite Hps. cbn [mbind res_bind].
  destruct (IH (level + 1)) as (out & Ho & Hf & Hin); [lia..|]. rewrite Ho. cbn [mbind res_bind].
  eexists. split; [done|]. split.
  - rewrite (seqZ_cons level) by lia. cbn [map fst]. rewrite Hf. do 2 f_equal. lia.
  - intros l ps' [Heq|Hl]%elem_of_cons; [injection Heq as -> ->; by exists m|by apply Hin].
Qed.

Lemma levels_to_size k st : levels_to k st → Z.of_nat (size st) = k.
Proof.
  intros [Hk Hl]. enough (dom st = list_to_set (seqZ 1 k)) as Hd.
  { rewrite <-size_dom, Hd, size_list_to_set by apply NoDup_seqZ. rewrite length_seqZ. lia. }
  apply set_eq. intros l. rewrite elem_of_dom, Hl, elem_of_list_to_set, elem_of_seqZ. lia.
Qed.

(** The command prints the levels that some key reaches, and below each the [TopK] prefixes
    with the most keys, with how many of the store's keys they have. *)
Theorem EtcdKVTree_spec {K} `{MetaKV K} (client : K) Prefix Level TopK keys vals :
  mk_LoadWithPrefix client Prefix true = Ok (keys, vals) → zlen keys < 2 ^ 63 → 0 <= TopK →
  ∃ out, EtcdKVTreeCommand client Prefix Level TopK = Ok out
    ∧ map fst out = seqZ 1 (zlen out)
    ∧ ∀ l, 1 <= l <= Level →
        (∀ q, 0 < keys_below keys Prefix l q → ∃ ps, (l, ps) ∈ out)
        ∧ ∀ ps, (l, ps) ∈ out → ∃ shown, ps = map (λ p, (TrimPrefix p.1 "/", p.2)) shown
          ∧ (∀ q n, (q, n) ∈ shown → n = keys_below keys Prefix l q)
          ∧ ∀ q, 0 < keys_below keys Prefix l q →
              (q, keys_below keys Prefix l q) ∈ shown
              ∨ zlen shown = TopK ∧ ∀ q' n', (q', n') ∈ shown → keys_below keys Prefix l q <= n'.
Proof.
  intros Hload Hlen Ht. unfold EtcdKVTreeCommand, printLevelsInOrder. rewrite Hload. cbn [mbind res_bind].
  set (st := countKeysAtEachLevel keys Prefix Level).
  assert (∀ l q, 1 <= l <= Level → look st l q = keys_below keys Prefix l q) as Hlook
    by (intros l q Hl; by apply countKeys_look).
  destruct (countKeys_to Prefix keys Level) as [k Hk]. fold st in Hk.
  pose proof (levels_to_size k st Hk) as Hsize.
  destruct (print_levels_spec st TopK k (size st) 1) as (out & Hout & Hf & Hin); [done|done|lia..|].
  exists out. split; [done|].
  assert (zlen out = k) as Hz.
  { apply (f_equal length) in Hf. rewrite length_map, length_seqZ in Hf. unfold zlen. lia. }
  split; [by rewrite Hz, Hf, Hsize|]. intros l Hl. split.
  - intros q Hq. rewrite <-Hlook in Hq by done. unfold look in Hq.
    assert (l ∈ map fst out) as (lp & -> & Hlp)%list_elem_of_fmap.
    { rewrite Hf, elem_of_seqZ. destruct Hk as [_ Hk]. enough (is_Some (st !! l)) by (apply Hk in H2; lia).
      destruct (st !! l); [by eexists|simpl in Hq; lia]. }
    exists lp.2. by destruct lp.
  - intros ps Hps. destruct (Hin l ps Hps) as (m & Hm & _ & shown & -> & _ & Hshown & Hrest).
    assert (∀ q, default 0 (m !! q) = keys_below keys Prefix l q) as Hbelow.
    { intros q. rewrite <-Hlook by done. unfold look. by rewrite Hm. }
    exists shown. split; [done|]. split.
    + intros q n Hq. rewrite <-Hbelow. by rewrite (Hshown q n Hq).
    + intros q Hq. apply Hrest. rewrite <-Hbelow in Hq |- *. destruct (m !! q); [done|simpl in Hq; lia].
Qed.
End printing.

(** ** Witnesses *)
Definition tree_store : etcdKV (gmap string string) :=
  NewEtcdKV (list_to_map [("by-dev/meta/s/1", ""); ("by-dev/meta/s/2", ""); ("by-dev/kv/x", "")]).

Lemma EtcdKVTree_spec_witness :
  ∃ out, EtcdKVTreeCommand tree_store "by-dev" 2 1 = Ok out ∧ map fst out = seqZ 1 (zlen out).
Proof.
  destruct (mk_LoadWithPrefix tree_store "by-dev" true) as [[keys vals]| |] eqn:Hl;
    [|vm_compute in Hl; discriminate Hl..].
  destruct (EtcdKVTree_spec tree_store "by-dev" 2 1 keys vals Hl) as (out & Ho & Hf & _).
  - vm_compute in Hl. injection Hl as <- <-. reflexivity.
  - lia.
  - exists out. split; [exact Ho|exact Hf].
Defined.
