(* ===== verification/ShowSegments.v ===== *)
(** * Segments on display

    Models [states/etcd/show/segment.go]: the selection of segments, their counts and the
    sizes of their logs, by collection and in total.  Of what is printed for one segment in
    detail the numbers and sums are modelled. *)

From S2P Require Export Healthz GoSort.

(** The fields of [datapb.SegmentInfo] that only the display reads. *)
Class SegmentFields := {
  si_MaxRowNum : SegmentInfo → Z;
  si_Level : SegmentInfo → Z;
  si_IsSorted : SegmentInfo → bool;
  si_StorageVersion : SegmentInfo → Z;
  si_TextStatsLogs : SegmentInfo → list (Z * (Z * Z));   (* field: log size, memory size *)
  SegmentLevel_String : Z → string;
}.

Record ShowSegmentParam := MkSegmentParam {
  sp_CollectionID : Z;
  sp_PartitionID : Z;
  sp_SegmentID : Z;
  sp_Format : string;
  sp_Detail : bool;
  sp_State : string;
  sp_Level : string;
  sp_Sorted : string;
  sp_StorageVersion : Z;
}.

Definition FormatBool (b : bool) : string := if b then "true" else "false".

Record segStats := MkSegStats {
  binlogLogSize : gmap Z Z;
  binlogMemSize : gmap Z Z;
  deltaLogSize : Z;
  deltaMemSize : Z;
  deltaEntryNum : Z;
  statsLogSize : Z;
  statsMemSize : Z;
}.
Definition new_segStats : segStats := MkSegStats ∅ ∅ 0 0 0 0 0.

(** The counters of the command. *)
Record SegCounters := MkSegCounters {
  totalRC : Z; healthyCnt : Z;
  growingCnt : Z; sealedCnt : Z; flushedCnt : Z; droppedCnt : Z;
  smallSegs : Z; smallCnt : Z; otherSegs : Z; otherCnt : Z;
}.
Definition new_counters : SegCounters := MkSegCounters 0 0 0 0 0 0 0 0 0 0.

(** The sums that [outputStats] prints for its scope. *)
Record StatsTotals := MkTotals {
  tt_BinlogLogSize : Z; tt_BinlogMemSize : Z;
  tt_DeltaLogSize : Z; tt_DeltaMemSize : Z; tt_DeltaEntryNum : Z;
  tt_StatsLogSize : Z; tt_StatsMemSize : Z;
}.

Section show.
Context {K : Type} `{MetaKV K} `{MapOrder} `{SegmentFields} `{EnumStrings} `{SortSlice}.
Context `{ProtoCodec SegmentInfo} `{ProtoCodec PbFieldBinlog}.

Definition segment_selected (p : ShowSegmentParam) (s : ModelSegment K) : bool :=
  let i := sg_info s in
  (bool_decide (sp_CollectionID p = 0) || bool_decide (si_CollectionID i = sp_CollectionID p))
  && (bool_decide (sp_PartitionID p = 0) || bool_decide (si_PartitionID i = sp_PartitionID p))
  && (bool_decide (sp_SegmentID p = 0) || bool_decide (si_ID i = sp_SegmentID p))
  && (bool_decide (sp_State p = "") || EqualFold (SegmentState_String (si_State i)) (sp_State p))
  && (bool_decide (sp_Level p = "") || EqualFold (SegmentLevel_String (si_Level i)) (sp_Level p))
  && (bool_decide (sp_Sorted p = "") || EqualFold (FormatBool (si_IsSorted i)) (sp_Sorted p))
  && (bool_decide (sp_StorageVersion p = -1) || bool_decide (si_StorageVersion i = sp_StorageVersion p)).

(** [float64(info.NumOfRows)/float64(info.MaxRowNum) < 0.2]. *)
Definition is_small (i : SegmentInfo) : bool :=
  f_lt (f_div (float64_of (si_NumOfRows i)) (float64_of (si_MaxRowNum i))) (f_const 1 5).

(** The [switch] over the state, after the count of the healthy ones. *)
Definition count_segment (c : SegCounters) (i : SegmentInfo) : SegCounters :=
  let live := negb (bool_decide (si_State i = SegmentState_Dropped)) in
  let in_state s := bool_decide (si_State i = s) in
  let flushed := in_state SegmentState_Flushing || in_state SegmentState_Flushed in
  let small := flushed && is_small i in
  let other := flushed && negb (is_small i) in
  let add (b : bool) x y := if b then int64 (x + y) else x in
  MkSegCounters
    (add live (totalRC c) (si_NumOfRows i)) (add live (healthyCnt c) 1)
    (add (in_state SegmentState_Growing) (growingCnt c) 1) (add (in_state SegmentState_Sealed) (sealedCnt c) 1)
    (add flushed (flushedCnt c) 1) (add (in_state SegmentState_Dropped) (droppedCnt c) 1)
    (add small (smallSegs c) 1) (add small (smallCnt c) (si_NumOfRows i))
    (add other (otherSegs c) 1) (add other (otherCnt c) (si_NumOfRows i)).

Definition plus_at (f x : Z) (m : gmap Z Z) : gmap Z Z := <[f := int64 (default 0 (m !! f) + x)]> m.

Definition add_field_log (s : segStats) (fl : Z * Binlog) : segStats :=
  MkSegStats (plus_at fl.1 (bl_LogSize fl.2) (binlogLogSize s)) (plus_at fl.1 (bl_MemSize fl.2) (binlogMemSize s))
    (deltaLogSize s) (deltaMemSize s) (deltaEntryNum s) (statsLogSize s) (statsMemSize s).
Definition add_delta_stats (s : segStats) (l : Binlog) : segStats :=
  MkSegStats (binlogLogSize s) (binlogMemSize s) (int64 (deltaLogSize s + bl_LogSize l))
    (int64 (deltaMemSize s + bl_MemSize l)) (int64 (deltaEntryNum s + bl_EntriesNum l))
    (statsLogSize s) (statsMemSize s).
Definition add_stats_log (s : segStats) (l : Binlog) : segStats :=
  MkSegStats (binlogLogSize s) (binlogMemSize s) (deltaLogSize s) (deltaMemSize s) (deltaEntryNum s)
    (int64 (statsLogSize s + bl_LogSize l)) (int64 (statsMemSize s + bl_MemSize l)).

Definition field_logs (fbl : list ModelFieldBinlog) : list (Z * Binlog) :=
  concat (map (λ fb, map (pair (mfb_FieldID fb)) (mfb_Binlogs fb)) fbl).
Definition all_logs (fbl : list ModelFieldBinlog) : list Binlog := concat (map mfb_Binlogs fbl).

Definition add_segment_stats (cli : K) (st : segStats) (info : ModelSegment K) : segStats :=
  if bool_decide (si_State (sg_info info) = SegmentState_Dropped) then st
  else
    let s := load_once cli info in
    foldl add_stats_log
      (foldl add_delta_stats (foldl add_field_log st (field_logs (sg_binlogs s))) (all_logs (sg_deltalogs s)))
      (all_logs (sg_statslogs s)).

(** [outputStats]: the lines of the fields, which the scope "Total" leaves out, and the
    sums. *)
Definition field_lines (s : segStats) : list (Z * Z * Z) :=
  map (λ '(f, logSize), (f, logSize, default 0 (binlogMemSize s !! f))) (range (binlogLogSize s)).
Definition add_totals (t : StatsTotals) (s : segStats) : StatsTotals :=
  let t := foldl (λ t '(_, logSize, memSize),
    MkTotals (int64 (tt_BinlogLogSize t + logSize)) (int64 (tt_BinlogMemSize t + memSize))
      (tt_DeltaLogSize t) (tt_DeltaMemSize t) (tt_DeltaEntryNum t) (tt_StatsLogSize t) (tt_StatsMemSize t))
    t (field_lines s) in
  MkTotals (tt_BinlogLogSize t) (tt_BinlogMemSize t)
    (int64 (tt_DeltaLogSize t + deltaLogSize s)) (int64 (tt_DeltaMemSize t + deltaMemSize s))
    (int64 (tt_DeltaEntryNum t + deltaEntryNum s)) (int64 (tt_StatsLogSize t + statsLogSize s))
    (int64 (tt_StatsMemSize t + statsMemSize s)).
Definition outputStats (scope : string) (stats : list segStats) : list (Z * Z * Z) * StatsTotals :=
  (if bool_decide (scope = "Total") then [] else concat (map field_lines stats),
   foldl add_totals (MkTotals 0 0 0 0 0 0 0) stats).

Definition countBinlogNum (fbl : list ModelFieldBinlog) : Z :=
  foldl (λ result f, int64 (result + zlen (mfb_Binlogs f))) 0 fbl.

(** [hrSize]: at most three divisions. *)
Fixpoint hr_units (sf : spec_float) (units : list string) (last : string) : spec_float * string :=
  match units with
  | [] => (sf, last)
  | u :: units =>
      if f_gt sf (f_const 1024 1) then hr_units (f_div sf (f_const 1024 1)) units u else (sf, last)
  end.
Definition hrSize (size : Z) : spec_float * string :=
  hr_units (float64_of size) ["KB"; "MB"; "GB"] "Bytes".

(** [PrintSegmentInfo]: the numbers of logs and, with the details of the logs, the lines of
    the fields and the sums.  The sizes of the text logs are added up, but the sums of the
    delta logs are printed.  The sorts are in place; nothing reads the lists afterwards. *)
Record SegmentDetail := MkSegmentDetail {
  sd_Fields : list (Z * Z * Z);        (* field, log size, log count *)
  sd_BinlogNumber : Z; sd_BinlogSize : Z; sd_BinlogMemSize : Z;
  sd_StatslogSize : Z;
  sd_DeltalogNumber : Z; sd_DeltalogSize : Z; sd_DeltalogMemSize : Z;
  sd_TextLogs : list (Z * (Z * Z));    (* field, sizes *)
  sd_TextlogSize : Z; sd_TextlogMemSize : Z;
}.
Record SegmentPrint := MkSegmentPrint {
  pr_ID : Z;
  pr_BinlogNums : Z; pr_StatslogNums : Z; pr_DeltalogNums : Z;
  pr_Detail : option SegmentDetail;
}.
Definition sum64 (l : list Z) : Z := foldl (λ sum x, int64 (sum + x)) 0 l.
Definition PrintSegmentInfo (cli : K) (info : ModelSegment K) (detailBinlog : bool) : SegmentPrint :=
  let s := load_once cli info in
  let by_field := sort_Slice (λ x y, bool_decide (mfb_FieldID x < mfb_FieldID y)) in
  let binlogs := by_field (sg_binlogs s) in
  let statslogs := by_field (sg_statslogs s) in
  let deltas := all_logs (sg_deltalogs s) in
  let deltaLogSize := sum64 (map bl_LogSize deltas) in
  let memSize := sum64 (map bl_MemSize deltas) in
  MkSegmentPrint (si_ID (sg_info s)) (countBinlogNum (sg_binlogs s)) (countBinlogNum (sg_statslogs s))
    (countBinlogNum (sg_deltalogs s))
    (if detailBinlog
     then Some (MkSegmentDetail
       (map (λ fb, (mfb_FieldID fb, sum64 (map bl_LogSize (mfb_Binlogs fb)), zlen (mfb_Binlogs fb))) binlogs)
       (countBinlogNum binlogs) (sum64 (map bl_LogSize (all_logs binlogs))) (sum64 (map bl_MemSize (all_logs binlogs)))
       (sum64 (map bl_LogSize (all_logs statslogs)))
       (countBinlogNum (sg_deltalogs s)) deltaLogSize memSize (si_TextStatsLogs (sg_info s)) deltaLogSize memSize)
     else None).

(** The row of a segment in the formats "table" and "line". *)
Inductive SegmentRow :=
  | TableRow (info : SegmentPrint)
  | LineRow (ID PartitionID : Z) (State Level : string) (NumOfRows StorageVersion : Z) (IsSorted : bool).
Definition segment_row (p : ShowSegmentParam) (cli : K) (info : ModelSegment K) : SegmentRow :=
  let i := sg_info info in
  if bool_decide (sp_Format p = "table") then TableRow (PrintSegmentInfo cli info (sp_Detail p))
  else LineRow (si_ID i) (si_PartitionID i) (SegmentState_String (si_State i)) (SegmentLevel_String (si_Level i))
         (si_NumOfRows i) (si_StorageVersion i) (si_IsSorted i).

(** What is displayed for a collection: its segments, and its sums for the format
    "statistics". *)
Record CollectionDisplay := MkCollectionDisplay {
  cd_CollectionID : Z;
  cd_Segments : list SegmentRow;
  cd_Stats : option (list (Z * Z * Z) * StatsTotals);
}.

Definition show_group (p : ShowSegmentParam) (cli : K) (collectionID : Z) (segs : list (ModelSegment K))
    (c : SegCounters) : res (SegCounters * segStats * CollectionDisplay) :=
  match segs with
  | _ :: _ =>
      if bool_decide (sp_Format p ∈ ["table"; "line"; "statistics"]) then
        let stats := if bool_decide (sp_Format p = "statistics")
                     then foldl (add_segment_stats cli) new_segStats segs else new_segStats in
        Ok (foldl count_segment c (map sg_info segs), stats,
            MkCollectionDisplay collectionID
              (if bool_decide (sp_Format p = "statistics") then [] else map (segment_row p cli) segs)
              (if bool_decide (sp_Format p = "statistics") then Some (outputStats "Collection" [stats]) else None))
      else Err (Errorf "unsupport format")
  | [] => Ok (c, new_segStats, MkCollectionDisplay collectionID [] None)
  end.

Fixpoint show_groups (p : ShowSegmentParam) (cli : K) (groups : list (Z * list (ModelSegment K)))
    (c : SegCounters) (stats : gmap Z segStats) (shown : list CollectionDisplay)
    : res (SegCounters * gmap Z segStats * list CollectionDisplay) :=
  match groups with
  | [] => Ok (c, stats, shown)
  | (collectionID, segs) :: groups =>
      '(c, s, d) ← show_group p cli collectionID segs c;
      show_groups p cli groups c (<[collectionID := s]> stats) (shown ++ [d])
  end.

(** The collections, the sums of all of them, and the counters.  A listing that fails is
    printed. *)
Definition SegmentCommand (p : ShowSegmentParam) (cli : K) (metaPath : string)
    : res (option (list CollectionDisplay * option StatsTotals * SegCounters)) :=
  match ListSegments cli metaPath [segment_selected p] with
  | Err _ => Ok None
  | Panic w => Panic w
  | Ok segments =>
      let groups := GroupBy (λ s : ModelSegment K, si_CollectionID (sg_info s)) segments in
      '(c, stats, shown) ← show_groups p cli (range groups) new_counters ∅ [];
      Ok (Some (shown,
        if bool_decide (sp_Format p = "statistics")
        then Some (outputStats "Total" (map snd (range stats))).2 else None, c))
  end.

End show.

(** ** Sums modulo 2^64

    The sums are kept in an [int64]: two numbers are the same for them when they agree
    modulo 2^64. *)
Record eq64 (a b : Z) : Prop := Eq64 { eq64_int64 : int64 a = int64 b }.
Infix "≡64" := eq64 (at level 70, no associativity).
Arguments Eq64 {_ _} _.
Arguments eq64_int64 {_ _} _.

#[export] Instance eq64_equivalence : Equivalence eq64.
Proof. split; repeat intros []; constructor; congruence. Qed.
#[export] Instance eq64_add : Proper (eq64 ==> eq64 ==> eq64) Z.add.
Proof.
  intros a b [Hab] c d [Hcd]. constructor. rewrite <-(wraps_add_l 64 a c), Hab, wraps_add_l by lia.
  by rewrite (Z.add_comm b c), <-wraps_add_l, Hcd, wraps_add_l, Z.add_comm by lia.
Qed.
Lemma int64_int64 a : int64 (int64 a) = int64 a.
Proof. pose proof (wraps_add_l 64 a 0 ltac:(lia)) as Hw. by rewrite !Z.add_0_r in Hw. Qed.
Lemma int64_eq64 a : int64 a ≡64 a.
Proof. constructor. apply int64_int64. Qed.

Definition map_sum `{Countable A} (m : gmap A Z) : Z := sum_Z snd (map_to_list m).

Lemma map_sum_insert `{Countable A} (m : gmap A Z) f v : map_sum (<[f := v]> m) = v + map_sum (delete f m).
Proof.
  unfold map_sum. rewrite <-insert_delete_eq.
  by rewrite (sum_Z_perm snd _ _ (map_to_list_insert _ _ _ (lookup_delete_eq m f))).
Qed.
Lemma map_sum_delete `{Countable A} (m : gmap A Z) f : map_sum m = default 0 (m !! f) + map_sum (delete f m).
Proof.
  destruct (m !! f) as [v|] eqn:Hv; [|by rewrite delete_id].
  by rewrite <-map_sum_insert, insert_id.
Qed.
Lemma plus_at_sum f x m : map_sum (plus_at f x m) ≡64 map_sum m + x.
Proof.
  unfold plus_at. rewrite map_sum_insert, (map_sum_delete m f), int64_eq64. constructor. f_equal. lia.
Qed.
Lemma plus_at_dom f x m : dom (plus_at f x m) = {[f]} ∪ dom m.
Proof. apply dom_insert_L. Qed.

(** The sum over the keys of another map with the same keys. *)
Lemma map_sum_keys (m m' : gmap Z Z) :
  dom m = dom m' → sum_Z (λ kv, default 0 (m' !! kv.1)) (map_to_list m) = map_sum m'.
Proof.
  intros Hd.
  assert (∀ m0 : gmap Z Z, dom m0 = dom m' →
    sum_Z (λ kv, default 0 (m' !! kv.1)) (map_to_list m0) = sum_Z (λ f, default 0 (m' !! f)) (elements (dom m'))) as Hs.
  { intros m0 Hd0. rewrite <-(sum_Z_perm (λ f, default 0 (m' !! f)) (map fst (map_to_list m0))).
    - induction (map_to_list m0); simpl; congruence.
    - apply NoDup_Permutation; [apply NoDup_fst_map_to_list|apply NoDup_elements|].
      intros f. rewrite elem_of_elements, <-Hd0, elem_of_dom, list_elem_of_fmap. split.
      + intros ((k & v) & -> & Hk%elem_of_map_to_list). by exists v.
      + intros [v Hv]. exists (f, v). by rewrite elem_of_map_to_list. }
  rewrite Hs by done. rewrite <-(Hs m') by done. unfold map_sum.
  assert (∀ kv, kv ∈ map_to_list m' → default 0 (m' !! kv.1) = kv.2) as He.
  { intros [k v] Hk%elem_of_map_to_list. simpl. by rewrite Hk. }
  revert He. generalize (map_to_list m'). intros l He. induction l as [|kv l IH]; [done|].
  rewrite !sum_Z_cons, IH, He; [done|left|]. intros; apply He; by right.
Qed.

(** ** The sums over a listing *)
Section totals.
Context {K : Type} `{MetaKV K} `{MapOrder} `{SegmentFields} `{EnumStrings} `{SortSlice}.
Context `{ProtoCodec SegmentInfo} `{ProtoCodec PbFieldBinlog}.
Implicit Types (s : segStats) (t : StatsTotals) (bs ds ss : list Binlog).

(** [s] holds the sums over logs of the fields, delta logs and stats logs; so does [t]. *)
Definition stats_of s bs ds ss : Prop :=
  map_sum (binlogLogSize s) ≡64 sum_Z bl_LogSize bs ∧ map_sum (binlogMemSize s) ≡64 sum_Z bl_MemSize bs
  ∧ dom (binlogLogSize s) = dom (binlogMemSize s)
  ∧ deltaLogSize s ≡64 sum_Z bl_LogSize ds ∧ deltaMemSize s ≡64 sum_Z bl_MemSize ds
  ∧ deltaEntryNum s ≡64 sum_Z bl_EntriesNum ds
  ∧ statsLogSize s ≡64 sum_Z bl_LogSize ss ∧ statsMemSize s ≡64 sum_Z bl_MemSize ss.
Definition totals_of bs ds ss : StatsTotals :=
  MkTotals (int64 (sum_Z bl_LogSize bs)) (int64 (sum_Z bl_MemSize bs)) (int64 (sum_Z bl_LogSize ds))
    (int64 (sum_Z bl_MemSize ds)) (int64 (sum_Z bl_EntriesNum ds)) (int64 (sum_Z bl_LogSize ss))
    (int64 (sum_Z bl_MemSize ss)).

Ltac stats_proj :=
  cbn [binlogLogSize binlogMemSize deltaLogSize deltaMemSize deltaEntryNum statsLogSize statsMemSize fst snd].

Lemma sum_Z_snoc {A} (f : A → Z) l x : sum_Z f (l ++ [x]) = sum_Z f l + f x.
Proof. rewrite sum_Z_app. simpl. lia. Qed.

Lemma stats_of_new : stats_of new_segStats [] [] [].
Proof. unfold stats_of. cbn. by rewrite !dom_empty_L. Qed.

Lemma add_field_logs s bs ds ss (fl : list (Z * Binlog)) :
  stats_of s bs ds ss → stats_of (foldl add_field_log s fl) (bs ++ map snd fl) ds ss.
Proof.
  revert s bs. induction fl as [|[f l] fl IH]; intros s bs Hs; cbn [foldl map snd].
  { by rewrite app_nil_r. }
  replace (bs ++ l :: map snd fl) with ((bs ++ [l]) ++ map snd fl) by (by rewrite <-app_assoc). apply IH.
  destruct Hs as (Hl & Hm & Hd & Hrest). unfold stats_of, add_field_log. stats_proj.
  rewrite !sum_Z_snoc, !plus_at_sum, !plus_at_dom, Hl, Hm, Hd. split_and!; done || apply Hrest.
Qed.

Lemma add_deltas s bs ds ss l : stats_of s bs ds ss → stats_of (foldl add_delta_stats s l) bs (ds ++ l) ss.
Proof.
  revert s ds. induction l as [|x l IH]; intros s ds Hs; cbn [foldl]; [by rewrite app_nil_r|].
  replace (ds ++ x :: l) with ((ds ++ [x]) ++ l) by (by rewrite <-app_assoc). apply IH.
  destruct Hs as (Hl & Hm & Hd & D1 & D2 & D3 & Hrest). unfold stats_of, add_delta_stats. stats_proj.
  rewrite !sum_Z_snoc, !int64_eq64, D1, D2, D3. split_and!; done || apply Hrest.
Qed.

Lemma add_stats_logs s bs ds ss l : stats_of s bs ds ss → stats_of (foldl add_stats_log s l) bs ds (ss ++ l).
Proof.
  revert s ss. induction l as [|x l IH]; intros s ss Hs; cbn [foldl]; [by rewrite app_nil_r|].
  replace (ss ++ x :: l) with ((ss ++ [x]) ++ l) by (by rewrite <-app_assoc). apply IH.
  destruct Hs as (Hl & Hm & Hd & D1 & D2 & D3 & D4 & D5). unfold stats_of, add_stats_log. stats_proj.
  rewrite !sum_Z_snoc, !int64_eq64, D4, D5. by split_and!.
Qed.

(** The logs of a kind of the segments that are not dropped. *)
Definition listed_logs (get : ModelSegment K → list ModelFieldBinlog) cli (segs : list (ModelSegment K))
    : list Binlog :=
  concat (map (λ info, if bool_decide (si_State (sg_info info) = SegmentState_Dropped) then []
                       else all_logs (get (load_once cli info))) segs).

Lemma listed_logs_app get cli l1 l2 :
  listed_logs get cli (l1 ++ l2) = listed_logs get cli l1 ++ listed_logs get cli l2.
Proof. unfold listed_logs. by rewrite map_app, concat_app. Qed.
Lemma listed_logs_perm get cli l1 l2 : l1 ≡ₚ l2 → listed_logs get cli l1 ≡ₚ listed_logs get cli l2.
Proof.
  induction 1 as [|x l1 l2 _ IH|x y l|]; [done|..|by etrans]; unfold listed_logs in *; cbn [map concat].
  - by rewrite IH.
  - rewrite !app_assoc. apply Permutation_app_tail, Permutation_app_comm.
Qed.

Lemma field_logs_snd fbl : map snd (field_logs fbl) = all_logs fbl.
Proof.
  unfold field_logs, all_logs. induction fbl as [|fb l IH]; [done|]. cbn [map concat].
  rewrite map_app, IH, map_map. simpl. by rewrite List.map_id.
Qed.

Lemma add_segments_stats cli s bs ds ss segs :
  stats_of s bs ds ss →
  stats_of (foldl (add_segment_stats cli) s segs) (bs ++ listed_logs sg_binlogs cli segs)
    (ds ++ listed_logs sg_deltalogs cli segs) (ss ++ listed_logs sg_statslogs cli segs).
Proof.
  revert s bs ds ss. induction segs as [|x l IH]; intros s bs ds ss Hs; cbn [foldl].
  { unfold listed_logs. simpl. by rewrite !app_nil_r. }
  unfold listed_logs. cbn [map concat]. rewrite !app_assoc. apply IH.
  unfold add_segment_stats. case_bool_decide; [by rewrite !app_nil_r|].
  rewrite <-(field_logs_snd (sg_binlogs _)). by apply add_stats_logs, add_deltas, add_field_logs.
Qed.

(** ** The counters and the totals, in closed form *)
Definition count_rows (sel : SegmentInfo → bool) (infos : list SegmentInfo) : Z :=
  int64 (sum_Z (λ i, if sel i then si_NumOfRows i else 0) infos).
Definition count_infos (sel : SegmentInfo → bool) (infos : list SegmentInfo) : Z :=
  int64 (sum_Z (λ i, if sel i then 1 else 0) infos).
Definition has_state (st : Z) (i : SegmentInfo) : bool := bool_decide (si_State i = st).
Definition is_flushed (i : SegmentInfo) : bool :=
  has_state SegmentState_Flushing i || has_state SegmentState_Flushed i.
Definition counters_of (infos : list SegmentInfo) : SegCounters :=
  let live i := negb (has_state SegmentState_Dropped i) in
  let small i := is_flushed i && is_small i in
  let other i := is_flushed i && negb (is_small i) in
  MkSegCounters (count_rows live infos) (count_infos live infos)
    (count_infos (has_state SegmentState_Growing) infos) (count_infos (has_state SegmentState_Sealed) infos)
    (count_infos is_flushed infos) (count_infos (has_state SegmentState_Dropped) infos)
    (count_infos small infos) (count_rows small infos) (count_infos other infos) (count_rows other infos).

Lemma count_add (sel : bool) (g : SegmentInfo → Z) l x :
  (if sel then int64 (int64 (sum_Z g l) + x) else int64 (sum_Z g l))
  = int64 (sum_Z g l + (if sel then x else 0)).
Proof. destruct sel; [by rewrite wraps_add_l by lia|by rewrite Z.add_0_r]. Qed.

Lemma count_segment_of l i : count_segment (counters_of l) i = counters_of (l ++ [i]).
Proof.
  unfold count_segment, counters_of, count_rows, count_infos. cbv zeta. rewrite !sum_Z_snoc.
  cbn [totalRC healthyCnt growingCnt sealedCnt flushedCnt droppedCnt smallSegs smallCnt otherSegs otherCnt].
  by rewrite !count_add.
Qed.
Lemma count_segments_of l l' : foldl count_segment (counters_of l) l' = counters_of (l ++ l').
Proof.
  revert l. induction l' as [|i l' IH]; intros l; cbn [foldl]; [by rewrite app_nil_r|].
  by rewrite count_segment_of, IH, <-app_assoc.
Qed.
Lemma counters_of_perm l l' : l ≡ₚ l' → counters_of l = counters_of l'.
Proof.
  intros Hp. unfold counters_of, count_rows, count_infos. cbv zeta.
  f_equal; f_equal; by apply sum_Z_perm.
Qed.

Definition add_line (t : StatsTotals) (x : Z * Z * Z) : StatsTotals :=
  let '(_, logSize, memSize) := x in
  MkTotals (int64 (tt_BinlogLogSize t + logSize)) (int64 (tt_BinlogMemSize t + memSize))
    (tt_DeltaLogSize t) (tt_DeltaMemSize t) (tt_DeltaEntryNum t) (tt_StatsLogSize t) (tt_StatsMemSize t).
Lemma add_lines a b c d e f g (l : list (Z * Z * Z)) :
  foldl add_line (MkTotals (int64 a) (int64 b) c d e f g) l
  = MkTotals (int64 (a + sum_Z (λ x, x.1.2) l)) (int64 (b + sum_Z snd l)) c d e f g.
Proof.
  revert a b. induction l as [|[[k x] y] l IH]; intros a b; cbn [foldl].
  { change (sum_Z _ []) with 0. by rewrite !Z.add_0_r. }
  unfold add_line at 2. cbn [tt_BinlogLogSize tt_BinlogMemSize tt_DeltaLogSize tt_DeltaMemSize tt_DeltaEntryNum
    tt_StatsLogSize tt_StatsMemSize]. rewrite !wraps_add_l by lia. rewrite IH, !sum_Z_cons. cbn [fst snd].
  by rewrite !Z.add_assoc.
Qed.

Lemma field_lines_sums s :
  dom (binlogLogSize s) = dom (binlogMemSize s) →
  sum_Z (λ x, x.1.2) (field_lines s) = map_sum (binlogLogSize s)
  ∧ sum_Z snd (field_lines s) = map_sum (binlogMemSize s).
Proof.
  intros Hd. rewrite <-(map_sum_keys _ _ Hd). unfold map_sum, field_lines.
  rewrite <-!(sum_Z_perm _ _ _ (range_perm (binlogLogSize s))).
  generalize (range (binlogLogSize s)). intros l.
  induction l as [|[k v] l [IH1 IH2]]; [done|]. cbn [map]. rewrite !sum_Z_cons, IH1, IH2. done.
Qed.

Lemma add_totals_of bs ds ss s bs' ds' ss' :
  stats_of s bs' ds' ss' →
  add_totals (totals_of bs ds ss) s = totals_of (bs ++ bs') (ds ++ ds') (ss ++ ss').
Proof.
  intros (Hl & Hm & Hd & D1 & D2 & D3 & D4 & D5). unfold add_totals.
  change (foldl _ (totals_of bs ds ss) (field_lines s)) with (foldl add_line (totals_of bs ds ss) (field_lines s)).
  unfold totals_of. rewrite add_lines. destruct (field_lines_sums s Hd) as [-> ->].
  cbn [tt_BinlogLogSize tt_BinlogMemSize tt_DeltaLogSize tt_DeltaMemSize tt_DeltaEntryNum tt_StatsLogSize
    tt_StatsMemSize]. rewrite !wraps_add_l, !sum_Z_app by lia.
  f_equal; apply eq64_int64; by rewrite ?Hl, ?Hm, ?D1, ?D2, ?D3, ?D4, ?D5.
Qed.

Definition group_stats (cli : K) (segs : list (ModelSegment K)) : segStats :=
  foldl (add_segment_stats cli) new_segStats segs.
Definition listed_totals (cli : K) (segs : list (ModelSegment K)) : StatsTotals :=
  totals_of (listed_logs sg_binlogs cli segs) (listed_logs sg_deltalogs cli segs) (listed_logs sg_statslogs cli segs).

Lemma listed_totals_perm cli l l' : l ≡ₚ l' → listed_totals cli l = listed_totals cli l'.
Proof.
  intros Hp. unfold listed_totals, totals_of.
  f_equal; f_equal; apply sum_Z_perm; by apply listed_logs_perm.
Qed.
Lemma groups_totals cli segs groups :
  foldl add_totals (listed_totals cli segs) (map (group_stats cli) groups) = listed_totals cli (segs ++ concat groups).
Proof.
  revert segs. induction groups as [|g groups IH]; intros segs; cbn [foldl map concat]; [by rewrite app_nil_r|].
  rewrite app_assoc, <-IH. f_equal. unfold listed_totals. rewrite !listed_logs_app. apply add_totals_of.
  pose proof (add_segments_stats cli _ _ _ _ g stats_of_new) as Hs. by rewrite !app_nil_l in Hs.
Qed.
(** ** The command *)
Lemma list_to_map_foldl {A} (kvs : list (Z * A)) (m : gmap Z A) :
  NoDup (map fst kvs) → foldl (λ m kv, <[kv.1 := kv.2]> m) m kvs = list_to_map kvs ∪ m.
Proof.
  revert m. induction kvs as [|[k v] kvs IH]; intros m Hn; cbn [foldl].
  { by rewrite list_to_map_nil, (left_id_L ∅ (∪)). }
  apply list.NoDup_cons in Hn as [Hk Hn]. rewrite IH by done. cbn [fst snd].
  rewrite list_to_map_cons, <-insert_union_l, <-insert_union_r; [done|].
  by apply not_elem_of_list_to_map_1.
Qed.

Definition group_display (p : ShowSegmentParam) (cli : K) (g : Z * list (ModelSegment K)) : CollectionDisplay :=
  let statistics := bool_decide (sp_Format p = "statistics") in
  MkCollectionDisplay g.1 (if statistics then [] else map (segment_row p cli) g.2)
    (if statistics then Some (outputStats "Collection" [group_stats cli g.2]) else None).

Lemma show_groups_all p cli groups c stats shown :
  sp_Format p ∈ ["table"; "line"; "statistics"] → Forall (λ g, g.2 ≠ []) groups →
  show_groups p cli groups c stats shown
  = Ok (foldl count_segment c (map sg_info (concat (map snd groups))),
        foldl (λ m kv, <[kv.1 := kv.2]> m) stats
          (map (λ g, (g.1, if bool_decide (sp_Format p = "statistics") then group_stats cli g.2 else new_segStats)) groups),
        shown ++ map (group_display p cli) groups).
Proof.
  intros Hf. revert c stats shown. induction groups as [|[k segs] groups IH]; intros c stats shown Hg.
  { cbn. by rewrite app_nil_r. }
  apply list.Forall_cons in Hg as [Hs Hg]. cbn [show_groups]. unfold show_group.
  destruct segs as [|s segs]; [done|]. rewrite bool_decide_true by done. cbn [mbind res_bind].
  rewrite IH by done. cbn [map concat foldl fst snd]. rewrite map_app, foldl_app, <-app_assoc. unfold group_display.
  by destruct (bool_decide (sp_Format p = "statistics")).
Qed.

(** C30 (functional): for each format the counters are those of all the selected segments; for the format
    "statistics" the totals are the sums over the logs of those that are not dropped, and so
    are the sums shown for each collection; for the others its segments are shown, in the
    order of the listing. *)
Theorem SegmentCommand_totals p cli metaPath segs :
  ListSegments cli metaPath [segment_selected p] = Ok segs →
  sp_Format p ∈ ["table"; "line"; "statistics"] →
  ∃ shown, SegmentCommand p cli metaPath
      = Ok (Some (shown, if bool_decide (sp_Format p = "statistics") then Some (listed_totals cli segs) else None,
                  counters_of (map sg_info segs)))
    ∧ NoDup (map cd_CollectionID shown)
    ∧ (∀ s : ModelSegment K, s ∈ segs → si_CollectionID (sg_info s) ∈ map cd_CollectionID shown)
    ∧ ∀ d, d ∈ shown →
        let mine := filter (λ s : ModelSegment K, si_CollectionID (sg_info s) = cd_CollectionID d) segs in
        mine ≠ []
        ∧ if bool_decide (sp_Format p = "statistics")
          then ∃ lines, cd_Stats d = Some (lines, listed_totals cli mine)
          else cd_Segments d = map (segment_row p cli) mine.
Proof.
  intros Hl Hf. unfold SegmentCommand. rewrite Hl. cbv zeta.
  set (gm := GroupBy (λ s : ModelSegment K, si_CollectionID (sg_info s)) segs).
  assert (∀ k g, (k, g) ∈ range gm ↔ gm !! k = Some g) as Hin.
  { intros k g. by rewrite range_perm, elem_of_map_to_list. }
  assert (∀ k g, gm !! k = Some g → g ≠ [] ∧ g = filter (λ s : ModelSegment K, si_CollectionID (sg_info s) = k) segs) as Hgm.
  { intros k g. unfold gm. rewrite GroupBy_lookup. cbv zeta. case_decide; [done|]. by intros [= <-]. }
  assert (NoDup (map fst (range gm))) as Hn by (rewrite range_perm; apply NoDup_fst_map_to_list).
  assert (concat (map snd (range gm)) ≡ₚ segs) as Hc.
  { rewrite (range_perm gm). apply concat_GroupBy. }
  rewrite show_groups_all by (done || (apply list.Forall_forall; intros [k g] Hg; by apply Hin, Hgm in Hg as [? _])).
  cbn [mbind res_bind]. rewrite app_nil_l. eexists. split.
  { rewrite list_to_map_foldl by (rewrite map_map; exact Hn). rewrite (right_id_L ∅ (∪)).
    do 3 f_equal; [f_equal|].
    - case_bool_decide; [|done]. f_equal. unfold outputStats. cbn [snd].
      set (kvs := map _ (range gm)). assert (map snd (range (list_to_map kvs)) ≡ₚ map (group_stats cli) (map snd (range gm))) as Hp.
      { rewrite range_perm, map_to_list_to_map by (unfold kvs; rewrite map_map; exact Hn). unfold kvs. by rewrite !map_map. }
      apply Permutation_map_inv in Hp as (groups & -> & Hp).
      change (MkTotals 0 0 0 0 0 0 0) with (listed_totals cli []). rewrite groups_totals, app_nil_l.
      apply listed_totals_perm. by rewrite <-Hp.
    - change new_counters with (counters_of []). rewrite count_segments_of, app_nil_l.
      apply counters_of_perm. by rewrite Hc. }
  rewrite map_map. split; [exact Hn|]. split.
  - intros s Hs. apply list_elem_of_fmap. destruct (gm !! si_CollectionID (sg_info s)) as [g|] eqn:Hg.
    + exists (si_CollectionID (sg_info s), g). split; [done|]. by apply Hin.
    + unfold gm in Hg. rewrite GroupBy_lookup in Hg. cbv zeta in Hg. case_decide as Hnil; [|done].
      exfalso. apply (not_elem_of_nil s). rewrite <-Hnil. by apply list_elem_of_filter.
  - intros d Hd. apply list_elem_of_fmap in Hd as ([k g] & -> & Hg). apply Hin, Hgm in Hg as [Hne ->].
    cbn [group_display cd_CollectionID fst snd]. split; [exact Hne|].
    unfold group_display. case_bool_decide; [|done]. eexists. cbn [cd_Stats snd].
    unfold outputStats. cbn [foldl]. do 2 f_equal.
    change (MkTotals 0 0 0 0 0 0 0) with (listed_totals cli []).
    pose proof (groups_totals cli [] [filter (λ s : ModelSegment K, si_CollectionID (sg_info s) = k) segs]) as Ht.
    cbn [map foldl concat] in Ht. by rewrite app_nil_l, app_nil_r in Ht.
Qed.
End totals.

(** ** Witness *)
#[local] Instance sample_segment_fields : SegmentFields := {|
  si_MaxRowNum _ := 100; si_Level _ := 1; si_IsSorted _ := true; si_StorageVersion _ := 2;
  si_TextStatsLogs _ := []; SegmentLevel_String := FormatInt;
|}.
#[local] Instance sized_log_codec : ProtoCodec PbFieldBinlog :=
  table_codec [("v1", MkPbFieldBinlog 100 [MkPbBinlog 1 1 2 "" 30 5 40] []);
               ("v2", MkPbFieldBinlog 0 [MkPbBinlog 1 1 2 "" 7 6 9] [100; 101])].
Definition sample_show (Format : string) : ShowSegmentParam := MkSegmentParam 0 0 0 Format false "" "" "" (-1).

Lemma SegmentCommand_totals_witness :
  ∃ shown c, SegmentCommand (sample_show "statistics") mixed_store "by-dev"
      = Ok (Some (shown, Some (MkTotals 37 49 0 0 0 0 0), c)) ∧ flushedCnt c = 1
    ∧ NoDup (map cd_CollectionID shown).
Proof.
  assert ((segments ← ListSegments mixed_store "by-dev" [segment_selected (sample_show "statistics")];
           Ok (map sg_info segments, listed_totals mixed_store segments))
    = Ok ([sample_segment 7 4], MkTotals 37 49 0 0 0 0 0)) as Hall by (vm_compute; reflexivity).
  apply res_bind_Ok in Hall as (segments & Hl & Hr).
  assert (map sg_info segments = [sample_segment 7 4]) as Hinfos by congruence.
  assert (listed_totals mixed_store segments = MkTotals 37 49 0 0 0 0 0) as Ht by congruence.
  destruct (SegmentCommand_totals (sample_show "statistics") mixed_store "by-dev" segments Hl)
    as (shown & Hc & Hn & _).
  - right; right; left.
  - exists shown, (counters_of (map sg_info segments)). split; [|split].
    + rewrite <-Ht. exact Hc.
    + rewrite Hinfos. vm_compute. reflexivity.
    + exact Hn.
Defined.
