(* ===== verification/ShowMeta.v ===== *)
(** * Metadata on display

    Models the commands of [states/etcd/show/] that choose or compute what they display:
    [checkpoint.go], [segment_index.go], [compaction.go] and [collection.go].  Their results
    are the rows; how a row is written is left out. *)

From S2P Require Export Healthz GoSort.

(** The fields that only the display reads, and the generated names of enumerations. *)
Class DisplayFields := {
  ct_SchemaName : CompactionTask → string;
  ct_InputSegments : CompactionTask → list Z;
  IndexState_String : Z → string;
  CollectionState_String : Z → string;
}.

(** The rows of [show checkpoint]: the source of a position, or none, and the position. *)
Inductive CheckpointSource :=
  | NoSource
  | ChannelCheckpoint
  | FromSegment (segmentID : Z).
Record Checkpoint := MkCheckpoint {
  cp_Channel : Channel;
  cp_Source : CheckpointSource;
  cp_Checkpoint : option MsgPosition;
}.

Record SegmentIndexParam := MkSegmentIndexParam {
  xp_CollectionID : Z;
  xp_SegmentID : Z;
  xp_FieldID : Z;
  xp_IndexID : Z;
}.
Record IndexLine := MkIndexLine {
  il_IndexID : Z;
  il_BuildID : Z;
  il_State : string;
  il_IndexType : string;
  il_FieldID : Z;
  il_SerializeSize : Z;
}.

Record ShowCompactionParam := MkShowCompaction {
  sc_CollectionName : string;
  sc_State : string;
  sc_CollectionID : Z;
  sc_PartitionID : Z;
  sc_CompactionType : string;
  sc_TriggerID : Z;
  sc_PlanID : Z;
  sc_SegmentID : Z;
  sc_IgnoreDone : bool;
}.

Record CollectionParam := MkCollectionParam {
  lp_CollectionID : Z;
  lp_CollectionName : string;
  lp_DatabaseID : Z;
  lp_State : string;
  lp_WithPropertyKey : string;
}.
Record Collections := MkCollections {
  cs_collections : list Collection;
  cs_total : Z;
  cs_channels : Z;
  cs_healthy : Z;
}.

Section show_meta.
Context {K : Type} `{MetaKV K} `{DisplayFields} `{EnumStrings} `{SortSlice}.
Context `{ProtoCodec CollectionInfo} `{ProtoCodec FieldSchema} `{ProtoCodec StructArrayFieldSchema}.
Context `{ProtoCodec FunctionSchema} `{ProtoCodec MsgPosition} `{ProtoCodec SegmentInfo} `{ProtoCodec PbFieldBinlog}.
Context `{ProtoCodec SegmentIndex} `{ProtoCodec FieldIndex} `{ProtoCodec CompactionTask}.

(** ** [checkpoint.go]

    The prefix does not end in a slash. *)
Definition getChannelCheckpoint (cli : K) (metaPath channelName : string) : res MsgPosition :=
  '(results, keys) ← ListProtoObjects cli (path_Join [metaPath; "datacoord-meta"; "channel-cp"; channelName]) [];
  match results with
  | [pos] => _ ← go_index keys 0; Ok pos
  | _ => Err (Errorf "expected 1 position")
  end.

Definition live_state (s : Z) : bool :=
  bool_decide (s ∈ [SegmentState_Flushed; SegmentState_Growing; SegmentState_Flushing]).

(** The position of a segment: that of its last message or else that of its start. *)
Definition segment_pos (i : SegmentInfo) : option MsgPosition :=
  if live_state (si_State i)
  then match si_DmlPosition i with Some pos => Some pos | None => si_StartPosition i end
  else None.
Definition earlier (st : option MsgPosition * Z) (i : SegmentInfo) : option MsgPosition * Z :=
  match segment_pos i, st.1 with
  | Some segPos, Some pos =>
      if bool_decide (mp_Timestamp segPos < mp_Timestamp pos) then (Some segPos, si_ID i) else st
  | Some segPos, None => (Some segPos, si_ID i)
  | None, _ => st
  end.
Definition on_channel (collID : Z) (vchannel : string) (s : ModelSegment K) : bool :=
  bool_decide (si_CollectionID (sg_info s) = collID) && bool_decide (si_InsertChannel (sg_info s) = vchannel).
Definition getCheckpointFromSegments (cli : K) (metaPath : string) (collID : Z) (vchannel : string)
    : res (option MsgPosition * Z) :=
  segments ← ListSegments cli metaPath [on_channel collID vchannel];
  Ok (foldl earlier (None, 0) (map sg_info segments)).

Definition show_checkpoint (cli : K) (metaPath : string) (collID : Z) (channel : Channel) : res Checkpoint :=
  match getChannelCheckpoint cli metaPath (ch_VirtualName channel) with
  | Ok cp => Ok (MkCheckpoint channel ChannelCheckpoint (Some cp))
  | Panic w => Panic w
  | Err _ =>
      match getCheckpointFromSegments cli metaPath collID (ch_VirtualName channel) with
      | Ok (cp, segmentID) => Ok (MkCheckpoint channel (FromSegment segmentID) cp)
      | Panic w => Panic w
      | Err _ => Ok (MkCheckpoint channel NoSource None)
      end
  end.
Definition CheckpointCommand (cli : K) (metaPath : string) (collID : Z) : res (list Checkpoint) :=
  coll ← GetCollectionByIDVersion cli metaPath collID;
  channels ← Channels coll;
  mapR (show_checkpoint cli metaPath collID) channels.

(** ** [segment_index.go]

    [&&] binds tighter than [||]: the other conditions hold only for a given collection. *)
Definition GetFieldID (x : FieldIndex) : Z :=
  match fi_IndexInfo x with Some i => ii_FieldID i | None => 0 end.
Definition index_filter (p : SegmentIndexParam) (w : ProtoWrapper FieldIndex) : bool :=
  let index := GetProto w in
  bool_decide (xp_CollectionID p = 0)
  || bool_decide (xp_CollectionID p = GetCollectionID index)
     && (bool_decide (xp_SegmentID p = 0) || bool_decide (xp_SegmentID p = GetFieldID index))
     && (bool_decide (xp_FieldID p = 0) || bool_decide (xp_FieldID p = GetFieldID index))
     && (bool_decide (xp_IndexID p = 0) || bool_decide (xp_IndexID p = GetIndexID index)).
Definition segment_index_filter (p : SegmentIndexParam) (w : ProtoWrapper SegmentIndex) : bool :=
  let segIdx := GetProto w in
  (bool_decide (xp_CollectionID p = 0) || bool_decide (xp_CollectionID p = sx_CollectionID segIdx))
  && (bool_decide (xp_SegmentID p = 0) || bool_decide (xp_SegmentID p = sx_SegmentID segIdx))
  && (bool_decide (xp_IndexID p = 0) || bool_decide (xp_IndexID p = sx_IndexID segIdx)).
Definition indexed_segment_filter (p : SegmentIndexParam) (s : ModelSegment K) : bool :=
  (bool_decide (xp_CollectionID p = 0) || bool_decide (si_CollectionID (sg_info s) = xp_CollectionID p))
  && (bool_decide (xp_SegmentID p = 0) || bool_decide (si_ID (sg_info s) = xp_SegmentID p)).

(** [lo.SliceToMap]: a later index of the same identifier replaces an earlier one. *)
Definition id_to_index (indexes : list (ProtoWrapper FieldIndex)) : gmap Z FieldIndex :=
  foldl (λ m w, <[GetIndexID (GetProto w) := GetProto w]> m) ∅ indexes.

Definition shown_index_type (x : FieldIndex) : string :=
  GetKVPair (match fi_IndexInfo x with Some i => ii_IndexParams i | None => [] end) "index_type".
Definition index_line (idIdx : gmap Z FieldIndex) (w : ProtoWrapper SegmentIndex) : option IndexLine :=
  let segIdx := GetProto w in
  match idIdx !! sx_IndexID segIdx with
  | None => None
  | Some index =>
      Some (MkIndexLine (sx_IndexID segIdx) (sx_BuildID segIdx) (IndexState_String (sx_State segIdx))
              (shown_index_type index) (GetFieldID index) (sx_SerializeSize segIdx))
  end.
Definition segment_lines (seg2Idx : gmap Z (list (ProtoWrapper SegmentIndex))) (idIdx : gmap Z FieldIndex)
    (segments : list SegmentInfo) : list (Z * list IndexLine) :=
  omap (M:=list) (λ i,
    if negb (bool_decide (si_State i = SegmentState_Flushed)) && negb (bool_decide (si_State i = SegmentState_Flushing))
    then None
    else Some (si_ID i, omap (M:=list) (index_line idIdx) (default [] (seg2Idx !! si_ID i)))) segments.

(** The lines of the segments, the count of the lines by state and the total size. *)
Definition count_state (m : gmap string Z) (l : IndexLine) : gmap string Z :=
  <[il_State l := int64 (default 0 (m !! il_State l) + 1)]> m.
Definition SegmentIndexCommand (p : SegmentIndexParam) (cli : K) (metaPath : string)
    : res (list (Z * list IndexLine) * gmap string Z * Z) :=
  segments ← ListSegments cli metaPath [indexed_segment_filter p];
  segmentIndexes ← ListSegmentIndex cli metaPath [segment_index_filter p];
  indexBuildInfo ← ListIndex cli metaPath [index_filter p];
  let seg2Idx := GroupBy (λ w : ProtoWrapper SegmentIndex, sx_SegmentID (GetProto w)) segmentIndexes in
  let shown := segment_lines seg2Idx (id_to_index indexBuildInfo) (map sg_info segments) in
  let lines := concat (map snd shown) in
  Ok (shown, foldl count_state ∅ lines, foldl (λ size l, wrapu 64 (size + il_SerializeSize l)) 0 lines).

(** ** [compaction.go] *)
Definition done_state (s : string) : bool := EqualFold s "cleaned" || EqualFold s "completed".
Definition other_id (param value : Z) : bool := bool_decide (0 < param) && bool_decide (value ≠ param).
Definition show_compaction_filter (p : ShowCompactionParam) (w : ProtoWrapper CompactionTask) : bool :=
  let task := GetProto w in
  let state := CompactionTaskState_String (ct_State task) in
  negb (differs (sc_CollectionName p) (ct_SchemaName task)
        || differs (sc_CompactionType p) (CompactionType_String (ct_Type task))
        || other_id (sc_CollectionID p) (ct_CollectionID task)
        || other_id (sc_PartitionID p) (ct_PartitionID task)
        || other_id (sc_TriggerID p) (ct_TriggerID task)
        || other_id (sc_PlanID p) (ct_PlanID task)
        || bool_decide (0 < sc_SegmentID p) && bool_decide (sc_SegmentID p ∉ ct_InputSegments task)
        || sc_IgnoreDone p && done_state state
        || bool_decide (sc_State p ≠ "") && negb (EqualFold (sc_State p) state)).

(** The filter counts every task that it is given. *)
Definition CompactionTaskCommand (p : ShowCompactionParam) (cli : K) (metaPath : string)
    : res (list (ProtoWrapper CompactionTask) * Z) :=
  tasks ← ListCompactionTask cli metaPath [show_compaction_filter p];
  given ← ListCompactionTask cli metaPath [λ _, true];
  Ok (sort_Slice (λ x y, bool_decide (ct_PlanID (GetProto x) < ct_PlanID (GetProto y))) tasks,
      foldl (λ total _, int64 (total + 1)) 0 given).

(** ** [collection.go]

    The filter reads the name of each schema, which must not be nil, when a name is given.
    It counts the collections that pass; those found by their identifier are not counted. *)
Definition collection_filter (p : CollectionParam) (c : Collection) : bool :=
  let coll := co_proto c in
  match ci_Schema coll with
  | Some s => bool_decide (lp_CollectionName p = "") || bool_decide (cs_Name s = lp_CollectionName p)
  | None => true
  end
  && negb (bool_decide (-1 < lp_DatabaseID p) && bool_decide (ci_DbId coll ≠ lp_DatabaseID p))
  && (bool_decide (lp_State p = "") || EqualFold (lp_State p) (CollectionState_String (ci_State coll)))
  && (bool_decide (lp_WithPropertyKey p = "")
      || existsb (λ kv, bool_decide (kv.1 = lp_WithPropertyKey p)) (ci_Properties coll)).
Definition healthy_collection (c : Collection) : bool :=
  bool_decide (ci_State (co_proto c) = CollectionState_CollectionCreated).
Definition CollectionCommand (p : CollectionParam) (cli : K) (metaPath : string) : res Collections :=
  let by_id := bool_decide (0 < lp_CollectionID p) in
  collections ← (if by_id
    then c ← GetCollectionByIDVersion cli metaPath (lp_CollectionID p); Ok [c]
    else
      listed ← ListCollectionWithoutFields cli metaPath [];
      if bool_decide (lp_CollectionName p ≠ "") && existsb (λ c, bool_decide (ci_Schema (co_proto c) = None)) listed
      then Panic nil_dereference
      else ListCollections cli metaPath [collection_filter p]);
  let live := List.filter healthy_collection collections in
  Ok (MkCollections collections (if by_id then 0 else zlen collections)
        (foldl (λ n c, int64 (n + zlen (ci_VirtualChannelNames (co_proto c)))) 0 live) (zlen live)).
End show_meta.

(** ** Properties *)

(** Filtered listings: what the listing without a filter holds and the filters let through. *)
Lemma obj2models_filter {T M} (convert : T → string → M) fs keys infos idx l :
  obj2models convert [] keys infos idx = Ok l →
  obj2models convert fs keys infos idx = Ok (filter (λ x, accepts fs x = true) l).
Proof.
  revert idx l. induction infos as [|info infos IH]; intros idx l; cbn [obj2models].
  { by intros [= <-]. }
  intros (key & -> & (rest & Hr & [= <-])%res_bind_Ok)%res_bind_Ok. cbn [mbind res_bind].
  rewrite (IH _ _ Hr). cbn [mbind res_bind]. rewrite filter_cons. by destruct (accepts fs _).
Qed.
Lemma ListObj2Models_filter {K T M} `{MetaKV K} `{ProtoCodec T} (cli : K) prefix (convert : T → string → M) fs l :
  ListObj2Models cli prefix convert [] = Ok l →
  ListObj2Models cli prefix convert fs = Ok (filter (λ x, accepts fs x = true) l).
Proof.
  unfold ListObj2Models. intros ([infos keys] & -> & Hl)%res_bind_Ok. by apply obj2models_filter.
Qed.
Lemma accepts_one {T} (f : T → bool) x : accepts [f] x = f x.
Proof. unfold accepts. simpl. by rewrite andb_true_r. Qed.

Section properties.
Context {K : Type} `{MetaKVLaws K} `{DisplayFields} `{EnumStrings} `{SortSlice}.
Context `{ProtoCodec CollectionInfo} `{ProtoCodec FieldSchema} `{ProtoCodec StructArrayFieldSchema}.
Context `{ProtoCodec FunctionSchema} `{ProtoCodec MsgPosition} `{ProtoCodec SegmentInfo} `{ProtoCodec PbFieldBinlog}.
Context `{ProtoCodec SegmentIndex} `{ProtoCodec FieldIndex} `{ProtoCodec CompactionTask}.

(** [st] holds the earliest position of the segments [l], and the segment that has it. *)
Definition earliest (l : list SegmentInfo) (st : option MsgPosition * Z) : Prop :=
  match st.1 with
  | None => st.2 = 0 ∧ ∀ i, i ∈ l → segment_pos i = None
  | Some pos =>
      (∃ i, i ∈ l ∧ segment_pos i = Some pos ∧ si_ID i = st.2)
      ∧ ∀ i pos', i ∈ l → segment_pos i = Some pos' → mp_Timestamp pos <= mp_Timestamp pos'
  end.

Lemma earliest_snoc l i st : earliest l st → earliest (l ++ [i]) (earlier st i).
Proof.
  assert (∀ k, k ∈ l ++ [i] ↔ k ∈ l ∨ k = i) as Happ by (intros k; by rewrite elem_of_app, list_elem_of_singleton).
  unfold earliest, earlier.
  destruct st as [[pos|] id]; cbn [fst snd].
  - intros [(j & Hj & Hp & Hid) Hmin]. destruct (segment_pos i) as [w|] eqn:Hw; cbn [fst snd].
    + case_bool_decide; cbn [fst snd].
      * split; [by exists i; rewrite Happ; auto|]. intros k w' [Hk| ->]%Happ Hw'; [|rewrite Hw in Hw'; injection Hw' as <-; lia].
        specialize (Hmin k w' Hk Hw'). lia.
      * split; [by exists j; rewrite Happ; auto|]. intros k w' [Hk| ->]%Happ Hw'; [by eapply Hmin|].
        rewrite Hw in Hw'. injection Hw' as <-. lia.
    + split; [by exists j; rewrite Happ; auto|]. intros k w' [Hk| ->]%Happ Hw'; [by eapply Hmin|congruence].
  - intros [-> Hnone]. destruct (segment_pos i) as [w|] eqn:Hw; cbn [fst snd].
    + split; [by exists i; rewrite Happ; auto|]. intros k w' [Hk| ->]%Happ Hw'; [by rewrite Hnone in Hw'|].
      rewrite Hw in Hw'. injection Hw' as <-. lia.
    + split; [done|]. by intros k [Hk| ->]%Happ; [apply Hnone|].
Qed.
Lemma earliest_fold l : earliest l (foldl earlier (None, 0) l).
Proof.
  induction l as [|i l IH] using rev_ind; [split; [done|]; by intros i ?%not_elem_of_nil|].
  rewrite foldl_app. by apply earliest_snoc.
Qed.

Lemma stored_objects (cli : K) p :
  mk_up cli → ∃ stored keys, ListProtoObjects (T:=MsgPosition) cli p [] = Ok (stored, keys) ∧ (stored ≠ [] → keys ≠ []).
Proof.
  intros Hup. do 2 eexists. rewrite ListProtoObjects_up by done. split; [done|].
  by destruct (pairs_of cli p).
Qed.

(** The checkpoint of a channel is the position stored below its name when exactly one is
    stored there, and else the earliest position of the collection's live segments on the
    channel. *)
Definition checkpoint_of (stored : list MsgPosition) (infos : list SegmentInfo) (cp : Checkpoint) : Prop :=
  match stored with
  | [pos] => cp_Source cp = ChannelCheckpoint ∧ cp_Checkpoint cp = Some pos
  | _ => ∃ id, cp_Source cp = FromSegment id ∧ earliest infos (cp_Checkpoint cp, id)
  end.

(** Every virtual channel of the collection is shown, in order, with its checkpoint: the
    stored position, or the earliest one of the segments when not exactly one is stored. *)
Theorem CheckpointCommand_spec (cli : K) metaPath collID coll channels segs :
  GetCollectionByIDVersion cli metaPath collID = Ok coll → Channels coll = Ok channels →
  ListSegments cli metaPath [] = Ok segs → mk_up cli →
  ∃ shown, CheckpointCommand cli metaPath collID = Ok shown ∧ map cp_Channel shown = channels
    ∧ ∀ cp, cp ∈ shown → ∃ stored keys,
        ListProtoObjects cli
          (path_Join [metaPath; "datacoord-meta"; "channel-cp"; ch_VirtualName (cp_Channel cp)]) [] = Ok (stored, keys)
        ∧ checkpoint_of stored
            (map sg_info (List.filter (on_channel collID (ch_VirtualName (cp_Channel cp))) segs)) cp.
Proof.
  intros Hc Hch Hl Hup. unfold CheckpointCommand. rewrite Hc. cbn [mbind res_bind]. rewrite Hch. cbn [mbind res_bind].
  clear Hc Hch coll. induction channels as [|ch channels (shown & IHr & IHc & IHs)]; cbn [mapR].
  { exists []. split_and!; [done..|]. by intros cp ?%not_elem_of_nil. }
  enough (∃ cp, show_checkpoint cli metaPath collID ch = Ok cp ∧ cp_Channel cp = ch ∧ ∃ stored keys,
      ListProtoObjects cli (path_Join [metaPath; "datacoord-meta"; "channel-cp"; ch_VirtualName ch]) [] = Ok (stored, keys)
      ∧ checkpoint_of stored (map sg_info (List.filter (on_channel collID (ch_VirtualName ch)) segs)) cp)
    as (cp & -> & Hcp & Hs).
  { cbn [mbind res_bind]. rewrite IHr. cbn [mbind res_bind]. exists (cp :: shown).
    split; [done|]. split; [simpl; congruence|]. intros cp' [->|Hcp']%elem_of_cons; [by rewrite Hcp|by apply IHs]. }
  unfold show_checkpoint, getChannelCheckpoint, getCheckpointFromSegments.
  assert (ListSegments cli metaPath [on_channel collID (ch_VirtualName ch)]
    = Ok (List.filter (on_channel collID (ch_VirtualName ch)) segs)) as ->.
  { unfold ListSegments in *. rewrite (ListObj2Models_filter _ _ _ _ _ Hl). f_equal.
    clear. induction segs as [|s segs IH]; [done|]. rewrite filter_cons, accepts_one. cbn [List.filter].
    rewrite IH. by destruct (on_channel _ _ s). }
  destruct (stored_objects cli (path_Join [metaPath; "datacoord-meta"; "channel-cp"; ch_VirtualName ch]) Hup)
    as (stored & keys & -> & Hk). cbn [mbind res_bind].
  pose proof (earliest_fold (map sg_info (List.filter (on_channel collID (ch_VirtualName ch)) segs))) as He.
  destruct (foldl earlier _ _) as [pos id].
  destruct stored as [|pos1 [|pos2 stored]].
  1,3: eexists; split; [done|]; split; [done|]; do 2 eexists; split; [done|]; exists id; split; [done|exact He].
  destruct keys as [|key keys]; [by specialize (Hk ltac:(done))|]. cbn.
  eexists. split; [done|]. split; [done|]. do 2 eexists. done.
Qed.
(** The tasks shown are those that pass, in the order of their plans; the total counts all
    tasks of the store. *)
Theorem CompactionTaskCommand_spec p (cli : K) metaPath all :
  ListCompactionTask cli metaPath [] = Ok all →
  ∃ tasks, CompactionTaskCommand p cli metaPath = Ok (tasks, int64 (zlen all))
    ∧ (∀ w, w ∈ tasks ↔ w ∈ all ∧ show_compaction_filter p w = true)
    ∧ StronglySorted (λ x y, ct_PlanID (GetProto x) <= ct_PlanID (GetProto y)) tasks.
Proof.
  intros Hl. unfold CompactionTaskCommand, ListCompactionTask in *.
  rewrite !(ListObj2Models_filter _ _ _ _ _ Hl). cbn [mbind res_bind].
  rewrite (filter_all (λ x, accepts [λ _, true] x = true) all) by (by apply list.Forall_true).
  eexists. split; [|split].
  - do 2 f_equal. enough (∀ (l : list (ProtoWrapper CompactionTask)) n,
      foldl (λ total _, int64 (total + 1)) (int64 n) l = int64 (n + zlen l)) as Hn by apply (Hn all 0).
    induction l as [|x l IH]; intros n; cbn [foldl]; [by rewrite Z.add_0_r|].
    rewrite wraps_add_l, IH, zlen_cons by lia. f_equal. lia.
  - intros w. rewrite sort_perm, list_elem_of_filter, accepts_one. tauto.
  - apply sort_sorted. by left.
Qed.

Lemma id_to_index_some indexes i x : id_to_index indexes !! i = Some x → ∃ w, w ∈ indexes ∧ GetProto w = x.
Proof.
  unfold id_to_index. induction indexes as [|w l IH] using rev_ind; [done|]. rewrite foldl_app. cbn [foldl].
  destruct (decide (GetIndexID (GetProto w) = i)) as [<-|Hne].
  - rewrite lookup_insert_eq. intros [= <-]. exists w. rewrite elem_of_app, list_elem_of_singleton. auto.
  - rewrite lookup_insert_ne by done. intros (w' & Hw & Hx)%IH. exists w'. rewrite elem_of_app. auto.
Qed.

(** With a collection and a segment, no line is shown unless some field of the collection
    has the identifier of the segment: the filter of the indexes compares the two. *)
Theorem SegmentIndexCommand_hidden p (cli : K) metaPath segs (segIdxs : list (ProtoWrapper SegmentIndex)) indexes :
  ListSegments cli metaPath [] = Ok segs → ListSegmentIndex cli metaPath [] = Ok segIdxs →
  ListIndex cli metaPath [] = Ok indexes → xp_CollectionID p ≠ 0 → xp_SegmentID p ≠ 0 →
  (∀ w, w ∈ indexes → GetFieldID (GetProto w) ≠ xp_SegmentID p) →
  ∃ shown, SegmentIndexCommand p cli metaPath = Ok (shown, ∅, 0) ∧ ∀ s, s ∈ shown → s.2 = [].
Proof.
  intros Hl Hs Hi Hc Hseg Hf. unfold SegmentIndexCommand, ListSegments, ListSegmentIndex, ListIndex in *.
  rewrite (ListObj2Models_filter _ _ _ _ _ Hl). cbn [mbind res_bind].
  rewrite (ListObj2Models_filter _ _ _ _ _ Hs). cbn [mbind res_bind].
  rewrite (ListObj2Models_filter _ _ _ _ _ Hi). cbn [mbind res_bind].
  rewrite (filter_none _ indexes).
  2:{ apply list.Forall_forall. intros w Hw. rewrite accepts_one. unfold index_filter. specialize (Hf w Hw).
      rewrite (bool_decide_false (xp_CollectionID p = 0)), (bool_decide_false (xp_SegmentID p = 0)),
        (bool_decide_false (xp_SegmentID p = _)) by done. cbn [orb]. by rewrite andb_false_r. }
  change (id_to_index []) with (∅ : gmap Z FieldIndex). cbv zeta.
  set (shown := segment_lines _ _ _).
  assert (∀ s, s ∈ shown → s.2 = []) as Hnone.
  { intros s (i & _ & Hi')%list_elem_of_omap. case_match; [done|]. injection Hi' as <-. cbn [snd].
    apply elem_of_nil_inv. intros l (w & _ & Hw)%list_elem_of_omap. unfold index_line in Hw.
    by rewrite lookup_empty in Hw. }
  exists shown. split; [|done].
  enough (concat (map snd shown) = []) as -> by done.
  clearbody shown. induction shown as [|s l IH]; [done|]. cbn [map concat].
  rewrite (Hnone s) by left. apply IH. intros; apply Hnone; by right.
Qed.
End properties.

(** ** Witnesses *)
#[local] Instance sample_display : DisplayFields := {|
  ct_SchemaName _ := "c"; ct_InputSegments _ := [7]; IndexState_String := FormatInt;
  CollectionState_String := FormatInt;
|}.

Lemma CheckpointCommand_spec_witness :
  ∃ shown, CheckpointCommand sample_cluster "by-dev" 1 = Ok shown
    ∧ map (λ cp, ch_VirtualName (cp_Channel cp)) shown = ["dml_0_1v0"].
Proof.
  destruct (GetCollectionByIDVersion sample_cluster "by-dev" 1) as [coll| |] eqn:Hc; [|vm_compute in Hc; discriminate Hc..].
  destruct (Channels coll) as [channels| |] eqn:Hch;
    [|vm_compute in Hc; injection Hc as <-; vm_compute in Hch; discriminate Hch..].
  assert ((segments ← ListSegments sample_cluster "by-dev" []; Ok (map sg_info segments)) = Ok [])
    as Hall by (vm_compute; reflexivity).
  apply res_bind_Ok in Hall as (segs & Hl & _).
  destruct (CheckpointCommand_spec sample_cluster "by-dev" 1 coll channels segs Hc Hch Hl) as (shown & Hs & Hm & _).
  - apply healthy_up, etcd_store_healthy.
  - exists shown. split; [exact Hs|]. rewrite <-(map_map cp_Channel ch_VirtualName), Hm.
    vm_compute in Hc. injection Hc as <-. vm_compute in Hch. injection Hch as <-. vm_compute. reflexivity.
Defined.

(** The prefix of the channel [..v1] holds the position of [..v10] too: no checkpoint is
    found for it, and with no segment none is shown. *)
#[local] Instance shards_codec : ProtoCodec CollectionInfo :=
  table_codec [("c9", MkCollectionInfo 9 (Some sample_schema) 0 ["dml_0_9v1"; "dml_1_9v10"] ["dml_0"; "dml_1"]
                        [("dml_0", []); ("dml_1", [])] 0 1 2 [])].
Definition shards_store : etcdKV (gmap string string) :=
  etcd_store [("by-dev/root-coord/collection/9", "c9");
              ("by-dev/datacoord-meta/channel-cp/dml_0_9v1", "p1");
              ("by-dev/datacoord-meta/channel-cp/dml_0_9v10", "p9")].
Example CheckpointCommand_shadowed :
  (shown ← CheckpointCommand shards_store "by-dev" 9; Ok (map (λ cp, (cp_Source cp, cp_Checkpoint cp)) shown))
  = Ok [(FromSegment 0, None); (FromSegment 0, None)].
Proof. vm_compute. reflexivity. Qed.

Lemma CompactionTaskCommand_spec_witness :
  ∃ tasks, CompactionTaskCommand (MkShowCompaction "" "" 0 0 "" 0 0 7 false) sample_cluster "by-dev" = Ok (tasks, 1)
    ∧ map GetProto tasks = [sample_task].
Proof.
  assert (ListCompactionTask sample_cluster "by-dev" []
    = Ok [NewProtoWrapper sample_task "by-dev/datacoord-meta/compaction-task/7/4/5"]) as Hl by (vm_compute; reflexivity).
  destruct (CompactionTaskCommand_spec (MkShowCompaction "" "" 0 0 "" 0 0 7 false) sample_cluster "by-dev" _ Hl)
    as (tasks & Ht & _).
  exists tasks. split; [exact Ht|]. vm_compute in Ht. injection Ht as <-. reflexivity.
Defined.

(** The index of the field 101 is shown for the collection, and hidden for its segment. *)
#[local] Instance shown_segment_codec : ProtoCodec SegmentInfo :=
  table_codec [("seg9", MkSegmentInfo 9 1 2 "dml_0_1v0" 5000 4 None None [] [] [] "")].
#[local] Instance shown_segment_index_codec : ProtoCodec SegmentIndex :=
  table_codec [("ix", MkSegmentIndex 1 9 2 4 3 100 "")].
Definition indexed_store : etcdKV (gmap string string) :=
  etcd_store [("by-dev/datacoord-meta/s/1/2/9", "seg9"); ("by-dev/segment-index/1/2/9/4", "ix");
              ("by-dev/field-index/1/2", "ix2")].
Example SegmentIndexCommand_shown :
  SegmentIndexCommand (MkSegmentIndexParam 1 0 0 0) indexed_store "by-dev"
  = Ok ([(9, [MkIndexLine 2 4 "3" "HNSW" 101 100])], {["3" := 1]}, 100).
Proof. vm_compute. reflexivity. Qed.

Lemma SegmentIndexCommand_hidden_witness :
  ∃ shown, SegmentIndexCommand (MkSegmentIndexParam 1 9 0 0) indexed_store "by-dev" = Ok (shown, ∅, 0).
Proof.
  assert ((segments ← ListSegments indexed_store "by-dev" []; Ok (map (λ s, si_ID (sg_info s)) segments)) = Ok [9])
    as Hall by (vm_compute; reflexivity).
  apply res_bind_Ok in Hall as (segs & Hl & _).
  destruct (ListSegmentIndex indexed_store "by-dev" []) as [idxs| |] eqn:Hx; [|vm_compute in Hx; discriminate Hx..].
  destruct (ListIndex (T:=FieldIndex) indexed_store "by-dev" []) as [indexes| |] eqn:Hi; [|vm_compute in Hi; discriminate Hi..].
  destruct (SegmentIndexCommand_hidden (MkSegmentIndexParam 1 9 0 0) indexed_store "by-dev" segs idxs indexes Hl Hx Hi)
    as (shown & Hs & _); [discriminate|discriminate| |exists shown; exact Hs].
  vm_compute in Hi. injection Hi as <-. intros w ->%list_elem_of_singleton. discriminate.
Defined.
