(* ===== verification/Balance.v ===== *)
(** * The explanation of the balance of query nodes

    Models [states/balance_explain.go]: the rows of the nodes of a replica, their
    priorities, and the move of a segment that the policy would make. *)

From S2P Require Export Healthz GoSort.

(** [querypb.Replica]. *)
Record Replica := MkReplica {
  rp_ID : Z;
  rp_CollectionID : Z;
  rp_Nodes : list Z;
}.
#[export] Instance Replica_eq_dec : EqDecision Replica.
Proof. solve_decision. Defined.

Record SegmentItem := MkSegmentItem { segmentID : Z; rowNum : Z }.
Record NodeItem := MkNodeItem {
  nodeID : Z;
  priority : Z;
  nodeCollectionSegments : list SegmentItem;
  nodeRowSum : Z;
  nodeCollectionRowSum : Z;
}.
Record ScoreBalanceParam := MkScoreParam {
  globalRowCountFactor : float64;
  UnbalanceTolerationFactor : float64;
  ReverseUnbalanceTolerationFactor : float64;
}.

(** What a report says of a move: it leaves the target with the lower priority, makes a
    greater difference the other way round, or a smaller one. *)
Inductive MoveOutcome := ShouldMove | MuchBigger (nextUnbalance : Z) | ReverseButLess (nextUnbalance : Z).
Record Move := MkMove {
  mv_Segment : Z;
  mv_Rows : Z;
  mv_From : Z;
  mv_To : Z;
  mv_NextFrom : Z;
  mv_NextTo : Z;
  mv_Outcome : MoveOutcome;
}.
Record BalanceReport := MkBalanceReport {
  br_CollectionID : Z;
  br_ReplicaID : Z;
  br_Nodes : list NodeItem;            (* in the order of their priorities *)
  br_NoSegments : option Z;            (* "exception!": the node that has none *)
  br_Stop : bool;                      (* the difference is tolerated *)
  br_Move : option Move;
}.

(** [common/server.go]. *)
Definition ListServers {K} `{MetaKV K} `{JsonSession} (cli : K) (basePath serverName : string) : res (list Session) :=
  sessions ← ListSessions cli basePath;
  Ok (List.filter (λ session, bool_decide (ServerName session = serverName)) sessions).

Section balance.
Context `{SortSlice}.

(** A later response of the same node replaces an earlier one. *)
Definition buildUpNodeSegmentsView (distResps : list (Z * list (option SegmentVersionInfo)))
    : gmap Z (list (option SegmentVersionInfo)) :=
  foldl (λ distView distResp, <[distResp.1 := distResp.2]> distView) ∅ distResps.

(** The loop over the segments of a node; none for a segment that is nil or not listed. *)
Fixpoint node_rows (rows : gmap Z Z) (collectionID : Z) (segments : list (option SegmentVersionInfo))
    (nodeRowSum nodeCollectionRowSum : Z) (items : list SegmentItem) : option (Z * Z * list SegmentItem) :=
  match segments with
  | [] => Some (nodeRowSum, nodeCollectionRowSum, items)
  | None :: _ => None
  | Some segment :: segments =>
      match rows !! sv_ID segment with
      | None => None
      | Some n =>
          if bool_decide (sv_Collection segment = collectionID)
          then node_rows rows collectionID segments (int64 (nodeRowSum + n)) (int64 (nodeCollectionRowSum + n))
                 (items ++ [MkSegmentItem (sv_ID segment) n])
          else node_rows rows collectionID segments (int64 (nodeRowSum + n)) nodeCollectionRowSum items
      end
  end.
Definition node_priority (param : ScoreBalanceParam) (rowSum collectionRowSum : Z) : Z :=
  int64 (int64_of (f_mul (globalRowCountFactor param) (float64_of rowSum)) + collectionRowSum).
Definition node_item (param : ScoreBalanceParam) (rows : gmap Z Z) (collectionID : Z)
    (dist : gmap Z (list (option SegmentVersionInfo))) (node : Z) : option NodeItem :=
  '(rowSum, collectionRowSum, items) ← node_rows rows collectionID (default [] (dist !! node)) 0 0 [];
  Some (MkNodeItem node (node_priority param rowSum collectionRowSum) items rowSum collectionRowSum).

Definition explain_move (param : ScoreBalanceParam) (fromNode toNode : NodeItem) (unbalanceDiff : Z) : option Move :=
  match sort_Slice (λ x y, bool_decide (rowNum x <= rowNum y)) (nodeCollectionSegments fromNode) with
  | [] => None
  | movedSegment :: _ =>
      let n := rowNum movedSegment in
      let next rowSum collectionRowSum :=
        int64 (int64_of (f_mul (float64_of rowSum) (globalRowCountFactor param)) + collectionRowSum) in
      let nextFrom := next (int64 (nodeRowSum fromNode - n)) (int64 (nodeCollectionRowSum fromNode - n)) in
      let nextTo := next (int64 (nodeRowSum toNode + n)) (int64 (nodeCollectionRowSum toNode + n)) in
      let nextUnbalance := int64 (nextTo - nextFrom) in
      Some (MkMove (segmentID movedSegment) n (nodeID fromNode) (nodeID toNode) nextFrom nextTo
        (if bool_decide (nextTo <= nextFrom) then ShouldMove
         else if f_gt (f_mul (float64_of nextUnbalance) (ReverseUnbalanceTolerationFactor param)) (float64_of unbalanceDiff)
              then MuchBigger nextUnbalance else ReverseButLess nextUnbalance))
  end.

(** [explainReplica]: "Wrong segment dist info" is an error; a replica has a node. *)
Definition explainReplica (replica : Replica) (dist : gmap Z (list (option SegmentVersionInfo)))
    (rows : gmap Z Z) (param : ScoreBalanceParam) : res BalanceReport :=
  match mapM (M:=option) (node_item param rows (rp_CollectionID replica) dist) (rp_Nodes replica) with
  | None => Err (Errorf "Wrong segment dist info")
  | Some items =>
      let nodeItems := sort_Slice (λ x y, bool_decide (priority x <= priority y)) items in
      match nodeItems, list.last nodeItems with
      | toNode :: _, Some fromNode =>
          let unbalanceDiff := int64 (priority fromNode - priority toNode) in
          let stop := f_lt (float64_of unbalanceDiff)
                        (f_mul (float64_of (priority toNode)) (UnbalanceTolerationFactor param)) in
          let report := MkBalanceReport (rp_CollectionID replica) (rp_ID replica) nodeItems in
          match nodeCollectionSegments fromNode with
          | [] => Ok (report (Some (nodeID fromNode)) stop None)
          | _ => Ok (report None stop (if stop then None else explain_move param fromNode toNode unbalanceDiff))
          end
      | _, _ => Panic "index out of range"
      end
  end.

(** Replicas without nodes are skipped. *)
Fixpoint explain_replicas (replicas : list Replica) (dist : gmap Z (list (option SegmentVersionInfo)))
    (rows : gmap Z Z) (param : ScoreBalanceParam) : res (list (res BalanceReport)) :=
  match replicas with
  | [] => Ok []
  | replica :: replicas =>
      match rp_Nodes replica with
      | [] => explain_replicas replicas dist rows param
      | _ =>
          match explainReplica replica dist rows param with
          | Panic w => Panic w
          | r => reports ← explain_replicas replicas dist rows param; Ok (r :: reports)
          end
      end
  end.
Definition scoreBasedBalanceExplain (dist : gmap Z (list (option SegmentVersionInfo))) (replicas : list Replica)
    (segmentInfos : list SegmentInfo) (param : ScoreBalanceParam) : res (list (res BalanceReport)) :=
  let rows := foldl (λ m seg, <[si_ID seg := si_NumOfRows seg]> m) ∅ segmentInfos in
  explain_replicas (sort_Slice (λ x y, bool_decide (rp_ID x <= rp_ID y)) replicas) dist rows param.

(** [ExplainBalanceCommand]: [distribution] gives the answer of a node, if it has any; the
    failure to list the segments is ignored, and a policy that is not known is a nil
    function. *)
Definition ExplainBalanceCommand {K} `{MetaKV K} `{JsonSession} `{ProtoCodec Replica} `{ProtoCodec SegmentInfo}
    `{ProtoCodec PbFieldBinlog} (distribution : Session → option (Z * list (option SegmentVersionInfo)))
    (cli : K) (basePath : string) (collectionID : Z) (policy : string) (param : ScoreBalanceParam)
    : res (list (res BalanceReport)) :=
  sessions ← ListServers cli basePath "querynode";
  let distView := buildUpNodeSegmentsView (omap (M:=list) distribution sessions) in
  replicas ← ListReplicas cli basePath
    [λ w, bool_decide (collectionID = 0) || bool_decide (collectionID = rp_CollectionID (GetProto w))];
  match replicas with
  | [] => Ok []
  | _ =>
      segmentInfos ← or_nil (ListSegments cli basePath []);
      if bool_decide (policy = "score")
      then scoreBasedBalanceExplain distView (map GetProto replicas) (map sg_info segmentInfos) param
      else Panic nil_dereference
  end.
End balance.

(** ** Properties *)
Section properties.
Context `{SortSlice}.

(** The rows of the segments of a node, and of those in the collection. *)
Definition segment_rows (rows : gmap Z Z) (s : option SegmentVersionInfo) : Z :=
  default 0 (i ← s; rows !! sv_ID i).
Definition known (rows : gmap Z Z) (s : option SegmentVersionInfo) : Prop :=
  ∃ i, s = Some i ∧ is_Some (rows !! sv_ID i).
Definition mine (collectionID : Z) (s : option SegmentVersionInfo) : bool :=
  match s with Some i => bool_decide (sv_Collection i = collectionID) | None => false end.
Definition item_of (rows : gmap Z Z) (s : option SegmentVersionInfo) : option SegmentItem :=
  i ← s; n ← rows !! sv_ID i; Some (MkSegmentItem (sv_ID i) n).

Lemma node_rows_unknown rows coll segs a b items :
  node_rows rows coll segs a b items = None ↔ ¬ Forall (known rows) segs.
Proof.
  revert a b items. induction segs as [|s segs IH]; intros a b items; cbn [node_rows].
  { split; [done|]. intros Hn. destruct Hn. constructor. }
  rewrite list.Forall_cons. destruct s as [i|]; [|split; [intros _ [(i & ? & _) _]; done|done]].
  destruct (rows !! sv_ID i) as [n|] eqn:Hn.
  - assert (known rows (Some i)) as Hk by (exists i; by rewrite Hn).
    case_bool_decide; rewrite IH; tauto.
  - split; [|done]. intros _ [(i' & [= <-] & [n Hn']) _]. congruence.
Qed.

Lemma node_rows_sums rows coll segs a b items :
  Forall (known rows) segs →
  node_rows rows coll segs (int64 a) (int64 b) items
  = Some (int64 (a + sum_Z (segment_rows rows) segs),
          int64 (b + sum_Z (segment_rows rows) (List.filter (mine coll) segs)),
          items ++ omap (M:=list) (item_of rows) (List.filter (mine coll) segs)).
Proof.
  revert a b items. induction segs as [|s segs IH]; intros a b items Hk; cbn [node_rows List.filter].
  { change (sum_Z _ []) with 0. by rewrite !Z.add_0_r, app_nil_r. }
  apply list.Forall_cons in Hk as [(i & -> & [n Hn]) Hk]. rewrite Hn. rewrite sum_Z_cons.
  assert (segment_rows rows (Some i) = n) as Hr by (unfold segment_rows; simpl; by rewrite Hn).
  assert (item_of rows (Some i) = Some (MkSegmentItem (sv_ID i) n)) as Hi by (unfold item_of; simpl; by rewrite Hn).
  rewrite Hr. cbn [mine]. case_bool_decide; rewrite !wraps_add_l, IH by (lia || done).
  - rewrite sum_Z_cons, Hr, !Z.add_assoc, <-app_assoc. do 2 f_equal.
    change (omap (item_of rows) (Some i :: ?l)) with
      (match item_of rows (Some i) with Some y => y :: omap (item_of rows) l | None => omap (item_of rows) l end).
    by rewrite Hi.
  - by rewrite Z.add_assoc.
Qed.
(** The item of a node whose segments are all known. *)
Definition item (param : ScoreBalanceParam) (rows : gmap Z Z) (coll : Z)
    (dist : gmap Z (list (option SegmentVersionInfo))) (node : Z) : NodeItem :=
  let segs := default [] (dist !! node) in
  let own := List.filter (mine coll) segs in
  let rowSum := int64 (sum_Z (segment_rows rows) segs) in
  let collectionRowSum := int64 (sum_Z (segment_rows rows) own) in
  MkNodeItem node (node_priority param rowSum collectionRowSum) (omap (M:=list) (item_of rows) own)
    rowSum collectionRowSum.
Definition all_known (rows : gmap Z Z) (dist : gmap Z (list (option SegmentVersionInfo))) (node : Z) : Prop :=
  Forall (known rows) (default [] (dist !! node)).

Lemma node_item_known param rows coll dist node :
  all_known rows dist node → node_item param rows coll dist node = Some (item param rows coll dist node).
Proof.
  intros Hk. unfold node_item. pose proof (node_rows_sums rows coll _ 0 0 [] Hk) as Hr.
  change (int64 0) with 0 in Hr. rewrite Hr. reflexivity.
Qed.
Lemma node_item_unknown param rows coll dist node :
  node_item param rows coll dist node = None ↔ ¬ all_known rows dist node.
Proof.
  unfold node_item, all_known. rewrite <-(node_rows_unknown rows coll _ 0 0 []).
  destruct (node_rows _ _ _ _ _ _) as [[[]]|]; by split.
Qed.
Lemma node_items_known param rows coll dist nodes :
  Forall (all_known rows dist) nodes →
  mapM (M:=option) (node_item param rows coll dist) nodes = Some (map (item param rows coll dist) nodes).
Proof.
  induction 1 as [|n nodes Hn _ IH]; [done|]. cbn [mapM map]. rewrite node_item_known, IH by done. done.
Qed.
Lemma node_items_unknown param rows coll dist nodes :
  mapM (M:=option) (node_item param rows coll dist) nodes = None ↔ ∃ n, n ∈ nodes ∧ ¬ all_known rows dist n.
Proof.
  rewrite mapM_None. split.
  - intros (n & Hin & Hn)%list.Exists_exists. exists n. by rewrite <-node_item_unknown.
  - intros (n & Hin & Hn). apply list.Exists_exists. exists n. by rewrite node_item_unknown.
Qed.

(** A report for a replica: its nodes by priority, and the move of a smallest segment of the
    node with the greatest priority to the one with the least. *)
Definition extreme (items : list NodeItem) (fromNode toNode : NodeItem) : Prop :=
  fromNode ∈ items ∧ toNode ∈ items ∧ ∀ n, n ∈ items → priority toNode <= priority n <= priority fromNode.
Definition move_ok (fromNode toNode : NodeItem) (m : Move) : Prop :=
  mv_From m = nodeID fromNode ∧ mv_To m = nodeID toNode
  ∧ (∃ s, s ∈ nodeCollectionSegments fromNode ∧ mv_Segment m = segmentID s ∧ mv_Rows m = rowNum s
       ∧ ∀ s', s' ∈ nodeCollectionSegments fromNode → rowNum s <= rowNum s')
  ∧ (mv_Outcome m = ShouldMove ↔ mv_NextTo m <= mv_NextFrom m).

Lemma explain_move_spec param fromNode toNode diff :
  nodeCollectionSegments fromNode ≠ [] →
  ∃ m, explain_move param fromNode toNode diff = Some m ∧ move_ok fromNode toNode m.
Proof.
  intros Hne. unfold explain_move. set (less := λ x y, bool_decide (rowNum x <= rowNum y)).
  pose proof (sort_perm less (nodeCollectionSegments fromNode)) as Hp.
  pose proof (sort_sorted rowNum less (nodeCollectionSegments fromNode) ltac:(by right)) as Hs.
  destruct (sort_Slice less _) as [|s l]; [by apply Permutation_nil in Hp|].
  eexists. split; [reflexivity|]. unfold move_ok. cbn [mv_From mv_To mv_Segment mv_Rows mv_Outcome mv_NextTo mv_NextFrom].
  split; [done|]. split; [done|]. split.
  - exists s. rewrite <-Hp. split; [left|]. split; [done|]. split; [done|]. intros s' Hs'. rewrite <-Hp in Hs'.
    apply StronglySorted_inv in Hs as [_ Hs]. rewrite list.Forall_forall in Hs.
    apply elem_of_cons in Hs' as [->|Hs']; [lia|by apply Hs].
  - case_bool_decide; [by split|]. split; [|lia]. by destruct (f_gt _ _).
Qed.

(** C31 (functional): when every segment on the nodes is known the replica is explained, and the segment to be
    moved is a smallest one of the collection on a node of greatest priority; otherwise the
    distribution is wrong. *)
Theorem explainReplica_spec replica dist rows param :
  rp_Nodes replica ≠ [] →
  (Forall (all_known rows dist) (rp_Nodes replica) →
   ∃ r fromNode toNode, explainReplica replica dist rows param = Ok r
     ∧ br_Nodes r ≡ₚ map (item param rows (rp_CollectionID replica) dist) (rp_Nodes replica)
     ∧ StronglySorted (λ x y, priority x <= priority y) (br_Nodes r)
     ∧ extreme (br_Nodes r) fromNode toNode
     ∧ match br_Move r with
       | Some m => br_Stop r = false ∧ move_ok fromNode toNode m
       | None => br_Stop r = true ∨ nodeCollectionSegments fromNode = [] ∧ br_NoSegments r = Some (nodeID fromNode)
       end)
  ∧ (explainReplica replica dist rows param = Err (Errorf "Wrong segment dist info")
     ↔ ∃ n, n ∈ rp_Nodes replica ∧ ¬ all_known rows dist n).
Proof.
  intros Hne. split.
  - intros Hk. unfold explainReplica. rewrite node_items_known by done.
    set (items := map _ _). set (less := λ x y, bool_decide (priority x <= priority y)).
    pose proof (sort_perm less items) as Hp. pose proof (sort_sorted priority less items ltac:(by right)) as Hs.
    destruct (sort_Slice less items) as [|toNode l] eqn:Hsort.
    { apply Permutation_nil in Hp. by destruct (rp_Nodes replica). }
    destruct (list.last (toNode :: l)) as [fromNode|] eqn:Hlast; [|by apply last_None in Hlast].
    pose proof (sorted_head_last priority toNode l fromNode Hs Hlast) as Hx.
    assert (extreme (toNode :: l) fromNode toNode) as He.
    { split; [by apply last_Some_elem_of|]. split; [left|exact Hx]. }
    destruct (nodeCollectionSegments fromNode) as [|s0 segs0] eqn:Hsegs.
    + do 3 eexists. split; [reflexivity|]. split; [exact Hp|]. split; [exact Hs|]. split; [exact He|]. right. by split.
    + do 3 eexists. split; [reflexivity|]. split; [exact Hp|]. split; [exact Hs|]. split; [exact He|].
      cbn [br_Move br_Stop]. destruct (f_lt _ _); [by left|].
      destruct (explain_move_spec param fromNode toNode (int64 (priority fromNode - priority toNode))) as (m & -> & Hm);
        [by rewrite Hsegs|by split].
  - rewrite <-(node_items_unknown param rows (rp_CollectionID replica)). unfold explainReplica.
    destruct (mapM _ _) as [items|]; [|done]. split; [|done].
    set (sorted := sort_Slice _ _). destruct sorted as [|toNode l]; [done|]. destruct (list.last _); [|done].
    by destruct (nodeCollectionSegments _).
Qed.
End properties.

(** ** Witness *)
Definition sample_replica : Replica := MkReplica 11 1 [4; 5].
Definition sample_dist : gmap Z (list (option SegmentVersionInfo)) :=
  buildUpNodeSegmentsView
    [(4, [Some (MkSegmentVersion 7 1 [] "" 0 0 ∅); Some (MkSegmentVersion 8 1 [] "" 0 0 ∅); Some (MkSegmentVersion 9 2 [] "" 0 0 ∅)])].
Definition sample_rows : gmap Z Z := list_to_map [(7, 100); (8, 10); (9, 1000)].
Definition default_score : ScoreBalanceParam := MkScoreParam (f_const 1 10) (f_const 5 100) (f_const 13 10).

Example explainReplica_ex :
  (r ← explainReplica sample_replica sample_dist sample_rows default_score; Ok (map priority (br_Nodes r), br_Move r))
  = Ok ([0; 221], Some (MkMove 8 10 4 5 210 11 ShouldMove)).
Proof. vm_compute. reflexivity. Qed.

(** With no rows at all the only node of a replica is told to move a segment to itself. *)
Example explainReplica_self :
  (r ← explainReplica (MkReplica 11 1 [4]) (buildUpNodeSegmentsView [(4, [Some (MkSegmentVersion 7 1 [] "" 0 0 ∅)])])
         {[7 := 0]} default_score; Ok (br_Move r))
  = Ok (Some (MkMove 7 0 4 4 0 0 ShouldMove)).
Proof. vm_compute. reflexivity. Qed.

Lemma explainReplica_spec_witness :
  ∃ r, explainReplica sample_replica sample_dist sample_rows default_score = Ok r
    ∧ br_Nodes r ≡ₚ map (item default_score sample_rows 1 sample_dist) [4; 5].
Proof.
  destruct (explainReplica_spec sample_replica sample_dist sample_rows default_score) as [Hk _]; [discriminate|].
  destruct Hk as (r & fromNode & toNode & Hr & Hp & _).
  - constructor; [|constructor; [constructor|constructor]].
    repeat constructor; (eexists; split; [reflexivity|eexists; reflexivity]).
  - exists r. split; [exact Hr|exact Hp].
Defined.
