(* ===== verification/Shell.v ===== *)
(** * The shell: connecting, choosing an instance, and the states

    Models [states/etcd_connect.go], the state map of [states/app_state.go] and
    [states/app_control.go], [states/instance.go] and [bapps/olc.go].  The environment, the
    clients and the TLS files are arguments. *)

From S2P Require Export Framework Segments GoSort.

(** ** [net.SplitHostPort] *)
Definition addr_error (msg addr : string) : goerr := Errorf ("address " +:+ addr +:+ ": " +:+ msg).
Definition missingPort := "missing port in address".
Definition tooManyColons := "too many colons in address".
Definition last_colon (s : string) : option (string * string) := cut_last ":" s.

(** The part up to the first closing bracket, and what follows it. *)
Definition cut_bracket (s : string) : option (string * string) :=
  match Split2 "]" s with [a; b] => Some (a, b) | _ => None end.
Definition check_brackets (addr j k host port : string) : res (string * string) :=
  if Contains j "[" then Err (addr_error "unexpected '[' in address" addr)
  else if Contains k "]" then Err (addr_error "unexpected ']' in address" addr)
  else Ok (host, port).
Definition SplitHostPort (hostport : string) : res (string * string) :=
  match last_colon hostport with
  | None => Err (addr_error missingPort hostport)
  | Some (before, port) =>
      match hostport with
      | String "[" rest =>
          match cut_bracket rest with
          | None => Err (addr_error "missing ']' in address" hostport)
          | Some (host, "") => Err (addr_error missingPort hostport)
          | Some (host, String c after) =>
              if bool_decide (before = String "[" host +:+ "]")
              then check_brackets hostport rest (String c after) host port
              else Err (addr_error (if bool_decide (c = ":"%char) then tooManyColons else missingPort) hostport)
          end
      | _ =>
          if Contains before ":" then Err (addr_error tooManyColons hostport)
          else check_brackets hostport hostport hostport before port
      end
  end.

Example SplitHostPort_ex :
  map SplitHostPort ["127.0.0.1:2379"; "[::1]:2379"; "::1"; "[::1]"; "[a]b:1"]
  = [Ok ("127.0.0.1", "2379"); Ok ("::1", "2379"); Err (addr_error tooManyColons "::1");
     Err (addr_error missingPort "[::1]"); Err (addr_error missingPort "[a]b:1")].
Proof. vm_compute. reflexivity. Qed.

(** ** The states

    A connection to a store, an instance in it or a service of a node, with the state that a
    command has set to come next, under a tag.  Every state object is in the map of the application. *)
Inductive Conn := MkConn (kind : ConnKind) (tag : string) (next : option Conn)
with ConnKind :=
  | KVConnected (addr : string)
  | InstanceState (instanceName basePath : string) (etcdState : Conn)
  | NodeState (label : string)
  | ExitState.
Definition conn_next (c : Conn) : option Conn := let 'MkConn _ _ next := c in next.
Definition conn_NextState (c : Conn) : string * option Conn := let 'MkConn _ tag next := c in (tag, next).
Definition conn_SetNext (c : Conn) (tag : string) (next : option Conn) : Conn :=
  let 'MkConn kind _ _ := c in MkConn kind tag next.
Definition spawn (kind : ConnKind) : Conn := MkConn kind "" None.

Definition conn_Label (c : Conn) : string :=
  match c with
  | MkConn (KVConnected addr) _ _ => "MetaStore(" +:+ addr +:+ ")"
  | MkConn (InstanceState name _ _) _ _ => "Milvus(" +:+ name +:+ ")"
  | MkConn (NodeState label) _ _ => label
  | MkConn ExitState _ _ => ""
  end.
Definition conn_IsEnding (c : Conn) : bool := match c with MkConn ExitState _ _ => true | _ => false end.

Definition etcdTag := "etcd".
Definition tikvTag := "tikv".

(** [getKVConnectedState] and [getInstanceState].  The component commands (show, remove,
    repair and set) get the store itself; only the commands that are built with the
    instance's [client] get the auditing store around it. *)
Definition getKVConnectedState (addr : string) : Conn := spawn (KVConnected addr).
Definition getInstanceState (instanceName metaPath : string) (etcdState : Conn) : Conn :=
  spawn (InstanceState instanceName (path_Join [instanceName; metaPath]) etcdState).
Inductive InstanceStore (K F : Type) := Plain (cli : K) | Audited (kv : FileAuditKV K F).
Arguments Plain {K F} cli.
Arguments Audited {K F} kv.
Record InstanceStores (K F : Type) := MkInstanceStores { is_component : K; is_client : InstanceStore K F }.
Arguments MkInstanceStores {K F} _ _.
Definition instance_stores {K F} (cli : K) (OpenFile : res F) : InstanceStores K F :=
  MkInstanceStores cli (match OpenFile with Ok file => Audited (Audit cli file) | _ => Plain cli end).

(** ** [ApplicationState] *)
Notation AppStates := (gmap string Conn).
Definition SetTagNext (states : AppStates) (tag : string) (state : Conn) : AppStates := <[tag := state]> states.

Section app.
Context `{StringMapOrder} `{SortSlice}.

(** One round of the loop of [Process]; the map is read when the key is reached. *)
Definition transfer (states : AppStates) (key : string) : AppStates :=
  match states !! key with
  | None => states
  | Some state =>
      match conn_NextState state with
      | (_, None) => states
      | (tag, Some next) => <[tag := next]> (<[key := conn_SetNext state key None]> states)
      end
  end.

(** [Process]: the command has changed the states; a key that the loop adds is visited or
    not, as [added] says of the map. *)
Definition app_Process (added : AppStates → list string) (states : AppStates) : AppStates :=
  let states' := foldl transfer states (map fst (string_range states)) in
  foldl transfer states' (added states').

Definition listStates (states : AppStates) : list string :=
  insertion_sort (λ x y, klt x y) (map fst (string_range states)).
Definition app_Label (states : AppStates) : string :=
  if bool_decide (states = ∅) then "Offline"
  else foldl (λ l name, l +:+ match states !! name with Some s => conn_Label s | None => "" end) "" (listStates states).
Definition app_IsEnding (states : AppStates) : bool := existsb (λ kv, conn_IsEnding kv.2) (map_to_list states).

Definition Disconnect_ParseArgs (args : list string) : res (list string) :=
  match args with [] => Err (Errorf "disconnect component not provided") | _ => Ok args end.
Definition DisconnectCommand (components : list string) (states : AppStates) : AppStates :=
  foldl (λ states comp, delete comp states) states components.
Definition ExitCommand (states : AppStates) : AppStates := SetTagNext states "exit" (spawn ExitState).
End app.

(** ** [bapps/olc.go]: the commands of a script, and whether their output is dropped *)
Definition parseScripts (script : string) : list (bool * string) :=
  map (λ raw, if HasPrefix raw "#" then (true, TrimPrefix raw "#") else (false, raw)) (Split "," script).
Fixpoint olc_Run {S} (Process : S → string → res S) (app : S) (cmds : list (bool * string)) : S :=
  match cmds with
  | [] => app
  | (_, cmd) :: cmds => match Process app cmd with Ok app => olc_Run Process app cmds | _ => app end
  end.

(** ** Connecting *)
Record ConnectParams := MkConnect {
  cn_EtcdAddr : string;
  cn_RootPath : string;
  cn_MetaPath : string;
  cn_Force : bool;
  cn_Dry : bool;
  cn_EnableTLS : bool;
  cn_RootCA : string;
  cn_ETCDPem : string;
  cn_ETCDKey : string;
  cn_TLSMinVersion : string;
  cn_UseTiKV : bool;
  cn_TiKVAddr : string;
  cn_Auto : bool;
}.

Definition ErrNotMilvsuRootPath : goerr := Errorf "is not a Milvus RootPath".

Definition pingMetaStore {K} `{MetaKV K} (cli : K) (rootPath metaPath : string) : res unit :=
  _ ← mk_Load cli (path_Join [rootPath; metaPath; "session/id"]) false;
  Ok tt.

(** [readEnv]: a default that the environment replaces. *)
Definition env_or (Getenv : string → string) (value dflt name : string) : string :=
  if bool_decide (value = dflt) && bool_decide (Getenv name ≠ "") then Getenv name else value.
Definition readEnv (Getenv : string → string) (cp : ConnectParams) : ConnectParams :=
  MkConnect (env_or Getenv (cn_EtcdAddr cp) "127.0.0.1:2379" "MILVUS_ETCD_ADDR")
    (env_or Getenv (cn_RootPath cp) "by-dev" "MILVUS_ROOT_PATH")
    (cn_MetaPath cp) (cn_Force cp) (cn_Dry cp) (cn_EnableTLS cp) (cn_RootCA cp) (cn_ETCDPem cp) (cn_ETCDKey cp)
    (cn_TLSMinVersion cp) (cn_UseTiKV cp) (cn_TiKVAddr cp) (cn_Auto cp).

(** The calls of [crypto/x509] and [crypto/tls] on a pool of certificates. *)
Class TlsLib (Pool : Type) := {
  SystemCertPool : res Pool;
  ReadFile : string → res (list byte);
  AppendCertsFromPEM : Pool → list byte → Pool * bool;
  LoadX509KeyPair : string → string → res string;
}.
Record TlsConfig (Pool : Type) := MkTls { tls_RootCAs : Pool; tls_Certificate : string; tls_MinVersion : Z }.
Arguments MkTls {Pool} _ _ _.

Definition tls_version (v : string) : res Z :=
  if bool_decide (v = "1.0") then Ok 769
  else if bool_decide (v = "1.1") then Ok 770
  else if bool_decide (v = "1.2") then Ok 771
  else if bool_decide (v = "1.3") then Ok 772
  else Err (Errorf "invalid min tls version").
Definition getTLSConfig {Pool} `{TlsLib Pool} (cp : ConnectParams) : res (option (TlsConfig Pool)) :=
  if negb (cn_EnableTLS cp) then Ok None
  else
    version ← tls_version (cn_TLSMinVersion cp);
    pool ← SystemCertPool;
    pool ← (if bool_decide (cn_RootCA cp ≠ "")
            then bs ← ReadFile (cn_RootCA cp);
                 let '(pool, ok) := AppendCertsFromPEM pool bs in
                 if ok : bool then Ok pool else Err (Errorf "Root CA PEM cannot be parsed")
            else Ok pool);
    cert ← LoadX509KeyPair (cn_ETCDPem cp) (cn_ETCDKey cp);
    Ok (Some (MkTls pool cert version)).

(** The address of etcd, with the default port. *)
Definition etcd_address (addr : string) : res string :=
  match SplitHostPort addr with
  | Err (Errorf msg) => if Contains msg "missing port in address" then Ok (addr +:+ ":2379") else Err (Errorf "invalid etcd address")
  | _ => Ok addr
  end.

Section connect.
Context {St Pool : Type} `{EtcdClient St} `{TlsLib Pool}.

(** The same loop as that of [etcdKV.GetAllRootPath]. *)
Definition findMilvusInstance (fuel : nat) (cli : St) : option (res (list string)) :=
  GetAllRootPath fuel (NewEtcdKV cli) [] "".

(** What a connection sets: a state under a tag, or nothing. *)
Definition enter_etcd (cp : ConnectParams) (addr rootPath : string) (cli : etcdKV St) : res (option (string * Conn)) :=
  let kvState := getKVConnectedState addr in
  if cn_Dry cp then Ok (Some (etcdTag, kvState))
  else
    _ ← (if cn_Force cp then Ok tt else pingMetaStore cli rootPath (cn_MetaPath cp));
    Ok (Some (etcdTag, getInstanceState rootPath (cn_MetaPath cp) kvState)).

Definition connectEtcd (fuel : nat) (Getenv : string → string)
    (New : string → option (TlsConfig Pool) → res St) (cp : ConnectParams)
    : option (res (option (string * Conn))) :=
  let cp := readEnv Getenv cp in
  match (tls ← getTLSConfig cp; addr ← etcd_address (cn_EtcdAddr cp); st ← New addr tls; Ok (addr, st)) with
  | Err e => Some (Err e)
  | Panic w => Some (Panic w)
  | Ok (addr, st) =>
      let cli := NewEtcdKV st in
      if cn_Auto cp then
        match findMilvusInstance fuel st with
        | None => None
        | Some (Err e) => Some (Err e)
        | Some (Panic w) => Some (Panic w)
        | Some (Ok []) => Some (Ok None)
        | Some (Ok [candidate]) => Some (enter_etcd cp addr candidate cli)
        | Some (Ok _) => Some (enter_etcd cp addr (cn_RootPath cp) cli)
        end
      else Some (enter_etcd cp addr (cn_RootPath cp) cli)
  end.
End connect.

(** [connectTiKV]: the flag [Force] passes one error only. *)
Definition ping_tikv {K} `{MetaKV K} (cli : K) (rootPath metaPath : string) (Force : bool) : res unit :=
  match pingMetaStore cli rootPath metaPath with
  | Err e => if bool_decide (e = ErrNotMilvsuRootPath) && Force then Ok tt else Err e
  | r => r
  end.
Definition connectTiKV {K} `{MetaKV K} (GetTiKVClient : ConnectParams → res K) (cp : ConnectParams)
    : res (option (string * Conn)) :=
  cli ← GetTiKVClient cp;
  let kvState := getKVConnectedState (cn_TiKVAddr cp) in
  if cn_Dry cp then Ok (Some (tikvTag, kvState))
  else
    _ ← ping_tikv cli (cn_RootPath cp) (cn_MetaPath cp) (cn_Force cp);
    Ok (Some (tikvTag, getInstanceState (cn_RootPath cp) (cn_MetaPath cp) kvState)).

(** [use] and [dry-mode], on the state that they are called on; both give the tag of etcd. *)
Definition UseCommand {K} `{MetaKV K} (cli : K) (instanceName MetaPath : string) (Force : bool) (s : Conn) : res Conn :=
  _ ← ping_tikv cli instanceName MetaPath Force;
  Ok (conn_SetNext s etcdTag (Some (getInstanceState instanceName MetaPath s))).
Definition DryModeCommand (s : Conn) : Conn :=
  match s with
  | MkConn (InstanceState _ _ etcdState) _ _ => conn_SetNext s etcdTag (Some etcdState)
  | _ => s
  end.

(** ** Properties *)
Section process.
Context `{StringMapOrder}.

Definition idle (states : AppStates) : Prop := ∀ key state, states !! key = Some state → conn_next state = None.

Lemma transfer_id states key :
  (∀ state, states !! key = Some state → conn_next state = None) → transfer states key = states.
Proof.
  unfold transfer. intros Hn. destruct (states !! key) as [state|]; [|done].
  specialize (Hn state eq_refl). by destruct state as [kind tag [next|]].
Qed.
Lemma transfers_id states keys :
  (∀ key state, key ∈ keys → states !! key = Some state → conn_next state = None) →
  foldl transfer states keys = states.
Proof.
  induction keys as [|key keys IH]; intros Hn; [done|]. cbn [foldl].
  rewrite transfer_id by (intros state; apply Hn; left). apply IH. intros k state Hk. apply Hn. by right.
Qed.

(** C37 (invariant): when one state has another one to come next, under a tag, that one is set and the state
    is settled under its own key, in whatever order the map is read; the other states stay.
    After that no state waits to be entered. *)
Theorem app_Process_spec added states k s tag next :
  states !! k = Some s → conn_NextState s = (tag, Some next) → conn_next next = None →
  (∀ k' s', k' ≠ k → states !! k' = Some s' → conn_next s' = None) →
  app_Process added states = <[tag := next]> (<[k := conn_SetNext s k None]> states)
  ∧ idle (app_Process added states).
Proof.
  intros Hk Hs Hnext Hrest. set (result := <[tag := next]> (<[k := conn_SetNext s k None]> states)).
  assert (idle result) as Hidle.
  { intros k' s'. unfold result. destruct (decide (k' = tag)) as [->|Ht]; [rewrite lookup_insert_eq; by intros [= <-]|].
    rewrite lookup_insert_ne by done. destruct (decide (k' = k)) as [->|Hne].
    - rewrite lookup_insert_eq. intros [= <-]. by destruct s.
    - rewrite lookup_insert_ne by done. by apply Hrest. }
  enough (foldl transfer states (map fst (string_range states)) = result) as He.
  { unfold app_Process. rewrite He. rewrite transfers_id by (intros; by eapply Hidle). by split. }
  assert (NoDup (map fst (string_range states))) as Hn by (rewrite string_range_perm; apply NoDup_fst_map_to_list).
  assert (k ∈ map fst (string_range states)) as Hin.
  { rewrite string_range_perm, list_elem_of_fmap. exists (k, s). by rewrite elem_of_map_to_list. }
  apply list_elem_of_split in Hin as (l1 & l2 & Hl). rewrite Hl in Hn |- *.
  apply list.NoDup_app in Hn as (_ & Hd & _). rewrite foldl_app. cbn [foldl].
  rewrite (transfers_id states l1).
  2:{ intros k' s' Hk' Hs'. apply (Hrest k'); [|done]. intros ->. apply (Hd k Hk'). left. }
  assert (transfer states k = result) as -> by (unfold transfer; by rewrite Hk, Hs).
  apply transfers_id. intros; by eapply Hidle.
Qed.
End process.

Section connecting.
Context {St Pool : Type} `{EtcdLaws St} `{TlsLib Pool}.

Lemma ping_spec {K} `{MetaKVLaws K} (cli : K) root meta :
  healthy cli → is_path root → is_path meta →
  pingMetaStore cli root meta
  = if bool_decide (is_Some (mk_map cli !! joined [root; meta; "session/id"])) then Ok tt else Err ErrKeyNotFound.
Proof.
  intros Hc Hr Hm. unfold pingMetaStore. assert (is_path "session/id") as Hs by is_path_dec.
  assert (Forall is_path [root; meta; "session/id"]) as Hall by (by repeat constructor).
  rewrite path_Join_joined by done. rewrite healthy_Load; [|done|by apply joined_is_path].
  by destruct (mk_map cli !! _).
Qed.

(** The root path that a connection uses: the one given, or with [Auto] the only one of the
    store. *)
Definition used_root (fuel : nat) (cp : ConnectParams) (st : St) (root : string) : Prop :=
  if cn_Auto cp
  then keys_slashed (etcd_kvs st) ∧ (size (etcd_kvs st) < fuel)%nat ∧ etcd_kvs st ≠ ∅
       ∧ ∀ k, is_Some (etcd_kvs st !! k) → first_part k = root
  else root = cn_RootPath cp.

(** C32 (functional): an instance is entered when its session counter is in the store, or by force; in dry
    mode the store itself is entered. The instance is below the root path that is given or, in
    auto mode, below the only root path of the store; nothing is said of auto mode on an empty
    store or on one with several root paths. *)
Theorem connectEtcd_spec fuel Getenv New cp tls addr st root :
  let cp' := readEnv Getenv cp in
  getTLSConfig cp' = Ok tls → etcd_address (cn_EtcdAddr cp') = Ok addr → New addr tls = Ok st → etcd_up st →
  used_root fuel cp' st root → is_path root → is_path (cn_MetaPath cp') →
  connectEtcd (Pool:=Pool) fuel Getenv New cp
  = Some (if cn_Dry cp then Ok (Some (etcdTag, getKVConnectedState addr))
          else if cn_Force cp || bool_decide (is_Some (etcd_kvs st !! joined [root; cn_MetaPath cp'; "session/id"]))
          then Ok (Some (etcdTag, getInstanceState root (cn_MetaPath cp') (getKVConnectedState addr)))
          else Err ErrKeyNotFound).
Proof.
  intros cp' Htls Haddr Hnew Hup Hroot Hr Hm. unfold connectEtcd. fold cp'. rewrite Htls. cbn [mbind res_bind].
  rewrite Haddr. cbn [mbind res_bind]. rewrite Hnew. cbn [mbind res_bind].
  assert (enter_etcd cp' addr root (NewEtcdKV st)
    = if cn_Dry cp then Ok (Some (etcdTag, getKVConnectedState addr))
      else if cn_Force cp || bool_decide (is_Some (etcd_kvs st !! joined [root; cn_MetaPath cp'; "session/id"]))
      then Ok (Some (etcdTag, getInstanceState root (cn_MetaPath cp') (getKVConnectedState addr)))
      else Err ErrKeyNotFound) as He.
  { unfold enter_etcd. change (cn_Dry cp') with (cn_Dry cp). change (cn_Force cp') with (cn_Force cp).
    rewrite ping_spec by (by try apply NewEtcdKV_healthy). change (mk_map (NewEtcdKV st)) with (etcd_kvs st).
    destruct (cn_Dry cp), (cn_Force cp); try done. cbn [orb]. by case_bool_decide. }
  unfold used_root in Hroot. destruct (cn_Auto cp').
  - destruct Hroot as (Hsl & Hf & Hne & Hall).
    destruct (GetAllRootPath_spec (NewEtcdKV st) fuel Hup Hsl Hf) as (apps & Ha & Hnd & Happs).
    unfold findMilvusInstance. rewrite Ha.
    assert (∀ p, p ∈ apps ↔ p = root) as Hp.
    { intros p. rewrite Happs. split; [intros (_ & k & Hk & <-); by apply Hall|]. intros ->.
      split; [by apply is_path_nonempty|]. apply map_choose in Hne as (k & v & Hk). exists k.
      split; [by exists v|]. apply Hall. by exists v. }
    destruct apps as [|a [|b apps]].
    + exfalso. assert (root ∈ []) as Hin by by apply Hp. by apply not_elem_of_nil in Hin.
    + assert (a = root) as -> by (apply Hp; left). by rewrite He.
    + assert (a = root) as -> by (apply Hp; left). assert (b = root) as -> by (apply Hp; right; left).
      apply list.NoDup_cons in Hnd as [Hnd _]. destruct Hnd. left.
  - subst root. by rewrite He.
Qed.

(** The error that [Force] lets pass is one that no store returns: the flag has no effect on
    a connection to TiKV, nor on [use]. *)
Theorem force_ignored {K} `{MetaKVLaws K} (cli : K) root meta s :
  healthy cli → is_path root → is_path meta →
  ping_tikv cli root meta true = ping_tikv cli root meta false
  ∧ UseCommand cli root meta true s = UseCommand cli root meta false s
  ∧ (mk_map cli !! joined [root; meta; "session/id"] = None → UseCommand cli root meta true s = Err ErrKeyNotFound).
Proof.
  intros Hc Hr Hm. unfold UseCommand, ping_tikv. rewrite ping_spec by done.
  case_bool_decide as Hk; [|done]. split_and!; [done..|]. intros Hn. rewrite Hn in Hk. by destruct Hk.
Qed.
End connecting.

(** ** Witnesses *)
#[local] Instance no_tls : TlsLib unit := {|
  SystemCertPool := Ok tt; ReadFile _ := Err (Errorf "no such file"); AppendCertsFromPEM p _ := (p, false);
  LoadX509KeyPair _ _ := Err (Errorf "no such file");
|}.
Definition sample_connect (Auto : bool) : ConnectParams :=
  MkConnect "127.0.0.1" "by-dev" "meta" false false false "" "" "" "1.2" false "127.0.0.1:2389" Auto.
Definition session_store : gmap string string := {["root/meta/session/id" := "7"]}.

(** The default root path is not the one of the store, which [Auto] finds. *)
Example connectEtcd_auto :
  let connect Auto := connectEtcd (Pool:=unit) 2 (λ _, "") (λ _ _, Ok session_store) (sample_connect Auto) in
  connect false = Some (Err ErrKeyNotFound)
  ∧ connect true = Some (Ok (Some ("etcd", getInstanceState "root" "meta" (getKVConnectedState "127.0.0.1:2379")))).
Proof. vm_compute. by split. Qed.

Lemma connectEtcd_spec_witness :
  connectEtcd (Pool:=unit) 2 (λ name, if bool_decide (name = "MILVUS_ROOT_PATH") then "root" else "")
    (λ _ _, Ok session_store) (sample_connect false)
  = Some (Ok (Some ("etcd", getInstanceState "root" "meta" (getKVConnectedState "127.0.0.1:2379")))).
Proof.
  rewrite (connectEtcd_spec (Pool:=unit) 2 (λ name, if bool_decide (name = "MILVUS_ROOT_PATH") then "root" else "")
    (λ _ _, Ok session_store) (sample_connect false) None "127.0.0.1:2379" session_store "root").
  - vm_compute. reflexivity.
  - reflexivity.
  - vm_compute. reflexivity.
  - reflexivity.
  - exact I.
  - vm_compute. reflexivity.
  - is_path_dec.
  - is_path_dec.
Defined.

Lemma force_ignored_witness :
  UseCommand (etcd_store [("by-dev/meta/session/id", "7")]) "other" "meta" true (getKVConnectedState "a")
  = Err ErrKeyNotFound.
Proof.
  destruct (force_ignored (etcd_store [("by-dev/meta/session/id", "7")]) "other" "meta" (getKVConnectedState "a"))
    as (_ & _ & Hu); [apply etcd_store_healthy|is_path_dec|is_path_dec|].
  apply Hu. vm_compute. reflexivity.
Defined.

(** [use] on a connection to TiKV: the instance gets the tag of etcd, and the connection
    stays. *)
Definition used_tikv : AppStates :=
  {["tikv" := MkConn (KVConnected "a") "etcd" (Some (getInstanceState "root" "meta" (getKVConnectedState "a")))]}.
Lemma app_Process_spec_witness :
  ∃ result, app_Process (λ _, ["etcd"]) used_tikv = result
    ∧ map_to_list (conn_Label <$> result) = [("etcd", "Milvus(root)"); ("tikv", "MetaStore(a)")] ∧ idle result.
Proof.
  destruct (app_Process_spec (λ _, ["etcd"]) used_tikv "tikv"
    (MkConn (KVConnected "a") "etcd" (Some (getInstanceState "root" "meta" (getKVConnectedState "a"))))
    "etcd" (getInstanceState "root" "meta" (getKVConnectedState "a"))) as [Hp Hi].
  - reflexivity.
  - reflexivity.
  - reflexivity.
  - intros k' s' Hne Hs. unfold used_tikv in Hs. rewrite lookup_singleton_ne in Hs by congruence. discriminate.
  - eexists. split; [exact Hp|]. split; [vm_compute; reflexivity|]. rewrite <-Hp. exact Hi.
Defined.
