(* ===== verification/Nodes.v ===== *)
(** * Calling the components of a cluster

    Models [states/mgrpc/connect.go] and [commands.go], the connections to the sessions of the
    metadata store; [states/visit.go], which enters the state of a node; the commands
    [show configurations] ([states/configuration.go]), [list metrics-port] and
    [listen-events] ([states/management.go], [eventlog/listener.go]), and the log levels
    ([states/update_log_level.go]).  What the nodes answer is an interface. *)

From S2P Require Export Shell Backup Collections.

(** The services that have a client, and what a connection and the network answer. *)
Inductive service := RootCoordClient | DataCoordClient | IndexCoordClient | QueryCoordClient
  | DataNodeClient | QueryNodeClient.
#[export] Instance service_eq_dec : EqDecision service.
Proof. solve_decision. Defined.

Class Network (C : Type) := {
  grpc_Dial : option Z → string → res C;
  ShowConfigurations : service → C → Z → res (list (string * string));
  ResolveTCPAddr : string → res (option string);
  http_Get : string → res string;
  http_Put : string → string → res string;
  portResp_Unmarshal : string → Z * Z;
}.

Definition second : Z := 10 ^ 9.

(** ** [mgrpc/connect.go] *)
Definition SessionMatch (session : Session) (sessionType : string) : bool :=
  if bool_decide (ServerName session = sessionType) then true
  else if HasSuffix sessionType "coord" then bool_decide (ServerName session = "mixcoord")
  else false.

Section connect.
Context {K C : Type} `{MetaKV K} `{JsonSession} `{Network C}.

(** The loop of [GetSessionConnection], which ends with the first failing connection. *)
Fixpoint connect_sessions (sessionType : string) (id : Z) (l : list Session) : res (list (Session * C)) :=
  match l with
  | [] => Ok []
  | session :: l =>
      if SessionMatch session sessionType then
        if bool_decide (id ≠ 0) && bool_decide (ServerID session ≠ id) then connect_sessions sessionType id l
        else
          conn ← grpc_Dial None (Address session);
          rest ← connect_sessions sessionType id l;
          Ok ((session, conn) :: rest)
      else connect_sessions sessionType id l
  end.

Definition GetSessionConnection (cli : K) (basePath sessionType : string) (id : Z)
    : res (list Session * list C) :=
  allSessions ← ListSessions cli basePath;
  found ← connect_sessions sessionType id allSessions;
  if bool_decide (zlen found = 0) then Err (Errorf ("session of " +:+ sessionType +:+ " not found"))
  else Ok (map fst found, map snd found).

Definition ConnectRootCoord (cli : K) (basePath : string) (id : Z) : res (Session * C) :=
  '(sessions, conns) ← GetSessionConnection cli basePath "rootcoord" id;
  match sessions, conns with
  | [], _ => Err (Errorf "rootcoord session not found")
  | session :: _, conn :: _ => Ok (session, conn)
  | _, [] => Panic "index out of range"
  end.

Definition ConnectQueryNodes (cli : K) (basePath : string) (id : Z) : res (list (Session * C)) :=
  '(sessions, conns) ← GetSessionConnection cli basePath "querynode" id;
  if bool_decide (zlen sessions = 0) then Err (Errorf "querynode session not found")
  else mapR (λ idx_session : nat * Session,
         match conns !! idx_session.1 with
         | Some conn => Ok (idx_session.2, conn)
         | None => Panic "index out of range"
         end) (imap pair sessions).

(** ** [mgrpc/commands.go] *)
Definition GetConfiguration (client : service) (conn : C) (id : Z) : res (list (string * string)) :=
  ShowConfigurations client conn id.

(** The command [configuration] of a node: the pairs that are printed. *)
Definition getConfigurationCmd (client : service) (conn : C) (id : Z) (prefix : string)
    : list (string * string) :=
  match ShowConfigurations client conn id with
  | Ok items => filter (λ item, HasPrefix item.1 (strings_ToLower prefix) = true) items
  | _ => []
  end.
End connect.

(** ** [visit.go] *)
Definition getSessionTypes : list string :=
  ["datacoord"; "datanode"; "indexcoord"; "indexnode"; "querycoord"; "querynode"; "rootcoord"].

Definition node_label (name : string) (session : Session) : string :=
  name +:+ "-" +:+ FormatInt (ServerID session) +:+ "(" +:+ Address session +:+ ")".

Definition GetDataCoordState (session : Session) : Conn := spawn (NodeState (node_label "DataCoord" session)).
Definition GetDataNodeState (session : Session) : Conn := spawn (NodeState (node_label "DataNode" session)).
Definition GetIndexCoordState (session : Session) : Conn := spawn (NodeState (node_label "IndexCoord" session)).
Definition GetQueryCoordState (session : Session) : Conn := spawn (NodeState (node_label "QueryCoord" session)).
Definition GetQueryNodeState (session : Session) : Conn := spawn (NodeState (node_label "QueryNode" session)).
Definition GetRootCoordState (session : Session) : Conn := spawn (NodeState (node_label "RootCoord" session)).

Definition setNextState (sessionType : string) (state : Conn) (session : Session) : Conn :=
  if bool_decide (sessionType = "datacoord") then conn_SetNext state "dc" (Some (GetDataCoordState session))
  else if bool_decide (sessionType = "datanode") then conn_SetNext state "dn" (Some (GetDataNodeState session))
  else if bool_decide (sessionType = "indexcoord") then conn_SetNext state "ic" (Some (GetIndexCoordState session))
  else if bool_decide (sessionType = "indexnode") then state
  else if bool_decide (sessionType = "querycoord") then conn_SetNext state "qc" (Some (GetQueryCoordState session))
  else if bool_decide (sessionType = "querynode") then conn_SetNext state "qn" (Some (GetQueryNodeState session))
  else if bool_decide (sessionType = "rootcoord") then conn_SetNext state "rc" (Some (GetRootCoordState session))
  else state.

Section visit.
Context {K C : Type} `{MetaKV K} `{JsonSession} `{Network C}.

Definition getSessionConnect (cli : K) (basePath : string) (id : Z) (sessionType : string) : res (Session * C) :=
  sessions ← ListSessions cli basePath;
  match List.find (λ session, bool_decide (id = ServerID session) && SessionMatch session sessionType) sessions with
  | Some session => conn ← grpc_Dial None (Address session); Ok (session, conn)
  | None => Err (Errorf "invalid id")
  end.

(** The function that [RunFuncFactory] makes for a type of sessions. *)
Definition visit_run (cli : K) (basePath sessionType : string) (args : list string) (addr sType : string)
    (state : Conn) : Conn :=
  match args with
  | [] => state
  | arg :: _ =>
      match ParseInt arg with
      | None => state
      | Some id =>
          if bool_decide (addr ≠ "") && bool_decide (sType ≠ "") then
            match grpc_Dial (C:=C) None addr with
            | Ok _ => setNextState sessionType state (MkSession 0 "" addr false "" "" 0 "")
            | _ => state
            end
          else
            match getSessionConnect cli basePath id sessionType with
            | Ok (session, _) => setNextState sessionType state session
            | _ => state
            end
      end
  end.
End visit.

(** ** [configuration.go] *)
Definition config_client (name : string) : option service :=
  if bool_decide (name = "rootcoord") then Some RootCoordClient
  else if bool_decide (name = "datacoord") then Some DataCoordClient
  else if bool_decide (name = "indexcoord") then Some IndexCoordClient
  else if bool_decide (name = "querycoord") then Some QueryCoordClient
  else if bool_decide (name = "datanode") then Some DataNodeClient
  else if bool_decide (name = "querynode") then Some QueryNodeClient
  else None.

Section configuration.
Context {K C : Type} `{MetaKV K} `{JsonSession} `{Network C}.

(** What one session adds to the results. *)
Definition node_configuration (DialTimeout : Z) (Filter : string) (session : Session)
    : option (string * gmap string string) :=
  match grpc_Dial (C:=C) (Some (int64 (DialTimeout * second))) (Address session) with
  | Ok conn =>
      match config_client (strings_ToLower (ServerName session)) with
      | None => None
      | Some client =>
          match GetConfiguration client conn (ServerID session) with
          | Ok configurations =>
              Some (ServerName session +:+ "-" +:+ FormatInt (ServerID session),
                    KVListMap (filter (λ kv, bool_decide (Filter = "") || Contains kv.1 Filter = true) configurations))
          | _ => None
          end
      end
  | _ => None
  end.

Definition add_result (results : gmap string (gmap string string)) (r : option (string * gmap string string))
    : gmap string (gmap string string) :=
  match r with Some (comp, configs) => <[comp := configs]> results | None => results end.

Definition GetConfigurationCommand (cli : K) (basePath : string) (DialTimeout : Z) (Filter : string)
    : res (gmap string (gmap string string)) :=
  sessions ← ListSessions cli basePath;
  Ok (foldl (λ results session,
        add_result results (node_configuration DialTimeout (strings_ToLower Filter) session)) ∅ sessions).
End configuration.

(** ** [management.go] *)
Definition getConfigurationSource (session : Session) : option service :=
  let name := ServerName session in
  if bool_decide (name = "datacoord") then Some DataCoordClient
  else if bool_decide (name = "datanode") then Some DataNodeClient
  else if bool_decide (name = "indexcoord") then Some IndexCoordClient
  else if bool_decide (name = "querycoord") then Some QueryCoordClient
  else if bool_decide (name = "querynode") then Some QueryNodeClient
  else if bool_decide (name = "rootcoord") then Some RootCoordClient
  else None.

(** [eventlog.Listener]: its channel [closed] is never made. *)
Record Listener (C : Type) := MkListener { l_conn : C; l_closed : option unit }.
Arguments MkListener {C}.
Arguments l_conn {C}.
Arguments l_closed {C}.
Definition Listener_Stop {C} (l : Listener C) : res unit :=
  match l_closed l with
  | None => Panic "close of nil channel"
  | Some _ => Ok tt
  end.

(** The events that the goroutine of [Start] passes on: up to the first failure of the
    stream, since the channel [closed] of a listener is nil. *)
Fixpoint Listener_relay {E} (received : list (res E)) : list E :=
  match received with
  | Ok evt :: received => evt :: Listener_relay received
  | _ => []
  end.

(** [lo.UniqBy]: the first of the elements with the same key. *)
Fixpoint lo_UniqBy {A B} `{Countable B} (key : A → B) (seen : gset B) (l : list A) : list A :=
  match l with
  | [] => []
  | a :: l => if bool_decide (key a ∈ seen) then lo_UniqBy key seen l
              else a :: lo_UniqBy key ({[key a]} ∪ seen) l
  end.

Section management.
Context {K C : Type} `{MetaKV K} `{JsonSession} `{Network C} `{StringMapOrder}.

Definition session_IP (session : Session) : string :=
  match ResolveTCPAddr (Address session) with
  | Ok (Some ip) => ip
  | Ok None => "<nil>"
  | _ => ""
  end.

(** The lines of [list metrics-port]: server, address and port. *)
Definition metrics_ports (session : Session) : list (string * string * string) :=
  match grpc_Dial (C:=C) (Some (2 * second)) (Address session) with
  | Ok conn =>
      match getConfigurationSource session with
      | None => []
      | Some source =>
          match GetConfiguration source conn (ServerID session) with
          | Ok items => omap (λ item, if bool_decide (item.1 = "commonmetricsport")
                                      then Some (ServerName session, session_IP session, item.2) else None) items
          | _ => []
          end
      end
  | _ => []
  end.
Definition ListMetricsPortCommand (cli : K) (basePath : string) (DialTimeout : Z)
    : res (list (string * string * string)) :=
  sessions ← ListSessions cli basePath;
  Ok (concat (map metrics_ports sessions)).

Definition getEventLogPort (ip metricPort : string) : Z :=
  match http_Get ("http://" +:+ ip +:+ ":" +:+ metricPort +:+ "/eventlog") with
  | Ok body => let '(status, port) := portResp_Unmarshal body in
               if bool_decide (status ≠ 200) then -1 else port
  | _ => -1
  end.

Definition NewListener (addr : string) : res (Listener C) :=
  conn ← grpc_Dial (Some second) addr; Ok (MkListener conn None).

(** What the goroutine of one session stores. *)
Definition node_listener (session : Session) : option (string * Listener C) :=
  match grpc_Dial (C:=C) None (Address session) with
  | Ok conn =>
      source ← getConfigurationSource session;
      match GetConfiguration source conn (ServerID session) with
      | Ok items =>
          match filter (λ kv, kv.1 = "commonmetricsport") items with
          | [item] =>
              let ip := session_IP session in
              let port := getEventLogPort ip item.2 in
              if bool_decide (port = -1) then None
              else
                let addr := ip +:+ ":" +:+ FormatInt port in
                match NewListener addr with Ok listener => Some (addr, listener) | _ => None end
          | _ => None
          end
      | _ => None
      end
  | _ => None
  end.

Definition store_listener (m : gmap string (Listener C)) (session : Session) : gmap string (Listener C) :=
  match node_listener session with Some (addr, listener) => <[addr := listener]> m | None => m end.

(** The goroutines end in some order, a permutation of the sessions. *)
Definition prepareListenerClients (ended : list Session → list Session) (cli : K) (basePath : string)
    : res (list (Listener C)) :=
  sessions ← ListSessions cli basePath;
  let sessions := lo_UniqBy ServerID ∅ sessions in
  let m := foldl store_listener ∅ (ended sessions) in
  if bool_decide (Z.of_nat (size m) ≠ zlen sessions)
  then Err (Errorf "failed to create listener, expected")
  else Ok (map snd (string_range m)).

(** [listen-events]: what each listener passes on until its stream ends; [stream] is the
    answer of [Listen] and of its [Recv]s. *)
Definition ListenEventsCommand {E} (ended : list Session → list Session) (stream : C → res (list (res E)))
    (cli : K) (basePath : string) : res (list (list E)) :=
  listeners ← prepareListenerClients ended cli basePath;
  Ok (map (λ l, match stream (l_conn l) with Ok received => Listener_relay received | _ => [] end) listeners).
End management.

(** ** [update_log_level.go] *)
Definition httpAPIListenPort : Z := 9091.
Definition getLogLevelURL (ip : string) : string :=
  "http://" +:+ ip +:+ ":" +:+ FormatInt httpAPIListenPort +:+ "/log/level".
(** The part of the address before the first colon. *)
Definition log_host (session : Session) : string := List.hd "" (Split ":" (Address session)).

(** [http.NewRequest] parses the URL: a host that opens a bracket has to close it. *)
Definition url_parses (host : string) : bool := negb (HasPrefix host "[") || Contains host "]".

Section log_level.
Context {K C : Type} `{MetaKV K} `{JsonSession} `{Network C}.

Definition GetLogLevel (session : Session) : res string :=
  if url_parses (log_host session) then
    body ← http_Get (getLogLevelURL (log_host session));
    Ok (ServerName session +:+ "-" +:+ FormatInt (ServerID session) +:+ ":" +:+ String "009" "" +:+ body)
  else Err (Errorf "missing ']' in host").

(** The header is set before the error of [NewRequest] is looked at. *)
Definition changeLogLevel (session : Session) (newLevel : string) : res string :=
  if url_parses (log_host session) then
    body ← http_Put (getLogLevelURL (log_host session)) newLevel;
    Ok (ServerName session +:+ "-" +:+ FormatInt (ServerID session) +:+ ":" +:+ String "009" "" +:+ body)
  else Panic "invalid memory address or nil pointer dereference".

(** A call for each session, up to the first that fails: the lines printed before. *)
Fixpoint each_session (f : Session → res string) (l : list Session) : list string * res unit :=
  match l with
  | [] => ([], Ok tt)
  | session :: l =>
      match f session with
      | Ok line => let '(lines, r) := each_session f l in (line :: lines, r)
      | Err e => ([], Err e)
      | Panic w => ([], Panic w)
      end
  end.

Definition getShowLogLevelCmd (cli : K) (basePath : string) : list string * res unit :=
  match ListSessions cli basePath with
  | Ok sessions => each_session GetLogLevel sessions
  | Err e => ([], Err e)
  | Panic w => ([], Panic w)
  end.

Definition log_selected (targetRole : string) (targetServerID : Z) (session : Session) : bool :=
  bool_decide (targetRole = "")
  || (bool_decide (targetServerID = -1) && bool_decide (targetRole = ServerName session))
  || (bool_decide (targetRole = ServerName session) && bool_decide (targetServerID = ServerID session)).

Definition getUpdateLogLevelCmd (cli : K) (basePath : string) (args : list string) : list string * res unit :=
  match ListSessions cli basePath with
  | Err e => ([], Err e)
  | Panic w => ([], Panic w)
  | Ok sessions =>
      match args with
      | [] => ([], Ok tt)
      | level :: rest =>
          let targetLevel := strings_ToLower level in
          let targetRole := match rest with [] => "" | role :: _ => strings_ToLower role end in
          match (match rest with
                 | [_; id] => match ParseInt id with
                              | Some serverID => Ok serverID
                              | None => Err (Errorf "invalid syntax")
                              end
                 | _ => Ok (-1)
                 end) with
          | Ok targetServerID =>
              each_session (λ session, changeLogLevel session targetLevel)
                (filter (λ session, log_selected targetRole targetServerID session = true) sessions)
          | Err e => ([], Err e)
          | Panic w => ([], Panic w)
          end
      end
  end.
End log_level.

(** ** Properties *)
(** The sessions that a call is meant for. *)
Definition meant (sessionType : string) (id : Z) (session : Session) : Prop :=
  SessionMatch session sessionType = true ∧ (id = 0 ∨ ServerID session = id).
#[export] Instance meant_dec sessionType id session : Decision (meant sessionType id session).
Proof. unfold meant. apply _. Defined.

Section connect_properties.
Context {K C : Type} `{MetaKV K} `{JsonSession} `{Network C}.
Implicit Types (cli : K) (l : list Session).

Lemma connect_sessions_spec sessionType id l :
  match connect_sessions (C:=C) sessionType id l with
  | Ok found => map fst found = filter (meant sessionType id) l
                ∧ Forall (λ sc, grpc_Dial None (Address sc.1) = Ok sc.2) found
  | _ => ∃ session, session ∈ filter (meant sessionType id) l ∧ ∀ conn : C, grpc_Dial None (Address session) ≠ Ok conn
  end.
Proof.
  induction l as [|s l IH]; [by split|]. cbn [connect_sessions].
  assert (meant sessionType id s ↔ SessionMatch s sessionType = true
    ∧ bool_decide (id ≠ 0) && bool_decide (ServerID s ≠ id) = false) as Hs.
  { unfold meant. rewrite andb_false_iff, !bool_decide_eq_false.
    destruct (decide (id = 0)), (decide (ServerID s = id)); naive_solver. }
  destruct (decide (meant sessionType id s)) as [Hm|Hm].
  2: { rewrite filter_cons_False by done. destruct (SessionMatch s sessionType); [|done].
       destruct (bool_decide (id ≠ 0) && _); [done|]. exfalso. by apply Hm, Hs. }
  rewrite filter_cons_True by done. apply Hs in Hm as [-> ->].
  destruct (grpc_Dial None (Address s)) as [conn|e|w] eqn:Hd; simpl.
  - destruct (connect_sessions sessionType id l) as [rest|e|w]; simpl.
    + destruct IH as [<- IH]. split; [done|]. by constructor.
    + destruct IH as (s' & ? & ?). exists s'. split; [by right|done].
    + destruct IH as (s' & ? & ?). exists s'. split; [by right|done].
  - exists s. split; [by left|]. intros conn. by rewrite Hd.
  - exists s. split; [by left|]. intros conn. by rewrite Hd.
Qed.

(** [GetSessionConnection] returns the sessions of the type, a mixcoord for every
    coordinator, with the identifier if one is given, in the order of the store, each with
    its connection.  It fails when there is none or one of them does not answer. *)
Theorem GetSessionConnection_spec cli base sessionType id all :
  ListSessions cli base = Ok all →
  match GetSessionConnection (C:=C) cli base sessionType id with
  | Ok (sessions, conns) =>
      sessions = filter (meant sessionType id) all ∧ sessions ≠ []
      ∧ Forall2 (λ session conn, grpc_Dial None (Address session) = Ok conn) sessions conns
  | _ => filter (meant sessionType id) all = []
         ∨ ∃ session, session ∈ filter (meant sessionType id) all
             ∧ ∀ conn : C, grpc_Dial None (Address session) ≠ Ok conn
  end.
Proof.
  intros Hl. unfold GetSessionConnection. rewrite Hl. cbn [mbind res_bind].
  pose proof (connect_sessions_spec sessionType id all) as Hs.
  destruct (connect_sessions sessionType id all) as [found|e|w]; simpl; [|by right..].
  destruct Hs as [<- Hd]. case_bool_decide as Hz.
  - left. apply zlen_0 in Hz as ->. done.
  - split_and!; [done| |].
    + intros Hn. apply Hz. by destruct found.
    + clear Hz. induction Hd; constructor; done.
Qed.

(** The connection to the root coordinator is the one of the first session. *)
Lemma ConnectRootCoord_first cli base id sc :
  ConnectRootCoord (C:=C) cli base id = Ok sc ↔
  ∃ sessions conns, GetSessionConnection cli base "rootcoord" id = Ok (sc.1 :: sessions, sc.2 :: conns).
Proof.
  unfold ConnectRootCoord. split.
  - intros ([sessions conns] & Hg & Hr)%res_bind_Ok. destruct sessions as [|s ss], conns as [|c cs]; try done.
    injection Hr as <-. eauto.
  - intros (sessions & conns & Hg). rewrite Hg. by destruct sc.
Qed.

(** The query nodes are paired with their own connections. *)
Lemma ConnectQueryNodes_spec cli base id clients :
  ConnectQueryNodes (C:=C) cli base id = Ok clients →
  GetSessionConnection cli base "querynode" id = Ok (map fst clients, map snd clients).
Proof.
  unfold ConnectQueryNodes. intros ([sessions conns] & Hg & Hr)%res_bind_Ok. rewrite Hg.
  case_bool_decide; [done|].
  assert (length conns = length sessions) as Hlen.
  { unfold GetSessionConnection in Hg. apply res_bind_Ok in Hg as (all & _ & (found & _ & Hf)%res_bind_Ok).
    case_bool_decide; [done|]. injection Hf as <- <-. by rewrite !length_map. }
  clear - Hlen Hr. f_equal.
  enough (∀ k cs, length cs = length sessions →
     (∀ i, cs !! i = conns !! (k + i)%nat) →
     ∀ clients, mapR (λ idx_session : nat * Session,
        match conns !! idx_session.1 with
        | Some conn => Ok (idx_session.2, conn) | None => Panic "index out of range" end)
      (imap (λ i s, ((k + i)%nat, s)) sessions) = Ok clients →
     (sessions, cs) = (map fst clients, map snd clients)) as He.
  { specialize (He 0%nat conns Hlen (λ i, eq_refl) clients Hr). by injection He as -> ->. }
  clear clients Hr Hlen. induction sessions as [|s ss IH]; intros k cs Hl Hc clients; cbn [imap mapR].
  { intros [= <-]. by destruct cs. }
  destruct cs as [|c cs]; [done|]. cbn [fst snd]. pose proof (Hc 0%nat) as Hc0. cbn in Hc0.
  rewrite <-Hc0. intros (y & [= <-] & (ys & Hys & [= <-])%res_bind_Ok)%res_bind_Ok.
  rewrite (imap_ext _ (λ i s, ((S k + i)%nat, s))) in Hys by (intros; simpl; f_equal; lia).
  assert ((ss, cs) = (map fst ys, map snd ys)) as [= -> ->]; [|done].
  apply (IH (S k)); [by injection Hl| |done].
  intros i. pose proof (Hc (S i)) as Hi. simpl in Hi. rewrite Hi. f_equal. lia.
Qed.
End connect_properties.

Section visit_properties.
Context {K C : Type} `{MetaKV K} `{JsonSession} `{Network C}.
Implicit Types (cli : K).

(** The tag and the state of each type of sessions. *)
Definition visit_next (sessionType : string) (session : Session) : option (string * Conn) :=
  snd <$> List.find (λ e, bool_decide (sessionType = e.1))
    [("datacoord", ("dc", GetDataCoordState session)); ("datanode", ("dn", GetDataNodeState session));
     ("indexcoord", ("ic", GetIndexCoordState session)); ("querycoord", ("qc", GetQueryCoordState session));
     ("querynode", ("qn", GetQueryNodeState session)); ("rootcoord", ("rc", GetRootCoordState session))].

Lemma setNextState_next sessionType state session :
  setNextState sessionType state session
  = match visit_next sessionType session with
    | Some (tag, next) => conn_SetNext state tag (Some next)
    | None => state
    end.
Proof.
  unfold setNextState, visit_next. cbn [List.find fst].
  repeat (case_bool_decide; [by subst|]). by repeat case_bool_decide.
Qed.

Lemma find_first {A} (f : A → bool) (l : list A) a :
  List.find f l = Some a ↔ ∃ l1 l2, l = l1 ++ a :: l2 ∧ f a = true ∧ Forall (λ b, f b = false) l1.
Proof.
  induction l as [|x l IH]; cbn [List.find].
  { split; [done|]. by intros ([] & l2 & ? & _). }
  destruct (f x) eqn:Hx.
  - split; [intros [= ->]; by exists [], l|]. intros ([|y l1] & l2 & [= -> ->] & Ha & Hl1); [done|].
    apply list.Forall_cons in Hl1 as [? _]. congruence.
  - rewrite IH. split.
    + intros (l1 & l2 & -> & Ha & Hl1). exists (x :: l1), l2. split_and!; [done..|by constructor].
    + intros ([|y l1] & l2 & [= -> ->] & Ha & Hl1); [congruence|]. apply list.Forall_cons in Hl1 as [_ Hl1]. eauto.
Qed.

(** [visit type id] enters the state of the first session of the type, a mixcoord for every
    coordinator, that has the identifier, if it answers; an index node is never entered. *)
Theorem visit_enters cli base sessionType id l1 session l2 (conn : C) state :
  in_s 64 id → ListSessions cli base = Ok (l1 ++ session :: l2) →
  ServerID session = id → SessionMatch session sessionType = true →
  Forall (λ s, ServerID s = id → SessionMatch s sessionType = false) l1 →
  grpc_Dial None (Address session) = Ok conn →
  visit_run (C:=C) cli base sessionType [FormatInt id] "" "" state
  = match visit_next sessionType session with
    | Some (tag, next) => conn_SetNext state tag (Some next)
    | None => state
    end.
Proof.
  intros Hid Hl Hs Hm Hl1 Hd. unfold visit_run. rewrite ParseInt_FormatInt by done. cbn [bool_decide andb].
  rewrite bool_decide_false by (by intros []). cbn [andb]. unfold getSessionConnect. rewrite Hl. cbn [mbind res_bind].
  rewrite (proj2 (find_first _ _ session)).
  - rewrite Hd. apply setNextState_next.
  - exists l1, l2. split_and!; [done|by rewrite bool_decide_true, Hm by done|].
    eapply list.Forall_impl; [done|]. intros s Hn. apply andb_false_iff.
    destruct (decide (id = ServerID s)) as [->|]; [right; by apply Hn|left; by apply bool_decide_eq_false].
Qed.

(** Otherwise the state is kept. *)
Lemma visit_stays cli base sessionType id sessions state :
  in_s 64 id → ListSessions cli base = Ok sessions →
  Forall (λ s, ServerID s = id → SessionMatch s sessionType = false) sessions →
  visit_run (C:=C) cli base sessionType [FormatInt id] "" "" state = state.
Proof.
  intros Hid Hl Hn. unfold visit_run. rewrite ParseInt_FormatInt by done.
  rewrite bool_decide_false by (by intros []). cbn [andb]. unfold getSessionConnect. rewrite Hl. cbn [mbind res_bind].
  destruct (List.find _ sessions) as [s|] eqn:Hf; [|done].
  apply find_first in Hf as (l1 & l2 & -> & [->%bool_decide_eq_true Hm]%andb_true_iff & _).
  apply list.Forall_app in Hn as [_ [Hn _]%list.Forall_cons]. rewrite Hn in Hm by done. done.
Qed.
End visit_properties.

(** ** Configurations *)
Section configuration_properties.
Context {K C : Type} `{MetaKV K} `{JsonSession} `{Network C}.
Implicit Types (cli : K).

Lemma foldl_add_result (rs : list (option (string * gmap string string))) m k :
  foldl add_result m rs !! k
  = match list.last (filter (λ r : string * gmap string string, r.1 = k) (omap id rs)) with
    | Some r => Some r.2
    | None => m !! k
    end.
Proof.
  revert m. induction rs as [|r rs IH] using rev_ind; intros m; [done|].
  rewrite foldl_app, omap_app, list.filter_app. cbn [foldl omap list_omap].
  destruct r as [[comp configs]|]; simpl.
  - rewrite filter_cons. destruct (decide (comp = k)) as [->|Hne]; simpl.
    + rewrite lookup_insert_eq. by rewrite decide_True, filter_nil, list.last_snoc by done.
    + rewrite lookup_insert_ne, IH by done. by rewrite decide_False, filter_nil, app_nil_r by done.
  - by rewrite app_nil_r.
Qed.

(** [show configurations] collects, under the name and identifier of each server that
    answers, its pairs whose keys contain the filter in lower case. *)
Theorem GetConfiguration_spec cli base DialTimeout Filter sessions :
  ListSessions cli base = Ok sessions →
  ∃ results, GetConfigurationCommand (C:=C) cli base DialTimeout Filter = Ok results
    ∧ (∀ comp, results !! comp
        = snd <$> list.last (filter (λ r : string * gmap string string, r.1 = comp)
                          (omap (node_configuration (C:=C) DialTimeout (strings_ToLower Filter)) sessions)))
    ∧ ∀ comp configs key value, results !! comp = Some configs → configs !! key = Some value →
        strings_ToLower Filter = "" ∨ Contains key (strings_ToLower Filter) = true.
Proof.
  intros Hl. unfold GetConfigurationCommand. rewrite Hl. cbn [mbind res_bind].
  set (nc := node_configuration DialTimeout (strings_ToLower Filter)).
  assert (∀ comp, foldl (λ results session, add_result results (nc session)) ∅ sessions !! comp
    = snd <$> list.last (filter (λ r : string * gmap string string, r.1 = comp) (omap nc sessions))) as Hr.
  { intros comp. pose proof (foldl_add_result (map nc sessions) ∅ comp) as Hf.
    rewrite foldl_map in Hf || rewrite foldl_fmap in Hf.
    assert (omap id (map nc sessions) = omap nc sessions) as Ho.
    { clear. induction sessions as [|s l IH]; [done|]. cbn [map omap list_omap]. cbn [omap] in IH. unfold id at 1.
      destruct (nc s); [f_equal|]; exact IH. }
    rewrite Ho in Hf. rewrite Hf. by destruct (list.last _). }
  eexists. split; [done|]. split; [exact Hr|]. intros comp configs key value Hc Hk. rewrite Hr in Hc.
  apply fmap_Some in Hc as ([comp' configs'] & Hlast & ->).
  apply list.last_Some_elem_of, list_elem_of_filter in Hlast as [_ (s & _ & Hs)%list_elem_of_omap].
  unfold nc, node_configuration in Hs. repeat case_match; simplify_eq/=.
  assert (∀ kv, kv ∈ filter (λ kv, bool_decide (strings_ToLower Filter = "") || Contains kv.1 (strings_ToLower Filter) = true) a0 →
    strings_ToLower Filter = "" ∨ Contains kv.1 (strings_ToLower Filter) = true) as Hf.
  { intros kv [Hkv _]%list_elem_of_filter. apply orb_true_iff in Hkv as [?%bool_decide_eq_true|?]; tauto. }
  revert Hk Hf. generalize (filter (λ kv, bool_decide (strings_ToLower Filter = "")
    || Contains kv.1 (strings_ToLower Filter) = true) a0) as l.
  intros l. induction l as [|kv l IH] using rev_ind; [done|]. intros Hk Hf. unfold KVListMap in Hk.
  rewrite foldl_app in Hk. cbn [foldl] in Hk. apply lookup_insert_Some in Hk as [[<- _]|[_ Hk]].
  - apply Hf. apply elem_of_app. right. by left.
  - apply IH; [done|]. intros kv' Hkv'. apply Hf. apply elem_of_app. by left.
Qed.
End configuration_properties.

(** ** Listeners *)
Lemma size_list_to_map {V} (l : list (string * V)) :
  (size (list_to_map l : gmap string V) ≤ length l)%nat
  ∧ (size (list_to_map l : gmap string V) = length l → NoDup (map fst l)).
Proof.
  induction l as [|[k v] l [Hle Heq]]; [split; [done|by constructor]|]. cbn [list_to_map foldr uncurry length map fst].
  rewrite map_size_insert. destruct (list_to_map l !! k) eqn:Hk; simpl; split; try lia.
  intros Hs. constructor; [|apply Heq; lia].
  intros Hin. apply not_elem_of_list_to_map in Hk. by apply Hk.
Qed.

Lemma lo_UniqBy_NoDup {A B} `{Countable B} (key : A → B) seen l :
  NoDup (map key (lo_UniqBy key seen l)) ∧ Forall (λ a, key a ∉ seen) (lo_UniqBy key seen l).
Proof.
  revert seen. induction l as [|a l IH]; intros seen; simpl; [split; constructor|].
  case_bool_decide as Hs; [apply IH|]. destruct (IH ({[key a]} ∪ seen)) as [Hn Hf]. split.
  - constructor; [|done]. intros (b & Hb & Hin)%list_elem_of_fmap.
    rewrite list.Forall_forall in Hf. specialize (Hf b Hin). set_solver.
  - constructor; [done|]. eapply list.Forall_impl; [done|]. set_solver.
Qed.

Lemma omap_all {A B} (f : A → option B) (l : list A) :
  length (omap f l) = length l → map f l = map Some (omap f l).
Proof.
  induction l as [|a l IH]; [done|]. pose proof (length_omap_le f l). cbn [omap list_omap length map].
  destruct (f a) as [b|]; simpl in *; intros Hl; [|lia]. by rewrite <-IH by lia.
Qed.

Section listener_properties.
Context {K C : Type} `{MetaKV K} `{JsonSession} `{Network C} `{StringMapOrder}.
Implicit Types (cli : K) (l : list Session).

Lemma store_listeners l :
  foldl store_listener ∅ l = list_to_map (omap (node_listener (C:=C)) (rev l)).
Proof.
  induction l as [|s l IH] using rev_ind; [done|]. rewrite foldl_app, rev_app_distr, IH.
  cbn [foldl rev app omap list_omap]. unfold store_listener. by destruct (node_listener s) as [[]|].
Qed.

(** Whatever the order in which the connections are made, [listen-events] starts when each
    of the sessions with different identifiers has a listener, and these have different
    addresses; then it listens to each of them. *)
Theorem prepareListenerClients_spec ended cli base sessions :
  (∀ l, ended l ≡ₚ l) → ListSessions cli base = Ok sessions →
  let servers := lo_UniqBy ServerID ∅ sessions in
  match prepareListenerClients (C:=C) ended cli base with
  | Ok listeners => ∃ found, map node_listener servers = map Some found ∧ NoDup (map fst found)
                      ∧ listeners ≡ₚ map snd found
  | _ => ¬ ∃ found, map (node_listener (C:=C)) servers = map Some found ∧ NoDup (map fst found)
  end.
Proof.
  intros He Hl servers. unfold prepareListenerClients. rewrite Hl. cbn [mbind res_bind]. fold servers.
  rewrite store_listeners. set (kvs := omap node_listener (rev (ended servers))).
  assert (kvs ≡ₚ omap (node_listener (C:=C)) servers) as Hp.
  { unfold kvs. rewrite <-(He servers) at 2. by rewrite <-(Permutation_rev (ended servers)). }
  destruct (size_list_to_map kvs) as [Hle Hnd]. case_bool_decide as Hs.
  - intros (found & Hf & Hn). apply Hs. assert (omap (node_listener (C:=C)) servers = found) as Ho.
    { clear -Hf. revert found Hf. induction servers as [|s l IH]; intros [|f fs]; try done. cbn [map omap list_omap].
      intros [= -> Hf]. by rewrite (IH fs Hf). }
    rewrite map_size_list_to_map.
    + unfold zlen. f_equal. rewrite Hp, Ho. by rewrite <-(length_map Some), <-Hf, length_map.
    + change (NoDup (map fst kvs)). by rewrite Hp, Ho.
  - unfold zlen in Hs.
    pose proof (length_omap_le (node_listener (C:=C)) servers).
    assert (length kvs = length (omap (node_listener (C:=C)) servers)) as Hk by (by rewrite Hp).
    assert (NoDup (map fst kvs)) as Hn by (apply Hnd; lia).
    exists (omap node_listener servers). split_and!.
    + apply omap_all. lia.
    + by rewrite <-Hp.
    + rewrite string_range_perm, map_to_list_to_map by done. by rewrite Hp.
Qed.

(** A proxy, a mixcoord or any other server without a client among the sessions keeps
    [listen-events] from starting. *)
Lemma listen_events_fails {E} ended stream cli base sessions session :
  (∀ l, ended l ≡ₚ l) → ListSessions cli base = Ok sessions →
  session ∈ lo_UniqBy ServerID ∅ sessions → getConfigurationSource session = None →
  ∀ events, ListenEventsCommand (C:=C) (E:=E) ended stream cli base ≠ Ok events.
Proof.
  intros He Hl Hin Hc events. unfold ListenEventsCommand.
  pose proof (prepareListenerClients_spec ended cli base sessions He Hl) as Hp. cbn zeta in Hp.
  destruct (prepareListenerClients _ _ _); [|done..]. destruct Hp as (found & Hf & _). exfalso.
  assert (node_listener (C:=C) session ∈ map node_listener (lo_UniqBy ServerID ∅ sessions)) as Hm
    by (apply list_elem_of_fmap; eauto).
  rewrite Hf in Hm. apply list_elem_of_fmap in Hm as (x & Hx & _). unfold node_listener in Hx. rewrite Hc in Hx.
  by destruct (grpc_Dial _ _).
Qed.

(** A listener cannot be stopped. *)
Lemma Listener_Stop_panics addr (l : Listener C) : NewListener addr = Ok l → ∃ w, Listener_Stop l = Panic w.
Proof. unfold NewListener. intros (conn & _ & [= <-])%res_bind_Ok. by eexists. Qed.
End listener_properties.

(** ** Log levels *)
Section log_level_properties.
Context {K C : Type} `{MetaKV K} `{JsonSession} `{Network C}.
Implicit Types (cli : K) (l : list Session).

Lemma each_session_spec f l :
  (∀ session, session ∈ l → ∃ line, f session = Ok line) → each_session f l = (omap (λ s, match f s with Ok x => Some x | _ => None end) l, Ok tt).
Proof.
  induction l as [|s l IH]; intros Hf; [done|]. cbn [each_session omap list_omap].
  destruct (Hf s) as [line ->]; [by left|]. rewrite IH; [done|]. intros s' Hs'. apply Hf. by right.
Qed.
Lemma each_session_panic f l1 s l2 w :
  (∀ session, session ∈ l1 → ∃ line, f session = Ok line) → f s = Panic w → (each_session f (l1 ++ s :: l2)).2 = Panic w.
Proof.
  induction l1 as [|s' l1 IH]; intros Hl Hs; cbn [app each_session]; [by rewrite Hs|].
  destruct (Hl s') as [line ->]; [by left|]. destruct (each_session f (l1 ++ s :: l2)) eqn:He. simpl.
  rewrite <-IH; [done|intros; apply Hl; by right|done].
Qed.

(** When each server answers, [update-log-level] sets the level of every session, of those
    of a component, or of the one of the component with the identifier. *)
Theorem update_log_level_spec cli base sessions level role id :
  ListSessions cli base = Ok sessions → in_s 64 id → id ≠ -1 → strings_ToLower role ≠ "" →
  (∀ session, session ∈ sessions → ∃ line, changeLogLevel (C:=C) session (strings_ToLower level) = Ok line) →
  let set l := omap (λ s, match changeLogLevel (C:=C) s (strings_ToLower level) with Ok x => Some x | _ => None end) l in
  getUpdateLogLevelCmd (C:=C) cli base [level] = (set sessions, Ok tt)
  ∧ getUpdateLogLevelCmd (C:=C) cli base [level; role]
    = (set (filter (λ s, ServerName s = strings_ToLower role) sessions), Ok tt)
  ∧ getUpdateLogLevelCmd (C:=C) cli base [level; role; FormatInt id]
    = (set (filter (λ s, ServerName s = strings_ToLower role ∧ ServerID s = id) sessions), Ok tt).
Proof.
  intros Hl Hid Hne Hr Hc set. unfold getUpdateLogLevelCmd. rewrite Hl. cbn [strings_ToLower].
  assert (∀ P : Session → Prop, ∀ HP : (∀ s, Decision (P s)), ∀ b : Session → bool, (∀ s, b s = true ↔ P s) →
    each_session (λ session, changeLogLevel (C:=C) session (strings_ToLower level)) (filter (λ s, b s = true) sessions)
    = (set (filter P sessions), Ok tt)) as Hset.
  { intros P HP b Hb. rewrite (list_filter_iff _ P) by apply Hb. apply each_session_spec.
    intros s [_ Hs]%list_elem_of_filter. by apply Hc. }
  split_and!.
  - rewrite (Hset (λ _, True) (λ _, decide True)) by done. by rewrite filter_all by (by apply list.Forall_forall).
  - apply Hset. intros s. unfold log_selected. rewrite !orb_true_iff, !andb_true_iff, !bool_decide_eq_true. naive_solver.
  - rewrite ParseInt_FormatInt by done. apply Hset. intros s. unfold log_selected.
    rewrite !orb_true_iff, !andb_true_iff, !bool_decide_eq_true. naive_solver.
Qed.

(** A server with an IPv6 address makes the command panic. *)
Lemma update_log_level_ipv6 cli base l1 session l2 level rest :
  ListSessions cli base = Ok (l1 ++ session :: l2) → Address session = String "[" rest → Contains (List.hd "" (Split ":" rest)) "]" = false →
  (∀ s, s ∈ l1 → ∃ line, changeLogLevel (C:=C) s (strings_ToLower level) = Ok line) →
  (getUpdateLogLevelCmd (C:=C) cli base [level]).2 = Panic "invalid memory address or nil pointer dereference".
Proof.
  intros Hl Ha Hb Hc. unfold getUpdateLogLevelCmd. rewrite Hl. cbn [strings_ToLower].
  rewrite filter_all by (by apply list.Forall_forall). apply each_session_panic; [done|].
  unfold changeLogLevel, url_parses, log_host. rewrite Ha. simpl. pose proof (Split_nonempty ":" rest) as Hne.
  destruct (Split ":" rest) as [|x xs]; [done|]. cbn in Hb |- *. rewrite Hb. by destruct x.
Qed.
End log_level_properties.

(** ** Witnesses: a cluster of three servers, whose connections are their addresses *)
Definition s_root : Session := MkSession 1 "rootcoord" "10.0.0.1:53100" false "" "" 0 "by-dev/session/rootcoord".
Definition s_node : Session := MkSession 2 "querynode" "10.0.0.2:21123" false "" "" 0 "by-dev/session/querynode-2".
Definition s_mix : Session := MkSession 3 "mixcoord" "[::1]:53100" false "" "" 0 "by-dev/session/mixcoord".
#[local] Instance three_sessions : JsonSession := {|
  session_Marshal s := Ok (bytes_of_string (ServerName s));
  session_Unmarshal bs :=
    if bool_decide (bs = bytes_of_string "root") then Ok s_root
    else if bool_decide (bs = bytes_of_string "node") then Ok s_node
    else if bool_decide (bs = bytes_of_string "mix") then Ok s_mix
    else Err (Errorf "invalid character");
|}.
#[local] Instance sample_network : Network string := {|
  grpc_Dial _ addr := if bool_decide (addr = "") then Err (Errorf "missing address") else Ok addr;
  ShowConfigurations client conn id :=
    Ok [("commonmetricsport", if bool_decide (client = RootCoordClient) then "9091" else "9092"); ("minio.bucketname", "a-bucket")];
  ResolveTCPAddr addr := Ok (match Split ":" addr with ip :: _ => Some ip | [] => None end);
  http_Get url := Ok (if Contains url "9091" then "root" else "node");
  http_Put url body := Ok "ok";
  portResp_Unmarshal body := (200, if bool_decide (body = "root") then 7001 else 7002);
|}.
Definition node_store (extra : list (string * string)) : etcdKV (gmap string string) :=
  etcd_store ([("by-dev/session/rootcoord", "root"); ("by-dev/session/querynode-2", "node")] ++ extra).

Lemma GetSessionConnection_spec_witness :
  GetSessionConnection (node_store [("by-dev/session/mixcoord", "mix")]) "by-dev" "rootcoord" 0
  = Ok ([s_mix; s_root], ["[::1]:53100"; "10.0.0.1:53100"])
  ∧ [s_mix; s_root] = filter (meant "rootcoord" 0) [s_mix; s_node; s_root].
Proof.
  split; [vm_compute; reflexivity|].
  pose proof (GetSessionConnection_spec (node_store [("by-dev/session/mixcoord", "mix")]) "by-dev" "rootcoord" 0
    [s_mix; s_node; s_root] (C:=string)) as Hs.
  assert (ListSessions (node_store [("by-dev/session/mixcoord", "mix")]) "by-dev" = Ok [s_mix; s_node; s_root])
    as Hl by (vm_compute; reflexivity).
  specialize (Hs Hl). assert (GetSessionConnection (C:=string) (node_store [("by-dev/session/mixcoord", "mix")]) "by-dev" "rootcoord" 0
    = Ok ([s_mix; s_root], ["[::1]:53100"; "10.0.0.1:53100"])) as He by (vm_compute; reflexivity).
  rewrite He in Hs. exact (proj1 Hs).
Defined.

Lemma visit_enters_witness :
  visit_run (C:=string) (node_store [("by-dev/session/mixcoord", "mix")]) "by-dev" "querycoord" [FormatInt 3] "" ""
    (spawn (NodeState "here"))
  = MkConn (NodeState "here") "qc" (Some (spawn (NodeState "QueryCoord-3([::1]:53100)"))).
Proof.
  rewrite (visit_enters (C:=string) _ _ _ 3 [] s_mix [s_node; s_root] "[::1]:53100").
  - vm_compute. reflexivity.
  - in_range.
  - vm_compute. reflexivity.
  - reflexivity.
  - vm_compute. reflexivity.
  - constructor.
  - vm_compute. reflexivity.
Defined.

Lemma GetConfiguration_spec_witness :
  ∃ results, GetConfigurationCommand (C:=string) (node_store []) "by-dev" 2 "MINIO" = Ok results
    ∧ results !! "querynode-2" = Some {["minio.bucketname" := "a-bucket"]}.
Proof.
  destruct (GetConfiguration_spec (C:=string) (node_store []) "by-dev" 2 "MINIO" [s_node; s_root]) as (results & Hr & Hc & _).
  - vm_compute. reflexivity.
  - exists results. split; [exact Hr|]. rewrite Hc. vm_compute. reflexivity.
Defined.

Lemma prepareListenerClients_spec_witness :
  ∃ listeners, prepareListenerClients (C:=string) (@rev Session) (node_store []) "by-dev" = Ok listeners
    ∧ listeners ≡ₚ [MkListener "10.0.0.2:7002" None; MkListener "10.0.0.1:7001" None].
Proof.
  pose proof (prepareListenerClients_spec (C:=string) (@rev Session) (node_store []) "by-dev" [s_node; s_root]) as Hp.
  assert (ListSessions (node_store []) "by-dev" = Ok [s_node; s_root]) as Hl by (vm_compute; reflexivity).
  specialize (Hp (λ l, symmetry (Permutation_rev l)) Hl). cbn zeta in Hp.
  destruct (prepareListenerClients (@rev Session) (node_store []) "by-dev") as [ls|e|w] eqn:He.
  - destruct Hp as (found & Hf & _ & Hls). exists ls. split; [reflexivity|]. rewrite Hls.
    assert (map Some [("10.0.0.2:7002", MkListener "10.0.0.2:7002" None); ("10.0.0.1:7001", MkListener "10.0.0.1:7001" None)]
      = map Some found) as Hs by (rewrite <-Hf; vm_compute; reflexivity).
    destruct found as [|a [|b [|]]]; try discriminate Hs. injection Hs as <- <-. reflexivity.
  - exfalso. vm_compute in He. discriminate He.
  - exfalso. vm_compute in He. discriminate He.
Defined.

Lemma update_log_level_spec_witness :
  getUpdateLogLevelCmd (C:=string) (node_store []) "by-dev" ["DEBUG"; "QueryNode"; "2"]
  = (["querynode-2:" +:+ String "009" "ok"], Ok tt).
Proof.
  destruct (update_log_level_spec (C:=string) (node_store []) "by-dev" [s_node; s_root] "DEBUG" "QueryNode" 2) as (_ & _ & Hu).
  - vm_compute. reflexivity.
  - in_range.
  - discriminate.
  - vm_compute. discriminate.
  - intros session Hs. apply list_elem_of_In in Hs as [<-|[<-|[]]]; eexists; vm_compute; reflexivity.
  - change (FormatInt 2) with "2" in Hu. rewrite Hu. vm_compute. reflexivity.
Defined.
