(* ===== verification/ObjectStore.v ===== *)
(** * The object store: clients, configuration and the storage shell

    Models [oss/]: the options of a client per cloud provider, the credential providers and
    the transport for Google; [states/minio.go] and [states/ossutil/minio_cfg.go], which take
    the settings of a client from the configuration of a running component; and
    [states/storage/], the state with [ls], [cd] and [pwd].  The MinIO client and the cloud
    libraries are an interface. *)

From S2P Require Export Nodes Completion.

(** ** [oss/minio.go] *)
Definition CloudProviderGCP := "gcp".
Definition CloudProviderAWS := "aws".
Definition CloudProviderAliyun := "aliyun".
Definition CloudProviderAzure := "azure".
Definition CloudProviderTencent := "tencent".
Definition GcsDefaultAddress := "storage.googleapis.com".

Record MinioClientParam := MkMinioParam {
  mp_Addr : string;
  mp_Port : string;
  mp_AK : string;
  mp_SK : string;
  mp_UseIAM : bool;
  mp_IAMEndpoint : string;
  mp_UseSSL : bool;
  mp_CloudProvider : string;
  mp_Region : string;
  mp_BucketName : string;
  mp_RootPath : string;
  mp_skipCheckBucket : bool;
}.
Definition WithSkipCheckBucket (v : bool) (p : MinioClientParam) : MinioClientParam :=
  MkMinioParam (mp_Addr p) (mp_Port p) (mp_AK p) (mp_SK p) (mp_UseIAM p) (mp_IAMEndpoint p) (mp_UseSSL p)
    (mp_CloudProvider p) (mp_Region p) (mp_BucketName p) (mp_RootPath p) v.
Definition WithMinioAddr (addr : string) (p : MinioClientParam) : MinioClientParam :=
  MkMinioParam addr (mp_Port p) (mp_AK p) (mp_SK p) (mp_UseIAM p) (mp_IAMEndpoint p) (mp_UseSSL p)
    (mp_CloudProvider p) (mp_Region p) (mp_BucketName p) (mp_RootPath p) (mp_skipCheckBucket p).

(** The credentials of a client; a provider starts with an empty cache. *)
Inductive minio_creds :=
  | StaticV2 (ak sk token : string)
  | StaticV4 (ak sk token : string)
  | IAM (endpoint : string)
  | AliyunProvider
  | TencentProvider (tke : bool).
Inductive BucketLookupType := BucketLookupAuto | BucketLookupDNS.
Record minio_Options := MkOptions {
  opt_Creds : option minio_creds;
  opt_Secure : bool;
  opt_BucketLookup : BucketLookupType;
  opt_WrapTransport : bool;
}.

Record ObjectInfo := MkObjectInfo { oi_Key : string; oi_Size : Z }.

(** The libraries of MinIO, Aliyun, Google and Tencent. *)
Class Oss (S : Type) := {
  minio_New : string → minio_Options → res S;
  BucketExists : S → string → res bool;
  ListObjects : S → string → string → bool → list ObjectInfo;
  StatObject : S → string → string → res ObjectInfo;
  minio_DefaultTransport : bool → res unit;
  aliyun_NewCredential : res unit;
  tencent_TkeOIDCRoleArn : res unit;
  tencent_GetCredential : bool → res unit;
}.

Section client.
Context {S : Type} `{Oss S}.

Definition with_Creds (opts : minio_Options) (c : minio_creds) : minio_Options :=
  MkOptions (Some c) (opt_Secure opts) (opt_BucketLookup opts) (opt_WrapTransport opts).
Definition with_DNS (opts : minio_Options) : minio_Options :=
  MkOptions (opt_Creds opts) (opt_Secure opts) BucketLookupDNS (opt_WrapTransport opts).

Definition processMinioAwsOptions (p : MinioClientParam) (opts : minio_Options) : minio_Options :=
  if mp_UseIAM p then with_Creds opts (IAM (mp_IAMEndpoint p))
  else with_Creds opts (StaticV4 (mp_AK p) (mp_SK p) "").

(** The options as the function leaves them, and its error. *)
Definition NewWrapHTTPTransport (secure : bool) : res unit := minio_DefaultTransport secure.
Definition processMinioGcpOptions (p : MinioClientParam) (opts : minio_Options) : minio_Options * res unit :=
  if mp_UseIAM p then
    match NewWrapHTTPTransport (opt_Secure opts) with
    | Ok _ => (MkOptions (Some (StaticV2 "" "" "")) (opt_Secure opts) (opt_BucketLookup opts) true, Ok tt)
    | r => (opts, r)
    end
  else (with_Creds opts (StaticV2 (mp_AK p) (mp_SK p) ""), Ok tt).

Definition NewAliyunCredentialProvider : res minio_creds :=
  _ ← aliyun_NewCredential; Ok AliyunProvider.
Definition processMinioAliyunOptions (p : MinioClientParam) (opts : minio_Options) : minio_Options * res unit :=
  if mp_UseIAM p then
    match NewAliyunCredentialProvider with
    | Ok credProvider => (with_DNS (with_Creds opts credProvider), Ok tt)
    | Err e => (opts, Err e)
    | Panic w => (opts, Panic w)
    end
  else (with_DNS (with_Creds opts (StaticV4 (mp_AK p) (mp_SK p) "")), Ok tt).

(** The provider of the container service, or that of the machine. *)
Definition NewTencentCredentialProvider : res minio_creds :=
  let tke := match tencent_TkeOIDCRoleArn with Ok _ => true | _ => false end in
  _ ← tencent_GetCredential tke; Ok (TencentProvider tke).
Definition processMinioTencentOptions (p : MinioClientParam) (opts : minio_Options) : minio_Options * res unit :=
  if mp_UseIAM p then
    match NewTencentCredentialProvider with
    | Ok credProvider => (with_DNS (with_Creds opts credProvider), Ok tt)
    | Err e => (opts, Err e)
    | Panic w => (opts, Panic w)
    end
  else (with_DNS (with_Creds opts (StaticV4 (mp_AK p) (mp_SK p) "")), Ok tt).

Definition minio_endpoint (p : MinioClientParam) : string :=
  if bool_decide (mp_Port p ≠ "") && negb (Contains (mp_Addr p) ":") then mp_Addr p +:+ ":" +:+ mp_Port p else mp_Addr p.

(** The switch over the provider: the errors of Google's and Aliyun's options are dropped. *)
Definition provider_options (p : MinioClientParam) (endpoint : string) (opts : minio_Options)
    : res (string * minio_Options) :=
  let provider := mp_CloudProvider p in
  if bool_decide (provider = CloudProviderAWS) then Ok (endpoint, processMinioAwsOptions p opts)
  else if bool_decide (provider = CloudProviderGCP) then
    Ok (if Contains endpoint GcsDefaultAddress then GcsDefaultAddress else endpoint,
        (processMinioGcpOptions p opts).1)
  else if bool_decide (provider = CloudProviderAliyun) then Ok (endpoint, (processMinioAliyunOptions p opts).1)
  else if bool_decide (provider = CloudProviderTencent) then
    let '(opts, err) := processMinioTencentOptions p opts in _ ← err; Ok (endpoint, opts)
  else Err (Errorf ("Cloud provider " +:+ provider +:+ " not supported yet")).

Record MinioClient := MkMinioClient { mc_Client : S; mc_BucketName : string; mc_RootPath : string }.

Definition NewMinioClient (p : MinioClientParam) : res MinioClient :=
  '(endpoint, opts) ← provider_options p (minio_endpoint p) (MkOptions None (mp_UseSSL p) BucketLookupAuto false);
  client ← minio_New endpoint opts;
  _ ← (if mp_skipCheckBucket p then Ok tt
       else ok ← BucketExists client (mp_BucketName p);
            if ok : bool then Ok tt else Err (Errorf ("Bucket " +:+ mp_BucketName p +:+ " not exists")));
  Ok (MkMinioClient client (mp_BucketName p) (mp_RootPath p)).
End client.

(** ** The credential providers of [oss/aliyun.go] and [oss/tencent.go]

    What the credential service answers at one moment; the state of a provider is its cache. *)
Record CredValue := MkCredValue { AccessKeyID : string; SecretAccessKey : string; SessionToken : string }.
Record AliyunCredential := MkAliyun {
  GetAccessKeyId : res (option string);
  GetAccessKeySecret : res (option string);
  GetSecurityToken : res (option string);
}.
Definition star {A} (p : option A) : res A :=
  match p with Some a => Ok a | None => Panic "invalid memory address or nil pointer dereference" end.

(** The cache afterwards, and the value. *)
Definition Aliyun_Retrieve (akCache : string) (now : AliyunCredential) : string * res CredValue :=
  match (ak ← GetAccessKeyId now; ak ← star ak;
         sk ← GetAccessKeySecret now;
         securityToken ← GetSecurityToken now;
         sk ← star sk; Ok (ak, sk, securityToken)) with
  | Ok (ak, sk, securityToken) =>
      (ak, securityToken ← star securityToken; Ok (MkCredValue ak sk securityToken))
  | Err e => (akCache, Err e)
  | Panic w => (akCache, Panic w)
  end.
Definition Aliyun_IsExpired (akCache : string) (now : AliyunCredential) : res bool :=
  match GetAccessKeyId now with
  | Ok ak => ak ← star ak; Ok (bool_decide (ak ≠ akCache))
  | Err _ => Ok true
  | Panic w => Panic w
  end.

Record TencentCredential := MkTencent { GetSecretId : string; GetSecretKey : string; GetToken : string }.
Definition Tencent_Retrieve (akCache : string) (now : TencentCredential) : string * CredValue :=
  (GetSecretId now, MkCredValue (GetSecretId now) (GetSecretKey now) (GetToken now)).
Definition Tencent_IsExpired (akCache : string) (now : TencentCredential) : bool :=
  bool_decide (GetSecretId now ≠ akCache).

(** ** [oss/gcp.go]: the transport adds a token to each request, and gets one when it has
    none that is valid. *)
Definition RoundTrip {Resp} (valid : string → bool) (newToken : res string) (send : string → res Resp)
    (currentToken : option string) : option string * res Resp :=
  match currentToken with
  | Some t =>
      if valid t then (currentToken, send ("Bearer " +:+ t))
      else match newToken with
           | Ok t' => (Some t', send ("Bearer " +:+ t'))
           | Err e => (currentToken, Err e)
           | Panic w => (currentToken, Panic w)
           end
  | None => match newToken with
            | Ok t' => (Some t', send ("Bearer " +:+ t'))
            | Err e => (None, Err e)
            | Panic w => (None, Panic w)
            end
  end.

(** ** The settings of a client ([states/minio.go], [states/ossutil/minio_cfg.go]) *)
Record MinioCfg := MkMinioCfg {
  cfg_cloudProvider : string;
  cfg_addr : string;
  cfg_port : string;
  cfg_region : string;
  cfg_bucketName : string;
  cfg_rootPath : string;
  cfg_sk : string;
  cfg_ak : string;
  cfg_useIAM : string;
  cfg_useSSL : string;
}.
Definition no_cfg : MinioCfg := MkMinioCfg "" "" "" "" "" "" "" "" "" "".

(** The switch over the key of a pair. *)
Definition set_cfg (c : MinioCfg) (kv : string * string) : MinioCfg :=
  let '(MkMinioCfg cp addr port region bucket root sk ak iam ssl) := c in
  let '(key, v) := kv in
  if bool_decide (key = "minio.cloudprovider") then MkMinioCfg v addr port region bucket root sk ak iam ssl
  else if bool_decide (key = "minio.address") then MkMinioCfg cp v port region bucket root sk ak iam ssl
  else if bool_decide (key = "minio.port") then MkMinioCfg cp addr v region bucket root sk ak iam ssl
  else if bool_decide (key = "minio.region") then MkMinioCfg cp addr port v bucket root sk ak iam ssl
  else if bool_decide (key = "minio.bucketname") then MkMinioCfg cp addr port region v root sk ak iam ssl
  else if bool_decide (key = "minio.rootpath") then MkMinioCfg cp addr port region bucket v sk ak iam ssl
  else if bool_decide (key = "minio.secretaccesskey") then MkMinioCfg cp addr port region bucket root v ak iam ssl
  else if bool_decide (key = "minio.accesskeyid") then MkMinioCfg cp addr port region bucket root sk v iam ssl
  else if bool_decide (key = "minio.useiam") then MkMinioCfg cp addr port region bucket root sk ak v ssl
  else if bool_decide (key = "minio.usessl") then MkMinioCfg cp addr port region bucket root sk ak iam v
  else c.

Definition cfg_param (c : MinioCfg) : MinioClientParam :=
  MkMinioParam (cfg_addr c) (cfg_port c) (cfg_ak c) (cfg_sk c) (bool_decide (cfg_useIAM c = "true")) ""
    (bool_decide (cfg_useSSL c = "true")) (cfg_cloudProvider c) (cfg_region c) (cfg_bucketName c) (cfg_rootPath c) false.

Section settings.
Context {K C S : Type} `{MetaKV K} `{JsonSession} `{Network C} `{Oss S}.

(** What both functions do with the settings: the client, the bucket and the root path. *)
Definition client_of_cfg (c : MinioCfg) (params : list (MinioClientParam → MinioClientParam))
    : res (S * string * string) :=
  mClient ← NewMinioClient (foldl (λ mp param, param mp) (cfg_param c) params);
  Ok (mc_Client mClient, cfg_bucketName c, cfg_rootPath c).

Definition is_root (session : Session) : bool :=
  bool_decide (ServerName session = "rootcoord") || bool_decide (ServerName session = "mixcoord").

(** [states/minio.go]: the configuration of the root coordinator. *)
Definition GetMinioClientFromCfg (cli : K) (basePath : string) (params : list (MinioClientParam → MinioClientParam))
    : res (S * string * string) :=
  sessions ← ListSessions cli basePath;
  match List.find is_root sessions with
  | None => Err (Errorf "rootcoord session not found")
  | Some session =>
      match grpc_Dial (C:=C) None (Address session) with
      | Err _ => Err (Errorf "find to connect to rootcoord")
      | Panic w => Panic w
      | Ok conn =>
          configurations ← GetConfiguration RootCoordClient conn (ServerID session);
          client_of_cfg (foldl set_cfg no_cfg configurations) params
      end
  end.

(** [ossutil/minio_cfg.go]: the loop over the sessions, which keeps what it found and ends
    when it has a bucket and an address. *)
Fixpoint find_cfg (c : MinioCfg) (sessions : list Session) : option MinioCfg :=
  match sessions with
  | [] => None
  | session :: sessions =>
      match grpc_Dial (C:=C) None (Address session), config_client (strings_ToLower (ServerName session)) with
      | Ok conn, Some source =>
          match GetConfiguration source conn (ServerID session) with
          | Ok items =>
              if bool_decide (zlen items = 0) then find_cfg c sessions
              else
                let c := foldl set_cfg c items in
                if bool_decide (cfg_bucketName c ≠ "") && bool_decide (cfg_addr c ≠ "") then Some c
                else find_cfg c sessions
          | _ => find_cfg c sessions
          end
      | _, _ => find_cfg c sessions
      end
  end.
Definition ossutil_GetMinioClientFromCfg (cli : K) (basePath : string) (params : list (MinioClientParam → MinioClientParam))
    : res (S * string * string) :=
  sessions ← ListSessions cli basePath;
  match find_cfg no_cfg sessions with
  | Some c => client_of_cfg c params
  | None => Err (Errorf "minio configuration not found from any component")
  end.

(** The answers of the prompts: a text for a label, one of the items of a choice. *)
Definition GetMinioClientFromPrompt (prompt : string → res string) (choose : string → list string → res string)
    : res (S * string * string) :=
  bucketName ← prompt "BucketName";
  rootPath ← prompt "Root Path";
  address ← prompt "Address";
  sslResult ← choose "Use SSL" ["yes"; "no"];
  cloudProviderResult ← choose "Select Cloud provider" ["aws"; "gcp"];
  result ← choose "Select authentication method:" ["IAM"; "AK/SK"];
  let mp iam endpoint ak sk :=
    MkMinioParam address "" ak sk iam endpoint (bool_decide (sslResult = "yes")) cloudProviderResult "" bucketName rootPath false in
  mp ← (if bool_decide (result = "IAM") then iamEndpoint ← prompt "IAM Endpoint"; Ok (mp true iamEndpoint "" "")
        else if bool_decide (result = "AK/SK") then ak ← prompt "AK"; sk ← prompt "SK"; Ok (mp false "" ak sk)
        else Ok (mp false "" "" ""));
  mClient ← NewMinioClient mp;
  Ok (mc_Client mClient, bucketName, rootPath).
End settings.

(** ** The storage state ([states/storage]) *)
Record MinioState (S : Type) := MkMinioState { ms_client : S; ms_bucket : string; ms_prefix : string }.
Arguments MkMinioState {S}.
Arguments ms_client {S}.
Arguments ms_bucket {S}.
Arguments ms_prefix {S}.

Section storage.
Context {S : Type} `{Oss S}.

Definition ConnectMinio (Bucket Addr : string) (UseIAM : bool) (IAMEndpoint AK SK : string) (UseSSL : bool) : res (MinioState S) :=
  let cred := if UseIAM then IAM IAMEndpoint else StaticV4 AK SK "" in
  minioClient ← minio_New Addr (MkOptions (Some cred) UseSSL BucketLookupAuto false);
  exists_ ← BucketExists minioClient Bucket;
  if exists_ : bool then Ok (MkMinioState minioClient Bucket "") else Err (Errorf ("bucket " +:+ Bucket +:+ " not exists")).

Definition getBase (s : MinioState S) : string :=
  let base := ms_prefix s in
  let base := if HasSuffix base "/" then base else base +:+ "/" in
  TrimPrefix base "/".

(** The argument of [ls] and [cd]. *)
Definition prefix_ParseArgs (args : list string) : res string :=
  match args with
  | [] => Ok ""
  | [a] => Ok a
  | _ => Err (Errorf "too many parameters")
  end.

(** The lines of [ls]: a folder, or a file with its size.  Its argument is not used. *)
Definition ls_entry (base : string) (info : ObjectInfo) : string * option Z :=
  let name := TrimPrefix (oi_Key info) base in
  if HasSuffix name "/" then (TrimSuffix name "/", None) else (name, Some (oi_Size info)).
Definition LsCommand (s : MinioState S) (prefix : string) : list (string * option Z) :=
  map (ls_entry (getBase s)) (ListObjects (ms_client s) (ms_bucket s) (getBase s) false).

Definition add_folder (base : string) (folders : gset string) (info : ObjectInfo) : gset string :=
  let name := TrimPrefix (oi_Key info) base in
  if HasSuffix name "/" then {[TrimSuffix name "/"]} ∪ folders else folders.

(** The directory that [cd] lists. *)
Definition cd_base (s : MinioState S) (prefix : string) : string :=
  let base := if HasPrefix prefix "/" then path_Dir (TrimPrefix prefix "/")
              else path_Join [getBase s; path_Dir prefix] in
  let base := if bool_decide (base = ".") then "" else base in
  if HasSuffix base "/" then base else base +:+ "/".
Definition CdCommand (s : MinioState S) (prefix : string) : res (MinioState S) :=
  let base := cd_base s prefix in
  let name := TrimSuffix (path_Base prefix) "/" in
  let folders := foldl (add_folder base) ∅ (ListObjects (ms_client s) (ms_bucket s) base false) in
  if bool_decide (name ∈ folders) then Ok (MkMinioState (ms_client s) (ms_bucket s) (path_Join [base; name]))
  else Err (Errorf ("folder " +:+ name +:+ " not exists")).

Definition PwdCommand (s : MinioState S) : string := getBase s.

Definition storage_Stat (s : MinioState S) (path : string) : res Z :=
  info ← StatObject (ms_client s) (ms_bucket s) path; Ok (oi_Size info).

(** A session of the shell: a [cd] that fails leaves the state as it is. *)
Definition cd_step (s : MinioState S) (arg : string) : MinioState S :=
  match CdCommand s arg with Ok s' => s' | _ => s end.
End storage.

(** ** Properties

    Below a prefix, the store lists its objects without a slash after the prefix, and once
    the folders of the others. *)
Class OssLaws (S : Type) `{Oss S} := {
  objects : S → string → gset string;
  listed : ∀ c bucket prefix k,
    k ∈ map oi_Key (ListObjects c bucket prefix false)
    ↔ (∃ r, k = prefix +:+ r ∧ Split "/" r = [r] ∧ k ∈ objects c bucket)
      ∨ (∃ d, k = prefix +:+ d +:+ "/" ∧ Split "/" d = [d] ∧ ∃ o, o ∈ objects c bucket ∧ HasPrefix o k = true);
}.

(** The key of a file or of a folder's own object. *)
Definition object_key (k : string) : Prop := is_path k ∨ ∃ q, is_path q ∧ k = q +:+ "/".

Lemma object_key_dir o q : object_key o → HasPrefix o (q +:+ "/") = true → is_path q.
Proof.
  intros Ho (rest & Hs & Hr)%HasPrefix_dir_Split. destruct Ho as [Ho|(q' & Hq & ->)].
  - apply is_path_parts in Ho. rewrite Hs in Ho. by apply list.Forall_app in Ho as [? _].
  - rewrite Split_end in Hs. destruct (exists_last Hr) as (rest' & x & ->).
    rewrite app_assoc in Hs. apply app_inj_tail in Hs as [Hs _]. apply is_path_parts in Hq.
    rewrite Hs in Hq. by apply list.Forall_app in Hq as [? _].
Qed.

Lemma path_Join_dot q : is_path q → path_Join [q +:+ "/"; "."] = q.
Proof.
  intros Hq. pose proof (is_path_nonempty q Hq) as Hne. unfold path_Join. cbn [forallb].
  assert (q +:+ "/" ≠ "") as Hn by (by destruct q).
  assert (path_join_raw "" [q +:+ "/"; "."] = (q +:+ "/") +:+ "/" +:+ ".") as ->
    by (change (path_join_raw (q +:+ "/") ["."] = (q +:+ "/") +:+ "/" +:+ "."); cbn [path_join_raw]; by rewrite decide_False).
  rewrite bool_decide_false by done. cbn [andb].
  assert (path_Clean ((q +:+ "/") +:+ "/" +:+ ".") = path_Clean (q +:+ "/")) as ->; [|by apply path_Clean_slash].
  unfold path_Clean.
  assert (HasPrefix ((q +:+ "/") +:+ "/" +:+ ".") "/" = HasPrefix (q +:+ "/") "/") as -> by (destruct q as [|c q]; [done|];
    rewrite !string_app_cons, !HasPrefix_cons; unfold HasPrefix; by destruct (q +:+ "/" +:+ "/" +:+ "."), (q +:+ "/"), q).
  rewrite Split_slash, Split_end, foldl_app. done.
Qed.

Section storage_properties.
Context {S : Type} `{OssLaws S}.
Implicit Types (s : MinioState S).

Lemma elem_of_folders base l fs name :
  name ∈ foldl (add_folder base) fs l
  ↔ name ∈ fs ∨ ∃ info, info ∈ l ∧ HasSuffix (TrimPrefix (oi_Key info) base) "/" = true
                  ∧ name = TrimSuffix (TrimPrefix (oi_Key info) base) "/".
Proof.
  revert fs. induction l as [|info l IH]; intros fs; cbn [foldl]; [set_solver|]. rewrite IH.
  unfold add_folder at 1. destruct (HasSuffix (TrimPrefix (oi_Key info) base) "/") eqn:Hs.
  - rewrite elem_of_union, elem_of_singleton. split.
    + intros [[->|?]|(i & ? & ?)]; [right; exists info; by split; [left|]|by left|right; exists i; by split; [right|]].
    + intros [?|(i & [->|?]%list.elem_of_cons & ? & ->)]; [tauto|tauto|right; eauto].
  - split; [intros [?|(i & ? & ?)]; [by left|right; exists i; by split; [right|]]|].
    intros [?|(i & [->|?]%list.elem_of_cons & ? & ->)]; [tauto|congruence|right; eauto].
Qed.

(** The folders of a listing. *)
Lemma folders_spec c bucket base name :
  name ∈ foldl (add_folder base) ∅ (ListObjects c bucket base false)
  ↔ Split "/" name = [name] ∧ ∃ o, o ∈ objects c bucket ∧ HasPrefix o (base +:+ name +:+ "/") = true.
Proof.
  rewrite elem_of_folders. split.
  - intros [?|(info & Hin & Hs & ->)]; [set_solver|].
    assert (oi_Key info ∈ map oi_Key (ListObjects c bucket base false)) as Hk by (apply list_elem_of_fmap; eauto).
    apply listed in Hk as [(r & Hr & Hsp & _)|(d & Hd & Hsp & o & Ho & Hp)].
    + rewrite Hr, TrimPrefix_app in Hs. apply HasSuffix_spec in Hs as [t ->]. rewrite Split_end in Hsp.
      pose proof (Split_nonempty "/" t). destruct (Split "/" t) as [|? []]; done.
    + rewrite Hd, TrimPrefix_app, TrimSuffix_app. rewrite Hd in Hp. eauto.
  - intros (Hsp & o & Ho & Hp). right.
    assert (base +:+ name +:+ "/" ∈ map oi_Key (ListObjects c bucket base false)) as Hk by (apply listed; right; eauto 6).
    apply list_elem_of_fmap in Hk as (info & Hk & Hin). exists info. split; [done|].
    rewrite <-Hk, TrimPrefix_app, TrimSuffix_app. split; [apply HasSuffix_app|done].
Qed.

(** A folder of the bucket. *)
Definition holds_object s (q : string) : Prop :=
  ∃ o, o ∈ objects (ms_client s) (ms_bucket s) ∧ HasPrefix o (q +:+ "/") = true.
Definition proper_bucket s : Prop := ∀ o, o ∈ objects (ms_client s) (ms_bucket s) → object_key o.

Lemma cd_base_end s arg : ∃ b, cd_base s arg = b +:+ "/".
Proof.
  unfold cd_base. set (base := if bool_decide _ then _ else _). destruct (HasSuffix base "/") eqn:Hs; [|by exists base].
  by apply HasSuffix_spec in Hs.
Qed.

Lemma Cd_Ok s arg s' :
  proper_bucket s → CdCommand s arg = Ok s' →
  ms_client s' = ms_client s ∧ ms_bucket s' = ms_bucket s ∧ is_path (ms_prefix s') ∧ holds_object s (ms_prefix s').
Proof.
  intros Hb. unfold CdCommand. case_bool_decide as Hf; [|done]. intros [= <-]. cbn [ms_client ms_bucket ms_prefix].
  apply folders_spec in Hf as (Hn & o & Ho & Hp). set (name := TrimSuffix (path_Base arg) "/") in *.
  destruct (cd_base_end s arg) as [b Heq]. rewrite Heq in Hp |- *.
  assert (is_path (b +:+ "/" +:+ name)) as Hq.
  { apply (object_key_dir o); [by apply Hb|]. by rewrite !string_app_assoc in Hp |- *. }
  apply is_path_app_inv in Hq as Hbn. destruct Hbn.
  rewrite path_Join_dir by done. split_and!; [done..|]. exists o. split; [done|]. by rewrite !string_app_assoc in Hp |- *.
Qed.

(** C27 (invariant): in a bucket whose object keys are clean paths, after any sequence of [cd]s the shell is
    in the root of the bucket or in a folder that holds an object, whose path is clean. *)
Theorem cd_reachable s args :
  proper_bucket s → ms_prefix s = "" →
  let s' := foldl cd_step s args in
  ms_client s' = ms_client s ∧ ms_bucket s' = ms_bucket s
  ∧ (ms_prefix s' = "" ∨ is_path (ms_prefix s') ∧ holds_object s (ms_prefix s')).
Proof.
  intros Hb Hs. cbn zeta. induction args as [|arg args IH] using rev_ind; [by split_and!; [..|left]|].
  rewrite foldl_app. cbn [foldl]. destruct IH as (Hc & Hk & Hi). set (s1 := foldl cd_step s args) in *.
  unfold cd_step. destruct (CdCommand s1 arg) as [s'| |] eqn:Hcd; [|by split_and!..].
  assert (proper_bucket s1) as Hb1 by (unfold proper_bucket; by rewrite Hc, Hk).
  destruct (Cd_Ok s1 arg s' Hb1 Hcd) as (-> & -> & Hp & o & Ho & Hpre). rewrite Hc, Hk in *.
  split_and!; [done..|]. right. split; [done|]. by exists o.
Qed.

Lemma getBase_path s q : ms_prefix s = q → is_path q → getBase s = q +:+ "/".
Proof.
  intros Hp Hq. unfold getBase. rewrite Hp, is_path_end by done. unfold TrimPrefix.
  assert (HasPrefix (q +:+ "/") "/" = false) as ->; [|done]. pose proof (is_path_start q Hq) as Hs.
  destruct q as [|c q]; [by apply is_path_nonempty in Hq|]. rewrite HasPrefix_cons in Hs.
  rewrite string_app_cons, HasPrefix_cons. apply andb_false_iff in Hs as [->|Hs]; [done|]. by destruct q.
Qed.

Lemma Cd_listed s arg b e :
  cd_base s arg = b +:+ "/" → path_Base arg = e → is_path b → is_path e → Split "/" e = [e] →
  (holds_object s (b +:+ "/" +:+ e) → CdCommand s arg = Ok (MkMinioState (ms_client s) (ms_bucket s) (b +:+ "/" +:+ e)))
  ∧ (¬ holds_object s (b +:+ "/" +:+ e) → ∃ err, CdCommand s arg = Err err).
Proof.
  intros Hb He Hpb Hpe Hsp. unfold CdCommand. rewrite Hb, He.
  assert (TrimSuffix e "/" = e) as -> by (unfold TrimSuffix; by rewrite is_path_end).
  assert (e ∈ foldl (add_folder (b +:+ "/")) ∅ (ListObjects (ms_client s) (ms_bucket s) (b +:+ "/") false)
    ↔ holds_object s (b +:+ "/" +:+ e)) as Hf.
  { rewrite folders_spec. unfold holds_object. rewrite !string_app_assoc. tauto. }
  split; intros Hh.
  - rewrite bool_decide_true by tauto. by rewrite path_Join_dir.
  - rewrite bool_decide_false by tauto. by eexists.
Qed.

(** In a folder, [cd] enters exactly the folders below it. *)
Theorem Cd_spec s q e :
  ms_prefix s = q → is_path q → is_path e → Split "/" e = [e] →
  (holds_object s (q +:+ "/" +:+ e) → CdCommand s e = Ok (MkMinioState (ms_client s) (ms_bucket s) (q +:+ "/" +:+ e)))
  ∧ (¬ holds_object s (q +:+ "/" +:+ e) → ∃ err, CdCommand s e = Err err).
Proof.
  intros Hs Hq He Hsp. apply Cd_listed; [|by apply (path_Base_path q)|done..].
  unfold cd_base. rewrite is_path_start, (getBase_path s q), path_Dir_elem, path_Join_dot by done.
  by rewrite bool_decide_false, is_path_end by (done || by apply is_path_not_dot).
Qed.

(** In the root of the bucket no folder can be entered by its name, since the listing is
    that of the prefix [/]; by a longer path it can. *)
Theorem Cd_root s e :
  proper_bucket s → ms_prefix s = "" → is_path e → Split "/" e = [e] →
  (∃ err, CdCommand s e = Err err)
  ∧ ∀ d, is_path d → holds_object s (d +:+ "/" +:+ e) →
      CdCommand s (d +:+ "/" +:+ e) = Ok (MkMinioState (ms_client s) (ms_bucket s) (d +:+ "/" +:+ e)).
Proof.
  intros Hb Hs He Hsp. assert (getBase s = "") as Hg by (unfold getBase; by rewrite Hs). split.
  - unfold CdCommand. rewrite (proj2 (path_Base_path "" e He Hsp)).
    assert (cd_base s e = "/") as -> by (unfold cd_base; rewrite is_path_start, Hg, path_Dir_elem by done; done).
    case_bool_decide as Hf; [|by eexists]. exfalso. apply folders_spec in Hf as (_ & o & Ho & Hp).
    assert (is_path ("/" +:+ TrimSuffix e "/")) as Hq.
    { apply (object_key_dir o); [by apply Hb|]. by rewrite string_app_assoc. }
    apply is_path_start in Hq. by rewrite HasPrefix_app in Hq.
  - intros d Hd Ho. apply Cd_listed; [|by apply path_Base_path|done..|done].
    unfold cd_base. assert (HasPrefix (d +:+ "/" +:+ e) "/" = false) as -> by (apply is_path_start; by apply is_path_app).
    rewrite Hg, path_Dir_path, path_Join_empty by done.
    by rewrite bool_decide_false, is_path_end by (done || by apply is_path_not_dot).
Qed.
End storage_properties.

(** ** Clients *)
Section client_properties.
Context {S : Type} `{Oss S}.

(** What the options of each provider keep and set. *)
Lemma provider_settings p opts :
  let static opts' creds := opt_Secure opts' = opt_Secure opts ∧ (mp_UseIAM p = false → opt_Creds opts' = Some creds) in
  static (processMinioAwsOptions p opts) (StaticV4 (mp_AK p) (mp_SK p) "")
  ∧ static (processMinioGcpOptions p opts).1 (StaticV2 (mp_AK p) (mp_SK p) "")
  ∧ static (processMinioAliyunOptions p opts).1 (StaticV4 (mp_AK p) (mp_SK p) "")
  ∧ static (processMinioTencentOptions p opts).1 (StaticV4 (mp_AK p) (mp_SK p) "").
Proof.
  cbn zeta. unfold processMinioAwsOptions, processMinioGcpOptions, processMinioAliyunOptions, processMinioTencentOptions.
  destruct (mp_UseIAM p); [|done]. split_and!; try done; by case_match.
Qed.

(** A client that is returned was made for the address, with its port, and the settings of
    its provider; its bucket exists, unless that was not to be checked; and with a key it
    has this key as its credentials. *)
Theorem NewMinioClient_spec p mc :
  NewMinioClient (S:=S) p = Ok mc →
  mc_BucketName mc = mp_BucketName p ∧ mc_RootPath mc = mp_RootPath p
  ∧ mp_CloudProvider p ∈ [CloudProviderAWS; CloudProviderGCP; CloudProviderAliyun; CloudProviderTencent]
  ∧ (mp_skipCheckBucket p = true ∨ BucketExists (mc_Client mc) (mp_BucketName p) = Ok true)
  ∧ ∃ endpoint opts, minio_New endpoint opts = Ok (mc_Client mc)
      ∧ opt_Secure opts = mp_UseSSL p
      ∧ (endpoint = minio_endpoint p ∨ endpoint = GcsDefaultAddress ∧ Contains (minio_endpoint p) endpoint = true)
      ∧ (mp_UseIAM p = false → opt_Creds opts =
           Some (if bool_decide (mp_CloudProvider p = CloudProviderGCP)
                 then StaticV2 (mp_AK p) (mp_SK p) "" else StaticV4 (mp_AK p) (mp_SK p) "")).
Proof.
  unfold NewMinioClient. intros ([endpoint opts] & Ho & (client & Hc & (u & Hb & [= <-])%res_bind_Ok)%res_bind_Ok)%res_bind_Ok.
  cbn [mc_Client mc_BucketName mc_RootPath]. split_and!; [done..| | |].
  - unfold provider_options in Ho. repeat case_bool_decide; try done; simplify_eq; set_solver.
  - destruct (mp_skipCheckBucket p); [by left|right]. apply res_bind_Ok in Hb as ([] & ? & ?); done.
  - exists endpoint, opts. split; [done|]. clear Hc Hb.
    destruct (provider_settings p (MkOptions None (mp_UseSSL p) BucketLookupAuto false)) as ([??] & [??] & [??] & [??]).
    unfold provider_options in Ho.
    case_bool_decide as Haws; [|case_bool_decide as Hgcp; [|case_bool_decide; [|case_bool_decide; [|done]]]].
    + injection Ho as <- <-. rewrite Haws. split_and!; [done|by left|done].
    + injection Ho as <- <-. split_and!; [done| |done].
      destruct (Contains (minio_endpoint p) GcsDefaultAddress) eqn:Hc; [by right|by left].
    + injection Ho as <- <-. split_and!; [done|by left|done].
    + destruct (processMinioTencentOptions p _) as [opts' [[]| |]]; simplify_eq/=.
      split_and!; [done|by left|done].
Qed.

(** When the role of Aliyun cannot be used, the client is made all the same, without any
    credentials. *)
Theorem Aliyun_failure_anonymous p e :
  mp_CloudProvider p = CloudProviderAliyun → mp_UseIAM p = true → aliyun_NewCredential (S:=S) = Err e →
  provider_options (S:=S) p (minio_endpoint p) (MkOptions None (mp_UseSSL p) BucketLookupAuto false)
  = Ok (minio_endpoint p, MkOptions None (mp_UseSSL p) BucketLookupAuto false).
Proof.
  intros Hp Hi He. unfold provider_options. rewrite Hp. cbn [bool_decide].
  rewrite !bool_decide_false, bool_decide_true by done.
  unfold processMinioAliyunOptions, NewAliyunCredentialProvider. by rewrite Hi, He.
Qed.
End client_properties.

(** The credentials of a provider count as expired exactly when the key has changed since
    the last retrieval, or cannot be read; a failed retrieval does not change that. *)
Theorem Aliyun_expiry akCache now later ak sk token :
  GetAccessKeyId now = Ok (Some ak) → GetAccessKeySecret now = Ok (Some sk) → GetSecurityToken now = Ok (Some token) →
  Aliyun_Retrieve akCache now = (ak, Ok (MkCredValue ak sk token))
  ∧ Aliyun_IsExpired ak later
    = match GetAccessKeyId later with
      | Ok (Some ak') => Ok (bool_decide (ak' ≠ ak))
      | Ok None => Panic "invalid memory address or nil pointer dereference"
      | Err _ => Ok true
      | Panic w => Panic w
      end
  ∧ ∀ e, GetAccessKeyId later = Err e ∨ GetAccessKeySecret later = Err e →
      (∃ ak', GetAccessKeyId later = Ok (Some ak')) ∨ GetAccessKeyId later = Err e →
      Aliyun_Retrieve ak later = (ak, Err e).
Proof.
  intros H1 H2 H3. split_and!.
  - unfold Aliyun_Retrieve. by rewrite H1, H2, H3.
  - unfold Aliyun_IsExpired. by destruct (GetAccessKeyId later) as [[]| |].
  - intros e He Hk. unfold Aliyun_Retrieve. destruct Hk as [[ak' Hk]|Hk]; rewrite Hk in *; [|done].
    destruct He as [?|He]; [done|]. simpl. by rewrite He.
Qed.

(** Each request is sent with a token that is valid, or was just acquired, and that the
    transport keeps. *)
Theorem RoundTrip_token {Resp} valid newToken (send : string → res Resp) cur cur' r :
  RoundTrip valid newToken send cur = (cur', r) →
  match cur' with
  | Some t => (valid t = true ∧ cur = Some t ∨ newToken = Ok t) ∧ r = send ("Bearer " +:+ t)
              ∨ cur' = cur ∧ ∀ resp, r ≠ Ok resp
  | None => cur = None ∧ ∀ resp, r ≠ Ok resp
  end.
Proof.
  unfold RoundTrip. destruct cur as [t|]; [destruct (valid t) eqn:Hv|]; [|destruct newToken; intros [= <- <-]; naive_solver..].
  intros [= <- <-]. left. split; [by left|done].
Qed.

(** ** Settings *)
Section settings_properties.
Context {K C S : Type} `{MetaKV K} `{JsonSession} `{Network C} `{Oss S}.

(** The settings in a map, and those that it does not give. *)
Definition cfg_of (m : gmap string string) (d : MinioCfg) : MinioCfg :=
  let get key v := default v (m !! key) in
  MkMinioCfg (get "minio.cloudprovider" (cfg_cloudProvider d)) (get "minio.address" (cfg_addr d))
    (get "minio.port" (cfg_port d)) (get "minio.region" (cfg_region d)) (get "minio.bucketname" (cfg_bucketName d))
    (get "minio.rootpath" (cfg_rootPath d)) (get "minio.secretaccesskey" (cfg_sk d)) (get "minio.accesskeyid" (cfg_ak d))
    (get "minio.useiam" (cfg_useIAM d)) (get "minio.usessl" (cfg_useSSL d)).

(** The loop over the pairs takes the last value of each key. *)
Theorem set_cfg_last items c : foldl set_cfg c items = cfg_of (KVListMap items) c.
Proof.
  induction items as [|[key v] items IH] using rev_ind; [by destruct c|]. unfold KVListMap in *.
  rewrite !foldl_app, IH. cbn [foldl fst snd]. set (m := foldl _ ∅ items).
  unfold set_cfg, cfg_of. cbv beta iota zeta.
  repeat (case_bool_decide; [subst key; rewrite !lookup_insert_eq, !lookup_insert_ne by done; done|]).
  rewrite !lookup_insert_ne by done. done.
Qed.

(** A session from which [find_cfg] takes nothing. *)
Definition no_settings (session : Session) : Prop :=
  match grpc_Dial (C:=C) None (Address session), config_client (strings_ToLower (ServerName session)) with
  | Ok conn, Some source => ∀ item items, GetConfiguration source conn (ServerID session) ≠ Ok (item :: items)
  | _, _ => True
  end.

Lemma find_cfg_skips c l1 l2 : Forall no_settings l1 → find_cfg (C:=C) c (l1 ++ l2) = find_cfg (C:=C) c l2.
Proof.
  induction 1 as [|s l1 Hs _ IH]; [done|]. cbn [app find_cfg]. unfold no_settings in Hs.
  destruct (grpc_Dial None (Address s)), (config_client (strings_ToLower (ServerName s))); try done.
  destruct (GetConfiguration _ _ _) as [[|item items]| |]; [done| |done..]. by destruct (Hs item items).
Qed.

(** The two functions make the same client from the configuration of a root coordinator
    that answers first and gives a bucket and an address. *)
Theorem ossutil_mirrors (cli : K) base params l1 session l2 (conn : C) items :
  ListSessions cli base = Ok (l1 ++ session :: l2) →
  Forall (λ s, no_settings s ∧ is_root s = false) l1 → ServerName session = "rootcoord" →
  grpc_Dial None (Address session) = Ok conn →
  GetConfiguration RootCoordClient conn (ServerID session) = Ok items →
  default "" (KVListMap items !! "minio.bucketname") ≠ "" → default "" (KVListMap items !! "minio.address") ≠ "" →
  ossutil_GetMinioClientFromCfg (C:=C) (S:=S) cli base params = GetMinioClientFromCfg (C:=C) cli base params
  ∧ GetMinioClientFromCfg (C:=C) (S:=S) cli base params = client_of_cfg (cfg_of (KVListMap items) no_cfg) params.
Proof.
  intros Hl Hnr Hs Hd Hi Hb Ha.
  assert (Forall no_settings l1) as Hn by (eapply list.Forall_impl; [exact Hnr|by intros ? []]).
  assert (Forall (λ s, is_root s = false) l1) as Hr by (eapply list.Forall_impl; [exact Hnr|by intros ? []]).
  unfold ossutil_GetMinioClientFromCfg, GetMinioClientFromCfg.
  rewrite Hl. cbn [mbind res_bind]. rewrite find_cfg_skips by done. cbn [find_cfg].
  rewrite (proj2 (find_first _ _ session)) by (exists l1, l2; split_and!; [done|unfold is_root; by rewrite Hs|done]).
  rewrite Hd, Hs. cbn [strings_ToLower]. change (config_client _) with (Some RootCoordClient). cbv iota beta.
  rewrite Hi. cbn [mbind res_bind]. rewrite set_cfg_last. split; [|done].
  rewrite bool_decide_false. { by rewrite !bool_decide_true by done. }
  intros ->%zlen_0. by apply Hb.
Qed.
End settings_properties.

(** ** Witnesses: an object store that is a map of its objects *)
Definition listing_entry (prefix : string) (kv : string * Z) : option ObjectInfo :=
  if HasPrefix kv.1 prefix then
    match Split "/" (TrimPrefix kv.1 prefix) with
    | x :: _ :: _ => Some (MkObjectInfo (prefix +:+ x +:+ "/") 0)
    | _ => Some (MkObjectInfo kv.1 kv.2)
    end
  else None.
#[local] Instance map_oss : Oss (gmap string Z) := {|
  minio_New endpoint opts := Ok (list_to_map [("files/insert_log/1/2", 10); ("files/insert_log/3", 20); ("files/x", 5)]);
  BucketExists c bucket := Ok (bool_decide (bucket = "a-bucket"));
  ListObjects c bucket prefix recursive := omap (listing_entry prefix) (map_to_list c);
  StatObject c bucket path := match c !! path with Some n => Ok (MkObjectInfo path n) | None => Err (Errorf "not found") end;
  minio_DefaultTransport secure := Ok tt;
  aliyun_NewCredential := Err (Errorf "no role");
  tencent_TkeOIDCRoleArn := Err (Errorf "no role");
  tencent_GetCredential tke := Ok tt;
|}.

Lemma Split_two s x y l : Split "/" s = x :: y :: l → s = x +:+ "/" +:+ Join "/" (y :: l) ∧ Split "/" x = [x].
Proof.
  intros Hs. split; [by rewrite <-(Join_Split "/" s), Hs, Join_cons|].
  apply (Split_elem "/" s). rewrite Hs. left.
Qed.
Lemma map_listed (c : gmap string Z) prefix k :
  k ∈ map oi_Key (omap (listing_entry prefix) (map_to_list c))
  ↔ (∃ r, k = prefix +:+ r ∧ Split "/" r = [r] ∧ k ∈ dom c)
    ∨ (∃ d, k = prefix +:+ d +:+ "/" ∧ Split "/" d = [d] ∧ ∃ o, o ∈ dom c ∧ HasPrefix o k = true).
Proof.
  setoid_rewrite list_elem_of_fmap. setoid_rewrite list_elem_of_omap. split.
  - intros (info & -> & [o n] & Hin%elem_of_map_to_list & He). unfold listing_entry in He. cbn [fst snd] in He.
    destruct (HasPrefix o prefix) eqn:Hp; [|done]. apply HasPrefix_spec in Hp as [r ->]. rewrite TrimPrefix_app in He.
    pose proof (Split_nonempty "/" r). destruct (Split "/" r) as [|x [|y l]] eqn:Hs; [done| |]; injection He as <-; cbn.
    + left. exists r. rewrite elem_of_dom. split_and!; [done| |by eexists].
      rewrite <-(Join_Split "/" r), Hs. simpl. apply (Split_elem "/" r). rewrite Hs. left.
    + right. destruct (Split_two r x y l Hs) as [-> Hx]. exists x. split_and!; [done..|].
      exists (prefix +:+ x +:+ "/" +:+ Join "/" (y :: l)). rewrite elem_of_dom. split; [by eexists|].
      apply HasPrefix_spec. eexists. by rewrite !string_app_assoc.
  - intros [(r & -> & Hs & [n Hn]%elem_of_dom)|(d & -> & Hs & o & [n Hn]%elem_of_dom & [t ->]%HasPrefix_spec)].
    + eexists. split; [|exists (prefix +:+ r, n); split; [by apply elem_of_map_to_list|]].
      2:{ unfold listing_entry. cbn [fst snd]. rewrite HasPrefix_app, TrimPrefix_app, Hs. done. } done.
    + exists (MkObjectInfo (prefix +:+ d +:+ "/") 0). split; [done|]. eexists. split; [by apply elem_of_map_to_list|].
      unfold listing_entry. cbn [fst snd]. rewrite !string_app_assoc, HasPrefix_app, TrimPrefix_app.
      change (d +:+ "/" +:+ t) with (d +:+ String "/" t). rewrite Split_app_sep by done.
      pose proof (Split_nonempty "/" t). by destruct (Split "/" t).
Qed.
#[local] Instance map_oss_laws : OssLaws (gmap string Z) := {|
  objects c bucket := dom c; listed c bucket := map_listed c |}.

Definition shell_at (q : string) : MinioState (gmap string Z) :=
  MkMinioState (list_to_map [("files/insert_log/1/2", 10); ("files/insert_log/3", 20); ("files/x", 5)]) "a-bucket" q.
Lemma shell_proper q : proper_bucket (shell_at q).
Proof.
  intros o Ho. left. cbn in Ho. apply elem_of_dom in Ho as [n Hn].
  assert (map_Forall (λ k _, is_path k) (ms_client (shell_at q))) as Hf by clean_dec. by apply (Hf o n).
Qed.

Lemma cd_reachable_witness :
  let s' := foldl cd_step (shell_at "") ["files"; "files/insert_log"; "1"; "nothing"; "/files/x"] in
  ms_prefix s' = "files/insert_log/1" ∧ is_path (ms_prefix s').
Proof.
  destruct (cd_reachable (shell_at "") ["files"; "files/insert_log"; "1"; "nothing"; "/files/x"]) as (_ & _ & Hp).
  - apply shell_proper.
  - reflexivity.
  - split; [vm_compute; reflexivity|]. destruct Hp as [Hp|[Hp _]]; [vm_compute in Hp; discriminate Hp|exact Hp].
Defined.

Lemma Cd_spec_witness :
  CdCommand (shell_at "files") "insert_log" = Ok (shell_at "files/insert_log").
Proof.
  destruct (Cd_spec (shell_at "files") "files" "insert_log") as [Hc _].
  - reflexivity.
  - is_path_dec.
  - is_path_dec.
  - reflexivity.
  - apply Hc. exists "files/insert_log/3". split; [apply elem_of_dom; vm_compute; eexists; reflexivity|reflexivity].
Defined.

Lemma Cd_root_witness :
  ∃ err, CdCommand (shell_at "") "files" = Err err.
Proof.
  apply (Cd_root (shell_at "") "files").
  - apply shell_proper.
  - reflexivity.
  - is_path_dec.
  - reflexivity.
Defined.

Definition aliyun_param (iam : bool) : MinioClientParam :=
  MkMinioParam "oss-cn.aliyuncs.com" "443" "key" "secret" iam "" true "aliyun" "" "a-bucket" "files" false.
Lemma NewMinioClient_spec_witness :
  ∃ mc, NewMinioClient (S:=gmap string Z) (aliyun_param false) = Ok mc ∧ mc_RootPath mc = "files".
Proof.
  set (mc := MkMinioClient (ms_client (shell_at "")) "a-bucket" "files").
  assert (NewMinioClient (S:=gmap string Z) (aliyun_param false) = Ok mc) as Hc by (vm_compute; reflexivity).
  exists mc. split; [exact Hc|]. exact (proj1 (proj2 (NewMinioClient_spec _ _ Hc))).
Defined.
Lemma Aliyun_failure_anonymous_witness :
  provider_options (S:=gmap string Z) (aliyun_param true) "oss-cn.aliyuncs.com:443" (MkOptions None true BucketLookupAuto false)
  = Ok ("oss-cn.aliyuncs.com:443", MkOptions None true BucketLookupAuto false).
Proof.
  exact (Aliyun_failure_anonymous (S:=gmap string Z) (aliyun_param true) (Errorf "no role") eq_refl eq_refl eq_refl).
Defined.
Lemma Aliyun_expiry_witness :
  Aliyun_Retrieve "old" (MkAliyun (Ok (Some "ak")) (Ok (Some "sk")) (Ok (Some "t"))) = ("ak", Ok (MkCredValue "ak" "sk" "t")).
Proof.
  exact (proj1 (Aliyun_expiry "old" (MkAliyun (Ok (Some "ak")) (Ok (Some "sk")) (Ok (Some "t")))
    (MkAliyun (Ok None) (Ok None) (Ok None)) "ak" "sk" "t" eq_refl eq_refl eq_refl)).
Defined.
Lemma RoundTrip_token_witness :
  RoundTrip (λ t, bool_decide (t = "t2")) (Ok "t2") (λ h, Ok h) (Some "t1") = (Some "t2", Ok "Bearer t2")
  ∧ (bool_decide ("t2" = "t2") = true ∧ Some "t1" = Some "t2" ∨ Ok "t2" = Ok (A:=string) "t2").
Proof.
  assert (RoundTrip (λ t, bool_decide (t = "t2")) (Ok "t2") (λ h, Ok h) (Some "t1") = (Some "t2", Ok "Bearer t2")) as Hr
    by (vm_compute; reflexivity).
  split; [exact Hr|]. destruct (RoundTrip_token _ _ _ _ _ _ Hr) as [[Ht _]|[Hs _]]; [exact Ht|discriminate Hs].
Defined.

#[local] Instance root_sessions : JsonSession := three_sessions.
#[local] Instance cfg_network : Network string := {|
  grpc_Dial _ addr := Ok addr;
  ShowConfigurations client conn id :=
    Ok [("minio.address", "minio"); ("minio.port", "9000"); ("minio.bucketname", "a-bucket"); ("minio.rootpath", "files");
        ("minio.cloudprovider", "aws"); ("minio.accesskeyid", "key"); ("minio.secretaccesskey", "secret")];
  ResolveTCPAddr addr := Ok None;
  http_Get url := Err (Errorf "refused");
  http_Put url body := Err (Errorf "refused");
  portResp_Unmarshal body := (0, 0);
|}.
Lemma ossutil_mirrors_witness :
  let cli := etcd_store [("by-dev/session/rootcoord", "root")] in
  ossutil_GetMinioClientFromCfg (C:=string) (S:=gmap string Z) cli "by-dev" []
  = GetMinioClientFromCfg (C:=string) cli "by-dev" [].
Proof.
  refine (proj1 (ossutil_mirrors (C:=string) (S:=gmap string Z) _ "by-dev" [] [] s_root [] "10.0.0.1:53100" _ _ _ _ _ _ _ _)).
  - vm_compute. reflexivity.
  - constructor.
  - reflexivity.
  - reflexivity.
  - reflexivity.
  - vm_compute. discriminate.
  - vm_compute. discriminate.
Defined.
