(* ===== verification/Coordinators.v ===== *)
(** * Commands that ask the coordinators and query nodes

    Models [states/mgrpc/querycoord.go], [datacoord.go] and [querynode.go], the commands of
    the states of nodes; [states/compact_batch.go]; and of [states/etcd/repair] the commands that call a running
    coordinator: [channel.go], [manual_compaction.go] and [check_qn_collection_leak.go].
    A command is the request that it sends and what it makes of the answer; the servers are
    an interface. *)

From S2P Require Export Nodes ShowSegments.

(** [commonpb.MsgBase] and [commonpb.Status]; success is the code 0. *)
Record MsgBase := MkMsgBase { TargetID : Z; SourceID : Z }.
Record Status := MkStatus { ErrorCode : Z; Reason : string }.
Definition ErrorCode_Success : Z := 0.

(** The requests to a query coordinator. *)
Inductive QueryCoordRequest :=
  | LoadBalanceRequest (base : MsgBase) (CollectionID : Z) (SealedSegmentIDs SourceNodeIDs DstNodeIDs : list Z)
  | ActivateCheckerRequest (base : MsgBase) (CheckerID : Z)
  | DeactivateCheckerRequest (base : MsgBase) (CheckerID : Z)
  | ListCheckersRequest (base : MsgBase) (CheckerIDs : list Z)
  | ListQueryNodeRequest (base : MsgBase)
  | GetQueryNodeDistributionRequest (base : MsgBase) (NodeID : Z)
  | SuspendNodeRequest (base : MsgBase) (NodeID : Z)
  | ResumeNodeRequest (base : MsgBase) (NodeID : Z)
  | SuspendBalanceRequest (base : MsgBase)
  | ResumeBalanceRequest (base : MsgBase)
  | CheckBalanceStatusRequest (base : MsgBase)
  | TransferSegmentRequest (base : MsgBase) (SourceNodeID TargetNodeID SegmentID : Z) (TransferAll ToAllNodes CopyMode : bool)
  | TransferChannelRequest (base : MsgBase) (SourceNodeID TargetNodeID : Z) (ChannelName : string) (TransferAll ToAllNodes CopyMode : bool).

Record CheckerInfo := MkChecker { ck_Id : Z; ck_Desc : string; ck_Found : bool; ck_Activated : bool }.
Record NodeInfo := MkNodeInfo { ni_ID : Z; ni_Address : string; ni_State : string }.

(** What a query coordinator answers; a status in a response may be missing. *)
Class QueryCoord (C : Type) := {
  qc_Status : C → QueryCoordRequest → res Status;
  qc_Checkers : C → QueryCoordRequest → res (option Status * list CheckerInfo);
  qc_Nodes : C → QueryCoordRequest → res (option Status * list NodeInfo);
  qc_Distribution : C → QueryCoordRequest → res (option Status * list string * list Z);
  qc_Balance : C → QueryCoordRequest → res (option Status * bool);
}.

Definition nil_deref {A} : res A := Panic "invalid memory address or nil pointer dereference".

Section querycoord.
Context {C : Type} `{QueryCoord C} `{SortSlice}.
Variable session : Session.
Variable client : C.

(** The base of the requests; that of [balance-segment] has no source. *)
Definition qc_base : MsgBase := MkMsgBase (ServerID session) (-1).

(** A request that is answered by a status. *)
Definition expect_success (what : string) (req : QueryCoordRequest) : res unit :=
  match qc_Status client req with
  | Ok status => if bool_decide (ErrorCode status = ErrorCode_Success) then Ok tt
                 else Err (Errorf (what +:+ " failed: " +:+ Reason status))
  | Err _ => Err (Errorf ("failed to " +:+ what))
  | Panic w => Panic w
  end.
(** The status in a response. *)
Definition response_success (what : string) (status : option Status) : res unit :=
  match status with
  | None => nil_deref
  | Some status => if bool_decide (ErrorCode status = ErrorCode_Success) then Ok tt
                   else Err (Errorf (what +:+ " failed: " +:+ Reason status))
  end.

Definition BalanceSegmentCommand (CollectionID : Z) (SegmentIDs SourceNodes : list Z) (DstNodes : Z) : res Status :=
  qc_Status client (LoadBalanceRequest (MkMsgBase (ServerID session) 0) CollectionID SegmentIDs SourceNodes []).

Definition CheckerActivateCommand (CheckerID : Z) : res unit :=
  expect_success "activate checker" (ActivateCheckerRequest qc_base (int32 CheckerID)).
Definition CheckerDeactivateCommand (CheckerID : Z) : res unit :=
  expect_success "deactivate checker" (DeactivateCheckerRequest qc_base (int32 CheckerID)).

(** The rows of [checker list]. *)
Definition CheckerListCommand (CheckerIDs : list Z) : res (list CheckerInfo) :=
  '(status, infos) ← qc_Checkers client (ListCheckersRequest qc_base (map int32 CheckerIDs));
  _ ← response_success "list checkers" status;
  Ok (sort_Slice (λ a b, bool_decide (ck_Id a < ck_Id b)) infos).

(** The rows of [list-querynodes] and their number. *)
Definition ListQueryNodeCommand : res (list NodeInfo * Z) :=
  '(status, nodes) ← qc_Nodes client (ListQueryNodeRequest qc_base);
  _ ← response_success "list query nodes" status;
  Ok (nodes, zlen nodes).

Definition GetQueryNodeDistributionCommand (NodeID : Z) : res ((Z * list string) * (Z * list Z)) :=
  '(status, channels, segments) ← qc_Distribution client (GetQueryNodeDistributionRequest qc_base NodeID);
  _ ← response_success "get query node distribution" status;
  Ok ((zlen channels, channels), (zlen segments, segments)).

Definition SuspendNodeCommand (NodeID : Z) : res unit :=
  expect_success "suspend node" (SuspendNodeRequest qc_base NodeID).
Definition ResumeNodeCommand (NodeID : Z) : res unit :=
  expect_success "resume node" (ResumeNodeRequest qc_base NodeID).
Definition SuspendBalanceCommand : res unit := expect_success "suspend balance" (SuspendBalanceRequest qc_base).
Definition ResumeBalanceCommand : res unit := expect_success "resume balance" (ResumeBalanceRequest qc_base).

(** Whether the balance is active. *)
Definition CheckBalanceStatusCommand : res bool :=
  '(status, IsActive) ← qc_Balance client (CheckBalanceStatusRequest qc_base);
  _ ← response_success "check balance status" status;
  Ok IsActive.

(** The lines after the first: the source, the target and what is moved. *)
Definition target_line (ToAllNodes : bool) (TargetNodeID : Z) : list string :=
  if ToAllNodes then ["Target: All available nodes"]
  else if bool_decide (0 < TargetNodeID) then ["Target Node: " +:+ FormatInt TargetNodeID] else [].
Definition TransferSegmentCommand (SourceNodeID TargetNodeID SegmentID : Z) (TransferAll ToAllNodes CopyMode : bool)
    : res (list string) :=
  _ ← expect_success "transfer segment"
        (TransferSegmentRequest qc_base SourceNodeID TargetNodeID SegmentID TransferAll ToAllNodes CopyMode);
  Ok (["Source Node: " +:+ FormatInt SourceNodeID] ++ target_line ToAllNodes TargetNodeID
      ++ (if TransferAll then ["Segments: All segments"]
          else if bool_decide (0 < SegmentID) then ["Segment: " +:+ FormatInt SegmentID] else [])).
Definition TransferChannelCommand (SourceNodeID TargetNodeID : Z) (ChannelName : string) (TransferAll ToAllNodes CopyMode : bool)
    : res (list string) :=
  _ ← expect_success "transfer channel"
        (TransferChannelRequest qc_base SourceNodeID TargetNodeID ChannelName TransferAll ToAllNodes CopyMode);
  Ok (["Source Node: " +:+ FormatInt SourceNodeID] ++ target_line ToAllNodes TargetNodeID
      ++ (if TransferAll then ["Channels: All channels"]
          else if bool_decide (ChannelName ≠ "") then ["Channel: " +:+ ChannelName] else [])).
End querycoord.

(** ** [datacoord.go] and the calls of [states/etcd/repair] *)
Class DataCoord (C : Type) := {
  dc_ManualCompaction : C → Z → string → list Z → res (option Status * Z);
  dc_Flush : C → Z → res Status;
  dc_WatchChannels : C → Z → list string → res Status;
}.

Section datacoord.
Context {C : Type} `{DataCoord C}.
Variable client : C.

(** The identifier of the compaction and the status, which is printed and not tested. *)
Definition CompactCommand (CollectionID : Z) (CompactAll : bool) (ChannelName : string) (SegmentIDs : list Z)
    : res (Z * option Status) :=
  if bool_decide (CollectionID <= 0) && negb CompactAll
  then Err (Errorf "collection id not provided, set `compactAll` flag if needed")
  else
    '(status, id) ← dc_ManualCompaction client CollectionID ChannelName SegmentIDs;
    Ok (id, status).
Definition FlushCommand (CollectionID : Z) : res Status := dc_Flush client CollectionID.
End datacoord.

Section repair.
Context {K C : Type} `{MetaKV K} `{JsonSession} `{Network C} `{DataCoord C} `{StringMapOrder}.
Context `{ProtoCodec ChannelWatchInfo} `{ProtoCodec CollectionInfo} `{ProtoCodec FieldSchema}.
Context `{ProtoCodec StructArrayFieldSchema} `{ProtoCodec FunctionSchema}.

(** [manual_compaction.go]: the first session of a datacoord decides. *)
Fixpoint compact_sessions (collID : Z) (sessions : list Session) : res Z :=
  match sessions with
  | [] => Err (Errorf "datacoord not found in session list")
  | session :: sessions =>
      if bool_decide (ServerName session = "datacoord") then
        conn ← grpc_Dial (C:=C) (Some (2 * second)) (Address session);
        '(status, id) ← dc_ManualCompaction conn collID "" [];
        match status with
        | None => nil_deref
        | Some status => if bool_decide (ErrorCode status ≠ ErrorCode_Success)
                         then Err (Errorf "ManualCompaction failed, error code") else Ok id
        end
      else compact_sessions collID sessions
  end.
Definition doManualCompaction (cli : K) (basePath : string) (collID : Z) : res Z :=
  sessions ← ListSessions cli basePath; compact_sessions collID sessions.
Definition ManualCompactionCommand (cli : K) (basePath : string) (Collection : Z) : res Z :=
  if bool_decide (Collection = 0) then Err (Errorf "collection id should not be zero")
  else doManualCompaction cli basePath Collection.

(** [channel.go]: the sessions that were asked to watch, up to the first failure. *)
Fixpoint watch_sessions (collectionID : Z) (vchannels : list string) (sessions : list Session) : list Session :=
  match sessions with
  | [] => []
  | session :: sessions =>
      if bool_decide (ServerName session = "datacoord") then
        match grpc_Dial (C:=C) (Some (2 * second)) (Address session) with
        | Ok conn =>
            match dc_WatchChannels conn collectionID vchannels with
            | Ok status =>
                session :: (if bool_decide (ErrorCode status = ErrorCode_Success)
                            then watch_sessions collectionID vchannels sessions else [])
            | _ => [session]
            end
        | _ => []
        end
      else watch_sessions collectionID vchannels sessions
  end.
Definition doDatacoordWatch (cli : K) (basePath : string) (collectionID : Z) (vchannels : list string) : list Session :=
  match ListSessions cli basePath with
  | Ok sessions => watch_sessions collectionID vchannels sessions
  | _ => []
  end.

(** The channels without a watch info, and the sessions that were asked to watch them.
    The loop over the map [chans] is run twice, to print it and to collect the names. *)
Definition orphan_channels (channels : list Channel) (infos : list (ProtoWrapper ChannelWatchInfo)) : gmap string unit :=
  foldl (λ chans info, delete (cw_ChannelName (GetProto info)) chans)
    (foldl (λ chans c, <[ch_VirtualName c := tt]> chans) ∅ channels) infos.
Definition RepairChannelCommand (cli : K) (basePath : string) (Collection : Z) (Run : bool)
    : res (list string * list Session) :=
  if bool_decide (Collection = 0) then Ok ([], [])
  else
    match GetCollectionByIDVersion cli basePath Collection with
    | Err _ => Ok ([], [])
    | Panic w => Panic w
    | Ok coll =>
        channels ← Channels coll;
        infos ← ListChannelWatch cli basePath [];
        let chans := orphan_channels channels infos in
        if bool_decide (chans = ∅) then Ok ([], [])
        else if Run then
          let vchannelNames := map fst (string_range chans) in
          Ok (vchannelNames, doDatacoordWatch cli basePath Collection vchannelNames)
        else Ok (map fst (string_range chans), [])
    end.
End repair.

(** ** [states/compact_batch.go] *)
Section compact_batch.
Context {K C : Type} `{MetaKV K} `{JsonSession} `{Network C} `{DataCoord C} `{SegmentFields}.
Context `{ProtoCodec SegmentInfo} `{ProtoCodec PbFieldBinlog}.

Definition batch_selected (CollectionID StorageVersion : Z) (i : SegmentInfo) : bool :=
  bool_decide (CollectionID = si_CollectionID i)
  && (bool_decide (StorageVersion = -1) || bool_decide (StorageVersion = si_StorageVersion i))
  && bool_decide (si_State i = SegmentState_Flushed).

(** The segments, and the identifier of the compaction if one is started. *)
Definition CompactBatchCommand (cli : K) (basePath : string) (CollectionID StorageVersion : Z) (Run : bool)
    : res (list Z * option Z) :=
  if bool_decide (CollectionID <= 0) then Err (Errorf "invalid collection id")
  else
    segments ← ListSegments cli basePath [λ s, batch_selected CollectionID StorageVersion (sg_info s)];
    let segmentIDs := map (λ s, si_ID (sg_info s)) segments in
    if negb Run then Ok (segmentIDs, None)
    else if bool_decide (zlen segmentIDs = 0) then Ok (segmentIDs, None)
    else
      sessions ← ListSessions cli basePath;
      match List.find (λ session, bool_decide (ServerName session = "datacoord")
                                  || bool_decide (ServerName session = "mixcoord")) sessions with
      | None => Err (Errorf "datacoord not found")
      | Some session =>
          conn ← grpc_Dial (C:=C) None (Address session);
          '(status, id) ← dc_ManualCompaction conn CollectionID "" segmentIDs;
          Ok (segmentIDs, Some id)
      end.
End compact_batch.

(** ** [check_qn_collection_leak.go] *)
Class LeakSource (C : Type) := {
  rc_ShowCollections : C → res (list Z);
  qc_GetMetrics : C → string → res string;
  (** The nodes of the topology with the collections that their quota metrics name; a node
      may have no metrics. *)
  topology_Unmarshal : string → res (list (Z * option (list Z)));
}.
(** The second result of [lo.Difference]. *)
Definition lo_Difference_right (list1 list2 : list Z) : list Z := filter (λ x, x ∉ list1) list2.

Section leak.
Context {K C : Type} `{MetaKV K} `{JsonSession} `{Network C} `{LeakSource C}.

(** [getQueryCoordClient] and [getRootCoordClient]: the first session of that name that
    answers. *)
Fixpoint first_client (name : string) (sessions : list Session) : res C :=
  match sessions with
  | [] => Err (Errorf "querycoord session not found")
  | session :: sessions =>
      if bool_decide (strings_ToLower (ServerName session) = name) then
        match grpc_Dial (Some (2 * second)) (Address session) with
        | Ok conn => Ok conn
        | Err _ => first_client name sessions
        | Panic w => Panic w
        end
      else first_client name sessions
  end.
Definition getQueryCoordClient := first_client "querycoord".
Definition getRootCoordClient := first_client "rootcoord".

(** The nodes with the collections that only they know. *)
Definition CheckQNCollectionLeak (cli : K) (basePath : string) : res (list (Z * list Z)) :=
  sessions ← ListSessions cli basePath;
  rcClient ← getRootCoordClient sessions;
  collectionsOnRC ← rc_ShowCollections rcClient;
  qcClient ← getQueryCoordClient sessions;
  resp ← qc_GetMetrics qcClient "system_info";
  nodes ← topology_Unmarshal resp;
  leaks ← mapR (λ node : Z * option (list Z),
            match node.2 with
            | None => nil_deref
            | Some collectionsOnQN => Ok (node.1, lo_Difference_right collectionsOnRC collectionsOnQN)
            end) nodes;
  Ok (filter (λ leak, 0 < zlen leak.2) leaks).
End leak.

(** ** [querynode.go] *)
Inductive SegmentStateKind := SegmentSealed | SegmentGrowing | SegmentOther.
#[export] Instance SegmentStateKind_eq_dec : EqDecision SegmentStateKind.
Proof. solve_decision. Defined.
Record QNSegmentInfo := MkQNSegment {
  qs_SegmentID : Z;
  qs_SegmentState : SegmentStateKind;
  qs_IndexFilePaths : list (list string);
}.

(** One segment: it is searched by brute force when it has no index, or one without files. *)
Definition brute_force (info : QNSegmentInfo) : bool :=
  bool_decide (zlen (qs_IndexFilePaths info) = 0)
  || existsb (λ paths, bool_decide (zlen paths = 0)) (qs_IndexFilePaths info).
Definition analyse_segment (counts : Z * Z * Z) (info : QNSegmentInfo) : Z * Z * Z :=
  let '(indexed, bruteForce, growing) := counts in
  if brute_force info then (indexed, bruteForce + 1, growing)
  else match qs_SegmentState info with
       | SegmentSealed => (indexed + 1, bruteForce, growing)
       | SegmentGrowing => (indexed, bruteForce, growing + 1)
       | SegmentOther => counts
       end.

(** [segment-analysis]: the request's collection and segments, and the counts. *)
Definition getQNGetSegmentInfoCmd (GetSegmentInfo : Z → list Z → res (list QNSegmentInfo))
    (segmentID collectionID : Z) : option (Z * Z * Z) :=
  if bool_decide (segmentID = 0) && bool_decide (collectionID = 0) then None
  else
    match GetSegmentInfo collectionID (if bool_decide (0 < segmentID) then [segmentID] else []) with
    | Ok infos => Some (foldl analyse_segment (0, 0, 0) infos)
    | _ => None
    end.

(** ** Properties *)
Section querycoord_properties.
Context {C : Type} `{QueryCoord C} `{SortSlice}.
Implicit Types (session : Session) (client : C).

(** [checker list] shows the checkers of the answer, all of them and in the order of their
    identifiers, and fails when the coordinator does not report success. *)
Theorem CheckerList_spec session client ids r :
  CheckerListCommand session client ids = r →
  match qc_Checkers client (ListCheckersRequest (MkMsgBase (ServerID session) (-1)) (map int32 ids)) with
  | Ok (Some status, infos) =>
      if bool_decide (ErrorCode status = ErrorCode_Success)
      then ∃ rows, r = Ok rows ∧ rows ≡ₚ infos ∧ StronglySorted (λ a b, ck_Id a <= ck_Id b) rows
      else ∃ e, r = Err e
  | _ => ∀ rows, r ≠ Ok rows
  end.
Proof.
  intros <-. unfold CheckerListCommand, qc_base.
  destruct (qc_Checkers _ _) as [[[status|] infos]| |]; [|done..]. cbn [mbind res_bind response_success].
  case_bool_decide; [|by eexists]. eexists. split; [done|]. split; [apply sort_perm|].
  apply sort_sorted. by left.
Qed.

(** The identifier of a checker is cut to 32 bits: commands for identifiers that differ by
    a multiple of [2 ^ 32] send the same request, and no other does. *)
Theorem checker_ids_wrap session client id k :
  CheckerActivateCommand session client (id + k * 2 ^ 32) = CheckerActivateCommand session client id
  ∧ CheckerDeactivateCommand session client (id + k * 2 ^ 32) = CheckerDeactivateCommand session client id
  ∧ ∀ id', in_s 32 id → in_s 32 id' →
      ActivateCheckerRequest (qc_base session) (int32 id) = ActivateCheckerRequest (qc_base session) (int32 id') → id = id'.
Proof.
  assert (int32 (id + k * 2 ^ 32) = int32 id) as He.
  { unfold wraps. f_equal. rewrite <-(Z_mod_plus_full (id + 2 ^ (32 - 1)) k (2 ^ 32)). f_equal. lia. }
  unfold CheckerActivateCommand, CheckerDeactivateCommand. rewrite He. split_and!; [done..|].
  intros id' Hi Hi' [= E]. by rewrite !wraps_id in E by (done || lia).
Qed.
End querycoord_properties.

(** [segment-analysis] counts the segments by brute force, and the sealed and the growing
    ones of the others. *)
Theorem segment_analysis_spec infos :
  foldl analyse_segment (0, 0, 0) infos
  = (zlen (filter (λ i, brute_force i = false ∧ qs_SegmentState i = SegmentSealed) infos),
     zlen (filter (λ i, brute_force i = true) infos),
     zlen (filter (λ i, brute_force i = false ∧ qs_SegmentState i = SegmentGrowing) infos)).
Proof.
  unfold zlen. induction infos as [|i infos IH] using rev_ind; [done|].
  rewrite foldl_app, !list.filter_app, !length_app, IH. cbn [foldl]. unfold analyse_segment.
  assert (∀ (P : QNSegmentInfo → Prop) `{∀ x, Decision (P x)}, length (filter P [i]) = if decide (P i) then 1 else 0)%nat as Hf.
  { intros P HP. rewrite filter_cons. by case_decide. }
  rewrite !Hf. clear IH Hf. destruct (brute_force i), (qs_SegmentState i);
    (apply f_equal2; [apply f_equal2|]); (case_decide as Hd; [|try lia; exfalso; by apply Hd]);
    first [lia | discriminate Hd | by destruct Hd].
Qed.

Section repair_properties.
Context {K C : Type} `{MetaKV K} `{JsonSession} `{Network C} `{DataCoord C} `{StringMapOrder}.
Context `{ProtoCodec ChannelWatchInfo} `{ProtoCodec CollectionInfo} `{ProtoCodec FieldSchema}.
Context `{ProtoCodec StructArrayFieldSchema} `{ProtoCodec FunctionSchema}.
Implicit Types (cli : K).

Lemma elem_of_orphans channels infos name :
  is_Some (orphan_channels channels infos !! name)
  ↔ name ∈ map ch_VirtualName channels ∧ name ∉ map (λ i, cw_ChannelName (GetProto i)) infos.
Proof.
  unfold orphan_channels. rewrite <-elem_of_dom.
  assert (∀ (m : gmap string unit), dom (foldl (λ chans info, delete (cw_ChannelName (GetProto info)) chans) m infos)
    = dom m ∖ list_to_set (map (λ i : ProtoWrapper ChannelWatchInfo, cw_ChannelName (GetProto i)) infos)) as Hd.
  { induction infos as [|i infos IH]; intros m; [set_solver|]. cbn [foldl map list_to_set]. rewrite IH, dom_delete_L. set_solver. }
  assert (∀ (m : gmap string unit), dom (foldl (λ chans c, <[ch_VirtualName c := tt]> chans) m channels)
    = dom m ∪ list_to_set (map ch_VirtualName channels)) as Hi.
  { induction channels as [|c channels IH]; intros m; [set_solver|]. cbn [foldl map list_to_set]. rewrite IH, dom_insert_L. set_solver. }
  rewrite Hd, Hi, dom_empty_L, elem_of_difference, elem_of_union, !elem_of_list_to_set. set_solver.
Qed.

Lemma watch_sessions_all id names sessions :
  (∀ session, session ∈ sessions → ServerName session = "datacoord" →
     ∃ (conn : C) status, grpc_Dial (Some (2 * second)) (Address session) = Ok conn
       ∧ dc_WatchChannels conn id names = Ok status ∧ ErrorCode status = ErrorCode_Success) →
  watch_sessions (C:=C) id names sessions = filter (λ s, ServerName s = "datacoord") sessions.
Proof.
  induction sessions as [|s l IH]; intros Hw; [done|]. cbn [watch_sessions]. rewrite filter_cons.
  rewrite <-IH by (intros; apply Hw; [by right|done]).
  case_decide as Hs; [|by rewrite bool_decide_false]. rewrite bool_decide_true by done.
  destruct (Hw s) as (conn & status & -> & -> & Hc); [by left|done|]. by rewrite bool_decide_true.
Qed.

(** [repair channel] asks each datacoord, when they all answer with success, to watch
    exactly the channels of the collection that have no watch info, each once. *)
Theorem RepairChannel_spec cli base collection coll channels infos sessions :
  collection ≠ 0 → GetCollectionByIDVersion cli base collection = Ok coll → Channels coll = Ok channels →
  ListChannelWatch cli base [] = Ok infos → ListSessions cli base = Ok sessions →
  (∀ names session, session ∈ sessions → ServerName session = "datacoord" →
     ∃ (conn : C) status, grpc_Dial (Some (2 * second)) (Address session) = Ok conn
       ∧ dc_WatchChannels conn collection names = Ok status ∧ ErrorCode status = ErrorCode_Success) →
  ∃ names, RepairChannelCommand (C:=C) cli base collection true
    = Ok (names, if bool_decide (names = []) then [] else filter (λ s, ServerName s = "datacoord") sessions)
    ∧ NoDup names
    ∧ ∀ name, name ∈ names ↔ name ∈ map ch_VirtualName channels ∧ name ∉ map (λ i, cw_ChannelName (GetProto i)) infos.
Proof.
  intros Hid Hc Hch Hi Hs Hw. unfold RepairChannelCommand. rewrite bool_decide_false, Hc, Hch by done.
  cbn [mbind res_bind]. rewrite Hi. cbn [mbind res_bind]. set (chans := orphan_channels channels infos).
  assert (∀ name, name ∈ map fst (string_range chans) ↔
    name ∈ map ch_VirtualName channels ∧ name ∉ map (λ i, cw_ChannelName (GetProto i)) infos) as Hn.
  { intros name. rewrite <-elem_of_orphans. fold chans. rewrite string_range_perm, list_elem_of_fmap. split.
    - intros ([k v] & -> & Hkv%elem_of_map_to_list). by exists v.
    - intros [v Hv]. exists (name, v). by rewrite elem_of_map_to_list. }
  exists (map fst (string_range chans)). split_and!; [|rewrite string_range_perm; apply NoDup_fst_map_to_list|done].
  case_bool_decide as He.
  - assert (map fst (string_range chans) = []) as ->; [|done].
    pose proof (string_range_perm chans) as Hp. rewrite He, map_to_list_empty in Hp. rewrite He.
    by apply Permutation_nil_r in Hp as ->.
  - rewrite bool_decide_false.
    + unfold doDatacoordWatch. rewrite Hs. rewrite watch_sessions_all by eauto. done.
    + intros Hnil. apply He. apply map_empty. intros name. apply eq_None_not_Some. intros Hsome.
      apply elem_of_orphans, Hn in Hsome. rewrite Hnil in Hsome. by apply elem_of_nil in Hsome.
Qed.

(** In a cluster with a mixcoord only, no compaction is started and no channel is watched. *)
Theorem mixcoord_not_called cli base collection sessions :
  ListSessions cli base = Ok sessions → Forall (λ s, ServerName s ≠ "datacoord") sessions → collection ≠ 0 →
  ManualCompactionCommand (C:=C) cli base collection = Err (Errorf "datacoord not found in session list")
  ∧ ∀ names called, RepairChannelCommand (C:=C) cli base collection true = Ok (names, called) → called = [].
Proof.
  intros Hs Hf Hc. assert (∀ id, compact_sessions (C:=C) id sessions = Err (Errorf "datacoord not found in session list")) as Hcs.
  { intros id. clear Hs. induction Hf as [|s l Hn _ IH]; [done|]. cbn [compact_sessions]. rewrite bool_decide_false by done.
    apply IH. }
  assert (∀ id names, watch_sessions (C:=C) id names sessions = []) as Hws.
  { intros id names. clear Hs Hcs. induction Hf as [|s l Hn _ IH]; [done|]. cbn [watch_sessions]. by rewrite bool_decide_false. }
  split.
  - unfold ManualCompactionCommand, doManualCompaction. rewrite bool_decide_false, Hs by done. apply Hcs.
  - unfold RepairChannelCommand, doDatacoordWatch. rewrite bool_decide_false, Hs by done. intros names called Hr.
    destruct (GetCollectionByIDVersion cli base collection); simplify_eq/=; [|done].
    res_inv. case_bool_decide; simplify_eq; [done|]. by rewrite Hws.
Qed.
End repair_properties.

Section leak_properties.
Context {K C : Type} `{MetaKV K} `{JsonSession} `{Network C} `{LeakSource C}.
Implicit Types (cli : K).

(** The check reports, for each query node with metrics, the collections that it names and
    the root coordinator does not know; a node without metrics makes it panic. *)
Theorem QNCollectionLeak_spec cli base sessions (rc qc : C) known resp nodes :
  ListSessions cli base = Ok sessions → getRootCoordClient sessions = Ok rc → getQueryCoordClient sessions = Ok qc →
  rc_ShowCollections rc = Ok known → qc_GetMetrics qc "system_info" = Ok resp → topology_Unmarshal (C:=C) resp = Ok nodes →
  if forallb (λ node : Z * option (list Z), bool_decide (is_Some node.2)) nodes then
    ∃ leaks, CheckQNCollectionLeak (C:=C) cli base = Ok leaks
      ∧ ∀ node l, (node, l) ∈ leaks ↔ ∃ on, (node, Some on) ∈ nodes ∧ l = filter (λ x, x ∉ known) on ∧ l ≠ []
  else ∃ w, CheckQNCollectionLeak (C:=C) cli base = Panic w.
Proof.
  intros Hs Hr Hq Hk Hm Ht. unfold CheckQNCollectionLeak. rewrite Hs. cbn [mbind res_bind]. rewrite Hr.
  cbn [mbind res_bind]. rewrite Hk. cbn [mbind res_bind]. rewrite Hq. cbn [mbind res_bind]. rewrite Hm.
  cbn [mbind res_bind]. rewrite Ht. cbn [mbind res_bind]. clear Hs Hr Hq Hk Hm Ht.
  destruct (forallb _ nodes) eqn:Hall.
  - rewrite (mapR_all _ (λ node, (node.1, lo_Difference_right known (default [] node.2)))).
    2:{ intros [n on] Hin. rewrite forallb_forall in Hall. apply list_elem_of_In in Hin.
        specialize (Hall _ Hin). apply bool_decide_eq_true in Hall as [x Hx]. cbn in *. by rewrite Hx. }
    eexists. split; [done|]. intros node l. rewrite list_elem_of_filter, list_elem_of_fmap. cbn [snd]. split.
    + intros (Hl & [n on] & [= -> ->] & Hin). rewrite forallb_forall in Hall. pose proof Hin as Hin'.
      apply list_elem_of_In, Hall, bool_decide_eq_true in Hin' as [x Hx]. cbn in *. subst on. exists x.
      split_and!; [done..|]. intros Hn. rewrite Hn in Hl. by vm_compute in Hl.
    + intros (on & Hin & -> & Hl). split; [unfold zlen; destruct (filter _ on); [done|simpl; lia]|]. by exists (node, Some on).
  - induction nodes as [|[n [on|]] nodes IH]; [done| |by eexists]. cbn [mapR snd]. cbn [mbind res_bind].
    destruct IH as [w Hw]; [done|]. exists w. cbn [fst]. by destruct (mapR _ nodes).
Qed.
End leak_properties.

(** ** Witnesses: a cluster whose coordinators answer each request *)
#[local] Instance sample_querycoord : QueryCoord string := {|
  qc_Status c req := Ok (MkStatus 0 "");
  qc_Checkers c req := Ok (Some (MkStatus 0 ""), [MkChecker 3 "index" true true; MkChecker 1 "channel" true false]);
  qc_Nodes c req := Ok (Some (MkStatus 0 ""), []);
  qc_Distribution c req := Ok (Some (MkStatus 0 ""), [], []);
  qc_Balance c req := Ok (Some (MkStatus 0 ""), true);
|}.
#[local] Instance sample_datacoord : DataCoord string := {|
  dc_ManualCompaction c coll channel segments := Ok (Some (MkStatus 0 ""), 17);
  dc_Flush c coll := Ok (MkStatus 0 "");
  dc_WatchChannels c coll channels := Ok (MkStatus 0 "");
|}.
#[local] Instance sample_leaks : LeakSource string := {|
  rc_ShowCollections c := Ok [1; 2];
  qc_GetMetrics c metric := Ok metric;
  topology_Unmarshal resp := Ok [(4, Some [1; 7]); (5, Some [2])];
|}.
#[local] Instance coord_network : Network string := {|
  grpc_Dial _ addr := Ok addr;
  ShowConfigurations client conn id := Ok [];
  ResolveTCPAddr addr := Ok None;
  http_Get url := Err (Errorf "refused");
  http_Put url body := Err (Errorf "refused");
  portResp_Unmarshal body := (0, 0);
|}.
Definition s_named (name : string) : Session := MkSession 1 name "10.0.0.1:1" false "" "" 0 ("by-dev/session/" +:+ name).
#[local] Instance named_sessions : JsonSession := {|
  session_Marshal s := Ok (bytes_of_string (ServerName s));
  session_Unmarshal bs :=
    if bool_decide (bs = bytes_of_string "dc") then Ok (s_named "datacoord")
    else if bool_decide (bs = bytes_of_string "rc") then Ok (s_named "rootcoord")
    else if bool_decide (bs = bytes_of_string "qc") then Ok (s_named "querycoord")
    else if bool_decide (bs = bytes_of_string "mix") then Ok (s_named "mixcoord")
    else Err (Errorf "invalid character");
|}.
#[local] Instance watch_codec : ProtoCodec ChannelWatchInfo := table_codec [("w1", MkChannelWatchInfo (Some (MkVchan 9 "dml_0_9v0")) None "")].
Definition two_info : CollectionInfo :=
  MkCollectionInfo 9 (Some sample_schema) 0 ["dml_0_9v0"; "dml_1_9v1"] ["dml_0"; "dml_1"] [("dml_0", []); ("dml_1", [])] 0 1 2 [].
#[local] Instance two_channels : ProtoCodec CollectionInfo := table_codec [("c9", two_info)].
Definition cluster_store (sessions : list (string * string)) : etcdKV (gmap string string) :=
  etcd_store (("by-dev/root-coord/collection/9", "c9") :: ("by-dev/channelwatch/4/dml_0_9v0", "w1")
              :: map (λ kv, ("by-dev/session/" +:+ kv.1, kv.2)) sessions).

Lemma segment_analysis_spec_ex :
  foldl analyse_segment (0, 0, 0)
    [MkQNSegment 1 SegmentSealed [["f"]]; MkQNSegment 2 SegmentGrowing []; MkQNSegment 3 SegmentSealed [["f"]; []]] = (1, 2, 0).
Proof. rewrite segment_analysis_spec. vm_compute. reflexivity. Qed.

Lemma CheckerList_spec_witness :
  ∃ rows, CheckerListCommand (C:=string) (s_named "querycoord") "" [] = Ok rows ∧ StronglySorted (λ a b, ck_Id a <= ck_Id b) rows.
Proof.
  destruct (CheckerList_spec (s_named "querycoord") "" [] _ eq_refl) as (rows & Hr & _ & Hs).
  exists rows. split; [exact Hr|exact Hs].
Defined.

Lemma RepairChannel_spec_witness :
  ∃ called, RepairChannelCommand (C:=string) (cluster_store [("datacoord", "dc")]) "by-dev" 9 true = Ok (["dml_1_9v1"], called)
    ∧ called = [s_named "datacoord"].
Proof.
  destruct (RepairChannel_spec (C:=string) (cluster_store [("datacoord", "dc")]) "by-dev" 9
    (MkCollection two_info "by-dev/root-coord/collection/9" [])
    [MkChannel "dml_0" "dml_0_9v0" (MsgPos "dml_0" [] 0); MkChannel "dml_1" "dml_1_9v1" (MsgPos "dml_1" [] 0)]
    [NewProtoWrapper (MkChannelWatchInfo (Some (MkVchan 9 "dml_0_9v0")) None "") "by-dev/channelwatch/4/dml_0_9v0"]
    [s_named "datacoord"]) as (names & Hr & Hn & He).
  - discriminate.
  - vm_compute. reflexivity.
  - vm_compute. reflexivity.
  - vm_compute. reflexivity.
  - vm_compute. reflexivity.
  - intros names session _ _. exists (Address session), (MkStatus 0 ""). split_and!; reflexivity.
  - assert (names = ["dml_1_9v1"]) as ->.
    { assert (names ≡ₚ ["dml_1_9v1"]) as Hp; [|by apply Permutation_singleton_r].
      apply NoDup_Permutation; [done|apply NoDup_singleton|]. intros name. rewrite He. cbn. split.
      - intros [[->|[->|[]%elem_of_nil]%list.elem_of_cons]%list.elem_of_cons Hne]; [destruct Hne; left|left].
      - intros ->%list_elem_of_singleton. split; [right; left|]. intros ?%list_elem_of_singleton. discriminate. }
    eexists. split; [exact Hr|vm_compute; reflexivity].
Defined.

Lemma mixcoord_not_called_witness :
  ManualCompactionCommand (C:=string) (cluster_store [("mixcoord", "mix")]) "by-dev" 9
  = Err (Errorf "datacoord not found in session list").
Proof.
  refine (proj1 (mixcoord_not_called (C:=string) _ "by-dev" 9 [s_named "mixcoord"] _ _ _)).
  - vm_compute. reflexivity.
  - repeat constructor. discriminate.
  - discriminate.
Defined.

Lemma QNCollectionLeak_spec_witness :
  ∃ leaks, CheckQNCollectionLeak (C:=string) (cluster_store [("querycoord", "qc"); ("rootcoord", "rc")]) "by-dev" = Ok leaks
    ∧ (4, [7]) ∈ leaks.
Proof.
  pose proof (QNCollectionLeak_spec (C:=string) (cluster_store [("querycoord", "qc"); ("rootcoord", "rc")]) "by-dev"
    [s_named "querycoord"; s_named "rootcoord"] "10.0.0.1:1" "10.0.0.1:1" [1; 2] "system_info" [(4, Some [1; 7]); (5, Some [2])]) as Hl.
  destruct Hl as (leaks & Hr & He).
  - vm_compute. reflexivity.
  - reflexivity.
  - reflexivity.
  - reflexivity.
  - reflexivity.
  - reflexivity.
  - exists leaks. split; [exact Hr|]. apply He. exists [1; 7]. split_and!; [left|vm_compute; reflexivity|discriminate].
Defined.
