(* ===== verification/Distribution.v ===== *)
(** * What the query nodes have loaded

    Models [show segment-loaded-grpc] ([states/distribution.go]), the download of the same
    distribution as rows ([states/etcd/download/distribution.go]) and
    [show loaded-json-stats] ([states/etcd/show/loaded_json_stats.go]).  What a node answers
    is a parameter. *)

From S2P Require Export Healthz ShowSegments Balance Nodes.

(** ** [distribution.go] *)
Record CollectionRows := MkCollectionRows {
  cr_Collection : Z;
  cr_Segments : list (Z * string * Z);     (* identifier, channel, number of rows *)
  cr_RowCount : Z;
}.
Record NodeDistribution := MkNodeDistribution {
  nd_Channels : list (string * Z * Z);
  nd_LeaderViews : list (string * Z * list Z);   (* channel, number and growing segments *)
  nd_Collections : list CollectionRows;
  nd_SealedNum : Z;
  nd_SealedRowCount : Z;
}.

Section distribution.
Context {K : Type} `{MetaKV K} `{JsonSession} `{MapOrder}.
Context `{ProtoCodec SegmentInfo} `{ProtoCodec PbFieldBinlog}.

Definition of_collection (CollectionID collection : Z) : bool :=
  negb (bool_decide (CollectionID ≠ 0) && bool_decide (collection ≠ CollectionID)).

(** The number of rows of a loaded segment: 0 when the metadata does not have it. *)
Definition loaded_rows (id2Segment : gmap Z (ModelSegment K)) (segment : SegmentVersionInfo) : Z :=
  match id2Segment !! sv_ID segment with Some s => si_NumOfRows (sg_info s) | None => 0 end.

Definition collection_rows (id2Segment : gmap Z (ModelSegment K)) (group : Z * list SegmentVersionInfo) : CollectionRows :=
  MkCollectionRows group.1
    (map (λ s, (sv_ID s, sv_Channel s, loaded_rows id2Segment s)) group.2)
    (foldl (λ rc s, int64 (rc + loaded_rows id2Segment s)) 0 group.2).

(** What is printed of one response. *)
Definition node_distribution (CollectionID : Z) (id2Segment : gmap Z (ModelSegment K)) (resp : DataDistribution)
    : NodeDistribution :=
  let collections := map (collection_rows id2Segment)
    (List.filter (λ g, of_collection CollectionID g.1) (range (GroupBy sv_Collection (ds_Segments resp)))) in
  MkNodeDistribution
    (List.filter (λ c, of_collection CollectionID c.1.2) (ds_Channels resp))
    (map (λ lv, (lv_Channel lv, zlen (growings lv), growings lv))
       (List.filter (λ lv, of_collection CollectionID (lv_Collection lv)) (ds_LeaderViews resp)))
    collections
    (foldl (λ n c, int64 (n + zlen (cr_Segments c))) 0 collections)
    (foldl (λ rc c, int64 (rc + cr_RowCount c)) 0 collections).

(** The connections and the requests are made concurrently: [answer] is what becomes of a
    session, no connection or its response, and [arrive] the order in the channel. *)
Definition GetDistributionCommand (answer : Session → option (res DataDistribution))
    (arrive : list (Z * res DataDistribution) → list (Z * res DataDistribution))
    (cli : K) (basePath : string) (CollectionID NodeID : Z)
    : res (list (Z * option NodeDistribution) * (Z * Z)) :=
  segments ← ListSegments cli basePath
    [λ s, bool_decide (CollectionID = 0) || bool_decide (CollectionID = si_CollectionID (sg_info s))];
  let id2Segment := id_to_segment segments in
  sessions ← ListSessions cli basePath;
  let qnSessions := List.filter (λ s, bool_decide (ServerName s = "querynode")) sessions in
  let responses := omap (M:=list) (λ s,
        if bool_decide (NodeID ≠ 0) && bool_decide (ServerID s ≠ NodeID) then None
        else option_map (pair (ServerID s)) (answer s)) qnSessions in
  let results := map (λ r : Z * res DataDistribution,
        (r.1, match r.2 with Ok resp => Some (node_distribution CollectionID id2Segment resp) | _ => None end))
        (arrive responses) in
  Ok (results, foldl (λ total r,
        match r.2 with
        | Some nd => (int64 (total.1 + nd_SealedNum nd), int64 (total.2 + nd_SealedRowCount nd))
        | None => total
        end) (0, 0) results).

(** ** [download/distribution.go]: the rows of the file, and the error that ended it *)
Definition distribution_ids (resp : DataDistribution) : list Z :=
  concat (map growings (ds_LeaderViews resp)) ++ map sv_ID (ds_Segments resp).
Definition distribution_row `{EnumStrings} (serverID : Z) (segment : SegmentInfo) : list string :=
  [FormatInt serverID; FormatInt (si_CollectionID segment); FormatInt (si_PartitionID segment);
   FormatInt (si_ID segment); si_InsertChannel segment; FormatInt (si_NumOfRows segment);
   SegmentState_String (si_State segment)].
Fixpoint download_sessions `{EnumStrings} (answer : Session → option (res DataDistribution)) (cli : K) (basePath : string)
    (sessions : list Session) : list (list string) * res unit :=
  match sessions with
  | [] => ([], Ok tt)
  | session :: sessions =>
      match (if bool_decide (ServerName session = "querynode") then answer session else None) with
      | Some (Ok resp) =>
          let segmentMap : gset Z := list_to_set (distribution_ids resp) in
          match ListSegments cli basePath [λ s, bool_decide (si_ID (sg_info s) ∈ segmentMap)] with
          | Ok segments =>
              let '(rows, r) := download_sessions answer cli basePath sessions in
              (map (λ s, distribution_row (ServerID session) (sg_info s)) segments ++ rows, r)
          | Err e => ([], Err e)
          | Panic w => ([], Panic w)
          end
      | _ => download_sessions answer cli basePath sessions
      end
  end.
Definition PullGlobalDistributionDetails `{EnumStrings} (answer : Session → option (res DataDistribution))
    (cli : K) (basePath : string) : list (list string) * res unit :=
  match ListSessions cli basePath with
  | Ok sessions => download_sessions answer cli basePath sessions
  | Err e => ([], Err e)
  | Panic w => ([], Panic w)
  end.

(** ** [loaded_json_stats.go]

    The statistics of the JSON keys are a field of a stored segment. *)
Record JSONKeyStats := MkKeyStats {
  ks_Version : Z; ks_Files : list string; ks_MemorySize : Z; ks_BuildID : Z; ks_DataFormat : Z;
}.
Class JSONStatsField := { si_JsonKeyStats : SegmentInfo → gmap Z JSONKeyStats }.

Section json_stats.
Context `{JSONStatsField}.

(** Whether the metadata says that statistics are built, of a field or of any. *)
Definition stats_built (FieldID : Z) (seg : SegmentInfo) : bool :=
  if bool_decide (FieldID ≠ 0) then bool_decide (is_Some (si_JsonKeyStats seg !! FieldID))
  else negb (bool_decide (Z.of_nat (size (si_JsonKeyStats seg)) = 0)).

Definition stats_expected (CollectionID SegmentID FieldID : Z) (IncludeUnBuilt : bool) (seg : SegmentInfo) : bool :=
  if bool_decide (CollectionID ≠ 0) && bool_decide (CollectionID ≠ si_CollectionID seg) then false
  else if bool_decide (SegmentID ≠ 0) && bool_decide (SegmentID ≠ si_ID seg) then false
  else if bool_decide (si_State seg ≠ SegmentState_Flushed) then false
  else if IncludeUnBuilt then true else stats_built FieldID seg.

(** Whether a node has the statistics of a segment, of the field or of any. *)
Definition stats_loaded (CollectionID SegmentID FieldID : Z) (segment : SegmentVersionInfo) : bool :=
  if bool_decide (CollectionID ≠ 0) && bool_decide (CollectionID ≠ sv_Collection segment) then false
  else if bool_decide (SegmentID ≠ 0) && bool_decide (SegmentID ≠ sv_ID segment) then false
  else existsb (λ fieldId, negb (bool_decide (FieldID ≠ 0) && bool_decide (FieldID ≠ fieldId)))
         (map fst (range (sv_JsonStatsInfo segment))).

(** The number of expected segments that are loaded, that of the expected ones, and those
    that are not loaded. *)
Definition LoadedJSONStatsCommand (answer : Session → option (res DataDistribution)) (cli : K) (metaPath : string)
    (CollectionID SegmentID FieldID : Z) (IncludeUnBuilt : bool) : res (option (Z * Z * list Z)) :=
  segments ← ListSegments cli metaPath
    [λ s, stats_expected CollectionID SegmentID FieldID IncludeUnBuilt (sg_info s)];
  let expected := foldl (λ m s, <[si_ID (sg_info s) := tt]> m) (∅ : gmap Z unit) segments in
  sessions ← ListServers cli metaPath "querynode";
  if bool_decide (zlen sessions = 0) then Ok None
  else
    let segments_of s := match answer s with Some (Ok resp) => ds_Segments resp | _ => [] end in
    let loaded : gset Z := foldl (λ l segment,
          if stats_loaded CollectionID SegmentID FieldID segment then {[sv_ID segment]} ∪ l else l) ∅
          (concat (map segments_of sessions)) in
    if bool_decide (Z.of_nat (size expected) = 0) then Ok None
    else
      let '(loadedCnt, missing) := foldl (λ st segID,
            if bool_decide (segID ∈ loaded) then (st.1 + 1, st.2) else (st.1, st.2 ++ [segID]))
            (0, []) (map fst (range expected)) in
      Ok (Some (loadedCnt, Z.of_nat (size expected), missing)).
End json_stats.
End distribution.

(** ** Properties *)
Lemma foldl_int64 {A} (f : A → Z) (l : list A) a :
  foldl (λ n x, int64 (n + f x)) (int64 a) l = int64 (a + sum_Z f l).
Proof.
  revert a. induction l as [|x l IH]; intros a; cbn [foldl]; [by rewrite Z.add_0_r|].
  rewrite wraps_add_l, IH, sum_Z_cons by lia. f_equal. lia.
Qed.
Lemma foldl_int64_0 {A} (f : A → Z) (l : list A) : foldl (λ n x, int64 (n + f x)) 0 l = int64 (sum_Z f l).
Proof. exact (foldl_int64 f l 0). Qed.
Lemma sum_Z_eq64 {A} (f g : A → Z) (l : list A) : (∀ x, f x ≡64 g x) → sum_Z f l ≡64 sum_Z g l.
Proof. intros Hf. induction l as [|x l IH]; [done|]. by rewrite !sum_Z_cons, Hf, IH. Qed.
Lemma sum_Z_concat {A B} (f : A → Z) (g : B → list A) l : sum_Z f (concat (map g l)) = sum_Z (λ b, sum_Z f (g b)) l.
Proof. induction l as [|b l IH]; [done|]. cbn [map concat]. by rewrite sum_Z_app, IH. Qed.
Lemma sum_Z_map {A B} (f : B → Z) (g : A → B) l : sum_Z f (map g l) = sum_Z (λ a, f (g a)) l.
Proof. induction l as [|a l IH]; [done|]. cbn [map]. by rewrite !sum_Z_cons, IH. Qed.
Lemma sum_Z_const1 {A} (l : list A) : sum_Z (λ _, 1) l = zlen l.
Proof. unfold zlen. induction l as [|a l IH]; [done|]. rewrite sum_Z_cons, IH. cbn [length]. lia. Qed.

Lemma List_filter_iff {A} (f : A → bool) (P : A → Prop) `{∀ x, Decision (P x)} l :
  (∀ x, f x = true ↔ P x) → List.filter f l = filter P l.
Proof.
  intros Hf. induction l as [|a l IH]; [done|]. cbn [List.filter]. rewrite filter_cons, IH.
  specialize (Hf a). case_decide as HP; destruct (f a); naive_solver.
Qed.

Lemma elem_of_concat_map {A B} (f : A → list B) l y : y ∈ concat (map f l) ↔ ∃ x, x ∈ l ∧ y ∈ f x.
Proof.
  induction l as [|x l IH]; cbn [map concat]; [split; [by intros ?%elem_of_nil|by intros (? & ?%elem_of_nil & _)]|].
  rewrite elem_of_app, IH. setoid_rewrite list.elem_of_cons. naive_solver.
Qed.

Lemma elem_of_kept {A} (P : A → bool) (f : A → Z) (s : gset Z) l i :
  i ∈ foldl (λ s x, if P x then {[f x]} ∪ s else s) s l ↔ i ∈ s ∨ ∃ x, x ∈ l ∧ f x = i ∧ P x = true.
Proof.
  assert (∀ s, foldl (λ (s : gset Z) x, if P x then {[f x]} ∪ s else s) s l
    = list_to_set (map f (filter (λ x, P x = true) l)) ∪ s) as ->.
  { induction l as [|x l IH]; intros s'; [set_solver|]. cbn [foldl]. rewrite IH, filter_cons.
    destruct (P x); simpl; [set_solver|done]. }
  rewrite elem_of_union, elem_of_list_to_set, list_elem_of_fmap. setoid_rewrite list_elem_of_filter. firstorder.
Qed.

(** Some of the groups hold the elements of their keys. *)
Lemma concat_some_groups `{MapOrder} {A} (f : A → Z) (P : Z → bool) l :
  concat (map snd (List.filter (λ g, P g.1) (range (GroupBy f l)))) ≡ₚ filter (λ x, P (f x) = true) l.
Proof.
  assert (∀ gs : list (Z * list A), (∀ g, g ∈ gs → ∀ x, x ∈ g.2 → f x = g.1) →
    concat (map snd (List.filter (λ g, P g.1) gs)) = filter (λ x, P (f x) = true) (concat (map snd gs))) as Hg.
  { induction gs as [|g gs IH]; intros Hk; [done|]. cbn [List.filter map concat]. rewrite list.filter_app.
    assert (filter (λ x, P (f x) = true) g.2 = if P g.1 then g.2 else []) as ->.
    { assert (Forall (λ x, f x = g.1) g.2) as Hg by (apply list.Forall_forall; apply Hk; left).
      destruct (P g.1) eqn:HP; [apply filter_all|apply filter_none]; (eapply list.Forall_impl; [exact Hg|]);
        intros x Hx; cbn in Hx; congruence. }
    rewrite <-IH by (intros g' Hg'; apply Hk; by right). by destruct (P g.1). }
  rewrite Hg.
  - rewrite range_perm. by rewrite concat_GroupBy.
  - intros [k g] Hin x Hx. rewrite range_perm in Hin. apply elem_of_map_to_list in Hin. rewrite GroupBy_lookup in Hin.
    cbv zeta in Hin. case_decide; [done|]. injection Hin as <-. cbn in *. by apply list_elem_of_filter in Hx as [? _].
Qed.

Section distribution_properties.
Context {K : Type} `{MetaKV K} `{JsonSession} `{MapOrder}.
Context `{ProtoCodec SegmentInfo} `{ProtoCodec PbFieldBinlog}.
Implicit Types (cli : K).

(** The segments of a response that the totals are about. *)
Definition counted_segments (CollectionID : Z) (resp : DataDistribution) : list SegmentVersionInfo :=
  filter (λ s, of_collection CollectionID (sv_Collection s) = true) (ds_Segments resp).

Lemma node_totals CollectionID (ids : gmap Z (ModelSegment K)) resp :
  nd_SealedNum (node_distribution CollectionID ids resp) = int64 (zlen (counted_segments CollectionID resp))
  ∧ nd_SealedRowCount (node_distribution CollectionID ids resp)
    = int64 (sum_Z (loaded_rows ids) (counted_segments CollectionID resp)).
Proof.
  unfold node_distribution. cbn [nd_SealedNum nd_SealedRowCount].
  rewrite !foldl_int64_0, !sum_Z_map. cbn [collection_rows cr_Segments cr_RowCount].
  pose proof (concat_some_groups sv_Collection (of_collection CollectionID) (ds_Segments resp)) as Hp.
  split.
  - f_equal. rewrite <-sum_Z_const1. unfold counted_segments. rewrite <-(sum_Z_perm _ _ _ Hp), sum_Z_concat.
    clear Hp. induction (List.filter _ _) as [|g gs IH]; [done|]. rewrite !sum_Z_cons, IH, sum_Z_const1. unfold zlen. by rewrite length_map.
  - apply eq64_int64. unfold counted_segments. rewrite <-(sum_Z_perm _ _ _ Hp), sum_Z_concat. apply sum_Z_eq64.
    intros g. rewrite foldl_int64_0. apply int64_eq64.
Qed.

(** The totals of [show segment-loaded-grpc] are the number of loaded segments of the nodes
    that answer, of the collection if one is given, and the sum of their rows in the
    metadata, in whatever order the nodes answer and the groups are visited. *)
Theorem Distribution_totals answer arrive cli base CollectionID NodeID segments sessions :
  (∀ l, arrive l ≡ₚ l) →
  ListSegments cli base [λ s, bool_decide (CollectionID = 0) || bool_decide (CollectionID = si_CollectionID (sg_info s))]
    = Ok segments → ListSessions cli base = Ok sessions →
  let asked := filter (λ s, ServerName s = "querynode" ∧ (NodeID = 0 ∨ ServerID s = NodeID)) sessions in
  let loaded := concat (map (λ s, match answer s with Some (Ok resp) => counted_segments CollectionID resp | _ => [] end) asked) in
  ∃ results, GetDistributionCommand answer arrive cli base CollectionID NodeID
    = Ok (results, (int64 (zlen loaded), int64 (sum_Z (loaded_rows (id_to_segment segments)) loaded))).
Proof.
  intros Ha Hs Hl asked loaded. unfold GetDistributionCommand. rewrite Hs. cbn [mbind res_bind]. rewrite Hl. cbn [mbind res_bind].
  set (ids := id_to_segment segments). set (responses := omap _ (List.filter _ sessions)). eexists. f_equal. f_equal.
  set (segs_of := λ r : Z * res DataDistribution, match r.2 with Ok resp => counted_segments CollectionID resp | _ => [] end).
  assert (concat (map segs_of responses) = loaded) as Hr.
  { unfold responses, loaded, asked. clear. induction sessions as [|s l IH]; [done|].
    cbn [List.filter]. rewrite filter_cons.
    destruct (decide (ServerName s = "querynode")) as [Hq|Hq].
    2: { rewrite (bool_decide_false (ServerName s = "querynode")), decide_False by (done || by intros [? _]). exact IH. }
    rewrite (bool_decide_true (ServerName s = "querynode")) by done.
    cbn [omap list_omap]. destruct (decide (NodeID = 0 ∨ ServerID s = NodeID)) as [Hd|Hd].
    - rewrite (decide_True (P := ServerName s = "querynode" ∧ _)) by done.
      match goal with |- context [if ?b then None else option_map _ (answer s)] => assert (b = false) as -> end.
      { apply andb_false_iff. rewrite !bool_decide_eq_false. destruct Hd as [Hd|Hd]; [left|right]; intros Hn; by apply Hn. }
      cbn [map concat]. rewrite <-IH. destruct (answer s) as [[resp| |]|]; done.
    - rewrite (decide_False (P := ServerName s = "querynode" ∧ _)) by (by intros [_ ?]).
      match goal with |- context [if ?b then None else option_map _ (answer s)] => assert (b = true) as -> end; [|exact IH].
      apply andb_true_iff. rewrite !bool_decide_eq_true. split; intros Hn; apply Hd; tauto. }
  assert (∀ rs : list (Z * res DataDistribution), ∀ a b,
    foldl (λ (total : Z * Z) (r : Z * option NodeDistribution), match r.2 with
        | Some nd => (int64 (total.1 + nd_SealedNum nd), int64 (total.2 + nd_SealedRowCount nd))
        | None => total end) (int64 a, int64 b)
      (map (λ r : Z * res DataDistribution,
        (r.1, match r.2 with Ok resp => Some (node_distribution CollectionID ids resp) | _ => None end)) rs)
    = (int64 (a + sum_Z (λ _, 1) (concat (map segs_of rs))), int64 (b + sum_Z (loaded_rows ids) (concat (map segs_of rs))))) as Hf.
  { induction rs as [|[n r] rs IH]; intros a b; [by rewrite !Z.add_0_r|]. cbn [map foldl concat snd]. unfold segs_of at 1 3. cbn [snd].
    destruct r as [resp| |]; [|apply IH..]. destruct (node_totals CollectionID ids resp) as [-> ->]. cbn [fst snd].
    assert (∀ x y, int64 (int64 x + int64 y) = int64 (x + y)) as Hw.
    { intros x y. apply eq64_int64. by rewrite !int64_eq64. }
    rewrite !Hw, IH, !sum_Z_app, !sum_Z_const1, !Z.add_assoc. done. }
  specialize (Hf (arrive responses) 0 0). change (int64 0) with 0 in Hf. rewrite Hf. cbn [Z.add].
  assert (concat (map segs_of (arrive responses)) ≡ₚ loaded) as Hp by (by rewrite <-Hr, Ha).
  by rewrite sum_Z_const1, (sum_Z_perm _ _ _ Hp), <-!sum_Z_const1, (sum_Z_perm _ _ _ Hp).
Qed.

Section json_stats.
Context `{JSONStatsField}.

(** The expected segments are split into those that a query node has loaded and the others. *)
Theorem LoadedJSONStats_spec answer cli meta CollectionID SegmentID FieldID unbuilt segments sessions loadedCnt expected missing :
  ListSegments cli meta [λ s, stats_expected CollectionID SegmentID FieldID unbuilt (sg_info s)] = Ok segments →
  ListServers cli meta "querynode" = Ok sessions →
  LoadedJSONStatsCommand answer cli meta CollectionID SegmentID FieldID unbuilt = Ok (Some (loadedCnt, expected, missing)) →
  let ids := map (λ s, si_ID (sg_info s)) segments in
  let loaded id := ∃ s resp seg, s ∈ sessions ∧ answer s = Some (Ok resp) ∧ seg ∈ ds_Segments resp
                     ∧ sv_ID seg = id ∧ stats_loaded CollectionID SegmentID FieldID seg = true in
  expected = Z.of_nat (size (list_to_set ids : gset Z)) ∧ loadedCnt + zlen missing = expected ∧ NoDup missing
  ∧ (∀ id, id ∈ missing ↔ id ∈ ids ∧ ¬ loaded id).
Proof.
  intros Hs Hl Hr ids loaded. unfold LoadedJSONStatsCommand in Hr. rewrite Hs in Hr. cbn [mbind res_bind] in Hr.
  rewrite Hl in Hr. cbn [mbind res_bind] in Hr. case_bool_decide; [done|].
  set (exp := foldl _ (∅ : gmap Z unit) segments) in Hr.
  set (ld := foldl _ (∅ : gset Z) _) in Hr. case_bool_decide; [done|].
  assert (dom exp = list_to_set ids) as Hd.
  { unfold exp, ids. clear.
    assert (∀ m : gmap Z unit, dom (foldl (λ m (s : ModelSegment K), <[si_ID (sg_info s) := tt]> m) m segments)
      = dom m ∪ list_to_set (map (λ s, si_ID (sg_info s)) segments)) as Hm; [|by rewrite Hm, dom_empty_L, (left_id_L ∅ (∪))].
    induction segments as [|s l IH]; intros m; cbn [foldl map list_to_set]; [set_solver|].
    rewrite IH, dom_insert_L. set_solver. }
  assert (∀ id, id ∈ ld ↔ loaded id) as Hld.
  { intros id. unfold ld, loaded.
    rewrite (elem_of_kept (stats_loaded CollectionID SegmentID FieldID) sv_ID).
    setoid_rewrite elem_of_concat_map. split.
    - intros [?|(seg & (s & Hs' & Hin) & Hid & Hst)]; [set_solver|].
      destruct (answer s) as [[resp| |]|] eqn:Ha; [|by apply elem_of_nil in Hin..]. by exists s, resp, seg.
    - intros (s & resp & seg & Hs' & Ha & Hin & Hid & Hst). right. exists seg. split; [|done]. exists s. by rewrite Ha. }
  assert (∀ l n miss, foldl (λ (st : Z * list Z) segID, if bool_decide (segID ∈ ld) then (st.1 + 1, st.2) else (st.1, st.2 ++ [segID]))
      (n, miss) l = (n + zlen (filter (λ i, i ∈ ld) l), miss ++ filter (λ i, i ∉ ld) l)) as Hf.
  { unfold zlen. induction l as [|i l IH]; intros n miss; cbn [foldl]; [by rewrite Z.add_0_r, app_nil_r|].
    rewrite !filter_cons. case_bool_decide as Hi; rewrite IH; cbn [fst snd].
    - rewrite decide_True, decide_False by tauto. cbn [length]. f_equal. lia.
    - rewrite decide_False, decide_True by done. by rewrite <-app_assoc. }
  rewrite Hf in Hr. injection Hr as <- <- <-. cbn [app Z.add].
  set (keys := map fst (range exp)).
  assert (keys ≡ₚ elements (list_to_set ids : gset Z)) as Hk.
  { unfold keys. rewrite range_perm, <-Hd. apply NoDup_Permutation; [apply NoDup_fst_map_to_list|apply NoDup_elements|].
    intros i. rewrite elem_of_elements, elem_of_dom, list_elem_of_fmap. split.
    - intros ([k v] & -> & Hkv%elem_of_map_to_list). by exists v.
    - intros [v Hv]. exists (i, v). by rewrite elem_of_map_to_list. }
  assert (NoDup keys) as Hn by (rewrite Hk; apply NoDup_elements).
  assert (size exp = size (list_to_set ids : gset Z)) as Hsz by (by rewrite <-Hd, size_dom).
  split_and!.
  - by rewrite Hsz.
  - assert (length keys = size exp) as <- by (rewrite Hk, Hsz; done). clear. unfold zlen.
    induction keys as [|i l IH]; [done|]. rewrite !filter_cons. repeat case_decide; try tauto; cbn [length]; lia.
  - by apply list.NoDup_filter.
  - intros id. rewrite list_elem_of_filter, Hk, elem_of_elements, elem_of_list_to_set, Hld. tauto.
Qed.
End json_stats.
End distribution_properties.

(** ** Witnesses: one query node, with a stored segment, one that is not stored, and one of
    another collection *)
#[local] Instance dist_segment_codec : ProtoCodec SegmentInfo :=
  table_codec [("seg9", MkSegmentInfo 9 1 2 "dml_0_1v0" 5000 SegmentState_Flushed None None [] [] [] "")].
#[local] Instance dist_session_codec : JsonSession :=
  {| session_Marshal _ := Ok []; session_Unmarshal _ := Ok node_session |}.
#[local] Instance dist_stats : JSONStatsField := {| si_JsonKeyStats _ := {[101 := MkKeyStats 1 [] 0 7 1]} |}.
Definition dist_answer : Session → option (res DataDistribution) :=
  λ _, Some (Ok (MkDistribution 4 [] [MkSegmentVersion 9 1 [] "c" 2 1 {[101 := "stats"]}; MkSegmentVersion 10 1 [] "c" 2 1 ∅;
                                      MkSegmentVersion 11 3 [] "d" 2 1 ∅] [])).
Definition dist_store : etcdKV (gmap string string) :=
  etcd_store [("by-dev/datacoord-meta/s/1/2/9", "seg9"); ("by-dev/session/querynode-4", "{}")].

Lemma Distribution_totals_witness :
  ∃ results, GetDistributionCommand dist_answer (@rev _) dist_store "by-dev" 1 0 = Ok (results, (2, 5000)).
Proof.
  assert ((segments ← ListSegments dist_store "by-dev"
             [λ s, bool_decide (1 = 0) || bool_decide (1 = si_CollectionID (sg_info s))]; Ok (map sg_info segments))
    = Ok [MkSegmentInfo 9 1 2 "dml_0_1v0" 5000 SegmentState_Flushed None None [] [] [] ""])
    as Hall by (vm_compute; reflexivity).
  apply res_bind_Ok in Hall as (segments & Hl & Hinfos). injection Hinfos as Hinfos.
  destruct segments as [|s [|]]; [discriminate Hinfos| |discriminate Hinfos]. injection Hinfos as Hinfo.
  destruct (Distribution_totals dist_answer (@rev _) dist_store "by-dev" 1 0 [s]
    [SetKey node_session "by-dev/session/querynode-4"]) as [results Hr].
  - intros l. symmetry. apply Permutation_rev.
  - exact Hl.
  - vm_compute. reflexivity.
  - exists results. rewrite Hr. unfold id_to_segment. cbn [foldl]. rewrite Hinfo. cbn [si_ID].
    assert (∀ seg, loaded_rows (<[9:=s]> ∅) seg = if decide (9 = sv_ID seg) then 5000 else 0) as Hrows.
    { intros seg. unfold loaded_rows. destruct (decide (9 = sv_ID seg)) as [<-|Hne].
      - rewrite lookup_insert_eq, Hinfo. reflexivity.
      - rewrite lookup_insert_ne by exact Hne. reflexivity. }
    set (l := concat _).
    assert (l = [MkSegmentVersion 9 1 [] "c" 2 1 {[101 := "stats"]}; MkSegmentVersion 10 1 [] "c" 2 1 ∅]) as ->
      by (vm_compute; reflexivity).
    unfold sum_Z. cbn [foldr]. rewrite !Hrows. vm_compute. reflexivity.
Defined.

Lemma LoadedJSONStats_spec_witness :
  LoadedJSONStatsCommand dist_answer dist_store "by-dev" 1 0 0 false = Ok (Some (1, 1, [])) ∧ NoDup (A:=Z) [].
Proof.
  assert ((segments ← ListSegments dist_store "by-dev" [λ s, stats_expected 1 0 0 false (sg_info s)]; Ok (map sg_info segments))
    = Ok [MkSegmentInfo 9 1 2 "dml_0_1v0" 5000 SegmentState_Flushed None None [] [] [] ""])
    as Hall by (vm_compute; reflexivity).
  apply res_bind_Ok in Hall as (segments & Hl & Hinfos).
  assert (LoadedJSONStatsCommand dist_answer dist_store "by-dev" 1 0 0 false = Ok (Some (1, 1, []))) as Hr
    by (vm_compute; reflexivity).
  split; [exact Hr|].
  refine (proj1 (proj2 (proj2 (LoadedJSONStats_spec dist_answer dist_store "by-dev" 1 0 0 false segments
    [SetKey node_session "by-dev/session/querynode-4"] 1 1 [] Hl _ Hr)))).
  vm_compute. reflexivity.
Defined.
