(* ===== verification/Stats.v ===== *)
(** * Statistics of nodes and of JSON keys

    Models [states/jemalloc_stats.go], the memory statistics of the nodes; [states/pprof.go],
    the archive of their profiles; and [states/etcd/show/json_stats.go], the statistics of
    JSON keys that the metadata and the files of a segment hold. *)

From S2P Require Export PartitionKey ObjectStore Distribution.

(** ** [jemalloc_stats.go] *)
Record jemallocStats := MkJemalloc {
  js_success : bool;
  js_allocated : Z;
  js_active : Z;
  js_metadata : Z;
  js_resident : Z;
  js_mapped : Z;
  js_retained : Z;
  js_memoryUsage : Z;
  js_memory : Z;
  js_rawJSON : string;
}.

(** The metrics of a node, and [encoding/json] of its answer: the numbers, and the indented
    object if it is one. *)
Class JemallocSource (C : Type) := {
  node_GetMetrics : service → C → res string;
  metrics_Unmarshal : string → res jemallocStats;
  json_Indent : string → option string;
}.

Definition with_raw (stats : jemallocStats) (raw : string) : jemallocStats :=
  MkJemalloc (js_success stats) (js_allocated stats) (js_active stats) (js_metadata stats) (js_resident stats)
    (js_mapped stats) (js_retained stats) (js_memoryUsage stats) (js_memory stats) raw.

Definition metrics_client (name : string) : option service :=
  if bool_decide (name = "querynode") then Some QueryNodeClient
  else if bool_decide (name = "querycoord") || bool_decide (name = "mixcoord") then Some QueryCoordClient
  else if bool_decide (name = "datanode") then Some DataNodeClient
  else if bool_decide (name = "datacoord") then Some DataCoordClient
  else if bool_decide (name = "rootcoord") then Some RootCoordClient
  else None.

(** [formatBytes]: the number and its unit; the loop leaves off after dividing by 1024 for
    the last unit too. *)
Fixpoint format_units (size : float64) (units : list string) : float64 * string :=
  match units with
  | [] => (size, "PB")
  | unit :: units =>
      if f_lt size (float64_of 1024) then (size, unit) else format_units (f_div size (float64_of 1024)) units
  end.
Definition formatBytes (sizeBytes : Z) : float64 * string :=
  if bool_decide (sizeBytes = 0) then (float64_of 0, "B")
  else format_units (float64_of sizeBytes) ["B"; "KB"; "MB"; "GB"; "TB"; "PB"].

(** The two percentages; the differences are of unsigned integers. *)
Definition percent_of (a b : Z) (active : Z) : float64 :=
  if bool_decide (0 < active)
  then f_mul (f_div (float64_of (uint64 (a - b))) (float64_of active)) (float64_of 100)
  else float64_of 0.
Definition fragmentationPercent (s : jemallocStats) : float64 := percent_of (js_active s) (js_allocated s) (js_active s).
Definition overheadPercent (s : jemallocStats) : float64 := percent_of (js_resident s) (js_active s) (js_active s).

(** What is printed of a node. *)
Inductive JemallocReport :=
  | JError
  | JRaw (json : string)
  | JTable (sizes : list (float64 * string)) (fragmentation overhead : float64)
  | JMemory (usage_total : option ((float64 * string) * (float64 * string))).

Section jemalloc.
Context {K C : Type} `{MetaKV K} `{JsonSession} `{Network C} `{JemallocSource C} `{StringMapOrder}.

Definition fetchJemallocStats (session : Session) (full : bool) : res jemallocStats :=
  conn ← grpc_Dial (C:=C) None (Address session);
  match metrics_client (ServerName session) with
  | None => Err (Errorf "unsupported server type")
  | Some client =>
      respStr ← node_GetMetrics client conn;
      if bool_decide (respStr = "") then Err (Errorf "empty response from GetMetrics")
      else
        stats ← metrics_Unmarshal respStr;
        Ok (with_raw stats (if full then default respStr (json_Indent respStr) else ""))
  end.

Definition jemalloc_report (full : bool) (r : res jemallocStats) : JemallocReport :=
  match r with
  | Ok s =>
      if full then JRaw (js_rawJSON s)
      else if js_success s then
        JTable (map formatBytes [js_allocated s; js_active s; js_metadata s; js_resident s; js_mapped s; js_retained s])
          (fragmentationPercent s) (overheadPercent s)
      else JMemory (if bool_decide (0 < js_memoryUsage s) || bool_decide (0 < js_memory s)
                    then Some (formatBytes (js_memoryUsage s), formatBytes (js_memory s)) else None)
  | _ => JError
  end.

Definition jemalloc_key (session : Session) : string := FormatInt (ServerID session) +:+ "-" +:+ ServerName session.

(** One goroutine per group asks its first session; [arrive] is the order of the results. *)
Definition JemallocStatsCommand (arrive : list (Session * JemallocReport) → list (Session * JemallocReport))
    (cli : K) (basePath : string) (Full : bool) (NodeType : string) : res (list (Session * JemallocReport)) :=
  sessions ← ListSessions cli basePath;
  let sessions := if bool_decide (NodeType ≠ "")
                  then List.filter (λ s, bool_decide (ServerName s = NodeType)) sessions else sessions in
  if bool_decide (zlen sessions = 0) then Ok []
  else Ok (arrive (omap (M:=list) (λ group : string * list Session,
              match group.2 with
              | [] => None
              | session :: _ => Some (session, jemalloc_report Full (fetchJemallocStats session Full))
              end) (string_range (GroupBy jemalloc_key sessions)))).
End jemalloc.

(** ** [pprof.go] *)
Section pprof.
Context {K C : Type} `{MetaKV K} `{JsonSession} `{Network C} `{MapOrder}.

Definition pprof_types : list string := ["goroutine"; "heap"; "profile"; "allocs"; "block"; "mutex"].

(** The entry of the archive for the sessions of one server; without an answer it is empty. *)
Definition pprof_entry (Type_ : string) (Port : Z) (sessions : list Session) : option (string * string) :=
  match sessions with
  | [] => None
  | session :: _ =>
      let serverName := if bool_decide (1 < zlen sessions) then "mixture" else ServerName session in
      Some (serverName +:+ "_" +:+ FormatInt (ServerID session) +:+ "_" +:+ Type_,
            match http_Get ("http://" +:+ session_IP session +:+ ":" +:+ FormatInt Port +:+ "/debug/pprof/" +:+ Type_ +:+ "?debug=0") with
            | Ok bs => bs
            | _ => ""
            end)
  end.
Definition GetPprofCommand (arrive : list (string * string) → list (string * string)) (cli : K) (basePath : string)
    (Type_ : string) (Port : Z) : res (list (string * string)) :=
  if bool_decide (Type_ ∈ pprof_types) then
    sessions ← ListSessions cli basePath;
    Ok (arrive (omap (M:=list) (λ group, pprof_entry Type_ Port group.2) (range (GroupBy ServerID sessions))))
  else Err (Errorf "invalid pprof metric type provided").
End pprof.

(** ** [json_stats.go] *)
Record jsonStatsMeta := MkStatsMeta {
  jm_Version : string;
  jm_NumRows : Z;
  jm_NumShreddingColumns : Z;
  jm_LayoutTypeMap : option (gmap string string);
}.
Record ParquetFile := MkParquetFile {
  pf_Schema : res (list string);
  pf_Metadata : list (string * option string);   (* the keys and their values *)
}.

(** The objects of a bucket: what the parts of it hold, the first one under a prefix, one
    read as a Parquet file, and [encoding/json] of two of the texts. *)
Class StatsStore (S : Type) := {
  so_Range : S → string → string → Z → Z → res (list byte);
  so_First : S → string → string → option (res ObjectInfo);
  so_ReadAll : S → string → string → res string;
  so_Parquet : S → string → string → res ParquetFile;
  statsMeta_Unmarshal : string → res jsonStatsMeta;
  layout_Unmarshal : string → res (gmap string string);
}.

Inductive FooterReport :=
  | FooterStatFailed (key : string)
  | FooterTooSmall (size : Z) (key : string)
  | FooterReadFailed (key : string)
  | Footer (meta_len : Z) (magic : list byte) (key : string).

(** The keys that are printed, those of the shared kind first, and the counts. *)
Record LayoutReport := MkLayout {
  lr_SharedKeys : option (list string);
  lr_NonSharedKeys : list string;
  lr_Shared : Z;
  lr_Total : Z;
}.
Inductive ParquetLine :=
  | SchemaFailed
  | SchemaElements (names : list string)
  | MetaEntries (n : Z)
  | RowGroups (n : Z)
  | MetadataItem (i : Z) (key val : string)
  | LayoutInvalid
  | LayoutLine (r : LayoutReport).

(** What is printed of the statistics of a field; [fr_Files] when the objects are read. *)
Inductive FilesReport :=
  | FromMeta (version : string) (rows columns : Z) (layout : option LayoutReport)
  | FromParquet (footer : FooterReport) (lines : option (list ParquetLine)).
Record FieldReport := MkFieldReport { fr_FieldID : Z; fr_Stats : JSONKeyStats; fr_Files : option FilesReport }.

Section json_stats.
Context {K C S : Type} `{MetaKV K} `{JsonSession} `{Network C} `{Oss S} `{StatsStore S}.
Context `{MapOrder} `{StringMapOrder} `{SegmentFields} `{JSONStatsField} `{EnumStrings}.
Context `{ProtoCodec SegmentInfo} `{ProtoCodec PbFieldBinlog}.

(** The footer: the length of the metadata and the magic. *)
Definition footer_of (buf : list byte) (key : string) : FooterReport :=
  Footer (uint32 (le_get (take 4 buf))) (drop 4 buf) key.
Definition read_footer (client : S) (bucket key : string) (size : Z) : FooterReport :=
  match so_Range client bucket key (size - 8) (size - 1) with
  | Ok buf => if bool_decide (zlen buf = 8) then footer_of buf key else FooterReadFailed key
  | _ => FooterReadFailed key
  end.
Definition readParquetFooterSummary (client : S) (bucket key : string) : FooterReport :=
  let under_prefix :=
    let prefix := if HasSuffix key "/" then key else key +:+ "/" in
    match so_First client bucket prefix with
    | Some (Ok objInfo) =>
        if bool_decide (oi_Size objInfo < 8) then FooterTooSmall (oi_Size objInfo) (oi_Key objInfo)
        else read_footer client bucket (oi_Key objInfo) (oi_Size objInfo)
    | _ => FooterStatFailed key
    end in
  match StatObject client bucket key with
  | Ok stat => if bool_decide (oi_Size stat < 8) then under_prefix else read_footer client bucket key (oi_Size stat)
  | _ => under_prefix
  end.

Definition key_shown (KeyPrefix k : string) : bool := negb (bool_decide (KeyPrefix ≠ "") && negb (HasPrefix k KeyPrefix)).
Definition printLayoutTypeMap (mm : gmap string string) (KeyPrefix : string) (PrintShared : bool) : LayoutReport :=
  let '(nonSharedKeys, sharedCount) := foldl (λ st kv,
        if negb (key_shown KeyPrefix kv.1) then st
        else if bool_decide (kv.2 = "SHARED") then (st.1, st.2 + 1) else (st.1 ++ [kv.1], st.2))
        ([], 0) (string_range mm) in
  MkLayout
    (if PrintShared then
       Some (map fst (List.filter (λ kv, key_shown KeyPrefix kv.1 && bool_decide (kv.2 = "SHARED")) (string_range mm)))
     else None)
    nonSharedKeys sharedCount (sharedCount + zlen nonSharedKeys).

(** [None]: the file with the description is not there, or cannot be read. *)
Definition readJSONMeta (client : S) (bucket metaKey KeyPrefix : string) (PrintShared : bool) : option FilesReport :=
  match so_ReadAll client bucket metaKey with
  | Ok data =>
      match statsMeta_Unmarshal data with
      | Ok meta => Some (FromMeta (jm_Version meta) (jm_NumRows meta) (jm_NumShreddingColumns meta)
                          (option_map (λ mm, printLayoutTypeMap mm KeyPrefix PrintShared) (jm_LayoutTypeMap meta)))
      | _ => None
      end
  | _ => None
  end.

Definition row_groups (val : string) : Z :=
  foldl (λ cnt p, if bool_decide (TrimSpace p ≠ "") then cnt + 1 else cnt) 0 (Split ";" val).
Definition metadata_line (i : Z) (kv : string * option string) : list ParquetLine :=
  let val := default "" kv.2 in
  if bool_decide (kv.1 = "key_layout_type_map") then []
  else if bool_decide (kv.1 = "row_group_metadata") then [RowGroups (row_groups val)]
  else [MetadataItem i kv.1 val].
Definition readParquetMeta (client : S) (bucket key KeyPrefix : string) (ShowSchema PrintShared : bool)
    : option (list ParquetLine) :=
  match so_Parquet client bucket key with
  | Ok f =>
      let kvMetaData := pf_Metadata f in
      let lines :=
        (if bool_decide (0 < zlen kvMetaData)
         then MetaEntries (zlen kvMetaData) :: concat (imap (λ i kv, metadata_line (Z.of_nat i) kv) kvMetaData) else [])
        ++ match List.find (λ kv, bool_decide (kv.1 = "key_layout_type_map")) kvMetaData with
           | Some (_, Some v) =>
               match layout_Unmarshal v with
               | Ok mm => [LayoutLine (printLayoutTypeMap mm KeyPrefix PrintShared)]
               | _ => [LayoutInvalid]
               end
           | _ => []
           end in
      if ShowSchema then
        match pf_Schema f with
        | Ok se => Some ((if bool_decide (0 < zlen se) then [SchemaElements se] else []) ++ lines)
        | _ => Some [SchemaFailed]
        end
      else Some lines
  | _ => None
  end.

(** The keys of the files of a field's statistics. *)
Definition stats_path (keyStats : JSONKeyStats) (seg : SegmentInfo) (fieldID : Z) (file : string) : string :=
  "ROOT_PATH/json_stats/" +:+ FormatInt (ks_DataFormat keyStats) +:+ "/" +:+ FormatInt (ks_BuildID keyStats)
  +:+ "/" +:+ FormatInt (ks_Version keyStats) +:+ "/" +:+ FormatInt (si_CollectionID seg)
  +:+ "/" +:+ FormatInt (si_PartitionID seg) +:+ "/" +:+ FormatInt (si_ID seg) +:+ "/" +:+ FormatInt fieldID +:+ "/" +:+ file.
Definition stats_key (rootPath : string) (keyStats : JSONKeyStats) (seg : SegmentInfo) (fieldID : Z) (file : string) : string :=
  ReplaceAll (stats_path keyStats seg fieldID file) "ROOT_PATH" rootPath.

Record JSONStatsParam := MkJSONStatsParam {
  jp_CollectionID : Z; jp_PartitionID : Z; jp_SegmentID : Z; jp_FieldID : Z; jp_State : string;
  jp_Detail : bool; jp_ShowSchema : bool; jp_KeyPrefix : string; jp_PrintShared : bool;
}.
Definition json_stats_filter (p : JSONStatsParam) (segment : SegmentInfo) : bool :=
  (bool_decide (jp_CollectionID p = 0) || bool_decide (si_CollectionID segment = jp_CollectionID p))
  && (bool_decide (jp_PartitionID p = 0) || bool_decide (si_PartitionID segment = jp_PartitionID p))
  && (bool_decide (jp_SegmentID p = 0) || bool_decide (si_ID segment = jp_SegmentID p))
  && (bool_decide (jp_State p = "") || EqualFold (SegmentState_String (si_State segment)) (jp_State p)).

Definition read_stats (p : JSONStatsParam) (oss : S * string * string) (seg : SegmentInfo) (fieldID : Z) (keyStats : JSONKeyStats)
    : FilesReport :=
  let '(mclient, bucketName, rootPath) := oss in
  let objKey := stats_key rootPath keyStats seg fieldID "shredding_data/0/0" in
  match readJSONMeta mclient bucketName (stats_key rootPath keyStats seg fieldID "meta.json") (jp_KeyPrefix p) (jp_PrintShared p) with
  | Some r => r
  | None => FromParquet (readParquetFooterSummary mclient bucketName objKey)
              (readParquetMeta mclient bucketName objKey (jp_KeyPrefix p) (jp_ShowSchema p) (jp_PrintShared p))
  end.

(** The client of the object storage is made when it is first needed, and again as long as
    that failed. *)
Definition stats_client (cli : K) (metaPath : string) (oss : option (S * string * string)) : res (option (S * string * string)) :=
  match oss with
  | Some _ => Ok oss
  | None => match ossutil_GetMinioClientFromCfg (C:=C) cli metaPath [] with
            | Ok o => Ok (Some o)
            | Err _ => Ok None
            | Panic w => Panic w
            end
  end.
Definition stats_field (p : JSONStatsParam) (cli : K) (metaPath : string) (seg : SegmentInfo)
    (st : option (S * string * string) * list FieldReport) (kv : Z * JSONKeyStats)
    : res (option (S * string * string) * list FieldReport) :=
  if bool_decide (jp_FieldID p ≠ 0) && bool_decide (jp_FieldID p ≠ kv.1) then Ok st
  else if jp_Detail p then
    oss ← stats_client cli metaPath st.1;
    Ok (oss, st.2 ++ [MkFieldReport kv.1 kv.2 (option_map (λ o, read_stats p o seg kv.1 kv.2) oss)])
  else Ok (st.1, st.2 ++ [MkFieldReport kv.1 kv.2 None]).

Record JSONStatsResult := MkStatsResult {
  jr_Total : Z;
  jr_Built : Z;
  jr_NotBuilt : list Z;
  jr_Segments : list (Z * list FieldReport);
}.
Definition stats_segment (p : JSONStatsParam) (cli : K) (metaPath : string)
    (seg : ModelSegment K) (st : option (S * string * string) * JSONStatsResult)
    : res (option (S * string * string) * JSONStatsResult) :=
  let info := sg_info seg in
  let '(oss, r) := st in
  if negb (stats_built (jp_FieldID p) info) then
    Ok (oss, MkStatsResult (jr_Total r + 1) (jr_Built r) (jr_NotBuilt r ++ [si_ID info]) (jr_Segments r))
  else
    '(oss, fields) ← foldM (λ kv st, stats_field p cli metaPath info st kv) (range (si_JsonKeyStats info)) (oss, []);
    Ok (oss, MkStatsResult (jr_Total r + 1) (jr_Built r + 1) (jr_NotBuilt r) (jr_Segments r ++ [(si_ID info, fields)])).
(** [None]: the segments cannot be listed, or there is none. *)
Definition JSONStatsCommand (p : JSONStatsParam) (cli : K) (metaPath : string) : res (option JSONStatsResult) :=
  match ListSegments cli metaPath [λ s, json_stats_filter p (sg_info s)] with
  | Err _ => Ok None
  | Panic w => Panic w
  | Ok segments =>
      if bool_decide (zlen segments = 0) then Ok None
      else
        '(_, r) ← foldM (stats_segment p cli metaPath) segments (None, MkStatsResult 0 0 [] []);
        Ok (Some r)
  end.
End json_stats.

(** ** Properties *)
(** The groups of [lo.GroupBy] are those of the elements that [lo.UniqBy] keeps, the first
    of each key. *)
Lemma elem_of_lo_UniqBy {A B} `{Countable B} (f : A → B) seen l x :
  x ∈ lo_UniqBy f seen l ↔ f x ∉ seen ∧ head (filter (λ y, f y = f x) l) = Some x.
Proof.
  revert seen. induction l as [|a l IH]; intros seen; cbn [lo_UniqBy].
  { rewrite elem_of_nil. naive_solver. }
  destruct (decide (f a = f x)) as [Heq|Hne].
  - rewrite filter_cons_True by done. case_bool_decide as Hs; rewrite ?list.elem_of_cons, IH; cbn [head].
    + split; [intros [Hn _]; congruence|intros [Hn _]; congruence].
    + split; [intros [->|[Hn _]]; [done|set_solver]|]. intros [_ [= ->]]. by left.
  - rewrite filter_cons_False by done. case_bool_decide as Hs; rewrite ?list.elem_of_cons, IH; [done|].
    split; [intros [->|?]; [done|set_solver]|]. intros [Hn Hh]. right. split; [set_solver|done].
Qed.

Lemma GroupBy_groups {A B} `{Countable B} (f : A → B) l :
  map_to_list (GroupBy f l) ≡ₚ map (λ x, (f x, filter (λ y, f y = f x) l)) (lo_UniqBy f ∅ l).
Proof.
  apply NoDup_Permutation; [apply NoDup_map_to_list| |].
  { apply (NoDup_fmap_1 fst). change (NoDup (map fst (map (λ x, (f x, filter (λ y, f y = f x) l)) (lo_UniqBy f ∅ l)))).
    rewrite map_map. cbn [fst]. apply lo_UniqBy_NoDup. }
  intros [k g]. rewrite elem_of_map_to_list, GroupBy_lookup. cbv zeta. rewrite list_elem_of_fmap. split.
  - destruct (decide (filter (λ x, f x = k) l = [])) as [|Hne]; [discriminate|]. intros [= <-].
    destruct (filter (λ x, f x = k) l) as [|x g] eqn:Hg; [done|].
    assert (x ∈ filter (λ x, f x = k) l) as [Hx _]%list_elem_of_filter by (rewrite Hg; left). subst k.
    exists x. rewrite Hg. split; [done|]. rewrite elem_of_lo_UniqBy, Hg. split; [apply not_elem_of_empty|done].
  - intros (x & [= -> ->] & [_ Hh]%elem_of_lo_UniqBy). rewrite decide_False; [done|]. intros He. by rewrite He in Hh.
Qed.

Lemma omap_groups {A B R} `{Countable B} (f : A → B) (h : list A → option R) (r : A → R) l gs :
  gs ≡ₚ map_to_list (GroupBy f l) →
  (∀ x, x ∈ lo_UniqBy f ∅ l → h (filter (λ y, f y = f x) l) = Some (r x)) →
  omap (M:=list) (λ g : B * list A, h g.2) gs ≡ₚ map r (lo_UniqBy f ∅ l).
Proof.
  intros -> Hh. rewrite GroupBy_groups. induction (lo_UniqBy f ∅ l) as [|x u IH]; [done|].
  change (omap (M:=list) (λ g : B * list A, h g.2) ((f x, filter (λ y, f y = f x) l)
    :: map (λ x, (f x, filter (λ y, f y = f x) l)) u) ≡ₚ r x :: map r u).
  cbn [omap list_omap snd]. rewrite Hh by left. apply Permutation_skip. apply IH. intros y Hy. apply Hh. by right.
Qed.

Section node_stats_properties.
Context {K C : Type} `{MetaKV K} `{JsonSession} `{Network C} `{JemallocSource C} `{MapOrder} `{StringMapOrder}.
Implicit Types (cli : K).

(** [jemalloc-stats] prints one report for each server identifier and name, that of the
    first session with them, whatever the order in which the nodes answer. *)
Theorem Jemalloc_spec arrive cli base Full NodeType sessions :
  (∀ l, arrive l ≡ₚ l) → ListSessions cli base = Ok sessions →
  ∃ results, JemallocStatsCommand (C:=C) arrive cli base Full NodeType = Ok results
    ∧ results ≡ₚ map (λ s, (s, jemalloc_report Full (fetchJemallocStats (C:=C) s Full)))
        (lo_UniqBy jemalloc_key ∅ (filter (λ s, NodeType = "" ∨ ServerName s = NodeType) sessions)).
Proof.
  intros Ha Hs. unfold JemallocStatsCommand. rewrite Hs. cbn [mbind res_bind].
  set (l := filter _ sessions).
  assert ((if bool_decide (NodeType ≠ "") then List.filter (λ s, bool_decide (ServerName s = NodeType)) sessions else sessions) = l) as ->.
  { subst l. case_bool_decide as Hn.
    - apply List_filter_iff. intros s. rewrite bool_decide_eq_true. tauto.
    - rewrite Hn. symmetry. apply filter_all. apply list.Forall_forall. by left. }
  case_bool_decide as Hz.
  - assert (l = []) as -> by (destruct l; [done|unfold zlen in Hz; cbn in Hz; lia]). by exists [].
  - eexists. split; [reflexivity|]. rewrite Ha.
    apply (omap_groups jemalloc_key (λ g, match g with [] => None | s :: _ => Some (s, jemalloc_report Full (fetchJemallocStats (C:=C) s Full)) end));
      [apply string_range_perm|].
    intros x [_ Hx]%elem_of_lo_UniqBy. destruct (filter _ l); [done|]. by injection Hx as ->.
Qed.

(** [pprof] archives one entry for each server identifier.  It is named after the first
    session with it, or [mixture] if there are several, and it holds what that session's
    node answers, nothing if it does not. *)
Theorem Pprof_spec arrive cli base Type_ Port sessions :
  (∀ l, arrive l ≡ₚ l) → Type_ ∈ pprof_types → ListSessions cli base = Ok sessions →
  ∃ results, GetPprofCommand (C:=C) arrive cli base Type_ Port = Ok results
    ∧ results ≡ₚ map (λ s,
        ((if decide (1 < zlen (filter (λ s', ServerID s' = ServerID s) sessions)) then "mixture" else ServerName s)
           +:+ "_" +:+ FormatInt (ServerID s) +:+ "_" +:+ Type_,
         match http_Get ("http://" +:+ session_IP s +:+ ":" +:+ FormatInt Port +:+ "/debug/pprof/" +:+ Type_ +:+ "?debug=0") with
         | Ok bs => bs | _ => "" end))
        (lo_UniqBy ServerID ∅ sessions).
Proof.
  intros Ha Ht Hs. unfold GetPprofCommand. rewrite bool_decide_true, Hs by done. cbn [mbind res_bind].
  eexists. split; [reflexivity|]. rewrite Ha.
  apply (omap_groups ServerID (pprof_entry (C:=C) Type_ Port)); [apply range_perm|].
  intros x [_ Hx]%elem_of_lo_UniqBy. destruct (filter _ sessions) as [|y g]; [done|]. injection Hx as ->.
  cbn [pprof_entry]. destruct (decide (1 < zlen (x :: g))); [rewrite bool_decide_true by done|rewrite bool_decide_false by done]; done.
Qed.
End node_stats_properties.

(** [formatBytes] of a power of two: the power modulo 10 with the unit of the quotient; from
    2^60 on the number is divided once more and the unit stays [PB]. *)
Theorem formatBytes_powers k :
  0 ≤ k < 64 →
  formatBytes (2 ^ k) = (float64_of (2 ^ (k `mod` 10)), nth (Z.to_nat (k / 10)) ["B"; "KB"; "MB"; "GB"; "TB"; "PB"] "PB").
Proof.
  intros Hk.
  assert (Forall (λ k, formatBytes (2 ^ k)
    = (float64_of (2 ^ (k `mod` 10)), nth (Z.to_nat (k / 10)) ["B"; "KB"; "MB"; "GB"; "TB"; "PB"] "PB")) (seqZ 0 64)) as Hall.
  { repeat (constructor; [vm_compute; reflexivity|]). constructor. }
  rewrite list.Forall_forall in Hall. apply Hall, elem_of_seqZ. lia.
Qed.

(** When more is allocated than is active, the difference wraps around: the fragmentation is
    then shown as more than 4 * 10^17 percent. *)
Lemma fragmentation_wraps :
  f_gt (fragmentationPercent (MkJemalloc true 4097 4096 0 0 0 0 0 0 "")) (float64_of (4 * 10 ^ 17)) = true.
Proof. vm_compute. reflexivity. Qed.

(** *** Statistics of JSON keys *)
Section layout_properties.
Context `{StringMapOrder}.

Lemma layout_loop KeyPrefix l a n :
  foldl (λ (st : list string * Z) (kv : string * string),
        if negb (key_shown KeyPrefix kv.1) then st
        else if bool_decide (kv.2 = "SHARED") then (st.1, st.2 + 1) else (st.1 ++ [kv.1], st.2)) (a, n) l
  = (a ++ map fst (filter (λ kv, key_shown KeyPrefix kv.1 = true ∧ kv.2 ≠ "SHARED") l),
     n + zlen (filter (λ kv, key_shown KeyPrefix kv.1 = true ∧ kv.2 = "SHARED") l)).
Proof.
  revert a n. induction l as [|[k v] l IH]; intros a n; cbn [foldl].
  { by rewrite app_nil_r, Z.add_0_r. }
  destruct (key_shown KeyPrefix (k, v).1) eqn:Hk; cbn [negb]; [case_bool_decide as Hv|]; rewrite IH.
  - rewrite filter_cons_False, (filter_cons_True _ (k, v)) by tauto. unfold zlen. cbn [fst snd length]. f_equal. lia.
  - rewrite filter_cons_True, (filter_cons_False _ (k, v)) by tauto. cbn [fst snd map]. by rewrite <-(assoc_L (++)).
  - rewrite !filter_cons_False by (intros [? _]; congruence). done.
Qed.

(** The description of a layout, whatever the order of the map: every key with the prefix is
    counted once, as shared or not; the keys that are not shared are printed, and those that
    are if that is asked for. *)
Theorem Layout_spec mm KeyPrefix PrintShared :
  let r := printLayoutTypeMap mm KeyPrefix PrintShared in
  let shown := filter (λ kv, key_shown KeyPrefix kv.1 = true) (map_to_list mm) in
  lr_Total r = zlen shown
  ∧ lr_Shared r = zlen (filter (λ kv, kv.2 = "SHARED") shown)
  ∧ lr_NonSharedKeys r ≡ₚ map fst (filter (λ kv, kv.2 ≠ "SHARED") shown)
  ∧ match lr_SharedKeys r with
    | Some keys => PrintShared = true ∧ keys ≡ₚ map fst (filter (λ kv, kv.2 = "SHARED") shown)
    | None => PrintShared = false
    end.
Proof.
  cbv zeta. unfold printLayoutTypeMap. rewrite layout_loop. cbn [app Z.add lr_Total lr_Shared lr_NonSharedKeys lr_SharedKeys].
  pose proof (string_range_perm mm) as Hp. rewrite !list_filter_filter.
  assert (∀ (P Q : string * string → Prop) `{∀ x, Decision (P x)} `{∀ x, Decision (Q x)}, (∀ x, P x ↔ Q x) →
    filter P (string_range mm) ≡ₚ filter Q (map_to_list mm)) as Hf.
  { intros P Q ? ? HPQ. rewrite Hp. by erewrite list_filter_iff. }
  assert (∀ (P Q : string * string → Prop) `{∀ x, Decision (P x)} `{∀ x, Decision (Q x)}, (∀ x, P x ↔ Q x) →
    zlen (filter P (string_range mm)) = zlen (filter Q (map_to_list mm))) as Hz.
  { intros P Q ? ? HPQ. unfold zlen. by rewrite (Hf P Q _ _ HPQ). }
  split_and!.
  - unfold zlen at 2. rewrite length_map. fold (zlen (filter (λ kv, key_shown KeyPrefix kv.1 = true ∧ kv.2 ≠ "SHARED") (string_range mm))).
    clear Hf Hz. unfold zlen. rewrite <-Hp. clear.
    induction (string_range mm) as [|kv l IH]; [done|]. rewrite !filter_cons.
    destruct (decide (key_shown KeyPrefix kv.1 = true)) as [Hk|Hk], (decide (kv.2 = "SHARED")) as [Hv|Hv].
    all: rewrite ?(decide_True _ _ (conj Hk Hv)), ?decide_False by tauto.
    all: rewrite ?decide_True by tauto; cbn [length]; lia.
  - apply Hz. tauto.
  - apply fmap_Permutation. apply Hf. tauto.
  - destruct PrintShared; [|done]. split; [done|]. apply fmap_Permutation. rewrite <-Hf; [|intros x; apply and_comm].
    rewrite (List_filter_iff _ (λ kv, key_shown KeyPrefix kv.1 = true ∧ kv.2 = "SHARED")); [done|].
    intros x. by rewrite andb_true_iff, bool_decide_eq_true.
Qed.
End layout_properties.

Section json_stats_properties.
Context {K C S : Type} `{MetaKV K} `{JsonSession} `{Network C} `{Oss S} `{StatsStore S}.
Context `{MapOrder} `{StringMapOrder} `{SegmentFields} `{JSONStatsField} `{EnumStrings}.
Context `{ProtoCodec SegmentInfo} `{ProtoCodec PbFieldBinlog}.
Implicit Types (cli : K).

(** The footer of a Parquet file is read back: the length of its metadata and its magic, of
    the object itself or, if there is none of that name or it is too small, of the first one
    under it. *)
Theorem footer_roundtrip (client : S) bucket key key' body n magic :
  let bs := body ++ le_put 4 n ++ magic in
  0 ≤ n < 2 ^ 32 → length magic = 4%nat →
  (∀ lo hi, 0 ≤ lo ≤ hi → hi < zlen bs →
     so_Range client bucket key' lo hi = Ok (take (Z.to_nat (hi - lo + 1)) (drop (Z.to_nat lo) bs))) →
  (key' = key ∧ StatObject client bucket key = Ok (MkObjectInfo key (zlen bs))
   ∨ (∀ i, StatObject client bucket key = Ok i → oi_Size i < 8) ∧
     so_First client bucket (if HasSuffix key "/" then key else key +:+ "/") = Some (Ok (MkObjectInfo key' (zlen bs)))) →
  readParquetFooterSummary client bucket key = Footer n magic key'.
Proof.
  intros bs Hn Hm Hr Hk.
  assert (zlen bs = zlen body + 8) as Hl by (unfold zlen, bs; rewrite !length_app, length_le_put, Hm; lia).
  assert (read_footer client bucket key' (zlen bs) = Footer n magic key') as Hf.
  { unfold read_footer. rewrite Hr by (unfold zlen in *; lia).
    replace (Z.to_nat (zlen bs - 1 - (zlen bs - 8) + 1)) with 8%nat by lia.
    replace (Z.to_nat (zlen bs - 8)) with (length body) by (unfold zlen in *; lia).
    unfold bs. rewrite drop_app_length, take_ge by (rewrite length_app, length_le_put; lia).
    rewrite bool_decide_true by (unfold zlen; rewrite length_app, length_le_put; lia).
    unfold footer_of. rewrite take_app_length', drop_app_length' by (by rewrite length_le_put).
    rewrite le_get_put. unfold uint32, wrapu. change (8 * Z.of_nat 4) with 32. rewrite Z.mod_mod by lia. by rewrite Z.mod_small. }
  unfold readParquetFooterSummary. destruct Hk as [[-> ->]|[Hs ->]]; cbn [oi_Size oi_Key].
  - rewrite bool_decide_false by (unfold zlen in *; lia). exact Hf.
  - rewrite (bool_decide_false (zlen bs < 8)), Hf by (unfold zlen in *; lia).
    destruct (StatObject client bucket key) as [i| |]; [|done|done]. by rewrite bool_decide_true by (by apply Hs).
Qed.

Lemma stats_field_once p cli base info oss fields kv :
  (∀ w, ossutil_GetMinioClientFromCfg (C:=C) (S:=S) cli base [] ≠ Panic w) →
  ∃ oss' new, stats_field (C:=C) p cli base info (oss, fields) kv = Ok (oss', fields ++ new)
    ∧ map (λ f, (fr_FieldID f, fr_Stats f)) new = filter (λ kv, jp_FieldID p = 0 ∨ jp_FieldID p = kv.1) [kv].
Proof.
  intros Hp. unfold stats_field. cbn [fst snd].
  destruct (bool_decide (jp_FieldID p ≠ 0) && bool_decide (jp_FieldID p ≠ kv.1)) eqn:Hk.
  { rewrite andb_true_iff, !bool_decide_eq_true in Hk. rewrite filter_cons_False by tauto.
    exists oss, []. by rewrite app_nil_r. }
  rewrite andb_false_iff, !bool_decide_eq_false in Hk.
  rewrite filter_cons_True by (destruct Hk as [Hk|Hk]; apply dec_stable in Hk; tauto).
  destruct (jp_Detail p); [|by eexists oss, [_]; destruct kv]. unfold stats_client.
  destruct oss as [o|]; [by eexists (Some o), [_]; destruct kv|].
  destruct (ossutil_GetMinioClientFromCfg _ _ _) as [o|e|w] eqn:Ho; [by eexists (Some o), [_]; destruct kv|
    by eexists None, [_]; destruct kv|]. by destruct (Hp w).
Qed.

Lemma stats_fields_loop p cli base info l oss fields :
  (∀ w, ossutil_GetMinioClientFromCfg (C:=C) (S:=S) cli base [] ≠ Panic w) →
  ∃ oss' fields', foldM (λ kv st, stats_field (C:=C) p cli base info st kv) l (oss, fields) = Ok (oss', fields ++ fields')
    ∧ map (λ f, (fr_FieldID f, fr_Stats f)) fields' = filter (λ kv, jp_FieldID p = 0 ∨ jp_FieldID p = kv.1) l.
Proof.
  intros Hp. revert oss fields. induction l as [|kv l IH]; intros oss fields.
  { exists oss, []. by rewrite app_nil_r. }
  cbn [foldM]. destruct (stats_field_once p cli base info oss fields kv Hp) as (oss1 & new & -> & Hn).
  cbn [mbind res_bind]. destruct (IH oss1 (fields ++ new)) as (oss' & fields' & -> & Hf).
  exists oss', (new ++ fields'). rewrite <-(assoc_L (++)). split; [done|].
  by rewrite map_app, Hn, Hf, <-list.filter_app.
Qed.

(** The fields of a segment that are reported, if statistics are built. *)
Definition reported_fields p (info : SegmentInfo) : list (Z * JSONKeyStats) :=
  filter (λ kv, jp_FieldID p = 0 ∨ jp_FieldID p = kv.1) (range (si_JsonKeyStats info)).
Definition is_built p (s : ModelSegment K) : Prop := stats_built (jp_FieldID p) (sg_info s) = true.
#[local] Instance is_built_dec p s : Decision (is_built p s).
Proof. unfold is_built. apply _. Defined.

Lemma stats_segment_once p cli base s oss r :
  (∀ w, ossutil_GetMinioClientFromCfg (C:=C) (S:=S) cli base [] ≠ Panic w) →
  ∃ oss' reports, stats_segment (C:=C) p cli base s (oss, r)
    = Ok (oss', MkStatsResult (jr_Total r + 1) (jr_Built r + zlen (filter (is_built p) [s]))
                  (jr_NotBuilt r ++ map (λ s, si_ID (sg_info s)) (filter (λ s, ¬ is_built p s) [s]))
                  (jr_Segments r ++ reports))
    ∧ map (λ e, (e.1, map (λ f, (fr_FieldID f, fr_Stats f)) e.2)) reports
      = map (λ s, (si_ID (sg_info s), reported_fields p (sg_info s))) (filter (is_built p) [s]).
Proof.
  intros Hp. unfold stats_segment. destruct (stats_built (jp_FieldID p) (sg_info s)) eqn:Hb; cbn [negb].
  - rewrite filter_cons_True, filter_cons_False by (unfold is_built; congruence).
    destruct (stats_fields_loop p cli base (sg_info s) (range (si_JsonKeyStats (sg_info s))) oss [] Hp) as (oss1 & fields & -> & Hf).
    cbn [mbind res_bind app]. eexists oss1, [_]. cbn [map app fst snd]. rewrite app_nil_r. split; [done|].
    cbn [map fst snd]. by rewrite Hf.
  - rewrite filter_cons_False, filter_cons_True by (unfold is_built; congruence).
    exists oss, []. cbn [map]. by rewrite app_nil_r, Z.add_0_r.
Qed.

Lemma stats_segments_loop p cli base segments oss r :
  (∀ w, ossutil_GetMinioClientFromCfg (C:=C) (S:=S) cli base [] ≠ Panic w) →
  ∃ oss' reports, foldM (stats_segment (C:=C) p cli base) segments (oss, r)
    = Ok (oss', MkStatsResult (jr_Total r + zlen segments) (jr_Built r + zlen (filter (is_built p) segments))
                  (jr_NotBuilt r ++ map (λ s, si_ID (sg_info s)) (filter (λ s, ¬ is_built p s) segments))
                  (jr_Segments r ++ reports))
    ∧ map (λ e, (e.1, map (λ f, (fr_FieldID f, fr_Stats f)) e.2)) reports
      = map (λ s, (si_ID (sg_info s), reported_fields p (sg_info s))) (filter (is_built p) segments).
Proof.
  intros Hp. revert oss r. induction segments as [|s l IH]; intros oss r.
  { exists oss, []. split; [|done]. cbn. rewrite !app_nil_r, !Z.add_0_r. by destruct r. }
  cbn [foldM]. destruct (stats_segment_once p cli base s oss r Hp) as (oss1 & new & -> & Hn). cbn [mbind res_bind].
  edestruct IH as (oss' & reports & -> & Hm). exists oss', (new ++ reports). cbn [jr_Total jr_Built jr_NotBuilt jr_Segments].
  change (s :: l) with ([s] ++ l). rewrite !list.filter_app, !map_app, <-!(assoc_L (++)). split; [|by rewrite Hn, Hm].
  unfold zlen. rewrite !length_app. cbn [length]. do 3 f_equal; lia.
Qed.

(** [show json-stats], when the object storage is configured or not: every segment that the
    filters leave is counted; those whose metadata has statistics, of the field if one is
    given, are reported with their fields, and the others are named. *)
Theorem JSONStats_spec p cli base segments :
  (∀ w, ossutil_GetMinioClientFromCfg (C:=C) (S:=S) cli base [] ≠ Panic w) →
  ListSegments cli base [λ s, json_stats_filter p (sg_info s)] = Ok segments → segments ≠ [] →
  ∃ r, JSONStatsCommand (C:=C) (S:=S) p cli base = Ok (Some r)
    ∧ jr_Total r = zlen segments ∧ jr_Built r = zlen (filter (is_built p) segments)
    ∧ jr_NotBuilt r = map (λ s, si_ID (sg_info s)) (filter (λ s, ¬ is_built p s) segments)
    ∧ jr_Built r + zlen (jr_NotBuilt r) = jr_Total r
    ∧ map (λ e, (e.1, map (λ f, (fr_FieldID f, fr_Stats f)) e.2)) (jr_Segments r)
      = map (λ s, (si_ID (sg_info s), reported_fields p (sg_info s))) (filter (is_built p) segments).
Proof.
  intros Hp Hl Hne. unfold JSONStatsCommand. rewrite Hl.
  rewrite bool_decide_false by (destruct segments; [done|unfold zlen; cbn [length]; lia]).
  destruct (stats_segments_loop p cli base segments None (MkStatsResult 0 0 [] []) Hp) as (oss' & reports & -> & Hm).
  cbn [mbind res_bind jr_Total jr_Built jr_NotBuilt jr_Segments app]. eexists. split; [reflexivity|].
  cbn [jr_Total jr_Built jr_NotBuilt jr_Segments]. rewrite !Z.add_0_l. split_and!; try done.
  unfold zlen. rewrite length_map. clear. induction segments as [|s l IH]; [done|]. rewrite !filter_cons.
  do 2 case_decide; try tauto; cbn [length]; lia.
Qed.
End json_stats_properties.

(** ** Witnesses: three sessions in one store, two of them of the same server; two segments,
    one with statistics, and a file of 20 bytes *)
Definition s_standalone (name : string) (id : Z) : Session := MkSession id name "10.0.0.1:21123" false "" "" 0 "".
#[local] Instance standalone_sessions : JsonSession := {|
  session_Marshal s := Ok (bytes_of_string (ServerName s));
  session_Unmarshal bs :=
    if bool_decide (bs = bytes_of_string "qn") then Ok (s_standalone "querynode" 4)
    else if bool_decide (bs = bytes_of_string "dn") then Ok (s_standalone "datanode" 4)
    else Ok (s_standalone "proxy" 5);
|}.
#[local] Instance stats_network : Network string := {|
  grpc_Dial _ addr := Ok addr;
  ShowConfigurations client conn id := Ok [];
  ResolveTCPAddr addr := Ok (match Split ":" addr with ip :: _ => Some ip | [] => None end);
  http_Get url := Ok url;
  http_Put url body := Err (Errorf "refused");
  portResp_Unmarshal body := (0, 0);
|}.
#[local] Instance stats_jemalloc : JemallocSource string := {|
  node_GetMetrics client conn := if bool_decide (client = DataNodeClient) then Ok "" else Ok "{}";
  metrics_Unmarshal s := Ok (MkJemalloc true 2048 4096 0 8192 0 0 0 0 "");
  json_Indent s := None;
|}.
Definition stats_store : etcdKV (gmap string string) :=
  etcd_store [("by-dev/session/dn", "dn"); ("by-dev/session/px", "px"); ("by-dev/session/qn", "qn");
              ("by-dev/datacoord-meta/s/1/2/9", "seg9"); ("by-dev/datacoord-meta/s/1/2/8", "seg8")].
Lemma Jemalloc_spec_witness :
  ∃ results, JemallocStatsCommand (C:=string) (@rev _) stats_store "by-dev" false "" = Ok results ∧ length results = 3%nat.
Proof.
  assert (match ListSessions stats_store "by-dev" with Ok l => length (lo_UniqBy jemalloc_key ∅ l) | _ => 0%nat end = 3%nat) as Hn
    by (vm_compute; reflexivity).
  destruct (ListSessions stats_store "by-dev") as [l| |] eqn:Hl; [|discriminate Hn|discriminate Hn].
  destruct (Jemalloc_spec (C:=string) (@rev _) stats_store "by-dev" false "" l) as (results & Hr & Hp).
  - intros r. symmetry. apply Permutation_rev.
  - exact Hl.
  - exists results. split; [exact Hr|]. rewrite Hp, length_map, filter_all; [exact Hn|].
    apply list.Forall_forall. intros x _. left. reflexivity.
Defined.

Lemma Pprof_spec_witness :
  ∃ results, GetPprofCommand (C:=string) (@rev _) stats_store "by-dev" "heap" 9091 = Ok results
    ∧ ("mixture_4_heap", "http://10.0.0.1:9091/debug/pprof/heap?debug=0") ∈ results ∧ length results = 2%nat.
Proof.
  set (f := λ l : list Session, map (λ s : Session,
        ((if decide (1 < zlen (filter (λ s', ServerID s' = ServerID s) l)) then "mixture" else ServerName s)
           +:+ "_" +:+ FormatInt (ServerID s) +:+ "_" +:+ "heap",
         match http_Get ("http://" +:+ session_IP s +:+ ":" +:+ FormatInt 9091 +:+ "/debug/pprof/" +:+ "heap" +:+ "?debug=0") with
         | Ok bs => bs | _ => "" end))
        (lo_UniqBy ServerID ∅ l)).
  assert (match ListSessions stats_store "by-dev" with
          | Ok l => bool_decide (("mixture_4_heap", "http://10.0.0.1:9091/debug/pprof/heap?debug=0") ∈ f l ∧ length (f l) = 2%nat)
          | _ => false end = true) as Hn by (vm_compute; reflexivity).
  destruct (ListSessions stats_store "by-dev") as [l| |] eqn:Hl; [|discriminate Hn|discriminate Hn].
  apply bool_decide_eq_true in Hn.
  destruct (Pprof_spec (C:=string) (@rev _) stats_store "by-dev" "heap" 9091 l) as (results & Hr & Hp).
  - intros r. symmetry. apply Permutation_rev.
  - right. left.
  - exact Hl.
  - exists results. split; [exact Hr|]. rewrite Hp. exact Hn.
Defined.

Lemma formatBytes_powers_witness : formatBytes (2 ^ 31) = (float64_of 2, "GB").
Proof. exact (formatBytes_powers 31 ltac:(lia)). Defined.

#[local] Instance stats_segments : ProtoCodec SegmentInfo :=
  table_codec [("seg9", MkSegmentInfo 9 1 2 "dml_0_1v0" 5000 SegmentState_Flushed None None [] [] [] "");
               ("seg8", MkSegmentInfo 8 1 2 "dml_0_1v0" 5000 SegmentState_Flushed None None [] [] [] "")].
#[local] Instance stats_of_9 : JSONStatsField :=
  {| si_JsonKeyStats info := if bool_decide (si_ID info = 9) then {[101 := MkKeyStats 1 [] 0 7 1]} else ∅ |}.
Definition parquet_bytes : list byte := repeat "000"%byte 12 ++ le_put 4 300 ++ bytes_of_string "PAR1".
#[local] Instance one_file : StatsStore (gmap string Z) := {|
  so_Range client bucket key lo hi := Ok (take (Z.to_nat (hi - lo + 1)) (drop (Z.to_nat lo) parquet_bytes));
  so_First client bucket prefix := Some (Ok (MkObjectInfo (prefix +:+ "0") 20));
  so_ReadAll client bucket key := Err (Errorf "no such key");
  so_Parquet client bucket key := Err (Errorf "not a file");
  statsMeta_Unmarshal data := Err (Errorf "unexpected end");
  layout_Unmarshal data := Err (Errorf "unexpected end");
|}.
#[local] Existing Instance map_oss.

Lemma footer_roundtrip_witness :
  readParquetFooterSummary (S:=gmap string Z) ∅ "a-bucket" "files/0" = Footer 300 (bytes_of_string "PAR1") "files/0/0".
Proof.
  refine (footer_roundtrip (S:=gmap string Z) ∅ "a-bucket" "files/0" "files/0/0" (repeat "000"%byte 12) 300 (bytes_of_string "PAR1") _ _ _ _).
  - lia.
  - reflexivity.
  - intros lo hi _ _. reflexivity.
  - right. split; [intros i Hi; vm_compute in Hi; discriminate Hi|reflexivity].
Defined.

Definition stats_param : JSONStatsParam := MkJSONStatsParam 1 0 0 0 "" true false "" true.
Lemma JSONStats_spec_witness :
  ∃ r, JSONStatsCommand (C:=string) (S:=gmap string Z) stats_param stats_store "by-dev" = Ok (Some r)
    ∧ (jr_Total r, jr_Built r, jr_NotBuilt r) = (2, 1, [8]).
Proof.
  assert ((segments ← ListSegments stats_store "by-dev" [λ s, json_stats_filter stats_param (sg_info s)]; Ok (map (λ s, si_ID (sg_info s)) segments))
    = Ok [8; 9]) as Hall by (vm_compute; reflexivity).
  apply res_bind_Ok in Hall as (segments & Hl & Hids).
  destruct (JSONStats_spec (C:=string) (S:=gmap string Z) stats_param stats_store "by-dev" segments) as (r & Hr & Ht & Hb & Hn & _).
  - intros w Hw. vm_compute in Hw. discriminate Hw.
  - exact Hl.
  - intros ->. discriminate Hids.
  - exists r. split; [exact Hr|].
    assert (JSONStatsCommand (C:=string) (S:=gmap string Z) stats_param stats_store "by-dev"
      = Ok (Some (MkStatsResult 2 1 [8] [(9, [MkFieldReport 101 (MkKeyStats 1 [] 0 7 1) None])]))) as Hc by (vm_compute; reflexivity).
    rewrite Hr in Hc. injection Hc as ->. reflexivity.
Defined.
