(* ===== verification/Probe.v ===== *)
(** * Probing the query service

    Models [states/probe.go]: [probe pk], which asks every query node for a primary key in
    each of its segments, and [probe query], which makes a search request of its own for the
    loaded collections.  What the coordinator and the nodes answer is a parameter. *)

From S2P Require Export Alter Coordinators InstanceOps Distribution StateUtil.

(** ** The messages *)
Inductive GenericValue := StringVal (v : string) | Int64Val (v : Z).
Record TermPlan := MkTermPlan {
  tp_FieldId : Z;
  tp_DataType : Z;
  tp_IsAutoID : bool;
  tp_IsPrimaryKey : bool;
  tp_Values : list (option GenericValue);
  tp_OutputFieldIds : list Z;
}.
Record AnnsPlan := MkAnnsPlan {
  ap_Topk : Z;
  ap_MetricType : string;
  ap_SearchParams : string;
  ap_RoundDecimal : Z;
  ap_PlaceholderTag : string;
  ap_FieldId : Z;
  ap_OutputFieldIds : list Z;
}.
Record PlaceholderValue := MkPlaceholder { ph_Tag : string; ph_Type : Z; ph_Values : list (list byte) }.
Definition PlaceholderType_FloatVector : Z := 101.

Record QuerySegmentsRequest := MkQuerySegments {
  qr_SegmentIDs : list Z;
  qr_DmlChannels : list string;
  qr_TargetID : Z;
  qr_CollectionID : Z;
  qr_PartitionIDs : list Z;
  qr_Plan : list byte;
  qr_OutputFieldsId : list Z;
  qr_MvccTimestamp : Z;
}.
(** The keys of an answer; [None] for a message without either list. *)
Inductive IDs := IntId (data : list Z) | StrId (data : list string).
Record QueryResult := MkQueryResult {
  qt_Status : Status;
  qt_Ids : option (option IDs);          (* the message may be missing *)
  qt_FieldsData : list (Z * string);
}.
Record SearchRequest := MkSearchRequest {
  sr_CollectionID : Z;
  sr_PlaceholderGroup : list byte;
  sr_Plan : list byte;
  sr_TargetID : Z;
  sr_DmlChannels : list string;
}.
Record Shard := MkShard { sh_ChannelName : string; sh_NodeIds : list Z }.
Definition SegmentLevel_L0 : Z := 1.

(** The services, the encoding of plans and of groups of placeholders, and [math/rand]. *)
Class ProbeServices (C : Type) := {
  qc_GetShardLeaders : C → Z → res (Status * list Shard);
  qn_GetDataDistribution : C → Z → res DataDistribution;
  qn_QuerySegments : C → QuerySegmentsRequest → res QueryResult;
  qn_Search : C → SearchRequest → res Status;
  termPlan_Marshal : TermPlan → list byte;
  annsPlan_Marshal : AnnsPlan → list byte;
  placeholders_Marshal : list PlaceholderValue → list byte;
  rand_Int63n : Z → Z;
  rand_Float32bits : nat → Z;
}.

(** ** Vectors *)
Definition FloatVector := list Z.       (* the bits of the numbers *)
Definition Serialize (fv : FloatVector) : list byte :=
  foldl (λ data f, data ++ le_put 4 (uint32 f)) [] fv.
Definition vector2Placeholder (vector : FloatVector) : PlaceholderValue :=
  MkPlaceholder "$0" PlaceholderType_FloatVector [Serialize vector].

(** [json.Marshal] of a map with one number. *)
Definition json_number (key : string) (n : Z) : string :=
  "{" +:+ String "034"%char key +:+ String "034"%char ":" +:+ FormatInt n +:+ "}".
Definition genSearchHNSWParamBytes (ef : Z) : string := json_number "ef" ef.
Definition genSearchDISKANNParamBytes (searchList : Z) : string := json_number "search_list" searchList.

Definition GetSizeOfIDs (data : option (option IDs)) : res Z :=
  match data with
  | None => nil_deref
  | Some None => Ok 0
  | Some (Some (IntId l)) => Ok (zlen l)
  | Some (Some (StrId l)) => Ok (zlen l)
  end.

Section probe.
Context {K C : Type} `{MetaKV K} `{JsonSession} `{Network C} `{ProbeServices C} `{MapOrder}.
Context `{ProtoCodec CollectionInfo} `{ProtoCodec FieldSchema} `{ProtoCodec StructArrayFieldSchema}.
Context `{ProtoCodec FunctionSchema} `{ProtoCodec CollectionLoadInfo} `{ProtoCodec FieldIndex}.
Variable description : FieldSchema → string.

Definition genFloatVector (dim : Z) : res FloatVector :=
  if bool_decide (dim < 0) then Panic "makeslice: cap out of range"
  else Ok (map rand_Float32bits (seq 0 (Z.to_nat dim))).
Definition vector2PlaceholderGroupBytes (vector : FloatVector) : list byte :=
  placeholders_Marshal [vector2Placeholder vector].

Definition getSearchPlan (isBinary : bool) (pkFieldID vectorFieldID topk : Z) (metricType searchParam : string) : list byte :=
  annsPlan_Marshal (MkAnnsPlan topk metricType searchParam (-1) "$0" vectorFieldID [pkFieldID]).

(** The first session of a query coordinator that can be connected to; and the clients of
    the query nodes that can, by their identifiers. *)
Fixpoint getQueryCoordClient (sessions : list Session) : res C :=
  match sessions with
  | [] => Err (Errorf "querycoord session not found")
  | session :: sessions =>
      if bool_decide (strings_ToLower (ServerName session) ≠ "querycoord")
         && bool_decide (strings_ToLower (ServerName session) ≠ "mixcoord") then getQueryCoordClient sessions
      else
        match grpc_Dial (Some (2 * second)) (Address session) with
        | Ok conn => Ok conn
        | _ => getQueryCoordClient sessions
        end
  end.
Definition getQueryNodeClients (sessions : list Session) : gmap Z C :=
  foldl (λ result session,
    if bool_decide (strings_ToLower (ServerName session) ≠ "querynode") then result
    else match grpc_Dial (Some (2 * second)) (Address session) with
         | Ok conn => <[ServerID session := conn]> result
         | _ => result
         end) ∅ sessions.

(** ** [probe pk] *)
Definition pk_value (datatype : Z) (PK : string) : res (Z * option GenericValue) :=
  if bool_decide (datatype = DataType_VarChar) then Ok (DataType_VarChar, Some (StringVal PK))
  else if bool_decide (datatype = DataType_Int64) then
    match ParseInt PK with
    | Some pkv => Ok (DataType_Int64, Some (Int64Val pkv))
    | None => Err (Errorf "invalid syntax")
    end
  else Ok (0, None).

Definition output_fields (OutputFields : list string) (fields : list FieldSchema) : list Z :=
  map fs_FieldID (List.filter (λ f,
      (bool_decide (100 <= fs_FieldID f) && bool_decide (fs_Name f ∈ OutputFields)) || fs_IsPrimaryKey f) fields)
  ++ (if bool_decide ("$ts" ∈ OutputFields) then [1] else []).
Definition field_names (fields : list FieldSchema) : gmap Z string :=
  foldl (λ m f, <[fs_FieldID f := fs_Name f]> m) ∅ fields.

(** A segment in which the key was found: the node, the segment and the named fields. *)
Record Found := MkFound { fo_NodeID : Z; fo_SegmentID : Z; fo_Fields : list (string * string) }.

Definition probed (CollectionID : Z) (segInfo : SegmentVersionInfo) : bool :=
  bool_decide (sv_Collection segInfo = CollectionID) && negb (bool_decide (sv_Level segInfo = SegmentLevel_L0)).

Definition probe_segment (qn : C) (nodeID : Z) (plan : list byte) (outputFields : list Z) (names : gmap Z string)
    (mvcc : Z) (segInfo : SegmentVersionInfo) : res (list Found) :=
  match qn_QuerySegments qn (MkQuerySegments [sv_ID segInfo] [sv_Channel segInfo] nodeID (sv_Collection segInfo)
                               [sv_Partition segInfo] plan outputFields mvcc) with
  | Err _ => Ok []
  | Panic w => Panic w
  | Ok result =>
      if bool_decide (ErrorCode (qt_Status result) ≠ ErrorCode_Success) then Ok []
      else
        n ← GetSizeOfIDs (qt_Ids result);
        Ok (if bool_decide (n = 0) then []
            else [MkFound nodeID (sv_ID segInfo)
                    (map (λ fd, (default "" (names !! fd.1), fd.2)) (qt_FieldsData result))])
  end.
Definition probe_node (CollectionID : Z) (plan : list byte) (outputFields : list Z) (names : gmap Z string) (mvcc : Z)
    (node : Z * C) : res (list Found) :=
  match qn_GetDataDistribution node.2 node.1 with
  | Err _ => Ok []
  | Panic w => Panic w
  | Ok resp =>
      found ← mapR (probe_segment node.2 node.1 plan outputFields names mvcc)
                (List.filter (probed CollectionID) (ds_Segments resp));
      Ok (concat found)
  end.

(** [now] is the time in milliseconds. *)
Definition ProbePKCommand (now : Z) (cli : K) (basePath : string) (CollectionID : Z) (PK : string)
    (OutputFields : list string) (MvccTimestamp : Z) : res (list Found) :=
  coll ← GetCollectionByIDVersion cli basePath CollectionID;
  '(pkf, _) ← GetPKField description coll;
  '(datatype, val) ← pk_value (mf_DataType pkf) PK;
  match ci_Schema (co_proto coll) with
  | None => nil_deref
  | Some schema =>
      let outputFields := output_fields OutputFields (cs_Fields schema) in
      let bs := termPlan_Marshal (MkTermPlan (mf_FieldID pkf) datatype (mf_AutoID pkf) (mf_IsPrimaryKey pkf) [val] outputFields) in
      sessions ← ListSessions cli basePath;
      qc ← getQueryCoordClient sessions;
      '(status, _) ← qc_GetShardLeaders qc CollectionID;
      if bool_decide (ErrorCode status ≠ ErrorCode_Success) then Ok []
      else
        let qns := getQueryNodeClients sessions in
        if bool_decide (qns = ∅) then Ok []
        else
          let mvcc := if bool_decide (MvccTimestamp = 0) then int64 (ComposeTS now 0) else MvccTimestamp in
          found ← mapR (probe_node CollectionID bs outputFields (field_names (cs_Fields schema)) (uint64 mvcc)) (range qns);
          Ok (concat found)
  end.

(** ** [probe query] *)
Definition metric_of (info : IndexInfo) : res string :=
  let metricType := GetKVPair (ii_IndexParams info) "metric_type" in
  if bool_decide (metricType = "") then
    let metricType := GetKVPair (ii_TypeParams info) "metric_type" in
    if bool_decide (metricType = "") then Err (Errorf "no metric_type in IndexParams or TypeParams, bad meta")
    else Ok metricType
  else Ok metricType.

(** The getters of a message that is missing give its default. *)
Definition no_index : IndexInfo := MkIndexInfo 0 0 "" 0 [] [] 0 0 0 "" false [] "".
Definition index_info (index : FieldIndex) : IndexInfo := default no_index (fi_IndexInfo index).

(** The number of results and the parameters of the search, by the type of the index. *)
Definition search_params (info : IndexInfo) : res (Z * string * string) :=
  let indexType := GetKVPair (ii_IndexParams info) "index_type" in
  if bool_decide (indexType = "HNSW") then
    let efConstruction := default 360 (ParseInt (GetKVPair (ii_IndexParams info) "efConstruction")) in
    metricType ← metric_of info;
    let n := int64 (efConstruction - 1) in
    if bool_decide (n <= 0) then Panic "invalid argument to Int63n"
    else
      let topK := int64 (rand_Int63n n + 1) in
      Ok (topK, metricType, genSearchHNSWParamBytes topK)
  else if bool_decide (indexType = "DISKANN") then
    metricType ← metric_of info;
    Ok (10, metricType, genSearchDISKANNParamBytes 20)
  else Err (Errorf "probing index type not supported yet").

(** [None] is a nil request without an error. *)
Definition getMockSearchRequest (cli : K) (basePath : string) (info : CollectionLoadInfo) : res (option SearchRequest) :=
  coll ← GetCollectionByIDVersion cli basePath (cl_CollectionID info);
  '(pkField, ok) ← GetPKField description coll;
  if negb ok then Err (Errorf "pk field not found")
  else
    '(vectorField, ok) ← GetVectorField description coll;
    if negb ok then Err (Errorf "vector field not found")
    else
      dim ← GetDim vectorField;
      let indexID := default 0 (cl_FieldIndexID info !! mf_FieldID vectorField) in
      '(indexes, _) ← ListProtoObjects (T:=FieldIndex) cli (path_Join [basePath; "field-index"])
                        [λ index, bool_decide (ii_IndexID (index_info index) = indexID)];
      match indexes with
      | [index] =>
          vector ← genFloatVector dim;
          '(topK, metricType, params) ← search_params (index_info index);
          Ok (Some (MkSearchRequest (ci_ID (co_proto coll)) (vector2PlaceholderGroupBytes vector)
            (getSearchPlan (bool_decide (mf_DataType vectorField = DataType_BinaryVector)) (mf_FieldID pkField)
               (mf_FieldID vectorField) topK metricType params) 0 []))
      | _ => Ok None
      end.

(** What is printed of a search: the channel, the node and the answer, or that the leader
    has no client. *)
Inductive SearchLine := NotOnline (nodeID : Z) | Searched (channel : string) (nodeID : Z) (answer : res Status).
Definition search_node (qns : gmap Z C) (req : option SearchRequest) (channel : string) (nodeID : Z) : res SearchLine :=
  match qns !! nodeID with
  | None => Ok (NotOnline nodeID)
  | Some qn =>
      match req with
      | None => nil_deref
      | Some r => Ok (Searched channel nodeID
                        (qn_Search qn (MkSearchRequest (sr_CollectionID r) (sr_PlaceholderGroup r) (sr_Plan r) nodeID [channel])))
      end
  end.
Definition probe_collection (cli : K) (basePath : string) (qc : C) (qns : gmap Z C) (info : CollectionLoadInfo)
    : res (Z * list SearchLine) :=
  match getMockSearchRequest cli basePath info with
  | Panic w => Panic w
  | Err _ => Ok (cl_CollectionID info, [])
  | Ok req =>
      match qc_GetShardLeaders qc (cl_CollectionID info) with
      | Panic w => Panic w
      | Err _ => Ok (cl_CollectionID info, [])
      | Ok (_, shards) =>
          lines ← mapR (λ s : string * Z, search_node qns req s.1 s.2)
                    (concat (map (λ s, map (pair (sh_ChannelName s)) (sh_NodeIds s)) shards));
          Ok (cl_CollectionID info, lines)
      end
  end.
Definition getProbeQueryCmd (cli : K) (basePath : string) : res (list (Z * list SearchLine)) :=
  match
    loaded ← ListCollectionLoadedInfo cli basePath [];
    if bool_decide (zlen loaded = 0) then Ok []
    else
      sessions ← ListSessions cli basePath;
      qc ← getQueryCoordClient sessions;
      let qns := getQueryNodeClients sessions in
      if bool_decide (qns = ∅) then Ok []
      else mapR (λ info : ProtoWrapper CollectionLoadInfo, probe_collection cli basePath qc qns (GetProto info)) loaded
  with
  | Err _ => Ok []
  | r => r
  end.
End probe.

(** ** Properties *)
(** The elements either panic, when they are bad, or give their results: all the results are
    given, or the first bad element panics. *)
Lemma mapR_panics {A B} (f : A → res (list B)) (bad : A → Prop) (P : A → B → Prop) l :
  (∀ x, x ∈ l → (bad x ∧ ∃ w, f x = Panic w) ∨ ¬ bad x ∧ ∃ r, f x = Ok r ∧ ∀ y, y ∈ r ↔ P x y) →
  ((∃ x, x ∈ l ∧ bad x) ∧ ∃ w, mapR f l = Panic w)
  ∨ ¬ (∃ x, x ∈ l ∧ bad x) ∧ ∃ rs, mapR f l = Ok rs ∧ ∀ y, y ∈ concat rs ↔ ∃ x, x ∈ l ∧ P x y.
Proof.
  induction l as [|x l IH]; intros Hf.
  { right. split; [by intros (x & ?%elem_of_nil & _)|]. exists []. split; [done|]. intros y. cbn.
    rewrite elem_of_nil. split; [done|]. by intros (x & ?%elem_of_nil & _). }
  cbn [mapR]. destruct (Hf x (list_elem_of_here _ _)) as [[Hb [w ->]]|[Hb (r & -> & Hr)]].
  { left. split; [exists x; split; [left|done]|by eexists]. }
  cbn [mbind res_bind]. setoid_rewrite list.elem_of_cons.
  destruct IH as [[(z & Hz & Hbz) [w ->]]|[Hnone (rs & -> & Hrs)]]; [intros z Hz; apply Hf; by right| |].
  - left. split; [by eauto|by eexists].
  - right. split; [intros (z & [->|Hz] & Hbz); [done|by eauto]|].
    eexists. split; [done|]. intros y. cbn [concat]. rewrite elem_of_app, Hr, Hrs. naive_solver.
Qed.

(** The bytes of a vector are those of its numbers, four each, in their order. *)
Lemma Serialize_concat fv : Serialize fv = concat (map (λ f, le_put 4 (uint32 f)) fv).
Proof.
  unfold Serialize. induction fv as [|f fv IH] using rev_ind; [done|].
  rewrite foldl_app, map_app, concat_app, IH. cbn [foldl map concat]. by rewrite app_nil_r.
Qed.

Theorem Serialize_numbers fv i f :
  fv !! i = Some f → in_u 32 f →
  zlen (Serialize fv) = 4 * zlen fv ∧ le_get (take 4 (drop (4 * i) (Serialize fv))) = f.
Proof.
  rewrite Serialize_concat. intros Hi Hf.
  assert (∀ l, length (concat (map (λ f, le_put 4 (uint32 f)) l)) = 4 * length l)%nat as Hl.
  { induction l as [|x l IH]; [done|]. cbn [map concat]. rewrite length_app, IH, length_le_put. cbn [length]. lia. }
  split; [unfold zlen; rewrite Hl; lia|].
  apply list_elem_of_split_length in Hi as (l1 & l2 & -> & ->).
  rewrite map_app, concat_app, drop_app_length' by (rewrite Hl; lia). cbn [map concat].
  rewrite take_app_length' by (by rewrite length_le_put). rewrite le_get_put.
  unfold uint32, wrapu. change (8 * Z.of_nat 4) with 32. rewrite Z.mod_mod by lia.
  apply Z.mod_small. unfold in_u in Hf. lia.
Qed.

Section probe_properties.
Context {K C : Type} `{MetaKV K} `{JsonSession} `{Network C} `{ProbeServices C} `{MapOrder}.
Context `{ProtoCodec CollectionInfo} `{ProtoCodec FieldSchema} `{ProtoCodec StructArrayFieldSchema}.
Context `{ProtoCodec FunctionSchema} `{ProtoCodec CollectionLoadInfo} `{ProtoCodec FieldIndex}.
Variable description : FieldSchema → string.
Implicit Types (cli : K).

(** What the model of a field copies from its schema does not include its dimension. *)
Lemma GetVectorField_no_dim coll f ok : GetVectorField description coll = Ok (f, ok) → ∀ dim, GetDim f ≠ Ok dim.
Proof.
  unfold GetVectorField, find_field. destruct (ci_Schema (co_proto coll)) as [s|]; [|discriminate].
  intros Hf dim. assert (mf_Properties f = ∅) as Hp by (destruct (List.find _ _); injection Hf as <- _; done).
  unfold GetDim. rewrite Hp, lookup_empty. by destruct (_ && _).
Qed.

Lemma getMockSearchRequest_never cli base info req : getMockSearchRequest description cli base info ≠ Ok req.
Proof.
  unfold getMockSearchRequest. intros Hr.
  apply res_bind_Ok in Hr as (coll & _ & Hr). apply res_bind_Ok in Hr as ([pk ok] & _ & Hr).
  destruct (negb ok); [discriminate|]. apply res_bind_Ok in Hr as ([vf ok'] & Hv & Hr).
  destruct (negb ok'); [discriminate|]. apply res_bind_Ok in Hr as (dim & Hd & _).
  by apply (GetVectorField_no_dim _ _ _ Hv) in Hd.
Qed.

Lemma mapR_Ok_Forall {A B} (f : A → res B) (P : B → Prop) l ys :
  (∀ x y, f x = Ok y → P y) → mapR f l = Ok ys → Forall P ys.
Proof.
  intros Hf. revert ys. induction l as [|x l IH]; intros ys Hys; [injection Hys as <-; constructor|].
  cbn [mapR] in Hys. apply res_bind_Ok in Hys as (y & Hy & Hys). apply res_bind_Ok in Hys as (ys' & Hys' & Hys).
  injection Hys as <-. constructor; [by apply (Hf x)|by apply IH].
Qed.

(** [probe query] never sends a search, whatever the metadata and the services: the request
    is given up when the dimension of the vector field is asked for. *)
Theorem ProbeQuery_never_searches cli base :
  match getProbeQueryCmd (C:=C) description cli base with
  | Ok results => Forall (λ r, r.2 = []) results
  | Err _ => False
  | Panic _ => True
  end.
Proof.
  unfold getProbeQueryCmd.
  match goal with |- context [match ?r with Ok a => Ok a | Err _ => Ok [] | Panic why => Panic why end] =>
    destruct r as [l|e|w] eqn:Hl end; [|constructor|done].
  apply res_bind_Ok in Hl as (loaded & _ & Hl).
  case_bool_decide; [injection Hl as <-; constructor|].
  apply res_bind_Ok in Hl as (sessions & _ & Hl). apply res_bind_Ok in Hl as (qc & _ & Hl).
  cbv zeta in Hl. case_bool_decide; [injection Hl as <-; constructor|].
  refine (mapR_Ok_Forall _ _ _ _ _ Hl). intros info y Hy. unfold probe_collection in Hy.
  destruct (getMockSearchRequest description cli base (GetProto info)) as [req|e|w] eqn:Hr.
  - by apply getMockSearchRequest_never in Hr.
  - by injection Hy as <-.
  - discriminate.
Qed.

(** The key is in a segment of a node: the answer, which is not an error, has keys. *)
Definition holds_key (qn : C) (nodeID : Z) (plan : list byte) (outs : list Z) (names : gmap Z string) (mvcc : Z)
    (s : SegmentVersionInfo) (f : Found) : Prop :=
  ∃ r ids n, qn_QuerySegments qn (MkQuerySegments [sv_ID s] [sv_Channel s] nodeID (sv_Collection s) [sv_Partition s]
                                    plan outs mvcc) = Ok r
    ∧ ErrorCode (qt_Status r) = ErrorCode_Success ∧ qt_Ids r = Some ids ∧ GetSizeOfIDs (Some ids) = Ok n ∧ n ≠ 0
    ∧ f = MkFound nodeID (sv_ID s) (map (λ fd, (default "" (names !! fd.1), fd.2)) (qt_FieldsData r)).

(** The answer for a segment is a success without the message of keys. *)
Definition answers_no_ids (qn : C) (nodeID : Z) (plan : list byte) (outs : list Z) (mvcc : Z)
    (s : SegmentVersionInfo) : Prop :=
  ∃ r, qn_QuerySegments qn (MkQuerySegments [sv_ID s] [sv_Channel s] nodeID (sv_Collection s) [sv_Partition s]
                              plan outs mvcc) = Ok r
    ∧ ErrorCode (qt_Status r) = ErrorCode_Success ∧ qt_Ids r = None.

(** The segments that are asked about: of the nodes that are connected and that answer. *)
Definition asked (CollectionID : Z) (sessions : list Session) (node : Z) (qn : C) (s : SegmentVersionInfo) : Prop :=
  getQueryNodeClients sessions !! node = Some qn
  ∧ ∃ dist, qn_GetDataDistribution qn node = Ok dist ∧ s ∈ ds_Segments dist
      ∧ sv_Collection s = CollectionID ∧ sv_Level s ≠ SegmentLevel_L0.

(** A call to a node gives an answer or an error. *)
Hypothesis calls_return : ∀ (qn : C) node req w,
  qn_GetDataDistribution qn node ≠ Panic w ∧ qn_QuerySegments qn req ≠ Panic w.

Lemma probe_segment_spec qn nodeID plan outs names mvcc s :
  (answers_no_ids qn nodeID plan outs mvcc s ∧ ∃ w, probe_segment qn nodeID plan outs names mvcc s = Panic w)
  ∨ ¬ answers_no_ids qn nodeID plan outs mvcc s
    ∧ ∃ l, probe_segment qn nodeID plan outs names mvcc s = Ok l
        ∧ ∀ f, f ∈ l ↔ holds_key qn nodeID plan outs names mvcc s f.
Proof.
  unfold probe_segment, holds_key, answers_no_ids.
  pose proof (λ w, proj2 (calls_return qn nodeID (MkQuerySegments [sv_ID s] [sv_Channel s] nodeID (sv_Collection s)
    [sv_Partition s] plan outs mvcc) w)) as Hq.
  destruct (qn_QuerySegments _ _) as [r|e|w]; [| |by destruct (Hq w)].
  2:{ right. split; [naive_solver|]. exists []. split; [done|]. intros f. rewrite elem_of_nil. naive_solver. }
  case_bool_decide as Hc.
  { right. split; [naive_solver|]. exists []. split; [done|]. intros f. rewrite elem_of_nil. naive_solver. }
  destruct (qt_Ids r) as [ids|] eqn:Hi; [right|left; split; [by exists r|by eexists]].
  split; [naive_solver|].
  assert (∃ n, GetSizeOfIDs (Some ids) = Ok n) as [n Hn] by (destruct ids as [[]|]; eexists; reflexivity).
  rewrite Hn. cbn [mbind res_bind]. eexists. split; [reflexivity|]. intros f. case_bool_decide as Hz.
  - rewrite elem_of_nil. split; [done|]. intros (r' & ids' & n' & [= <-] & _ & Hi' & Hn' & Hne & _).
    rewrite Hi in Hi'. injection Hi' as <-. rewrite Hn in Hn'. injection Hn' as <-. done.
  - rewrite list_elem_of_singleton. split.
    + intros ->. by exists r, ids, n.
    + by intros (r' & ids' & n' & [= <-] & _ & _ & _ & _ & ->).
Qed.

Lemma probed_asked CollectionID segments s :
  s ∈ List.filter (probed CollectionID) segments
  ↔ s ∈ segments ∧ sv_Collection s = CollectionID ∧ sv_Level s ≠ SegmentLevel_L0.
Proof.
  rewrite list_elem_of_In, List.filter_In, <-list_elem_of_In. unfold probed.
  rewrite andb_true_iff, bool_decide_eq_true, negb_true_iff, bool_decide_eq_false. done.
Qed.

(** What is asked of one node. *)
Definition node_asked (CollectionID : Z) (node : Z * C) (s : SegmentVersionInfo) : Prop :=
  ∃ dist, qn_GetDataDistribution node.2 node.1 = Ok dist ∧ s ∈ ds_Segments dist
    ∧ sv_Collection s = CollectionID ∧ sv_Level s ≠ SegmentLevel_L0.

Lemma probe_node_spec CollectionID plan outs names ts node :
  (∃ s, node_asked CollectionID node s ∧ answers_no_ids node.2 node.1 plan outs ts s)
  ∧ (∃ w, probe_node CollectionID plan outs names ts node = Panic w)
  ∨ ¬ (∃ s, node_asked CollectionID node s ∧ answers_no_ids node.2 node.1 plan outs ts s)
  ∧ ∃ l, probe_node CollectionID plan outs names ts node = Ok l
      ∧ ∀ f, f ∈ l ↔ ∃ s, node_asked CollectionID node s ∧ holds_key node.2 node.1 plan outs names ts s f.
Proof.
  unfold probe_node, node_asked.
  pose proof (λ w, proj1 (calls_return node.2 node.1 (MkQuerySegments [] [] 0 0 [] [] [] 0) w)) as Hd.
  destruct (qn_GetDataDistribution node.2 node.1) as [dist|e|w]; [| |by destruct (Hd w)].
  2:{ right. split; [naive_solver|]. exists []. split; [done|]. intros f. rewrite elem_of_nil. naive_solver. }
  destruct (mapR_panics (probe_segment node.2 node.1 plan outs names ts)
    (answers_no_ids node.2 node.1 plan outs ts) (holds_key node.2 node.1 plan outs names ts)
    (List.filter (probed CollectionID) (ds_Segments dist)))
    as [[(s & Hs & Hno) [w ->]]|[Hnone (l & -> & Hl)]]; [intros s _; apply probe_segment_spec| |].
  - left. apply probed_asked in Hs. split; [|by eexists]. exists s. split; [by exists dist|done].
  - right. split.
    + intros (s & (dist' & [= <-] & Hs) & Hno). apply Hnone. exists s. by rewrite probed_asked.
    + eexists. split; [done|]. intros f. rewrite Hl. setoid_rewrite probed_asked. naive_solver.
Qed.

Lemma asked_range CollectionID sessions node qn s :
  asked CollectionID sessions node qn s
  ↔ (node, qn) ∈ range (getQueryNodeClients sessions) ∧ node_asked CollectionID (node, qn) s.
Proof. unfold asked. by rewrite range_perm, elem_of_map_to_list. Qed.

(** C25 (functional): [probe pk] asks every query node that it is connected to, and that tells what is
    loaded there, for the key in every segment of the collection that is loaded there and is
    not of level zero. If none of the successful answers lacks its message of keys, it
    reports exactly those segments whose answer is a success with keys, each with its node and
    the fields of the answer; calls and answers that fail are passed over. If one of the
    answers is a success without its message of keys, the command panics. *)
Theorem ProbePK_spec now cli base CollectionID PK OutputFields mvcc coll pkf ok datatype val schema sessions (qc : C) status shards :
  GetCollectionByIDVersion cli base CollectionID = Ok coll → GetPKField description coll = Ok (pkf, ok) →
  pk_value (mf_DataType pkf) PK = Ok (datatype, val) → ci_Schema (co_proto coll) = Some schema →
  ListSessions cli base = Ok sessions → getQueryCoordClient sessions = Ok qc →
  qc_GetShardLeaders qc CollectionID = Ok (status, shards) → ErrorCode status = ErrorCode_Success →
  let outs := output_fields OutputFields (cs_Fields schema) in
  let plan := termPlan_Marshal (MkTermPlan (mf_FieldID pkf) datatype (mf_AutoID pkf) (mf_IsPrimaryKey pkf) [val] outs) in
  let ts := uint64 (if decide (mvcc = 0) then int64 (ComposeTS now 0) else mvcc) in
  let run := ProbePKCommand (C:=C) description now cli base CollectionID PK OutputFields mvcc in
  let no_ids := ∃ node (qn : C) s,
    asked CollectionID sessions node qn s ∧ answers_no_ids qn node plan outs ts s in
  (no_ids ∧ ∃ w, run = Panic w)
  ∨ ¬ no_ids ∧ ∃ found, run = Ok found
      ∧ ∀ f, f ∈ found ↔ ∃ node (qn : C) s, asked CollectionID sessions node qn s
          ∧ holds_key qn node plan outs (field_names (cs_Fields schema)) ts s f.
Proof.
  intros Hcoll Hpk Hval Hs Hl Hqc Hld Hst outs plan ts run no_ids. unfold run, ProbePKCommand.
  rewrite Hcoll. cbn [mbind res_bind]. rewrite Hpk. cbn [mbind res_bind]. rewrite Hval. cbn [mbind res_bind].
  rewrite Hs, Hl. cbn [mbind res_bind]. rewrite Hqc. cbn [mbind res_bind]. rewrite Hld. cbn [mbind res_bind].
  rewrite bool_decide_false by (by intros ?). case_bool_decide as He.
  { right. split.
    - intros (node & qn & s & [Hn _] & _). by rewrite He, lookup_empty in Hn.
    - exists []. split; [done|]. intros f. rewrite elem_of_nil. split; [done|].
      intros (node & qn & s & [Hn _] & _). by rewrite He, lookup_empty in Hn. }
  fold outs plan.
  assert (uint64 (if bool_decide (mvcc = 0) then int64 (ComposeTS now 0) else mvcc) = ts) as ->.
  { unfold ts. destruct (decide (mvcc = 0)); [by rewrite bool_decide_true|by rewrite bool_decide_false]. }
  unfold no_ids. setoid_rewrite asked_range.
  destruct (mapR_panics (probe_node CollectionID plan outs (field_names (cs_Fields schema)) ts) _ _
    (range (getQueryNodeClients sessions)) (λ node _, probe_node_spec CollectionID plan outs _ ts node))
    as [[([node qn] & Hin & s & Hask & Hno) [w ->]]|[Hnone (l & -> & Hfound)]].
  - left. split; [by exists node, qn, s|by eexists].
  - right. split; [intros (node & qn & s & [Hin Hask] & Hno); apply Hnone; exists (node, qn); by eauto|].
    eexists. split; [done|]. intros f. rewrite Hfound. split.
    + intros ([node qn] & Hin & s & Hask & Hk). by exists node, qn, s.
    + intros (node & qn & s & [Hin Hask] & Hk). exists (node, qn). by eauto.
Qed.
End probe_properties.

(** ** Witnesses: a collection with a key, and two segments and one of level zero on the one
    query node, which finds the key in the second *)
#[local] Existing Instance coord_network.
Definition s_numbered (name : string) (id : Z) : Session := MkSession id name "10.0.0.1:1" false "" "" 0 "".
#[local] Instance probe_sessions : JsonSession := {|
  session_Marshal s := Ok (bytes_of_string (ServerName s));
  session_Unmarshal bs :=
    if bool_decide (bs = bytes_of_string "mix") then Ok (s_numbered "mixcoord" 1) else Ok (s_numbered "querynode" 4);
|}.
#[local] Instance probe_services : ProbeServices string := {|
  qc_GetShardLeaders c coll := Ok (MkStatus 0 "", [MkShard "dml_0_1v0" [4]]);
  qn_GetDataDistribution c id := Ok (MkDistribution id []
    [MkSegmentVersion 9 1 [] "dml_0_1v0" 2 2 ∅; MkSegmentVersion 10 1 [] "dml_0_1v0" 2 2 ∅; MkSegmentVersion 11 1 [] "dml_0_1v0" 2 1 ∅] []);
  qn_QuerySegments c req := Ok (MkQueryResult (MkStatus 0 "")
    (Some (if bool_decide (qr_SegmentIDs req = [10]) then Some (IntId [5]) else None)) [(100, "5")]);
  qn_Search c req := Ok (MkStatus 0 "");
  termPlan_Marshal p := [];
  annsPlan_Marshal p := [];
  placeholders_Marshal p := [];
  rand_Int63n n := 0;
  rand_Float32bits i := 0;
|}.
Definition probe_store : etcdKV (gmap string string) :=
  etcd_store [("by-dev/root-coord/collection/1", "c1"); ("by-dev/root-coord/fields/1/100", "pk");
              ("by-dev/session/mix", "mix"); ("by-dev/session/qn", "qn")].

Lemma ProbePK_spec_witness :
  ∃ found, ProbePKCommand (C:=string) (λ _, "") 1700000000000 probe_store "by-dev" 1 "5" [] 0 = Ok found
    ∧ MkFound 4 10 [("pk", "5")] ∈ found.
Proof.
  destruct (GetCollectionByIDVersion probe_store "by-dev" 1) as [coll| |] eqn:Hcoll; [|vm_compute in Hcoll; discriminate Hcoll..].
  destruct (ListSessions probe_store "by-dev") as [sessions| |] eqn:Hl; [|vm_compute in Hl; discriminate Hl..].
  assert (GetCollectionByIDVersion probe_store "by-dev" 1 = Ok coll) as Hc by exact Hcoll. vm_compute in Hc. injection Hc as Hc.
  assert (ListSessions probe_store "by-dev" = Ok sessions) as Hs by exact Hl. vm_compute in Hs. injection Hs as Hs.
  destruct (ProbePK_spec (C:=string) (λ _, "")
    ltac:(intros; split; discriminate) 1700000000000 probe_store "by-dev" 1 "5" [] 0 coll
    (MkModelField 100 "pk" true false 5 "" ∅) true 5 (Some (Int64Val 5))
    (with_Fields sample_schema [sample_field 100 "pk"] []) sessions "10.0.0.1:1" (MkStatus 0 "") [MkShard "dml_0_1v0" [4]])
    as [[(node & qn & s & _ & r & Hr & _ & Hno) _]|[_ (found & Hf & Hin)]].
  - exact Hcoll.
  - rewrite <-Hc. vm_compute. reflexivity.
  - vm_compute. reflexivity.
  - rewrite <-Hc. vm_compute. reflexivity.
  - exact Hl.
  - rewrite <-Hs. vm_compute. reflexivity.
  - reflexivity.
  - reflexivity.
  - cbn in Hr. injection Hr as <-. discriminate Hno.
  - exists found. split; [exact Hf|]. apply Hin.
    exists 4, "10.0.0.1:1", (MkSegmentVersion 10 1 [] "dml_0_1v0" 2 2 ∅). split; [split|].
    + rewrite <-Hs. vm_compute. reflexivity.
    + eexists. split_and!; [reflexivity|right; left|reflexivity|discriminate].
    + eexists _, (Some (IntId [5])), 1. split_and!; try reflexivity; discriminate.
Defined.

Lemma Serialize_numbers_witness : le_get (take 4 (drop 4 (Serialize [1; 1065353216]))) = 1065353216.
Proof.
  refine (proj2 (Serialize_numbers [1; 1065353216] 1 1065353216 eq_refl _)). unfold in_u. lia.
Defined.
