(* ===== verification/ShowCluster.v ===== *)
(** * The remaining show commands

    Models [states/etcd/show]: [session.go], [replica.go], [bulkinsert.go],
    [channel_watched.go], [stats_task.go], [database.go], [alias.go], [partition.go] and
    [user.go]: what each selects, how it is grouped and counted, and what it prints of it as
    records rather than text. *)

From S2P Require Export Balance ShowMeta Distribution.

(** ** [session.go] *)
Definition IsMain (s : Session) (comp : string) : bool := bool_decide (List.last (Split "/" (session_key s)) "" = comp).

(** A session and whether others have its server identifier. *)
Record CoordView := MkCoordView {
  cv_Coord : string;
  cv_Main : option (Session * bool);
  cv_StandBys : list (Session * bool);
}.
Record SessionsView := MkSessionsView {
  sv_Coords : list CoordView;
  sv_Nodes : list (string * list Session);
}.
Definition coord_view (isMixture : Session → bool) (componentGroups : gmap string (list Session)) (coord : string) : CoordView :=
  let sessions := default [] (componentGroups !! coord) in
  let main := List.find (λ session, IsMain session coord) sessions in
  let standBys := List.filter (λ session,
        match main with None => true | Some m => bool_decide (ServerID session ≠ ServerID m) end) sessions in
  MkCoordView coord (option_map (λ m, (m, isMixture m)) main) (map (λ s, (s, isMixture s)) standBys).
Definition printAsGroups (sessions : list Session) : SessionsView :=
  let sessionGroups := GroupBy ServerID sessions in
  let componentGroups := GroupBy ServerName sessions in
  let isMixture session := bool_decide (1 < zlen (default [] (sessionGroups !! ServerID session))) in
  let coords := if bool_decide (is_Some (componentGroups !! "mixcoord")) then ["mixcoord"]
                else ["rootcoord"; "datacoord"; "querycoord"; "indexcoord"] in
  MkSessionsView (map (coord_view isMixture componentGroups) coords)
    (map (λ node, (node, default [] (componentGroups !! node)))
       ["datanode"; "querynode"; "indexnode"; "proxy"; "streamingnode"]).
Definition SessionCommand {K} `{MetaKV K} `{JsonSession} (cli : K) (metaPath : string) : res SessionsView :=
  sessions ← ListSessions cli metaPath; Ok (printAsGroups sessions).

(** ** [replica.go] *)
Class ReplicaFields := {
  rp_ResourceGroup : Replica → string;
  rp_ChannelNodeInfos : Replica → gmap string (list Z);
}.
Record ReplicaView := MkReplicaView {
  rv_ID : Z; rv_ResourceGroup : string; rv_Nodes : list Z; rv_Shards : list (string * list Z);
}.
Record Replicas := MkReplicas { rs_Data : list Replica; rs_collections : gmap Z Collection }.

Section replicas.
Context `{ReplicaFields} `{MapOrder} `{StringMapOrder} `{SortSlice}.

(** [rs.collections[id].GetProto().Schema.Name] of a collection that may not be there. *)
Definition collection_name (c : option Collection) : res string :=
  match c with
  | None => Panic nil_dereference
  | Some c => match ci_Schema (co_proto c) with Some s => Ok (cs_Name s) | None => Panic nil_dereference end
  end.
Definition printReplica (r : Replica) : ReplicaView :=
  MkReplicaView (rp_ID r) (rp_ResourceGroup r) (sort_Slice (λ a b, bool_decide (a < b)) (rp_Nodes r))
    (string_range (rp_ChannelNodeInfos r)).
Definition Replicas_PrintAs (rs : Replicas) : res (list (Z * string * list ReplicaView)) :=
  mapR (λ group : Z * list Replica,
          name ← collection_name (rs_collections rs !! group.1);
          Ok (group.1, name, map printReplica group.2)) (range (GroupBy rp_CollectionID (rs_Data rs))).

(** The object that is printed as JSON: the collections and the total. *)
Definition json_replica (r : Replica) : ReplicaView :=
  MkReplicaView (rp_ID r) (rp_ResourceGroup r) (rp_Nodes r) (string_range (rp_ChannelNodeInfos r)).
Definition Replicas_printAsJSON (rs : Replicas) : res (list (Z * string * list ReplicaView) * Z) :=
  collections ← mapR (λ group : Z * list Replica,
          name ← (match rs_collections rs !! group.1 with None => Ok "" | c => collection_name c end);
          Ok (group.1, name, map json_replica group.2)) (range (GroupBy rp_CollectionID (rs_Data rs)));
  Ok (collections, zlen (rs_Data rs)).
End replicas.

Definition ReplicaCommand {K} `{MetaKV K} `{ProtoCodec CollectionInfo} `{ProtoCodec FieldSchema}
    `{ProtoCodec StructArrayFieldSchema} `{ProtoCodec FunctionSchema} `{ProtoCodec Replica}
    (cli : K) (metaPath : string) (CollectionID : Z) : res Replicas :=
  collections ← (if bool_decide (0 < CollectionID) then
                   collection ← GetCollectionByIDVersion cli metaPath CollectionID; Ok [collection]
                 else ListCollections cli metaPath
                        [λ c, bool_decide (CollectionID = 0) || bool_decide (CollectionID = ci_ID (co_proto c))]);
  replicas ← ListReplicas cli metaPath
               [λ r, bool_decide (CollectionID = 0) || bool_decide (CollectionID = rp_CollectionID (GetProto r))];
  Ok (MkReplicas (map GetProto replicas) (foldl (λ m c, <[ci_ID (co_proto c) := c]> m) ∅ collections)).

(** ** [bulkinsert.go] *)
Class ImportFields := {
  ij_CollectionID : ImportJob → Z;
  ij_State : ImportJob → Z;
  ij_Files : ImportJob → list (list string);
  ImportJobState_String : Z → string;
}.
Record ImportTask := MkImportTask { it_JobID : Z; it_TaskID : Z; it_FileStats : list string }.
#[export] Instance ImportTask_eq_dec : EqDecision ImportTask.
Proof. solve_decision. Defined.

(** The files that are printed, and the number of the others. *)
Definition printFileLimit : nat := 3.
Definition printFiles {A} (files : list A) (showAllFiles : bool) : list A * option Z :=
  if showAllFiles || bool_decide (zlen files <= Z.of_nat printFileLimit) then (files, None)
  else (take printFileLimit files, Some (zlen files - Z.of_nat printFileLimit)).

(** What is printed of a job. *)
Inductive JobView :=
  | SimpleJob (job : ImportJob)
  | JobTasksFailed (job : ImportJob)
  | DetailedJob (job : ImportJob) (files : list (list string) * option Z)
      (preimport import : list (Z * (list string * option Z))).
Section bulkinsert.
Context {K : Type} `{MetaKV K} `{ImportFields} `{MapOrder} `{StringMapOrder}.
Context `{ProtoCodec ImportJob} `{ProtoCodec ImportTask}.

Definition PrintDetailedImportJob (cli : K) (basePath : string) (job : ImportJob) (showAllFiles : bool) : res JobView :=
  let view w := (it_TaskID (GetProto w), printFiles (it_FileStats (GetProto w)) showAllFiles) in
  match ListPreImportTasks cli basePath [λ task, bool_decide (it_JobID (GetProto task) = ij_JobID job)] with
  | Panic w => Panic w
  | Err _ => Ok (JobTasksFailed job)
  | Ok preimportTasks =>
      match ListImportTasks cli basePath [λ task, bool_decide (it_JobID (GetProto task) = ij_JobID job)] with
      | Panic w => Panic w
      | Err _ => Ok (JobTasksFailed job)
      | Ok importTasks =>
          Ok (DetailedJob job (printFiles (ij_Files job) showAllFiles) (map view preimportTasks) (map view importTasks))
      end
  end.
Definition import_filter (JobID CollectionID : Z) (State : string) (job : ImportJob) : bool :=
  (bool_decide (JobID = 0) || bool_decide (ij_JobID job = JobID))
  && (bool_decide (CollectionID = 0) || bool_decide (ij_CollectionID job = CollectionID))
  && (bool_decide (State = "") || EqualFold (ImportJobState_String (ij_State job)) State).

(** The jobs, the number of them in each state and their total; [None] when details are
    asked for without a job. *)
Definition count_job_state (m : gmap string Z) (job : ImportJob) : gmap string Z :=
  let s := ImportJobState_String (ij_State job) in <[s := int64 (default 0 (m !! s) + 1)]> m.
Definition BulkInsertCommand (cli : K) (metaPath : string) (JobID CollectionID : Z) (State : string) (Detail ShowAllFiles : bool)
    : res (option (list JobView * list (string * Z) * Z)) :=
  match ListImportJobs cli metaPath [λ job, import_filter JobID CollectionID State (GetProto job)] with
  | Panic w => Panic w
  | Err _ => Ok None
  | Ok jobs =>
      let shown := concat (map snd (range (GroupBy ij_CollectionID (map GetProto jobs)))) in
      if Detail && bool_decide (JobID = 0) && bool_decide (shown ≠ []) then Ok None
      else
        views ← mapR (λ job, if Detail then PrintDetailedImportJob cli metaPath job ShowAllFiles else Ok (SimpleJob job)) shown;
        let countMap := foldl count_job_state ∅ shown in
        Ok (Some (views, string_range countMap, foldl (λ n kv, int64 (n + kv.2)) 0 (string_range countMap)))
  end.
End bulkinsert.

(** ** [channel_watched.go], [database.go], [partition.go] and [user.go]: the rows *)
Definition ChannelWatchedCommand {K} `{MetaKV K} `{ProtoCodec ChannelWatchInfo} (cli : K) (metaPath : string)
    (CollectionID : Z) (WithoutSchema : bool) : res (list (ProtoWrapper ChannelWatchInfo)) :=
  infos ← ListChannelWatch cli metaPath [];
  filterR (λ ch,
    same ← (if bool_decide (CollectionID = 0) then Ok true
            else vchan ← deref (cw_Vchan (GetProto ch)); Ok (bool_decide (vc_CollectionID vchan = CollectionID)));
    Ok ((same : bool) && (negb WithoutSchema || bool_decide (cw_Schema (GetProto ch) = None)))) infos.
Definition DatabaseCommand {K} `{MetaKV K} `{ProtoCodec DatabaseInfo} (cli : K) (metaPath : string)
    (DatabaseName : string) (DatabaseID : Z) : res (list (ProtoWrapper DatabaseInfo)) :=
  ListDatabase cli metaPath [λ db,
    (bool_decide (DatabaseName = "") || bool_decide (di_Name (GetProto db) = DatabaseName))
    && (bool_decide (DatabaseID = 0) || bool_decide (di_Id (GetProto db) = DatabaseID))].
Definition PartitionCommand {K} `{MetaKV K} `{ProtoCodec PartitionInfo} (cli : K) (metaPath : string) (CollectionID : Z)
    : res (list (ProtoWrapper PartitionInfo)) :=
  if bool_decide (CollectionID = 0) then Err (Errorf "collection id not provided")
  else
    partitions ← ListCollectionPartitions cli metaPath CollectionID;
    if bool_decide (zlen partitions = 0) then Err (Errorf "no partition found for collection") else Ok partitions.
Record CredentialInfo := MkCredential { cr_Username : string; cr_Tenant : string }.
Definition UserCommand {K} `{MetaKV K} `{JsonCodec CredentialInfo} (cli : K) (basePath : string)
    : res (list (CredentialInfo * string)) := ListUsers cli basePath.

(** ** [alias.go]: the text that the result set returns, and what it writes to the standard
    output instead *)
Record AliasInfo := MkAlias { al_AliasName : string; al_CollectionId : Z; al_State : Z; al_CreatedTime : Z; al_DbId : Z }.
Definition AliasCommand {K} `{MetaKV K} `{ProtoCodec AliasInfo} (cli : K) (metaPath version : string) (DBID : Z)
    : res (list (ProtoWrapper AliasInfo)) :=
  ListAlias cli metaPath version [λ a, bool_decide (DBID = -1) || bool_decide (DBID = al_DbId (GetProto a))].
Inductive AliasLine := AliasSeparator | AliasDatabase (dbid : Z) | AliasRow (a : AliasInfo).
Definition Aliases_PrintAs `{MapOrder} (aliases : list AliasInfo) : list AliasLine * list AliasLine :=
  let groups := range (GroupBy al_DbId aliases) in
  (map (λ _, AliasSeparator) groups, concat (map (λ g, AliasDatabase g.1 :: map AliasRow g.2) groups)).

(** ** [stats_task.go] *)
Class StatsTaskFields := {
  st_FailReason : StatsTask → string;
  time_ParseDuration : string → option Z;            (* nanoseconds *)
  time_ParseLocal : string → option (Z * Z);         (* seconds and nanoseconds *)
}.
Definition time := (Z * Z)%type.
Definition time_Before (t u : time) : bool := bool_decide (t.1 < u.1) || bool_decide (t.1 = u.1) && bool_decide (t.2 < u.2).
Definition zero_time : time := (-62135596800, 0).
(** [t.Add(-d)]. *)
Definition time_Sub (t : time) (d : Z) : time :=
  let n := t.1 * 1000000000 + t.2 - d in (n / 1000000000, n mod 1000000000).

Section stats_task.
Context {K : Type} `{MetaKV K} `{StatsTaskFields} `{EnumStrings} `{MapOrder} `{ProtoCodec StatsTask}.

Definition since_time (now : time) (Since : string) : res time :=
  if bool_decide (Since = "") then Ok zero_time
  else match time_ParseDuration Since with
       | Some duration => Ok (time_Sub now duration)
       | None => match time_ParseLocal Since with
                 | Some t => Ok t
                 | None => Err (Errorf "invalid since format")
                 end
       end.
Definition show_stats_filter (p : StatsTaskParam) (sinceTime : time) (Failed : bool) (task : StatsTask) : bool :=
  if bool_decide (sp_SubJobType p ≠ "") && bool_decide (sp_SubJobType p ≠ StatsSubJob_String (st_SubJobType task)) then false
  else if bool_decide (sp_TaskID p ≠ "") && bool_decide (FormatInt (st_TaskID task) ≠ sp_TaskID p) then false
  else if bool_decide (sp_State p ≠ "") && bool_decide (JobState_String (st_State task) ≠ sp_State p) then false
  else if bool_decide (sp_CollectionID p ≠ 0) && bool_decide (st_CollectionID task ≠ sp_CollectionID p) then false
  else if bool_decide (sp_SegmentID p ≠ 0) && bool_decide (st_SegmentID task ≠ sp_SegmentID p) then false
  else if negb (bool_decide (sinceTime = zero_time)) && time_Before (ParseTS (uint64 (st_TaskID task))).1 sinceTime then false
  else if Failed && bool_decide (st_FailReason task = "") then false
  else true.

(** The tasks of each collection, with the time that their identifier holds. *)
Definition StatsTaskCommand (now : time) (cli : K) (metaPath : string) (p : StatsTaskParam) (Since : string) (Failed : bool)
    : res (list (Z * list (StatsTask * time))) :=
  sinceTime ← since_time now Since;
  statsTasks ← ListStatsTask cli metaPath [λ task, show_stats_filter p sinceTime Failed (GetProto task)];
  Ok (map (λ g, (g.1, map (λ task, (task, (ParseTS (uint64 (st_TaskID task))).1)) g.2))
        (range (GroupBy st_CollectionID (map GetProto statsTasks)))).
End stats_task.

(** ** Properties *)
Lemma default_GroupBy {A B} `{Countable B} (f : A → B) l k : default [] (GroupBy f l !! k) = filter (λ x, f x = k) l.
Proof. rewrite GroupBy_lookup. cbv zeta. destruct (decide (filter (λ x, f x = k) l = [])) as [->|]; done. Qed.

(** [show session]: the nodes of each kind are those of that name, in the order of the
    listing.  Of each coordinator, or of the one that has taken their place, the main
    session is the first of that name whose key ends in it, and the others are on stand-by,
    but for those of the main session's server. *)
Theorem SessionCommand_spec {K} `{MetaKV K} `{JsonSession} (cli : K) base sessions :
  ListSessions cli base = Ok sessions →
  let named name := filter (λ s, ServerName s = name) sessions in
  let shared s := bool_decide (1 < zlen (filter (λ s', ServerID s' = ServerID s) sessions)) in
  ∃ view, SessionCommand cli base = Ok view
    ∧ sv_Nodes view = map (λ n, (n, named n)) ["datanode"; "querynode"; "indexnode"; "proxy"; "streamingnode"]
    ∧ map cv_Coord (sv_Coords view)
      = (if decide (named "mixcoord" = []) then ["rootcoord"; "datacoord"; "querycoord"; "indexcoord"] else ["mixcoord"])
    ∧ ∀ v, v ∈ sv_Coords view →
        cv_Main v = option_map (λ m, (m, shared m)) (List.find (λ s, IsMain s (cv_Coord v)) (named (cv_Coord v)))
        ∧ cv_StandBys v = map (λ s, (s, shared s))
            (filter (λ s, option_map (λ m, ServerID m.1) (cv_Main v) ≠ Some (ServerID s)) (named (cv_Coord v))).
Proof.
  intros Hl named shared. unfold SessionCommand. rewrite Hl. cbn [mbind res_bind]. eexists. split; [reflexivity|].
  unfold printAsGroups. cbn [sv_Nodes sv_Coords]. split_and!.
  - apply map_ext. intros n. by rewrite default_GroupBy.
  - rewrite map_map. unfold coord_view. cbn [cv_Coord]. rewrite map_id.
    rewrite GroupBy_lookup. cbv zeta. fold (named "mixcoord").
    destruct (decide (named "mixcoord" = [])); [by rewrite bool_decide_false by (by intros [])|].
    by rewrite bool_decide_true by (by eexists).
  - intros v Hv. apply list_elem_of_fmap in Hv as (coord & -> & _). unfold coord_view. cbn [cv_Main cv_Coord cv_StandBys].
    assert (∀ s, bool_decide (1 < zlen (default [] (GroupBy ServerID sessions !! ServerID s))) = shared s) as Hsh
      by (intros s; by rewrite default_GroupBy).
    rewrite default_GroupBy. fold (named coord).
    destruct (List.find (λ s, IsMain s coord) (named coord)) as [m|]; cbn [option_map].
    + rewrite Hsh. split; [done|]. erewrite <-(List_filter_iff (λ s, bool_decide (ServerID s ≠ ServerID m))).
      * apply map_ext. intros s. by rewrite Hsh.
      * intros s. rewrite bool_decide_eq_true. split; [intros Hne [= Heq]; by apply Hne|intros Hne Heq; apply Hne; cbn; by f_equal].
    + split; [done|]. erewrite <-(List_filter_iff (λ _, true)); [|done]. apply map_ext. intros s. by rewrite Hsh.
Qed.

(** ** Replicas *)
Section replica_properties.
Context `{ReplicaFields} `{MapOrder} `{StringMapOrder} `{SortSlice}.

Lemma groups_replicas (data : list Replica) :
  concat (map snd (range (GroupBy rp_CollectionID data))) ≡ₚ data.
Proof. rewrite range_perm. apply concat_GroupBy. Qed.

Lemma group_of (data : list Replica) r :
  r ∈ data → (rp_CollectionID r, filter (λ r', rp_CollectionID r' = rp_CollectionID r) data) ∈ range (GroupBy rp_CollectionID data).
Proof.
  intros Hr. rewrite range_perm, elem_of_map_to_list, GroupBy_lookup. cbv zeta. rewrite decide_False; [done|].
  intros He. assert (r ∈ filter (λ r', rp_CollectionID r' = rp_CollectionID r) data) as Hin by (by apply list_elem_of_filter).
  rewrite He in Hin. by apply elem_of_nil in Hin.
Qed.

(** A replica of a collection that is not listed, say one that was dropped, ends
    [show replica] with a nil pointer, unless it is shown as JSON: there the collection has
    no name.  The JSON object has every replica once. *)
Theorem Replica_without_collection rs r :
  r ∈ rs_Data rs → rs_collections rs !! rp_CollectionID r = None →
  (∀ id c, rs_collections rs !! id = Some c → is_Some (ci_Schema (co_proto c))) →
  (∃ w, Replicas_PrintAs rs = Panic w)
  ∧ ∃ collections, Replicas_printAsJSON rs = Ok (collections, zlen (rs_Data rs))
      ∧ concat (map snd collections) ≡ₚ map json_replica (rs_Data rs)
      ∧ ∃ views, (rp_CollectionID r, "", views) ∈ collections.
Proof.
  intros Hr Hm Hs. pose proof (group_of _ _ Hr) as Hg. split.
  - apply list_elem_of_lookup in Hg as [i Hi].
    eapply (mapR_panic _ _ i); [exact Hi|cbn [fst]; rewrite Hm; reflexivity|].
    intros g e _. unfold collection_name. destruct (rs_collections rs !! g.1) as [c|]; [|done].
    by destruct (ci_Schema (co_proto c)).
  - unfold Replicas_printAsJSON. set (name := λ id, match rs_collections rs !! id with
      | Some c => match ci_Schema (co_proto c) with Some s => cs_Name s | None => "" end | None => "" end).
    rewrite (mapR_all _ (λ g : Z * list Replica, (g.1, name g.1, map json_replica g.2))).
    + cbn [mbind res_bind]. eexists. split; [reflexivity|]. split.
      * rewrite map_map. cbn [snd]. rewrite <-(groups_replicas (rs_Data rs)) at 2. generalize (range (GroupBy rp_CollectionID (rs_Data rs))).
        intros gs. induction gs as [|g gs IH]; [done|]. cbn [map concat]. by rewrite map_app, IH.
      * eexists. apply list_elem_of_fmap. eexists (_, _). split; [|exact Hg]. cbn [fst snd]. unfold name. by rewrite Hm.
    + intros g _. unfold name. destruct (rs_collections rs !! g.1) as [c|] eqn:Hc; [|done].
      unfold collection_name. by destruct (Hs _ _ Hc) as [s ->].
Qed.
End replica_properties.

(** ** Jobs *)
Section job_properties.
Context {K : Type} `{MetaKV K} `{ImportFields} `{MapOrder} `{StringMapOrder}.
Context `{ProtoCodec ImportJob} `{ProtoCodec ImportTask}.

Definition in_state (s : string) (job : ImportJob) : Prop := ImportJobState_String (ij_State job) = s.
#[local] Instance in_state_dec s job : Decision (in_state s job).
Proof. unfold in_state. apply _. Defined.

Lemma count_states jobs :
  (∀ s, default 0 (foldl count_job_state ∅ jobs !! s) = int64 (zlen (filter (in_state s) jobs)))
  ∧ map_sum (foldl count_job_state ∅ jobs) ≡64 zlen jobs.
Proof.
  induction jobs as [|job jobs [IHs IHt]] using rev_ind; [done|]. rewrite foldl_app. cbn [foldl]. unfold count_job_state at 1 3.
  set (m := foldl count_job_state ∅ jobs) in *. set (k := ImportJobState_String (ij_State job)). split.
  - intros s. rewrite list.filter_app. destruct (decide (k = s)) as [<-|Hne].
    + rewrite lookup_insert_eq, IHs. cbn [default]. rewrite (filter_cons_True (in_state k)) by done. rewrite wraps_add_l by lia.
      unfold zlen. rewrite length_app, Nat2Z.inj_add. done.
    + rewrite lookup_insert_ne by done. rewrite IHs, (filter_cons_False (in_state s)) by done. by rewrite list.filter_nil, app_nil_r.
  - rewrite map_sum_insert, int64_eq64. rewrite (map_sum_delete m k) in IHt.
    unfold zlen in *. rewrite length_app. cbn [length]. 
    replace (Z.of_nat (length jobs + 1)) with (1 + Z.of_nat (length jobs)) by lia. rewrite <-IHt. constructor. f_equal. lia.
Qed.

(** [show bulkinsert] without details: every job that passes the filters is printed once,
    and the counts of the states and the total are their numbers. *)
Theorem BulkInsert_counts (cli : K) base JobID CollectionID State ShowAllFiles jobs :
  ListImportJobs cli base [λ job, import_filter JobID CollectionID State (GetProto job)] = Ok jobs →
  ∃ views counts, BulkInsertCommand cli base JobID CollectionID State false ShowAllFiles = Ok (Some (views, counts, int64 (zlen jobs)))
    ∧ views ≡ₚ map (λ job, SimpleJob (GetProto job)) jobs
    ∧ ∀ s n, (s, n) ∈ counts → n = int64 (zlen (filter (in_state s) (map GetProto jobs))).
Proof.
  intros Hl. unfold BulkInsertCommand. rewrite Hl. cbn [andb].
  set (shown := concat (map snd (range (GroupBy ij_CollectionID (map GetProto jobs))))).
  assert (shown ≡ₚ map GetProto jobs) as Hp by (unfold shown; rewrite range_perm; apply concat_GroupBy).
  rewrite (mapR_all _ SimpleJob) by done. cbn [mbind res_bind]. destruct (count_states shown) as [Hs Ht].
  assert (foldl (λ n kv, int64 (n + kv.2)) 0 (string_range (foldl count_job_state ∅ shown)) = int64 (zlen jobs)) as ->.
  { rewrite foldl_int64_0. apply eq64_int64. rewrite (sum_Z_perm _ _ _ (string_range_perm _)).
    change (sum_Z (λ x, x.2) (map_to_list (foldl count_job_state ∅ shown))) with (map_sum (foldl count_job_state ∅ shown)).
    rewrite Ht. unfold zlen. by rewrite Hp, length_map. }
  eexists _, _. split; [reflexivity|]. split.
  - rewrite Hp, map_map. done.
  - intros s n Hin. rewrite string_range_perm, elem_of_map_to_list in Hin. specialize (Hs s). rewrite Hin in Hs. cbn [default] in Hs. unfold id in Hs.
    rewrite Hs. unfold zlen. by rewrite Hp.
Qed.
End job_properties.

(** The text that [show alias] returns has no alias in it: the rows are written to the
    standard output. *)
Lemma Aliases_PrintAs_rows `{MapOrder} aliases :
  Forall (λ l, l = AliasSeparator) (Aliases_PrintAs aliases).1
  ∧ ∀ a, a ∈ aliases → AliasRow a ∈ (Aliases_PrintAs aliases).2.
Proof.
  unfold Aliases_PrintAs. cbn [fst snd]. split.
  - apply list.Forall_forall. by intros l (g & -> & _)%list_elem_of_fmap.
  - intros a Ha. apply elem_of_concat_map. exists (al_DbId a, filter (λ a', al_DbId a' = al_DbId a) aliases). split.
    + rewrite range_perm, elem_of_map_to_list, GroupBy_lookup. cbv zeta. rewrite decide_False; [done|].
      intros He. assert (a ∈ filter (λ a', al_DbId a' = al_DbId a) aliases) as Hin by (by apply list_elem_of_filter).
      rewrite He in Hin. by apply elem_of_nil in Hin.
    + cbn [fst snd]. right. apply list_elem_of_fmap. exists a. split; [done|]. by apply list_elem_of_filter.
Qed.

(** ** Witnesses: two sessions of one server, and an import job; a replica of collection 7,
    which is not listed *)
#[local] Instance view_sessions : JsonSession := {|
  session_Marshal s := Ok (bytes_of_string (ServerName s));
  session_Unmarshal bs :=
    if bool_decide (bs = bytes_of_string "qn") then Ok (MkSession 4 "querynode" "10.0.0.1:1" false "" "" 0 "")
    else Ok (MkSession 4 "rootcoord" "10.0.0.1:1" false "" "" 0 "");
|}.
#[local] Instance view_jobs : ProtoCodec ImportJob := table_codec [("j1", MkImportJob 1 ""); ("j2", MkImportJob 2 "")].
#[local] Instance view_tasks : ProtoCodec ImportTask := table_codec [].
#[local] Instance view_import_fields : ImportFields := {|
  ij_CollectionID j := 7; ij_State j := ij_JobID j; ij_Files j := []; ImportJobState_String := FormatInt;
|}.
#[local] Instance view_replica_fields : ReplicaFields := {| rp_ResourceGroup r := "__default"; rp_ChannelNodeInfos r := ∅ |}.
Definition view_store : etcdKV (gmap string string) :=
  etcd_store [("by-dev/session/querynode-4", "qn"); ("by-dev/session/rootcoord", "rc");
              ("by-dev/datacoord-meta/import-job/1", "j1"); ("by-dev/datacoord-meta/import-job/2", "j2")].

Lemma SessionCommand_spec_witness :
  ∃ view, SessionCommand view_store "by-dev" = Ok view ∧ map cv_Coord (sv_Coords view) = ["rootcoord"; "datacoord"; "querycoord"; "indexcoord"].
Proof.
  destruct (ListSessions view_store "by-dev") as [sessions| |] eqn:Hl; [|vm_compute in Hl; discriminate Hl..].
  destruct (SessionCommand_spec view_store "by-dev" sessions Hl) as (view & Hv & _ & Hc & _).
  exists view. split; [exact Hv|]. rewrite Hc. vm_compute in Hl. injection Hl as <-. vm_compute. reflexivity.
Defined.

Lemma Replica_without_collection_witness :
  ∃ w, Replicas_PrintAs (MkReplicas [MkReplica 3 7 [4]] ∅) = Panic w.
Proof.
  refine (proj1 (Replica_without_collection (MkReplicas [MkReplica 3 7 [4]] ∅) (MkReplica 3 7 [4]) _ _ _)).
  - left.
  - reflexivity.
  - intros id c Hc. discriminate Hc.
Defined.

Lemma BulkInsert_counts_witness :
  ∃ views counts, BulkInsertCommand view_store "by-dev" 0 7 "" false false = Ok (Some (views, counts, 2)) ∧ length views = 2%nat.
Proof.
  destruct (BulkInsert_counts view_store "by-dev" 0 7 "" false
    [NewProtoWrapper (MkImportJob 1 "") "by-dev/datacoord-meta/import-job/1";
     NewProtoWrapper (MkImportJob 2 "") "by-dev/datacoord-meta/import-job/2"]) as (views & counts & Hb & Hv & _).
  - vm_compute. reflexivity.
  - exists views, counts. split; [exact Hb|]. rewrite Hv. reflexivity.
Defined.
