(* ===== verification/Workspace.v ===== *)
(** * Configuration and workspaces

    Models [configs] and what [states/load_backup.go], [states/open.go] and
    [states/backup_mock_connect.go] do with folders: the configuration file and its first
    creation, the folder of a workspace, the description that is kept in it, and what
    becomes of it when the state is closed.  The file system is a map of paths; etcd and the
    YAML encoding are interfaces. *)

From S2P Require Export Restore Framework Completion Listing.

(** ** Package [os] on a map: [None] is a directory *)
Abbreviation files := (gmap string (option (list byte))).
Inductive StatResult := NotExist | StatFailed | IsDir | IsFile (bs : list byte).

(** The working directory is there; below a file there is nothing, which is another error. *)
Definition parents (p : string) : list string :=
  map (λ n, let q := Join "/" (take n (Split "/" p)) in if bool_decide (q = "") then "/" else q)
    (seq 1 (length (Split "/" p) - 1)).
Definition below_file (fs : files) (p : string) : bool :=
  existsb (λ q, match fs !! q with Some (Some _) => true | _ => false end) (parents p).
Definition os_Stat (fs : files) (p : string) : StatResult :=
  if bool_decide (p = "") then NotExist
  else if below_file fs p then StatFailed
  else match fs !! p with
       | Some None => IsDir
       | Some (Some bs) => IsFile bs
       | None => if bool_decide (p = ".") || bool_decide (p = "/") then IsDir else NotExist
       end.
Definition os_Mkdir (fs : files) (p : string) : files * res unit :=
  match os_Stat fs p, os_Stat fs (path_Dir p) with
  | NotExist, IsDir => (<[p := None]> fs, Ok tt)
  | _, _ => (fs, Err (Errorf "mkdir"))
  end.
Fixpoint mkdirs (fs : files) (ps : list string) : files * res unit :=
  match ps with
  | [] => (fs, Ok tt)
  | p :: ps => match os_Stat fs p with
               | IsDir => mkdirs fs ps
               | NotExist => mkdirs (<[p := None]> fs) ps
               | _ => (fs, Err (Errorf "mkdir: not a directory"))
               end
  end.
Definition os_MkdirAll (fs : files) (p : string) : files * res unit :=
  if bool_decide (p = "") then (fs, Err (Errorf "mkdir: no such file or directory")) else mkdirs fs (parents p ++ [p]).
(** [os.Create], and the contents written before the file is closed. *)
Definition os_WriteNew (fs : files) (p : string) (bs : list byte) : files * res unit :=
  match os_Stat fs p, os_Stat fs (path_Dir p) with
  | NotExist, IsDir | IsFile _, IsDir => (<[p := Some bs]> fs, Ok tt)
  | _, _ => (fs, Err (Errorf "open"))
  end.
Definition os_Open (fs : files) (p : string) : res (list byte) :=
  match os_Stat fs p with IsFile bs => Ok bs | _ => Err (Errorf "open") end.
Definition os_RemoveAll (fs : files) (p : string) : files :=
  filter (λ kv, negb (bool_decide (kv.1 = p) || HasPrefix kv.1 (p +:+ "/")) = true) fs.

(** ** [configs] *)
Definition configFileName := "birdwatcher.yaml".
Definition defaultWorkspace := "bw_workspace".
Definition EnvOutputFormat := "BW_OUTPUT_FORMAT".
Definition ErrConfigNotFound : goerr := Errorf "config not found".
Definition ErrConfigSourceNotFound : goerr := Errorf "config source not found".
Definition errConfigPathNotExist : goerr := Errorf "config path not exist".

Record Config := MkConfig { ConfigPath : string; WorkspacePath : string; OutputFormat : string }.
(** [yaml.Marshal] of the two settings, and [yaml.Unmarshal] over a configuration. *)
Class Yaml := {
  yaml_Marshal : string → string → res (list byte);
  yaml_Unmarshal : list byte → Config → Config * res unit;
}.

Definition GetGlobalOutputFormat (env : gmap string string) (c : option Config) : string :=
  match env !! EnvOutputFormat with
  | Some envFormat => if bool_decide (envFormat ≠ "") then envFormat
                      else match c with Some c => OutputFormat c | None => "" end
  | None => match c with Some c => OutputFormat c | None => "" end
  end.

(** The one source of settings is the environment. *)
Definition GetConfig (env : gmap string string) (source key : string) : res string :=
  if bool_decide (strings_ToLower source = "env") then
    match env !! key with Some value => Ok value | None => Err ErrConfigNotFound end
  else Err ErrConfigSourceNotFound.
Definition SetConfig (env : gmap string string) (source key value : string) : gmap string string * res unit :=
  if bool_decide (strings_ToLower source = "env") then (<[key := value]> env, Ok tt)
  else (env, Err ErrConfigSourceNotFound).

Section config.
Context `{Yaml}.

Definition getConfigPath (c : Config) : string := path_Join [ConfigPath c; configFileName].
Definition checkConfigPath (fs : files) (c : Config) : res unit :=
  match os_Stat fs (ConfigPath c) with
  | NotExist => Err errConfigPathNotExist
  | StatFailed => Err (Errorf "stat")
  | IsFile _ => Err (Errorf "config path is file")
  | IsDir => Ok tt
  end.
Definition config_load (fs : files) (c : Config) : Config * res unit :=
  match checkConfigPath fs c with
  | Ok _ =>
      match os_Open fs (getConfigPath c) with
      | Ok bs => yaml_Unmarshal bs c
      | Err e => (c, Err e)
      | Panic w => (c, Panic w)
      end
  | r => (c, r)
  end.
(** The file is there, empty, also when the settings cannot be encoded. *)
Definition createDefault (fs : files) (c : Config) : files * Config * res unit :=
  let '(fs, r) := os_MkdirAll fs (ConfigPath c) in
  match r with
  | Ok _ =>
      let '(fs, r) := os_WriteNew fs (getConfigPath c) [] in
      match r with
      | Ok _ =>
          let c := MkConfig (ConfigPath c) defaultWorkspace (OutputFormat c) in
          match yaml_Marshal (WorkspacePath c) (OutputFormat c) with
          | Ok bs => ((os_WriteNew fs (getConfigPath c) bs).1, c, Ok tt)
          | Err e => (fs, c, Err e)
          | Panic w => (fs, c, Panic w)
          end
      | r => (fs, c, r)
      end
  | r => (fs, c, r)
  end.
(** The workspace folder is made if that is possible. *)
Definition NewConfig (fs : files) (configPath : string) : files * Config * res unit :=
  let '(config, err) := config_load fs (MkConfig configPath "" "") in
  let '(fs, config, err) := if bool_decide (err = Err errConfigPathNotExist) then createDefault fs config
                            else (fs, config, err) in
  ((os_MkdirAll fs (WorkspacePath config)).1, config, err).
End config.

(** ** Folders of [load_backup.go] *)
Definition checkIsDirOrCreate (fs : files) (path : string) : files * res bool :=
  match os_Stat fs path with
  | NotExist => let '(fs, r) := os_Mkdir fs path in (fs, _ ← r; Ok false)
  | StatFailed => (fs, Panic "invalid memory address or nil pointer dereference")
  | IsFile _ => (fs, Err (Errorf "path is a folder"))
  | IsDir => (fs, Ok true)
  end.
Definition createWorkspaceFolder (fs : files) (config : Config) (workspaceName : string) : files * res string :=
  let '(fs, r) := checkIsDirOrCreate fs (WorkspacePath config) in
  match r with
  | Panic w => (fs, Panic w)
  | Err _ => (fs, Ok "")
  | Ok _ =>
      let workPath := path_Join [WorkspacePath config; workspaceName] in
      let '(fs, r) := checkIsDirOrCreate fs workPath in
      match r with
      | Panic w => (fs, Panic w)
      | Err _ => (fs, Ok "")
      | Ok preExist => (fs, Ok (if preExist : bool then "" else workPath))
      end
  end.
(** The name of the workspace of [load-backup], and its folder. *)
Definition backup_workspace (fs : files) (config : Config) (backupFile : string) (UseWorkspace : bool) (WorkspaceName : string)
    : files * res string :=
  if UseWorkspace then createWorkspaceFolder fs config (if bool_decide (WorkspaceName = "") then path_Base backupFile else WorkspaceName)
  else (fs, Ok WorkspaceName).
Definition backup_ParseArgs (args : list string) : res string :=
  match args with
  | [] => Err (Errorf "no backup file provided")
  | [file] => Ok file
  | _ => Err (Errorf "only one backup file is allowed")
  end.

(** ** The state of a workspace ([backup_mock_connect.go]) *)
Definition workspaceMetaFile := ".bw_project".
Record WorkspaceMeta := MkWorkspaceMeta { wm_Version : string; wm_Instance : string; wm_MetaPath : string }.

(** [embed.StartEtcd] over a folder: a client, and the folder with its data. *)
Class EmbedEtcd (K : Type) := {
  StartEtcd : files → string → files * res K;
  TempDir : files → files * res string;
}.

(** The file is read through a [bufio.Reader], 4096 bytes at a time. *)
Fixpoint chunks (fuel : nat) (bs : list byte) : list (list byte) :=
  match fuel, bs with
  | S fuel, _ :: _ => take 4096 bs :: chunks fuel (drop 4096 bs)
  | _, _ => []
  end.
Definition file_reader (bs : list byte) : bufio_Reader := MkRd (chunks (length bs) bs) EOF.

Section workspace.
Context {K : Type} `{EmbedEtcd K} `{ProtoCodec WorkspaceMeta}.

Definition startEmbedEtcdServer (fs : files) (workspaceName : string) (useWorkspace : bool) : files * res (K * string) :=
  let dir := if useWorkspace then match os_Stat fs workspaceName with IsDir => workspaceName | _ => "" end else "" in
  let '(fs, r) := if bool_decide (dir = "") then TempDir fs else (fs, Ok dir) in
  match r with
  | Ok dir => let '(fs, r) := StartEtcd fs dir in (fs, client ← r; Ok (client, dir))
  | Err e => (fs, Err e)
  | Panic w => (fs, Panic w)
  end.

(** The client, the folder of the server, the working folder and the instance. *)
Record Workspace := MkWorkspace { ws_client : K; ws_server : string; ws_workDir : string; ws_instanceName : string }.

Definition writeWorkspaceMeta (fs : files) (s : Workspace) (path : string) : files :=
  match os_WriteNew fs path [] with
  | (fs, Ok _) =>
      match proto_Marshal (MkWorkspaceMeta "0.0.1" (ws_instanceName s) "meta") with
      | Ok bs => (os_WriteNew fs path (wr_out (bufio_Flush (writeBackupBytes bufio_NewWriter bs)))).1
      | _ => fs
      end
  | (fs, _) => fs
  end.
Definition readWorkspaceMeta (fs : files) (s : Workspace) (path : string) : res Workspace :=
  match os_Open fs path with
  | Ok bs =>
      match (readFixLengthHeader (T:=WorkspaceMeta) (file_reader bs)).2 with
      | Ok meta => Ok (MkWorkspace (ws_client s) (ws_server s) (ws_workDir s) (wm_Instance meta))
      | Err _ => Ok s
      | Panic w => Panic w
      end
  | _ => Ok s
  end.
Definition syncWorkspaceInfo (fs : files) (s : Workspace) : files * res Workspace :=
  let metaFilePath := path_Join [ws_workDir s; workspaceMetaFile] in
  match os_Stat fs metaFilePath with
  | IsFile _ => (fs, readWorkspaceMeta fs s metaFilePath)
  | NotExist => let fs := writeWorkspaceMeta fs s metaFilePath in (fs, readWorkspaceMeta fs s metaFilePath)
  | IsDir => (fs, Err (Errorf "path is directory"))
  | StatFailed => (fs, Err (Errorf "stat"))
  end.
Definition setupWorkDir (fs : files) (s : Workspace) (dir : string) : files * res Workspace :=
  syncWorkspaceInfo fs (MkWorkspace (ws_client s) (ws_server s) dir (ws_instanceName s)).

(** [Close] removes the folder of the server. *)
Definition Workspace_Close (fs : files) (s : Workspace) : files := os_RemoveAll fs (ws_server s).

(** ** [open.go] *)
Definition OpenCommand (fs : files) (config : Config) (workspaceName : string) : files * res Workspace :=
  let workPath := path_Join [WorkspacePath config; workspaceName] in
  match os_Stat fs workPath with
  | NotExist => (fs, Err (Errorf "workspace not exist"))
  | StatFailed => (fs, Panic "invalid memory address or nil pointer dereference")
  | IsFile _ => (fs, Err (Errorf "workspace is not a directory"))
  | IsDir =>
      let '(fs, r) := startEmbedEtcdServer fs workPath true in
      match r with
      | Ok (client, dir) =>
          let '(fs, r) := setupWorkDir fs (MkWorkspace client dir "" "") workPath in
          (fs, match r with Ok s => Ok s | Err _ => Err (Errorf "failed to setup workspace") | Panic w => Panic w end)
      | Err _ => (fs, Err (Errorf "failed to start embed etcd server in workspace"))
      | Panic w => (fs, Panic w)
      end
  end.
End workspace.

(** ** Properties *)
Lemma concat_chunks fuel bs : (length bs ≤ fuel)%nat → concat (chunks fuel bs) = bs.
Proof.
  revert bs. induction fuel as [|fuel IH]; intros bs Hl; [by destruct bs; cbn in *; [|lia]|].
  destruct bs as [|b bs]; [done|]. cbn [chunks]. set (l := b :: bs) in *. cbn [concat].
  rewrite IH; [apply take_drop|]. rewrite length_drop. cbn [length] in Hl |- *. unfold l in *. cbn [length] in *. lia.
Qed.

Lemma frame_length bs : (8 ≤ length (frame bs))%nat.
Proof. unfold frame. rewrite length_app, length_le_put. lia. Qed.

Lemma flushed_frame bs : wr_out (bufio_Flush (writeBackupBytes bufio_NewWriter bs)) = frame bs.
Proof. exact (wr_data_frame bufio_NewWriter bs). Qed.

(** A file that holds one framed message is read back. *)
Lemma file_header {T} `{ProtoCodec T} bs m :
  framable bs → proto_Unmarshal bs = Ok m → (readFixLengthHeader (T:=T) (file_reader (frame bs))).2 = Ok m.
Proof.
  intros Hb Hm. pose proof (frame_length bs) as Hl.
  remember (frame bs) as f eqn:Hf. destruct (chunks (length f) f) as [|c cs] eqn:Hc.
  { pose proof (concat_chunks (length f) f ltac:(lia)) as Hcc. rewrite Hc in Hcc. rewrite <-Hcc in Hl. change (length (concat (@nil (list byte)))) with 0%nat in Hl. lia. }
  destruct (readFixLengthHeader_app (T:=T) (file_reader f) c cs bs []) as (rd' & -> & _).
  - exact Hc.
  - destruct (length f) eqn:El; [lia|]. cbn [chunks] in Hc. destruct f as [|b f']; [done|]. injection Hc as <- _.
    change (8 ≤ length (take 4096 (b :: f')))%nat. rewrite length_take. lia.
  - unfold rd_data, file_reader. cbn [rd_pieces]. rewrite concat_chunks by lia. by rewrite app_nil_r, Hf.
  - done.
  - cbn [snd]. by rewrite Hm.
Qed.

(** Names of one part, and files below them. *)
Definition is_name (e : string) : Prop := is_path e ∧ Split "/" e = [e].
Lemma name_stat fs e : is_name e → os_Stat fs e = match fs !! e with Some None => IsDir | Some (Some bs) => IsFile bs | None => NotExist end.
Proof.
  intros [He Hs]. unfold os_Stat, below_file, parents. rewrite Hs. cbn [length Nat.sub seq map existsb].
  rewrite (bool_decide_false (e = "")) by (intros ->; by apply is_path_nonempty in He).
  destruct (fs !! e) as [[bs|]|]; [done..|].
  rewrite !bool_decide_false; [done|intros ->|by apply is_path_not_dot].
  apply is_path_parts in He. change (Split "/" "/") with [""; ""] in He. by apply list.Forall_cons in He as [(? & _) _].
Qed.
Lemma below_stat fs e n :
  is_name e → is_name n →
  os_Stat fs (e +:+ "/" +:+ n) = match fs !! e with
    | Some (Some _) => StatFailed
    | _ => match fs !! (e +:+ "/" +:+ n) with Some None => IsDir | Some (Some bs) => IsFile bs | None => NotExist end
    end.
Proof.
  intros [He Hs] [Hn Hns]. assert (is_path (e +:+ "/" +:+ n)) as Hp by (by apply is_path_app_inv).
  unfold os_Stat, below_file, parents. rewrite Split_slash, Hs, Hns. cbn [app length Nat.sub seq map take existsb Join].
  rewrite (bool_decide_false (_ = "")) by (intros Hne; rewrite Hne in Hp; by apply is_path_nonempty in Hp).
  rewrite (bool_decide_false (e = "")) by (intros ->; by apply is_path_nonempty in He).
  destruct (fs !! e) as [[bs|]|]; [done|..]; cbn [orb]; (destruct (fs !! _) as [[bs|]|]; [done..|]);
    (rewrite !bool_decide_false; [done|intros Hq|by apply is_path_not_dot]); rewrite Hq in Hp; apply is_path_parts in Hp;
    change (Split "/" "/") with [""; ""] in Hp; by apply list.Forall_cons in Hp as [(? & _) _].
Qed.

(** The parents of a path are shorter. *)
Lemma elem_of_parents p q : is_path p → q ∈ parents p → ∃ r, p = q +:+ "/" +:+ r.
Proof.
  intros Hp (n & -> & Hn%elem_of_seq)%list_elem_of_fmap. set (l := Split "/" p) in *.
  assert (take n l ≠ [] ∧ drop n l ≠ []) as [H1 H2].
  { split; intros Hnil; apply (f_equal length) in Hnil; rewrite ?length_take, ?length_drop in Hnil; cbn in Hnil; lia. }
  assert (p = Join "/" (take n l) +:+ "/" +:+ Join "/" (drop n l)) as Hj.
  { rewrite <-Join_app, take_drop by done. symmetry. apply Join_Split. }
  cbv zeta. rewrite bool_decide_false; [by exists (Join "/" (drop n l))|].
  intros He. rewrite Hj in Hp. apply is_path_app_inv in Hp as [Hq _]. by apply is_path_nonempty in Hq.
Qed.
Lemma parts_below p r : length (Split "/" (p +:+ "/" +:+ r)) = (length (Split "/" p) + length (Split "/" r))%nat.
Proof. by rewrite Split_slash, length_app. Qed.
Lemma parts_pos p : (0 < length (Split "/" p))%nat.
Proof. pose proof (Split_nonempty "/" p). destruct (Split "/" p); [done|cbn; lia]. Qed.

Lemma not_own_parent p : is_path p → p ∉ parents p.
Proof. intros Hp [r Hr]%elem_of_parents; [|done]. pose proof (parts_below p r). rewrite <-Hr in *. pose proof (parts_pos r). lia. Qed.
Lemma not_parent_below p n : is_path p → p +:+ "/" +:+ n ∉ parents p.
Proof.
  intros Hp [r Hr]%elem_of_parents; [|done]. apply (f_equal (λ x, length (Split "/" x))) in Hr. rewrite !parts_below in Hr.
  pose proof (parts_pos n). pose proof (parts_pos r). lia.
Qed.

Lemma stat_insert fs p q x : q ≠ p → q ∉ parents p → os_Stat (<[q := x]> fs) p = os_Stat fs p.
Proof.
  intros Hne Hp. unfold os_Stat. rewrite lookup_insert_ne by done.
  assert (below_file (<[q := x]> fs) p = below_file fs p) as ->; [|done].
  unfold below_file. induction (parents p) as [|r l IH]; [done|]. cbn [existsb].
  rewrite lookup_insert_ne by (intros ->; apply Hp; left). rewrite IH; [done|]. intros Hin. apply Hp. by right.
Qed.
Lemma stat_own fs p bs : is_path p → os_Stat fs p ≠ StatFailed → os_Stat (<[p := Some bs]> fs) p = IsFile bs.
Proof.
  intros Hp. unfold os_Stat. rewrite bool_decide_false by (by apply is_path_nonempty).
  assert (below_file (<[p := Some bs]> fs) p = below_file fs p) as ->.
  { pose proof (not_own_parent p Hp) as Hn. unfold below_file. induction (parents p) as [|r l IH]; [done|]. cbn [existsb].
    rewrite lookup_insert_ne by (intros ->; apply Hn; left). rewrite IH; [done|]. intros Hin. apply Hn. by right. }
  destruct (below_file fs p); [done|]. intros _. by rewrite lookup_insert_eq.
Qed.

Lemma name_Join e n : is_name e → is_name n → path_Join [e; n] = e +:+ "/" +:+ n.
Proof. intros [He _] [Hn _]. rewrite path_Join_joined; [done|done|]. by repeat constructor. Qed.
Lemma name_Dir e n : is_name e → is_name n → path_Dir (e +:+ "/" +:+ n) = e.
Proof. intros [He _] [_ Hs]. by apply path_Dir_path. Qed.
Lemma name_parents e : is_name e → parents e = [].
Proof. intros [_ Hs]. unfold parents. by rewrite Hs. Qed.
Lemma name_MkdirAll fs e :
  is_name e → os_MkdirAll fs e = match fs !! e with
    | Some None => (fs, Ok tt) | Some (Some _) => (fs, Err (Errorf "mkdir: not a directory")) | None => (<[e := None]> fs, Ok tt) end.
Proof.
  intros He. unfold os_MkdirAll. rewrite bool_decide_false by (intros ->; by destruct He as [He%is_path_nonempty _]).
  rewrite name_parents by done. cbn [app mkdirs]. rewrite name_stat by done. by destruct (fs !! e) as [[bs|]|].
Qed.
Lemma below_WriteNew fs e n bs :
  is_name e → is_name n → fs !! e = Some None → fs !! (e +:+ "/" +:+ n) ≠ Some None →
  os_WriteNew fs (e +:+ "/" +:+ n) bs = (<[e +:+ "/" +:+ n := Some bs]> fs, Ok tt).
Proof.
  intros He Hn Hd Hf. unfold os_WriteNew. rewrite name_Dir, below_stat, name_stat, Hd by done.
  by destruct (fs !! (e +:+ "/" +:+ n)) as [[?|]|].
Qed.
Lemma name_below_ne e n m : is_name m → e +:+ "/" +:+ n ≠ m.
Proof. intros [_ Hs] Hq. rewrite <-Hq, Split_slash in Hs. pose proof (f_equal length Hs) as Hl. rewrite length_app in Hl.
  destruct (Split "/" e) eqn:E; [by destruct (Split_nonempty "/" e)|]. destruct (Split "/" n) eqn:E'; [by destruct (Split_nonempty "/" n)|].
  cbn in Hl. lia.
Qed.

Lemma config_name : is_name configFileName. Proof. split; [is_path_dec|vm_compute; reflexivity]. Qed.
Lemma workspace_name : is_name defaultWorkspace. Proof. split; [is_path_dec|vm_compute; reflexivity]. Qed.
Lemma meta_name : is_name workspaceMetaFile. Proof. split; [is_path_dec|vm_compute; reflexivity]. Qed.

Section workspace_properties.

(** The first start makes the folder, the file with the default settings and the folder for
    workspaces; the next one reads the same configuration and changes nothing. *)
Theorem NewConfig_again `{Yaml} fs e :
  is_name e → e ≠ defaultWorkspace →
  (∀ w o, ∃ bs, yaml_Marshal w o = Ok bs ∧ ∀ c, yaml_Unmarshal bs c = (MkConfig (ConfigPath c) w o, Ok tt)) →
  fs !! e = None → fs !! (e +:+ "/" +:+ configFileName) = None → (∀ bs, fs !! defaultWorkspace ≠ Some (Some bs)) →
  ∃ fs', NewConfig fs e = (fs', MkConfig e defaultWorkspace "", Ok tt)
    ∧ fs' !! defaultWorkspace = Some None
    ∧ NewConfig fs' e = (fs', MkConfig e defaultWorkspace "", Ok tt).
Proof.
  intros He Hne Hy Hfe Hff Hw. destruct (Hy defaultWorkspace "") as (bs & Hm & Hu).
  pose proof config_name as Hc. pose proof workspace_name as Hn. set (f := e +:+ "/" +:+ configFileName) in *.
  assert (f ≠ e) as Hf1 by (by apply name_below_ne). assert (f ≠ defaultWorkspace) as Hf2 by (by apply name_below_ne).
  set (fs1 := <[f := Some bs]> (<[f := Some []]> (<[e := None]> fs))).
  set (fs' := (os_MkdirAll fs1 defaultWorkspace).1).
  assert (fs' !! defaultWorkspace = Some None ∧ ∀ k, k ≠ defaultWorkspace → fs' !! k = fs1 !! k) as [Hd Hk].
  { assert (fs1 !! defaultWorkspace = fs !! defaultWorkspace) as Hd1 by (unfold fs1; by rewrite !lookup_insert_ne by done).
    unfold fs'. rewrite name_MkdirAll, Hd1 by done. destruct (fs !! defaultWorkspace) as [[b|]|] eqn:E.
    - by destruct (Hw b).
    - cbn [fst]. by rewrite Hd1.
    - cbn [fst]. split; [apply lookup_insert_eq|]. intros k Hkne. by rewrite lookup_insert_ne by done. }
  exists fs'. split_and!; [|done|].
  - unfold NewConfig, config_load, checkConfigPath. cbn [ConfigPath]. rewrite name_stat, Hfe by done.
    rewrite bool_decide_true by done. unfold createDefault, getConfigPath. cbn [ConfigPath OutputFormat].
    rewrite name_MkdirAll, Hfe by done. rewrite name_Join by done. fold f.
    rewrite (below_WriteNew _ e configFileName []); [|done|done|by apply lookup_insert_eq|fold f; rewrite lookup_insert_ne by done; by rewrite Hff].
    cbn [WorkspacePath OutputFormat]. rewrite Hm.
    rewrite (below_WriteNew _ e configFileName bs); [done|done|done| |].
    + fold f. rewrite lookup_insert_ne by done. by apply lookup_insert_eq.
    + fold f. by rewrite lookup_insert_eq.
  - unfold NewConfig, config_load, checkConfigPath. cbn [ConfigPath].
    assert (fs' !! e = Some None) as Hfe' by (rewrite Hk by done; unfold fs1; rewrite !lookup_insert_ne by done; apply lookup_insert_eq).
    assert (fs' !! f = Some (Some bs)) as Hff' by (rewrite Hk by done; apply lookup_insert_eq).
    rewrite name_stat, Hfe' by done. unfold getConfigPath, os_Open. cbn [ConfigPath]. rewrite name_Join, below_stat by done.
    fold f. rewrite Hfe', Hff'. rewrite Hu. rewrite bool_decide_false by discriminate. cbn [ConfigPath WorkspacePath].
    by rewrite name_MkdirAll, Hd by done.
Qed.

(** A folder without the file is not taken for a first start: the error is returned, no
    defaults are set, and neither the file nor a folder for workspaces is made. *)
Theorem NewConfig_no_file `{Yaml} fs e :
  is_name e → fs !! e = Some None → fs !! (e +:+ "/" +:+ configFileName) = None →
  NewConfig fs e = (fs, MkConfig e "" "", Err (Errorf "open")).
Proof.
  intros He Hd Hf. unfold NewConfig, config_load, checkConfigPath. cbn [ConfigPath]. rewrite name_stat, Hd by done.
  unfold getConfigPath, os_Open. cbn [ConfigPath]. rewrite name_Join, below_stat, Hd, Hf by (try done; apply config_name).
  rewrite bool_decide_false by discriminate. done.
Qed.

Context {K : Type} `{EmbedEtcd K} `{ProtoCodec WorkspaceMeta}.

Lemma name_elem_parents e n m : is_name e → e ∈ parents (e +:+ "/" +:+ n +:+ "/" +:+ m).
Proof.
  intros [He Hs]. unfold parents. rewrite Split_slash, Hs. apply list_elem_of_fmap. exists 1%nat. split.
  - cbn [app take Join]. by rewrite bool_decide_false by (by apply is_path_nonempty).
  - apply elem_of_seq. cbn [app length]. pose proof (parts_pos (n +:+ "/" +:+ m)). lia.
Qed.

(** Below a folder that was removed there is nothing to open. *)
Lemma closed_not_there fs config e (s : Workspace (K:=K)) n bs :
  is_name (WorkspacePath config) → is_name e → ws_server s = WorkspacePath config +:+ "/" +:+ e →
  os_Stat fs ((WorkspacePath config +:+ "/" +:+ e) +:+ "/" +:+ n) = IsFile bs →
  OpenCommand (K:=K) (Workspace_Close fs s) config e
  = (Workspace_Close fs s, Err (Errorf "workspace not exist")).
Proof.
  intros Hw He Hs Hf. unfold OpenCommand. rewrite name_Join, below_stat by done.
  assert (Workspace_Close fs s !! (WorkspacePath config +:+ "/" +:+ e) = None) as Hn.
  { unfold Workspace_Close, os_RemoveAll. rewrite Hs. apply map_lookup_filter_None. right.
    intros x _. cbn [fst]. by rewrite bool_decide_true. }
  rewrite Hn. destruct (Workspace_Close fs s !! WorkspacePath config) as [[b|]|] eqn:Hp; [|done..].
  exfalso. unfold Workspace_Close, os_RemoveAll in Hp. apply map_lookup_filter_Some in Hp as [Hp _].
  rewrite !string_app_assoc in Hf. unfold os_Stat in Hf.
  case_bool_decide; [done|]. assert (below_file fs (WorkspacePath config +:+ "/" +:+ e +:+ "/" +:+ n) = true) as Hb.
  { apply existsb_exists. exists (WorkspacePath config). rewrite Hp. split; [|done].
    apply list_elem_of_In. by apply name_elem_parents. }
  by rewrite Hb in Hf.
Qed.

(** C33 (roundtrip): the instance of a workspace is kept in it: when its folder, set up
    with an instance, is opened again and no state over the folder was closed in between,
    the state has this instance.  Closing that state deletes the folder: then there is no
    workspace to open. *)
Theorem workspace_instance_roundtrip fs config e (s : Workspace (K:=K)) bs fs1 client :
  is_name (WorkspacePath config) → is_name e →
  let dir := WorkspacePath config +:+ "/" +:+ e in
  let file := dir +:+ "/" +:+ workspaceMetaFile in
  os_Stat fs file = NotExist → os_Stat fs dir = IsDir →
  proto_Marshal (MkWorkspaceMeta "0.0.1" (ws_instanceName s) "meta") = Ok bs → framable bs →
  proto_Unmarshal bs = Ok (MkWorkspaceMeta "0.0.1" (ws_instanceName s) "meta") →
  (setupWorkDir fs s dir).1 = fs1 →
  (∃ fs2, StartEtcd fs1 dir = (fs2, Ok client) ∧ os_Stat fs2 file = os_Stat fs1 file) →
  ∃ fs2, let s' := MkWorkspace client dir dir (ws_instanceName s) in
    OpenCommand fs1 config e = (fs2, Ok s')
    ∧ let fs3 := Workspace_Close fs2 s' in
      OpenCommand (K:=K) fs3 config e = (fs3, Err (Errorf "workspace not exist")).
Proof.
  intros Hw He dir file Hf Hd Hm Hb Hu Hfs1 (fs2 & Hst & Hs2).
  assert (is_path file) as Hfile by (repeat (apply is_path_app_inv; split); first [apply Hw|apply He|apply meta_name]).
  assert (is_path dir) as Hdir by (apply is_path_app_inv; split; [apply Hw|apply He]).
  assert (path_Join [dir; workspaceMetaFile] = file) as Hj.
  { rewrite path_Join_joined; [done|done|]. repeat apply list.Forall_cons_2; [done|apply meta_name|apply list.Forall_nil_2]. }
  assert (path_Dir file = dir) as Hpd by (apply path_Dir_path; [done|apply meta_name]).
  assert (fs1 = <[file := Some (frame bs)]> (<[file := Some []]> fs)) as ->.
  { rewrite <-Hfs1. unfold setupWorkDir, syncWorkspaceInfo. cbn [ws_workDir]. rewrite Hj, Hf. cbn [fst].
    unfold writeWorkspaceMeta. unfold os_WriteNew at 1. rewrite Hf, Hpd, Hd. cbn [ws_instanceName]. rewrite Hm, flushed_frame.
    unfold os_WriteNew. rewrite Hpd, stat_own, (stat_insert fs dir file), Hd; [done| | |done|by rewrite Hf].
    - intros Hq. apply (f_equal (λ x, length (Split "/" x))) in Hq. unfold file in Hq. rewrite parts_below in Hq.
      pose proof (parts_pos workspaceMetaFile). lia.
    - by apply not_parent_below. }
  set (fs1 := <[file := _]> _) in *.
  assert (os_Stat fs1 file = IsFile (frame bs)) as Hf1.
  { unfold fs1. apply stat_own; [done|]. by rewrite stat_own by (try done; by rewrite Hf). }
  assert (os_Stat fs1 dir = IsDir) as Hd1.
  { unfold fs1. rewrite !stat_insert; try done; try (by apply not_parent_below);
      (intros Hq; apply (f_equal (λ x, length (Split "/" x))) in Hq; unfold file in Hq; rewrite parts_below in Hq;
       pose proof (parts_pos workspaceMetaFile); lia). }
  exists fs2. split; [|apply (closed_not_there _ _ _ _ workspaceMetaFile (frame bs));
    [done..|by rewrite <-Hf1, <-Hs2]].
  unfold OpenCommand. rewrite name_Join by done. fold dir. rewrite Hd1.
  unfold startEmbedEtcdServer. rewrite Hd1. rewrite bool_decide_false by (by apply is_path_nonempty).
  rewrite Hst. cbn [mbind res_bind]. unfold setupWorkDir, syncWorkspaceInfo. cbn [ws_workDir ws_client ws_server ws_instanceName].
  rewrite Hj, Hs2, Hf1. unfold readWorkspaceMeta, os_Open. rewrite Hs2, Hf1, (file_header bs _ Hb Hu). done.
Qed.

(** Closing the state of a workspace that was opened deletes the workspace: nothing is left
    in its folder. *)
Theorem Open_Close_deletes fs config e fs' (s : Workspace (K:=K)) k :
  let workPath := path_Join [WorkspacePath config; e] in
  workPath ≠ "" → OpenCommand fs config e = (fs', Ok s) →
  (k = workPath ∨ HasPrefix k (workPath +:+ "/") = true) → Workspace_Close fs' s !! k = None.
Proof.
  intros workPath Hne Ho Hk. assert (ws_server s = workPath) as Hs.
  { unfold OpenCommand in Ho. fold workPath in Ho. destruct (os_Stat fs workPath) eqn:Hd; try discriminate.
    unfold startEmbedEtcdServer in Ho. rewrite Hd, bool_decide_false in Ho by done.
    destruct (StartEtcd fs workPath) as [fs1 [client| |]]; [|discriminate..]. cbn [mbind res_bind] in Ho.
    unfold setupWorkDir, syncWorkspaceInfo in Ho. cbn [ws_workDir ws_client ws_server ws_instanceName] in Ho.
    unfold readWorkspaceMeta in Ho. cbn [ws_workDir ws_client ws_server ws_instanceName] in Ho.
    repeat case_match; simplify_eq/=; done. }
  unfold Workspace_Close, os_RemoveAll. rewrite Hs. apply map_lookup_filter_None. right. intros x _. cbn [fst].
  destruct Hk as [->|Hk]; [by rewrite bool_decide_true by done|]. by rewrite Hk, orb_true_r.
Qed.
End workspace_properties.

(** ** Witnesses: an encoding of settings by the digits of a number, and an etcd that keeps
    its data in one file of its folder *)
Fixpoint digits (p : positive) : list byte :=
  match p with xH => [] | xO p => "000"%byte :: digits p | xI p => "001"%byte :: digits p end.
Fixpoint number (bs : list byte) : positive :=
  match bs with [] => xH | b :: bs => if bool_decide (b = "001"%byte) then xI (number bs) else xO (number bs) end.
Lemma number_digits p : number (digits p) = p.
Proof. induction p as [p IH|p IH|]; [..|done]; cbn [digits number]; by rewrite IH. Qed.
#[local] Instance number_yaml : Yaml := {|
  yaml_Marshal w o := Ok (digits (encode (w, o)));
  yaml_Unmarshal bs c := match decode (number bs) with
    | Some (w, o) => (MkConfig (ConfigPath c) w o, Ok tt)
    | None => (c, Err (Errorf "yaml"))
    end;
|}.
#[local] Instance file_etcd : EmbedEtcd string := {|
  StartEtcd fs dir := (<[dir +:+ "/member" := Some []]> fs, Ok dir);
  TempDir fs := (<["/tmp/birdwatcher" := None]> fs, Ok "/tmp/birdwatcher");
|}.
#[local] Instance WorkspaceMeta_eq_dec : EqDecision WorkspaceMeta.
Proof. solve_decision. Defined.
#[local] Instance meta_codec : ProtoCodec WorkspaceMeta := table_codec [("m", MkWorkspaceMeta "0.0.1" "by-dev" "meta")].
Lemma NewConfig_again_witness :
  ∃ fs', NewConfig ∅ ".bw_config" = (fs', MkConfig ".bw_config" "bw_workspace" "", Ok tt)
    ∧ NewConfig fs' ".bw_config" = (fs', MkConfig ".bw_config" "bw_workspace" "", Ok tt).
Proof.
  destruct (NewConfig_again ∅ ".bw_config") as (fs' & H1 & _ & H2).
  - split; [is_path_dec|vm_compute; reflexivity].
  - discriminate.
  - intros w o. exists (digits (encode (w, o))). split; [reflexivity|]. intros c. cbn [yaml_Unmarshal number_yaml].
    rewrite number_digits, decode_encode. reflexivity.
  - reflexivity.
  - reflexivity.
  - intros bs Hb. discriminate Hb.
  - exists fs'. split; [exact H1|exact H2].
Defined.
Lemma NewConfig_no_file_witness :
  NewConfig {[".bw_config" := None]} ".bw_config" = ({[".bw_config" := None]}, MkConfig ".bw_config" "" "", Err (Errorf "open")).
Proof.
  apply (NewConfig_no_file {[".bw_config" := None]} ".bw_config").
  - split; [is_path_dec|vm_compute; reflexivity].
  - vm_compute. reflexivity.
  - vm_compute. reflexivity.
Defined.

Definition shell_config : Config := MkConfig ".bw_config" "bw_workspace" "".
Definition some_folders : files := {["bw_workspace" := None; "bw_workspace/w1" := None; "bw_workspace/w2" := None]}.
Lemma workspace_instance_roundtrip_witness :
  ∃ fs1 fs2, OpenCommand fs1 shell_config "w1" = (fs2, Ok (MkWorkspace "bw_workspace/w1" "bw_workspace/w1" "bw_workspace/w1" "by-dev"))
    ∧ let fs3 := Workspace_Close fs2 (MkWorkspace "bw_workspace/w1" "bw_workspace/w1" "bw_workspace/w1" "by-dev") in
      OpenCommand (K:=string) fs3 shell_config "w1" = (fs3, Err (Errorf "workspace not exist")).
Proof.
  exists (setupWorkDir (K:=string) some_folders (MkWorkspace "" "" "" "by-dev") "bw_workspace/w1").1.
  refine (workspace_instance_roundtrip some_folders shell_config "w1" (MkWorkspace "" "" "" "by-dev") (bytes_of_string "m")
    _ "bw_workspace/w1" _ _ _ _ _ _ _ eq_refl _).
  - exact workspace_name.
  - split; [is_path_dec|vm_compute; reflexivity].
  - vm_compute. reflexivity.
  - vm_compute. reflexivity.
  - vm_compute. reflexivity.
  - vm_compute. done.
  - vm_compute. reflexivity.
  - eexists. split; [reflexivity|]. vm_compute. reflexivity.
Defined.
Lemma Open_Close_deletes_witness :
  ∃ fs' s, OpenCommand (K:=string) some_folders shell_config "w1" = (fs', Ok s) ∧ Workspace_Close fs' s !! "bw_workspace/w1/member" = None.
Proof.
  assert (match (OpenCommand (K:=string) some_folders shell_config "w1").2 with Ok _ => true | _ => false end = true) as Hok
    by (vm_compute; reflexivity).
  destruct (OpenCommand (K:=string) some_folders shell_config "w1") as [fs' r] eqn:Ho. cbn [snd] in Hok.
  destruct r as [s|e|w]; [|discriminate Hok|discriminate Hok]. exists fs', s. split; [reflexivity|].
  apply (Open_Close_deletes some_folders shell_config "w1" fs' s "bw_workspace/w1/member"); [vm_compute; discriminate|exact Ho|].
  right. vm_compute. reflexivity.
Defined.
