(* ===== verification/ScanCommand.v ===== *)
(** * The scan-binlog command and its workers

    Models [ScanBinlogCommand] of [states/scan_binlog.go]: what is scanned, and the goroutines
    that scan it.  The segments are handed over an unbuffered channel to workers that share
    one task; the first failure is left in a channel with one place, which is read only while
    segments are handed out.  The goroutines are a step relation; a worker and its segment are
    the calls of [Scan] that [workFn] makes, each of them one step, as the tasks count with
    atomic operations.  The object store is a parameter. *)

From S2P Require Import SegmentScan PartitionKey Probe.
From S2P Require Export ShowSegments ObjectStore.

(** ** The calls of a task that the scan of a segment makes *)
Record ScanCall := Call {
  call_pk : PrimaryKey; call_batch : BatchInfo; call_offset : Z; call_values : gmap Z any
}.
Definition do_scan {T} `{ScanTask T} (c : ScanCall) (t : T) : T * res unit :=
  Scan (call_pk c) (call_batch c) (call_offset c) (call_values c) t.

(** A task that keeps the calls, and never fails. *)
Record Recorder := Rec { rec_calls : list ScanCall }.
#[export] Instance Recorder_ScanTask : ScanTask Recorder := {
  Scan pk batchInfo offset values r := (Rec (rec_calls r ++ [Call pk batchInfo offset values]), Ok tt);
  Counter r := zlen (rec_calls r);
}.

(** The same calls on another task, up to the first that fails. *)
Fixpoint run_calls {T} `{ScanTask T} (calls : list ScanCall) (t : T) : T * res unit :=
  match calls with
  | [] => (t, Ok tt)
  | c :: calls => let '(t, r) := do_scan c t in
                  match r with Ok _ => run_calls calls t | r => (t, r) end
  end.

(** ** [tasks.ScanTask] of the command *)
Inductive AnyTask :=
  | ACount (t : CountTask)
  | ALocate (t : LocateTask)
  | ADedup (t : DedupTask).
#[export] Instance AnyTask_ScanTask : ScanTask AnyTask := {
  Scan pk batchInfo offset values t :=
    match t with
    | ACount t => prod_map ACount id (Scan pk batchInfo offset values t)
    | ALocate t => prod_map ALocate id (Scan pk batchInfo offset values t)
    | ADedup t => prod_map ADedup id (Scan pk batchInfo offset values t)
    end;
  Counter t := match t with ACount t => Counter t | ALocate t => Counter t | ADedup t => Counter t end;
}.

(** What [Summary] prints: the number of entries, or that of the duplicated ones and at most
    eleven of them, in the [order] of the map, each with its number of occurrences. *)
Definition Summary (order : gmap any Z → list (any * Z)) (t : AnyTask) : option Z * list (any * Z) :=
  match t with
  | ACount t => (Some (count_counter t), [])
  | ADedup t => (Some (dedup_counter t),
                 map (λ kv, (kv.1, int64 (kv.2 + 1))) (take 11 (order (dedupResult t))))
  | ALocate _ => (None, [])
  end.

Definition new_task (Action : string) (OutputLimit pkField : Z) : res AnyTask :=
  let action := strings_ToLower Action in
  if bool_decide (action = "count") then Ok (ACount NewCountTask)
  else if bool_decide (action = "locate") then Ok (ALocate (NewLocateTask OutputLimit pkField))
  else if bool_decide (action = "dedup") then Ok (ADedup NewDedupTask)
  else Err (Errorf "unknown action").

(** ** What is scanned *)
Record ScanBinlogParams := MkScanBinlog {
  sb_CollectionID : Z;
  sb_PartitionID : Z;
  sb_SegmentID : Z;
  sb_Fields : list string;
  sb_Expr : string;
  sb_MinioAddress : string;
  sb_SkipBucketCheck : bool;
  sb_Action : string;
  sb_IncludeUnhealthy : bool;
  sb_WorkerNum : Z;
  sb_OutputLimit : Z;
}.

Definition scan_schema (f : Collections.FieldSchema) : DeltaData.FieldSchema :=
  DeltaData.FS (fs_FieldID f) (Collections.fs_Name f) (fs_IsPrimaryKey f) (fs_DataType f).

Definition scan_selected {K} (p : ScanBinlogParams) (s : ModelSegment K) : bool :=
  let i := sg_info s in
  (bool_decide (sb_SegmentID p = 0) || bool_decide (sb_SegmentID p = si_ID i))
  && bool_decide (sb_CollectionID p = si_CollectionID i)
  && (bool_decide (sb_PartitionID p = 0) || bool_decide (sb_PartitionID p = si_PartitionID i))
  && (sb_IncludeUnhealthy p || negb (bool_decide (si_State i = SegmentState_Dropped))).

Definition delta_paths {K} (cli : K) (s : ModelSegment K) : list string :=
  map bl_LogPath (concat (map mfb_Binlogs (GetDeltalogs cli s).2)).

(** A model of a segment as the reader of segments takes it. *)
Definition scan_segment_of `{SegmentFields} {K} (cli : K) (s : ModelSegment K) : Segment :=
  Seg (si_ID (sg_info s)) (si_StorageVersion (sg_info s))
    (map (λ fb, FB (mfb_FieldID fb) (map bl_LogPath (mfb_Binlogs fb))) (GetBinlogs cli s).2).

(** The variables of the command when the workers start. *)
Record ScanPlan (K P : Type) := MkScanPlan {
  pl_task : AnyTask;
  pl_segments : list (ModelSegment K);
  pl_pkType : Z;
  pl_schema : list DeltaData.FieldSchema;
  pl_fields : gmap Z DeltaData.FieldSchema;
  pl_l0DeleteRecords : gmap any Z;
  pl_exprFilter : option (ExprFilter P);
  pl_getObject : string → res (list byte);
}.
Arguments MkScanPlan {K P}.
Arguments pl_task {K P}.
Arguments pl_segments {K P}.
Arguments pl_pkType {K P}.
Arguments pl_schema {K P}.
Arguments pl_fields {K P}.
Arguments pl_l0DeleteRecords {K P}.
Arguments pl_exprFilter {K P}.
Arguments pl_getObject {K P}.

Section command.
Context {J FA A B P F C R K N S : Type} `{JsonMap J} `{ArrowFile FA A} `{Arrow A B} `{ScalarFieldProto}.
Context `{ExprLang P} `{MapOrder} `{JsonDoc R} `{Parquet F C} `{MetaKV K} `{JsonSession} `{Network N} `{Oss S}.
Context `{ProtoCodec CollectionInfo} `{ProtoCodec Collections.FieldSchema}.
Context `{ProtoCodec StructArrayFieldSchema} `{ProtoCodec FunctionSchema}.
Context `{ProtoCodec SegmentInfo} `{ProtoCodec PbFieldBinlog} `{SegmentFields}.
Context (description : Collections.FieldSchema → string) (GetObject : S → string → string → res (list byte)).

(** The deletions of the segments of level 0: an error ends the logs of one segment only. *)
Fixpoint l0_deletes (cli : K) (getObject : string → res (list byte)) (pkType : Z)
    (segments : list (ModelSegment K)) (l0DeleteRecords : gmap any Z) : res (gmap any Z) :=
  match segments with
  | [] => Ok l0DeleteRecords
  | segment :: segments =>
      let '(l0DeleteRecords, e) :=
        addDeltaRecords (J:=J) (F:=F) getObject pkType (delta_paths cli segment) l0DeleteRecords in
      match e with
      | Panic w => Panic w
      | _ => l0_deletes cli getObject pkType segments l0DeleteRecords
      end
  end.

Definition is_l0 (s : ModelSegment K) : bool := bool_decide (si_Level (sg_info s) = SegmentLevel_L0).

(** [ScanBinlogCommand] up to the workers. *)
Definition ScanBinlog_plan (p : ScanBinlogParams) (cli : K) (basePath : string) : res (ScanPlan K P) :=
  collection ← GetCollectionByIDVersion cli basePath (sb_CollectionID p);
  '(pkField, ok) ← GetPKField description collection;
  if negb ok then Err (Errorf "pk field not found")
  else
    schema ← match ci_Schema (co_proto collection) with
             | Some s => Ok (map scan_schema (cs_Fields s))
             | None => Panic nil_dereference
             end;
    let fields := scan_fields schema (list_to_set (sb_Fields p)) in
    segments ← ListSegments cli basePath [scan_selected p];
    '(minioClient, bucketName, rootPath) ← GetMinioClientFromCfg (C:=N) (S:=S) cli basePath
       (WithSkipCheckBucket (sb_SkipBucketCheck p)
        :: if bool_decide (sb_MinioAddress p ≠ "") then [WithMinioAddr (sb_MinioAddress p)] else []);
    scanTask ← new_task (sb_Action p) (sb_OutputLimit p) (mf_FieldID pkField);
    exprFilter ← (if bool_decide (sb_Expr p ≠ "") then Some <$> NewExprFilter fields (sb_Expr p) else Ok None);
    let getObject binlogPath := GetObject minioClient bucketName (ReplaceAll binlogPath "ROOT_PATH" rootPath) in
    l0DeleteRecords ← l0_deletes cli getObject (mf_DataType pkField) (List.filter is_l0 segments) ∅;
    Ok (MkScanPlan scanTask (List.filter (λ s, negb (is_l0 s)) segments) (mf_DataType pkField) schema fields
          l0DeleteRecords exprFilter getObject).

(** The work on a segment: the calls of the task, and the result when none of them fails. *)
Definition scan_work (fuel : nat) (pl : ScanPlan K P) (cli : K) (s : ModelSegment K)
    : option (list ScanCall * res unit) :=
  prod_map rec_calls id <$>
    workFn (J:=J) (FA:=FA) (A:=A) (B:=B) (F:=F) fuel (pl_getObject pl) (pl_pkType pl) (pl_schema pl) (pl_fields pl)
      (pl_l0DeleteRecords pl) (pl_exprFilter pl) (scan_segment_of cli s) (delta_paths cli s) (Rec []).
End command.

(** ** The workers

    A worker waits for a segment, scans one, or has returned.  The state of the command: the
    segments that are not handed out, the error it took from [errCh], whether [taskCh] is
    closed, the error that waits in [errCh], the workers, the task, the number of segments
    that are done, and the result once the command or the whole program has ended. *)
Inductive worker :=
  | Receiving
  | Scanning (calls : list ScanCall) (e : res unit)
  | Gone.

Record pool (Q T : Type) := Pool {
  po_queue : list Q;
  po_err : option goerr;
  po_closed : bool;
  po_errCh : option goerr;
  po_workers : list worker;
  po_task : T;
  po_done : Z;
  po_result : option (res unit);
}.
Arguments Pool {Q T}.
Arguments po_queue {Q T}.
Arguments po_err {Q T}.
Arguments po_closed {Q T}.
Arguments po_errCh {Q T}.
Arguments po_workers {Q T}.
Arguments po_task {Q T}.
Arguments po_done {Q T}.
Arguments po_result {Q T}.

(** What a worker does on its own: [set] puts it back. *)
Definition put_worker {Q T} (s : pool Q T) (i : nat) (w : worker) (t : T) : pool Q T :=
  Pool (po_queue s) (po_err s) (po_closed s) (po_errCh s) (<[i := w]> (po_workers s)) t (po_done s) (po_result s).
Definition fail_with {Q T} (s : pool Q T) (e : goerr) : pool Q T :=
  Pool (po_queue s) (po_err s) (po_closed s) (Some (default e (po_errCh s))) (po_workers s) (po_task s) (po_done s)
    (po_result s).
Definition count_done {Q T} (s : pool Q T) : pool Q T :=
  Pool (po_queue s) (po_err s) (po_closed s) (po_errCh s) (po_workers s) (po_task s) (int64 (po_done s + 1))
    (po_result s).
Definition end_with {Q T} (s : pool Q T) (r : res unit) : pool Q T :=
  Pool (po_queue s) (po_err s) (po_closed s) (po_errCh s) (po_workers s) (po_task s) (po_done s) (Some r).

(** [wg.Add] of a negative number panics. *)
Definition start {Q T} (WorkerNum : Z) (segments : list Q) (t : T) : pool Q T :=
  Pool segments None false None (replicate (Z.to_nat WorkerNum) Receiving) t 0
    (if bool_decide (WorkerNum < 0) then Some (Panic "sync: negative WaitGroup counter") else None).

Section pool.
Context {Q T : Type} `{ScanTask T} (work : Q → option (list ScanCall * res unit)).

Inductive pool_step : pool Q T → pool Q T → Prop :=
  | hand_out seg queue err_ch ws t d i calls e :
      ws !! i = Some Receiving → work seg = Some (calls, e) →
      pool_step (Pool (seg :: queue) None false err_ch ws t d None)
        (Pool queue None false err_ch (<[i := Scanning calls e]> ws) t d None)
  | take_error seg queue e ws t d :
      pool_step (Pool (seg :: queue) None false (Some e) ws t d None)
        (Pool (seg :: queue) (Some e) false None ws t d None)
  | close_tasks queue err err_ch ws t d :
      queue = [] ∨ is_Some err →
      pool_step (Pool queue err false err_ch ws t d None) (Pool queue err true err_ch ws t d None)
  | scan_entry_step s i c calls e t r :
      po_result s = None → po_workers s !! i = Some (Scanning (c :: calls) e) → do_scan c (po_task s) = (t, r) →
      pool_step s (put_worker s i (match r with Ok _ => Scanning calls e | r => Scanning [] r end) t)
  | segment_done s i e :
      po_result s = None → po_workers s !! i = Some (Scanning [] e) → e = Ok tt ∨ e = Err EOF →
      pool_step s (count_done (put_worker s i Receiving (po_task s)))
  | segment_failed s i e :
      po_result s = None → po_workers s !! i = Some (Scanning [] (Err e)) → e ≠ EOF →
      pool_step s (fail_with (put_worker s i Gone (po_task s)) e)
  | worker_panics s i w :
      po_result s = None → po_workers s !! i = Some (Scanning [] (Panic w)) → pool_step s (end_with s (Panic w))
  | worker_returns s i :
      po_result s = None → po_workers s !! i = Some Receiving → po_closed s = true →
      pool_step s (put_worker s i Gone (po_task s))
  | command_returns s :
      po_result s = None → po_closed s = true → Forall (λ w, w = Gone) (po_workers s) →
      pool_step s (end_with s (match po_err s with Some e => Err e | None => Ok tt end)).

Definition pool_reachable (WorkerNum : Z) (segments : list Q) (t : T) : pool Q T → Prop :=
  rtc pool_step (start WorkerNum segments t).
End pool.

(** ** A scan makes the same calls on every task *)
Section replay.
Context {J FA A B P T : Type} `{JsonMap J} `{ArrowFile FA A} `{Arrow A B} `{ScalarFieldProto}.
Context `{ExprLang P} `{MapOrder} `{ScanTask T}.

Definition with_task {T'} (st : ScanState (T:=T')) (t : T) : ScanState (T:=T) :=
  SS (ss_pk st) (ss_offset st) (ss_batchIdx st) t.

Lemma scan_replay filters pk bi off values calls :
  ∃ more e, scan (P:=P) filters pk bi off values (Rec calls) = (Rec (calls ++ more), e)
    ∧ ∀ t : T, scan filters pk bi off values t
               = let '(t', r) := run_calls more t in (t', match r with Ok _ => e | r => r end).
Proof.
  unfold scan. destruct (match_filters filters pk values) as [[]|e|w].
  - exists [Call pk bi off values], (Ok tt). split; [done|]. intros t. cbn [run_calls]. unfold do_scan. cbn.
    by destruct (Scan _ _ _ _ t) as [t' [[]| |]].
  - exists [], (Ok tt). by rewrite app_nil_r.
  - exists [], (Err e). by rewrite app_nil_r.
  - exists [], (Panic w). by rewrite app_nil_r.
Qed.

Lemma run_calls_app l1 l2 (t : T) :
  run_calls (l1 ++ l2) t = let '(t', r) := run_calls l1 t in match r with Ok _ => run_calls l2 t' | r => (t', r) end.
Proof.
  revert t. induction l1 as [|c l1 IH]; intros t; [done|]. cbn [app run_calls].
  destruct (do_scan c t) as [t' []]; [apply IH|done..].
Qed.

Lemma scan_rows_replay si fields rb bi n i (st : ScanState (T:=Recorder)) :
  ∃ more st' e, scan_rows (P:=P) (B:=B) si fields rb bi n i st = (st', e)
    ∧ rec_calls (ss_task st') = rec_calls (ss_task st) ++ more
    ∧ ∀ t : T, let out := scan_rows si fields rb bi n i (with_task st t) in
        let '(t', r) := run_calls more t in
        match r with Ok _ => out = (with_task st' t', e) | r => ss_task out.1 = t' ∧ out.2 = r end.
Proof.
  revert i st. induction n as [|n IH]; intros i st.
  { exists [], st, (Ok tt). by rewrite app_nil_r. }
  cbn [scan_rows with_task ss_pk ss_offset ss_batchIdx ss_task].
  destruct (read_row _ _ _ _ i) as [[values pk]|e|w].
  2-3: eexists [], st, _; rewrite app_nil_r; by split_and!.
  destruct (ss_task st) as [calls] eqn:Hst.
  destruct (scan_replay (si_filters si) pk bi (ss_offset st) values calls) as (m1 & e1 & -> & Hrep).
  destruct e1 as [[]|e1|w1].
  2-3: eexists m1, _, _; split_and!; [done..|]; intros t; rewrite Hrep; destruct (run_calls m1 t) as [t' [[]| |]]; done.
  destruct (IH (i + 1) (SS pk (int64 (ss_offset st + 1)) (ss_batchIdx st) (Rec (calls ++ m1))))
    as (m2 & st' & e & Hrows & Hcalls & Hall). exists (m1 ++ m2), st', e. split_and!; [done|by rewrite Hcalls, app_assoc|].
  intros t. rewrite Hrep, run_calls_app. destruct (run_calls m1 t) as [t' [[]| |]]; [|done..].
  apply (Hall t').
Qed.

Lemma Range_loop_replay fuel si fields reader (st : ScanState (T:=Recorder)) out e :
  Range_loop (J:=J) (FA:=FA) (P:=P) (B:=B) fuel si fields reader st = Some (out, e) →
  ∃ more, rec_calls out = rec_calls (ss_task st) ++ more
    ∧ ∀ t : T, Range_loop fuel si fields reader (with_task st t)
        = Some (let '(t', r) := run_calls more t in (t', match r with Ok _ => e | r => r end)).
Proof.
  revert reader st. induction fuel as [|fuel IH]; intros reader st; [done|]. cbn [Range_loop].
  destruct (SR_Next reader) as [[[rb [bi|]] reader']|e'|w].
  2-4: intros [= <- <-]; exists []; by rewrite app_nil_r.
  set (st1 := if bool_decide _ then _ else st).
  assert (∀ t : T, (if bool_decide (BatchIdx bi ≠ ss_batchIdx (with_task st t))
     then SS (ss_pk (with_task st t)) 0 (BatchIdx bi) (ss_task (with_task st t)) else with_task st t)
     = with_task st1 t) as Hst1 by (intros t; unfold st1; cbn [with_task ss_batchIdx]; by case_bool_decide).
  assert (ss_task st1 = ss_task st) as Htask by (unfold st1; by case_bool_decide).
  clearbody st1. rewrite <-Htask. destruct (RB_Len rb) as [len|e'|w].
  2-3: intros [= <- <-]; exists []; rewrite app_nil_r; split; [done|]; intros t; rewrite Hst1; done.
  destruct (scan_rows_replay si fields rb bi (Z.to_nat len) 0 st1) as (m1 & st' & e1 & -> & Hcalls & Hall).
  destruct e1 as [[]|e1|w1].
  2-3: intros [= <- <-]; exists m1; split; [done|]; intros t; rewrite Hst1; specialize (Hall t); cbn zeta in Hall;
    destruct (scan_rows si fields rb bi _ 0 (with_task st1 t)) as [so eo];
    destruct (run_calls m1 t) as [t' [[]|x|x]]; [by injection Hall as -> ->|destruct Hall as [Ht He]; cbn [fst snd] in Ht, He; by subst..].
  intros (m2 & Hm2 & Hall2)%IH. exists (m1 ++ m2). split; [by rewrite Hm2, Hcalls, app_assoc|].
  intros t. rewrite Hst1, run_calls_app. specialize (Hall t). cbn zeta in Hall.
  destruct (scan_rows si fields rb bi _ 0 (with_task st1 t)) as [so eo].
  destruct (run_calls m1 t) as [t' [[]|x|x]]; [injection Hall as -> ->; apply Hall2|destruct Hall as [Ht He]; cbn [fst snd] in Ht, He; by subst..].
Qed.

Lemma Range_replay fuel si calls e :
  Range (J:=J) (FA:=FA) (A:=A) (P:=P) (B:=B) fuel si (Rec []) = Some (Rec calls, e) →
  ∀ t : T, Range (J:=J) (FA:=FA) (A:=A) (B:=B) fuel si t
    = Some (let '(t', r) := run_calls calls t in (t', match r with Ok _ => e | r => r end)).
Proof.
  unfold Range. destruct (_ ≫= _) as [[reader pk]|e'|w].
  2-3: by intros [= <- <-].
  intros (more & Hm & Hall)%Range_loop_replay t. cbn in Hm. subst more. apply (Hall t).
Qed.
End replay.

(** ** Properties *)
Definition calls_of_worker (w : worker) : list ScanCall :=
  match w with Scanning calls _ => calls | _ => [] end.
Definition pending (ws : list worker) : list ScanCall := concat (map calls_of_worker ws).

Lemma worker_at (ws : list worker) i w :
  ws !! i = Some w → ∃ l1 l2, ws = l1 ++ w :: l2 ∧ ∀ w', <[i := w']> ws = l1 ++ w' :: l2.
Proof.
  intros Hi. exists (take i ws), (drop (S i) ws). split; [by rewrite take_drop_middle|].
  intros w'. apply insert_take_drop. by eapply lookup_lt_Some.
Qed.

Lemma pending_at ws i w :
  ws !! i = Some w →
  ∃ rest, pending ws ≡ₚ calls_of_worker w ++ rest ∧ ∀ w', pending (<[i := w']> ws) ≡ₚ calls_of_worker w' ++ rest.
Proof.
  intros (l1 & l2 & -> & Hi)%worker_at. exists (pending l1 ++ pending l2). unfold pending. split.
  - rewrite map_app, concat_app. cbn [map concat]. by rewrite !(Permutation_app_comm (concat (map _ l1))), app_assoc.
  - intros w'. rewrite Hi, map_app, concat_app. cbn [map concat]. by rewrite !(Permutation_app_comm (concat (map _ l1))), app_assoc.
Qed.

Lemma rtc_keeps {A} (R : relation A) (I : A → Prop) x y :
  (∀ a b, R a b → I a → I b) → I x → rtc R x y → I y.
Proof. intros Hs Hx Hr. revert Hx. induction Hr; eauto. Qed.

Section pool_properties.
Context {Q T : Type} `{ScanTask T} (work : Q → option (list ScanCall * res unit)).

Definition calls_of (q : Q) : list ScanCall := match work q with Some (calls, _) => calls | None => [] end.
Definition all_calls (segments : list Q) : list ScanCall := concat (map calls_of segments).
Definition scanned (t : T) (c : ScanCall) : T := (do_scan c t).1.

(** Tasks of some kind that take every call. *)
Definition takes_all (good : T → Prop) : Prop := ∀ c t, good t → (do_scan c t).2 = Ok tt ∧ good (scanned t c).
Lemma takes_all_fold good t calls : takes_all good → good t → good (foldl scanned t calls).
Proof. intros Hok. revert t. induction calls as [|c calls IH]; intros t Ht; [done|]. by apply IH, Hok. Qed.

(** What the task was called for, and what the workers still hold, are the calls of the
    segments that were handed out. *)
Definition accounts (segments : list Q) (t0 : T) (s : pool Q T) : Prop :=
  (∃ handed hist, segments = handed ++ po_queue s
    ∧ hist ++ pending (po_workers s) ≡ₚ all_calls handed ∧ po_task s = foldl scanned t0 hist)
  ∧ (po_closed s = true → po_err s = None → po_queue s = [])
  ∧ (po_result s = Some (Ok tt) → po_err s = None ∧ po_closed s = true ∧ Forall (λ w, w = Gone) (po_workers s)).

Lemma accounts_put segments t0 s i w w' :
  po_result s = None → po_workers s !! i = Some w → calls_of_worker w = calls_of_worker w' →
  accounts segments t0 s → accounts segments t0 (put_worker s i w' (po_task s)).
Proof.
  intros Hn Hi Hw ((handed & hist & Hs & Hp & Ht) & Hc & Hr).
  split_and!; [|done|cbn [put_worker po_result]; by rewrite Hn]. exists handed, hist. split_and!; [done| |done].
  destruct (pending_at _ _ _ Hi) as (rest & Hpe & Hput). cbn [put_worker po_workers]. rewrite Hput, <-Hw, <-Hpe. done.
Qed.

Lemma pool_step_accounts good segments t0 s s' :
  takes_all good → good t0 → pool_step work s s' → accounts segments t0 s → accounts segments t0 s'.
Proof.
  intros Hok Hgood Hstep. destruct Hstep as
    [seg queue err_ch ws t d i calls e Hi Hw|seg queue e ws t d|queue err err_ch ws t d Hq|s i c calls e t r Hn Hi Hd
    |s i e Hn Hi _|s i e Hn Hi _|s i w Hn Hi|s i Hn Hi _|s Hn Hc Hg].
  - intros ((handed & hist & Hs & Hp & Ht) & Hc & Hr). split_and!; [|done..]. exists (handed ++ [seg]), hist.
    cbn [po_queue po_workers po_task] in *. split_and!; [by rewrite <-app_assoc| |done].
    destruct (pending_at _ _ _ Hi) as (rest & Hpe & Hput). rewrite Hput. cbn [calls_of_worker].
    unfold all_calls. rewrite map_app, concat_app. fold (all_calls handed). cbn [map concat]. rewrite app_nil_r.
    rewrite <-Hp, Hpe. cbn [calls_of_worker app]. unfold calls_of. rewrite Hw. by rewrite (Permutation_app_comm calls), app_assoc.
  - intros ((handed & hist & Hs & Hp & Ht) & Hc & Hr). split_and!; [by exists handed, hist|done..].
  - intros ((handed & hist & Hs & Hp & Ht) & Hc & Hr). split_and!; [by exists handed, hist| |done].
    cbn. intros _ ->. destruct Hq as [?|[? ?]]; done.
  - intros ((handed & hist & Hs & Hp & Ht) & Hc & Hr).
    split_and!; [|done|cbn [put_worker po_result]; by rewrite Hn].
    exists handed, (hist ++ [c]). cbn [put_worker po_queue po_workers po_task]. split_and!; [done| |].
    + destruct (pending_at _ _ _ Hi) as (rest & Hpe & Hput). rewrite Hput, <-Hp, Hpe.
      destruct (Hok c (po_task s)) as [Ho _]; [by rewrite Ht; apply takes_all_fold|]. rewrite Hd in Ho. cbn in Ho. subst r. cbn [calls_of_worker]. by rewrite <-app_assoc.
    + rewrite foldl_app. cbn [foldl]. rewrite <-Ht. unfold scanned. by rewrite Hd.
  - intros Hs. by apply (accounts_put _ _ _ _ _ Receiving Hn Hi) in Hs.
  - intros Hs. by apply (accounts_put _ _ _ _ _ Gone Hn Hi) in Hs.
  - intros (Hs & Hc & Hr). split_and!; [done..|]. cbn. by intros [=].
  - by apply accounts_put with (w := Receiving).
  - intros (Hs & Hc' & Hr). split_and!; [done..|]. cbn. destruct (po_err s) eqn:He; [by intros [=]|]. done.
Qed.

Lemma pool_reachable_accounts good n segments t0 s :
  takes_all good → good t0 → pool_reachable work n segments t0 s → accounts segments t0 s.
Proof.
  intros Hok Hgood Hr. revert Hr. apply rtc_keeps; [intros s1 s2; by apply (pool_step_accounts good)|].
  unfold start. split_and!; [|done|cbn; by case_bool_decide]. exists [], []. split_and!; [done| |done].
  cbn [po_workers app all_calls map concat]. by induction (Z.to_nat n).
Qed.

(** When the command succeeds, the task has seen the calls of all the segments. *)
Lemma pool_Ok good n segments t0 s :
  takes_all good → good t0 → pool_reachable work n segments t0 s → po_result s = Some (Ok tt) →
  ∃ hist, hist ≡ₚ all_calls segments ∧ po_task s = foldl scanned t0 hist.
Proof.
  intros Hok Hgood Hr Hres. destruct (pool_reachable_accounts _ _ _ _ _ Hok Hgood Hr) as ((handed & hist & -> & Hp & Ht) & Hc & Hg).
  destruct (Hg Hres) as (He & Hcl & Hgone). exists hist. split; [|done]. rewrite Hc, app_nil_r by done. rewrite <-Hp.
  assert (pending (po_workers s) = []) as ->; [|by rewrite app_nil_r].
  unfold pending. clear -Hgone. induction Hgone as [|w ws ->]; [done|]. by cbn.
Qed.

(** Where errors come from: a failure is that of a segment that was handed out, and the
    command takes it only while there are more. *)
Definition fails (handed : list Q) (e : goerr) : Prop :=
  e ≠ EOF ∧ ∃ q, q ∈ handed ∧ snd <$> work q = Some (Err e).
Definition worker_fails (handed : list Q) (w : worker) : Prop :=
  match w with
  | Scanning _ e => e = Err EOF ∨ ∃ q, q ∈ handed ∧ snd <$> work q = Some e
  | _ => True
  end.
Definition blames (segments : list Q) (s : pool Q T) : Prop :=
  (∃ handed, segments = handed ++ po_queue s ∧ Forall (worker_fails handed) (po_workers s)
    ∧ (∀ e, po_errCh s = Some e → fails handed e) ∧ (∀ e, po_err s = Some e → fails handed e ∧ po_queue s ≠ []))
  ∧ ∀ e, po_result s = Some (Err e) → po_err s = Some e.

Lemma fails_more handed q e : fails handed e → fails (handed ++ [q]) e.
Proof. intros (He & q' & Hq & Hw). split; [done|]. exists q'. split; [by apply elem_of_app; left|done]. Qed.
Lemma worker_fails_more handed q w : worker_fails handed w → worker_fails (handed ++ [q]) w.
Proof.
  destruct w as [|calls e|]; [done| |done]. intros [He|(q' & Hq & Hw)]; [by left|]. right. exists q'.
  split; [by apply elem_of_app; left|done].
Qed.

Lemma blames_put segments s i w t :
  po_result s = None → blames segments s →
  (∀ handed, Forall (worker_fails handed) (po_workers s) → worker_fails handed w) → blames segments (put_worker s i w t).
Proof.
  intros Hn ((handed & Hs & Hf & Hch & He) & Hr) Hw. split; [|cbn [put_worker po_result]; by rewrite Hn].
  exists handed. split_and!; [done| |done|done]. cbn [put_worker po_workers]. apply list.Forall_insert; auto.
Qed.

Lemma worker_of handed ws i w : Forall (worker_fails handed) ws → ws !! i = Some w → worker_fails handed w.
Proof. rewrite list.Forall_lookup. eauto. Qed.

Lemma pool_step_blames segments s s' :
  (∀ c t, (do_scan c t).2 = Ok tt ∨ (do_scan c t).2 = Err EOF) → pool_step work s s' → blames segments s → blames segments s'.
Proof.
  intros Hok Hstep. destruct Hstep as
    [seg queue err_ch ws t d i calls e Hi Hw|seg queue e ws t d|queue err err_ch ws t d Hq|s i c calls e t r Hn Hi Hd
    |s i e Hn Hi _|s i e Hn Hi Hne|s i w Hn Hi|s i Hn Hi _|s Hn Hc Hg].
  - intros ((handed & -> & Hf & Hch & He) & Hr). cbn [po_queue po_workers po_errCh po_err po_result] in *.
    split; [|done]. exists (handed ++ [seg]). split_and!; [by rewrite <-app_assoc| | |done].
    + apply list.Forall_insert; [eapply list.Forall_impl; [exact Hf|by apply worker_fails_more]|].
      right. exists seg. rewrite Hw. split; [apply elem_of_app; right; by left|done].
    + intros e' ?. by apply fails_more, Hch.
  - intros ((handed & -> & Hf & Hch & He) & Hr). cbn [po_queue po_workers po_errCh po_err po_result] in *.
    split; [|done]. exists handed. split_and!; [done..|]. intros e' [= <-]. split; [by apply Hch|done].
  - done.
  - intros Hb. apply blames_put; [done|done|]. intros handed Hf. pose proof (worker_of _ _ _ _ Hf Hi) as Hwf.
    destruct (Hok c (po_task s)) as [Ho|Ho]; rewrite Hd in Ho; cbn in Ho; subst r; [done|by left].
  - intros Hb. apply (blames_put segments s i Receiving (po_task s)) in Hb; done.
  - intros ((handed & Hs & Hf & Hch & He) & Hr). pose proof (worker_of _ _ _ _ Hf Hi) as Hwf.
    split; [|done]. exists handed. cbn [fail_with put_worker po_queue po_workers po_errCh po_err].
    split_and!; [done|by apply list.Forall_insert| |done].
    intros e' [= <-]. destruct (po_errCh s) as [e'|]; [by apply Hch|]. destruct Hwf as [[=]|Hwf]; [done|by split].
  - intros (Hb & Hr). split; [done|]. by intros e [=].
  - intros Hb. by apply blames_put.
  - intros (Hb & Hr). split; [done|]. cbn. intros e. by destruct (po_err s) as [e'|]; [intros [= ->]|].
Qed.

(** An error that the command returns is that of a segment before the last one. *)
Lemma pool_Err n segments t0 s e :
  (∀ c t, (do_scan c t).2 = Ok tt ∨ (do_scan c t).2 = Err EOF) →
  pool_reachable work n segments t0 s → po_result s = Some (Err e) →
  ∃ handed later, segments = handed ++ later ∧ later ≠ [] ∧ fails handed e.
Proof.
  intros Hok Hr Hres. assert (blames segments s) as ((handed & Hs & _ & _ & He) & Hb).
  { revert Hr. apply rtc_keeps; [intros ??; by apply pool_step_blames|]. unfold start. split; [|cbn; by case_bool_decide].
    exists []. split_and!; [done| |done|done]. cbn [po_workers]. by apply list.Forall_replicate. }
  destruct (He e (Hb e Hres)) as [Hf Hq]. by exists handed, (po_queue s).
Qed.

(** ** The workers get on *)

(** While segments are handed out, a worker that has gone has left an error. *)
Definition not_abandoned (s : pool Q T) : Prop :=
  po_closed s = false → po_err s = None → Gone ∈ po_workers s → is_Some (po_errCh s).

Lemma put_not_gone (s : pool Q T) i w t : w ≠ Gone → not_abandoned s → not_abandoned (put_worker s i w t).
Proof.
  intros Hw Hs Hc He Hg. apply (Hs Hc He). cbn [put_worker po_workers] in Hg.
  apply list_elem_of_lookup in Hg as [j Hj]. destruct (decide (i = j)) as [<-|Hne].
  - apply list_lookup_insert_Some in Hj as [(_ & ? & _)|[? _]]; done.
  - rewrite list_lookup_insert_ne in Hj by done. by eapply list_elem_of_lookup_2.
Qed.

Lemma pool_step_abandoned s s' : pool_step work s s' → not_abandoned s → not_abandoned s'.
Proof.
  destruct 1 as
    [seg queue err_ch ws t d i calls e Hi Hw|seg queue e ws t d|queue err err_ch ws t d Hq|s i c calls e t r Hn Hi Hd
    |s i e Hn Hi _|s i e Hn Hi Hne|s i w Hn Hi|s i Hn Hi Hc|s Hn Hc Hg].
  - intros Hs. exact (put_not_gone (Pool (seg :: queue) None false err_ch ws t d None) i (Scanning calls e) t ltac:(done) Hs).
  - intros _ _ He. by cbn in He.
  - intros _ Hc. by cbn in Hc.
  - apply put_not_gone. by destruct r.
  - intros Hs. by apply (put_not_gone s i Receiving (po_task s)) in Hs.
  - intros _ _ _ _. by eexists.
  - done.
  - intros _ Hc'. cbn in Hc'. congruence.
  - done.
Qed.

Lemma workers_cases ws :
  (∃ i calls e, ws !! i = Some (Scanning calls e)) ∨ (∃ i, ws !! i = Some Receiving) ∨ Forall (λ w, w = Gone) ws.
Proof.
  induction ws as [|w ws IH]; [by right; right|]. destruct w as [|calls e|].
  - right. left. by exists O.
  - left. by exists O, calls, e.
  - destruct IH as [(i & calls & e & Hi)|[(i & Hi)|Hg]].
    + left. by exists (S i), calls, e.
    + right. left. by exists (S i).
    + right. right. by constructor.
Qed.

Lemma scanning_steps s i calls e :
  po_result s = None → po_workers s !! i = Some (Scanning calls e) → ∃ s', pool_step work s s'.
Proof.
  intros Hn Hi. destruct calls as [|c calls].
  - destruct e as [[]|e|w].
    + eexists. eapply segment_done; eauto.
    + destruct (decide (e = EOF)) as [->|Hne]; eexists; [eapply segment_done|eapply segment_failed]; eauto.
    + eexists. by eapply worker_panics.
  - destruct (do_scan c (po_task s)) as [t r] eqn:Hd. eexists. by eapply scan_entry_step.
Qed.

Lemma pool_progress s :
  not_abandoned s → po_result s = None → po_workers s ≠ [] → Forall (λ q, is_Some (work q)) (po_queue s) →
  ∃ s', pool_step work s s'.
Proof.
  intros Ha Hn Hne Hq. destruct (workers_cases (po_workers s)) as [(i & calls & e & Hi)|Hw].
  { by eapply scanning_steps. }
  destruct (po_closed s) eqn:Hc.
  { destruct Hw as [(i & Hi)|Hg]; eexists; [by eapply worker_returns|by eapply command_returns]. }
  destruct s as [queue err closed errCh ws t d res]. cbn [po_result po_closed po_workers po_queue] in *. subst.
  destruct err as [e|]; [eexists; eapply close_tasks; by right|].
  destruct queue as [|seg queue]; [eexists; eapply close_tasks; by left|].
  destruct Hw as [(i & Hi)|Hg].
  - apply list.Forall_cons in Hq as [[[calls e] Hq] _]. eexists. by eapply hand_out.
  - destruct ws as [|w ws]; [done|]. apply list.Forall_cons in Hg as [-> _].
    destruct (Ha eq_refl eq_refl) as [e He]; [by left|]. cbn in He. subst. eexists. apply take_error.
Qed.

(** Each step makes this smaller. *)
Definition worker_size (w : worker) : nat :=
  match w with Receiving => 1 | Scanning calls _ => length calls + 2 | Gone => 0 end.
Definition unset {A} (o : option A) : nat := match o with Some _ => 0 | None => 1 end.
Definition pool_size (s : pool Q T) : nat :=
  sum_list_with (λ q, length (calls_of q) + 2)%nat (po_queue s) + sum_list_with worker_size (po_workers s)
  + unset (po_err s) + (if po_closed s then 0 else 1) + unset (po_result s).

Lemma calls_size (segments : list Q) :
  sum_list_with (λ q, length (calls_of q) + 2)%nat segments = (length (all_calls segments) + 2 * length segments)%nat.
Proof. unfold all_calls. induction segments as [|q l IH]; [done|]. cbn. rewrite IH, length_app. lia. Qed.

Lemma workers_waiting n : sum_list_with worker_size (replicate n Receiving) = n.
Proof. induction n as [|n IH]; [done|]. cbn. by rewrite IH. Qed.

Lemma workers_size_at ws i w :
  ws !! i = Some w → ∃ rest, sum_list_with worker_size ws = (worker_size w + rest)%nat
    ∧ ∀ w', sum_list_with worker_size (<[i := w']> ws) = (worker_size w' + rest)%nat.
Proof.
  intros (l1 & l2 & -> & Hi)%worker_at. exists (sum_list_with worker_size l1 + sum_list_with worker_size l2)%nat.
  split; [|intros w'; rewrite Hi]; rewrite sum_list_with_app; cbn [sum_list_with]; lia.
Qed.

Lemma put_worker_size (s : pool Q T) i w w' t :
  po_workers s !! i = Some w → (worker_size w' < worker_size w)%nat → (pool_size (put_worker s i w' t) < pool_size s)%nat.
Proof.
  intros (rest & Hw & Hi)%workers_size_at Hlt. unfold pool_size.
  cbn [put_worker po_queue po_workers po_err po_closed po_result]. rewrite Hw, Hi. lia.
Qed.

Lemma pool_step_size s s' : pool_step work s s' → (pool_size s' < pool_size s)%nat.
Proof.
  destruct 1 as
    [seg queue err_ch ws t d i calls e Hi Hw|seg queue e ws t d|queue err err_ch ws t d Hq|s i c calls e t r Hn Hi Hd
    |s i e Hn Hi _|s i e Hn Hi Hne|s i w Hn Hi|s i Hn Hi Hc|s Hn Hc Hg].
  - apply workers_size_at in Hi as (rest & Hws & Hi). unfold pool_size. cbn [po_queue po_workers po_err po_closed po_result].
    rewrite Hws, Hi. cbn [sum_list_with worker_size]. unfold calls_of at 2. rewrite Hw. lia.
  - unfold pool_size. cbn. lia.
  - unfold pool_size. cbn. lia.
  - eapply put_worker_size; [done|]. destruct r; cbn; lia.
  - exact (put_worker_size s i _ Receiving (po_task s) Hi ltac:(cbn; lia)).
  - exact (put_worker_size s i _ Gone (po_task s) Hi ltac:(cbn; lia)).
  - unfold pool_size. cbn [end_with po_queue po_workers po_err po_closed po_result]. rewrite Hn. cbn. lia.
  - exact (put_worker_size s i _ Gone (po_task s) Hi ltac:(cbn; lia)).
  - unfold pool_size. cbn [end_with po_queue po_workers po_err po_closed po_result]. rewrite Hn. cbn. lia.
Qed.

Lemma pool_steps_bounded k s s' : nsteps (pool_step work) k s s' → (k ≤ pool_size s)%nat.
Proof.
  induction 1 as [s|k s1 s2 s3 Hs _ IH]; [lia|]. apply pool_step_size in Hs. lia.
Qed.

Lemma pool_kept s s' :
  pool_step work s s' → length (po_workers s') = length (po_workers s) ∧ suffix (po_queue s') (po_queue s).
Proof.
  destruct 1; cbn; rewrite ?length_insert; split; try done. by eexists [_].
Qed.
End pool_properties.

Section command_properties.
Context {J FA A B P F C R K : Type} `{JsonMap J} `{ArrowFile FA A} `{Arrow A B} `{ScalarFieldProto}.
Context `{ExprLang P} `{MapOrder} `{JsonDoc R} `{Parquet F C} `{SegmentFields}.

#[local] Abbreviation work := (scan_work (J:=J) (FA:=FA) (A:=A) (B:=B) (P:=P) (F:=F) (K:=K)).

(** The calls of the scan of a segment whose rows are readable: its rows that the filters
    accept, each with its position. *)
Definition row_call (decode : BatchInfo * RecordBatch A * Z → gmap Z any * PrimaryKey)
    (r : BatchInfo * RecordBatch A * Z * Z) : ScanCall :=
  Call (decode r.1).2 r.1.1.1 r.2 (decode r.1).1.

Lemma scan_all_calls filters decode keep (rows : list (BatchInfo * RecordBatch A * Z * Z)) calls :
  (∀ r, r ∈ rows → match_filters (P:=P) filters (decode r.1).2 (decode r.1).1 = Ok (keep r.1)) →
  scan_all filters decode rows (Rec calls)
  = (Rec (calls ++ map (row_call decode) (filter (λ r, keep r.1 = true) rows)), Ok tt).
Proof.
  revert calls. induction rows as [|[r o] rows IH]; intros calls Hk; cbn [scan_all].
  { by rewrite app_nil_r. }
  pose proof (Hk (r, o) ltac:(left)) as Hr. cbn [fst] in Hr.
  destruct (decode r) as [values pk] eqn:Hd. cbn [fst snd] in Hr. unfold scan. rewrite Hr, filter_cons. cbn [fst].
  destruct (keep r); cbn [Scan Recorder_ScanTask rec_calls].
  - rewrite decide_True by done. rewrite IH by (intros; apply Hk; by right). cbn [map]. rewrite <-app_assoc.
    unfold row_call at 2. cbn [fst snd]. by rewrite Hd.
  - rewrite decide_False by done. apply IH. intros. apply Hk. by right.
Qed.

Lemma Range_calls (si : SegmentIterator P) decode keep ds fuel :
  scannable (J:=J) (FA:=FA) (B:=B) si decode ds → (length ds < fuel)%nat →
  (∀ r, r ∈ with_offsets [] (concat (map (rows_of (B:=B)) ds)) →
     match_filters (si_filters si) (decode r.1).2 (decode r.1).1 = Ok (keep r.1)) →
  Range (J:=J) (FA:=FA) (B:=B) fuel si (Rec [])
  = Some (Rec (map (row_call decode)
            (filter (λ r, keep r.1 = true) (with_offsets [] (concat (map (rows_of (B:=B)) ds))))), Ok tt).
Proof. intros Hs Hf Hk. rewrite (Range_all si decode ds) by done. by rewrite (scan_all_calls _ _ keep). Qed.

Lemma any_task_Err c (t : AnyTask) : (do_scan c t).2 = Ok tt ∨ (do_scan c t).2 = Err EOF.
Proof.
  destruct t as [t|t|t]; [by left| |by left]. unfold do_scan. cbn. destruct (_ && _); cbn; auto.
Qed.

(** Counting, and looking for duplicates, calls of a part of the tasks. *)
Definition counts (t : AnyTask) : Prop := match t with ALocate _ => False | _ => True end.
Lemma counts_all : takes_all counts.
Proof. by intros c [t|t|t]. Qed.
Lemma count_calls calls z :
  foldl scanned (ACount (CT z)) calls = ACount (foldl (λ t _, CT (int64 (count_counter t + 1))) (CT z) calls).
Proof. revert z. induction calls as [|c calls IH]; intros z; [done|]. cbn [foldl]. apply IH. Qed.
Lemma count_all calls z :
  0 ≤ z → z + zlen calls < 2 ^ 63 →
  foldl (λ t (_ : ScanCall), CT (int64 (count_counter t + 1))) (CT z) calls = CT (z + zlen calls).
Proof.
  revert z. induction calls as [|c calls IH]; intros z Hz Hlt; [by rewrite Z.add_0_r|].
  rewrite zlen_cons in *. pose proof (zlen_nonneg calls). cbn [foldl count_counter].
  rewrite wraps_id by (unfold in_s; lia). rewrite IH by lia. f_equal. lia.
Qed.
Lemma dedup_calls calls t :
  foldl scanned (ADedup t) calls = ADedup (foldl (λ t pk, Dedup_Scan pk t) t (map call_pk calls)).
Proof. revert t. induction calls as [|c calls IH]; intros t; [done|]. cbn [foldl map]. apply IH. Qed.

(** C19 (safety): however the workers are scheduled, a [scan-binlog] that succeeds has
    counted the rows of all its segments that the filters accept, those of a segment that
    fails up to the failure; and with the action [dedup] it has the number of rows whose key
    was met before, and each such key with its number of repetitions. *)
Theorem ScanBinlog_totals fuel pl cli n :
  let calls := all_calls (work fuel pl cli) (pl_segments pl) in
  let keys := map call_pk calls in
  zlen calls < 2 ^ 63 →
  (∀ s, pool_reachable (work fuel pl cli) n (pl_segments pl) (ACount NewCountTask) s → po_result s = Some (Ok tt) →
     Summary (λ _, []) (po_task s) = (Some (zlen calls), []))
  ∧ ∀ s, pool_reachable (work fuel pl cli) n (pl_segments pl) (ADedup NewDedupTask) s → po_result s = Some (Ok tt) →
      ∃ t, po_task s = ADedup t
        ∧ dedup_counter t = zlen keys - Z.of_nat (size (list_to_set (map PK_GetValue keys) : gset any))
        ∧ ∀ pk, dedupResult t !! PK_GetValue pk =
            let n := zlen (filter (λ k, k = pk) keys) in if bool_decide (n ≤ 1) then None else Some (n - 1).
Proof.
  intros calls keys Hlt.
  assert (∀ s (t0 : AnyTask), counts t0 → pool_reachable (work fuel pl cli) n (pl_segments pl) t0 s → po_result s = Some (Ok tt) →
    ∃ hist, hist ≡ₚ calls ∧ po_task s = foldl scanned t0 hist) as Hpool.
  { intros s t0 Ht0 Hr Hres. apply (pool_Ok (work fuel pl cli) counts n); [apply counts_all|done..]. }
  split; intros s Hr Hres.
  - destruct (Hpool s (ACount NewCountTask) I Hr Hres) as (hist & Hp & ->).
    assert (zlen hist = zlen calls) as Hl by (unfold zlen; by rewrite Hp).
    unfold NewCountTask. rewrite count_calls, count_all by (rewrite ?Hl; lia). cbn. by rewrite Hl.
  - destruct (Hpool s (ADedup NewDedupTask) I Hr Hres) as (hist & Hp & ->).
    exists (foldl (λ t pk, Dedup_Scan pk t) NewDedupTask (map call_pk hist)). split; [apply dedup_calls|].
    assert (map call_pk hist ≡ₚ keys) as Hk by (by apply Permutation_map).
    assert (zlen (map call_pk hist) = zlen keys) as Hl by (unfold zlen; by rewrite Hk).
    destruct (Dedup_Scan_spec (map call_pk hist)) as (Hids & Hres' & Hc).
    { rewrite Hl. unfold keys, zlen in *. by rewrite length_map. }
    rewrite Hc, Hids, Hl. split.
    + do 3 f_equal. apply set_eq. intros x. rewrite !elem_of_list_to_set. by apply elem_of_Permutation_proper, Permutation_map.
    + intros pk. rewrite Hres'.
      assert (zlen (filter (λ k, k = pk) (map call_pk hist)) = zlen (filter (λ k, k = pk) keys)) as ->; [|done].
      unfold zlen. f_equal. by apply Permutation_length, filter_Permutation.
Qed.

(** C20 (liveness): the command gets to its end: with at least one worker, and segments whose
    reading ends, no run gets stuck before the command has returned, and none is longer than
    three steps, one for each worker, and for each segment two and its calls. *)
Theorem ScanBinlog_ends fuel pl cli n :
  1 ≤ n → Forall (λ q, is_Some (work fuel pl cli q)) (pl_segments pl) →
  let work := work fuel pl cli in
  (∀ s, pool_reachable work n (pl_segments pl) (pl_task pl) s → po_result s = None → ∃ s', pool_step work s s')
  ∧ ∀ k s, nsteps (pool_step work) k (start n (pl_segments pl) (pl_task pl)) s →
      Z.of_nat k ≤ zlen (all_calls work (pl_segments pl)) + 2 * zlen (pl_segments pl) + n + 3.
Proof.
  intros Hn Hq work. split.
  - intros s Hr Hres. apply pool_progress; [|done|..].
    + revert Hr. apply rtc_keeps; [apply pool_step_abandoned|]. intros _ _ Hg. cbn in Hg.
      apply elem_of_replicate in Hg as [? _]. done.
    + intros He. assert (length (po_workers s) = Z.to_nat n) as Hl; [|rewrite He in Hl; cbn in Hl; lia].
      revert Hr. apply (rtc_keeps _ (λ s, length (po_workers s) = Z.to_nat n)); [|apply length_replicate].
      intros a b Hs. by rewrite (proj1 (pool_kept work a b Hs)).
    + assert (suffix (po_queue s) (pl_segments pl)) as [l Hl].
      { revert Hr. apply (rtc_keeps _ (λ s, suffix (po_queue s) (pl_segments pl))); [|done].
        intros a b Hs Ha. etrans; [apply (proj2 (pool_kept work a b Hs))|done]. }
      rewrite Hl in Hq. by apply list.Forall_app in Hq as [_ Hq].
  - intros k s Hk%pool_steps_bounded. unfold pool_size, start in Hk.
    cbn [po_queue po_workers po_err po_closed po_result unset] in Hk. rewrite bool_decide_false in Hk by lia.
    rewrite workers_waiting in Hk. unfold zlen.
    rewrite calls_size in Hk. cbn [unset] in Hk. lia.
Qed.

(** C24 (error): an error that the command returns is that of a segment which is not the
    last one, and never the end of a file: what the last segment fails with is not reported. *)
Theorem ScanBinlog_reports fuel pl cli n s e :
  let work := work fuel pl cli in
  pool_reachable work n (pl_segments pl) (pl_task pl) s → po_result s = Some (Err e) →
  e ≠ EOF ∧ ∃ before q after, pl_segments pl = before ++ q :: after ∧ after ≠ [] ∧ snd <$> work q = Some (Err e).
Proof.
  intros work Hr Hres. destruct (pool_Err work n _ _ s e any_task_Err Hr Hres) as (handed & later & Hs & Hl & He & q & Hq & Hw).
  split; [done|]. apply list_elem_of_split in Hq as (l1 & l2 & ->). exists l1, q, (l2 ++ later).
  split_and!; [by rewrite Hs, <-app_assoc| |done]. by intros [_ ?]%app_nil.
Qed.

(** With one worker and one segment the command succeeds, also when the segment fails. *)
Lemma scanning_run (w : ModelSegment K → option (list ScanCall * res unit)) calls e (t : AnyTask) :
  counts t →
  rtc (pool_step w) (Pool [] None false None [Scanning calls e] t 0 None)
    (Pool [] None false None [Scanning [] e] (foldl scanned t calls) 0 None).
Proof.
  revert t. induction calls as [|c calls IH]; intros t Ht; [done|]. cbn [foldl].
  destruct (counts_all c t Ht) as [Ho Hg]. eapply rtc_l; [|by apply IH].
  refine (scan_entry_step w (Pool [] None false None [Scanning (c :: calls) e] t 0 None) O c calls e (scanned t c)
            (Ok tt) eq_refl eq_refl _).
  unfold scanned. cbn [po_task]. by rewrite <-Ho, <-surjective_pairing.
Qed.
Lemma one_segment_run (w : ModelSegment K → option (list ScanCall * res unit)) q calls e (t : AnyTask) :
  counts t → w q = Some (calls, e) → (∀ why, e ≠ Panic why) →
  ∃ s, pool_reachable w 1 [q] t s ∧ po_result s = Some (Ok tt) ∧ po_task s = foldl scanned t calls.
Proof.
  intros Ht Hw He. set (t' := foldl scanned t calls).
  assert (∃ d ch, rtc (pool_step w) (Pool [] None false None [Scanning [] e] t' 0 None) (Pool [] None true ch [Gone] t' d None))
    as (d & ch & Hend).
  { destruct e as [[]|e|why]; [|destruct (decide (e = EOF)) as [->|Hne]|by destruct (He why)].
    1-2: exists 1, None; (eapply rtc_l;
        [apply (segment_done w (Pool [] None false None [Scanning [] _] t' 0 None) O _ eq_refl eq_refl); auto|]);
      (eapply rtc_l; [apply close_tasks; by left|]); by apply rtc_once, (worker_returns _ (Pool [] None true None [Receiving] t' 1 None) O).
    exists 0, (Some e). eapply rtc_l;
      [by apply (segment_failed w (Pool [] None false None [Scanning [] (Err e)] t' 0 None) O e eq_refl eq_refl)|].
    apply rtc_once, close_tasks. by left. }
  exists (Pool [] None true ch [Gone] t' d (Some (Ok tt))). split_and!; [|done..]. unfold pool_reachable.
  eapply rtc_l; [by apply (hand_out w q [] None [Receiving] t 0 O calls e)|].
  etrans; [by apply scanning_run|]. etrans; [exact Hend|].
  apply rtc_once, (command_returns w (Pool [] None true ch [Gone] t' d None)); [done..|]. by repeat constructor.
Qed.

(** Without workers the command waits forever for one to take the first segment. *)
Lemma ScanBinlog_no_workers (w : ModelSegment K → option (list ScanCall * res unit)) q segments (t : AnyTask) s :
  ¬ pool_step w (start 0 (q :: segments) t) s.
Proof.
  intros Hs. assert (∀ i wk, ([] : list worker) !! i = Some wk → False) as Hnone by done.
  inversion Hs; subst;
    first [eapply Hnone; eassumption|by match goal with Hq : _ ∨ is_Some None |- _ => destruct Hq as [?|[? ?]] end|done].
Qed.
End command_properties.

(** ** A concrete segment

    Two files of version 2; each byte is a row whose time stamp and key it is.  Key 6 was
    deleted in level 0. *)
#[local] Instance two_columns : ArrowFile (list byte) Z := {
  OpenArrow bs := Ok bs;
  SchemaFieldIDs _ := Ok [Some "1"; Some "101"];
  ArrowRowGroups _ := 1;
  GetRecordReader bs _ _ := Ok (map (λ b, [Z_of_byte b; Z_of_byte b]) bs);
}.
#[local] Instance v2_segments : SegmentFields := {|
  si_MaxRowNum _ := 100; si_Level _ := 2; si_IsSorted _ := true; si_StorageVersion _ := 2;
  si_TextStatsLogs _ := []; SegmentLevel_String _ := "L2";
|}.
Definition scan_log_at (path : string) : Binlog := MkBinlog 0 0 0 path 0 0 0.
Definition scan_model : ModelSegment unit :=
  MkSegment (MkSegmentInfo 7 1 2 "" 3 SegmentState_Flushed None None [] [] [] "")
    [MkFieldBinlog 0 [scan_log_at "a"; scan_log_at "b"] []] [] [] "7" true (λ _, Ok ([], [], [])).
Definition scan_fields_of_model : list DeltaData.FieldSchema :=
  [DeltaData.FS 1 "timestamp" false DataType_Int64; DeltaData.FS 101 "pk" true DataType_Int64].
Definition scan_plan (task : AnyTask) (segments : list (ModelSegment unit)) : ScanPlan unit any :=
  MkScanPlan task segments DataType_Int64 scan_fields_of_model (scan_fields scan_fields_of_model ∅)
    {[VInt64 6 := 100]} None
    (λ path, if bool_decide (path = "a") then Ok [x05; x06] else if bool_decide (path = "b") then Ok [x05]
             else Err (Errorf "no such object")).
Definition model_work (pl : ScanPlan unit any) : ModelSegment unit → option (list ScanCall * res unit) :=
  scan_work (J:=string) (FA:=list byte) (A:=Z) (B:=unit) (F:=list (list Z)) 10 pl ().

Definition scan_row (b : Z) (f : string) (bs : list byte) : ScanCall :=
  Call (Int64PrimaryKey 5) (BI 7 b {[0 := bs]} {[0 := f]}) 0 {[1 := VInt64 5; 101 := VInt64 5]}.
Lemma scan_model_work task segments :
  model_work (scan_plan task segments) scan_model = Some ([scan_row 0 "a" [x05; x06]; scan_row 1 "b" [x05]], Ok tt).
Proof. vm_compute. reflexivity. Qed.

Lemma ScanBinlog_totals_witness :
  ∃ s t, pool_reachable (model_work (scan_plan (ADedup NewDedupTask) [scan_model])) 1 [scan_model] (ADedup NewDedupTask) s
    ∧ po_task s = ADedup t ∧ dedup_counter t = 1 ∧ dedupResult t !! VInt64 5 = Some 1.
Proof.
  destruct (one_segment_run (model_work (scan_plan (ADedup NewDedupTask) [scan_model])) scan_model _ _ (ADedup NewDedupTask) I
              (scan_model_work _ _)) as (s & Hr & Hres & _); [discriminate|].
  pose proof (ScanBinlog_totals (J:=string) (FA:=list byte) (A:=Z) (B:=unit) (F:=list (list Z)) 10
    (scan_plan (ADedup NewDedupTask) [scan_model]) () 1) as Htot.
  destruct Htot as [_ Htot]; [vm_compute; reflexivity|]. destruct (Htot s Hr Hres) as (t & Ht & Hc & Hd). clear Htot.
  exists s, t. split; [exact Hr|]. split; [exact Ht|]. split.
  - rewrite Hc. vm_compute. reflexivity.
  - change (VInt64 5) with (PK_GetValue (Int64PrimaryKey 5)). rewrite Hd. vm_compute. reflexivity.
Defined.

Lemma ScanBinlog_ends_witness :
  let pl := scan_plan (ACount NewCountTask) [scan_model] in
  (∃ s', pool_step (model_work pl) (start 4 [scan_model] (ACount NewCountTask)) s')
  ∧ ∀ k s, nsteps (pool_step (model_work pl)) k (start 4 [scan_model] (ACount NewCountTask)) s → Z.of_nat k ≤ 11.
Proof.
  intros pl. destruct (ScanBinlog_ends (J:=string) (FA:=list byte) (A:=Z) (B:=unit) (F:=list (list Z)) 10 pl () 4) as [He Hb].
  - lia.
  - constructor; [|constructor]. vm_compute. eexists. reflexivity.
  - split; [apply He; [apply rtc_refl|reflexivity]|]. intros k s Hk.
    pose proof (Hb k s Hk) as Hle. match type of Hle with _ ≤ ?r => assert (r = 11) as Hr by (vm_compute; reflexivity) end.
    rewrite Hr in Hle. exact Hle.
Defined.

(** A segment whose file is missing. *)
Definition scan_missing : ModelSegment unit :=
  MkSegment (MkSegmentInfo 8 1 2 "" 3 SegmentState_Flushed None None [] [] [] "")
    [MkFieldBinlog 0 [scan_log_at "c"] []] [] [] "8" true (λ _, Ok ([], [], [])).
Definition missing_error : goerr := Errorf "no such object".
Lemma scan_missing_work task segments :
  model_work (scan_plan task segments) scan_missing = Some ([], Err missing_error).
Proof. vm_compute. reflexivity. Qed.

(** The failure of the last segment is lost: the command succeeds. *)
Lemma ScanBinlog_error_lost :
  ∃ s, pool_reachable (model_work (scan_plan (ACount NewCountTask) [scan_missing])) 1 [scan_missing] (ACount NewCountTask) s
    ∧ po_result s = Some (Ok tt).
Proof.
  destruct (one_segment_run _ _ _ _ (ACount NewCountTask) I (scan_missing_work (ACount NewCountTask) [scan_missing]))
    as (s & Hr & Hres & _); [done|by exists s].
Qed.

Lemma ScanBinlog_reports_witness :
  let pl := scan_plan (ACount NewCountTask) [scan_missing; scan_model] in
  ∃ s, pool_reachable (model_work pl) 1 (pl_segments pl) (pl_task pl) s ∧ po_result s = Some (Err missing_error)
    ∧ missing_error ≠ EOF.
Proof.
  intros pl. set (t := ACount NewCountTask).
  set (s := Pool [scan_model] (Some missing_error) true None [Gone] t 0 (Some (Err missing_error))).
  assert (pool_reachable (model_work pl) 1 (pl_segments pl) (pl_task pl) s) as Hr.
  { unfold pool_reachable.
    eapply rtc_l; [apply (hand_out _ scan_missing [scan_model] None [Receiving] t 0 O [] (Err missing_error)); [done|apply scan_missing_work]|].
    eapply rtc_l;
      [apply (segment_failed _ (Pool [scan_model] None false None [Scanning [] (Err missing_error)] t 0 None) O
                missing_error eq_refl eq_refl); discriminate|].
    eapply rtc_l; [apply take_error|]. eapply rtc_l; [apply close_tasks; right; eexists; reflexivity|].
    apply rtc_once, (command_returns _ (Pool [scan_model] (Some missing_error) true None [Gone] t 0 None));
      [reflexivity|reflexivity|repeat constructor]. }
  exists s. split; [exact Hr|]. split; [reflexivity|].
  exact (proj1 (ScanBinlog_reports (J:=string) (FA:=list byte) (A:=Z) (B:=unit) (F:=list (list Z)) 10 pl () 1 s missing_error Hr eq_refl)).
Defined.
